(* ===== verification/_CoqProject ===== *)
-Q . S2P
Prelude.v
GoLib.v
GoFmt.v
Table.v
ApiErrors.v
Crypto.v
CacheDB.v
CacheStore.v
CacheEvict.v
Hybrid.v
Sign.v
PinStore.v
SealPin.v
TeePin.v
TeeFetch.v
VerifyDownload.v
FileCrypt.v
Names.v
TreeModel.v
LocalFs.v
FileTypes.v
VfsNode.v
VfsContent.v
Writeback.v
WritebackQueue.v
VfsTree.v
VfsTreeInv.v
Upload.v
Watcher.v
Poller.v
Downloader.v
Daemon.v
ApiClient.v
ChunkedUpload.v
Fetch.v
Exif.v
Config.v
Session.v
SessionInv.v
Agent.v
MobileFiles.v
Mobile.v
VfsRename.v
Reconciler.v
