(* ===== verification/Prelude.v ===== *)
(** * Verification library of the PigCloud CLI

    PigCloud is an end-to-end encrypted file store; this repository is its Go
    client: the [pc] commands, a mounted (FUSE or WinFsp) or synchronised
    folder with a local cache, and the mobile bindings.  The library models the
    logic the client's promises rest on (what is encrypted, signed, trusted,
    cached, queued and lost) as executable functions over explicit state, and
    proves the theorems that make it correct, or that show where it is not.

    ** Layers and files

    Each file opens with what it holds; the Go files are under [src/internal]
    unless a directory is given.

    - Shared: [Prelude] (results, record update, bytes, machine integers),
      [GoLib] and [GoFmt] (the parts of [path], [strings], [hex], [base64],
      [fmt] the code uses), [Table] (the SQL statements the code issues, on
      lists of rows), [Crypto] (the primitives as type classes with laws, and a
      toy instance of each for the witnesses).
    - API errors: [ApiErrors] is [api/errors.go], [api/retry.go] and
      [mount/syncer/failures.go]: kinds of errors, retry delays, back-off.
    - Cryptography: [Hybrid] ([crypto/hybrid.go], [keys.go], [message.go],
      [parent_ref.go]), [Sign] ([crypto/sign.go], [device_transfer.go]),
      [FileCrypt] ([encrypt.go], [decrypt.go]), [Names] ([name.go]).
    - Trust: [PinStore] ([e2ee/signing_pin.go], [peer_signing_pin.go] and the
      four files of pins), [SealPin] ([e2ee/peer_seal_pin.go]).
    - Cache of a mount: [CacheDB] ([mount/cache/db.go]: inodes, writeback queue,
      failures), [CacheStore] ([store.go]: encrypted blobs), [CacheEvict]
      ([evict.go], [mount/syncer/retention.go]).
    - Trees and paths: [TreeModel] ([tree/tree.go], [fetch.go], [cache.go]),
      [LocalFs] (the confinement of remote paths to a sync folder),
      [FileTypes].
    - The mount: [VfsNode] ([mount/vfs/node.go], [validate.go]), [VfsContent]
      (read, write, truncate, flush, release), [VfsTree] (list, create, remove,
      rename), [VfsTreeInv], [VfsListing], [VfsRename] (theorems about it), all
      of [mount/vfs/vfs.go].
    - Synchronisation: [Writeback] and [WritebackQueue]
      ([mount/syncer/writeback.go], [upload_content.go], [upload_identity.go]),
      [Reconciler] ([reconciler.go]).

    ** State and operations

    A node heap maps locations to [Node]s with parent and child pointers
    ([VfsNode]); a [VFS] holds it with the identifier index, the [DB] (two
    tables and the next row identifiers), the [Store] (blobs on disk, the byte
    counter, cached chunks) and the outcome of the next system calls.  Each
    operation is a function from a state, its arguments and the answers of the
    environment (server, clock, disk, randomness) to its result and the next
    state; a lock is a step boundary, so an interleaving of goroutines is a
    sequence of such steps.  Loops over a finite structure recurse on it; the
    others carry fuel, with a theorem that the fuel given is enough
    ([FlushAll_terminates], [RunIfNeeded_swept], [ForceEvict_swept]).

    Random bytes, clock readings, the order of map iteration, answers of the
    server and failures of system calls are arguments, so a theorem quantifies
    over them.  Integers are [Z] with [wrap64] where the code can overflow.

    ** What the theorems show

    - Confidentiality and integrity: sealing, wrapping and file encryption
      invert ([HybridUnseal_HybridSeal], [private_key_wrap_roundtrip],
      [decrypt_EncryptFile]), an altered file is rejected up to an explicit
      collision ([decrypt_authentic]), names pad reversibly
      ([unpad_padDisplayName]).
    - Trust: a contact's pin implements an abstract trust-on-first-use store
      ([PinPeerSealKey_refines]) and moves only by signed rotations
      ([offers_keep_anchors]).
    - Cache: every reachable database and store is well formed
      ([reachable_db_wf], [reachable_store_inv]), a blob read is the window
      asked for ([ReadAt_slice]), eviction and collection remove exactly what
      they may ([RunIfNeeded_swept], [GCOrphans_spec]).
    - No lost edits: the pending flag survives every call but the confirming
      one ([dirty_only_cleared_by_MarkSynced]), a flush is durable
      ([Flush_durable]), an upload marks synced only what it sent
      ([processEntry_no_lost_edit]), failed attempts are retried
      ([processEntry_retry]), no claim is leaked ([batches_release_claims]).
    - Structure: the node heap stays a tree with an exact index
      ([reachable_tree_ok]), a tree built from server rows is acyclic
      ([New_spec]), no remote path leaves the sync folder
      ([localPath_confined]).
    - Behaviour that is wrong in the code: [conflicts_block_queue],
      [Unlink_edited], [Rename_strands_uploads].

    ** Not modelled

    Commands, terminal output, kernel bindings, the IPC of the daemon and of
    the key agent and the transport of requests are input and output around
    the logic above.  JSON is modelled by the document a file or a message
    decodes to.  A crash between two system calls is not a step, except where a
    theorem quantifies over their failures.

    ** Plan

    The upload of a file with its signatures, the enclave pins, the downloader,
    the watcher and the poller come next. *)
From stdpp Require Export base tactics list gmap strings numbers sorting.
From Stdlib Require Export ZArith Lia.
From Stdlib Require Export Strings.Byte Strings.Ascii.
From Stdlib Require Strings.String.

(** ** Scopes and automation databases *)

Declare Scope go_scope.
Delimit Scope go_scope with go.
Open Scope go_scope.

Create HintDb go discriminated.
Create HintDb table discriminated.

(** ** Record update: [r <| f := v |>]

    The updater of a field is found by type-class search from the
    eta-expansion of the record declared as an instance of [Eta]. *)

Class Eta (R : Type) := eta_of : R → R.
Class FieldUpdate {R T : Type} (proj : R → T) := over_field : (T → T) → R → R.

Ltac solve_field_update :=
  lazymatch goal with
  | |- @FieldUpdate ?R ?T ?proj =>
      let inst := constr:(_ : Eta R) in
      let e := eval hnf in inst in
      lazymatch e with context [proj] => idtac end;
      lazymatch eval pattern proj in e with
      | ?body _ => exact (λ f r, body (λ r', f (proj r')) r)
      end
  end.
#[export] Hint Extern 1 (FieldUpdate _) => solve_field_update : typeclass_instances.

Notation "r <| f := v |>" := (over_field (proj := f) (λ _, v) r)
  (at level 1, left associativity, f constr at level 10, v at level 200,
   format "r  <| f  :=  v |>") : go_scope.

(** ** Results of fallible code *)

Inductive result (E A : Type) : Type :=
| Ok (a : A)
| Err (e : E).
Arguments Ok {E A} a.
Arguments Err {E A} e.

#[export] Instance result_ret {E} : MRet (result E) := λ A, Ok.
#[export] Instance result_bind {E} : MBind (result E) := λ A B f m,
  match m with Ok a => f a | Err e => Err e end.
#[export] Instance result_eq_dec {E A} `{EqDecision E, EqDecision A} :
  EqDecision (result E A).
Proof. solve_decision. Defined.

Definition is_ok {E A} (r : result E A) : bool :=
  match r with Ok _ => true | Err _ => false end.

Lemma bind_Ok {E A B} (a : A) (f : A → result E B) : Ok a ≫= f = f a.
Proof. done. Qed.
Lemma bind_Err {E A B} (e : E) (f : A → result E B) : Err e ≫= f = Err e.
Proof. done. Qed.

Lemma bind_Ok_inv {E A B} (m : result E A) (f : A → result E B) b :
  m ≫= f = Ok b → ∃ a, m = Ok a ∧ f a = Ok b.
Proof. destruct m; simpl; [eauto | discriminate]. Qed.

(** Tactics shared by the component files: split the innermost match or [if]
    of the goal or of a hypothesis, and close what becomes contradictory. *)
Ltac split_match :=
  match goal with
  | |- context [if decide ?P then _ else _] => destruct (decide P)
  | H : context [if decide ?P then _ else _] |- _ => destruct (decide P)
  | |- context [match ?x with _ => _ end] => destruct x eqn:?
  | H : context [match ?x with _ => _ end] |- _ => destruct x eqn:?
  end.
Ltac crush_match := repeat (split_match; simplify_eq/=; try done).

(** ** Machine integers *)

(** Two's complement wrap-around of [int64] and the truncating conversions to
    the unsigned widths. *)
Definition wrap64 (z : Z) : Z := (z + 2 ^ 63) mod 2 ^ 64 - 2 ^ 63.
Definition u8 (z : Z) : Z := z mod 2 ^ 8.
Definition u32 (z : Z) : Z := z mod 2 ^ 32.

Definition int64_ok (z : Z) : Prop := (- 2 ^ 63 ≤ z < 2 ^ 63)%Z.

Lemma wrap64_id z : int64_ok z → wrap64 z = z.
Proof. unfold int64_ok, wrap64. intros. rewrite Z.mod_small; lia. Qed.

Lemma wrap64_ok z : int64_ok (wrap64 z).
Proof.
  unfold int64_ok, wrap64.
  pose proof (Z.mod_pos_bound (z + 2 ^ 63) (2 ^ 64)). lia.
Qed.

Lemma u32_id z : (0 ≤ z < 2 ^ 32)%Z → u32 z = z.
Proof. apply Z.mod_small. Qed.
#[export] Hint Resolve wrap64_ok : go.

(** ** Bytes *)

Abbreviation bytes := (list byte).

#[export] Instance byte_eq_decision : EqDecision byte := Byte.byte_eq_dec.
#[export] Instance byte_countable : Countable byte.
Proof.
  refine (inj_countable Byte.to_N Byte.of_N _). exact Byte.of_to_N.
Defined.

Definition Z_of_byte (b : byte) : Z := Z.of_N (Byte.to_N b).
Definition byte_of_Z (z : Z) : byte :=
  match Byte.of_N (Z.to_N (u8 z)) with Some b => b | None => x00 end.

Lemma Z_of_byte_range b : (0 ≤ Z_of_byte b < 256)%Z.
Proof. unfold Z_of_byte. pose proof (Byte.to_N_bounded b). lia. Qed.

Lemma Z_of_byte_of_Z z : Z_of_byte (byte_of_Z z) = (z mod 256)%Z.
Proof.
  unfold Z_of_byte, byte_of_Z, u8. change (2 ^ 8)%Z with 256%Z.
  pose proof (Z.mod_pos_bound z 256 eq_refl).
  destruct (Byte.of_N _) eqn:E.
  - apply Byte.to_of_N in E. rewrite E. lia.
  - apply Byte.of_N_None_iff in E. lia.
Qed.

#[export] Instance Z_of_byte_inj : Inj (=) (=) Z_of_byte.
Proof.
  intros b1 b2 H. unfold Z_of_byte in H. apply N2Z.inj in H.
  pose proof (Byte.of_to_N b1). pose proof (Byte.of_to_N b2). congruence.
Qed.

Lemma byte_of_Z_of_byte b : byte_of_Z (Z_of_byte b) = b.
Proof.
  apply (inj Z_of_byte). rewrite Z_of_byte_of_Z.
  apply Z.mod_small, Z_of_byte_range.
Qed.

(** Big-endian encodings: [binary.BigEndian.PutUint32], [PutUint64] and
    [Uint32] are the instances at widths 4 and 8. *)
Fixpoint be_bytes (n : nat) (z : Z) : bytes :=
  match n with
  | O => []
  | S k => byte_of_Z (Z.shiftr z (8 * Z.of_nat k)) :: be_bytes k z
  end.

Fixpoint be_Z (l : bytes) : Z :=
  match l with
  | [] => 0
  | b :: l' => (Z.shiftl (Z_of_byte b) (8 * Z.of_nat (length l')) + be_Z l')%Z
  end.

Lemma length_be_bytes n z : length (be_bytes n z) = n.
Proof. induction n; simpl; congruence. Qed.

Lemma be_Z_be_bytes n z : be_Z (be_bytes n z) = (z mod 2 ^ (8 * Z.of_nat n))%Z.
Proof.
  induction n as [|k IH]; [simpl; by rewrite Z.mod_1_r|]. cbn [be_bytes be_Z].
  rewrite length_be_bytes, IH, Z_of_byte_of_Z, Z.shiftl_mul_pow2,
    Z.shiftr_div_pow2 by lia.
  replace (8 * Z.of_nat (S k))%Z with (8 * Z.of_nat k + 8)%Z by lia.
  rewrite Z.pow_add_r by lia. change (2 ^ 8)%Z with 256%Z.
  rewrite Z.rem_mul_r by lia. lia.
Qed.

Lemma be_Z_be_bytes_id n z :
  (0 ≤ z < 2 ^ (8 * Z.of_nat n))%Z → be_Z (be_bytes n z) = z.
Proof. intros. rewrite be_Z_be_bytes. by apply Z.mod_small. Qed.

Lemma be_bytes_inj n z1 z2 :
  (0 ≤ z1 < 2 ^ (8 * Z.of_nat n))%Z → (0 ≤ z2 < 2 ^ (8 * Z.of_nat n))%Z →
  be_bytes n z1 = be_bytes n z2 → z1 = z2.
Proof. intros ?? H%(f_equal be_Z). by rewrite !be_Z_be_bytes_id in H. Qed.

Lemma be_Z_bound l : (0 ≤ be_Z l < 2 ^ (8 * Z.of_nat (length l)))%Z.
Proof.
  induction l as [|b l IH]; [simpl; lia|]. cbn [be_Z length].
  rewrite Z.shiftl_mul_pow2 by lia. pose proof (Z_of_byte_range b).
  replace (8 * Z.of_nat (S (length l)))%Z with (8 * Z.of_nat (length l) + 8)%Z by lia.
  rewrite Z.pow_add_r by lia. change (2 ^ 8)%Z with 256%Z. nia.
Qed.

(** [io.ReadFull r buf] over a reader holding the bytes [l], [buf] of length
    [n]: end of input before the first byte is [io.EOF], after it
    [io.ErrUnexpectedEOF]. *)
Inductive read_result : Type :=
| ReadOk (buf rest : bytes)
| ReadEOF
| ReadShort (partial : bytes).

Definition read_full (n : nat) (l : bytes) : read_result :=
  if decide (n ≤ length l) then ReadOk (take n l) (drop n l)
  else match l with [] => ReadEOF | _ => ReadShort l end.

Lemma read_full_app n l1 l2 :
  length l1 = n → read_full n (l1 ++ l2) = ReadOk l1 l2.
Proof.
  intros <-. unfold read_full. rewrite length_app, decide_True by lia.
  by rewrite take_app_length, drop_app_length.
Qed.

Lemma read_full_nil n : 0 < n → read_full n [] = ReadEOF.
Proof. intros. unfold read_full. rewrite decide_False; simpl; [done|lia]. Qed.

Lemma read_full_inv n l buf rest :
  read_full n l = ReadOk buf rest → l = buf ++ rest ∧ length buf = n.
Proof.
  unfold read_full. intros. crush_match.
  rewrite take_drop, length_take. split; [done|lia].
Qed.
