(* ===== verification/GoLib.v ===== *)
(** * The parts of Go's standard library the program uses

    Strings are byte strings, as in Go.  [strings]: Split, Join, Trim,
    TrimLeft, TrimPrefix, ReplaceAll of one byte, HasPrefix; [path]: Clean,
    Dir, Join; [encoding/hex]. *)
From S2P Require Import Prelude.
From Stdlib Require Import String.
From stdpp Require Import strings.
Local Open Scope nat_scope.

Notation "s1 ^^ s2" := (String.append s1 s2) (at level 60, right associativity) : go_scope.

(** ** strings *)

(** [strings.Split(s, c)] for a one-byte separator. *)
Fixpoint split_on (c : ascii) (s : string) : list string :=
  match s with
  | EmptyString => [EmptyString]
  | String a s' =>
      if decide (a = c) then EmptyString :: split_on c s'
      else match split_on c s' with
           | [] => [String a EmptyString]
           | h :: t => String a h :: t
           end
  end.

(** [strings.Join(l, sep)]. *)
Fixpoint join_with (sep : string) (l : list string) : string :=
  match l with
  | [] => EmptyString
  | [x] => x
  | x :: l' => x ^^ sep ^^ join_with sep l'
  end.

Definition slash : ascii := "/"%char.
Definition backslash : ascii := "\"%char.

(** [strings.ReplaceAll(s, a, b)] for one-byte [a] and [b]. *)
Fixpoint replace_all (a b : ascii) (s : string) : string :=
  match s with
  | EmptyString => EmptyString
  | String x s' => String (if decide (x = a) then b else x) (replace_all a b s')
  end.

Fixpoint trim_left (c : ascii) (s : string) : string :=
  match s with
  | EmptyString => EmptyString
  | String a s' => if decide (a = c) then trim_left c s' else s
  end.
Fixpoint trim_right (c : ascii) (s : string) : string :=
  match s with
  | EmptyString => EmptyString
  | String a s' =>
      let t := trim_right c s' in
      if decide (t = EmptyString ∧ a = c) then EmptyString else String a t
  end.
(** [strings.Trim(s, c)] for a one-byte cutset. *)
Definition trim (c : ascii) (s : string) : string := trim_right c (trim_left c s).

Definition has_prefix (p s : string) : bool := String.prefix p s.
(** [strings.TrimPrefix]. *)
Definition trim_prefix (p s : string) : string :=
  if has_prefix p s
  then String.substring (String.length p) (String.length s - String.length p) s
  else s.

Fixpoint contains_char (c : ascii) (s : string) : bool :=
  match s with
  | EmptyString => false
  | String a s' => bool_decide (a = c) || contains_char c s'
  end.

(** The text after the last [c], or the whole string. *)
Definition last_segment (c : ascii) (s : string) : string :=
  default s (last (split_on c s)).

(** ** path *)

(** One step of the element stack of [path.Clean]; the stack holds the kept
    elements, last first. *)
Definition clean_step (rooted : bool) (stack : list string) (elem : string) : list string :=
  if decide (elem = EmptyString ∨ elem = "."%string) then stack
  else if decide (elem = ".."%string) then
    match stack with
    | [] => if rooted then [] else [".."%string]
    | top :: rest => if decide (top = ".."%string) then ".."%string :: stack else rest
    end
  else elem :: stack.

Definition clean_elems (rooted : bool) (elems : list string) : list string :=
  reverse (foldl (clean_step rooted) [] elems).

Definition is_rooted (p : string) : bool :=
  match p with String a _ => bool_decide (a = slash) | EmptyString => false end.

(** [path.Clean]. *)
Definition path_Clean (p : string) : string :=
  let rooted := is_rooted p in
  let body := join_with "/" (clean_elems rooted (split_on slash p)) in
  if rooted then String slash body
  else if decide (body = EmptyString) then "."%string else body.

(** [path.Dir]: clean the text up to and including the last slash. *)
Definition path_Dir (p : string) : string :=
  path_Clean (match removelast (split_on slash p) with
              | [] => EmptyString
              | l => join_with "/" l ^^ "/"
              end).

(** [path.Join(a, b)]. *)
Definition path_Join (a b : string) : string :=
  match filter (λ x, x ≠ EmptyString) [a; b] with
  | [] => EmptyString
  | l => path_Clean (join_with "/" l)
  end.

(** ** encoding/hex *)

Definition hex_digits : list ascii :=
  list_ascii_of_string "0123456789abcdef".
Definition hex_digit (n : N) : ascii := default "0"%char (hex_digits !! N.to_nat n).

(** [hex.EncodeToString] and [fmt.Sprintf("%x", b)]. *)
Fixpoint hex_encode (l : bytes) : string :=
  match l with
  | [] => EmptyString
  | b :: l' =>
      let n := Byte.to_N b in
      String (hex_digit (n / 16)%N) (String (hex_digit (n mod 16)%N) (hex_encode l'))
  end.

Definition from_hex_char (a : ascii) : option N :=
  let n := N_of_ascii a in
  if decide (48 ≤ n ∧ n ≤ 57)%N then Some (n - 48)%N
  else if decide (97 ≤ n ∧ n ≤ 102)%N then Some (n - 87)%N
  else if decide (65 ≤ n ∧ n ≤ 70)%N then Some (n - 55)%N
  else None.

(** [hex.DecodeString]: an odd length or a foreign character is an error. *)
Fixpoint hex_decode (s : string) : option bytes :=
  match s with
  | EmptyString => Some []
  | String a (String b s') =>
      match from_hex_char a, from_hex_char b, hex_decode s' with
      | Some x, Some y, Some l => (λ c, c :: l) <$> Byte.of_N (x * 16 + y)
      | _, _, _ => None
      end
  | String _ EmptyString => None
  end.

(** ** Lemmas *)

Lemma hex_decode_byte b : ∀ l s, hex_decode s = Some l →
  hex_decode (String (hex_digit (Byte.to_N b / 16)%N)
    (String (hex_digit (Byte.to_N b mod 16)%N) s)) = Some (b :: l).
Proof. intros l s H. by destruct b; cbn in *; rewrite H. Qed.

Lemma hex_decode_encode l : hex_decode (hex_encode l) = Some l.
Proof. induction l as [|b l IH]; [done|]. by apply hex_decode_byte. Qed.

#[export] Instance hex_encode_inj : Inj (=) (=) hex_encode.
Proof.
  intros l1 l2 H%(f_equal hex_decode). rewrite !hex_decode_encode in H. congruence.
Qed.

Lemma length_hex_encode l : String.length (hex_encode l) = 2 * List.length l.
Proof. induction l; simpl; lia. Qed.

Lemma split_on_nonempty c s : split_on c s ≠ [].
Proof. destruct s; simpl; [done|]. repeat case_match; done. Qed.

Lemma split_on_no_sep c s : contains_char c s = false → split_on c s = [s].
Proof.
  induction s as [|a s IH]; [done|]. simpl. intros [H1 H2]%orb_false_iff.
  apply bool_decide_eq_false in H1. rewrite decide_False by done. by rewrite IH.
Qed.

Lemma split_on_app c s1 s2 :
  contains_char c s1 = false →
  split_on c (s1 ^^ String c s2) = s1 :: split_on c s2.
Proof.
  induction s1 as [|a s1 IH]; simpl; [by rewrite decide_True|].
  intros [H1 H2]%orb_false_iff. apply bool_decide_eq_false in H1.
  rewrite decide_False by done. by rewrite IH.
Qed.

(** Splitting a join of separator-free elements gives them back. *)
Lemma split_on_join l :
  l ≠ [] → Forall (λ s, contains_char slash s = false) l →
  split_on slash (join_with "/" l) = l.
Proof.
  intros Hne Hf. induction Hf as [|x l Hx Hf IH]; [done|].
  destruct l as [|y l]; [by apply split_on_no_sep|].
  change (join_with "/" (x :: y :: l)) with (x ^^ String slash (join_with "/" (y :: l))).
  rewrite split_on_app by done. by rewrite IH.
Qed.

Lemma split_on_Forall c s : Forall (λ x, contains_char c x = false) (split_on c s).
Proof.
  induction s as [|a s IH]; simpl; [by repeat constructor|].
  case_decide as Ha; [by constructor|].
  destruct (split_on c s) as [|h t] eqn:E; [by destruct (split_on_nonempty c s)|].
  inversion_clear IH. constructor; [|done]. simpl. by rewrite bool_decide_false.
Qed.

Lemma join_split c s : join_with (String c EmptyString) (split_on c s) = s.
Proof.
  induction s as [|a s IH]; [done|]. simpl.
  case_decide as Ha.
  - subst. destruct (split_on c s) as [|h t] eqn:E; [by destruct (split_on_nonempty c s)|].
    change (String c (join_with (String c EmptyString) (h :: t)) = String c s). by rewrite IH.
  - destruct (split_on c s) as [|h t] eqn:E; [by destruct (split_on_nonempty c s)|].
    destruct t; simpl in *; by rewrite <- IH.
Qed.

Lemma append_inj_length s1 s2 t1 t2 :
  String.length s1 = String.length s2 → s1 ^^ t1 = s2 ^^ t2 → s1 = s2 ∧ t1 = t2.
Proof.
  revert s2. induction s1 as [|a s1 IH]; intros [|b s2]; simpl; try done.
  intros [= Hl] [= -> Happ]. destruct (IH s2 Hl Happ) as [-> ->]. done.
Qed.
