(* ===== verification/GoFmt.v ===== *)
(** * Decimal formatting and base64

    [fmt.Sprintf("%d", n)] and [encoding/base64] (the standard alphabet with
    padding), with the facts that make a formatted line parse uniquely. *)
From S2P Require Import Prelude GoLib.
From stdpp Require Import pretty.
Local Open Scope Z_scope.

(** The comma and the double quote. *)
Definition comma : ascii := "044"%char.
Definition quote : ascii := "034"%char.

Definition fmt_d (z : Z) : string := pretty z.
#[export] Instance fmt_d_inj : Inj (=) (=) fmt_d.
Proof. unfold fmt_d. apply _. Qed.

Lemma pretty_N_go_no_char c x : ∀ s,
  (∀ n, pretty_N_char n ≠ c) → contains_char c s = false →
  contains_char c (pretty_N_go x s) = false.
Proof.
  induction (N.lt_wf_0 x) as [x _ IH]; intros s Hc Hs.
  destruct (decide (x = 0)%N) as [->|]; [by rewrite pretty_N_go_0|].
  rewrite pretty_N_go_step by lia. apply IH; [by apply N.div_lt; lia|done|].
  simpl. rewrite Hs, orb_false_r. apply bool_decide_eq_false. apply Hc.
Qed.

Lemma fmt_d_no_char c z :
  (∀ n, pretty_N_char n ≠ c) → c ≠ "-"%char → contains_char c (fmt_d z) = false.
Proof.
  intros Hc Hd. unfold fmt_d. change (pretty z) with (pretty_Z z). unfold pretty_Z.
  assert (∀ n : N, contains_char c (pretty n) = false) as HN.
  { intros n. change (pretty n) with (pretty_N n). unfold pretty_N. case_decide; [|by apply pretty_N_go_no_char].
    simpl. rewrite orb_false_r. apply bool_decide_eq_false. apply (Hc 0%N). }
  destruct z; [apply (HN 0%N)|apply HN|].
  apply orb_false_iff. split; [|exact (HN (N.pos p))].
  apply bool_decide_eq_false. congruence.
Qed.

Lemma fmt_d_no_comma z : contains_char comma (fmt_d z) = false.
Proof.
  apply fmt_d_no_char; [|done]. intros n. unfold pretty_N_char. by repeat case_match.
Qed.

Lemma fmt_d_no_bracket z : contains_char "]"%char (fmt_d z) = false.
Proof.
  apply fmt_d_no_char; [|done]. intros n. unfold pretty_N_char. by repeat case_match.
Qed.

(** ** base64.StdEncoding *)

Definition b64_alphabet : list ascii := String.list_ascii_of_string
  "ABCDEFGHIJKLMNOPQRSTUVWXYZabcdefghijklmnopqrstuvwxyz0123456789+/".
Definition b64_char (n : Z) : ascii := default "A"%char (b64_alphabet !! Z.to_nat (n mod 64)).
Definition b64_pad : ascii := "="%char.

Fixpoint base64_encode (l : bytes) : string :=
  match l with
  | [] => ""
  | [a] =>
      let n := Z_of_byte a * 2 ^ 4 in
      String.String (b64_char (n / 2 ^ 6)) (String.String (b64_char n)
        (String.String b64_pad (String.String b64_pad "")))
  | [a; b] =>
      let n := (Z_of_byte a * 2 ^ 8 + Z_of_byte b) * 2 ^ 2 in
      String.String (b64_char (n / 2 ^ 12)) (String.String (b64_char (n / 2 ^ 6))
        (String.String (b64_char n) (String.String b64_pad "")))
  | a :: b :: c :: l' =>
      let n := Z_of_byte a * 2 ^ 16 + Z_of_byte b * 2 ^ 8 + Z_of_byte c in
      String.String (b64_char (n / 2 ^ 18)) (String.String (b64_char (n / 2 ^ 12))
        (String.String (b64_char (n / 2 ^ 6)) (String.String (b64_char n) (base64_encode l'))))
  end.

Example base64_light : base64_encode [x6c; x69; x67; x68; x74; x20; x77; x6f] = "bGlnaHQgd28=".
Proof. by vm_compute. Qed.

Lemma b64_alphabet_NoDup : NoDup b64_alphabet.
Proof. by apply (bool_decide_unpack _). Qed.

Lemma b64_lookup n : is_Some (b64_alphabet !! Z.to_nat (n mod 64)).
Proof.
  apply lookup_lt_is_Some. pose proof (Z.mod_pos_bound n 64 eq_refl).
  assert (length b64_alphabet = 64%nat) as -> by done. lia.
Qed.

Lemma b64_char_inj n m : b64_char n = b64_char m → n mod 64 = m mod 64.
Proof.
  unfold b64_char. destruct (b64_lookup n) as [a Ha]. destruct (b64_lookup m) as [b Hb].
  rewrite Ha, Hb. simpl. intros ->.
  pose proof (NoDup_lookup _ _ _ _ b64_alphabet_NoDup Ha Hb).
  pose proof (Z.mod_pos_bound n 64 eq_refl). pose proof (Z.mod_pos_bound m 64 eq_refl). lia.
Qed.

Lemma b64_char_in n : b64_char n ∈ b64_alphabet.
Proof.
  unfold b64_char. destruct (b64_lookup n) as [a Ha]. rewrite Ha.
  by eapply list_elem_of_lookup_2.
Qed.

Lemma b64_char_ne n c : c ∉ b64_alphabet → b64_char n ≠ c.
Proof. intros Hc <-. apply Hc, b64_char_in. Qed.

Lemma b64_char_pad n : b64_char n ≠ b64_pad.
Proof. apply b64_char_ne. by apply (bool_decide_unpack _). Qed.

(** Three bytes from their four sextets. *)
Lemma sextets n m :
  0 ≤ n < 2 ^ 24 → 0 ≤ m < 2 ^ 24 →
  (n / 2 ^ 18) mod 64 = (m / 2 ^ 18) mod 64 → (n / 2 ^ 12) mod 64 = (m / 2 ^ 12) mod 64 →
  (n / 2 ^ 6) mod 64 = (m / 2 ^ 6) mod 64 → n mod 64 = m mod 64 → n = m.
Proof. intros. Z.to_euclidean_division_equations. lia. Qed.

Ltac b64_split :=
  repeat match goal with
  | H : String.String _ _ = String.String _ _ |- _ => injection H as ? ?
  | H : b64_char _ = b64_char _ |- _ => apply b64_char_inj in H
  | H : b64_char _ = b64_pad |- _ => by apply b64_char_pad in H
  | H : b64_pad = b64_char _ |- _ => symmetry in H
  end.

#[export] Instance base64_encode_inj : Inj (=) (=) base64_encode.
Proof.
  assert (∀ k l1 l2, (length l1 ≤ k)%nat → base64_encode l1 = base64_encode l2 → l1 = l2) as Hk;
    [|by intros l1 l2; apply (Hk (length l1))].
  induction k as [|k IH]; intros l1 l2 Hl Heq.
  { destruct l1; simpl in *; [|lia]. by destruct l2 as [|a [|b [|c l2]]]. }
  destruct l1 as [|a1 [|b1 [|c1 l1]]], l2 as [|a2 [|b2 [|c2 l2]]]; try done;
    cbn [base64_encode] in Heq; b64_split.
  - pose proof (Z_of_byte_range a1). pose proof (Z_of_byte_range a2).
    f_equal. apply (inj Z_of_byte). Z.to_euclidean_division_equations. lia.
  - pose proof (Z_of_byte_range a1). pose proof (Z_of_byte_range a2).
    pose proof (Z_of_byte_range b1). pose proof (Z_of_byte_range b2).
    assert (Z_of_byte a1 = Z_of_byte a2 ∧ Z_of_byte b1 = Z_of_byte b2) as [->%(inj _) ->%(inj _)];
      [|done].
    Z.to_euclidean_division_equations. lia.
  - pose proof (Z_of_byte_range a1). pose proof (Z_of_byte_range a2).
    pose proof (Z_of_byte_range b1). pose proof (Z_of_byte_range b2).
    pose proof (Z_of_byte_range c1). pose proof (Z_of_byte_range c2).
    match goal with H1 : (?x / 2 ^ 18) mod 64 = (?y / 2 ^ 18) mod 64 |- _ =>
      assert (x = y) by (apply sextets; try done; lia) end.
    assert (Z_of_byte a1 = Z_of_byte a2 ∧ Z_of_byte b1 = Z_of_byte b2 ∧
            Z_of_byte c1 = Z_of_byte c2) as (->%(inj _) & ->%(inj _) & ->%(inj _)) by lia.
    do 3 f_equal. apply IH; [simpl in Hl; lia|done].
Qed.

Lemma base64_no_quote l : contains_char quote (base64_encode l) = false.
Proof.
  assert (∀ n, bool_decide (b64_char n = quote) = false) as Hq.
  { intros n. apply bool_decide_eq_false, b64_char_ne. by apply (bool_decide_unpack _). }
  assert (∀ k l, (length l ≤ k)%nat → contains_char quote (base64_encode l) = false) as Hk;
    [|by apply (Hk (length l))].
  clear l. induction k as [|k IH]; intros l Hl; [by destruct l; simpl in *; [|lia]|].
  destruct l as [|a [|b [|c l]]]; cbn [base64_encode contains_char]; rewrite ?Hq; try done.
  simpl. apply IH. simpl in Hl. lia.
Qed.

(** Two lines that agree up to a separator absent from both heads agree on each
    side of it. *)
Lemma append_sep_inj c s1 s2 t1 t2 :
  contains_char c s1 = false → contains_char c s2 = false →
  s1 ^^ String.String c t1 = s2 ^^ String.String c t2 → s1 = s2 ∧ t1 = t2.
Proof.
  revert s2. induction s1 as [|a s1 IH]; intros [|b s2]; simpl; intros H1 H2 Heq.
  - injection Heq as ->. done.
  - injection Heq as -> _. by rewrite bool_decide_true in H2.
  - injection Heq as -> _. by rewrite bool_decide_true in H1.
  - apply orb_false_iff in H1 as [_ H1]. apply orb_false_iff in H2 as [_ H2].
    injection Heq as -> Heq. destruct (IH s2 H1 H2 Heq) as [-> ->]. done.
Qed.

(** *** DecodeString

    Line breaks are skipped; padding is required, and the unused bits of the
    last quantum are not looked at. *)
Definition b64_value (a : ascii) : option Z :=
  Z.of_nat ∘ fst <$> list_find (λ b, b = a) b64_alphabet.

Fixpoint strip_breaks (s : string) : string :=
  match s with
  | String.EmptyString => ""
  | String.String a s' =>
      if decide (a = "010"%char ∨ a = "013"%char) then strip_breaks s'
      else String.String a (strip_breaks s')
  end.

Fixpoint b64_quanta (s : string) : option bytes :=
  match s with
  | String.EmptyString => Some []
  | String.String a (String.String b (String.String c (String.String d rest))) =>
      va ← b64_value a; vb ← b64_value b;
      if decide (d = b64_pad) then
        if decide (rest = "") then
          if decide (c = b64_pad) then Some [byte_of_Z ((va * 2 ^ 6 + vb) / 2 ^ 4)]
          else vc ← b64_value c;
               let n := va * 2 ^ 12 + vb * 2 ^ 6 + vc in
               Some [byte_of_Z (n / 2 ^ 10); byte_of_Z (n / 2 ^ 2)]
        else None
      else
        vc ← b64_value c; vd ← b64_value d; l ← b64_quanta rest;
        let n := va * 2 ^ 18 + vb * 2 ^ 12 + vc * 2 ^ 6 + vd in
        Some (byte_of_Z (n / 2 ^ 16) :: byte_of_Z (n / 2 ^ 8) :: byte_of_Z n :: l)
  | _ => None
  end.
Definition base64_decode (s : string) : option bytes := b64_quanta (strip_breaks s).

Example base64_decode_light :
  base64_decode ("bGlnaHQg" ^^ String.String "010" "d28=")
  = Some [x6c; x69; x67; x68; x74; x20; x77; x6f] ∧
  base64_decode "bGln=A==" = None ∧ base64_decode "bGk" = None ∧ base64_decode "bE==" = Some [x6c].
Proof. by vm_compute. Qed.

Lemma b64_value_char n : b64_value (b64_char n) = Some (n mod 64).
Proof.
  unfold b64_value, b64_char. destruct (b64_lookup n) as [a Ha]. rewrite Ha. cbn [default from_option].
  match goal with |- context [@list_find ?T ?P ?D ?l] => destruct (@list_find T P D l) as [[i x]|] eqn:E end.
  - apply list_find_Some in E as (Hi & -> & _).
    pose proof (NoDup_lookup _ _ _ _ b64_alphabet_NoDup Ha Hi).
    pose proof (Z.mod_pos_bound n 64 eq_refl). simpl. f_equal. lia.
  - apply list_find_None in E. rewrite Forall_forall in E.
    by destruct (E a (list_elem_of_lookup_2 _ _ _ Ha)).
Qed.

Lemma strip_breaks_base64 l : strip_breaks (base64_encode l) = base64_encode l.
Proof.
  assert (∀ n s, strip_breaks (String.String (b64_char n) s) = String.String (b64_char n) (strip_breaks s)) as Hc.
  { intros n s. cbn [strip_breaks]. rewrite decide_False; [done|].
    intros [H|H]; revert H; apply b64_char_ne; by apply (bool_decide_unpack _). }
  assert (∀ k l, (length l ≤ k)%nat → strip_breaks (base64_encode l) = base64_encode l) as Hk;
    [|by apply (Hk (length l))].
  clear l. induction k as [|k IH]; intros l Hl; [by destruct l; simpl in *; [|lia]|].
  destruct l as [|a [|b [|c l]]]; cbn [base64_encode]; rewrite ?Hc; try done.
  rewrite IH; [done|simpl in Hl; lia].
Qed.

Lemma byte_of_Z_eq n b : n mod 256 = Z_of_byte b → byte_of_Z n = b.
Proof. intros H. apply (inj Z_of_byte). by rewrite Z_of_byte_of_Z. Qed.

Lemma b64_quanta_encode l : b64_quanta (base64_encode l) = Some l.
Proof.
  assert (∀ k l, (length l ≤ k)%nat → b64_quanta (base64_encode l) = Some l) as Hk;
    [|by apply (Hk (length l))].
  clear l. induction k as [|k IH]; intros l Hl; [by destruct l; simpl in *; [|lia]|].
  destruct l as [|a [|b [|c l]]]; [done| | |];
    cbn [base64_encode b64_quanta]; rewrite !b64_value_char; cbn [mbind option_bind].
  - rewrite decide_True, decide_True, decide_True by done.
    pose proof (Z_of_byte_range a). do 2 f_equal. apply byte_of_Z_eq.
    Z.to_euclidean_division_equations. lia.
  - rewrite decide_True, decide_True by done. rewrite decide_False by apply b64_char_pad. cbn [mbind option_bind].
    pose proof (Z_of_byte_range a). pose proof (Z_of_byte_range b).
    do 2 f_equal; [|f_equal]; apply byte_of_Z_eq; Z.to_euclidean_division_equations; lia.
  - rewrite decide_False by apply b64_char_pad. cbn [mbind option_bind]. rewrite IH by (simpl in Hl; lia).
    cbn [mbind option_bind].
    pose proof (Z_of_byte_range a). pose proof (Z_of_byte_range b). pose proof (Z_of_byte_range c).
    do 2 f_equal; [|f_equal; [|f_equal]]; apply byte_of_Z_eq;
      Z.to_euclidean_division_equations; lia.
Qed.

Lemma base64_decode_encode l : base64_decode (base64_encode l) = Some l.
Proof. unfold base64_decode. by rewrite strip_breaks_base64, b64_quanta_encode. Qed.
