(* ===== verification/Table.v ===== *)
(** * Tables: the SQL statements the cache database executes

    A table is the list of its rows in rowid order; a WHERE clause is a
    decidable predicate.  [sql_update], [sql_delete], [sql_select],
    [sql_count] and [sql_first] are the statements of [mount/cache/db.go];
    ORDER BY is a stable merge sort and LIMIT keeps a prefix. *)
From S2P Require Import Prelude.

Section table.
Context {R : Type}.
Implicit Types (t : list R) (P : R → Prop).

Definition sql_select P `{∀ r, Decision (P r)} t : list R := filter P t.
Definition sql_first P `{∀ r, Decision (P r)} t : option R := head (filter P t).
Definition sql_count P `{∀ r, Decision (P r)} t : nat := length (filter P t).
Definition sql_update P `{∀ r, Decision (P r)} (f : R → R) t : list R :=
  (λ r, if decide (P r) then f r else r) <$> t.
Definition sql_delete P `{∀ r, Decision (P r)} t : list R := filter (λ r, ¬ P r) t.
Definition sql_order_by (ord : R → R → Prop) `{!RelDecision ord} t : list R :=
  merge_sort ord t.
(** SUM over an integer column. *)
Definition sql_sum (col : R → Z) t : Z := foldr (λ r, Z.add (col r)) 0%Z t.

Section where_clause.
Context (P : R → Prop) `{∀ r, Decision (P r)}.

Lemma elem_of_sql_select t r : r ∈ sql_select P t ↔ P r ∧ r ∈ t.
Proof. apply (list_elem_of_filter P). Qed.

Lemma elem_of_sql_delete t r : r ∈ sql_delete P t ↔ ¬ P r ∧ r ∈ t.
Proof. apply (list_elem_of_filter (λ r, ¬ P r)). Qed.

Lemma elem_of_sql_update f t r' :
  r' ∈ sql_update P f t ↔ ∃ r, r ∈ t ∧ r' = if decide (P r) then f r else r.
Proof. unfold sql_update. rewrite list_elem_of_fmap. naive_solver. Qed.

Lemma elem_of_sql_update_ne f t r : ¬ P r → r ∈ t → r ∈ sql_update P f t.
Proof.
  intros. apply elem_of_sql_update. exists r. by rewrite decide_False by done.
Qed.

Lemma elem_of_sql_update_eq f t r : P r → r ∈ t → f r ∈ sql_update P f t.
Proof.
  intros. apply elem_of_sql_update. exists r. by rewrite decide_True by done.
Qed.

Lemma sql_update_key {K} (key : R → K) f t :
  (∀ r, P r → key (f r) = key r) → key <$> sql_update P f t = key <$> t.
Proof.
  intros Hf. unfold sql_update. rewrite <- list_fmap_compose.
  apply list_fmap_ext. intros i r _. simpl. case_decide; auto.
Qed.

Lemma Forall_sql_update (Q : R → Prop) f t :
  Forall Q t → (∀ r, Q r → P r → Q (f r)) → Forall Q (sql_update P f t).
Proof.
  intros HQ Hf. apply Forall_fmap. eapply Forall_impl; [done|].
  intros r ?. simpl. case_decide; auto.
Qed.

Lemma Forall_sql_delete (Q : R → Prop) t : Forall Q t → Forall Q (sql_delete P t).
Proof.
  rewrite !Forall_forall. intros HQ r [_ ?]%elem_of_sql_delete. auto.
Qed.

Lemma NoDup_sql_delete {K} (key : R → K) t :
  NoDup (key <$> t) → NoDup (key <$> sql_delete P t).
Proof.
  intros. eapply sublist_NoDup; [done|]. apply fmap_sublist, sublist_filter.
Qed.

Lemma sql_count_zero t : sql_count P t = 0 ↔ Forall (λ r, ¬ P r) t.
Proof.
  unfold sql_count. rewrite length_zero_iff_nil.
  split.
  - intros Hn. apply Forall_forall. intros r Hr HP.
    assert (r ∈ filter P t) as Hi by (by apply list_elem_of_filter).
    rewrite Hn in Hi. by apply not_elem_of_nil in Hi.
  - intros Hf. destruct (filter P t) as [|r l] eqn:E; [done|].
    assert (r ∈ filter P t) as Hi by (rewrite E; left).
    apply list_elem_of_filter in Hi as [??].
    rewrite Forall_forall in Hf. naive_solver.
Qed.

Lemma sql_first_Some t r : sql_first P t = Some r → P r ∧ r ∈ t.
Proof.
  unfold sql_first. intros Hh. apply (list_elem_of_filter P).
  destruct (filter P t); simplify_eq/=. left.
Qed.

Lemma sql_first_None t : sql_first P t = None ↔ Forall (λ r, ¬ P r) t.
Proof.
  rewrite <- sql_count_zero. unfold sql_first, sql_count.
  destruct (filter P t); simpl; split; done.
Qed.

(** An update that does not touch the WHERE clause commutes with it. *)
Lemma sql_update_id t f : Forall (λ r, ¬ P r) t → sql_update P f t = t.
Proof.
  unfold sql_update. induction 1 as [|r t Hr _ IH]; [done|].
  rewrite fmap_cons, IH. by rewrite decide_False.
Qed.

Lemma sql_update_app f t1 t2 :
  sql_update P f (t1 ++ t2) = sql_update P f t1 ++ sql_update P f t2.
Proof. apply fmap_app. Qed.

Lemma length_sql_update f t : length (sql_update P f t) = length t.
Proof. apply length_fmap. Qed.

Lemma length_sql_delete t : length (sql_delete P t) ≤ length t.
Proof. apply length_filter. Qed.
End where_clause.

Section keyed.
Context {K} `{EqDecision K} (key : R → K).

Lemma sql_first_key t k r :
  NoDup (key <$> t) →
  sql_first (λ r, key r = k) t = Some r ↔ r ∈ t ∧ key r = k.
Proof.
  intros Hnd. split.
  - by intros [??]%sql_first_Some.
  - induction t as [|r' t IH]; [by intros [?%not_elem_of_nil _]|].
    inversion_clear Hnd as [|? ? Hni Hnd'].
    intros [Hin Hk]. unfold sql_first. rewrite filter_cons.
    apply elem_of_cons in Hin as [<-|Hin].
    + by rewrite decide_True.
    + rewrite decide_False; [by apply IH|].
      intros Heq. apply Hni. rewrite Heq, <- Hk. by apply list_elem_of_fmap_2.
Qed.

Lemma keyed_eq t r1 r2 :
  NoDup (key <$> t) → r1 ∈ t → r2 ∈ t → key r1 = key r2 → r1 = r2.
Proof.
  intros Hnd H1 H2 Hk.
  assert (sql_first (λ r, key r = key r2) t = Some r1) as E1
    by (by apply sql_first_key).
  assert (sql_first (λ r, key r = key r2) t = Some r2) as E2
    by (by apply sql_first_key).
  congruence.
Qed.
End keyed.

Lemma fmap_filter_key {K} `{EqDecision K} (key : R → K) (ids : list K) t :
  key <$> filter (λ r, key r ∈ ids) t = filter (λ k, k ∈ ids) (key <$> t).
Proof.
  induction t as [|r t IH]; [done|]. rewrite fmap_cons, !filter_cons.
  destruct (decide (key r ∈ ids)); [by rewrite fmap_cons, IH|done].
Qed.

Lemma sql_delete_id (P : R → Prop) `{∀ r, Decision (P r)} t :
  Forall (λ r, ¬ P r) t → sql_delete P t = t.
Proof.
  unfold sql_delete. induction 1 as [|r t Hr Ht IH]; [done|]. by rewrite filter_cons_True, IH.
Qed.

Lemma sql_delete_none (P : R → Prop) `{∀ r, Decision (P r)} t :
  (∀ r, ¬ P r) → sql_delete P t = t.
Proof.
  intros HP. unfold sql_delete. induction t as [|r t IH]; [done|].
  by rewrite filter_cons_True, IH by apply HP.
Qed.

Lemma sql_delete_compose (P Q PQ : R → Prop)
    `{∀ r, Decision (P r), ∀ r, Decision (Q r), ∀ r, Decision (PQ r)} t :
  (∀ r, PQ r ↔ P r ∨ Q r) → sql_delete P (sql_delete Q t) = sql_delete PQ t.
Proof.
  intros Hiff. unfold sql_delete. rewrite list_filter_filter. apply list_filter_iff.
  intros r. rewrite Hiff. naive_solver.
Qed.

Lemma sql_order_by_Permutation ord `{!RelDecision ord} t :
  sql_order_by ord t ≡ₚ t.
Proof. apply merge_sort_Permutation. Qed.

Lemma elem_of_sql_order_by ord `{!RelDecision ord} t r :
  r ∈ sql_order_by ord t ↔ r ∈ t.
Proof. by rewrite sql_order_by_Permutation. Qed.

Lemma sql_sum_nonneg col t : Forall (λ r, 0 ≤ col r)%Z t → (0 ≤ sql_sum col t)%Z.
Proof. induction 1; simpl; lia. Qed.
End table.

#[export] Hint Resolve NoDup_sql_delete Forall_sql_delete : table.
