(* ===== verification/ApiErrors.v ===== *)
(** * Error values and retry delays

    The error values the CLI builds, their [Unwrap] chain with [errors.Is] and
    [errors.As], the classification of [internal/api/errors.go], the permanent
    marker and the backoff of [internal/mount/cache/failures.go], and the delay
    choice of [internal/mount/syncer/failures.go].  A [time.Duration] is a [Z]
    number of nanoseconds in the [int64] range. *)
From S2P Require Import Prelude.
Local Open Scope Z_scope.

(** ** Error values *)

Inductive ErrorKind : Type := KindPermanent | KindTransient | KindRateLimited.
#[export] Instance ErrorKind_eq_dec : EqDecision ErrorKind.
Proof. solve_decision. Defined.

(** The sentinel values compared by identity with [errors.Is]. *)
Inductive sentinel : Type :=
| ContextCanceled | ContextDeadlineExceeded
| IoEOF | IoErrUnexpectedEOF | ECONNRESET
| FsErrNotExist | FsErrPermission
| SqlErrNoRows | SqlErrClosed
| ErrReadOnlyMount | ErrInMemoryDownloadTooLarge
| ErrNotFound | ErrNotEmpty | ErrExists | ErrIsDir | ErrReadOnly | ErrInvalidName
| ErrTeeSealStale | ErrDownloadLocalChanged | ErrDownloadRemoteChanged
| ErrChunkEOF.
#[export] Instance sentinel_eq_dec : EqDecision sentinel.
Proof. solve_decision. Defined.

(** One constructor per concrete error type; [ErrWrap] is
    [fmt.Errorf("prefix: %w", err)], [ErrNet] a transport error implementing
    [net.Error], [ErrText] an opaque [errors.New] value. *)
Inductive error : Type :=
| ErrText (msg : string)
| ErrSentinel (s : sentinel)
| ErrWrap (prefix : string) (err : error)
| ErrAPI (Code Message : string)
| ErrRequest (Kind : ErrorKind) (StatusCode RetryAfter : Z) (Err : error)
| ErrPermanent (err : error)
| ErrBadInput (err : error)
| ErrScanPending (RetryAfter : Z)
| ErrProxyRejection (status : Z) (detail : string)
| ErrNet (timeout : bool) (err : error)
| ErrJoin (err1 err2 : error).   (** [fmt.Errorf("%w: %w", err1, err2)] *)
#[export] Instance error_eq_dec : EqDecision error.
Proof. solve_decision. Defined.

(** A run-time panic, where an operation can end in one. *)
Definition go_panic : error := ErrText "panic".

Definition Unwrap (e : error) : option error :=
  match e with
  | ErrWrap _ e' | ErrRequest _ _ _ e' | ErrPermanent e' | ErrBadInput e'
  | ErrNet _ e' => Some e'
  | _ => None
  end.

(** [errors.As]: the first error of the tree, in pre-order, that has the wanted
    type. *)
Fixpoint errors_As {A} (as_type : error → option A) (e : error) : option A :=
  match as_type e with
  | Some a => Some a
  | None =>
      match e with
      | ErrWrap _ e' | ErrRequest _ _ _ e' | ErrPermanent e' | ErrBadInput e'
      | ErrNet _ e' => errors_As as_type e'
      | ErrJoin e1 e2 => match errors_As as_type e1 with Some a => Some a | None => errors_As as_type e2 end
      | _ => None
      end
  end.

(** [errors.Is] against a sentinel. *)
Definition errors_Is (s : sentinel) (e : error) : bool :=
  match errors_As (λ e, match e with
                        | ErrSentinel s' => if decide (s' = s) then Some tt else None
                        | _ => None
                        end) e with
  | Some _ => true
  | None => false
  end.

Record RequestError : Type := mkRequestError {
  re_Kind : ErrorKind; re_StatusCode : Z; re_RetryAfter : Z; re_Err : error }.

Definition asRequestError (e : error) : option RequestError :=
  match e with
  | ErrRequest k s r e' => Some (mkRequestError k s r e')
  | _ => None
  end.
(** The [Code] of an [*APIError]. *)
Definition asAPIError (e : error) : option string :=
  match e with ErrAPI c _ => Some c | _ => None end.
Definition asPermanentErr (e : error) : option error :=
  match e with ErrPermanent e' => Some e' | _ => None end.
Definition asBadInput (e : error) : option error :=
  match e with ErrBadInput e' => Some e' | _ => None end.
Definition asScanPending (e : error) : option Z :=
  match e with ErrScanPending d => Some d | _ => None end.
Definition asProxyRejection (e : error) : option Z :=
  match e with ErrProxyRejection s _ => Some s | _ => None end.
(** [Timeout()] of a [net.Error]; [context.DeadlineExceeded] implements it. *)
Definition asNetError (e : error) : option bool :=
  match e with
  | ErrNet t _ => Some t
  | ErrSentinel ContextDeadlineExceeded => Some true
  | _ => None
  end.

Definition isSome {A} (o : option A) : bool := match o with Some _ => true | None => false end.

(** ** Durations *)

Definition nanosecond : Z := 1.
Definition millisecond : Z := 1000000.
Definition second : Z := 1000000000.
Definition minute : Z := 60 * second.
Definition hour : Z := 60 * minute.

(** ** [internal/api/errors.go] *)

Definition kind_is (k : ErrorKind) (e : error) : bool :=
  match errors_As asRequestError e with
  | Some r => bool_decide (re_Kind r = k)
  | None => false
  end.
Definition IsRateLimited (e : error) : bool := kind_is KindRateLimited e.
Definition IsTransient (e : error) : bool := kind_is KindTransient e.
Definition IsPermanentRequest (e : error) : bool := kind_is KindPermanent e.

Definition RetryAfterHint (e : error) : Z :=
  match errors_As asRequestError e with
  | Some r => re_RetryAfter r
  | None => 0
  end.

Definition MaxRateLimitDelay : Z := 15 * minute.

Definition RateLimitDelay (attempt hint : Z) : Z :=
  if decide (0 < hint)%Z then Z.min hint MaxRateLimitDelay
  else wrap64 (wrap64 (15 * (wrap64 (attempt + 1))) * second).

Definition MaxScanBudgetDelay : Z := hour.

(** [Some wait] is the pair [(wait, true)], [None] is [(0, false)]. *)
Definition ScanBudgetWait (e : error) : option Z :=
  if IsRateLimited e && bool_decide (errors_As asAPIError e = Some "rate_limited") then
    let hint := RetryAfterHint e in
    if decide (0 < hint)%Z then Some (Z.min hint MaxScanBudgetDelay)
    else Some minute
  else None.

Definition RateLimitExceedsInlineWait (hint : Z) : bool :=
  bool_decide (MaxRateLimitDelay < hint)%Z.

Definition StatusOK : Z := 200.
Definition StatusAccepted : Z := 202.
Definition StatusUnauthorized : Z := 401.
Definition StatusForbidden : Z := 403.
Definition StatusRequestEntityTooLarge : Z := 413.
Definition StatusTooManyRequests : Z := 429.
Definition StatusNotImplemented : Z := 501.
Definition StatusServiceUnavailable : Z := 503.

Definition classifyStatus (statusCode : Z) : ErrorKind :=
  if decide (statusCode = StatusTooManyRequests) then KindRateLimited
  else if decide (500 ≤ statusCode ∧ statusCode ≠ StatusNotImplemented)%Z
  then KindTransient
  else KindPermanent.

(** [retryAfterHeader]: the header is its [strconv.Atoi] value, [None] when it
    is absent or not a number. *)
Definition retryAfterHeader (header : option Z) : Z :=
  match header with
  | Some secs => if decide (secs ≤ 0)%Z then 0 else wrap64 (secs * second)
  | None => 0
  end.

Definition statusError (statusCode : Z) (header : option Z) (err : error) : error :=
  ErrRequest (classifyStatus statusCode) statusCode (retryAfterHeader header) err.

Definition transportRetryable (e : error) : bool :=
  if errors_Is ContextCanceled e then false
  else if bool_decide (errors_As asNetError e = Some true) then true
  else errors_Is IoEOF e || errors_Is IoErrUnexpectedEOF e || errors_Is ECONNRESET e.

(** ** [internal/mount/cache/failures.go] *)

Definition TransferRetryBase : Z := 30 * second.
Definition TransferRetryCap : Z := hour.

(** [d << uint(n)] on [int64]: bits shifted out are lost. *)
Definition shl64 (d n : Z) : Z := wrap64 (Z.shiftl d n).

Definition TransferBackoff (attempts : Z) : Z :=
  let attempts := if decide (attempts < 1)%Z then 1 else attempts in
  let d := shl64 TransferRetryBase (attempts - 1) in
  if decide (d ≤ 0 ∨ TransferRetryCap < d)%Z then TransferRetryCap else d.

Definition Permanent (e : error) : error := ErrPermanent e.
Definition IsPermanent (e : error) : bool := isSome (errors_As asPermanentErr e).

(** ** [internal/mount/syncer/failures.go] *)

Definition writebackRetryDelay (e : error) (attempts : Z) : Z :=
  match ScanBudgetWait e with
  | Some wait => wait
  | None =>
      if IsRateLimited e then RateLimitDelay (attempts - 1) (RetryAfterHint e)
      else TransferBackoff attempts
  end.

(** ** The retry decision of [internal/api/client.go] *)

Definition retryDelays : list Z := [1 * second; 2 * second]%Z.

Definition isTransient (e : error) (statusCode : Z) : bool :=
  match errors_As asRequestError e with
  | Some r => bool_decide (re_Kind r = KindTransient)
  | None =>
      if transportRetryable e then true
      else bool_decide (classifyStatus statusCode = KindTransient)
  end.

Definition bodyTooLarge (e : error) : bool :=
  bool_decide (errors_As asProxyRejection e = Some StatusRequestEntityTooLarge).

Definition StaleTeeSealCode : string := "scanner_unavailable".
Definition MayBeStaleTeeSeal (e : error) : bool :=
  bool_decide (errors_As asAPIError e = Some StaleTeeSealCode).

(** ** Lemmas *)

Lemma errors_As_hit {A} (f : error → option A) e a :
  f e = Some a → errors_As f e = Some a.
Proof. intros H. destruct e; simpl in *; by rewrite H. Qed.

Lemma errors_As_unwrap {A} (f : error → option A) e e' :
  f e = None → Unwrap e = Some e' → errors_As f e = errors_As f e'.
Proof. intros H. destruct e; simpl in *; intros; simplify_eq; by rewrite H. Qed.

(** Wrapping with [%w] is transparent to every classification. *)
Lemma kind_is_wrap k p e : kind_is k (ErrWrap p e) = kind_is k e.
Proof. done. Qed.
Lemma IsPermanent_wrap p e : IsPermanent (ErrWrap p e) = IsPermanent e.
Proof. done. Qed.

(** *** The backoff never overflows *)

Lemma shl64_large d n : (0 ≤ d)%Z → (64 ≤ n)%Z → shl64 d n = 0%Z.
Proof.
  intros Hd Hn. unfold shl64, wrap64. rewrite Z.shiftl_mul_pow2 by lia.
  replace n with (64 + (n - 64))%Z by lia. rewrite Z.pow_add_r by lia.
  rewrite (Z.mul_comm (2 ^ 64)), Z.mul_assoc.
  rewrite Z.add_comm, Z.mod_add by lia. by rewrite Z.mod_small by lia.
Qed.

Definition backoff_spec (n : Z) : Z := Z.min (TransferRetryBase * 2 ^ (n - 1)) TransferRetryCap.

Lemma backoff_small_range :
  Forall (λ k, TransferBackoff (Z.of_nat k + 1) = backoff_spec (Z.of_nat k + 1))
    (seq 0 64).
Proof.
  apply (bool_decide_unpack _). by vm_compute.
Qed.

Lemma TransferBackoff_eq_spec n : (1 ≤ n)%Z → TransferBackoff n = backoff_spec n.
Proof.
  intros Hn. destruct (decide (n ≤ 64)%Z) as [Hs|Hl].
  - pose proof backoff_small_range as Hr. rewrite Forall_forall in Hr.
    specialize (Hr (Z.to_nat (n - 1))).
    rewrite elem_of_seq in Hr.
    replace (Z.of_nat (Z.to_nat (n - 1)) + 1)%Z with n in Hr by lia.
    apply Hr. lia.
  - unfold TransferBackoff, backoff_spec.
    rewrite (decide_False (P := n < 1)) by lia. cbv zeta.
    rewrite shl64_large by (unfold TransferRetryBase, second; lia).
    rewrite decide_True by lia. symmetry. apply Z.min_r.
    replace (n - 1)%Z with (7 + (n - 8))%Z by lia. rewrite Z.pow_add_r by lia.
    assert (0 < 2 ^ (n - 8))%Z by (apply Z.pow_pos_nonneg; lia).
    change TransferRetryBase with 30000000000%Z.
    change TransferRetryCap with 3600000000000%Z. lia.
Qed.

(** C31: The exponential backoff is, for every attempt count an [int] can hold,
    the 30 s base doubled per attempt and clamped to one hour: the 64-bit shift
    never wraps to a short or negative delay, and a count below 1 counts as 1. *)
Theorem TransferBackoff_exact n :
  TransferBackoff n = backoff_spec (Z.max 1 n) ∧
  (TransferRetryBase ≤ TransferBackoff n ≤ TransferRetryCap)%Z.
Proof.
  assert (TransferBackoff n = backoff_spec (Z.max 1 n)) as ->.
  { rewrite <- TransferBackoff_eq_spec by lia.
    destruct (decide (n < 1)).
    - replace (Z.max 1 n) with 1 by lia. unfold TransferBackoff.
      by rewrite (decide_True (P := n < 1)), (decide_False (P := 1 < 1)) by lia.
    - by replace (Z.max 1 n) with n by lia. }
  split; [done|]. unfold backoff_spec.
  assert (1 ≤ 2 ^ (Z.max 1 n - 1))%Z.
  { pose proof (Z.pow_pos_nonneg 2 (Z.max 1 n - 1)). lia. }
  change TransferRetryBase with 30000000000%Z.
  change TransferRetryCap with 3600000000000%Z. lia.
Qed.

Lemma second_pos : (0 < second)%Z. Proof. done. Qed.

Lemma ScanBudgetWait_bounds e w :
  ScanBudgetWait e = Some w → (0 < w ≤ MaxScanBudgetDelay)%Z.
Proof.
  unfold ScanBudgetWait. intros. crush_match.
  - change MaxScanBudgetDelay with 3600000000000%Z. lia.
Qed.
