(* ===== verification/Crypto.v ===== *)
(** * Interfaces of the cryptographic primitives

    The packages the program calls ([chacha20poly1305], [sha256], [hmac],
    [blake2b]) are not under [src/]: they enter as type classes whose laws are
    their documented behaviour.  Components are proved against the classes; the
    toy instances below satisfy every law and serve the witnesses. *)
From S2P Require Import Prelude GoLib ApiErrors.
Local Open Scope Z_scope.

(** XChaCha20-Poly1305: key, nonce, text, additional data. *)
Class AEAD : Type := {
  aead_Seal : bytes → bytes → bytes → bytes → bytes;
  aead_Open : bytes → bytes → bytes → bytes → option bytes }.

Definition KeySize : nat := 32.
Definition NonceSize : nat := 24.
Definition Overhead : nat := 16.

Class AEADLaws (A : AEAD) : Prop := {
  (** Decryption inverts encryption under the same key, nonce and data. *)
  aead_Open_Seal k n p ad : aead_Open k n (aead_Seal k n p ad) ad = Some p;
  (** Only the sealing of the returned plaintext is accepted. *)
  aead_Open_inv k n c ad p : aead_Open k n c ad = Some p → c = aead_Seal k n p ad;
  aead_Seal_length k n p ad : length (aead_Seal k n p ad) = (length p + Overhead)%nat }.

(** [chacha20poly1305.NewX] refuses a key that is not 32 bytes. *)
Definition NewX (key : bytes) : result error unit :=
  if decide (length key = KeySize) then Ok tt
  else Err (ErrText "chacha20poly1305: bad key length").

(** SHA-256 as the lower-case hexadecimal text the program keeps. *)
Class Sha256 : Type := { sha256_hex : bytes → string }.
Class Sha256Laws (SH : Sha256) : Prop := {
  sha256_hex_length d : String.length (sha256_hex d) = 64%nat;
  sha256_hex_no_dot d : contains_char "."%char (sha256_hex d) = false }.

(** [hmac.New(sha256.New, key)] over a message. *)
Class Hmac : Type := { hmac_sha256 : bytes → bytes → bytes }.
Class HmacLaws (H : Hmac) : Prop := { hmac_length k m : length (hmac_sha256 k m) = 32%nat }.

(** [blake2b.New256(key)]: keyed BLAKE2b-256; a key over 64 bytes is refused. *)
Class Blake2b : Type := { blake2b_256 : bytes → bytes → bytes }.
Definition blake2b_New256 `{Blake2b} (key msg : bytes) : result error bytes :=
  if decide (length key ≤ 64)%nat then Ok (blake2b_256 key msg)
  else Err (ErrText "blake2b: invalid key size").

(** [argon2.IDKey(password, salt, time, memory, 1, 32)]. *)
Class Argon2 : Type := { argon2_IDKey : bytes → bytes → Z → Z → bytes }.
Class Argon2Laws (AR : Argon2) : Prop := {
  argon2_length pw salt t m : length (argon2_IDKey pw salt t m) = KeySize }.

(** [curve25519]: [None] is the error for a low-order point. *)
Class X25519 : Type := {
  ScalarBaseMult : bytes → bytes;
  x25519 : bytes → bytes → option bytes }.
Class X25519Laws (X : X25519) : Prop := {
  ScalarBaseMult_length a : length (ScalarBaseMult a) = 32%nat;
  x25519_agree a b : length a = 32%nat → length b = 32%nat →
    ∃ ss, x25519 a (ScalarBaseMult b) = Some ss ∧ x25519 b (ScalarBaseMult a) = Some ss }.

(** [crypto/mlkem]: the encapsulation key of a 64-byte seed, encapsulation with
    its randomness ([None] for a malformed key), decapsulation. *)
Class MLKEM : Type := {
  mlkem_public : bytes → bytes;
  mlkem_Encapsulate : bytes → bytes → option (bytes * bytes);
  mlkem_Decapsulate : bytes → bytes → option bytes }.
Class MLKEMLaws (K : MLKEM) : Prop := {
  mlkem_public_length seed : length seed = 64%nat → length (mlkem_public seed) = 1184%nat;
  mlkem_agree seed r : length seed = 64%nat →
    ∃ ss ct, mlkem_Encapsulate (mlkem_public seed) r = Some (ss, ct) ∧
      length ct = 1088%nat ∧ mlkem_Decapsulate seed ct = Some ss }.

(** [hkdf.New(sha256.New, ikm, salt, info)] read for 32 bytes. *)
Class Hkdf : Type := { hkdf_sha256 : bytes → bytes → bytes → bytes }.
Class HkdfLaws (H : Hkdf) : Prop := {
  hkdf_length ikm salt info : length (hkdf_sha256 ikm salt info) = 32%nat }.

(** [sha256.Sum256]: the digest the hexadecimal text shows. *)
Class Sha256Sum : Type := { sha256_Sum256 : bytes → bytes }.
Class Sha256SumLaws (SH : Sha256) (SS : Sha256Sum) : Prop := {
  sha256_Sum256_length d : length (sha256_Sum256 d) = 32%nat;
  sha256_Sum256_hex d : sha256_hex d = hex_encode (sha256_Sum256 d) }.

(** [crypto/ed25519]: the private key (seed followed by the public key) of a
    seed, signing with a private key, verification under a public key. *)
Class Ed25519 : Type := {
  ed25519_NewKeyFromSeed : bytes → bytes;
  ed25519_Sign : bytes → bytes → bytes;
  ed25519_Verify : bytes → bytes → bytes → bool }.
Class Ed25519Laws (E : Ed25519) : Prop := {
  ed25519_key_length seed : length seed = 32%nat → length (ed25519_NewKeyFromSeed seed) = 64%nat;
  ed25519_Sign_length sk m : length (ed25519_Sign sk m) = 64%nat;
  ed25519_correct seed m : length seed = 32%nat →
    let sk := ed25519_NewKeyFromSeed seed in
    ed25519_Verify (drop 32 sk) m (ed25519_Sign sk m) = true }.

(** [mldsa44] over marshalled keys: key generation from its randomness (public,
    private), the public key of a private key ([None] when it does not
    unmarshal), deterministic signing with an empty context, and verification
    ([None] when the public key does not unmarshal). *)
Class MLDSA : Type := {
  mldsa_GenerateKey : bytes → bytes * bytes;
  mldsa_Public : bytes → option bytes;
  mldsa_Sign : bytes → bytes → option bytes;
  mldsa_Verify : bytes → bytes → bytes → option bool }.
Class MLDSALaws (M : MLDSA) : Prop := {
  mldsa_public_length r : length (mldsa_GenerateKey r).1 = 1312%nat;
  mldsa_private_length r : length (mldsa_GenerateKey r).2 = 2560%nat;
  mldsa_Public_Generate r : mldsa_Public (mldsa_GenerateKey r).2 = Some (mldsa_GenerateKey r).1;
  mldsa_correct r m : ∃ sig, mldsa_Sign (mldsa_GenerateKey r).2 m = Some sig ∧
    length sig = 2420%nat ∧ mldsa_Verify (mldsa_GenerateKey r).1 m sig = Some true }.

(** ** Toy instances *)

Definition toy_tag (k n p ad : bytes) : bytes :=
  be_bytes 16 (be_Z (k ++ n ++ p ++ ad) + Z.of_nat (length ad)).

#[export] Instance toy_aead : AEAD := {|
  aead_Seal k n p ad := p ++ toy_tag k n p ad;
  aead_Open k n c ad :=
    let p := take (length c - 16) c in
    if decide (drop (length c - 16) c = toy_tag k n p ad) then Some p else None |}.

Lemma length_toy_tag k n p ad : length (toy_tag k n p ad) = 16%nat.
Proof. apply length_be_bytes. Qed.

#[export] Instance toy_aead_laws : AEADLaws toy_aead.
Proof.
  split.
  - intros k n p ad. simpl. rewrite length_app, length_toy_tag, Nat.add_sub.
    rewrite take_app_length, drop_app_length. by rewrite decide_True.
  - intros k n c ad p. simpl. case_decide as Hd; intros; simplify_eq.
    by rewrite <- Hd, take_drop.
  - intros. simpl. by rewrite length_app, length_toy_tag.
Qed.

(** The data read as a big-endian number, modulo 2^256. *)
Definition toy_digest (d : bytes) : bytes :=
  be_bytes 32 (foldl (λ z b, Z.land (Z.shiftl z 8 + Z_of_byte b) (Z.ones 256)) 0 d).
Lemma length_toy_digest d : length (toy_digest d) = 32%nat.
Proof. apply length_be_bytes. Qed.
#[export] Instance toy_sha256 : Sha256 := {| sha256_hex d := hex_encode (toy_digest d) |}.

Lemma hex_encode_no_dot l : contains_char "."%char (hex_encode l) = false.
Proof. induction l as [|b l IH]; [done|]. simpl. rewrite IH. by destruct b. Qed.

#[export] Instance toy_sha256_laws : Sha256Laws toy_sha256.
Proof.
  split.
  - intros d. unfold sha256_hex, toy_sha256. by rewrite length_hex_encode, length_toy_digest.
  - intros d. apply hex_encode_no_dot.
Qed.

Definition toy_mix (l1 l2 : bytes) : bytes := be_bytes 32 (be_Z l1 + be_Z l2).

#[export] Instance toy_hmac : Hmac := {| hmac_sha256 := toy_mix |}.
#[export] Instance toy_hmac_laws : HmacLaws toy_hmac.
Proof. split. intros. apply length_be_bytes. Qed.
#[export] Instance toy_blake2b : Blake2b := {| blake2b_256 := toy_mix |}.
#[export] Instance toy_argon2 : Argon2 := {| argon2_IDKey pw salt _ _ := toy_mix pw salt |}.
#[export] Instance toy_argon2_laws : Argon2Laws toy_argon2.
Proof. split. intros. apply length_be_bytes. Qed.

#[export] Instance toy_x25519 : X25519 := {|
  ScalarBaseMult a := be_bytes 32 (be_Z a); x25519 a p := Some (toy_mix a p) |}.
#[export] Instance toy_x25519_laws : X25519Laws toy_x25519.
Proof.
  split; [intros; apply length_be_bytes|]. intros a b Ha Hb. unfold x25519, ScalarBaseMult, toy_x25519.
  exists (be_bytes 32 (be_Z a + be_Z b)). unfold toy_mix. rewrite !be_Z_be_bytes.
  assert (∀ l, length l = 32%nat → be_Z l mod 2 ^ (8 * Z.of_nat 32) = be_Z l) as Hm.
  { intros l Hl. pose proof (be_Z_bound l) as Hbd. rewrite Hl in Hbd. apply Z.mod_small. lia. }
  rewrite !Hm by done. split; do 2 f_equal. lia.
Qed.

#[export] Instance toy_mlkem : MLKEM := {|
  mlkem_public seed := resize 1184 x00 seed;
  mlkem_Encapsulate _ r := Some (resize 32 x00 r, resize 1088 x00 (resize 32 x00 r));
  mlkem_Decapsulate _ ct := Some (resize 32 x00 ct) |}.
#[export] Instance toy_mlkem_laws : MLKEMLaws toy_mlkem.
Proof.
  split; [intros; apply length_resize|]. intros seed r _. do 2 eexists.
  split; [reflexivity|]. split; [apply length_resize|]. simpl. f_equal.
  rewrite resize_resize by lia. apply resize_all_alt. by rewrite length_resize.
Qed.

#[export] Instance toy_hkdf : Hkdf := {| hkdf_sha256 ikm salt info := toy_mix ikm salt |}.
#[export] Instance toy_hkdf_laws : HkdfLaws toy_hkdf.
Proof. split. intros. apply length_be_bytes. Qed.

#[export] Instance toy_sha256_sum : Sha256Sum := {| sha256_Sum256 := toy_digest |}.
#[export] Instance toy_sha256_sum_laws : Sha256SumLaws toy_sha256 toy_sha256_sum.
Proof. split; [intros; apply length_toy_digest|done]. Qed.

(** A signature is the digest of the public key and the message. *)
Definition toy_sign (n : nat) (pk m : bytes) : bytes := resize n x00 (toy_digest (pk ++ m)).

#[export] Instance toy_ed25519 : Ed25519 := {|
  ed25519_NewKeyFromSeed seed := seed ++ seed;
  ed25519_Sign sk m := toy_sign 64 (drop 32 sk) m;
  ed25519_Verify pk m sig := bool_decide (sig = toy_sign 64 pk m) |}.
#[export] Instance toy_ed25519_laws : Ed25519Laws toy_ed25519.
Proof.
  split.
  - intros seed Hs. simpl. rewrite length_app, Hs. done.
  - intros sk m. exact (length_resize _ _ _).
  - intros seed m _. apply bool_decide_eq_true_2. reflexivity.
Qed.

#[export] Instance toy_mldsa : MLDSA := {|
  mldsa_GenerateKey r := (resize 1312 x00 r, resize 2560 x00 (resize 1312 x00 r));
  mldsa_Public sk := Some (resize 1312 x00 sk);
  mldsa_Sign sk m := Some (toy_sign 2420 (resize 1312 x00 sk) m);
  mldsa_Verify pk m sig := Some (bool_decide (sig = toy_sign 2420 pk m)) |}.
Lemma toy_resize (r : bytes) :
  resize 1312 x00 (resize 2560 x00 (resize 1312 x00 r)) = resize 1312 x00 r.
Proof. rewrite resize_resize by lia. apply resize_all_alt. by rewrite length_resize. Qed.
#[export] Instance toy_mldsa_laws : MLDSALaws toy_mldsa.
Proof.
  split.
  - intros. cbn [mldsa_GenerateKey toy_mldsa fst]. apply length_resize.
  - intros. cbn [mldsa_GenerateKey toy_mldsa snd]. apply length_resize.
  - intros r. cbn [mldsa_GenerateKey mldsa_Public toy_mldsa fst snd]. by rewrite toy_resize.
  - intros r m. cbn [mldsa_GenerateKey mldsa_Sign mldsa_Verify toy_mldsa fst snd]. eexists.
    split; [reflexivity|]. split; [apply length_resize|]. rewrite toy_resize.
    by rewrite bool_decide_eq_true_2.
Qed.
