(* ===== verification/CacheDB.v ===== *)
(** * The mount cache database

    [internal/mount/cache/db.go] and [local_content.go]: the three SQLite
    tables, every statement the methods of [*DB] execute, and their error
    behaviour.  A method that writes is a function [DB → result error A * DB];
    once the database is closed every statement fails and changes nothing.
    The clock is an argument ([time.Now().Unix()]). *)
From S2P Require Import Prelude Table ApiErrors.
Local Open Scope Z_scope.

(** ** Rows and structs *)

Inductive SyncStatus : Type :=
| StatusSynced | StatusPending | StatusRejected | StatusFailed | StatusConflict
| StatusOffline.
#[export] Instance SyncStatus_eq_dec : EqDecision SyncStatus.
Proof. solve_decision. Defined.
#[export] Instance SyncStatus_countable : Countable SyncStatus.
Proof.
  refine (inj_countable'
    (λ s, match s with StatusSynced => 0%nat | StatusPending => 1%nat
          | StatusRejected => 2%nat | StatusFailed => 3%nat
          | StatusConflict => 4%nat | StatusOffline => 5%nat end)
    (λ n, match n with 0%nat => StatusSynced | 1%nat => StatusPending
          | 2%nat => StatusRejected | 3%nat => StatusFailed
          | 4%nat => StatusConflict | _ => StatusOffline end) _).
  by intros [].
Defined.

(** The struct [Inode]. *)
Record Inode : Type := mkInode {
  i_ID : Z; i_RemotePath : string; i_DisplayName : string; i_IsDir : bool;
  i_Size : Z; i_Mtime : Z; i_Cached : bool; i_Dirty : bool; i_Pinned : bool;
  i_LastAccess : Z; i_ContentHash : string; i_LocalHash : string;
  i_LocalMtime : Z; i_SealedKey : string; i_EncMeta : string; i_Etag : string;
  i_ParentID : Z; i_SyncStatus : SyncStatus; i_StatusReason : string }.
#[export] Instance Inode_eta : Eta Inode := λ r,
  mkInode (i_ID r) (i_RemotePath r) (i_DisplayName r) (i_IsDir r) (i_Size r)
    (i_Mtime r) (i_Cached r) (i_Dirty r) (i_Pinned r) (i_LastAccess r)
    (i_ContentHash r) (i_LocalHash r) (i_LocalMtime r) (i_SealedKey r)
    (i_EncMeta r) (i_Etag r) (i_ParentID r) (i_SyncStatus r) (i_StatusReason r).
#[export] Instance Inode_eq_dec : EqDecision Inode.
Proof. solve_decision. Defined.

(** A row of the table [inodes] after the migrations: the columns of [Inode]
    and the two columns the struct does not carry.  The 0/1 integer columns
    are booleans. *)
Record inode_row : Type := mkRow {
  c_id : Z; c_remote_path : string; c_display_name : string; c_is_dir : bool;
  c_size : Z; c_mtime : Z; c_cached : bool; c_dirty : bool; c_pinned : bool;
  c_last_access : Z; c_content_hash : string; c_local_hash : string;
  c_local_mtime : Z; c_sealed_key : string; c_enc_meta : string; c_etag : string;
  c_parent_id : Z; c_sync_status : SyncStatus; c_status_reason : string;
  c_download_baseline_hash : string; c_local_remote_etag : string }.
#[export] Instance inode_row_eta : Eta inode_row := λ r,
  mkRow (c_id r) (c_remote_path r) (c_display_name r) (c_is_dir r) (c_size r)
    (c_mtime r) (c_cached r) (c_dirty r) (c_pinned r) (c_last_access r)
    (c_content_hash r) (c_local_hash r) (c_local_mtime r) (c_sealed_key r)
    (c_enc_meta r) (c_etag r) (c_parent_id r) (c_sync_status r)
    (c_status_reason r) (c_download_baseline_hash r) (c_local_remote_etag r).

Definition scanInodeRow (r : inode_row) : Inode :=
  mkInode (c_id r) (c_remote_path r) (c_display_name r) (c_is_dir r) (c_size r)
    (c_mtime r) (c_cached r) (c_dirty r) (c_pinned r) (c_last_access r)
    (c_content_hash r) (c_local_hash r) (c_local_mtime r) (c_sealed_key r)
    (c_enc_meta r) (c_etag r) (c_parent_id r) (c_sync_status r) (c_status_reason r).
Definition collectInodes (rows : list inode_row) : list Inode := scanInodeRow <$> rows.

Definition FailureDownload : string := "download".
Definition FailureUpload : string := "upload".

Record SyncFailure : Type := mkSyncFailure {
  f_InodeID : Z; f_Kind : string; f_Permanent : bool; f_Attempts : Z;
  f_NextRetryAt : Z; f_LastError : string }.
#[export] Instance SyncFailure_eq_dec : EqDecision SyncFailure.
Proof. solve_decision. Defined.
Definition f_key (f : SyncFailure) : Z * string := (f_InodeID f, f_Kind f).

Record WritebackEntry : Type := mkWritebackEntry {
  w_ID : Z; w_InodeID : Z; w_Action : string; w_RemotePath : string;
  w_ExtraJSON : string; w_EnqueuedAt : Z; w_Attempts : Z; w_LastError : string;
  w_Status : string }.
#[export] Instance WritebackEntry_eta : Eta WritebackEntry := λ e,
  mkWritebackEntry (w_ID e) (w_InodeID e) (w_Action e) (w_RemotePath e)
    (w_ExtraJSON e) (w_EnqueuedAt e) (w_Attempts e) (w_LastError e) (w_Status e).
#[export] Instance WritebackEntry_eq_dec : EqDecision WritebackEntry.
Proof. solve_decision. Defined.

(** The database: the three tables with their AUTOINCREMENT counters, and the
    two flags of the Go struct. *)
Record DB : Type := mkDB {
  inodes : list inode_row; inodes_seq : Z;
  writeback_queue : list WritebackEntry; wb_seq : Z;
  sync_failures : list SyncFailure;
  closed : bool; writebackDisabled : bool }.
#[export] Instance DB_eta : Eta DB := λ d,
  mkDB (inodes d) (inodes_seq d) (writeback_queue d) (wb_seq d)
    (sync_failures d) (closed d) (writebackDisabled d).

Definition empty_db : DB := mkDB [] 0 [] 0 [] false false.

(** ** Statement execution *)

Definition dbm (A : Type) : Type := DB → result error A * DB.

Definition exec {A} (a : DB → A) (f : DB → DB) : dbm A := λ d,
  if closed d then (Err (ErrSentinel SqlErrClosed), d) else (Ok (a d), f d).
Definition query {A} (f : DB → result error A) (d : DB) : result error A :=
  if closed d then Err (ErrSentinel SqlErrClosed) else f d.
Definition exec_ (f : DB → DB) : dbm unit := exec (λ _, tt) f.

Definition on_inodes (f : list inode_row → list inode_row) (d : DB) : DB :=
  d <| inodes := f (inodes d) |>.
Definition on_queue (f : list WritebackEntry → list WritebackEntry) (d : DB) : DB :=
  d <| writeback_queue := f (writeback_queue d) |>.
Definition on_failures (f : list SyncFailure → list SyncFailure) (d : DB) : DB :=
  d <| sync_failures := f (sync_failures d) |>.

(** [QueryRow(...).Scan]: the first row, or [sql.ErrNoRows]. *)
Definition scan_row {R A} (f : R → A) (o : option R) : result error A :=
  match o with Some r => Ok (f r) | None => Err (ErrSentinel SqlErrNoRows) end.

(** [COALESCE(NULLIF(new, ''), old)] and its integer form. *)
Definition coalesce_text (new old : string) : string :=
  if decide (new = "") then old else new.
Definition coalesce_int (new old : Z) : Z := if decide (new = 0) then old else new.

(** Text columns compare bytewise (the BINARY collation). *)
Definition text_le (s1 s2 : string) : Prop := String.leb s1 s2 = true.
#[export] Instance text_le_dec : RelDecision text_le.
Proof. intros ??. unfold text_le. apply _. Defined.

(** ** Lifecycle and flags *)

Definition SetWritebackDisabled (v : bool) (d : DB) : DB := d <| writebackDisabled := v |>.
Definition WritebackDisabled (d : DB) : bool := writebackDisabled d.
Definition Close (d : DB) : DB := d <| closed := true |>.

(** ** Inodes: queries *)

Definition GetInode (id : Z) : DB → result error Inode := query (λ d,
  scan_row scanInodeRow (sql_first (λ r, c_id r = id) (inodes d))).

Definition GetInodeByPath (remotePath : string) : DB → result error Inode := query (λ d,
  scan_row scanInodeRow (sql_first (λ r, c_remote_path r = remotePath) (inodes d))).

(** [ORDER BY is_dir DESC, display_name ASC] and [ORDER BY remote_path ASC]. *)
Definition child_order (r1 r2 : inode_row) : Prop :=
  (c_is_dir r1 = true ∧ c_is_dir r2 = false) ∨
  (c_is_dir r1 = c_is_dir r2 ∧ text_le (c_display_name r1) (c_display_name r2)).
#[export] Instance child_order_dec : RelDecision child_order.
Proof. intros ??. unfold child_order. apply _. Defined.
Definition path_order (r1 r2 : inode_row) : Prop :=
  text_le (c_remote_path r1) (c_remote_path r2).
#[export] Instance path_order_dec : RelDecision path_order.
Proof. intros ??. unfold path_order. apply _. Defined.
Definition access_order (r1 r2 : inode_row) : Prop := c_last_access r1 ≤ c_last_access r2.
#[export] Instance access_order_dec : RelDecision access_order.
Proof. intros ??. unfold access_order. apply _. Defined.

Definition ListChildren (parentID : Z) : DB → result error (list Inode) := query (λ d,
  Ok (collectInodes (sql_order_by child_order
    (sql_select (λ r, c_parent_id r = parentID) (inodes d))))).

Definition ListPinned : DB → result error (list Inode) := query (λ d,
  Ok (collectInodes (sql_order_by path_order
    (sql_select (λ r, c_pinned r = true) (inodes d))))).

Definition ListIssues : DB → result error (list Inode) := query (λ d,
  Ok (collectInodes (sql_order_by path_order
    (sql_select (λ r, c_sync_status r ≠ StatusSynced ∧ c_sync_status r ≠ StatusPending)
       (inodes d))))).

Definition InodesWithFailures : DB → result error (list Inode) := query (λ d,
  Ok (collectInodes (sql_order_by path_order
    (sql_select (λ r, c_sync_status r = StatusFailed ∨
                      c_id r ∈ (f_InodeID <$> sync_failures d)) (inodes d))))).

Definition AllInodes : DB → result error (list Inode) := query (λ d,
  Ok (collectInodes (sql_order_by path_order (inodes d)))).

Definition CountByStatus : DB → result error (gmap SyncStatus nat) := query (λ d,
  Ok (foldr (λ r, partial_alter (λ o, Some (S (default 0%nat o))) (c_sync_status r))
        ∅ (inodes d))).

Definition cached_where (r : inode_row) : Prop := c_cached r = true.
Definition evictable_where (r : inode_row) : Prop :=
  c_cached r = true ∧ c_dirty r = false ∧ c_pinned r = false.
#[export] Instance cached_where_dec r : Decision (cached_where r).
Proof. unfold cached_where. apply _. Defined.
#[export] Instance evictable_where_dec r : Decision (evictable_where r).
Proof. unfold evictable_where. apply _. Defined.

Definition EvictableCacheSize : DB → result error Z := query (λ d,
  Ok (sql_sum c_size (sql_select evictable_where (inodes d)))).

Definition TotalCacheSize : DB → result error Z := query (λ d,
  Ok (sql_sum c_size (sql_select cached_where (inodes d)))).

Definition CountCachedByHash (hash : string) (excludeID : Z) : DB → result error nat :=
  query (λ d, Ok (sql_count (λ r, c_content_hash r = hash ∧ c_cached r = true ∧
                                  c_id r ≠ excludeID) (inodes d))).

Definition AllCachedHashes : DB → result error (gset string) := query (λ d,
  Ok (list_to_set (c_content_hash <$>
    sql_select (λ r, c_cached r = true ∧ c_content_hash r ≠ "") (inodes d)))).

Definition LRUEvictionCandidates (limit : nat) : DB → result error (list Inode) := query (λ d,
  Ok (collectInodes (take limit (sql_order_by access_order
    (sql_select evictable_where (inodes d)))))).

(** [LocalContentState]: the triple (current, baseline, remoteEtag). *)
Definition LocalContentState (id : Z) : DB → result error (string * string * string) :=
  query (λ d, scan_row (λ r, (c_local_hash r,
      coalesce_text (c_local_hash r) (c_download_baseline_hash r),
      c_local_remote_etag r)) (sql_first (λ r, c_id r = id) (inodes d))).

(** ** Inodes: updates *)

Definition excluded_row (id : Z) (i : Inode) : inode_row :=
  mkRow id (i_RemotePath i) (i_DisplayName i) (i_IsDir i) (i_Size i) (i_Mtime i)
    (i_Cached i) (i_Dirty i) (i_Pinned i) (i_LastAccess i) (i_ContentHash i)
    (i_LocalHash i) (i_LocalMtime i) (i_SealedKey i) (i_EncMeta i) (i_Etag i)
    (i_ParentID i) (i_SyncStatus i) (i_StatusReason i) "" "".

(** The [ON CONFLICT(remote_path) DO UPDATE SET] clause: [ex] is the excluded
    row, [r] the stored one. *)
Definition upsert_merge (ex r : inode_row) : inode_row :=
  r <| c_display_name := c_display_name ex |>
    <| c_is_dir := c_is_dir ex |>
    <| c_size := c_size ex |>
    <| c_mtime := c_mtime ex |>
    <| c_cached := c_cached ex |>
    <| c_dirty := c_dirty r || c_dirty ex |>
    <| c_content_hash := c_content_hash ex |>
    <| c_local_hash := coalesce_text (c_local_hash ex) (c_local_hash r) |>
    <| c_local_mtime := coalesce_int (c_local_mtime ex) (c_local_mtime r) |>
    <| c_sealed_key := c_sealed_key ex |>
    <| c_enc_meta := c_enc_meta ex |>
    <| c_etag := coalesce_text (c_etag ex) (c_etag r) |>
    <| c_parent_id := c_parent_id ex |>
    <| c_sync_status := c_sync_status ex |>
    <| c_status_reason := c_status_reason ex |>.

Definition UpsertInode (inode : Inode) : dbm Z := λ d,
  if closed d then (Err (ErrSentinel SqlErrClosed), d) else
  let path := i_RemotePath inode in
  match sql_first (λ r, c_remote_path r = path) (inodes d) with
  | Some old =>
      (Ok (c_id old), on_inodes (sql_update (λ r, c_remote_path r = path)
                        (upsert_merge (excluded_row (c_id old) inode))) d)
  | None =>
      let id := inodes_seq d + 1 in
      (Ok id, d <| inodes := inodes d ++ [excluded_row id inode] |>
                <| inodes_seq := id |>)
  end.

Definition update_inode (id : Z) (f : inode_row → inode_row) : dbm unit :=
  exec_ (on_inodes (sql_update (λ r, c_id r = id) f)).

Definition DeleteInode (remotePath : string) : dbm unit :=
  exec_ (on_inodes (sql_delete (λ r, c_remote_path r = remotePath))).
Definition DeleteChildren (parentID : Z) : dbm unit :=
  exec_ (on_inodes (sql_delete (λ r, c_parent_id r = parentID))).
Definition MarkDirty (id : Z) : dbm unit := update_inode id (λ r,
  r <| c_dirty := true |> <| c_sync_status := StatusPending |>).
Definition MarkSynced (id : Z) (etag : string) : dbm unit := update_inode id (λ r,
  r <| c_dirty := false |> <| c_sync_status := StatusSynced |>
    <| c_status_reason := "" |> <| c_etag := etag |>).
Definition MarkCached (id : Z) (contentHash : string) (now : Z) : dbm unit :=
  update_inode id (λ r, r <| c_cached := true |> <| c_content_hash := contentHash |>
    <| c_last_access := now |>).
Definition SetInodeSize (id size : Z) : dbm unit :=
  update_inode id (λ r, r <| c_size := size |>).
Definition SetLocalContent (id : Z) (hash : string) (mtime : Z) : dbm unit :=
  let mtime := if decide (hash = "") then 0 else mtime in
  update_inode id (λ r, r <| c_local_hash := hash |> <| c_local_mtime := mtime |>
    <| c_download_baseline_hash := hash |>
    <| c_local_remote_etag := if decide (hash = "") then "" else c_etag r |>).
Definition invalidate_row (r : inode_row) : inode_row :=
  r <| c_download_baseline_hash :=
         if decide (c_local_hash r ≠ "") then c_local_hash r
         else c_download_baseline_hash r |>
    <| c_cached := false |> <| c_content_hash := "" |> <| c_local_hash := "" |>
    <| c_local_mtime := 0 |>.
Definition InvalidateCache (id : Z) : dbm unit := update_inode id invalidate_row.
Definition TouchAccess (id now : Z) : dbm unit :=
  update_inode id (λ r, r <| c_last_access := now |>).
Definition SetSyncStatus (id : Z) (status : SyncStatus) (reason : string) : dbm unit :=
  update_inode id (λ r, r <| c_sync_status := status |> <| c_status_reason := reason |>).
Definition SetPinned (remotePath : string) (pinned : bool) : dbm unit :=
  exec_ (on_inodes (sql_update (λ r, c_remote_path r = remotePath)
                      (λ r, r <| c_pinned := pinned |>))).
Definition MarkLocalConflict (id : Z) (reason : string) : dbm unit :=
  update_inode id (λ r, r <| c_dirty := true |> <| c_cached := false |>
    <| c_sync_status := StatusConflict |> <| c_status_reason := reason |>).
Definition SetRemoteVersion (id : Z) (etag : string) : dbm unit :=
  update_inode id (λ r, r <| c_etag := etag |>).
Definition SetLocalContentForVersion (id : Z) (hash : string) (localMtime : Z)
    (remoteEtag : string) : dbm unit := update_inode id (λ r,
  r <| c_local_hash := hash |> <| c_download_baseline_hash := hash |>
    <| c_local_mtime := localMtime |> <| c_local_remote_etag := remoteEtag |>).

Definition DeleteRejected : dbm (list string) := exec
  (λ d, c_content_hash <$>
     sql_select (λ r, c_sync_status r = StatusRejected ∧ c_content_hash r ≠ "") (inodes d))
  (on_inodes (sql_delete (λ r, c_sync_status r = StatusRejected))).

(** ** Writeback queue *)

Definition active_status (s : string) : Prop := s = "pending" ∨ s = "in_progress".
#[export] Instance active_status_dec s : Decision (active_status s).
Proof. unfold active_status. apply _. Defined.

Definition due_order (e1 e2 : WritebackEntry) : Prop :=
  w_EnqueuedAt e1 < w_EnqueuedAt e2 ∨
  (w_EnqueuedAt e1 = w_EnqueuedAt e2 ∧ w_ID e1 ≤ w_ID e2).
#[export] Instance due_order_dec : RelDecision due_order.
Proof. intros ??. unfold due_order. apply _. Defined.

(** The claimed entries of [DequeueWriteback]: the oldest due pending ones; a
    negative LIMIT is no limit. *)
Definition dequeue_claim (limit claimBefore : Z) (q : list WritebackEntry) : list Z :=
  let due := sql_order_by due_order
    (sql_select (λ e, w_Status e = "pending" ∧ w_EnqueuedAt e ≤ claimBefore) q) in
  w_ID <$> (if decide (limit < 0) then due else take (Z.to_nat limit) due).

Definition DequeueWriteback (limit claimBefore now : Z) : dbm (list WritebackEntry) :=
  let claimBefore := if decide (claimBefore ≤ 0) then now + 1 else claimBefore in
  exec (λ d, (λ e, e <| w_Status := "in_progress" |>) <$>
             sql_select (λ e, w_ID e ∈ dequeue_claim limit claimBefore (writeback_queue d))
               (writeback_queue d))
       (λ d, on_queue (sql_update
               (λ e, w_ID e ∈ dequeue_claim limit claimBefore (writeback_queue d))
               (λ e, e <| w_Status := "in_progress" |>)) d).

Definition HasActiveWriteback (inodeID : Z) (action : string) : DB → result error bool :=
  query (λ d, Ok (bool_decide (0 < sql_count (λ e, w_InodeID e = inodeID ∧
    w_Action e = action ∧ active_status (w_Status e)) (writeback_queue d))%nat)).

Definition RequeueInProgress : dbm nat := exec
  (λ d, sql_count (λ e, w_Status e = "in_progress") (writeback_queue d))
  (on_queue (sql_update (λ e, w_Status e = "in_progress")
               (λ e, e <| w_Status := "pending" |>))).

Definition UpdateWriteback (id : Z) (status lastError : string) (attempts : Z) : dbm unit :=
  exec_ (on_queue (sql_update (λ e, w_ID e = id) (λ e,
    e <| w_Status := status |> <| w_LastError := lastError |> <| w_Attempts := attempts |>))).

Definition DeferWriteback (id : Z) (lastError : string) (attempts notBefore : Z) : dbm unit :=
  exec_ (on_queue (sql_update (λ e, w_ID e = id) (λ e,
    e <| w_Status := "pending" |> <| w_LastError := lastError |>
      <| w_Attempts := attempts |> <| w_EnqueuedAt := notBefore |>))).

Definition sql_min (col : WritebackEntry → Z) (q : list WritebackEntry) : option Z :=
  match q with
  | [] => None
  | e :: q' => Some (foldr (λ e, Z.min (col e)) (col e) q')
  end.

Definition DeferredWritebackCount (horizon : Z) : DB → result error (nat * Z) := query (λ d,
  let late := sql_select (λ e, w_Status e = "pending" ∧ horizon < w_EnqueuedAt e)
                (writeback_queue d) in
  Ok (length late, default 0 (sql_min w_EnqueuedAt late))).

Definition delete_queue (P : WritebackEntry → Prop) `{∀ e, Decision (P e)} : dbm unit :=
  exec_ (on_queue (sql_delete P)).
Definition DeleteWriteback (id : Z) : dbm unit := delete_queue (λ e, w_ID e = id).
Definition DeleteWritebackByInode (inodeID : Z) : dbm unit :=
  delete_queue (λ e, w_InodeID e = inodeID).
Definition DeleteFailedUploadWritebacks (inodeID : Z) : dbm unit :=
  delete_queue (λ e, w_InodeID e = inodeID ∧ w_Action e = "upload" ∧ w_Status e = "failed").
Definition DeleteFailedWritebacks (d : DB) : nat * DB :=
  match exec (λ d, sql_count (λ e, w_Status e = "failed") (writeback_queue d))
          (on_queue (sql_delete (λ e, w_Status e = "failed"))) d with
  | (Ok n, d') => (n, d')
  | (Err _, d') => (0%nat, d')
  end.

Definition count_queue (status : string) : DB → result error nat := query (λ d,
  Ok (sql_count (λ e, w_Status e = status) (writeback_queue d))).
Definition PendingWritebackCount : DB → result error nat := count_queue "pending".
Definition FailedWritebackCount : DB → result error nat := count_queue "failed".

Section enqueue.
(** [json.Marshal] of the one-field struct and [json.Unmarshal] of it; the
    generated [api.NewUploadIdempotencyKey()] is an argument. *)
Variable json_marshal_key : string → string.
Variable json_unmarshal_key : string → option string.

Definition MarshalUploadExtra (key : string) : string :=
  if decide (key = "") then "" else json_marshal_key key.
Definition UploadKeyFromExtra (extraJSON : string) : string :=
  if decide (extraJSON = "") then "" else default "" (json_unmarshal_key extraJSON).

Definition EnqueueWriteback (inodeID : Z) (action remotePath extraJSON : string)
    (newKey : string) (now : Z) : dbm unit := λ d,
  if writebackDisabled d then (Err (ErrSentinel ErrReadOnlyMount), d) else
  if closed d then (Err (ErrSentinel SqlErrClosed), d) else
  let extraJSON :=
    if decide (action = "upload" ∧ UploadKeyFromExtra extraJSON = "")
    then MarshalUploadExtra newKey else extraJSON in
  let q := writeback_queue d in
  let q := if decide (action ≠ "rename")
           then sql_delete (λ e, w_InodeID e = inodeID ∧ w_Action e = action ∧
                                 w_Status e = "pending") q
           else q in
  let id := wb_seq d + 1 in
  (Ok tt, d <| writeback_queue :=
             q ++ [mkWritebackEntry id inodeID action remotePath extraJSON now 0 "" "pending"] |>
            <| wb_seq := id |>).
End enqueue.

(** ** Sync failures *)

Definition StalledDownloadAttempts : Z := 3.

Definition FailedDownloadCount : DB → result error nat := query (λ d,
  Ok (sql_count (λ f, f_Kind f = FailureDownload ∧
        (f_Permanent f = true ∨ StalledDownloadAttempts ≤ f_Attempts f)) (sync_failures d))).

(** [(nil, nil)] for no row is [Ok None]. *)
Definition GetSyncFailure (inodeID : Z) (kind : string) : DB → result error (option SyncFailure) :=
  query (λ d, Ok (sql_first (λ f, f_InodeID f = inodeID ∧ f_Kind f = kind) (sync_failures d))).

Definition RecordSyncFailure (f : SyncFailure) : dbm unit := exec_ (on_failures (λ t,
  match sql_first (λ g, f_key g = f_key f) t with
  | Some _ => sql_update (λ g, f_key g = f_key f) (λ _, f) t
  | None => t ++ [f]
  end)).

Definition ClearSyncFailure (inodeID : Z) (kind : string) : dbm unit :=
  exec_ (on_failures (sql_delete (λ f, f_InodeID f = inodeID ∧ f_Kind f = kind))).
Definition DeleteSyncFailures (inodeID : Z) : dbm unit :=
  exec_ (on_failures (sql_delete (λ f, f_InodeID f = inodeID))).

Definition hasFailureLatch (i : Inode) (d : DB) : bool :=
  bool_decide (i_SyncStatus i = StatusFailed) ||
  existsb (λ kind, match GetSyncFailure (i_ID i) kind d with
                   | Ok (Some _) => true | _ => false end)
    [FailureUpload; FailureDownload].

(** ** The mutating calls as labelled steps *)

Inductive db_op : Type :=
| OpSetWritebackDisabled (v : bool)
| OpClose
| OpUpsertInode (i : Inode)
| OpDeleteInode (remotePath : string)
| OpDeleteChildren (parentID : Z)
| OpDeleteRejected
| OpMarkDirty (id : Z)
| OpMarkSynced (id : Z) (etag : string)
| OpMarkCached (id : Z) (hash : string) (now : Z)
| OpSetInodeSize (id size : Z)
| OpSetLocalContent (id : Z) (hash : string) (mtime : Z)
| OpInvalidateCache (id : Z)
| OpTouchAccess (id now : Z)
| OpSetSyncStatus (id : Z) (s : SyncStatus) (reason : string)
| OpSetPinned (remotePath : string) (v : bool)
| OpMarkLocalConflict (id : Z) (reason : string)
| OpSetRemoteVersion (id : Z) (etag : string)
| OpSetLocalContentForVersion (id : Z) (hash : string) (mtime : Z) (etag : string)
| OpEnqueueWriteback (mk : string → string) (un : string → option string)
    (inodeID : Z) (action remotePath extra newKey : string) (now : Z)
| OpDequeueWriteback (limit claimBefore now : Z)
| OpRequeueInProgress
| OpUpdateWriteback (id : Z) (status lastError : string) (attempts : Z)
| OpDeferWriteback (id : Z) (lastError : string) (attempts notBefore : Z)
| OpDeleteWriteback (id : Z)
| OpDeleteWritebackByInode (inodeID : Z)
| OpDeleteFailedUploadWritebacks (inodeID : Z)
| OpDeleteFailedWritebacks
| OpRecordSyncFailure (f : SyncFailure)
| OpClearSyncFailure (inodeID : Z) (kind : string)
| OpDeleteSyncFailures (inodeID : Z).

Definition run_op (op : db_op) (d : DB) : DB :=
  match op with
  | OpSetWritebackDisabled v => SetWritebackDisabled v d
  | OpClose => Close d
  | OpUpsertInode i => (UpsertInode i d).2
  | OpDeleteInode p => (DeleteInode p d).2
  | OpDeleteChildren p => (DeleteChildren p d).2
  | OpDeleteRejected => (DeleteRejected d).2
  | OpMarkDirty id => (MarkDirty id d).2
  | OpMarkSynced id e => (MarkSynced id e d).2
  | OpMarkCached id h now => (MarkCached id h now d).2
  | OpSetInodeSize id s => (SetInodeSize id s d).2
  | OpSetLocalContent id h m => (SetLocalContent id h m d).2
  | OpInvalidateCache id => (InvalidateCache id d).2
  | OpTouchAccess id now => (TouchAccess id now d).2
  | OpSetSyncStatus id s r => (SetSyncStatus id s r d).2
  | OpSetPinned p v => (SetPinned p v d).2
  | OpMarkLocalConflict id r => (MarkLocalConflict id r d).2
  | OpSetRemoteVersion id e => (SetRemoteVersion id e d).2
  | OpSetLocalContentForVersion id h m e => (SetLocalContentForVersion id h m e d).2
  | OpEnqueueWriteback mk un id a p x k now => (EnqueueWriteback mk un id a p x k now d).2
  | OpDequeueWriteback l c now => (DequeueWriteback l c now d).2
  | OpRequeueInProgress => (RequeueInProgress d).2
  | OpUpdateWriteback id s e a => (UpdateWriteback id s e a d).2
  | OpDeferWriteback id e a n => (DeferWriteback id e a n d).2
  | OpDeleteWriteback id => (DeleteWriteback id d).2
  | OpDeleteWritebackByInode id => (DeleteWritebackByInode id d).2
  | OpDeleteFailedUploadWritebacks id => (DeleteFailedUploadWritebacks id d).2
  | OpDeleteFailedWritebacks => (DeleteFailedWritebacks d).2
  | OpRecordSyncFailure f => (RecordSyncFailure f d).2
  | OpClearSyncFailure id k => (ClearSyncFailure id k d).2
  | OpDeleteSyncFailures id => (DeleteSyncFailures id d).2
  end.

Inductive db_step : DB → DB → Prop :=
| DbStep op d : db_step d (run_op op d).

(** ** Well-formedness: the keys of the schema *)

Record db_wf (d : DB) : Prop := {
  wf_ids : NoDup (c_id <$> inodes d);
  wf_paths : NoDup (c_remote_path <$> inodes d);
  wf_id_seq : Forall (λ r, 0 < c_id r ≤ inodes_seq d) (inodes d);
  wf_wb_ids : NoDup (w_ID <$> writeback_queue d);
  wf_wb_seq : Forall (λ e, 0 < w_ID e ≤ wb_seq d) (writeback_queue d);
  wf_failures : NoDup (f_key <$> sync_failures d);
  wf_seqs : 0 ≤ inodes_seq d ∧ 0 ≤ wb_seq d }.

Lemma empty_db_wf : db_wf empty_db.
Proof. split; simpl; try constructor; lia. Qed.

Lemma NoDup_key_snoc {A K} (key : A → K) (l : list A) (x : A) :
  NoDup (key <$> l) → (∀ y, y ∈ l → key y ≠ key x) → NoDup (key <$> (l ++ [x])).
Proof.
  intros Hnd Hne. rewrite fmap_app. apply NoDup_app. split_and!; [done| |apply NoDup_singleton].
  intros k (y & -> & Hy)%list_elem_of_fmap ?%list_elem_of_singleton. naive_solver.
Qed.

Section wf_statements.
Context (d : DB) (Hwf : db_wf d).

Lemma wf_inodes_update P `{∀ r, Decision (P r)} f :
  (∀ r, P r → c_id (f r) = c_id r ∧ c_remote_path (f r) = c_remote_path r) →
  db_wf (on_inodes (sql_update P f) d).
Proof using Hwf.
  intros Hf. destruct Hwf. split; simpl; try done.
  - rewrite sql_update_key; [done|]. intros; by apply Hf.
  - rewrite sql_update_key; [done|]. intros; by apply Hf.
  - apply Forall_sql_update; [done|]. intros r ? HP. simpl. by rewrite (proj1 (Hf r HP)).
Qed.

Lemma wf_inodes_delete P `{∀ r, Decision (P r)} : db_wf (on_inodes (sql_delete P) d).
Proof using Hwf. destruct Hwf. split; simpl; auto with table. Qed.

Lemma wf_queue_update P `{∀ r, Decision (P r)} f :
  (∀ e, w_ID (f e) = w_ID e) → db_wf (on_queue (sql_update P f) d).
Proof using Hwf.
  intros Hf. destruct Hwf. split; simpl; try done.
  - by rewrite sql_update_key.
  - apply Forall_sql_update; [done|]. intros e ? _. simpl. by rewrite Hf.
Qed.

Lemma wf_queue_delete P `{∀ r, Decision (P r)} : db_wf (on_queue (sql_delete P) d).
Proof using Hwf. destruct Hwf. split; simpl; auto with table. Qed.

Lemma wf_failures_delete P `{∀ r, Decision (P r)} : db_wf (on_failures (sql_delete P) d).
Proof using Hwf. destruct Hwf. split; simpl; auto with table. Qed.

Lemma wf_exec {A} (a : DB → A) f : db_wf (f d) → db_wf (exec a f d).2.
Proof using Hwf. unfold exec. by destruct (closed d). Qed.

Lemma wf_UpsertInode i : db_wf (UpsertInode i d).2.
Proof using Hwf.
  unfold UpsertInode. destruct (closed d); [done|].
  destruct (sql_first _ _) as [old|] eqn:E; simpl.
  - by apply wf_inodes_update.
  - apply sql_first_None in E. rewrite Forall_forall in E.
    destruct Hwf as [? ? Hseq ? ? ? ?]. rewrite Forall_forall in Hseq.
    split; simpl; try done.
    + apply NoDup_key_snoc; [done|]. intros y Hy. simpl. specialize (Hseq y Hy). lia.
    + apply NoDup_key_snoc; [done|]. intros y Hy. simpl. by apply E.
    + apply Forall_app. split; [|apply Forall_singleton; simpl; lia].
      apply Forall_forall. intros y Hy. specialize (Hseq y Hy). simpl. lia.
    + lia.
Qed.

Lemma wf_EnqueueWriteback mk un id a p x k now :
  db_wf (EnqueueWriteback mk un id a p x k now d).2.
Proof using Hwf.
  unfold EnqueueWriteback.
  destruct (writebackDisabled d); [done|]. destruct (closed d); [done|]. simpl.
  set (q := if decide (a ≠ "rename") then _ else _).
  assert (∀ e, e ∈ q → e ∈ writeback_queue d) as Hq.
  { intros e. unfold q. case_decide; [|done]. by intros [_ ?]%elem_of_sql_delete. }
  destruct Hwf as [? ? ? Hnd Hseq ? ?]. rewrite Forall_forall in Hseq.
  split; simpl; try done; [| |lia].
  - apply NoDup_key_snoc.
    + unfold q. case_decide; auto with table.
    + intros y Hy. simpl. specialize (Hseq y (Hq y Hy)). lia.
  - apply Forall_app. split; [|apply Forall_singleton; simpl; lia].
    apply Forall_forall. intros y Hy. specialize (Hseq y (Hq y Hy)). simpl. lia.
Qed.

Lemma wf_RecordSyncFailure f : db_wf (RecordSyncFailure f d).2.
Proof using Hwf.
  apply wf_exec. destruct Hwf. split; simpl; try done.
  destruct (sql_first _ _) eqn:E.
  - by rewrite sql_update_key.
  - apply sql_first_None in E. rewrite Forall_forall in E. by apply NoDup_key_snoc.
Qed.

Lemma wf_DequeueWriteback l c now : db_wf (DequeueWriteback l c now d).2.
Proof using Hwf. apply wf_exec. by apply wf_queue_update. Qed.
End wf_statements.
#[export] Hint Resolve wf_UpsertInode wf_EnqueueWriteback wf_RecordSyncFailure
  wf_DequeueWriteback wf_inodes_delete wf_queue_delete wf_failures_delete : go.

Lemma run_op_wf op d : db_wf d → db_wf (run_op op d).
Proof.
  intros Hwf. destruct op; simpl; auto with go;
    try (apply wf_exec; [done|]); auto with go;
    try (apply wf_inodes_update; [done|]; by intros []);
    try (by apply wf_queue_update).
  - destruct Hwf; by split.
  - destruct Hwf; by split.
  - unfold DeleteFailedWritebacks, exec. destruct (closed d); simpl; auto with go.
Qed.

(** In every database state reachable from the empty one by any sequence of
    calls, the schema's keys hold: inode ids and remote paths are unique,
    writeback ids and (inode, kind) failure keys are unique, and every id lies
    below the AUTOINCREMENT counter, so a new row never reuses an id. *)
Theorem reachable_db_wf d : rtc db_step empty_db d → db_wf d.
Proof.
  intros Hr. assert (db_wf empty_db) as H0 by apply empty_db_wf.
  revert H0. induction Hr as [|d1 d2 d3 [op] _ IH]; auto using run_op_wf.
Qed.

(** ** Pending edits survive *)

Definition op_deletes (op : db_op) (r : inode_row) : Prop :=
  match op with
  | OpDeleteInode p => c_remote_path r = p
  | OpDeleteChildren p => c_parent_id r = p
  | OpDeleteRejected => c_sync_status r = StatusRejected
  | _ => False
  end.

Definition still_dirty (r : inode_row) (d : DB) : Prop :=
  ∃ r', r' ∈ inodes d ∧ c_id r' = c_id r ∧ c_remote_path r' = c_remote_path r ∧
        c_dirty r' = true.

Lemma still_dirty_refl r d : r ∈ inodes d → c_dirty r = true → still_dirty r d.
Proof. intros. by exists r. Qed.

Lemma still_dirty_update P `{∀ r, Decision (P r)} f r d :
  r ∈ inodes d → c_dirty r = true →
  (P r → c_id (f r) = c_id r ∧ c_remote_path (f r) = c_remote_path r ∧
         c_dirty (f r) = true) →
  still_dirty r (on_inodes (sql_update P f) d).
Proof.
  intros Hin Hd Hf. destruct (decide (P r)) as [HP|HP].
  - exists (f r). destruct (Hf HP) as (?&?&?). split_and!; try done.
    by apply elem_of_sql_update_eq.
  - exists r. split_and!; try done. by apply elem_of_sql_update_ne.
Qed.

Lemma still_dirty_delete P `{∀ r, Decision (P r)} r d :
  r ∈ inodes d → c_dirty r = true → ¬ P r → still_dirty r (on_inodes (sql_delete P) d).
Proof. intros. exists r. split_and!; try done. by apply elem_of_sql_delete. Qed.

Lemma still_dirty_exec {A} (a : DB → A) f r d :
  r ∈ inodes d → c_dirty r = true → still_dirty r (f d) → still_dirty r (exec a f d).2.
Proof. intros. unfold exec. destruct (closed d); [by apply still_dirty_refl|done]. Qed.

Lemma still_dirty_upsert i r d :
  r ∈ inodes d → c_dirty r = true → still_dirty r (UpsertInode i d).2.
Proof.
  intros Hin Hd. unfold UpsertInode. destruct (closed d); [by apply still_dirty_refl|].
  destruct (sql_first _ _); simpl.
  - apply still_dirty_update; [done..|]. intros _. simpl. by rewrite Hd.
  - exists r. split_and!; try done. simpl. by apply elem_of_app; left.
Qed.

(** C25: A row with a pending local edit keeps its dirty flag, under the same id
    and path, across every database call except [MarkSynced] on that very id
    and the calls that delete the row: in particular a listing rebuild through
    [UpsertInode] never clears it, which the prune guard relies on. *)
Theorem dirty_only_cleared_by_MarkSynced op d r :
  r ∈ inodes d → c_dirty r = true →
  still_dirty r (run_op op d) ∨ op_deletes op r ∨ ∃ etag, op = OpMarkSynced (c_id r) etag.
Proof.
  intros Hin Hd.
  destruct op; simpl; auto using still_dirty_upsert;
    try (left; by apply still_dirty_refl);
    try (left; apply still_dirty_exec; [done..|]; by apply still_dirty_refl);
    try (left; apply still_dirty_exec; [done..|];
         apply still_dirty_update; [done..|]; simpl; by auto).
  - destruct (decide (c_remote_path r = remotePath)); [by auto|].
    left. apply still_dirty_exec; [done..|]. by apply still_dirty_delete.
  - destruct (decide (c_parent_id r = parentID)); [by auto|].
    left. apply still_dirty_exec; [done..|]. by apply still_dirty_delete.
  - destruct (decide (c_sync_status r = StatusRejected)); [by auto|].
    left. apply still_dirty_exec; [done..|]. by apply still_dirty_delete.
  - destruct (decide (c_id r = id)) as [->|]; [by eauto|].
    left. apply still_dirty_exec; [done..|]. by apply still_dirty_update.
  - left. unfold EnqueueWriteback. crush_match; by apply still_dirty_refl.
  - left. unfold DeleteFailedWritebacks, exec. destruct (closed d); by apply still_dirty_refl.
Qed.

(** ** Upsert *)

Lemma exec_open {A} (a : DB → A) f d : closed d = false → exec a f d = (Ok (a d), f d).
Proof. unfold exec. by intros ->. Qed.

Lemma query_open {A} (f : DB → result error A) d : closed d = false → query f d = f d.
Proof. unfold query. by intros ->. Qed.

Lemma GetInode_Ok d id i :
  db_wf d → closed d = false →
  GetInode id d = Ok i ↔ ∃ r, r ∈ inodes d ∧ c_id r = id ∧ i = scanInodeRow r.
Proof.
  intros Hwf Hc. unfold GetInode. rewrite query_open by done.
  split.
  - destruct (sql_first _ _) as [r|] eqn:E; simpl; intros; simplify_eq.
    apply sql_first_key in E as [??]; [eauto|apply Hwf].
  - intros (r & Hin & Hid & ->).
    by rewrite (proj2 (sql_first_key c_id _ id r (wf_ids _ Hwf))).
Qed.

Lemma GetInodeByPath_Ok d p i :
  db_wf d → closed d = false →
  GetInodeByPath p d = Ok i ↔ ∃ r, r ∈ inodes d ∧ c_remote_path r = p ∧ i = scanInodeRow r.
Proof.
  intros Hwf Hc. unfold GetInodeByPath. rewrite query_open by done.
  split.
  - destruct (sql_first _ _) as [r|] eqn:E; simpl; intros; simplify_eq.
    apply sql_first_key in E as [??]; [eauto|apply Hwf].
  - intros (r & Hin & Hid & ->).
    by rewrite (proj2 (sql_first_key c_remote_path _ p r (wf_paths _ Hwf))).
Qed.

Lemma GetInodeByPath_None d p :
  closed d = false →
  (∀ i, GetInodeByPath p d ≠ Ok i) → Forall (λ r, c_remote_path r ≠ p) (inodes d).
Proof.
  intros Hc Hn. unfold GetInodeByPath in Hn. rewrite query_open in Hn by done.
  apply (sql_first_None (λ r, c_remote_path r = p)).
  destruct (sql_first _ _) as [r|]; [|done]. by destruct (Hn (scanInodeRow r)).
Qed.

(** [UpsertInode] on an open database.  When no row has the path, it inserts
    one under an id larger than every id in use, and reading the path back
    returns exactly the given inode under that id.  When a row has the path, it
    keeps its id, pin and access time, ORs the dirty flag, keeps the stored
    local hash, local mtime and etag where the new value is empty, and takes
    every other column from the argument.  Rows of other paths are untouched. *)
Theorem UpsertInode_spec i d :
  db_wf d → closed d = false →
  let '(res, d') := UpsertInode i d in
  ∃ id, res = Ok id ∧
    (∀ r, c_remote_path r ≠ i_RemotePath i → r ∈ inodes d' ↔ r ∈ inodes d) ∧
    match GetInodeByPath (i_RemotePath i) d with
    | Err _ => (∀ r, r ∈ inodes d → c_id r < id) ∧
               GetInodeByPath (i_RemotePath i) d' = Ok (i <| i_ID := id |>)
    | Ok old => id = i_ID old ∧
        GetInodeByPath (i_RemotePath i) d' =
        Ok (i <| i_ID := id |>
              <| i_Pinned := i_Pinned old |>
              <| i_LastAccess := i_LastAccess old |>
              <| i_Dirty := i_Dirty old || i_Dirty i |>
              <| i_LocalHash := coalesce_text (i_LocalHash i) (i_LocalHash old) |>
              <| i_LocalMtime := coalesce_int (i_LocalMtime i) (i_LocalMtime old) |>
              <| i_Etag := coalesce_text (i_Etag i) (i_Etag old) |>)
    end.
Proof.
  intros Hwf Hc. pose proof (wf_UpsertInode d Hwf i) as Hwf'.
  unfold UpsertInode in *. unfold GetInodeByPath at 1. rewrite query_open by done.
  rewrite Hc in *. destruct (sql_first _ _) as [old|] eqn:E; simpl in *.
  - apply (sql_first_key c_remote_path) in E as [Hin Hp]; [|apply Hwf].
    exists (c_id old). split_and!; [done| |done|].
    + intros r Hr. rewrite elem_of_sql_update. split.
      * intros (r' & Hr' & ->). case_decide; [|done]. simpl in Hr. by destruct Hr.
      * intros. exists r. by rewrite decide_False.
    + apply GetInodeByPath_Ok; [done..|].
      eexists. split; [by apply elem_of_sql_update_eq|]. split; [done|].
      unfold scanInodeRow. simpl. by rewrite Hp.
  - exists (inodes_seq d + 1). split_and!; [done| | |].
    + intros r Hr. rewrite elem_of_app, list_elem_of_singleton. split; [|by auto].
      intros [?| ->]; [done|]. by destruct Hr.
    + intros r Hr. pose proof (wf_id_seq _ Hwf) as Hs. rewrite Forall_forall in Hs.
      specialize (Hs r Hr). lia.
    + apply GetInodeByPath_Ok; [done..|].
      eexists. split; [by apply elem_of_app; right; apply list_elem_of_singleton|done].
Qed.

(** ** The writeback queue *)

#[export] Instance due_order_trans : Transitive due_order.
Proof. unfold due_order. intros e1 e2 e3 ??. lia. Qed.
#[export] Instance due_order_total : Total due_order.
Proof. unfold due_order. intros e1 e2. lia. Qed.

Definition due (claimBefore : Z) (e : WritebackEntry) : Prop :=
  w_Status e = "pending" ∧ w_EnqueuedAt e ≤ claimBefore.
#[export] Instance due_dec c e : Decision (due c e).
Proof. unfold due. apply _. Defined.

(** The prefix a sorted list is cut to precedes everything left behind. *)
Lemma take_sorted_le {A} (R : relation A) (l : list A) n x y :
  StronglySorted R l → NoDup l → x ∈ take n l → y ∈ l → y ∉ take n l → R x y.
Proof.
  intros Hs. revert n. induction Hs as [|a l Hs IH Ha]; intros n Hnd Hx Hy Hny.
  - by apply not_elem_of_nil in Hy.
  - destruct n; simpl in *; [by apply not_elem_of_nil in Hx|].
    apply NoDup_cons in Hnd as [Hna Hnd].
    rewrite Forall_forall in Ha.
    apply elem_of_cons in Hy as [->|Hy]; [destruct Hny; left|].
    apply elem_of_cons in Hx as [->|Hx]; [by apply Ha|].
    eapply IH; eauto. intros ?. apply Hny. by right.
Qed.

Section dequeue.
Context (limit claimBefore : Z) (q : list WritebackEntry).
Context (Hnd : NoDup (w_ID <$> q)).

Let dues := sql_order_by due_order (sql_select (due claimBefore) q).
Let claim := if decide (limit < 0) then dues else take (Z.to_nat limit) dues.

Lemma NoDup_dues : NoDup (w_ID <$> dues).
Proof using Hnd.
  unfold dues. rewrite sql_order_by_Permutation. eapply sublist_NoDup; [exact Hnd|].
  apply fmap_sublist, sublist_filter.
Qed.

Lemma claim_sublist e : e ∈ claim → e ∈ q ∧ due claimBefore e.
Proof using Type.
  unfold claim, dues. intros He.
  assert (e ∈ sql_order_by due_order (sql_select (due claimBefore) q)) as Hd.
  { case_decide; [done|]. by apply elem_of_take in He as (?&?%list_elem_of_lookup_2&_). }
  rewrite elem_of_sql_order_by, elem_of_sql_select in Hd. naive_solver.
Qed.

Lemma claimed_ids e : e ∈ q → w_ID e ∈ dequeue_claim limit claimBefore q ↔ e ∈ claim.
Proof using Hnd.
  intros Hin. change (dequeue_claim limit claimBefore q) with (w_ID <$> claim).
  rewrite list_elem_of_fmap. split; [|naive_solver].
  intros (e' & Heq & He'). pose proof (claim_sublist e' He') as [??].
  by rewrite (keyed_eq w_ID q e e').
Qed.

Lemma claim_oldest e e' :
  e ∈ claim → e' ∈ q → due claimBefore e' → e' ∉ claim → due_order e e'.
Proof using Hnd.
  unfold claim. intros He Hin' Hdue' Hne.
  assert (e' ∈ dues) as Hd
    by (unfold dues; rewrite elem_of_sql_order_by, elem_of_sql_select; done).
  case_decide; [done|].
  eapply take_sorted_le; eauto.
  - apply StronglySorted_merge_sort; apply _.
  - eapply NoDup_fmap_1, NoDup_dues.
Qed.

Lemma length_claim : 0 ≤ limit → (length claim ≤ Z.to_nat limit)%nat.
Proof using Type.
  intros. unfold claim. rewrite decide_False by lia. rewrite length_take. lia.
Qed.

Lemma claim_nonempty e : 0 < limit → e ∈ q → due claimBefore e → claim ≠ [].
Proof using Type.
  intros Hl Hin Hdue. unfold claim. rewrite decide_False by lia.
  assert (e ∈ dues) as Hd
    by (unfold dues; rewrite elem_of_sql_order_by, elem_of_sql_select; done).
  destruct (Z.to_nat limit) eqn:E; [lia|].
  destruct dues; [by apply not_elem_of_nil in Hd|done].
Qed.

Lemma NoDup_claim : NoDup (w_ID <$> claim).
Proof using Hnd.
  unfold claim. case_decide; [apply NoDup_dues|].
  eapply sublist_NoDup; [apply NoDup_dues|]. apply fmap_sublist, sublist_take.
Qed.
End dequeue.

Lemma elem_of_dequeued {A B} (P : A → Prop) `{∀ e, Decision (P e)} (f : A → B)
    (q : list A) (e : B) :
  e ∈ f <$> sql_select P q ↔ ∃ e0, e0 ∈ q ∧ P e0 ∧ e = f e0.
Proof.
  rewrite list_elem_of_fmap. setoid_rewrite elem_of_sql_select. naive_solver.
Qed.

Definition claimed (e0 : WritebackEntry) : WritebackEntry := e0 <| w_Status := "in_progress" |>.

Lemma claimed_elem limit claimBefore q e0 :
  NoDup (w_ID <$> q) → e0 ∈ q →
  claimed e0 ∈ claimed <$> sql_select (λ e, w_ID e ∈ dequeue_claim limit claimBefore q) q
  ↔ w_ID e0 ∈ dequeue_claim limit claimBefore q.
Proof.
  intros Hnd Hin. rewrite elem_of_dequeued. split.
  - intros (e1 & H1 & Hi & Heq). replace e0 with e1; [done|].
    apply (keyed_eq w_ID q); try done. by injection Heq.
  - intros. by exists e0.
Qed.

Lemma claimed_w_ids limit claimBefore q :
  w_ID <$> (claimed <$> sql_select (λ e, w_ID e ∈ dequeue_claim limit claimBefore q) q)
  = filter (λ i, i ∈ dequeue_claim limit claimBefore q) (w_ID <$> q).
Proof. rewrite <- list_fmap_compose. apply fmap_filter_key. Qed.

(** [DequeueWriteback] on an open database returns each claimed entry once,
    marked in progress and otherwise as stored; every claimed entry was pending
    and due, and no older than it any due entry it left behind; at most [limit]
    entries are claimed, and at least one when any is due and [limit] is
    positive; the queue changes in the claimed entries only, so that no entry
    can be claimed a second time before something sets it back to pending. *)
Theorem DequeueWriteback_claims limit claimBefore now d :
  db_wf d → closed d = false → 0 ≤ limit → 0 < claimBefore →
  let '(res, d') := DequeueWriteback limit claimBefore now d in
  ∃ es, res = Ok es ∧ NoDup (w_ID <$> es) ∧ (length es ≤ Z.to_nat limit)%nat ∧
    (∀ e, e ∈ es → ∃ e0, e0 ∈ writeback_queue d ∧ due claimBefore e0 ∧ e = claimed e0) ∧
    (∀ e0 e1, claimed e0 ∈ es → e0 ∈ writeback_queue d →
       e1 ∈ writeback_queue d → due claimBefore e1 → claimed e1 ∉ es → due_order e0 e1) ∧
    (0 < limit → (∃ e, e ∈ writeback_queue d ∧ due claimBefore e) → es ≠ []) ∧
    (∀ e', e' ∈ writeback_queue d' ↔
       e' ∈ es ∨ (e' ∈ writeback_queue d ∧ w_ID e' ∉ (w_ID <$> es))).
Proof.
  intros Hwf Hc Hl Hcb. unfold DequeueWriteback. rewrite exec_open by done.
  rewrite (decide_False (P := claimBefore ≤ 0)) by lia.
  pose proof (wf_wb_ids _ Hwf) as Hnd.
  pose proof (λ e0, claimed_elem limit claimBefore _ e0 Hnd) as Hes.
  pose proof (claimed_w_ids limit claimBefore (writeback_queue d)) as Hids.
  set (q := writeback_queue d) in *.
  set (ids := dequeue_claim limit claimBefore q) in *.
  set (es := claimed <$> sql_select (λ e, w_ID e ∈ ids) q) in *.
  exists es. split_and!; [done| | | | | |].
  - rewrite Hids. by apply NoDup_filter.
  - rewrite <- (length_fmap w_ID), Hids.
    transitivity (length ids).
    + apply submseteq_length, NoDup_submseteq; [by apply NoDup_filter|].
      by intros i [? _]%list_elem_of_filter.
    + unfold ids, dequeue_claim. rewrite length_fmap. by apply length_claim.
  - intros e (e0 & Hin & Hi & ->)%elem_of_dequeued.
    apply claimed_ids in Hi; [|done..]. apply claim_sublist in Hi as [_ ?]. eauto.
  - intros e0 e1 H0 Hin0 Hin1 Hd1 H1.
    rewrite (Hes _ Hin0) in H0. rewrite (Hes _ Hin1) in H1. unfold ids in *.
    rewrite claimed_ids in H0, H1 by done. by eapply claim_oldest.
  - intros Hpos (e & Hin & Hdue).
    pose proof (claim_nonempty limit claimBefore q e Hpos Hin Hdue) as Hne.
    match type of Hne with ?c ≠ [] => destruct c as [|e1 l] eqn:Ec end; [done|].
    assert (e1 ∈ e1 :: l) as H1 by left. rewrite <- Ec in H1.
    pose proof (claim_sublist _ _ _ _ H1) as [Hin1 _].
    rewrite <- claimed_ids in H1 by done.
    apply (Hes _ Hin1) in H1. intros Hnil. rewrite Hnil in H1. by apply not_elem_of_nil in H1.
  - intros e'. simpl. rewrite elem_of_sql_update, Hids, list_elem_of_filter, list_elem_of_fmap.
    split.
    + intros (e0 & Hin & ->). case_decide as Hi; [left; by apply Hes|].
      right. split; [done|]. intros [? _]. done.
    + intros [He'|[Hin Hn]].
      * unfold es in He'. rewrite elem_of_dequeued in He'. destruct He' as (e0 & Hin & Hi & ->).
        exists e0. by rewrite decide_True.
      * exists e'. split; [done|]. rewrite decide_False; [done|]. naive_solver.
Qed.

(** [EnqueueWriteback] on an open, writable database appends one pending
    entry under a fresh id; except for renames it supersedes every other pending
    entry of the same inode and action, and nothing else; an upload always
    carries a non-empty idempotency key, kept from the caller's extra when it
    has one and taken from the generated key otherwise. *)
Theorem EnqueueWriteback_spec mk un inodeID action path extra newKey now d :
  db_wf d → closed d = false → writebackDisabled d = false →
  (∀ k, k ≠ "" → mk k ≠ "" ∧ un (mk k) = Some k) → newKey ≠ "" →
  ∃ e d', EnqueueWriteback mk un inodeID action path extra newKey now d = (Ok tt, d') ∧
    w_InodeID e = inodeID ∧ w_Action e = action ∧ w_RemotePath e = path ∧
    w_EnqueuedAt e = now ∧ w_Attempts e = 0 ∧ w_Status e = "pending" ∧
    (action = "upload" → UploadKeyFromExtra un (w_ExtraJSON e) =
       if decide (UploadKeyFromExtra un extra = "") then newKey
       else UploadKeyFromExtra un extra) ∧
    (action ≠ "upload" → w_ExtraJSON e = extra) ∧
    (∀ e0, e0 ∈ writeback_queue d → w_ID e0 < w_ID e) ∧
    (∀ e0, e0 ∈ writeback_queue d' ↔ e0 = e ∨ (e0 ∈ writeback_queue d ∧
       ¬ (action ≠ "rename" ∧ w_InodeID e0 = inodeID ∧ w_Action e0 = action ∧
          w_Status e0 = "pending"))).
Proof.
  intros Hwf Hc Hw Hjson Hnk. unfold EnqueueWriteback. rewrite Hw, Hc.
  cbv zeta. set (x := if decide (action = "upload" ∧ _) then _ else _).
  set (q := if decide (action ≠ "rename") then _ else _).
  eexists (mkWritebackEntry (wb_seq d + 1) inodeID action path x now 0 "" "pending"), _.
  split; [reflexivity|]. unfold x, q. clear x q.
  cbn [w_ID w_InodeID w_Action w_RemotePath w_ExtraJSON w_EnqueuedAt w_Attempts w_Status].
  split_and!; try done.
  - intros ->. destruct (decide (UploadKeyFromExtra un extra = "")) as [He|He].
    + rewrite decide_True by done. unfold MarshalUploadExtra. rewrite decide_False by done.
      destruct (Hjson newKey Hnk) as [Hne Hun].
      unfold UploadKeyFromExtra. by rewrite decide_False, Hun.
    + rewrite decide_False by naive_solver. done.
  - intros Hna. rewrite decide_False by naive_solver. done.
  - intros e0 He0. pose proof (wf_wb_seq _ Hwf) as Hs. rewrite Forall_forall in Hs.
    specialize (Hs e0 He0). lia.
  - intros e0. simpl. rewrite elem_of_app, list_elem_of_singleton. case_decide as Ha.
    + rewrite elem_of_sql_delete. naive_solver.
    + naive_solver.
Qed.

(** A read-only mount queues nothing, whatever the state of the database. *)
Lemma EnqueueWriteback_readonly mk un inodeID action path extra newKey now d :
  writebackDisabled d = true →
  EnqueueWriteback mk un inodeID action path extra newKey now d
  = (Err (ErrSentinel ErrReadOnlyMount), d).
Proof. unfold EnqueueWriteback. by intros ->. Qed.

(** ** Sync failures *)

Lemma GetSyncFailure_Ok d id kind f :
  db_wf d → closed d = false →
  GetSyncFailure id kind d = Ok (Some f) ↔ f ∈ sync_failures d ∧ f_key f = (id, kind).
Proof.
  intros Hwf Hc. unfold GetSyncFailure. rewrite query_open by done. split.
  - intros Hf. simplify_eq. apply sql_first_Some in Hf as [[<- <-] ?]. done.
  - intros [Hin Hk]. unfold f_key in Hk. simplify_eq.
    destruct (sql_first _ _) as [g|] eqn:E.
    + apply sql_first_Some in E as [[H1 H2] Hg].
      do 2 f_equal. apply (keyed_eq f_key (sync_failures d)); try done; [apply Hwf|].
      unfold f_key. congruence.
    + apply (sql_first_None (λ g, f_InodeID g = f_InodeID f ∧ f_Kind g = f_Kind f)) in E.
      rewrite Forall_forall in E. by destruct (E f Hin).
Qed.

Lemma GetSyncFailure_Record f d id kind :
  db_wf d → closed d = false →
  GetSyncFailure id kind (RecordSyncFailure f d).2 =
  if decide (f_key f = (id, kind)) then Ok (Some f) else GetSyncFailure id kind d.
Proof.
  intros Hwf Hc.
  pose proof (wf_RecordSyncFailure d Hwf f) as Hwf'.
  assert (closed (RecordSyncFailure f d).2 = false) as Hc'
    by (unfold RecordSyncFailure, exec_; by rewrite exec_open).
  assert (∀ g, g ∈ sync_failures (RecordSyncFailure f d).2 ↔
               g = f ∨ (g ∈ sync_failures d ∧ f_key g ≠ f_key f)) as Hel.
  { intros g. unfold RecordSyncFailure, exec_. rewrite exec_open by done. simpl.
    destruct (sql_first _ _) as [h|] eqn:E.
    - apply sql_first_Some in E as [Hh Hin]. rewrite elem_of_sql_update. split.
      + intros (g0 & ? & ->). case_decide; naive_solver.
      + intros [->|[? Hne]]; [exists h|exists g]; [by rewrite decide_True|by rewrite decide_False].
    - apply (sql_first_None (λ g, f_key g = f_key f)) in E. rewrite Forall_forall in E.
      rewrite elem_of_app, list_elem_of_singleton. naive_solver. }
  case_decide as Hk.
  - apply GetSyncFailure_Ok; [done..|]. by rewrite Hel; auto.
  - destruct (GetSyncFailure id kind d) as [[g|]|e] eqn:E.
    + apply GetSyncFailure_Ok in E as [Hin Hg]; [|done..].
      apply GetSyncFailure_Ok; [done..|]. rewrite Hel. split; [|done].
      right. split; [done|]. congruence.
    + destruct (GetSyncFailure id kind (RecordSyncFailure f d).2) as [[g|]|] eqn:E'; [|done|].
      * apply GetSyncFailure_Ok in E' as [Hin Hg]; [|done..].
        apply Hel in Hin as [->|[Hin _]]; [congruence|].
        assert (GetSyncFailure id kind d = Ok (Some g)) by (by apply GetSyncFailure_Ok).
        congruence.
      * unfold GetSyncFailure in E'. by rewrite query_open in E'.
    + unfold GetSyncFailure in E. by rewrite query_open in E.
Qed.

(** [RecordSyncFailure] is an upsert on (inode, kind): reading that key back
    returns the recorded failure, and every other key reads as before. *)
Theorem RecordSyncFailure_get f d id kind :
  db_wf d → closed d = false →
  GetSyncFailure id kind (RecordSyncFailure f d).2 =
  if decide (f_key f = (id, kind)) then Ok (Some f) else GetSyncFailure id kind d.
Proof. apply GetSyncFailure_Record. Qed.

(** ** The row of an identifier *)

Definition row_of (id : Z) (d : DB) : option inode_row := sql_first (λ r, c_id r = id) (inodes d).

Lemma row_of_elem id d r :
  db_wf d → row_of id d = Some r ↔ r ∈ inodes d ∧ c_id r = id.
Proof.
  intros Hwf. unfold row_of. rewrite sql_first_key by apply Hwf. done.
Qed.

Lemma row_of_update id id' f d :
  (∀ r, c_id (f r) = c_id r) →
  row_of id (on_inodes (sql_update (λ r, c_id r = id') f) d) =
  (if decide (id = id') then f else λ r, r) <$> row_of id d.
Proof.
  intros Hf. unfold row_of, sql_first, sql_update, on_inodes. simpl.
  induction (inodes d) as [|r t IH]; simpl; [done|].
  assert (c_id (if decide (c_id r = id') then f r else r) = c_id r) as Hid
    by (destruct (decide (c_id r = id')); [apply Hf|done]).
  rewrite !filter_cons, Hid. destruct (decide (c_id r = id)) as [<-|Hne]; [|exact IH].
  simpl. by destruct (decide (c_id r = id')).
Qed.

Lemma row_of_update_eq id f d :
  (∀ r, c_id (f r) = c_id r) →
  row_of id (on_inodes (sql_update (λ r, c_id r = id) f) d) = f <$> row_of id d.
Proof. intros. by rewrite row_of_update, decide_True. Qed.

Lemma row_of_update_ne id id' f d :
  id ≠ id' → (∀ r, c_id (f r) = c_id r) →
  row_of id (on_inodes (sql_update (λ r, c_id r = id') f) d) = row_of id d.
Proof. intros. rewrite row_of_update, decide_False by done. by destruct (row_of id d). Qed.

Lemma update_inode_open id f d :
  closed d = false →
  update_inode id f d = (Ok tt, on_inodes (sql_update (λ r, c_id r = id) f) d).
Proof. unfold update_inode, exec_. apply exec_open. Qed.

Lemma GetInode_row id d :
  closed d = false → GetInode id d = scan_row scanInodeRow (row_of id d).
Proof. intros. unfold GetInode. by rewrite query_open. Qed.

Lemma row_of_path_elem p d r :
  db_wf d → sql_first (λ r, c_remote_path r = p) (inodes d) = Some r → row_of (c_id r) d = Some r.
Proof.
  intros Hwf [_ Hin]%sql_first_Some. by apply row_of_elem.
Qed.

(** ** Witnesses: the theorems at a concrete database *)

Definition ex_inode (path : string) (dirty : bool) (etag : string) : Inode :=
  mkInode 0 path path false 10 5 false dirty false 0 "" "" 0 "" "" etag 0 StatusPending "".
Definition ex_db : DB := run_op (OpUpsertInode (ex_inode "a.txt" true "e1")) empty_db.
Definition ex_mk (k : string) : string := String.append "{" k.
Definition ex_un (s : string) : option string :=
  match s with String.String _ k => Some k | _ => None end.
Definition ex_queue : DB := run_op
  (OpEnqueueWriteback ex_mk ex_un 1 "upload" "a.txt" "" "key" 40) ex_db.

Lemma ex_reach : rtc db_step empty_db ex_db.
Proof. apply rtc_once. constructor. Qed.
Lemma ex_db_wf : db_wf ex_db.
Proof. apply run_op_wf, empty_db_wf. Qed.
Lemma ex_queue_wf : db_wf ex_queue.
Proof. apply run_op_wf, ex_db_wf. Qed.

Lemma reachable_db_wf_witness : rtc db_step empty_db ex_db ∧ db_wf ex_db.
Proof. split; [exact ex_reach | exact (reachable_db_wf ex_db ex_reach)]. Defined.

Lemma dirty_only_cleared_by_MarkSynced_witness :
  ∃ r, r ∈ inodes ex_db ∧ c_dirty r = true ∧
    still_dirty r (run_op (OpUpsertInode (ex_inode "a.txt" false "e2")) ex_db).
Proof.
  exists (excluded_row 1 (ex_inode "a.txt" true "e1")).
  assert (excluded_row 1 (ex_inode "a.txt" true "e1") ∈ inodes ex_db) as Hin by left.
  split; [exact Hin|]. split; [reflexivity|].
  destruct (dirty_only_cleared_by_MarkSynced
    (OpUpsertInode (ex_inode "a.txt" false "e2")) ex_db _ Hin eq_refl)
    as [H|[[]|[? H]]]; [exact H | discriminate H].
Defined.

Lemma UpsertInode_spec_witness :
  ∃ d', UpsertInode (ex_inode "a.txt" false "") ex_db = (Ok 1, d') ∧
    GetInodeByPath "a.txt" d' = Ok ((ex_inode "a.txt" true "e1") <| i_ID := 1 |>).
Proof.
  pose proof (UpsertInode_spec (ex_inode "a.txt" false "") ex_db ex_db_wf eq_refl) as H.
  destruct (UpsertInode _ _) as [res d'] eqn:E.
  destruct H as (id & -> & _ & H). destruct (GetInodeByPath _ ex_db) eqn:G;
    vm_compute in G; [|discriminate G].
  injection G as <-. destruct H as [-> H]. exists d'. split; [reflexivity|].
  exact H.
Defined.

Lemma DequeueWriteback_claims_witness :
  ∃ es d', DequeueWriteback 10 100 50 ex_queue = (Ok es, d') ∧ es ≠ [].
Proof.
  pose proof (DequeueWriteback_claims 10 100 50 ex_queue ex_queue_wf eq_refl
    ltac:(lia) ltac:(lia)) as H.
  destruct (DequeueWriteback _ _ _ _) as [res d'].
  destruct H as (es & -> & _ & _ & _ & _ & H & _). exists es, d'. split; [reflexivity|].
  apply H; [lia|]. exists (mkWritebackEntry 1 1 "upload" "a.txt" "{key" 40 0 "" "pending").
  split; [left|]. split; [reflexivity|]. simpl. lia.
Defined.

Lemma ex_json_law k : k ≠ "" → ex_mk k ≠ "" ∧ ex_un (ex_mk k) = Some k.
Proof. done. Qed.

Lemma EnqueueWriteback_spec_witness :
  ∃ d', EnqueueWriteback ex_mk ex_un 1 "upload" "a.txt" "" "key" 40 ex_db = (Ok tt, d').
Proof.
  destruct (EnqueueWriteback_spec ex_mk ex_un 1 "upload" "a.txt" "" "key" 40 ex_db
    ex_db_wf eq_refl eq_refl ex_json_law ltac:(discriminate)) as (e & d' & H & _).
  exists d'. exact H.
Defined.

Lemma RecordSyncFailure_get_witness :
  GetSyncFailure 1 "upload"
    (RecordSyncFailure (mkSyncFailure 1 "upload" false 1 90 "x") ex_db).2
  = Ok (Some (mkSyncFailure 1 "upload" false 1 90 "x")).
Proof.
  exact (RecordSyncFailure_get (mkSyncFailure 1 "upload" false 1 90 "x") ex_db 1 "upload"
    ex_db_wf eq_refl).
Defined.
