(* ===== verification/CacheStore.v ===== *)
(** * The encrypted blob store

    [internal/mount/cache/store.go].  A blob is a file of sealed records, one
    per chunk of [cacheChunkSize] plaintext bytes: a 4-byte big-endian
    ciphertext length, a 24-byte nonce, the ciphertext bound to the plaintext
    offset and the content hash.  The directory tree of the store is a map from
    (shard, name) to files; I/O failures enter as an explicit fault record. *)
From S2P Require Import Prelude GoLib ApiErrors Crypto.
Local Open Scope Z_scope.

(** The chunk size is a parameter so that small blobs can be evaluated;
    [code_chunk_size] is the constant of the program. *)
Class ChunkSize : Type := {
  cacheChunkSize : Z;
  cacheChunkSize_bound : 0 < cacheChunkSize ∧ cacheChunkSize + Z.of_nat Overhead < 2 ^ 32 }.
#[export] Instance code_chunk_size : ChunkSize | 10.
Proof. refine {| cacheChunkSize := 1024 * 1024 |}. by vm_compute. Defined.

Definition nonceSize : nat := 24.
Definition chunkCacheMax : nat := 8.

(** A store path: [dir/hash] for a short hash, [dir/hash[:2]/hash[2:]] else. *)
Inductive store_path : Type :=
| TopLevel (name : string)
| InShard (shard name : string).
#[export] Instance store_path_eq_dec : EqDecision store_path.
Proof. solve_decision. Defined.
#[export] Instance store_path_countable : Countable store_path.
Proof.
  refine (inj_countable'
    (λ p, match p with TopLevel n => inl n | InShard s n => inr (s, n) end)
    (λ q, match q with inl n => TopLevel n | inr (s, n) => InShard s n end) _).
  by intros [].
Defined.

Record file : Type := mkFile { content : bytes; modTime : Z }.

Definition chunkKey : Type := string * Z.

Record Store : Type := mkStore {
  cek : bytes;
  files : gmap store_path file;
  byte_count : Z;
  chunkCache : gmap chunkKey bytes;
  chunkOrder : list chunkKey }.
#[export] Instance Store_eta : Eta Store := λ s,
  mkStore (cek s) (files s) (byte_count s) (chunkCache s) (chunkOrder s).

Definition fsize (f : file) : Z := Z.of_nat (length (content f)).

Definition pathFor (hash : string) : store_path :=
  if decide (String.length hash < 4)%nat then TopLevel hash
  else InShard (String.substring 0 2 hash)
         (String.substring 2 (String.length hash - 2) hash).

(** [fsutil.IsTempName]: the prefix of [TempPattern] before its star, or the
    legacy prefix. *)
Definition IsTempName (name : string) : bool :=
  has_prefix ".pigcloud-tmp-" name || has_prefix ".tmp-" name.

(** ** Directory walks *)

(** The regular entries of the shard directories. *)
Definition shard_entries (fs : gmap store_path file) : list (string * string * file) :=
  omap (λ '(p, f), match p with InShard d n => Some (d, n, f) | TopLevel _ => None end)
    (map_to_list fs).

Definition add_entry (p : store_path) (f : file) (total : Z) : Z :=
  match p with
  | InShard _ n => if IsTempName n then total else fsize f + total
  | TopLevel _ => total
  end.

(** What a walk cannot see: the directory, or the entries of a shard that cannot
    be read and entries without information. *)
Record walk_faults : Type := mkWalkFaults { wf_root : bool; wf_skip : store_path → bool }.
Definition walk_all : walk_faults := mkWalkFaults false (λ _, false).
Definition walk_sys (w : walk_faults) (s : Store) : Z :=
  if wf_root w then 0 else map_fold add_entry 0 (filter (λ x, wf_skip w x.1 = false) (files s)).
Definition resync_sys (w : walk_faults) (s : Store) : Z * Store :=
  let total := walk_sys w s in (total, s <| byte_count := total |>).
Definition bytes_sys (w : walk_faults) (s : Store) : Z * Store :=
  if decide (0 ≤ byte_count s) then (byte_count s, s) else resync_sys w s.

(** The walk that sees everything, and the calls that make it. *)
Definition walkBytes (s : Store) : Z := map_fold add_entry 0 (files s).
Definition ResyncBytes (s : Store) : Z * Store := (walkBytes s, s <| byte_count := walkBytes s |>).
Definition Bytes (s : Store) : Z * Store :=
  if decide (0 ≤ byte_count s) then (byte_count s, s) else ResyncBytes s.

(** [NewStore] over an existing directory with a fresh random key. *)
Definition NewStore (key : bytes) (fs : gmap store_path file) : Store :=
  let s := mkStore key fs 0 ∅ [] in s <| byte_count := walk_sys walk_all s |>.

(** [Close] overwrites the key with zeros. *)
Definition Close (s : Store) : Store := s <| cek := (λ _, x00) <$> cek s |>.

Definition ListHashes (s : Store) : list string :=
  omap (λ '(d, n, _), if IsTempName n then None else Some (String.append d n))
    (shard_entries (files s)).

(** [GCTempFiles]: remove the temp files not modified after the cutoff. *)
Definition gc_victim (cutoff : Z) (p : store_path) (f : file) : bool :=
  match p with
  | InShard _ n => IsTempName n && negb (bool_decide (cutoff < modTime f))
  | TopLevel _ => false
  end.
(** The directory may be unreadable, and entries may be left: their shard cannot
    be read, they have no information, or [os.Remove] fails. *)
Record gc_faults : Type := mkGCFaults { gf_root : option error; gf_skip : store_path → bool }.
Definition gc_temps_sys (g : gc_faults) (minAge now : Z) (s : Store) : result error nat * Store :=
  let cutoff := now - minAge in
  let gone (x : store_path * file) := gc_victim cutoff x.1 x.2 && negb (gf_skip g x.1) in
  match gf_root g with
  | Some e => (if errors_Is FsErrNotExist e then Ok 0%nat else Err e, s)
  | None =>
      (Ok (size (filter (λ x, gone x = true) (files s))), s <| files := filter (λ x, gone x = false) (files s) |>)
  end.
(** The collection that meets no failure. *)
Definition GCTempFiles (minAge now : Z) (s : Store) : nat * Store :=
  let cutoff := now - minAge in
  (size (filter (λ '(p, f), gc_victim cutoff p f = true) (files s)),
   s <| files := filter (λ '(p, f), gc_victim cutoff p f = false) (files s) |>).

(** [CleanAll]: [os.RemoveAll] that fails leaves some of the files; the counter is
    reset all the same. *)
Record clean_faults : Type := mkCleanFaults { cf_error : option error; cf_left : store_path → bool }.
Definition CleanAll (c : clean_faults) (s : Store) : option error * Store :=
  match cf_error c with
  | None => (None, s <| files := ∅ |> <| byte_count := 0 |>)
  | Some e => (Some e, s <| files := filter (λ x, cf_left c x.1 = true) (files s) |> <| byte_count := 0 |>)
  end.

Definition Has (hash : string) (s : Store) : bool := isSome (files s !! pathFor hash).

Definition Size (hash : string) (s : Store) : result error Z :=
  match files s !! pathFor hash with
  | Some f => Ok (fsize f)
  | None => Err (ErrSentinel FsErrNotExist)
  end.

(** ** The decrypted-chunk cache *)

Definition chunkCacheGet (hash : string) (idx : Z) (s : Store) : option bytes :=
  chunkCache s !! (hash, idx).

(** The trimming loop of [chunkCachePut]: drop the oldest key while the order
    list is longer than [chunkCacheMax]. *)
Fixpoint chunk_trim (cache : gmap chunkKey bytes) (order : list chunkKey)
    : gmap chunkKey bytes * list chunkKey :=
  match order with
  | k :: rest =>
      if decide (chunkCacheMax < length order)%nat
      then chunk_trim (delete k cache) rest
      else (cache, order)
  | [] => (cache, order)
  end.

Definition chunkCachePut (hash : string) (idx : Z) (plain : bytes) (s : Store) : Store :=
  let k := (hash, idx) in
  let '(cache, order) :=
    match chunkCache s !! k with
    | Some _ => (chunkCache s, chunkOrder s)
    | None => chunk_trim (chunkCache s) (chunkOrder s ++ [k])
    end in
  s <| chunkCache := <[k := plain]> cache |> <| chunkOrder := order |>.

Definition chunkCacheDrop (hash : string) (s : Store) : Store :=
  s <| chunkCache := foldr delete (chunkCache s)
         (filter (λ k, k.1 = hash) (chunkOrder s)) |>
    <| chunkOrder := filter (λ k, ¬ k.1 = hash) (chunkOrder s) |>.

(** [Remove]: [os.Stat] may fail, and then the counter does not move; [os.Remove]
    may fail, and of an absent blob it is [fs.ErrNotExist]. *)
Record remove_faults : Type := mkRemoveFaults { rf_stat : bool; rf_remove : option error }.
Definition remove_ok : remove_faults := mkRemoveFaults true None.
Definition remove_sys (rf : remove_faults) (hash : string) (s : Store) : result error unit * Store :=
  if decide (hash = "") then (Ok tt, s) else
  let s := chunkCacheDrop hash s in
  match files s !! pathFor hash, rf_remove rf with
  | None, e => (Err (default (ErrSentinel FsErrNotExist) e), s)
  | Some _, Some e => (Err e, s)
  | Some f, None => (Ok tt, s <| files := delete (pathFor hash) (files s) |>
                              <| byte_count := byte_count s - (if rf_stat rf then fsize f else 0) |>)
  end.
(** The removal whose system calls succeed. *)
Definition Remove : string → Store → result error unit * Store := remove_sys remove_ok.

(** ** Sealing and opening *)

Section store.
Context `{A : AEAD, SH : Sha256, CS : ChunkSize}.

Definition chunk_nat : nat := Z.to_nat cacheChunkSize.
Definition fullRecordSize : Z := 4 + Z.of_nat nonceSize + cacheChunkSize + Z.of_nat Overhead.

Definition chunkAD (offset : Z) (hash : string) : bytes :=
  be_bytes 8 offset ++ String.list_byte_of_string hash.

Definition seal_record (key nonce : bytes) (hash : string) (offset : Z) (chunk : bytes) : bytes :=
  let ciphertext := aead_Seal key nonce chunk (chunkAD offset hash) in
  be_bytes 4 (u32 (Z.of_nat (length ciphertext))) ++ nonce ++ ciphertext.

(** The loop of [sealStream] over a reader with the remaining bytes [r]; the
    [i]-th call of [rand.Read] yields [nonces i]. *)
Fixpoint seal_loop (fuel : nat) (key : bytes) (nonces : nat → bytes) (hash : string)
    (i : nat) (total : Z) (r : bytes) : bytes * Z :=
  match fuel with
  | O => ([], total)
  | S fuel =>
      match read_full chunk_nat r with
      | ReadEOF => ([], total)
      | ReadShort buf =>
          (seal_record key (nonces i) hash total buf, total + Z.of_nat (length buf))
      | ReadOk buf rest =>
          let '(out, total') := seal_loop fuel key nonces hash (S i)
                                  (total + Z.of_nat (length buf)) rest in
          (seal_record key (nonces i) hash total buf ++ out, total')
      end
  end.

Definition sealStream (key : bytes) (nonces : nat → bytes) (hash : string) (r : bytes)
    : result error (bytes * Z) :=
  NewX key ≫= λ _, Ok (seal_loop (S (length r)) key nonces hash 0 0 r).

(** The failures of the system calls of [putSealed]; [None] is success. *)
Record put_faults : Type := mkPutFaults {
  pf_mkdir : option error; pf_create : option error; pf_seal : option error;
  pf_sync : option error; pf_stat : bool; pf_close : option error;
  pf_rename : option error }.
Definition no_faults : put_faults := mkPutFaults None None None None true None None.

(** [putSealed]: [tmp] is the name [os.CreateTemp] picks, [now] its time. *)
Definition putSealed (hash : string) (seal : result error bytes) (tmp : string) (now : Z)
    (pf : put_faults) (s : Store) : result error unit * Store :=
  let path := pathFor hash in
  match files s !! path with
  | Some _ => (Ok tt, s)
  | None =>
      match pf_mkdir pf with
      | Some e => (Err (ErrWrap "create shard dir" e), s)
      | None =>
      match pf_create pf with
      | Some e => (Err (ErrWrap "create temp cache file" e), s)
      | None =>
          let tmpPath := match path with InShard d _ => InShard d tmp | TopLevel _ => TopLevel tmp end in
          let opened := s <| files := <[tmpPath := mkFile [] now]> (files s) |> in
          let discard s' := s' <| files := delete tmpPath (files s') |> in
          match seal, pf_seal pf with
          | Err e, _ => (Err e, discard opened)
          | Ok _, Some e => (Err e, discard opened)
          | Ok out, None =>
              let filled := s <| files := <[tmpPath := mkFile out now]> (files s) |> in
              let written := if pf_stat pf then Z.of_nat (length out) else 0 in
              match pf_sync pf with
              | Some e => (Err (ErrWrap "sync cache file" e), discard filled)
              | None =>
              match pf_close pf with
              | Some e => (Err (ErrWrap "close cache file" e), discard filled)
              | None =>
              match pf_rename pf with
              | Some e => (Err (ErrWrap "commit cache file" e), discard filled)
              | None =>
                  (Ok tt, filled <| files := <[path := mkFile out now]>
                                      (delete tmpPath (files filled)) |>
                                 <| byte_count := byte_count s + written |>)
              end end end
          end
      end end
  end.

Definition Put (data : bytes) (nonces : nat → bytes) (tmp : string) (now : Z)
    (pf : put_faults) (s : Store) : result error string * Store :=
  let hash := sha256_hex data in
  match putSealed hash (sealStream (cek s) nonces hash data ≫= λ r, Ok r.1) tmp now pf s with
  | (Ok _, s') => (Ok hash, s')
  | (Err e, s') => (Err e, s')
  end.

(** [PutFile]: the source is read twice; [first] is what the hashing pass
    reads, [second] what the ingest pass reads. *)
Definition PutFile (first second : result error bytes) (nonces : nat → bytes) (tmp : string)
    (now : Z) (pf : put_faults) (s : Store) : result error string * Store :=
  match first with
  | Err e => (Err (ErrWrap "open source file" e), s)
  | Ok data =>
      let hash := sha256_hex data in
      let seal :=
        match second with
        | Err e => Err (ErrWrap "reopen source file" e)
        | Ok data' =>
            sealStream (cek s) nonces hash data' ≫= λ out,
            if decide (sha256_hex data' = hash) then Ok out.1
            else Err (ErrText "source file changed during ingest")
        end in
      match putSealed hash seal tmp now pf s with
      | (Ok _, s') => (Ok hash, s')
      | (Err e, s') => (Err e, s')
      end
  end.

(** One record of the loops of [Get] and [WriteTo]: [Ok None] at end of file. *)
Definition next_record (key : bytes) (hash : string) (offset : Z) (f : bytes)
    : result error (option (bytes * bytes)) :=
  match read_full 4 f with
  | ReadEOF => Ok None
  | ReadShort _ => Err (ErrWrap "read chunk length" (ErrSentinel IoErrUnexpectedEOF))
  | ReadOk lenBuf f =>
      match read_full nonceSize f with
      | ReadEOF => Err (ErrWrap "read nonce" (ErrSentinel IoEOF))
      | ReadShort _ => Err (ErrWrap "read nonce" (ErrSentinel IoErrUnexpectedEOF))
      | ReadOk nonceBuf f =>
          match read_full (Z.to_nat (be_Z lenBuf)) f with
          | ReadEOF => Err (ErrWrap "read ciphertext" (ErrSentinel IoEOF))
          | ReadShort _ => Err (ErrWrap "read ciphertext" (ErrSentinel IoErrUnexpectedEOF))
          | ReadOk ciphertext f =>
              match aead_Open key nonceBuf ciphertext (chunkAD offset hash) with
              | None => Err (ErrWrap "decrypt chunk" (ErrText "message authentication failed"))
              | Some plaintext => Ok (Some (plaintext, f))
              end
          end
      end
  end.

Definition out_of_fuel : error := ErrText "out of fuel".

Fixpoint get_loop (fuel : nat) (key : bytes) (hash : string) (offset : Z) (f : bytes)
    : result error bytes :=
  match fuel with
  | O => Err out_of_fuel
  | S fuel =>
      next_record key hash offset f ≫= λ r,
      match r with
      | None => Ok []
      | Some (plaintext, f) =>
          rest ← get_loop fuel key hash (offset + Z.of_nat (length plaintext)) f;
          Ok (plaintext ++ rest)
      end
  end.

Definition open_blob (hash : string) (s : Store) : result error bytes :=
  match files s !! pathFor hash with
  | Some f => Ok (content f)
  | None => Err (ErrWrap "open cache file" (ErrSentinel FsErrNotExist))
  end.

Definition Get (hash : string) (s : Store) : result error bytes :=
  f ← open_blob hash s;
  _ ← NewX (cek s);
  get_loop (S (length f)) (cek s) hash 0 f.

(** A writer that accepts [room] more bytes and then fails. *)
Definition write_bytes (room : nat) (p : bytes) : nat * bool :=
  if decide (length p ≤ room)%nat then (length p, true) else (room, false).

Fixpoint write_loop (fuel : nat) (key : bytes) (hash : string) (offset : Z) (f : bytes)
    (room : nat) (sink : bytes) (written : Z) : Z * option error * bytes :=
  match fuel with
  | O => (written, Some out_of_fuel, sink)
  | S fuel =>
      match next_record key hash offset f with
      | Err e => (written, Some e, sink)
      | Ok None => (written, None, sink)
      | Ok (Some (plaintext, f)) =>
          let '(n, ok) := write_bytes room plaintext in
          let sink := sink ++ take n plaintext in
          let written := written + Z.of_nat n in
          if ok then write_loop fuel key hash (offset + Z.of_nat (length plaintext)) f
                       (room - n)%nat sink written
          else (written, Some (ErrWrap "write chunk" (ErrText "short write")), sink)
      end
  end.

Definition WriteTo (hash : string) (room : nat) (s : Store) : Z * option error * bytes :=
  match open_blob hash s with
  | Err e => (0, Some e, [])
  | Ok f =>
      match NewX (cek s) with
      | Err e => (0, Some e, [])
      | Ok _ => write_loop (S (length f)) (cek s) hash 0 f room [] 0
      end
  end.

(** [readChunkAt]: seek to the record of the chunk and open it. *)
Definition readChunkAt (f : bytes) (chunkIdx : Z) (hash : string) (s : Store)
    : result error bytes :=
  _ ← NewX (cek s);
  let f := drop (Z.to_nat (chunkIdx * fullRecordSize)) f in
  match read_full 4 f with
  | ReadEOF => Err (ErrSentinel ErrChunkEOF)
  | ReadShort _ => Err (ErrText "truncated chunk length prefix")
  | ReadOk _ _ =>
      r ← next_record (cek s) hash (chunkIdx * cacheChunkSize) f;
      match r with
      | Some (plain, _) => Ok plain
      | None => Err (ErrSentinel ErrChunkEOF)
      end
  end.

(** The loop of [ReadAt]; the result is appended to [acc]. *)
Fixpoint read_loop (fuel : nat) (hash : string) (off rangeEnd chunkIdx : Z) (acc : bytes)
    (s : Store) : result error bytes * Store :=
  match fuel with
  | O => (Err out_of_fuel, s)
  | S fuel =>
      if decide (chunkIdx * cacheChunkSize < rangeEnd) then
        let chunkStart := chunkIdx * cacheChunkSize in
        let got : option (result error bytes) * Store :=
          match chunkCacheGet hash chunkIdx s with
          | Some plain => (Some (Ok plain), s)
          | None =>
              match open_blob hash s ≫= λ f, readChunkAt f chunkIdx hash s with
              | Ok plain => (Some (Ok plain), chunkCachePut hash chunkIdx plain s)
              | Err e => if errors_Is ErrChunkEOF e then (None, s) else (Some (Err e), s)
              end
          end in
        match got with
        | (None, s) => (Ok acc, s)
        | (Some (Err e), s) => (Err e, s)
        | (Some (Ok plain), s) =>
            if decide (length plain = 0%nat) then (Ok acc, s) else
            let sliceStart := if decide (chunkStart < off) then off - chunkStart else 0 in
            let sliceEnd := Z.min (rangeEnd - chunkStart) (Z.of_nat (length plain)) in
            let acc :=
              if decide (sliceStart < sliceEnd)
              then acc ++ take (Z.to_nat (sliceEnd - sliceStart)) (drop (Z.to_nat sliceStart) plain)
              else acc in
            if decide (Z.of_nat (length plain) < cacheChunkSize) then (Ok acc, s)
            else read_loop fuel hash off rangeEnd (chunkIdx + 1) acc s
        end
      else (Ok acc, s)
  end.

Definition ReadAt (hash : string) (off size : Z) (s : Store) : result error bytes * Store :=
  if decide (size ≤ 0 ∨ off < 0) then (Ok [], s) else
  let rangeEnd := wrap64 (off + size) in
  let startChunk := off `quot` cacheChunkSize in
  read_loop (S (Z.to_nat (rangeEnd - startChunk * cacheChunkSize)))
    hash off rangeEnd startChunk [] s.
End store.


(** ** The record stream *)

Section stream.
Context `{AL : !AEADLaws A, SH : Sha256, CS : ChunkSize}.
Context (key : bytes) (nonces : nat → bytes) (hash : string).
Context (Hnonces : ∀ i, length (nonces i) = nonceSize).

Lemma chunk_nat_pos : (0 < chunk_nat)%nat.
Proof using Type. unfold chunk_nat. pose proof cacheChunkSize_bound. lia. Qed.
Lemma chunk_nat_Z : Z.of_nat chunk_nat = cacheChunkSize.
Proof using Type. unfold chunk_nat. pose proof cacheChunkSize_bound. lia. Qed.

Lemma seal_loop_fuel fuel1 fuel2 i total r :
  (length r < fuel1)%nat → (length r < fuel2)%nat →
  seal_loop fuel1 key nonces hash i total r = seal_loop fuel2 key nonces hash i total r.
Proof using Type.
  revert fuel2 i total r. induction fuel1 as [|fuel1 IH]; intros [|fuel2] i total r ??;
    try lia. simpl.
  destruct (read_full _ _) as [buf rest| |] eqn:E; try done.
  apply read_full_inv in E as [-> Hl]. rewrite length_app in *.
  pose proof chunk_nat_pos. by rewrite (IH fuel2) by lia.
Qed.

(** The file contents written for the remaining bytes [r]. *)
Definition sealed (i : nat) (off : Z) (r : bytes) : bytes :=
  (seal_loop (S (length r)) key nonces hash i off r).1.

Lemma sealed_nil i off : sealed i off [] = [].
Proof using Type.
  unfold sealed. simpl. by rewrite read_full_nil by apply chunk_nat_pos.
Qed.

Lemma sealed_last i off r :
  (0 < length r < chunk_nat)%nat →
  sealed i off r = seal_record key (nonces i) hash off r.
Proof using Type.
  intros. unfold sealed. simpl. unfold read_full. rewrite decide_False by lia.
  destruct r; simpl in *; [lia|done].
Qed.

Lemma sealed_full i off r :
  (chunk_nat ≤ length r)%nat →
  sealed i off r = seal_record key (nonces i) hash off (take chunk_nat r) ++
                   sealed (S i) (off + cacheChunkSize) (drop chunk_nat r).
Proof using Type.
  intros Hl. unfold sealed at 1. cbn [seal_loop]. unfold read_full. rewrite decide_True by lia.
  rewrite length_take_le, chunk_nat_Z by lia.
  pose proof chunk_nat_pos.
  rewrite (seal_loop_fuel (length r) (S (length (drop chunk_nat r)))) by (rewrite length_drop; lia).
  unfold sealed. by destruct (seal_loop _ _ _ _ _ _ _).
Qed.

Lemma length_seal_record n off c :
  length n = nonceSize →
  length (seal_record key n hash off c) = (4 + nonceSize + length c + Overhead)%nat.
Proof using AL.
  intros Hn. unfold seal_record.
  rewrite !length_app, length_be_bytes, aead_Seal_length. lia.
Qed.

Lemma next_record_sealed i off c rest :
  (length c ≤ chunk_nat)%nat →
  next_record key hash off (seal_record key (nonces i) hash off c ++ rest)
  = Ok (Some (c, rest)).
Proof using AL Hnonces.
  intros Hc. unfold next_record, seal_record. rewrite <- !app_assoc.
  rewrite read_full_app by apply length_be_bytes.
  rewrite read_full_app by done.
  assert (0 ≤ Z.of_nat (length (aead_Seal key (nonces i) c (chunkAD off hash))) < 2 ^ 32).
  { rewrite aead_Seal_length. pose proof cacheChunkSize_bound. pose proof chunk_nat_Z. lia. }
  rewrite be_Z_be_bytes_id by (rewrite u32_id by lia; lia).
  rewrite u32_id, Nat2Z.id by lia.
  rewrite read_full_app by done. by rewrite aead_Open_Seal.
Qed.

Lemma next_record_nil off : next_record key hash off [] = Ok None.
Proof using Type. done. Qed.

Lemma get_loop_sealed fuel i off r :
  (length (sealed i off r) < fuel)%nat →
  get_loop fuel key hash off (sealed i off r) = Ok r.
Proof using AL Hnonces.
  pose proof chunk_nat_pos as Hpos.
  revert i off r. induction fuel as [|fuel IH]; intros i off r Hf; [lia|].
  destruct (decide (length r = 0%nat)) as [->%nil_length_inv|Hne].
  { rewrite sealed_nil. done. }
  destruct (decide (chunk_nat ≤ length r)%nat) as [Hl|Hl].
  - rewrite sealed_full in * by done. cbn [get_loop].
    rewrite next_record_sealed by (rewrite length_take; lia). simpl.
    rewrite length_take_le, chunk_nat_Z by lia.
    rewrite IH by (rewrite length_app, length_seal_record in Hf by done; lia).
    simpl. by rewrite take_drop.
  - rewrite sealed_last in * by lia.
    rewrite <- (app_nil_r (seal_record _ _ _ _ _)). cbn [get_loop].
    rewrite next_record_sealed by lia. simpl.
    destruct fuel; [rewrite length_seal_record in Hf by done; lia|]. simpl.
    by rewrite app_nil_r.
Qed.

(** Random access: skipping whole records skips whole chunks. *)
Lemma sealed_drop j i off r :
  (j * chunk_nat ≤ length r)%nat →
  drop (j * Z.to_nat fullRecordSize) (sealed i off r)
  = sealed (i + j) (off + Z.of_nat j * cacheChunkSize) (drop (j * chunk_nat) r).
Proof using AL Hnonces.
  revert i off r. induction j as [|j IH]; intros i off r Hl.
  { simpl. by rewrite !drop_0, Nat.add_0_r, Z.mul_0_l, Z.add_0_r. }
  rewrite sealed_full by lia. cbn [Nat.mul].
  assert (length (seal_record key (nonces i) hash off (take chunk_nat r))
          = Z.to_nat fullRecordSize) as Hrec.
  { rewrite length_seal_record, length_take_le by (done || lia).
    unfold fullRecordSize. pose proof chunk_nat_Z. lia. }
  rewrite drop_app_add' by done.
  rewrite IH by (rewrite length_drop; lia).
  rewrite drop_drop. f_equal; lia.
Qed.

Lemma sealed_head i off r :
  r ≠ [] → ∃ rest,
  sealed i off r = seal_record key (nonces i) hash off (take chunk_nat r) ++ rest.
Proof using Type.
  intros Hr. destruct (decide (chunk_nat ≤ length r)%nat) as [Hl|Hl].
  - rewrite sealed_full by done. eauto.
  - rewrite sealed_last by (destruct r; simpl in *; [done|lia]).
    rewrite take_ge by lia. exists []. by rewrite app_nil_r.
Qed.
End stream.

(** ** Slices *)

Definition slice (a b : Z) (l : bytes) : bytes := take (Z.to_nat (b - a)) (drop (Z.to_nat a) l).

Lemma slice_split a m b l :
  0 ≤ a ≤ m → m ≤ b → slice a b l = slice a m l ++ slice m b l.
Proof.
  intros. unfold slice.
  replace (Z.to_nat (b - a)) with (Z.to_nat (m - a) + Z.to_nat (b - m))%nat by lia.
  rewrite <- take_take_drop, drop_drop.
  by replace (Z.to_nat a + Z.to_nat (m - a))%nat with (Z.to_nat m) by lia.
Qed.

Lemma slice_beyond a b l : Z.of_nat (length l) ≤ a → slice a b l = [].
Proof. intros. unfold slice. rewrite drop_ge by lia. by rewrite take_nil. Qed.

Lemma slice_empty a b l : b ≤ a → slice a b l = [].
Proof. intros. unfold slice. by replace (Z.to_nat (b - a)) with 0%nat by lia. Qed.

Lemma slice_clip a b l :
  0 ≤ a → Z.of_nat (length l) ≤ b → slice a b l = slice a (Z.of_nat (length l)) l.
Proof. intros. unfold slice. rewrite !take_ge; try rewrite length_drop; lia || done. Qed.

Lemma take_drop_take (k m n c : nat) (l : bytes) :
  (k + m ≤ c)%nat → take m (drop k (take c (drop n l))) = take m (drop (n + k) l).
Proof.
  intros. rewrite skipn_firstn_comm, take_take, drop_drop. f_equal. lia.
Qed.

(** ** Blobs of a store *)

Section blobs.
Context `{AL : !AEADLaws A, SH : Sha256, CS : ChunkSize}.

(** [data] is stored under [hash], sealed with the key of the store. *)
Definition blob (s : Store) (hash : string) (data : bytes) : Prop :=
  ∃ f nonces, files s !! pathFor hash = Some f ∧
    (∀ i, length (nonces i) = nonceSize) ∧
    content f = sealed (cek s) nonces hash 0 0 data.

Lemma Get_blob s hash data :
  length (cek s) = KeySize → blob s hash data → Get hash s = Ok data.
Proof using AL.
  intros Hk (f & nonces & Hf & Hn & Hc). unfold Get, open_blob, NewX.
  rewrite Hf, bind_Ok, decide_True, bind_Ok, Hc by done.
  apply get_loop_sealed; [done|lia].
Qed.

Definition chunk_of (data : bytes) (idx : Z) : bytes :=
  take chunk_nat (drop (Z.to_nat idx * chunk_nat) data).

Lemma length_chunk_of data idx :
  0 ≤ idx → Z.of_nat (length (chunk_of data idx)) =
  Z.max 0 (Z.min cacheChunkSize (Z.of_nat (length data) - idx * cacheChunkSize)).
Proof using Type.
  intros. unfold chunk_of. rewrite length_take, length_drop.
  pose proof chunk_nat_Z. pose proof chunk_nat_pos. nia.
Qed.

Lemma length_sealed_le k key nonces hash i off r :
  (∀ i, length (nonces i) = nonceSize) → (length r ≤ k * chunk_nat)%nat →
  (length (sealed key nonces hash i off r) ≤ k * Z.to_nat fullRecordSize)%nat.
Proof using AL.
  intros Hn. pose proof chunk_nat_Z as Hz. pose proof chunk_nat_pos.
  assert (Z.to_nat fullRecordSize = (4 + nonceSize + chunk_nat + Overhead)%nat) as Hfull
    by (unfold fullRecordSize; lia).
  revert i off r. induction k as [|k IH]; intros i off r Hl.
  { destruct r; simpl in *; [by rewrite sealed_nil|lia]. }
  destruct (decide (chunk_nat ≤ length r)%nat).
  - rewrite sealed_full by done. rewrite length_app, length_seal_record by done.
    specialize (IH (S i) (off + cacheChunkSize) (drop chunk_nat r)).
    rewrite length_drop in IH. rewrite length_take_le by lia. lia.
  - destruct (decide (length r = 0%nat)) as [->%nil_length_inv|];
      [rewrite sealed_nil; simpl; lia|].
    rewrite sealed_last, length_seal_record by (done || lia). lia.
Qed.

Lemma readChunkAt_blob s f nonces hash data idx :
  length (cek s) = KeySize → (∀ i, length (nonces i) = nonceSize) →
  f = sealed (cek s) nonces hash 0 0 data → 0 ≤ idx →
  readChunkAt f idx hash s =
  if decide (idx * cacheChunkSize < Z.of_nat (length data))
  then Ok (chunk_of data idx) else Err (ErrSentinel ErrChunkEOF).
Proof using AL.
  intros Hk Hn -> Hi. unfold readChunkAt, NewX. rewrite decide_True by done. simpl.
  pose proof chunk_nat_Z as Hz. pose proof chunk_nat_pos as Hp.
  assert (Z.to_nat (idx * fullRecordSize) = (Z.to_nat idx * Z.to_nat fullRecordSize)%nat)
    as -> by (unfold fullRecordSize; lia).
  case_decide as Hlt.
  - rewrite sealed_drop by (done || nia).
    destruct (sealed_head (cek s) nonces hash (0 + Z.to_nat idx)
      (0 + Z.of_nat (Z.to_nat idx) * cacheChunkSize) (drop (Z.to_nat idx * chunk_nat) data))
      as [rest ->].
    { intros Hd%(f_equal length). rewrite length_drop in Hd. simpl in Hd. nia. }
    replace (0 + Z.of_nat (Z.to_nat idx) * cacheChunkSize) with (idx * cacheChunkSize) by lia.
    rewrite next_record_sealed by (done || rewrite length_take; lia).
    unfold seal_record. rewrite <- !app_assoc, read_full_app by apply length_be_bytes. done.
  - rewrite drop_ge; [by rewrite read_full_nil by lia|].
    apply length_sealed_le; [done|]. nia.
Qed.

(** Every cached chunk of [hash] is the chunk of [data] at its index. *)
Definition cache_coherent (s : Store) (hash : string) (data : bytes) : Prop :=
  ∀ idx p, chunkCache s !! (hash, idx) = Some p →
    0 ≤ idx ∧ idx * cacheChunkSize < Z.of_nat (length data) ∧ p = chunk_of data idx.

Lemma chunk_trim_subseteq c o : (chunk_trim c o).1 ⊆ c.
Proof using Type.
  revert c. induction o as [|k o IH]; intros c; simpl; [done|].
  case_decide; [|done]. etrans; [apply IH|]. apply delete_subseteq.
Qed.

Lemma chunkCachePut_coherent s hash idx data :
  cache_coherent s hash data → 0 ≤ idx → idx * cacheChunkSize < Z.of_nat (length data) →
  cache_coherent (chunkCachePut hash idx (chunk_of data idx) s) hash data.
Proof using Type.
  intros Hc Hi Hl idx' p. unfold chunkCachePut.
  assert (∀ c : gmap chunkKey bytes, c ⊆ chunkCache s →
    <[(hash, idx):=chunk_of data idx]> c !! (hash, idx') = Some p →
    0 ≤ idx' ∧ idx' * cacheChunkSize < Z.of_nat (length data) ∧ p = chunk_of data idx') as Hins.
  { intros c Hsub. destruct (decide (idx' = idx)) as [->|].
    - rewrite lookup_insert_eq. intros; simplify_eq. done.
    - rewrite lookup_insert_ne by congruence. intros Hp. apply Hc.
      by eapply lookup_weaken. }
  destruct (chunkCache s !! (hash, idx)); simpl; [by apply Hins|].
  pose proof (chunk_trim_subseteq (chunkCache s) (chunkOrder s ++ [(hash, idx)])) as Hs.
  destruct (chunk_trim _ _). by apply Hins.
Qed.

Lemma chunkCachePut_files hash idx p s :
  files (chunkCachePut hash idx p s) = files s ∧ cek (chunkCachePut hash idx p s) = cek s.
Proof using Type. unfold chunkCachePut. by crush_match. Qed.

(** The slice one loop iteration appends. *)
Lemma chunk_slice data idx off rangeEnd :
  0 ≤ idx → 0 ≤ off < (idx + 1) * cacheChunkSize → idx * cacheChunkSize < rangeEnd →
  let plain := chunk_of data idx in
  let start := if decide (idx * cacheChunkSize < off) then off - idx * cacheChunkSize else 0 in
  let stop := Z.min (rangeEnd - idx * cacheChunkSize) (Z.of_nat (length plain)) in
  (if decide (start < stop) then take (Z.to_nat (stop - start)) (drop (Z.to_nat start) plain)
   else []) =
  slice (Z.max off (idx * cacheChunkSize)) (Z.min rangeEnd ((idx + 1) * cacheChunkSize)) data.
Proof using Type.
  intros Hi Ho Hr plain start stop.
  pose proof chunk_nat_Z as Hz. pose proof chunk_nat_pos as Hp.
  pose proof (length_chunk_of data idx Hi) as Hlen. fold plain in Hlen.
  set (cs := cacheChunkSize) in *.
  assert (start = Z.max off (idx * cs) - idx * cs) as Hstart
    by (unfold start; case_decide; lia).
  case_decide as Hss.
  - unfold plain, chunk_of, slice. rewrite take_drop_take by lia.
    replace (Z.to_nat idx * chunk_nat + Z.to_nat start)%nat
      with (Z.to_nat (Z.max off (idx * cs))) by nia.
    destruct (decide (stop = rangeEnd - idx * cs ∨ stop = cs)) as [Hstop|Hstop].
    + f_equal. lia.
    + rewrite !take_ge; [done|rewrite length_drop; nia..].
  - destruct (decide (Z.of_nat (length data) ≤ Z.max off (idx * cs))).
    + by rewrite slice_beyond.
    + rewrite slice_empty; [done|]. lia.
Qed.

Lemma errors_Is_sentinel s : errors_Is s (ErrSentinel s) = true.
Proof using Type. unfold errors_Is. simpl. by rewrite decide_True. Qed.

Lemma read_loop_spec fuel hash off rangeEnd idx acc s data :
  length (cek s) = KeySize → blob s hash data → cache_coherent s hash data →
  0 ≤ idx → 0 ≤ off < (idx + 1) * cacheChunkSize →
  rangeEnd - idx * cacheChunkSize < Z.of_nat fuel → (0 < fuel)%nat →
  ∃ s', read_loop fuel hash off rangeEnd idx acc s =
    (Ok (acc ++ slice (Z.max off (idx * cacheChunkSize)) rangeEnd data), s') ∧
    cache_coherent s' hash data ∧ files s' = files s ∧ cek s' = cek s.
Proof using AL.
  pose proof (proj1 cacheChunkSize_bound) as Hcs.
  revert idx acc s. induction fuel as [|fuel IH]; intros idx acc s Hk Hb Hco Hi Ho Hf Hf0; [lia|].
  cbn [read_loop]. case_decide as Hlt.
  2: { exists s. split; [|done]. do 2 f_equal. rewrite slice_empty by lia. by rewrite app_nil_r. }
  pose proof (length_chunk_of data idx Hi) as Hlen.
  pose proof (chunk_slice data idx off rangeEnd Hi Ho Hlt) as Hslice. simpl in Hslice.
  destruct (decide (idx * cacheChunkSize < Z.of_nat (length data))) as [Hin|Hout]; last first.
  { (* past the end of the blob *)
    assert (chunkCacheGet hash idx s = None) as ->.
    { unfold chunkCacheGet. destruct (chunkCache s !! (hash, idx)) eqn:E; [|done].
      apply Hco in E. lia. }
    destruct Hb as (f & nonces & Hfile & Hn & Hc). unfold open_blob. rewrite Hfile. simpl.
    rewrite (readChunkAt_blob s _ nonces hash data idx) by done.
    rewrite decide_False by done. rewrite errors_Is_sentinel.
    exists s. split; [|done]. do 2 f_equal. rewrite slice_beyond by lia. by rewrite app_nil_r. }
  (* the chunk read, from the cache or the file, and the store after it *)
  match goal with |- context [match chunkCacheGet hash idx s with Some _ => _ | None => ?X end] =>
    set (miss := X) end.
  assert (∃ s1, match chunkCacheGet hash idx s with
                | Some plain => (Some (Ok plain), s) | None => miss end
                = (Some (Ok (chunk_of data idx)), s1) ∧
          cache_coherent s1 hash data ∧ files s1 = files s ∧ cek s1 = cek s)
    as (s1 & -> & Hco1 & Hfs1 & Hk1).
  { unfold chunkCacheGet. destruct (chunkCache s !! (hash, idx)) as [p|] eqn:E.
    - apply Hco in E as (_ & _ & ->). by exists s.
    - unfold miss. destruct Hb as (f & nonces & Hfile & Hn & Hc).
      unfold open_blob. rewrite Hfile. simpl.
      rewrite (readChunkAt_blob s _ nonces hash data idx) by done. rewrite decide_True by done.
      eexists. split; [reflexivity|]. split; [by apply chunkCachePut_coherent|].
      apply chunkCachePut_files. }
  rewrite decide_False by lia.
  match goal with |- context [if decide (?a < ?b) then acc ++ ?t else acc] =>
    assert ((if decide (a < b) then acc ++ t else acc) =
            acc ++ (if decide (a < b) then t else [])) as ->
      by (case_decide; by rewrite ?app_nil_r) end.
  rewrite Hslice. clear Hslice. case_decide as Hshort.
  - exists s1. split; [|done]. do 3 f_equal.
    destruct (decide (rangeEnd ≤ Z.of_nat (length data))).
    + by rewrite (Z.min_l rangeEnd) by lia.
    + rewrite (slice_clip _ (Z.min _ _)) by lia.
      by rewrite (slice_clip _ rangeEnd) by lia.
  - destruct (IH (idx + 1) (acc ++ slice (Z.max off (idx * cacheChunkSize))
      (Z.min rangeEnd ((idx + 1) * cacheChunkSize)) data) s1) as (s' & -> & Hco' & Hfs' & Hk');
      try done; try lia.
    + by rewrite Hk1.
    + unfold blob. by rewrite Hfs1, Hk1.
    + exists s'. split; [|by rewrite Hfs', Hk'].
      do 2 f_equal. rewrite <- app_assoc. f_equal.
      rewrite (Z.max_r off ((idx + 1) * _)) by lia.
      destruct (decide (rangeEnd ≤ (idx + 1) * cacheChunkSize)).
      * rewrite Z.min_l by lia. by rewrite (slice_empty ((idx + 1) * cacheChunkSize)), app_nil_r by lia.
      * rewrite Z.min_r by lia. symmetry. apply slice_split; lia.
Qed.

(** Random access agrees with the whole blob.  For a blob stored under
    [hash], a coherent chunk cache and any window that does not overflow
    [int64], [ReadAt] returns exactly the bytes of the window that exist (none
    past the end), whether its chunks come from the cache or are sought in the
    file; it changes no file, and the cache stays coherent.  The loop never
    runs out of the iterations the window needs. *)
Theorem ReadAt_slice s hash data off size :
  length (cek s) = KeySize → blob s hash data → cache_coherent s hash data →
  0 ≤ off → 0 ≤ size → off + size < 2 ^ 63 →
  ∃ s', ReadAt hash off size s = (Ok (slice off (off + size) data), s') ∧
    cache_coherent s' hash data ∧ files s' = files s ∧ cek s' = cek s.
Proof using AL.
  intros Hk Hb Hc Ho Hs Hov. unfold ReadAt. case_decide as Hz.
  { exists s. by rewrite slice_empty by lia. }
  pose proof (proj1 cacheChunkSize_bound) as Hcs.
  rewrite wrap64_id by (unfold int64_ok; lia). rewrite Z.quot_div_nonneg by lia.
  assert (cacheChunkSize ≠ 0) as Hne by lia.
  pose proof (Z.div_mod off cacheChunkSize Hne) as Hdm.
  pose proof (Z.mod_pos_bound off cacheChunkSize Hcs).
  assert (0 ≤ off / cacheChunkSize) by (apply Z.div_pos; lia).
  destruct (read_loop_spec (S (Z.to_nat (off + size - off / cacheChunkSize * cacheChunkSize)))
    hash off (off + size) (off / cacheChunkSize) [] s data) as (s' & -> & ?); try done; try lia.
  exists s'. simpl. by rewrite Z.max_l by lia.
Qed.

(** ** Streaming out *)

Lemma write_loop_get fuel hash off f room sink written data key :
  get_loop fuel key hash off f = Ok data → (length data ≤ room)%nat →
  write_loop fuel key hash off f room sink written
  = (written + Z.of_nat (length data), None, sink ++ data).
Proof using Type.
  revert off f room sink written data.
  induction fuel as [|fuel IH]; intros off f room sink written data; [done|].
  cbn [get_loop write_loop]. destruct (next_record _ _ _ _) as [[[p f']|]|e]; [| |done].
  - rewrite bind_Ok. intros (rest & Hrest & [= <-])%bind_Ok_inv Hroom.
    rewrite length_app in Hroom. unfold write_bytes. rewrite decide_True by lia.
    rewrite take_ge by lia. rewrite (IH _ _ _ _ _ rest) by (done || lia).
    rewrite length_app, <- app_assoc. do 2 f_equal. lia.
  - rewrite bind_Ok. intros [= <-] _. by rewrite app_nil_r, Z.add_0_r.
Qed.

Lemma write_loop_inv fuel key hash off f room sink written n data :
  write_loop fuel key hash off f room sink written = (n, None, data) →
  ∃ out, get_loop fuel key hash off f = Ok out ∧ data = sink ++ out.
Proof using Type.
  revert off f room sink written. induction fuel as [|fuel IH]; intros off f room sink written; [done|].
  cbn [get_loop write_loop]. destruct (next_record _ _ _ _) as [[[p f']|]|e]; [| |done].
  - unfold write_bytes. case_decide; [|done]. rewrite take_ge by lia. intros (out & Hg & ->)%IH.
    exists (p ++ out). by rewrite bind_Ok, Hg, bind_Ok, <- app_assoc.
  - intros [= <- <-]. exists []. by rewrite bind_Ok, app_nil_r.
Qed.

(** What is streamed without an error is the whole blob. *)
Lemma WriteTo_inv s hash data room n :
  WriteTo hash room s = (n, None, data) → Get hash s = Ok data.
Proof using Type.
  unfold Get, WriteTo. destruct (open_blob hash s) as [f|]; [|done]. rewrite bind_Ok.
  destruct (NewX (cek s)); [|done]. rewrite bind_Ok. by intros (out & -> & ->)%write_loop_inv.
Qed.

(** Streaming a blob with [WriteTo] to a writer with enough room delivers
    the bytes [Get] returns, and reports their number. *)
Theorem WriteTo_Get s hash data room :
  Get hash s = Ok data → (length data ≤ room)%nat →
  WriteTo hash room s = (Z.of_nat (length data), None, data).
Proof using Type.
  unfold Get, WriteTo. intros (f & -> & (u & -> & Hg)%bind_Ok_inv)%bind_Ok_inv Hroom.
  by apply write_loop_get with (sink := []) (written := 0) (room := room) in Hg.
Qed.

(** ** Paths *)

Definition proper_hash (h : string) : Prop :=
  (4 ≤ String.length h)%nat ∧ contains_char "."%char h = false.

Lemma substring_all s : String.substring 0 (String.length s) s = s.
Proof using Type. induction s as [|a s IH]; simpl; [done|by rewrite IH]. Qed.

Lemma pathFor_proper h :
  proper_hash h → ∃ a b t, h = String.String a (String.String b t) ∧
    pathFor h = InShard (String.String a (String.String b "")) t ∧
    IsTempName t = false.
Proof using Type.
  intros [Hl Hd]. destruct h as [|a [|b t]]; simpl in Hl; try lia.
  exists a, b, t. split; [done|]. unfold pathFor. rewrite decide_False by (simpl; lia).
  simpl. split.
  - rewrite Nat.sub_0_r, substring_all. by destruct t.
  - simpl in Hd. rewrite !orb_false_iff in Hd. destruct Hd as (_ & _ & Hd).
    destruct t as [|c t]; [done|]. simpl in Hd. rewrite orb_false_iff in Hd.
    destruct Hd as [Hc _]. apply bool_decide_eq_false in Hc.
    unfold IsTempName, has_prefix. cbn [String.prefix].
    destruct (ascii_dec "." c); [congruence|done].
Qed.

Lemma pathFor_inj h1 h2 :
  proper_hash h1 → proper_hash h2 → pathFor h1 = pathFor h2 → h1 = h2.
Proof using Type.
  intros (a1 & b1 & t1 & -> & -> & _)%pathFor_proper
         (a2 & b2 & t2 & -> & -> & _)%pathFor_proper. naive_solver.
Qed.

(** The path of the temp file [putSealed] creates next to the blob. *)
Definition temp_path (hash tmp : string) : store_path :=
  match pathFor hash with InShard d _ => InShard d tmp | TopLevel _ => TopLevel tmp end.

Lemma temp_path_ne hash h tmp :
  proper_hash hash → proper_hash h → IsTempName tmp = true → pathFor h ≠ temp_path hash tmp.
Proof using Type.
  unfold temp_path. intros (a1 & b1 & t1 & -> & -> & Ht1)%pathFor_proper
    (a2 & b2 & t2 & -> & -> & Ht2)%pathFor_proper Htmp. congruence.
Qed.

(** ** Publication *)

(** [putSealed] either leaves the directory and the counter as they were, or
    adds exactly the finished blob and its size; an existing blob is kept. *)
Lemma putSealed_cases hash seal tmp now pf s :
  proper_hash hash → IsTempName tmp = true → files s !! temp_path hash tmp = None →
  let '(res, s') := putSealed hash seal tmp now pf s in
  cek s' = cek s ∧ chunkCache s' = chunkCache s ∧ chunkOrder s' = chunkOrder s ∧
  match res with
  | Err e => files s' = files s ∧ byte_count s' = byte_count s
  | Ok _ =>
      (is_Some (files s !! pathFor hash) ∧ s' = s) ∨
      (files s !! pathFor hash = None ∧ ∃ out, seal = Ok out ∧
       files s' = <[pathFor hash := mkFile out now]> (files s) ∧
       byte_count s' = byte_count s + (if pf_stat pf then Z.of_nat (length out) else 0))
  end.
Proof using Type.
  intros Hh Htmp Hfresh. pose proof (temp_path_ne hash hash tmp Hh Hh Htmp) as Hne.
  unfold putSealed. fold (temp_path hash tmp).
  assert (∀ x, delete (temp_path hash tmp) (<[temp_path hash tmp:=x]> (files s)) = files s)
    as Hdel by (intros; by rewrite delete_insert_id).
  destruct (files s !! pathFor hash) eqn:E; [naive_solver|].
  crush_match; simpl; rewrite ?Hdel; try done.
  all: split_and!; try done.
  all: right; split; [done|]; eexists; by split_and!.
Qed.

(** Every blob file holds data whose hash names it, sealed with the store key. *)
Definition store_ok (s : Store) : Prop :=
  length (cek s) = KeySize ∧
  ∀ h f, proper_hash h → files s !! pathFor h = Some f →
    ∃ data, sha256_hex data = h ∧ blob s h data.

Lemma blob_files s s' h data :
  cek s' = cek s → files s' !! pathFor h = files s !! pathFor h →
  blob s h data → blob s' h data.
Proof using Type. intros Hk Hf. unfold blob. by rewrite Hk, Hf. Qed.

Lemma sealStream_Ok key nonces hash r :
  length key = KeySize →
  ∃ n, sealStream key nonces hash r = Ok (sealed key nonces hash 0 0 r, n).
Proof using Type.
  intros Hk. unfold sealStream, NewX. rewrite decide_True by done. rewrite bind_Ok.
  unfold sealed. destruct (seal_loop _ _ _ _ _ _ _). eauto.
Qed.

Context `{SL : !Sha256Laws SH}.

Lemma sha256_proper data : proper_hash (sha256_hex data).
Proof using SL. split; [rewrite sha256_hex_length; lia|apply sha256_hex_no_dot]. Qed.

(** Publishing a sealed stream of data hashing to [hash] keeps the store valid. *)
Lemma putSealed_ok hash data nonces seal tmp now pf s :
  (∀ i, length (nonces i) = nonceSize) → store_ok s →
  proper_hash hash → IsTempName tmp = true → files s !! temp_path hash tmp = None →
  (∀ out, seal = Ok out → out = sealed (cek s) nonces hash 0 0 data ∧ sha256_hex data = hash) →
  store_ok (putSealed hash seal tmp now pf s).2.
Proof using Type.
  intros Hn [Hk Hok] Hh Htmp Hfresh Hseal.
  pose proof (putSealed_cases hash seal tmp now pf s Hh Htmp Hfresh) as Hp.
  destruct (putSealed _ _ _ _ _ _) as [res s']. destruct Hp as (Hck & _ & _ & Hres). simpl.
  split; [by rewrite Hck|]. intros h f Hph Hf.
  destruct res as [|e].
  2: { destruct Hres as [Hfs _]. rewrite Hfs in Hf.
       destruct (Hok h f Hph Hf) as (d & ? & ?). exists d. split; [done|].
       eapply blob_files; try done. by rewrite Hfs. }
  destruct Hres as [[_ ->]|(Hnone & out & Hout & Hfs & _)]; [by eauto|].
  destruct (decide (h = hash)) as [->|Hneq].
  - destruct (Hseal out Hout) as [-> Hsha]. exists data. split; [done|].
    exists (mkFile (sealed (cek s) nonces hash 0 0 data) now), nonces.
    rewrite Hfs, Hck, lookup_insert_eq. done.
  - assert (pathFor hash ≠ pathFor h) as Hpne
      by (intros Hpe; apply Hneq; symmetry; by apply pathFor_inj).
    rewrite Hfs, lookup_insert_ne in Hf by done.
    destruct (Hok h f Hph Hf) as (d & ? & ?). exists d. split; [done|].
    eapply blob_files; try done. by rewrite Hfs, lookup_insert_ne.
Qed.

Lemma putSealed_preserves hash seal tmp now pf s h data :
  proper_hash hash → IsTempName tmp = true → files s !! temp_path hash tmp = None →
  proper_hash h → blob s h data → blob (putSealed hash seal tmp now pf s).2 h data.
Proof using Type.
  intros Hh Htmp Hfresh Hph Hb.
  pose proof (putSealed_cases hash seal tmp now pf s Hh Htmp Hfresh) as Hp.
  destruct (putSealed _ _ _ _ _ _) as [res s']. destruct Hp as (Hck & _ & _ & Hres). simpl.
  destruct Hb as (f & nonces & Hf & Hrest).
  apply (blob_files s); [done| |by exists f, nonces].
  destruct res; [|by destruct Hres as [-> _]].
  destruct Hres as [[_ ->]|(Hnone & out & _ & -> & _)]; [done|].
  rewrite lookup_insert_ne; [done|]. intros Hpe. congruence.
Qed.

Lemma Put_ok data nonces tmp now pf s :
  store_ok s → (∀ i, length (nonces i) = nonceSize) → IsTempName tmp = true →
  files s !! temp_path (sha256_hex data) tmp = None →
  let '(res, s') := Put data nonces tmp now pf s in
  store_ok s' ∧
  (∀ h d, proper_hash h → blob s h d → Get h s' = Ok d) ∧
  match res with
  | Ok h => h = sha256_hex data ∧ ∃ d, Get h s' = Ok d ∧ sha256_hex d = h ∧
      (Has h s = false → d = data)
  | Err _ => files s' = files s ∧ byte_count s' = byte_count s
  end.
Proof using AL SL.
  intros Hok Hn Htmp Hfresh. pose proof (proj1 Hok) as Hk.
  pose proof (sha256_proper data) as Hh.
  unfold Put. set (hash := sha256_hex data) in *.
  destruct (sealStream_Ok (cek s) nonces hash data Hk) as [n ->]. rewrite bind_Ok. simpl.
  set (seal := Ok _ : result error bytes).
  assert (∀ out, seal = Ok out → out = sealed (cek s) nonces hash 0 0 data ∧
            sha256_hex data = hash) as Hseal by (intros out [= <-]; done).
  pose proof (putSealed_ok hash data nonces seal tmp now pf s Hn Hok Hh Htmp Hfresh Hseal) as Hok'.
  pose proof (putSealed_cases hash seal tmp now pf s Hh Htmp Hfresh) as Hp.
  pose proof (λ h d, putSealed_preserves hash seal tmp now pf s h d Hh Htmp Hfresh) as Hpres.
  destruct (putSealed _ _ _ _ _ _) as [res s']. simpl in *.
  destruct Hp as (Hck & _ & _ & Hres).
  assert (store_ok s' ∧ (∀ h d, proper_hash h → blob s h d → Get h s' = Ok d)) as [H1 H2].
  { split; [done|]. intros. apply Get_blob; [by rewrite Hck|]. by apply Hpres. }
  destruct res as [u|e]; (split; [done|]); (split; [done|]); [|done].
  split; [done|]. destruct Hres as [[[f Hf] ->]|(Hnone & out & Hout & Hfs & _)].
  - destruct (proj2 Hok' hash f Hh Hf) as (d & Hd & Hb). exists d.
    split; [by apply Get_blob|]. split; [done|]. unfold Has. by rewrite Hf.
  - exists data. split; [|done]. apply Get_blob; [by rewrite Hck|].
    destruct (Hseal out Hout) as [-> _].
    eexists (mkFile _ now), nonces. by rewrite Hfs, Hck, lookup_insert_eq.
Qed.

(** [Put] on a valid store, under any failure of the system calls it makes.
    If it fails, no file is left behind (the temp file included) and the byte
    counter is unchanged.  If it succeeds it returns the content hash, and
    [Get] of that hash returns data with that hash: the data put, when no blob
    was stored under the hash before.  Either way the store stays valid and
    every blob readable before stays readable. *)
Theorem Put_Get data nonces tmp now pf s :
  store_ok s → (∀ i, length (nonces i) = nonceSize) → IsTempName tmp = true →
  files s !! temp_path (sha256_hex data) tmp = None →
  let '(res, s') := Put data nonces tmp now pf s in
  store_ok s' ∧
  (∀ h d, proper_hash h → blob s h d → Get h s' = Ok d) ∧
  match res with
  | Ok h => h = sha256_hex data ∧ ∃ d, Get h s' = Ok d ∧ sha256_hex d = h ∧
      (Has h s = false → d = data)
  | Err _ => files s' = files s ∧ byte_count s' = byte_count s
  end.
Proof using AL SL. apply Put_ok. Qed.

(** [PutFile] reads its source twice, and the two reads may differ or fail.
    Whatever they return, the store stays valid: a blob is published under a
    hash only when the bytes sealed into it have that hash, and a source that
    changed during ingest leaves no file. *)
Theorem PutFile_store_ok first second nonces tmp now pf s :
  store_ok s → (∀ i, length (nonces i) = nonceSize) → IsTempName tmp = true →
  (∀ d, files s !! temp_path (sha256_hex d) tmp = None) →
  let '(res, s') := PutFile first second nonces tmp now pf s in
  store_ok s' ∧
  (∀ d1 d2, first = Ok d1 → second = Ok d2 → sha256_hex d2 ≠ sha256_hex d1 →
     files s' = files s) ∧
  match res with
  | Err _ => files s' = files s ∧ byte_count s' = byte_count s
  | Ok h => ∃ d, sha256_hex d = h ∧ blob s' h d
  end.
Proof using AL SL.
  intros Hok Hn Htmp Hfresh. pose proof (proj1 Hok) as Hk.
  unfold PutFile. destruct first as [d1|e]; [|by split_and!].
  pose proof (sha256_proper d1) as Hh. set (hash := sha256_hex d1) in *.
  set (seal := match second with Ok _ => _ | Err _ => _ end).
  assert (∀ out, seal = Ok out → ∃ d2, second = Ok d2 ∧
            out = sealed (cek s) nonces hash 0 0 d2 ∧ sha256_hex d2 = hash) as Hseal.
  { unfold seal. destruct second as [d2|]; [|done]. intros out.
    destruct (sealStream_Ok (cek s) nonces hash d2 Hk) as [n ->]. rewrite bind_Ok.
    case_decide; [|done]. intros [= <-]. eauto. }
  set (d2 := match second with Ok d => d | Err _ => [] end).
  pose proof (putSealed_ok hash d2 nonces seal tmp now pf s Hn Hok Hh Htmp (Hfresh d1)) as Hok'.
  pose proof (putSealed_cases hash seal tmp now pf s Hh Htmp (Hfresh d1)) as Hp.
  destruct (putSealed _ _ _ _ _ _) as [res s']. simpl in Hok'.
  assert (store_ok s') as Hs'.
  { apply Hok'. intros out (d & Hd & ? & ?)%Hseal. unfold d2. by rewrite Hd. }
  destruct Hp as (Hck & _ & _ & Hres).
  assert (∀ d0 d', @Ok error _ d1 = Ok d0 → second = Ok d' →
            sha256_hex d' ≠ sha256_hex d0 → files s' = files s) as Htoctou.
  { intros d0 d' [= <-] Hd' Hne. destruct res; [|by destruct Hres].
    destruct Hres as [[_ ->]|(_ & out & Hout & _)]; [done|].
    destruct (Hseal out Hout) as (d3 & Hd3 & _ & Hsha). rewrite Hd' in Hd3. injection Hd3 as <-. by destruct (Hne Hsha). }
  destruct res; (split; [done|]); (split; [done|]); [|done].
  assert (is_Some (files s' !! pathFor hash)) as [f Hf].
  { destruct Hres as [[? ->]|(_ & out & _ & -> & _)]; [done|]. by rewrite lookup_insert_eq. }
  by apply (proj2 Hs' hash f).
Qed.
End blobs.

(** ** The chunk cache stays bounded *)

Record chunk_cache_wf (s : Store) : Prop := {
  ccw_nodup : NoDup (chunkOrder s);
  ccw_dom : ∀ k, is_Some (chunkCache s !! k) ↔ k ∈ chunkOrder s;
  ccw_bound : (length (chunkOrder s) ≤ chunkCacheMax)%nat }.

Lemma chunk_trim_snoc c o k :
  NoDup (o ++ [k]) → (∀ k', is_Some (c !! k') ↔ k' ∈ o) →
  let '(c', o') := chunk_trim c (o ++ [k]) in
  NoDup o' ∧ (∀ k', is_Some (<[k := []]> c' !! k') ↔ k' ∈ o') ∧
  (length o' ≤ chunkCacheMax)%nat.
Proof.
  revert c. induction o as [|x o IH]; intros c Hnd Hdom; simpl.
  - split_and!.
    + apply NoDup_singleton.
    + intros k'. rewrite list_elem_of_singleton. destruct (decide (k' = k)) as [->|].
      * rewrite lookup_insert_eq. split; eauto.
      * rewrite lookup_insert_ne, Hdom by done. split; [by intros ?%not_elem_of_nil|done].
    + unfold chunkCacheMax. simpl. lia.
  - apply NoDup_cons in Hnd as [Hx Hnd]. case_decide as Hl.
    + apply IH; [done|]. intros k'. destruct (decide (k' = x)) as [->|].
      * rewrite lookup_delete_eq. split; [by intros []|]. intros Hin.
        destruct Hx. apply elem_of_app. by left.
      * rewrite lookup_delete_ne, Hdom, elem_of_cons by done. naive_solver.
    + split_and!; [by constructor| |simpl in *; lia].
      intros k'. rewrite elem_of_cons, elem_of_app, list_elem_of_singleton.
      destruct (decide (k' = k)) as [->|].
      * rewrite lookup_insert_eq. split; eauto.
      * rewrite lookup_insert_ne, Hdom, elem_of_cons by done. naive_solver.
Qed.

Lemma is_Some_insert_any (c : gmap chunkKey bytes) k p1 p2 k' :
  is_Some (<[k := p1]> c !! k') ↔ is_Some (<[k := p2]> c !! k').
Proof. rewrite !lookup_insert. case_decide; [split; eauto|done]. Qed.

Lemma chunkCachePut_wf hash idx p s :
  chunk_cache_wf s → chunk_cache_wf (chunkCachePut hash idx p s).
Proof.
  intros [Hnd Hdom Hb]. unfold chunkCachePut.
  destruct (chunkCache s !! (hash, idx)) as [p0|] eqn:E.
  - split; simpl; try done. intros k. destruct (decide (k = (hash, idx))) as [->|].
    + rewrite lookup_insert_eq, <- Hdom. split; [intros _; exact (mk_is_Some _ _ E)|eauto].
    + by rewrite lookup_insert_ne, Hdom.
  - assert ((hash, idx) ∉ chunkOrder s) as Hni
      by (intros [p' Hin]%Hdom; exact (eq_None_ne_Some_1 _ _ E Hin)).
    pose proof (chunk_trim_snoc (chunkCache s) (chunkOrder s) (hash, idx)) as Ht.
    destruct (chunk_trim _ _) as [c' o']. destruct Ht as (H1 & H2 & H3); [|done|].
    + apply NoDup_app. split_and!; [done| |apply NoDup_singleton].
      by intros x Hx ->%list_elem_of_singleton.
    + split; simpl; try done. intros k. by rewrite is_Some_insert_any, H2.
Qed.

Lemma lookup_foldr_delete (l : list chunkKey) (c : gmap chunkKey bytes) k :
  is_Some (foldr delete c l !! k) ↔ is_Some (c !! k) ∧ k ∉ l.
Proof.
  induction l as [|x l IH]; simpl.
  - split; [|naive_solver]. intros. split; [done|]. apply not_elem_of_nil.
  - rewrite not_elem_of_cons, lookup_delete. case_decide.
    + split; [by intros []|]. naive_solver.
    + rewrite IH. naive_solver.
Qed.

Lemma chunkCacheDrop_wf hash s : chunk_cache_wf s → chunk_cache_wf (chunkCacheDrop hash s).
Proof.
  intros [Hnd Hdom Hb]. split; simpl.
  - by apply NoDup_filter.
  - intros k. rewrite lookup_foldr_delete, Hdom, !list_elem_of_filter. naive_solver.
  - etrans; [apply length_filter|done].
Qed.

(** No chunk of a dropped hash remains. *)
Lemma chunkCacheDrop_gone hash idx s :
  chunk_cache_wf s → chunkCache (chunkCacheDrop hash s) !! (hash, idx) = None.
Proof.
  intros Hwf%(chunkCacheDrop_wf hash). apply eq_None_not_Some.
  intros Hin%(ccw_dom _ Hwf). simpl in Hin. by apply list_elem_of_filter in Hin as [[] _].
Qed.

(** ** The byte counter *)

Definition accounted (s : Store) : Prop := byte_count s = walkBytes s.

Lemma add_entry_comm p1 f1 p2 f2 z :
  add_entry p1 f1 (add_entry p2 f2 z) = add_entry p2 f2 (add_entry p1 f1 z).
Proof. unfold add_entry. repeat case_match; lia. Qed.

Lemma walk_insert p f (m : gmap store_path file) :
  m !! p = None → map_fold add_entry 0 (<[p := f]> m) = add_entry p f (map_fold add_entry 0 m).
Proof. intros. apply map_fold_insert_L; [|done]. intros. apply add_entry_comm. Qed.

Lemma walk_delete p f (m : gmap store_path file) :
  m !! p = Some f → map_fold add_entry 0 m = add_entry p f (map_fold add_entry 0 (delete p m)).
Proof.
  intros Hp. rewrite <- (walk_insert p f (delete p m)) by apply lookup_delete_eq.
  by rewrite insert_delete_id.
Qed.

Lemma walk_filter (P : store_path * file → Prop) `{∀ x, Decision (P x)} (m : gmap store_path file) :
  (∀ p f z, ¬ P (p, f) → add_entry p f z = z) →
  map_fold add_entry 0 (filter P m) = map_fold add_entry 0 m.
Proof.
  intros HP. induction m as [|p f m Hp IH] using map_ind; [by rewrite map_filter_empty|].
  rewrite walk_insert by done. destruct (decide (P (p, f))).
  - rewrite map_filter_insert_True, walk_insert, IH by (done || by apply map_lookup_filter_None; left).
    done.
  - rewrite map_filter_insert_False, delete_id, IH by done. by rewrite HP.
Qed.

Lemma add_entry_proper h f z : proper_hash h → add_entry (pathFor h) f z = fsize f + z.
Proof. intros (a & b & t & -> & -> & Ht)%pathFor_proper. simpl. by rewrite Ht. Qed.

(** ** Every reachable store is valid *)

Section reachable.
Context `{AL : !AEADLaws A, SL : !Sha256Laws SH, CS : ChunkSize}.

(** The calls on a store, with the failures they meet; [CallLeftover] is the
    temporary file that a failed [os.Remove] of [putSealed] leaves. *)
Inductive store_call : Type :=
| CallPut (data : bytes) (nonces : nat → bytes) (tmp : string) (now : Z) (pf : put_faults)
| CallPutFile (first second : result error bytes) (nonces : nat → bytes) (tmp : string) (now : Z) (pf : put_faults)
| CallLeftover (shard tmp : string) (f : file)
| CallReadAt (hash : string) (off size : Z)
| CallRemove (hash : string) (rf : remove_faults)
| CallGCTempFiles (g : gc_faults) (minAge now : Z)
| CallCleanAll (c : clean_faults)
| CallResyncBytes (w : walk_faults)
| CallBytes (w : walk_faults).

Definition serve (c : store_call) (s : Store) : Store :=
  match c with
  | CallPut data nonces tmp now pf => (Put data nonces tmp now pf s).2
  | CallPutFile first second nonces tmp now pf => (PutFile first second nonces tmp now pf s).2
  | CallLeftover d tmp f => s <| files := <[InShard d tmp := f]> (files s) |>
  | CallReadAt hash off size => (ReadAt hash off size s).2
  | CallRemove hash rf => (remove_sys rf hash s).2
  | CallGCTempFiles g minAge now => (gc_temps_sys g minAge now s).2
  | CallCleanAll c => (CleanAll c s).2
  | CallResyncBytes w => (resync_sys w s).2
  | CallBytes w => (bytes_sys w s).2
  end.

(** [os.CreateTemp] picks names that are not in use, and [rand.Read] fills
    nonces. *)
Definition admissible (c : store_call) (s : Store) : Prop :=
  match c with
  | CallPut _ nonces tmp _ _ | CallPutFile _ _ nonces tmp _ _ =>
      (∀ i, length (nonces i) = nonceSize) ∧ IsTempName tmp = true ∧
      ∀ d, files s !! temp_path (sha256_hex d) tmp = None
  | CallLeftover d tmp _ => IsTempName tmp = true ∧ files s !! InShard d tmp = None
  | CallRemove hash _ => hash = "" ∨ proper_hash hash
  | _ => True
  end.

(** A walk that sees every file there is. *)
Definition sees_all (w : walk_faults) (s : Store) : Prop :=
  wf_root w = false ∧ ∀ p, is_Some (files s !! p) → wf_skip w p = false.

(** Calls after which the counter is as exact as before: the size of a published
    file is known, so is that of a removed one. *)
Definition keeps_count (c : store_call) (s : Store) : Prop :=
  match c with
  | CallPut _ _ _ _ pf | CallPutFile _ _ _ _ _ pf => pf_stat pf = true
  | CallRemove _ rf => rf_stat rf = true ∨ rf_remove rf ≠ None
  | CallCleanAll _ | CallResyncBytes _ => False
  | CallBytes _ => 0 ≤ byte_count s
  | _ => True
  end.
(** Calls that count anew. *)
Definition counts_anew (c : store_call) (s : Store) : Prop :=
  match c with
  | CallCleanAll c => cf_error c = None
  | CallResyncBytes w => sees_all w s
  | CallBytes w => byte_count s < 0 ∧ sees_all w s
  | _ => False
  end.

(** The stores reached from a new one, and whether nothing has disturbed the
    counter since it was last counted anew. *)
Inductive reached (key : bytes) : Prop → Store → Prop :=
| reached_new : reached key True (NewStore key ∅)
| reached_any exact s c : reached key exact s → admissible c s → reached key False (serve c s)
| reached_keeps exact s c : reached key exact s → admissible c s → keeps_count c s → reached key exact (serve c s)
| reached_anew exact s c : reached key exact s → admissible c s → counts_anew c s → reached key True (serve c s).

(** Only blobs and temp files lie in the store directory. *)
Definition paths_ok (s : Store) : Prop := ∀ p, is_Some (files s !! p) →
  (∃ h, proper_hash h ∧ p = pathFor h) ∨ (∃ d n, p = InShard d n ∧ IsTempName n = true).

Record store_wf (s : Store) : Prop := {
  sw_ok : store_ok s;
  sw_paths : paths_ok s;
  sw_cache : chunk_cache_wf s }.
Record store_inv (s : Store) : Prop := {
  si_ok : store_ok s;
  si_paths : paths_ok s;
  si_bytes : accounted s;
  si_cache : chunk_cache_wf s }.
Lemma store_inv_wf s : store_inv s ↔ store_wf s ∧ accounted s.
Proof using Type. split; [intros []; by split; [split|]|intros [[] ?]; by split]. Qed.

Lemma store_ok_files s s' :
  cek s' = cek s →
  (∀ h f, proper_hash h → files s' !! pathFor h = Some f → files s !! pathFor h = Some f) →
  store_ok s → store_ok s'.
Proof using Type.
  intros Hk Hsub [Hlen Hok]. split; [by rewrite Hk|]. intros h f Hh Hf.
  pose proof (Hsub h f Hh Hf) as Hf0. destruct (Hok h f Hh Hf0) as (d & ? & ?).
  exists d. split; [done|]. eapply blob_files; try done. by rewrite Hf, Hf0.
Qed.

Lemma chunk_cache_wf_eq s s' :
  chunkCache s' = chunkCache s → chunkOrder s' = chunkOrder s →
  chunk_cache_wf s → chunk_cache_wf s'.
Proof using Type. intros E1 E2 []. by split; rewrite ?E1, ?E2. Qed.

Lemma accounted_eq s s' :
  files s' = files s → byte_count s' = byte_count s → accounted s → accounted s'.
Proof using Type. unfold accounted, walkBytes. by intros -> ->. Qed.

Lemma paths_ok_subseteq s s' : files s' ⊆ files s → paths_ok s → paths_ok s'.
Proof using Type. intros Hsub Hok p [f Hf]. apply Hok. exists f. by eapply lookup_weaken. Qed.

Lemma paths_ok_empty s : files s = ∅ → paths_ok s.
Proof using Type. intros E p. rewrite E, lookup_empty. by intros []. Qed.

Lemma putSealed_paths hash seal tmp now pf s :
  proper_hash hash → IsTempName tmp = true → files s !! temp_path hash tmp = None →
  paths_ok s → paths_ok (putSealed hash seal tmp now pf s).2.
Proof using Type.
  intros Hh Htmp Hfresh Hok.
  pose proof (putSealed_cases hash seal tmp now pf s Hh Htmp Hfresh) as Hp.
  destruct (putSealed _ _ _ _ _ _) as [res s']. destruct Hp as (_ & _ & _ & Hres). simpl.
  destruct res; [|by destruct Hres as [E _]; apply (paths_ok_subseteq s); rewrite ?E].
  destruct Hres as [[_ ->]|(Hnone & out & _ & Hfs & _)]; [done|].
  intros p. rewrite Hfs. intros [<-|Hp]%lookup_insert_is_Some'; [left; by exists hash|by apply Hok].
Qed.

Lemma putSealed_accounted hash seal tmp now pf s :
  proper_hash hash → IsTempName tmp = true → files s !! temp_path hash tmp = None →
  chunk_cache_wf s →
  chunk_cache_wf (putSealed hash seal tmp now pf s).2 ∧
  (pf_stat pf = true → accounted s → accounted (putSealed hash seal tmp now pf s).2).
Proof using Type.
  intros Hh Htmp Hfresh Hcc.
  pose proof (putSealed_cases hash seal tmp now pf s Hh Htmp Hfresh) as Hp.
  destruct (putSealed _ _ _ _ _ _) as [res s']. destruct Hp as (_ & Hc1 & Hc2 & Hres). simpl.
  split; [by eapply chunk_cache_wf_eq|]. intros Hstat Hacc.
  destruct res; [|by destruct Hres; eapply accounted_eq].
  destruct Hres as [[_ ->]|(Hnone & out & _ & Hfs & Hb)]; [done|].
  unfold accounted, walkBytes in *. rewrite Hfs, Hb, Hstat, walk_insert by done.
  rewrite add_entry_proper by done. unfold fsize. simpl. lia.
Qed.

Lemma read_loop_frame fuel hash off rangeEnd idx acc s :
  chunk_cache_wf s →
  let s' := (read_loop fuel hash off rangeEnd idx acc s).2 in
  files s' = files s ∧ cek s' = cek s ∧ byte_count s' = byte_count s ∧ chunk_cache_wf s'.
Proof using Type.
  revert idx acc s. induction fuel as [|fuel IH]; intros idx acc s Hwf; [done|].
  cbn [read_loop]. cbv zeta. case_decide; [|done].
  match goal with |- context [match ?X with _ => _ end] => set (got := X) end.
  assert (files got.2 = files s ∧ cek got.2 = cek s ∧ byte_count got.2 = byte_count s ∧
          chunk_cache_wf got.2) as Hgot.
  { unfold got. destruct (chunkCacheGet _ _ _); [done|].
    destruct (open_blob _ _ ≫= _) as [plain|e]; simpl.
    - destruct (chunkCachePut_files hash idx plain s) as [-> ->]. split_and!; try done.
      + unfold chunkCachePut. by crush_match.
      + by apply chunkCachePut_wf.
    - by destruct (errors_Is _ _). }
  destruct got as [[[plain|e]|] s1]; simpl in Hgot; try done.
  case_decide; [done|]. case_decide; [done|].
  destruct Hgot as (<- & <- & <- & Hwf1). by apply IH.
Qed.

Lemma ReadAt_frame hash off size s :
  chunk_cache_wf s →
  let s' := (ReadAt hash off size s).2 in
  files s' = files s ∧ cek s' = cek s ∧ byte_count s' = byte_count s ∧ chunk_cache_wf s'.
Proof using Type. intros Hwf. unfold ReadAt. case_decide; [done|]. by apply read_loop_frame. Qed.

Lemma gc_victim_proper cutoff h f : proper_hash h → gc_victim cutoff (pathFor h) f = false.
Proof using Type. intros (a & b & t & -> & -> & Ht)%pathFor_proper. simpl. by rewrite Ht. Qed.

(** A store whose files are some of those of a well-formed one. *)
Lemma store_wf_fewer s s' :
  cek s' = cek s → files s' ⊆ files s → chunk_cache_wf s' → store_wf s → store_wf s'.
Proof using Type.
  intros Hk Hsub Hcc [Hok Hpa _]. split; [|by apply (paths_ok_subseteq s)|done].
  apply (store_ok_files s); [done| |done]. intros h f _ Hf. by eapply lookup_weaken.
Qed.

Lemma remove_sys_cases rf hash s :
  (remove_sys rf hash s).2 = s ∨ (remove_sys rf hash s).2 = chunkCacheDrop hash s ∨
  ∃ f, files s !! pathFor hash = Some f ∧ rf_remove rf = None ∧
    (remove_sys rf hash s).2 = (chunkCacheDrop hash s) <| files := delete (pathFor hash) (files s) |>
                                 <| byte_count := byte_count s - (if rf_stat rf then fsize f else 0) |>.
Proof using Type.
  unfold remove_sys. case_decide; [by left|]. right.
  change (files (chunkCacheDrop hash s)) with (files s). change (byte_count (chunkCacheDrop hash s)) with (byte_count s).
  destruct (files s !! pathFor hash) as [f|]; [|by left]. destruct (rf_remove rf); [by left|]. right. by exists f.
Qed.

Lemma remove_sys_wf rf hash s : store_wf s → store_wf (remove_sys rf hash s).2.
Proof using Type.
  intros Hwf. pose proof (chunkCacheDrop_wf hash s (sw_cache _ Hwf)) as Hcc.
  destruct (remove_sys_cases rf hash s) as [->|[->|(f & Hf & _ & ->)]]; [done|by apply (store_wf_fewer s)|].
  apply (store_wf_fewer s); [done|apply delete_subseteq| |done]. by apply (chunk_cache_wf_eq (chunkCacheDrop hash s)).
Qed.
Lemma remove_sys_accounted rf hash s :
  hash = "" ∨ proper_hash hash → rf_stat rf = true ∨ rf_remove rf ≠ None → accounted s →
  accounted (remove_sys rf hash s).2.
Proof using Type.
  intros Hh Hrf Hacc. destruct Hh as [->|Hh]; [done|].
  destruct (remove_sys_cases rf hash s) as [->|[->|(f & Hf & Hr & ->)]]; [done|by apply (accounted_eq s)|].
  destruct Hrf as [->|]; [|done]. unfold accounted, walkBytes in *. simpl. rewrite Hacc, (walk_delete _ _ _ Hf).
  rewrite add_entry_proper by done. lia.
Qed.

Lemma Remove_inv hash s :
  hash = "" ∨ proper_hash hash → store_inv s → store_inv (Remove hash s).2.
Proof using Type.
  rewrite !store_inv_wf. intros Hh [Hwf Hacc]. split; [by apply remove_sys_wf|].
  apply remove_sys_accounted; [done|by left|done].
Qed.

Lemma gc_temps_sys_wf g minAge now s : store_wf s → store_wf (gc_temps_sys g minAge now s).2.
Proof using Type.
  intros Hwf. unfold gc_temps_sys. cbv zeta. destruct (gf_root g); [done|].
  apply (store_wf_fewer s); [done|apply map_filter_subseteq| |done]. apply (chunk_cache_wf_eq s); try done. apply Hwf.
Qed.
Lemma gc_temps_sys_accounted g minAge now s : accounted s → accounted (gc_temps_sys g minAge now s).2.
Proof using Type.
  unfold gc_temps_sys. cbv zeta. destruct (gf_root g); [done|]. unfold accounted, walkBytes. simpl. intros ->.
  symmetry. apply walk_filter. intros [n|d n] f z Hg; [done|]. simpl in *. apply not_false_iff_true in Hg.
  apply andb_true_iff in Hg as [[-> _]%andb_true_iff _]. done.
Qed.
(** Without failures it is [GCTempFiles]. *)
Lemma gc_temps_sys_ok minAge now s :
  gc_temps_sys (mkGCFaults None (λ _, false)) minAge now s = (Ok (GCTempFiles minAge now s).1, (GCTempFiles minAge now s).2).
Proof using Type.
  unfold gc_temps_sys, GCTempFiles. cbn [gf_root gf_skip fst snd negb].
  assert (∀ b, filter (λ x : store_path * file, gc_victim (now - minAge) x.1 x.2 && true = b) (files s) =
    filter (λ '(p, f), gc_victim (now - minAge) p f = b) (files s)) as Hfilter.
  { intros b. apply map_filter_ext. intros p f _. simpl. by rewrite andb_true_r. }
  by rewrite !Hfilter.
Qed.

Lemma GCTempFiles_inv minAge now s : store_inv s → store_inv (GCTempFiles minAge now s).2.
Proof using Type.
  rewrite !store_inv_wf. intros [Hwf Hacc].
  pose proof (gc_temps_sys_wf (mkGCFaults None (λ _, false)) minAge now s Hwf) as H1.
  pose proof (gc_temps_sys_accounted (mkGCFaults None (λ _, false)) minAge now s Hacc) as H2.
  rewrite gc_temps_sys_ok in H1, H2. done.
Qed.

Lemma Put_as_PutFile data nonces tmp now pf s :
  length (cek s) = KeySize →
  (Put data nonces tmp now pf s).2 =
  (putSealed (sha256_hex data)
    (sealStream (cek s) nonces (sha256_hex data) data ≫= λ r, Ok r.1) tmp now pf s).2.
Proof using Type. intros. unfold Put. by destruct (putSealed _ _ _ _ _ _) as [[] ?]. Qed.

Lemma Put_wf data nonces tmp now pf s : admissible (CallPut data nonces tmp now pf) s → store_wf s →
  store_wf (Put data nonces tmp now pf s).2 ∧
  (pf_stat pf = true → accounted s → accounted (Put data nonces tmp now pf s).2).
Proof using AL SL.
  intros (Hn & Ht & Hf) [Hok Hpa Hcc]. pose proof (proj1 Hok) as Hk.
  rewrite Put_as_PutFile by done. pose proof (sha256_proper data) as Hh.
  destruct (putSealed_accounted (sha256_hex data)
    (sealStream (cek s) nonces (sha256_hex data) data ≫= λ r, Ok r.1) tmp now pf s) as [? ?]; try done.
  split; [split; [|by apply putSealed_paths|done]|done].
  apply (putSealed_ok (sha256_hex data) data nonces); try done.
  destruct (sealStream_Ok (cek s) nonces (sha256_hex data) data Hk) as [n ->]. by intros out [= <-].
Qed.

Lemma PutFile_wf first second nonces tmp now pf s : admissible (CallPutFile first second nonces tmp now pf) s → store_wf s →
  store_wf (PutFile first second nonces tmp now pf s).2 ∧
  (pf_stat pf = true → accounted s → accounted (PutFile first second nonces tmp now pf s).2).
Proof using AL SL.
  intros (Hn & Ht & Hf) [Hok Hpa Hcc]. pose proof (proj1 Hok) as Hk. unfold PutFile. destruct first as [d1|]; [|done].
  pose proof (sha256_proper d1) as Hh. match goal with |- context [putSealed _ ?X] => set (seal := X) end.
  assert (store_wf (putSealed (sha256_hex d1) seal tmp now pf s).2 ∧
    (pf_stat pf = true → accounted s → accounted (putSealed (sha256_hex d1) seal tmp now pf s).2)) as Hres;
    [|by destruct (putSealed _ _ _ _ _ _) as [[] ?]].
  destruct (putSealed_accounted (sha256_hex d1) seal tmp now pf s) as [? ?]; try done.
  split; [split; [|by apply putSealed_paths|done]|done].
  apply (putSealed_ok (sha256_hex d1) match second with Ok d => d | Err _ => [] end nonces); try done.
  unfold seal. destruct second as [d2|]; [|done]. intros out.
  destruct (sealStream_Ok (cek s) nonces (sha256_hex d1) d2 Hk) as [n ->]. rewrite bind_Ok.
  case_decide; [|done]. by intros [= <-].
Qed.

(** A temporary file beside the blobs changes nothing. *)
Lemma leftover_wf d tmp f s : admissible (CallLeftover d tmp f) s → store_wf s →
  store_wf (serve (CallLeftover d tmp f) s) ∧ (accounted s → accounted (serve (CallLeftover d tmp f) s)).
Proof using Type.
  intros [Ht Hf] [Hok Hpa Hcc]. cbn [serve]. split; [split|].
  - apply (store_ok_files s); [done| |done]. intros h f' Hh. simpl. intros [[Hp _]|[_ ?]]%lookup_insert_Some; [|done].
    destruct (pathFor_proper h Hh) as (? & ? & ? & ? & Hpf & ?). congruence.
  - intros p. simpl. intros [<-|Hp]%lookup_insert_is_Some'; [right; by exists d, tmp|by apply Hpa].
  - by apply (chunk_cache_wf_eq s).
  - unfold accounted, walkBytes. simpl. intros ->. rewrite walk_insert by done. simpl. by rewrite Ht.
Qed.

Lemma ReadAt_wf hash off size s : store_wf s →
  store_wf (ReadAt hash off size s).2 ∧ (accounted s → accounted (ReadAt hash off size s).2).
Proof using Type.
  intros Hwf. destruct (ReadAt_frame hash off size s (sw_cache _ Hwf)) as (Hfs & Hk & Hb & ?).
  split; [|by apply accounted_eq]. apply (store_wf_fewer s); [done|by rewrite Hfs|done|done].
Qed.

(** Whatever a call meets, the store stays well formed; one that keeps the count
    keeps the counter exact, one that counts anew makes it so. *)
Lemma exec_wf c s : admissible c s → store_wf s → store_wf (serve c s).
Proof using AL SL.
  intros Ha Hwf. destruct c as [| | | | | |c| |w]; cbn [serve].
  - by apply Put_wf. - by apply PutFile_wf. - by apply leftover_wf. - by apply ReadAt_wf.
  - by apply remove_sys_wf. - by apply gc_temps_sys_wf.
  - unfold CleanAll. destruct (cf_error c); (apply (store_wf_fewer s); [done| |by apply (chunk_cache_wf_eq s), Hwf|done]).
    + apply map_filter_subseteq. + apply map_empty_subseteq.
  - apply (store_wf_fewer s); [done..| |done]. by apply (chunk_cache_wf_eq s), Hwf.
  - unfold bytes_sys. case_decide; [done|]. apply (store_wf_fewer s); [done..| |done]. by apply (chunk_cache_wf_eq s), Hwf.
Qed.

Lemma exec_keeps c s : admissible c s → store_wf s → keeps_count c s → accounted s → accounted (serve c s).
Proof using AL SL.
  intros Ha Hwf Hk Hacc. destruct c; cbn [serve keeps_count] in *; try done.
  - by apply Put_wf. - by apply PutFile_wf. - by apply leftover_wf. - by apply ReadAt_wf.
  - by apply remove_sys_accounted. - by apply gc_temps_sys_accounted.
  - unfold bytes_sys. by case_decide.
Qed.

Lemma walk_sys_all w s : sees_all w s → walk_sys w s = walkBytes s.
Proof using Type.
  intros [Hr Hs]. unfold walk_sys, walkBytes. rewrite Hr. f_equal. apply map_filter_id. intros p f Hp. apply Hs. by exists f.
Qed.
Lemma exec_anew c s : counts_anew c s → accounted (serve c s).
Proof using Type.
  destruct c as [| | | | | |c|w|w]; cbn [serve counts_anew]; try done.
  - unfold CleanAll. by intros ->.
  - intros Hw. unfold accounted. cbn. by rewrite (walk_sys_all _ _ Hw).
  - intros [Hn Hw]. unfold bytes_sys. rewrite decide_False by lia. unfold accounted. cbn. by rewrite (walk_sys_all _ _ Hw).
Qed.


Lemma ReadAt_absent hash off size s :
  files s !! pathFor hash = None → (∀ idx, chunkCache s !! (hash, idx) = None) →
  0 ≤ off → 0 < size → off + size < 2 ^ 63 →
  (ReadAt hash off size s).1 = Err (ErrWrap "open cache file" (ErrSentinel FsErrNotExist)).
Proof using Type.
  intros Hf Hc Ho Hs Hov. pose proof (proj1 cacheChunkSize_bound) as Hcs.
  unfold ReadAt. rewrite decide_False by lia. rewrite wrap64_id by (unfold int64_ok; lia).
  rewrite Z.quot_div_nonneg by lia. assert (cacheChunkSize ≠ 0) as Hne by lia.
  pose proof (Z.div_mod off cacheChunkSize Hne) as Hdm.
  pose proof (Z.mod_pos_bound off cacheChunkSize Hcs).
  cbn [read_loop]. rewrite decide_True by lia. unfold chunkCacheGet. rewrite Hc.
  unfold open_blob. rewrite Hf. done.
Qed.

Lemma Bytes_inv s : store_inv s → (Bytes s).1 = byte_count s.
Proof using Type. intros [_ _ Hacc _]. unfold Bytes, ResyncBytes. by case_decide. Qed.

(** Removing a blob of a reachable store: the call succeeds, the hash is
    absent afterwards (no read of any of its ranges is served from the chunk
    cache), every other blob is untouched, and the counter drops by exactly the
    size the removed file had. *)
Theorem Remove_spec hash s f :
  store_inv s → proper_hash hash → files s !! pathFor hash = Some f →
  ∃ s', Remove hash s = (Ok tt, s') ∧
    Has hash s' = false ∧ (∀ off size, 0 < size → 0 ≤ off → off + size < 2 ^ 63 →
      (ReadAt hash off size s').1 = Err (ErrWrap "open cache file" (ErrSentinel FsErrNotExist))) ∧
    (∀ h d, proper_hash h → h ≠ hash → blob s h d → Get h s' = Ok d) ∧
    (Bytes s').1 = (Bytes s).1 - fsize f.
Proof using AL.
  intros Hinv Hh Hf. pose proof (Remove_inv hash s (or_intror Hh) Hinv) as Hinv'.
  pose proof Hinv as [[Hk Hok] _ Hacc Hcc]. unfold Remove, remove_sys in *.
  rewrite decide_False in * by (intros ->; destruct Hh; simpl in *; lia).
  simpl in *. rewrite Hf in *. eexists. split; [reflexivity|]. simpl in Hinv'.
  split_and!.
  - unfold Has. simpl. by rewrite lookup_delete_eq.
  - intros off size Hs Ho Hov. apply ReadAt_absent; try done; simpl.
    + by rewrite lookup_delete_eq.
    + intros idx. by apply (chunkCacheDrop_gone hash idx s).
  - intros h d Hhh Hne Hb. apply Get_blob; [done|]. apply (blob_files s); try done. simpl.
    rewrite lookup_delete_ne; [done|]. by intros ?%pathFor_inj.
  - rewrite !Bytes_inv by done. done.
Qed.
End reachable.

(** ** A concrete store: chunks of four bytes, the toy primitives *)

Definition ex_chunk_size : ChunkSize.
Proof. refine {| cacheChunkSize := 4 |}. by vm_compute. Defined.
#[local] Existing Instance ex_chunk_size | 0.

Definition ex_key : bytes := replicate 32 x01.
Definition ex_nonces (i : nat) : bytes := be_bytes 24 (Z.of_nat i).
Definition ex_tmp : string := ".pigcloud-tmp-1".
Definition ex_data : bytes := [x68; x65; x6c; x6c; x6f; x20; x62; x6c; x6f; x62].
Definition ex_hash : string := sha256_hex ex_data.
Definition ex_store0 : Store := NewStore ex_key ∅.
Definition ex_store : Store := (Put ex_data ex_nonces ex_tmp 7 no_faults ex_store0).2.

Lemma ex_nonces_ok i : length (ex_nonces i) = nonceSize.
Proof. apply length_be_bytes. Qed.

Lemma ex_store0_inv : store_inv ex_store0.
Proof.
  split; [split; [done|]|by apply paths_ok_empty|done|split].
  - intros h f _ Hf. simpl in Hf. by rewrite lookup_empty in Hf.
  - by apply NoDup_nil.
  - intros k. simpl. split; [intros []|intros ?%not_elem_of_nil]; done.
  - simpl. lia.
Qed.

Definition ex_put : store_call := CallPut ex_data ex_nonces ex_tmp 7 no_faults.
Lemma ex_put_admissible : admissible ex_put ex_store0.
Proof. split; [exact ex_nonces_ok|]. by split. Qed.
Lemma ex_store_reached : reached ex_key True ex_store.
Proof. exact (reached_keeps ex_key True ex_store0 ex_put (reached_new ex_key) ex_put_admissible eq_refl). Qed.

Lemma ex_store_inv : store_inv ex_store.
Proof.
  apply store_inv_wf. destruct (proj1 (store_inv_wf _) ex_store0_inv) as [Hwf Hacc]. split.
  - exact (exec_wf ex_put ex_store0 ex_put_admissible Hwf).
  - exact (exec_keeps ex_put ex_store0 ex_put_admissible Hwf eq_refl Hacc).
Qed.

Lemma ex_store_blob : blob ex_store ex_hash ex_data.
Proof.
  exists (mkFile (sealed ex_key ex_nonces ex_hash 0 0 ex_data) 7), ex_nonces.
  split; [by vm_compute|]. split; [exact ex_nonces_ok|]. by vm_compute.
Qed.

Example ex_store_files : ListHashes ex_store = [ex_hash] ∧ byte_count ex_store = 142.
Proof. by vm_compute. Qed.

(** A window across two chunks and past the end of the blob. *)
Lemma ReadAt_slice_witness :
  ∃ s', ReadAt ex_hash 3 100 ex_store = (Ok (drop 3 ex_data), s').
Proof.
  destruct (ReadAt_slice ex_store ex_hash ex_data 3 100) as (s' & H & _).
  - reflexivity.
  - apply ex_store_blob.
  - intros idx p Hp. by vm_compute in Hp.
  - lia.
  - lia.
  - lia.
  - exists s'. exact H.
Defined.

Lemma WriteTo_Get_witness :
  Get ex_hash ex_store = Ok ex_data ∧ WriteTo ex_hash 10 ex_store = (10, None, ex_data).
Proof.
  assert (Get ex_hash ex_store = Ok ex_data) as H by (vm_compute; reflexivity).
  split; [exact H|]. apply (WriteTo_Get ex_store ex_hash ex_data 10 H). simpl. lia.
Defined.

Lemma Put_Get_witness :
  let '(res, s') := Put ex_data ex_nonces ex_tmp 7 no_faults ex_store0 in
  store_ok s' ∧ res = Ok ex_hash ∧ Get ex_hash s' = Ok ex_data.
Proof.
  pose proof (Put_Get ex_data ex_nonces ex_tmp 7 no_faults ex_store0
    (si_ok _ ex_store0_inv) ex_nonces_ok eq_refl eq_refl) as H.
  change (Put ex_data ex_nonces ex_tmp 7 no_faults ex_store0)
    with (Ok ex_hash : result error string, ex_store) in *.
  destruct H as (H1 & _ & _ & d & H2 & _ & H3). split; [exact H1|]. split; [reflexivity|].
  rewrite (H3 eq_refl) in H2. exact H2.
Defined.

(** The source changes between the two reads. *)
Lemma PutFile_store_ok_witness :
  let '(_, s') := PutFile (Ok ex_data) (Ok [x00]) ex_nonces ex_tmp 7 no_faults ex_store0 in
  store_ok s' ∧ files s' = ∅.
Proof.
  pose proof (PutFile_store_ok (Ok ex_data) (Ok [x00]) ex_nonces ex_tmp 7 no_faults ex_store0
    (si_ok _ ex_store0_inv) ex_nonces_ok eq_refl (λ d, eq_refl)) as H.
  destruct (PutFile _ _ _ _ _ _ _) as [res s']. destruct H as (H1 & H2 & _).
  split; [exact H1|]. apply (H2 ex_data [x00] eq_refl eq_refl). by vm_compute.
Defined.

(** A removal whose [os.Stat] fails leaves the counter behind, and a recount
    corrects it. *)
Definition ex_unseen : Store := serve (CallRemove ex_hash (mkRemoveFaults false None)) ex_store.

Lemma Remove_spec_witness :
  ∃ s', Remove ex_hash ex_store = (Ok tt, s') ∧ (Bytes s').1 = 0.
Proof.
  destruct (Remove_spec ex_hash ex_store
    (mkFile (sealed ex_key ex_nonces ex_hash 0 0 ex_data) 7) ex_store_inv) as (s' & H1 & _ & _ & _ & H2).
  - apply sha256_proper.
  - by vm_compute.
  - exists s'. split; [exact H1|]. rewrite H2. by vm_compute.
Defined.
