(* ===== verification/CacheEvict.v ===== *)
(** * Eviction, orphan collection and clearing of failed transfers

    [internal/mount/cache/eviction.go] and [retry.go]: the sweeps that act on the
    cache database and the blob store together. *)
From S2P Require Import Prelude GoLib Table ApiErrors Crypto CacheDB CacheStore.
From Stdlib Require Import SpecFloat.
Local Open Scope Z_scope.

(** ** The target size: [int64(float64(maxSize) * evictionTarget)] *)

Definition float64_of_int64 (z : Z) : spec_float := binary_normalize 53 1024 z 0 false.
(** 0.90 as a double: 8106479329266893 * 2^-53. *)
Definition evictionTarget : spec_float := S754_finite false 8106479329266893 (-53).
(** Conversion to [int64] truncates; what does not fit is 0x8000000000000000. *)
Definition int64_of_float64 (f : spec_float) : Z :=
  match f with
  | S754_zero _ => 0
  | S754_finite s m e =>
      let a := if decide (0 ≤ e) then Z.shiftl (Z.pos m) e else Z.shiftr (Z.pos m) (- e) in
      let z := if s then - a else a in
      if decide (- 2 ^ 63 ≤ z < 2 ^ 63) then z else - 2 ^ 63
  | _ => - 2 ^ 63
  end.
Definition targetSize (maxSize : Z) : Z :=
  int64_of_float64 (SFmul 53 1024 (float64_of_int64 maxSize) evictionTarget).

Definition cacheSizeGiB : Z := 1024 * 1024 * 1024.
Definition DefaultMaxSize : Z := 5 * cacheSizeGiB.
Definition evictionBatchSize : nat := 100.
Definition tempFileGrace : Z := 3600 * 10 ^ 9.

Example targetSize_default : targetSize DefaultMaxSize = 4831838208.
Proof. by vm_compute. Qed.

(** ** Releasing blobs *)

(** [db] and [store] may be nil pointers. *)
Definition CacheBytes (db : option DB) (store : option Store) : Z * option Store :=
  match store with
  | Some s => let '(n, s') := Bytes s in (n, Some s')
  | None =>
      match db with
      | None => (0, None)
      | Some d => (match TotalCacheSize d with Ok n => n | Err _ => 0 end, None)
      end
  end.

Definition ReleaseBlob (db : option DB) (store : option Store) (hash : string) (excludeID : Z)
    : option Store :=
  match db, store with
  | Some d, Some s =>
      if decide (hash = "") then Some s else
      match CountCachedByHash hash excludeID d with
      | Err _ => Some s
      | Ok n => if decide (0 < n)%nat then Some s else Some (Remove hash s).2
      end
  | _, _ => store
  end.

(** ** The evictor *)

Record Evictor : Type := mkEvictor { maxSize : Z; inUse : option (Z → bool) }.
Definition NewEvictor (size : Z) : Evictor := mkEvictor size None.
Definition SetHooks (f : option (Z → bool)) (e : Evictor) : Evictor := mkEvictor (maxSize e) f.

(** The state of a sweep: the database, the store, [currentSize], and the inodes
    evicted so far, in the order [onEvict] is called with them; the count the
    code returns is the length of this list. *)
Record sweep : Type := mkSweep {
  sw_db : DB; sw_store : option Store; sw_size : Z; sw_log : list Z }.

Definition in_use (e : Evictor) (id : Z) : bool :=
  match inUse e with Some f => f id | None => false end.

(** [ReleaseBlob], [InvalidateCache] and [onEvict] on one candidate. *)
Definition evict_one (inode : Inode) (w : sweep) : result error unit * sweep :=
  let store := ReleaseBlob (Some (sw_db w)) (sw_store w) (i_ContentHash inode) (i_ID inode) in
  let '(res, db) := InvalidateCache (i_ID inode) (sw_db w) in
  match res with
  | Err err => (Err err, mkSweep db store (sw_size w) (sw_log w))
  | Ok _ => (Ok tt, mkSweep db store (sw_size w) (sw_log w ++ [i_ID inode]))
  end.

(** The inner loop of [evict]; the boolean is [progressed]. *)
Fixpoint evict_batch (e : Evictor) (target : Z) (candidates : list Inode) (progressed : bool)
    (w : sweep) : result error bool * sweep :=
  match candidates with
  | [] => (Ok progressed, w)
  | inode :: rest =>
      if decide (sw_size w ≤ target) then (Ok progressed, w)
      else if in_use e (i_ID inode) then evict_batch e target rest progressed w
      else
        match evict_one inode w with
        | (Err err, w) => (Err (ErrWrap "invalidate cache" err), w)
        | (Ok _, w) =>
            let '(size, store) := CacheBytes (Some (sw_db w)) (sw_store w) in
            evict_batch e target rest true (mkSweep (sw_db w) store size (sw_log w))
        end
  end.

Fixpoint evict_loop (fuel : nat) (e : Evictor) (target : Z) (w : sweep)
    : result error unit * sweep :=
  match fuel with
  | O => (Err out_of_fuel, w)
  | S fuel =>
      if decide (target < sw_size w) then
        match LRUEvictionCandidates evictionBatchSize (sw_db w) with
        | Err err => (Err (ErrWrap "get eviction candidates" err), w)
        | Ok candidates =>
            if decide (length candidates = 0%nat) then (Ok tt, w) else
            match evict_batch e target candidates false w with
            | (Err err, w) => (Err err, w)
            | (Ok progressed, w) => if progressed then evict_loop fuel e target w else (Ok tt, w)
            end
        end
      else (Ok tt, w)
  end.

(** Each round that goes on has emptied at least one cached row. *)
Definition evict_fuel (d : DB) : nat := S (S (length (inodes d))).

Definition evict (e : Evictor) (currentSize : Z) (db : DB) (store : option Store)
    : result error unit * sweep :=
  evict_loop (evict_fuel db) e (targetSize (maxSize e)) (mkSweep db store currentSize []).

Definition RunIfNeeded (e : Evictor) (db : DB) (store : option Store)
    : result error unit * sweep :=
  let '(totalSize, store) := CacheBytes (Some db) store in
  if decide (totalSize ≤ maxSize e) then (Ok tt, mkSweep db store totalSize [])
  else evict e totalSize db store.

(** [ForceEvict] has no size test: it empties every candidate not in use. *)
Fixpoint force_batch (e : Evictor) (candidates : list Inode) (progressed : bool) (w : sweep)
    : result error bool * sweep :=
  match candidates with
  | [] => (Ok progressed, w)
  | inode :: rest =>
      if in_use e (i_ID inode) then force_batch e rest progressed w
      else
        match evict_one inode w with
        | (Err err, w) => (Err err, w)
        | (Ok _, w) => force_batch e rest true w
        end
  end.

Fixpoint force_loop (fuel : nat) (e : Evictor) (w : sweep) : result error unit * sweep :=
  match fuel with
  | O => (Err out_of_fuel, w)
  | S fuel =>
      match LRUEvictionCandidates evictionBatchSize (sw_db w) with
      | Err err => (Err err, w)
      | Ok candidates =>
          if decide (length candidates = 0%nat) then (Ok tt, w) else
          match force_batch e candidates false w with
          | (Err err, w) => (Err err, w)
          | (Ok progressed, w) => if progressed then force_loop fuel e w else (Ok tt, w)
          end
      end
  end.
Definition ForceEvict (e : Evictor) (db : DB) (store : option Store) : result error unit * sweep :=
  force_loop (evict_fuel db) e (mkSweep db store 0 []).

(** ** Orphan collection *)

Record GCSweep : Type := mkGCSweep { gc_Blobs : nat; gc_Temps : nat }.

Fixpoint gc_blobs (referenced : gset string) (hashes : list string) (blobs : nat) (s : Store)
    : nat * Store :=
  match hashes with
  | [] => (blobs, s)
  | h :: rest =>
      if decide (h ∈ referenced) then gc_blobs referenced rest blobs s
      else let '(res, s) := Remove h s in
           gc_blobs referenced rest (if is_ok res then S blobs else blobs) s
  end.

Definition GCOrphans (db : DB) (s : Store) (now : Z) : result error GCSweep * Store :=
  match AllCachedHashes db with
  | Err err => (Err err, s)
  | Ok referenced =>
      let '(blobs, s) := gc_blobs referenced (ListHashes s) 0 s in
      let '(temps, s) := GCTempFiles tempFileGrace now s in
      (Ok (mkGCSweep blobs temps), s)
  end.

(** ** Clearing failed transfers ([retry.go])

    [GetInodeByPath] returns a nil inode with every error, so the test
    [in == nil] answers (nil, nil) for all of them. *)

Fixpoint clearEach (candidates : list Inode) (d : DB) : list Inode * DB :=
  match candidates with
  | [] => ([], d)
  | i :: rest =>
      if decide (i_SyncStatus i = StatusConflict ∨ i_SyncStatus i = StatusRejected)
      then clearEach rest d
      else
        let d := (DeleteSyncFailures (i_ID i) d).2 in
        let d := (DeleteFailedUploadWritebacks (i_ID i) d).2 in
        let '(cleared, d) := clearEach rest d in (i :: cleared, d)
  end.

Definition ClearFailedTransfers (remotePath : string) (d : DB) : result error (list Inode) * DB :=
  if decide (remotePath = "") then
    match InodesWithFailures d with
    | Err err => (Err err, d)
    | Ok candidates => let '(cleared, d) := clearEach candidates d in (Ok cleared, d)
    end
  else
    match GetInodeByPath remotePath d with
    | Err _ => (Ok [], d)
    | Ok i =>
        if hasFailureLatch i d
        then let '(cleared, d) := clearEach [i] d in (Ok cleared, d)
        else (Ok [], d)
    end.

(** ** One eviction as a step

    The row evicted is a least recently used one among the clean, unpinned
    cached rows that are not in use. *)

Definition store_files (s : option Store) : gmap store_path file :=
  match s with Some s => files s | None => ∅ end.

Definition evictable (e : Evictor) (d : DB) (r : inode_row) : Prop :=
  r ∈ inodes d ∧ evictable_where r ∧ in_use e (c_id r) = false.

Inductive evicts (e : Evictor) (w w' : sweep) : Prop :=
| evicts_row r :
    evictable e (sw_db w) r →
    (∀ r', evictable e (sw_db w) r' → c_last_access r ≤ c_last_access r') →
    sw_db w' = on_inodes (sql_update (λ r', c_id r' = c_id r) invalidate_row) (sw_db w) →
    store_files (sw_store w') = store_files (ReleaseBlob (Some (sw_db w)) (sw_store w)
                                  (c_content_hash r) (c_id r)) →
    sw_log w' = sw_log w ++ [c_id r] →
    evicts e w w'.

Lemma evict_one_open inode w :
  closed (sw_db w) = false →
  evict_one inode w = (Ok tt, mkSweep
    (on_inodes (sql_update (λ r, c_id r = i_ID inode) invalidate_row) (sw_db w))
    (ReleaseBlob (Some (sw_db w)) (sw_store w) (i_ContentHash inode) (i_ID inode))
    (sw_size w) (sw_log w ++ [i_ID inode])).
Proof.
  intros Hc. unfold evict_one, InvalidateCache, update_inode, exec_. by rewrite exec_open.
Qed.

Lemma CacheBytes_files d s : store_files (CacheBytes d s).2 = store_files s.
Proof.
  destruct s as [s|]; simpl; [|by destruct d].
  unfold Bytes, ResyncBytes. by case_decide.
Qed.

Lemma Bytes_idem s : (Bytes (Bytes s).2).1 = (Bytes s).1.
Proof.
  unfold Bytes, ResyncBytes. destruct (decide (0 ≤ byte_count s)) as [H|H]; simpl.
  - by rewrite decide_True.
  - by case_decide.
Qed.

Lemma CacheBytes_Some d s : CacheBytes d (Some s) = ((Bytes s).1, Some (Bytes s).2).
Proof. simpl. by destruct (Bytes s). Qed.

Lemma CacheBytes_idem d s : (CacheBytes d (CacheBytes d s).2).1 = (CacheBytes d s).1.
Proof.
  destruct s as [s|]; [|by destruct d]. rewrite !CacheBytes_Some. simpl snd.
  rewrite CacheBytes_Some. apply Bytes_idem.
Qed.

(** The candidates still to be tried, against the evictable rows. *)
Record batch_ok (e : Evictor) (d : DB) (rows : list inode_row) : Prop := {
  bo_nodup : NoDup (c_id <$> rows);
  bo_rows : ∀ r, r ∈ rows → r ∈ inodes d ∧ evictable_where r;
  bo_sorted : StronglySorted access_order rows;
  bo_rest : ∀ r, evictable e d r → r ∈ rows ∨ ∀ r', r' ∈ rows → access_order r' r }.

Lemma invalidated_not_evictable r : ¬ evictable_where (invalidate_row r).
Proof. by intros (? & _). Qed.

Lemma evictable_after e d id r :
  evictable e (on_inodes (sql_update (λ r, c_id r = id) invalidate_row) d) r ↔
  evictable e d r ∧ c_id r ≠ id.
Proof.
  unfold evictable. simpl. rewrite elem_of_sql_update. split.
  - intros ((r0 & Hr0 & ->) & Hw & Hu). case_decide; [by destruct (invalidated_not_evictable _ Hw)|].
    done.
  - intros ((Hin & Hw & Hu) & Hne). split_and!; [|done..]. exists r. by rewrite decide_False.
Qed.

Lemma batch_ok_skip e d r rows :
  in_use e (c_id r) = true → batch_ok e d (r :: rows) → batch_ok e d rows.
Proof.
  intros Hu [Hnd Hrows Hs Hrest]. apply NoDup_cons in Hnd as [Hni Hnd].
  apply StronglySorted_inv in Hs as [Hs _]. split; [done| |done|].
  - intros r' Hr'. apply Hrows. by right.
  - intros r' Hr'. destruct (Hrest r' Hr') as [Hin|Hle].
    + apply elem_of_cons in Hin as [->|]; [|by left]. destruct Hr' as (_ & _ & Hr'). congruence.
    + right. intros. apply Hle. by right.
Qed.

Lemma batch_ok_evict e d r rows :
  batch_ok e d (r :: rows) →
  batch_ok e (on_inodes (sql_update (λ r', c_id r' = c_id r) invalidate_row) d) rows.
Proof.
  intros [Hnd Hrows Hs Hrest]. apply NoDup_cons in Hnd as [Hni Hnd].
  apply StronglySorted_inv in Hs as [Hs Hhd]. split; [done| |done|].
  - intros r' Hr'. destruct (Hrows r') as [Hin Hw]; [by right|]. split; [|done].
    simpl. apply elem_of_sql_update. exists r'. split; [done|]. rewrite decide_False; [done|].
    intros E. apply Hni. rewrite <- E. by apply list_elem_of_fmap_2.
  - intros r' [Hr' Hne]%evictable_after. destruct (Hrest r' Hr') as [Hin|Hle].
    + apply elem_of_cons in Hin as [->|]; [done|by left].
    + right. intros. apply Hle. by right.
Qed.

Lemma batch_ok_evicts e w r rows size s :
  batch_ok e (sw_db w) (r :: rows) → in_use e (c_id r) = false →
  store_files s = store_files (ReleaseBlob (Some (sw_db w)) (sw_store w)
                    (c_content_hash r) (c_id r)) →
  evicts e w (mkSweep
    (on_inodes (sql_update (λ r', c_id r' = c_id r) invalidate_row) (sw_db w))
    s size (sw_log w ++ [c_id r])).
Proof.
  intros [_ Hrows Hs Hrest] Hu Hst. destruct (Hrows r) as [Hin Hw]; [by left|].
  apply StronglySorted_inv in Hs as [_ Hhd]. rewrite Forall_forall in Hhd.
  apply (evicts_row _ _ _ r); try done. intros r' Hr'. destruct (Hrest r' Hr') as [Hin'|Hle].
  - apply elem_of_cons in Hin' as [->|Hin']; [done|]. by apply Hhd.
  - apply Hle. by left.
Qed.

(** Why a batch stops without evicting: the target is met, or every candidate is
    in use. *)
Lemma evict_batch_spec e target rows : ∀ progressed w,
  closed (sw_db w) = false → batch_ok e (sw_db w) rows →
  ∃ p w', evict_batch e target (collectInodes rows) progressed w = (Ok p, w') ∧
    ((p = progressed ∧ w' = w ∧
      (sw_size w ≤ target ∨ Forall (λ r, in_use e (c_id r) = true) rows)) ∨
     (p = true ∧ tc (evicts e) w w' ∧
      sw_size w' = (CacheBytes (Some (sw_db w')) (sw_store w')).1)).
Proof.
  induction rows as [|r rows IH]; intros progressed w Hc Hb.
  { exists progressed, w. simpl. split; [done|]. left. auto. }
  cbn [evict_batch collectInodes fmap list_fmap]. fold (collectInodes rows).
  case_decide as Hsz; [exists progressed, w; split; [done|]; left; auto|].
  simpl i_ID. destruct (in_use e (c_id r)) eqn:Hu.
  { destruct (IH progressed w Hc (batch_ok_skip _ _ _ _ Hu Hb)) as (p & w' & -> & Hcase).
    exists p, w'. split; [done|]. destruct Hcase as [(-> & -> & Hcase)|]; [left|by right].
    split_and!; try done. destruct Hcase; [by left|right; by constructor]. }
  rewrite evict_one_open by done. cbn [sw_db sw_store sw_size sw_log i_ID i_ContentHash scanInodeRow].
  set (d' := on_inodes _ _). set (s1 := ReleaseBlob (Some (sw_db w)) _ _ _).
  destruct (CacheBytes (Some d') s1) as [size s2] eqn:Hbytes.
  pose proof (CacheBytes_files (Some d') s1) as Hfs. rewrite Hbytes in Hfs. simpl in Hfs.
  set (w1 := mkSweep d' s2 size (sw_log w ++ [c_id r])).
  assert (evicts e w w1) as Hev by (by apply (batch_ok_evicts _ _ _ rows)).
  assert (sw_size w1 = (CacheBytes (Some (sw_db w1)) (sw_store w1)).1) as Hsize1.
  { unfold w1. cbn [sw_db sw_store sw_size]. replace s2 with (CacheBytes (Some d') s1).2 by (by rewrite Hbytes).
    by rewrite CacheBytes_idem, Hbytes. }
  destruct (IH true w1 Hc (batch_ok_evict _ _ _ _ Hb)) as (p & w' & -> & Hcase).
  exists p, w'. split; [done|]. right.
  destruct Hcase as [(-> & -> & _)|(-> & Htc & Hsize)]; split_and!; try done.
  - by apply tc_once.
  - by eapply tc_l.
Qed.

Lemma force_batch_spec e rows : ∀ progressed w,
  closed (sw_db w) = false → batch_ok e (sw_db w) rows →
  ∃ p w', force_batch e (collectInodes rows) progressed w = (Ok p, w') ∧
    ((p = progressed ∧ w' = w ∧ Forall (λ r, in_use e (c_id r) = true) rows) ∨
     (p = true ∧ tc (evicts e) w w')).
Proof.
  induction rows as [|r rows IH]; intros progressed w Hc Hb.
  { exists progressed, w. simpl. split; [done|]. left. auto. }
  cbn [force_batch collectInodes fmap list_fmap]. fold (collectInodes rows).
  simpl i_ID. destruct (in_use e (c_id r)) eqn:Hu.
  { destruct (IH progressed w Hc (batch_ok_skip _ _ _ _ Hu Hb)) as (p & w' & -> & Hcase).
    exists p, w'. split; [done|]. destruct Hcase as [(-> & -> & Hcase)|]; [left|by right].
    split_and!; try done. by constructor. }
  rewrite evict_one_open by done. cbn [sw_db sw_store sw_size sw_log i_ID i_ContentHash scanInodeRow].
  match goal with |- context [force_batch _ _ true ?x] => set (w1 := x) end.
  assert (evicts e w w1) as Hev by (by apply (batch_ok_evicts _ _ _ rows)).
  destruct (IH true w1 Hc (batch_ok_evict _ _ _ _ Hb)) as (p & w' & -> & Hcase).
  exists p, w'. split; [done|]. right.
  destruct Hcase as [(-> & -> & _)|(-> & Htc)]; split_and!; try done.
  - by apply tc_once.
  - by eapply tc_l.
Qed.

(** The candidates the query returns form a batch. *)
Definition candidate_rows (d : DB) : list inode_row :=
  take evictionBatchSize (sql_order_by access_order (sql_select evictable_where (inodes d))).

Lemma LRU_rows d :
  closed d = false → LRUEvictionCandidates evictionBatchSize d = Ok (collectInodes (candidate_rows d)).
Proof. intros. unfold LRUEvictionCandidates. by rewrite query_open. Qed.

#[local] Instance access_order_total : Total access_order.
Proof. intros x y. unfold access_order. lia. Qed.
#[local] Instance access_order_trans : Transitive access_order.
Proof. intros x y z. unfold access_order. lia. Qed.

Lemma candidate_rows_batch e d :
  NoDup (c_id <$> inodes d) → batch_ok e d (candidate_rows d).
Proof.
  intros Hnd. unfold candidate_rows. set (all := sql_order_by _ _).
  assert (∀ r, r ∈ all ↔ evictable_where r ∧ r ∈ inodes d) as Hall.
  { intros r. unfold all. by rewrite elem_of_sql_order_by, elem_of_sql_select. }
  assert (StronglySorted access_order all) as Hsorted by (apply (StronglySorted_merge_sort access_order); apply _).
  assert (NoDup (c_id <$> all)) as Hnda.
  { unfold all. rewrite sql_order_by_Permutation. unfold sql_select.
    eapply sublist_NoDup; [exact Hnd|]. apply fmap_sublist, sublist_filter. }
  split.
  - rewrite <- (take_drop evictionBatchSize all), fmap_app in Hnda. by apply NoDup_app in Hnda as [].
  - intros r Hr. assert (r ∈ all) as Hin by (apply elem_of_take in Hr as (i & Hi & _); by eapply list_elem_of_lookup_2). apply Hall in Hin. naive_solver.
  - rewrite <- (take_drop evictionBatchSize all) in Hsorted.
    by apply StronglySorted_app in Hsorted as (_ & ? & _).
  - intros r (Hin & Hw & _). assert (r ∈ all) as Hr by (by apply Hall).
    rewrite <- (take_drop evictionBatchSize all) in Hr, Hsorted.
    apply elem_of_app in Hr as [Hr|Hr]; [by left|right]. intros r' Hr'.
    apply StronglySorted_app in Hsorted as (Hx & _ & _). by apply Hx.
Qed.

(** ** Termination *)

Lemma filter_update_lt (P Q : inode_row → Prop) `{∀ r, Decision (P r), ∀ r, Decision (Q r)} f
    (t : list inode_row) r :
  (∀ x, ¬ Q (f x)) → r ∈ t → P r → Q r →
  (length (filter Q (sql_update P f t)) < length (filter Q t))%nat.
Proof.
  intros Hf. assert (∀ t, length (filter Q (sql_update P f t)) ≤ length (filter Q t))%nat as Hle.
  { clear r. induction t0 as [|x t0 IH]; [done|]. cbn [sql_update fmap list_fmap].
    fold (sql_update P f t0). rewrite !filter_cons.
    destruct (decide (P x)); [rewrite (decide_False (P := Q (f x))) by apply Hf|];
      destruct (decide (Q x)); simpl; lia. }
  induction t as [|x t IH]; intros Hin HP HQ; [by apply elem_of_nil in Hin|].
  cbn [sql_update fmap list_fmap]. fold (sql_update P f t). rewrite !filter_cons.
  specialize (Hle t).
  apply elem_of_cons in Hin as [<-|Hin].
  - rewrite (decide_True (P := P r)), (decide_False (P := Q (f r))), (decide_True (P := Q r)) by auto.
    simpl. lia.
  - specialize (IH Hin HP HQ).
    destruct (decide (P x)); [rewrite (decide_False (P := Q (f x))) by apply Hf|];
      destruct (decide (Q x)); simpl; lia.
Qed.

Definition n_evictable (d : DB) : nat := length (sql_select evictable_where (inodes d)).

Lemma evicts_fewer e w w' : evicts e w w' → (n_evictable (sw_db w') < n_evictable (sw_db w))%nat.
Proof.
  intros [r (Hin & Hw & _) _ Hdb _ _]. rewrite Hdb. unfold n_evictable, sql_select. simpl.
  apply filter_update_lt with r; try done. apply invalidated_not_evictable.
Qed.

Lemma evicts_frame e w w' :
  evicts e w w' → closed (sw_db w') = closed (sw_db w) ∧
  c_id <$> inodes (sw_db w') = c_id <$> inodes (sw_db w).
Proof.
  intros [r _ _ -> _ _]. split; [done|]. by apply sql_update_key.
Qed.

Lemma evicts_rtc_frame e w w' :
  rtc (evicts e) w w' → closed (sw_db w') = closed (sw_db w) ∧
  c_id <$> inodes (sw_db w') = c_id <$> inodes (sw_db w).
Proof.
  induction 1 as [|w1 w2 w3 H _ [IH1 IH2]]; [done|].
  apply evicts_frame in H as [H1 H2]. by rewrite IH1, IH2.
Qed.

Lemma evicts_tc_fewer e w w' :
  tc (evicts e) w w' → (n_evictable (sw_db w') < n_evictable (sw_db w))%nat.
Proof. induction 1 as [? ? H|? ? ? H _ IH]; apply evicts_fewer in H; lia. Qed.

Lemma candidates_nil e d :
  length (collectInodes (candidate_rows d)) = 0%nat → Forall (λ r, in_use e (c_id r) = true) (candidate_rows d).
Proof. unfold collectInodes. rewrite length_fmap. intros ->%nil_length_inv. constructor. Qed.

Definition size_ok (w : sweep) : Prop :=
  sw_size w = (CacheBytes (Some (sw_db w)) (sw_store w)).1.

Definition all_in_use (e : Evictor) (d : DB) : Prop :=
  Forall (λ r, in_use e (c_id r) = true) (candidate_rows d).

Lemma evict_loop_spec fuel e target : ∀ w,
  closed (sw_db w) = false → NoDup (c_id <$> inodes (sw_db w)) → size_ok w →
  (n_evictable (sw_db w) < fuel)%nat →
  ∃ w', evict_loop fuel e target w = (Ok tt, w') ∧ rtc (evicts e) w w' ∧ size_ok w' ∧
    (sw_size w' ≤ target ∨ all_in_use e (sw_db w')).
Proof.
  induction fuel as [|fuel IH]; intros w Hc Hnd Hsz Hf; [lia|].
  cbn [evict_loop]. case_decide as Hlt; [|exists w; split_and!; [done|by constructor|done|left; lia]].
  rewrite LRU_rows by done. case_decide as Hnil.
  { exists w. split_and!; [done|by constructor|done|right]. by apply candidates_nil. }
  destruct (evict_batch_spec e target (candidate_rows (sw_db w)) false w Hc
    (candidate_rows_batch e _ Hnd)) as (p & w1 & -> & [(-> & -> & Hstop)|(-> & Htc & Hsz1)]).
  - exists w. split_and!; [done|by constructor|done|]. destruct Hstop; [lia|by right].
  - pose proof (tc_rtc _ _ Htc) as Hr. destruct (evicts_rtc_frame _ _ _ Hr) as [Hc1 Hid1].
    apply evicts_tc_fewer in Htc.
    destruct (IH w1) as (w' & -> & Hr' & ?); [by rewrite Hc1|by rewrite Hid1|done|lia|].
    exists w'. split; [done|]. split; [by etrans|done].
Qed.

Lemma force_loop_spec fuel e : ∀ w,
  closed (sw_db w) = false → NoDup (c_id <$> inodes (sw_db w)) →
  (n_evictable (sw_db w) < fuel)%nat →
  ∃ w', force_loop fuel e w = (Ok tt, w') ∧ rtc (evicts e) w w' ∧ all_in_use e (sw_db w').
Proof.
  induction fuel as [|fuel IH]; intros w Hc Hnd Hf; [lia|]. cbn [force_loop].
  rewrite LRU_rows by done. case_decide as Hnil.
  { exists w. split_and!; [done|by constructor|]. by apply candidates_nil. }
  destruct (force_batch_spec e (candidate_rows (sw_db w)) false w Hc
    (candidate_rows_batch e _ Hnd)) as (p & w1 & -> & [(-> & -> & Hstop)|(-> & Htc)]).
  - exists w. by split_and!; [|constructor|].
  - pose proof (tc_rtc _ _ Htc) as Hr. destruct (evicts_rtc_frame _ _ _ Hr) as [Hc1 Hid1].
    apply evicts_tc_fewer in Htc.
    destruct (IH w1) as (w' & -> & Hr' & ?); [by rewrite Hc1|by rewrite Hid1|lia|].
    exists w'. split; [done|]. split; [by etrans|done].
Qed.

Lemma n_evictable_fuel d : (n_evictable d < evict_fuel d)%nat.
Proof.
  unfold n_evictable, evict_fuel, sql_select.
  pose proof (length_filter evictable_where (inodes d)). lia.
Qed.

(** ** Which blobs a release removes *)

(** No cached row other than [id] refers to [hash]. *)
Definition unreferenced (d : DB) (hash : string) (id : Z) : Prop :=
  Forall (λ r, ¬ (c_content_hash r = hash ∧ c_cached r = true ∧ c_id r ≠ id)) (inodes d).

Lemma Remove_files hash s :
  files (Remove hash s).2 = if decide (hash = "") then files s else delete (pathFor hash) (files s).
Proof.
  unfold Remove, remove_sys. case_decide; [done|]. simpl.
  destruct (files s !! pathFor hash) eqn:E; [done|]. simpl. by rewrite delete_id.
Qed.

Lemma ReleaseBlob_lookup d s hash id p :
  closed d = false →
  store_files (ReleaseBlob (Some d) s hash id) !! p =
  if decide (hash ≠ "" ∧ p = pathFor hash ∧ unreferenced d hash id) then None
  else store_files s !! p.
Proof.
  intros Hc. destruct s as [s|]; simpl; [|by case_decide].
  destruct (decide (hash = "")) as [->|Hne]; [by rewrite decide_False by naive_solver|].
  unfold CountCachedByHash. rewrite query_open by done.
  set (P := λ r, c_content_hash r = hash ∧ c_cached r = true ∧ c_id r ≠ id).
  pose proof (sql_count_zero P (inodes d)) as Hz. fold (unreferenced d hash id) in Hz.
  change (Forall (λ r, ¬ P r) (inodes d)) with (unreferenced d hash id) in Hz.
  destruct (decide (0 < sql_count P (inodes d))%nat).
  - rewrite decide_False; [done|]. intros (_ & _ & Hu%Hz). lia.
  - simpl. rewrite Remove_files, decide_False, lookup_delete by done.
    assert (unreferenced d hash id) as Hu by (apply Hz; lia).
    destruct (decide (pathFor hash = p)) as [<-|]; [by rewrite decide_True|].
    by rewrite decide_False by naive_solver.
Qed.

(** The content hashes of cached rows are empty or name a blob. *)
Definition hashes_ok (d : DB) : Prop :=
  ∀ r, r ∈ inodes d → c_cached r = true → c_content_hash r = "" ∨ proper_hash (c_content_hash r).

(** ** The effect of a whole sweep *)

Record swept (e : Evictor) (d : DB) (s : option Store) (w : sweep) : Prop := {
  (** Exactly the evicted rows change, and only as [InvalidateCache] says. *)
  sp_db : sw_db w = on_inodes (sql_update (λ r, c_id r ∈ sw_log w) invalidate_row) d;
  (** Each evicted inode was cached, clean, unpinned and not in use. *)
  sp_log : ∀ id, id ∈ sw_log w → ∃ r, evictable e d r ∧ c_id r = id;
  sp_once : NoDup (sw_log w);
  (** A row evicted was accessed no later than an evictable row that was kept. *)
  sp_lru : ∀ r r', evictable e d r → c_id r ∈ sw_log w →
    evictable e d r' → c_id r' ∉ sw_log w → c_last_access r ≤ c_last_access r';
  (** The blob of every row still cached is untouched. *)
  sp_kept : hashes_ok d → ∀ r, r ∈ inodes (sw_db w) → c_cached r = true → c_content_hash r ≠ "" →
    store_files (sw_store w) !! pathFor (c_content_hash r)
    = store_files s !! pathFor (c_content_hash r);
  (** The blob of an evicted row is gone unless a cached row still refers to it. *)
  sp_freed : ∀ r, r ∈ inodes d → c_id r ∈ sw_log w → c_content_hash r ≠ "" →
    (∃ r', r' ∈ inodes (sw_db w) ∧ c_cached r' = true ∧ c_content_hash r' = c_content_hash r) ∨
    store_files (sw_store w) !! pathFor (c_content_hash r) = None }.

Lemma evictable_update e d (ids : list Z) r :
  evictable e (on_inodes (sql_update (λ r, c_id r ∈ ids) invalidate_row) d) r ↔
  evictable e d r ∧ c_id r ∉ ids.
Proof.
  unfold evictable. simpl. rewrite elem_of_sql_update. split.
  - intros ((r0 & Hr0 & ->) & Hw & Hu). case_decide; [by destruct (invalidated_not_evictable _ Hw)|].
    done.
  - intros ((Hin & Hw & Hu) & Hne). split_and!; [|done..]. exists r. by rewrite decide_False.
Qed.

Lemma update_snoc (ids : list Z) id d :
  on_inodes (sql_update (λ r, c_id r = id) invalidate_row)
    (on_inodes (sql_update (λ r, c_id r ∈ ids) invalidate_row) d) =
  on_inodes (sql_update (λ r, c_id r ∈ ids ++ [id]) invalidate_row) d.
Proof.
  unfold on_inodes. simpl. enough (sql_update (λ r, c_id r = id) invalidate_row
    (sql_update (λ r, c_id r ∈ ids) invalidate_row (inodes d)) =
    sql_update (λ r, c_id r ∈ ids ++ [id]) invalidate_row (inodes d)) as -> by done.
  unfold sql_update. rewrite <- list_fmap_compose.
  apply list_fmap_ext. intros _ r _. simpl.
  assert (c_id r ∈ ids ++ [id] ↔ c_id r ∈ ids ∨ c_id r = id) as Hiff
    by (rewrite elem_of_app, list_elem_of_singleton; done).
  destruct (decide (c_id r ∈ ids)) as [Hin|Hni].
  - rewrite (decide_True (P := c_id r ∈ ids ++ [id])) by naive_solver. by case_decide.
  - destruct (decide (c_id r = id)).
    + by rewrite (decide_True (P := c_id r ∈ ids ++ [id])) by naive_solver.
    + by rewrite (decide_False (P := c_id r ∈ ids ++ [id])) by naive_solver.
Qed.

(** A cached row of the swept database is a row of the original one. *)
Lemma cached_after (ids : list Z) d r :
  r ∈ inodes (on_inodes (sql_update (λ r, c_id r ∈ ids) invalidate_row) d) →
  c_cached r = true → r ∈ inodes d ∧ c_id r ∉ ids.
Proof.
  simpl. intros (r0 & Hr0 & ->)%elem_of_sql_update. by case_decide.
Qed.

Lemma swept_refl e d s size : swept e d s (mkSweep d s size []).
Proof.
  split; simpl; try (intros; by match goal with H : _ ∈ [] |- _ => apply elem_of_nil in H end).
  - unfold on_inodes. assert (sql_update (λ r, c_id r ∈ []) invalidate_row (inodes d) = inodes d) as ->.
    { apply sql_update_id, Forall_forall. intros r _ ?%elem_of_nil. done. }
    by destruct d.
  - apply NoDup_nil_2.
  - done.
Qed.

Section snoc.
Context (e : Evictor) (d : DB) (s : option Store) (w w' : sweep).
Context (Hc : closed d = false) (Hnd : NoDup (c_id <$> inodes d)).
Context (Hsw : swept e d s w) (r : inode_row).
Context (Hr : evictable e (sw_db w) r)
  (Hold : ∀ r', evictable e (sw_db w) r' → c_last_access r ≤ c_last_access r')
  (Hdb : sw_db w' = on_inodes (sql_update (λ r', c_id r' = c_id r) invalidate_row) (sw_db w))
  (Hst : store_files (sw_store w') = store_files (ReleaseBlob (Some (sw_db w)) (sw_store w)
                                       (c_content_hash r) (c_id r)))
  (Hlog : sw_log w' = sw_log w ++ [c_id r]).

Lemma snoc_db : sw_db w' = on_inodes (sql_update (λ r, c_id r ∈ sw_log w') invalidate_row) d.
Proof using Hdb Hlog Hsw. by rewrite Hdb, (sp_db _ _ _ _ Hsw), update_snoc, <- Hlog. Qed.

Lemma snoc_new : evictable e d r ∧ c_id r ∉ sw_log w.
Proof using Hr Hsw.
  pose proof Hr as Hr'. rewrite (sp_db _ _ _ _ Hsw) in Hr'. by apply evictable_update in Hr'.
Qed.

Lemma snoc_elem id : id ∈ sw_log w' ↔ id ∈ sw_log w ∨ id = c_id r.
Proof using Hlog. rewrite Hlog, elem_of_app, list_elem_of_singleton. done. Qed.

Lemma snoc_lru r1 r2 :
  evictable e d r1 → c_id r1 ∈ sw_log w' → evictable e d r2 → c_id r2 ∉ sw_log w' →
  c_last_access r1 ≤ c_last_access r2.
Proof using All.
  intros H1 Hin1 H2 Hin2. rewrite snoc_elem in Hin1, Hin2. destruct snoc_new as [Hrd Hrn].
  destruct Hin1 as [Hin1|Heq].
  - apply (sp_lru _ _ _ _ Hsw); auto.
  - assert (r1 = r) as ->.
    { apply (keyed_eq c_id (inodes d)); [done|by destruct H1|by destruct Hrd|done]. }
    apply Hold. rewrite (sp_db _ _ _ _ Hsw). apply evictable_update. auto.
Qed.

Lemma snoc_closed : closed (sw_db w) = false.
Proof using Hc Hsw. rewrite (sp_db _ _ _ _ Hsw). done. Qed.

Lemma snoc_kept :
  hashes_ok d → ∀ r', r' ∈ inodes (sw_db w') → c_cached r' = true → c_content_hash r' ≠ "" →
  store_files (sw_store w') !! pathFor (c_content_hash r')
  = store_files s !! pathFor (c_content_hash r').
Proof using All.
  intros Hh r' Hin Hca Hne. rewrite Hst, ReleaseBlob_lookup by apply snoc_closed.
  rewrite Hdb in Hin. destruct (proj1 (elem_of_sql_update _ _ _ _) Hin) as (r0 & Hr0 & Heq).
  destruct (decide (c_id r0 = c_id r)) as [Hid|Hid]; subst r'; [done|].
  rewrite <- (sp_kept _ _ _ _ Hsw Hh r0) by done.
  rewrite decide_False; [done|]. intros (Hne' & Hp & Hu).
  pose proof Hr0 as Hr0'. rewrite (sp_db _ _ _ _ Hsw) in Hr0'.
  apply cached_after in Hr0' as [Hr0d _]; [|done].
  destruct snoc_new as [(Hrd & (Hrc & _) & _) _].
  apply pathFor_inj in Hp.
  - unfold unreferenced in Hu. rewrite Forall_forall in Hu. by apply (Hu r0).
  - destruct (Hh r0 Hr0d Hca); done.
  - destruct (Hh r Hrd Hrc); done.
Qed.

Lemma snoc_freed r0 :
  r0 ∈ inodes d → c_id r0 ∈ sw_log w' → c_content_hash r0 ≠ "" →
  (∃ r', r' ∈ inodes (sw_db w') ∧ c_cached r' = true ∧ c_content_hash r' = c_content_hash r0) ∨
  store_files (sw_store w') !! pathFor (c_content_hash r0) = None.
Proof using All.
  intros Hin Hlg Hne. rewrite Hst, ReleaseBlob_lookup by apply snoc_closed.
  set (h := c_content_hash r0) in *. set (Q := _ ∧ _ ∧ unreferenced _ _ _).
  destruct (decide Q) as [HQ|HQ]; [by right|].
  assert (∀ r', r' ∈ inodes (sw_db w) → c_cached r' = true → c_content_hash r' = h →
            c_id r' ≠ c_id r → ∃ r', r' ∈ inodes (sw_db w') ∧ c_cached r' = true ∧
                                      c_content_hash r' = h) as Hother.
  { intros r' Hr' ? ? ?. exists r'. split; [|done]. rewrite Hdb.
    by apply elem_of_sql_update_ne. }
  (* the hash is still referred to before the step, or its blob is gone *)
  assert ((∃ r', r' ∈ inodes (sw_db w) ∧ c_cached r' = true ∧ c_content_hash r' = h) ∨
          store_files (sw_store w) !! pathFor h = None) as [(r' & Hr' & Hca & Hh)|]; [| |by right].
  { apply snoc_elem in Hlg as [Hlg|Heq]; [by apply (sp_freed _ _ _ _ Hsw)|]. left.
    destruct snoc_new as [(Hrd & _) _].
    assert (r0 = r) as -> by (by apply (keyed_eq c_id (inodes d))).
    exists r. by destruct Hr as (? & (? & _) & _). }
  destruct (decide (c_id r' = c_id r)) as [Heq|]; [|left; eauto].
  assert (r' = r) as ->.
  { apply (keyed_eq c_id (inodes (sw_db w))); [|done|by destruct Hr|done].
    rewrite (sp_db _ _ _ _ Hsw). simpl. by rewrite sql_update_key. }
  left. destruct (decide (unreferenced (sw_db w) h (c_id r))) as [Hu|Hu].
  - destruct HQ. unfold Q. by rewrite Hh.
  - unfold unreferenced in Hu. apply not_Forall_Exists in Hu; [|apply _].
    apply Exists_exists in Hu as (x & Hx & Hn). apply dec_stable in Hn as (? & ? & ?). eauto.
Qed.
End snoc.

Lemma swept_snoc e d s w w' :
  closed d = false → NoDup (c_id <$> inodes d) → swept e d s w → evicts e w w' → swept e d s w'.
Proof.
  intros Hc Hnd Hsw [r Hr Hold Hdb Hst Hlog].
  destruct (snoc_new e d s w Hsw r Hr) as [Hrd Hrn]. split.
  - by eapply snoc_db.
  - intros id [Hin| ->]%(snoc_elem w w' r Hlog); [by apply (sp_log _ _ _ _ Hsw)|by exists r].
  - rewrite Hlog. apply NoDup_app. split_and!; [apply (sp_once _ _ _ _ Hsw)| |apply NoDup_singleton].
    by intros id Hid ->%list_elem_of_singleton.
  - by eapply snoc_lru.
  - by eapply snoc_kept.
  - by eapply snoc_freed.
Qed.

Lemma swept_rtc e d s w w' :
  closed d = false → NoDup (c_id <$> inodes d) → swept e d s w → rtc (evicts e) w w' →
  swept e d s w'.
Proof. induction 4; [done|]. eauto using swept_snoc. Qed.

Lemma size_ok_initial d s : size_ok (mkSweep d (CacheBytes (Some d) s).2 (CacheBytes (Some d) s).1 []).
Proof. unfold size_ok. cbn [sw_size sw_db sw_store]. by rewrite CacheBytes_idem. Qed.

Lemma swept_store e d s s' w :
  store_files s = store_files s' → swept e d s w → swept e d s' w.
Proof. intros E [H1 H2 H3 H4 H5 H6]. split; try done. by rewrite <- E. Qed.

(** A run is a sequence of evictions, each of one row. *)
Lemma RunIfNeeded_evicts e d s :
  closed d = false → NoDup (c_id <$> inodes d) →
  ∃ s1 w, RunIfNeeded e d s = (Ok tt, w) ∧ store_files s1 = store_files s ∧ size_ok w ∧
    let w0 := mkSweep d s1 (CacheBytes (Some d) s).1 [] in
    rtc (evicts e) w0 w ∧
    ((CacheBytes (Some d) s).1 ≤ maxSize e ∧ w = w0 ∨
     sw_size w ≤ targetSize (maxSize e) ∨ all_in_use e (sw_db w)).
Proof.
  intros Hc Hnd. unfold RunIfNeeded, evict.
  pose proof (CacheBytes_files (Some d) s) as Hfs. pose proof (size_ok_initial d s) as Hsz.
  destruct (CacheBytes (Some d) s) as [total s1]. cbn [fst snd] in *. cbv zeta. exists s1.
  case_decide as Hle; [eexists; split_and!; [done|done|done|by constructor|by left]|].
  destruct (evict_loop_spec (evict_fuel d) e (targetSize (maxSize e)) (mkSweep d s1 total []))
    as (w & -> & Hr & Hsz' & Hend); [done..|apply n_evictable_fuel|].
  exists w. split_and!; [done..|by right].
Qed.

Lemma RunIfNeeded_db e d s :
  closed d = false → NoDup (c_id <$> inodes d) → swept e d s (RunIfNeeded e d s).2.
Proof.
  intros Hc Hnd. destruct (RunIfNeeded_evicts e d s Hc Hnd) as (s1 & w & -> & Hs & _ & Hr & _).
  eapply swept_rtc; [done|done| |exact Hr]. apply (swept_store e d s1); [done|apply swept_refl].
Qed.

(** [RunIfNeeded] terminates without error on an open database.  Afterwards
    the cache is within its limit, or has been brought down to the target, or
    every candidate the database offers is in use.  What it did is exactly
    [swept]: only clean, unpinned, unused cached inodes were emptied, each once
    and least recently used first; the blob of every inode still cached is
    untouched, and the blob of an emptied one is gone unless still shared. *)
Theorem RunIfNeeded_swept e d s :
  closed d = false → NoDup (c_id <$> inodes d) →
  ∃ w, RunIfNeeded e d s = (Ok tt, w) ∧ swept e d s w ∧
    let size := (CacheBytes (Some (sw_db w)) (sw_store w)).1 in
    ((CacheBytes (Some d) s).1 ≤ maxSize e ∧ sw_db w = d ∧ sw_log w = []) ∨
    size ≤ targetSize (maxSize e) ∨ all_in_use e (sw_db w).
Proof.
  intros Hc Hnd. destruct (RunIfNeeded_evicts e d s Hc Hnd) as (s1 & w & Hrun & _ & Hsz & _ & Hend).
  exists w. split; [done|]. split; [by pose proof (RunIfNeeded_db e d s Hc Hnd) as Hsw; rewrite Hrun in Hsw|].
  cbv zeta. unfold size_ok in Hsz. rewrite <- Hsz. destruct Hend as [[? ->]|?]; [by left|by right].
Qed.

(** [ForceEvict] terminates without error on an open database, with no
    candidate left but those in use, and did exactly what [swept] says. *)
Theorem ForceEvict_swept e d s :
  closed d = false → NoDup (c_id <$> inodes d) →
  ∃ w, ForceEvict e d s = (Ok tt, w) ∧ swept e d s w ∧ all_in_use e (sw_db w).
Proof.
  intros Hc Hnd. unfold ForceEvict.
  destruct (force_loop_spec (evict_fuel d) e (mkSweep d s 0 [])) as (w & -> & Hr & Hend);
    [done..|apply n_evictable_fuel|].
  exists w. split; [done|]. split; [|done]. eapply swept_rtc; try done. apply swept_refl.
Qed.

(** ** Orphan collection *)

Lemma NoDup_omap {A B} (f : A → option B) (l : list A) :
  NoDup l → (∀ x y z, x ∈ l → y ∈ l → f x = Some z → f y = Some z → x = y) → NoDup (omap f l).
Proof.
  induction 1 as [|x l Hni Hnd IH]; intros Hinj; [by apply NoDup_nil_2|].
  assert (NoDup (omap f l)) as Hl.
  { apply IH. intros y1 y2 z H1 H2. apply Hinj; by right. }
  cbn [omap list_omap]. destruct (f x) as [z|] eqn:E; [|done]. apply NoDup_cons. split; [|done].
  intros (y & Hy & Hz)%list_elem_of_omap. apply Hni.
  rewrite (Hinj x y z); [done|by left|by right|done..].
Qed.

Section orphans.
Context `{AL : !AEADLaws A, SL : !Sha256Laws SH, CS : ChunkSize}.

Lemma elem_of_ListHashes s h :
  paths_ok s → h ∈ ListHashes s ↔ proper_hash h ∧ is_Some (files s !! pathFor h).
Proof using Type.
  intros Hp. unfold ListHashes, shard_entries. rewrite list_elem_of_omap.
  split.
  - intros ([[dir n] f] & Hin & Heq). apply list_elem_of_omap in Hin as ([p f'] & Hin & Hp').
    apply elem_of_map_to_list in Hin. destruct p as [|dir' n']; simplify_eq.
    destruct (IsTempName n) eqn:Ht; simplify_eq.
    destruct (Hp (InShard dir n)) as [(h' & Hh' & Hpath)|(? & ? & ? & ?)]; [by exists f| |simplify_eq; congruence].
    destruct (pathFor_proper h' Hh') as (a & b & t & -> & Hpf & _). rewrite Hpf in Hpath.
    injection Hpath as -> ->. split; [done|].
    change (String.append _ t) with (String.String a (String.String b t)). rewrite Hpf. by exists f.
  - intros [Hh [f Hf]]. destruct (pathFor_proper h Hh) as (a & b & t & -> & Hpf & Ht).
    rewrite Hpf in Hf. eexists (_, t, f). split.
    + apply list_elem_of_omap. eexists (InShard _ t, f). split; [by apply elem_of_map_to_list|done].
    + simpl. by rewrite Ht.
Qed.

Lemma shard_proper s d n f :
  paths_ok s → files s !! InShard d n = Some f → IsTempName n = false →
  String.length d = 2%nat.
Proof using Type.
  intros Hp Hf Ht. destruct (Hp (InShard d n)) as [(h & Hh & Hpath)|(? & ? & ? & ?)];
    [by exists f| |simplify_eq; congruence].
  destruct (pathFor_proper h Hh) as (a & b & t & -> & Hpf & _). rewrite Hpf in Hpath.
  by injection Hpath as -> ->.
Qed.

Lemma NoDup_ListHashes s : paths_ok s → NoDup (ListHashes s).
Proof using Type.
  intros Hp. unfold ListHashes, shard_entries. apply NoDup_omap.
  - apply NoDup_omap; [apply NoDup_map_to_list|].
    intros [[|d1 n1] f1] [[|d2 n2] f2] z _ _ ??; simplify_eq. done.
  - intros [[d1 n1] f1] [[d2 n2] f2] z H1 H2 E1 E2.
    apply list_elem_of_omap in H1 as ([[|? ?] ?] & H1%elem_of_map_to_list & ?); simplify_eq.
    apply list_elem_of_omap in H2 as ([[|? ?] ?] & H2%elem_of_map_to_list & ?); simplify_eq.
    destruct (IsTempName n1) eqn:T1; simplify_eq. destruct (IsTempName n2) eqn:T2; simplify_eq.
    pose proof (shard_proper _ _ _ _ Hp H1 T1). pose proof (shard_proper _ _ _ _ Hp H2 T2).
    destruct (append_inj_length d2 d1 n2 n1) as [-> ->]; [congruence|done|]. congruence.
Qed.

Lemma gc_blobs_spec refd hashes : ∀ n s,
  store_inv s → Forall proper_hash hashes → NoDup hashes →
  (∀ h, h ∈ hashes → is_Some (files s !! pathFor h)) →
  let '(n', s') := gc_blobs refd hashes n s in
  store_inv s' ∧ n' = (n + length (filter (λ h, h ∉ refd) hashes))%nat ∧
  (∀ h, proper_hash h → files s' !! pathFor h =
     if decide (h ∈ hashes ∧ h ∉ refd) then None else files s !! pathFor h) ∧
  (∀ d t, IsTempName t = true → files s' !! InShard d t = files s !! InShard d t).
Proof using AL SL.
  induction hashes as [|h hashes IH]; intros n s Hinv Hp Hnd Hin; simpl.
  { split_and!; [done|lia|done|done]. }
  apply Forall_cons in Hp as [Hh Hp]. apply NoDup_cons in Hnd as [Hni Hnd].
  destruct (decide (h ∈ refd)) as [Href|Href].
  { rewrite filter_cons_False by naive_solver. specialize (IH n s Hinv Hp Hnd (λ h' H, Hin h' (list_elem_of_further _ _ _ H))).
    destruct (gc_blobs _ _ _ _) as [n' s'].
    destruct IH as (? & ? & IH & ?). split_and!; try done. intros h' Hh'. rewrite IH by done.
    f_equal. apply decide_ext. rewrite elem_of_cons. naive_solver. }
  rewrite filter_cons_True by done. destruct (Hin h) as [f Hf]; [by left|].
  assert (h ≠ "") as Hne by (intros ->; destruct Hh; simpl in *; lia).
  pose proof (Remove_inv h s (or_intror Hh) Hinv) as Hinv1.
  pose proof (Remove_files h s) as Hfs. rewrite decide_False in Hfs by done.
  assert (is_ok (Remove h s).1 = true) as Hok.
  { unfold Remove, remove_sys. rewrite decide_False by done. simpl. by rewrite Hf. }
  destruct (Remove h s) as [res s1]. simpl in *. rewrite Hok.
  assert (∀ h', proper_hash h' → h' ≠ h → files s1 !! pathFor h' = files s !! pathFor h') as Hoth.
  { intros h' Hh' ?. rewrite Hfs, lookup_delete_ne; [done|]. by intros ?%pathFor_inj. }
  specialize (IH (S n) s1 Hinv1 Hp Hnd). rewrite Forall_forall in Hp.
  destruct (gc_blobs _ _ _ _) as [n' s']. destruct IH as (? & -> & IH & IHt).
  { intros h' Hh'. rewrite Hoth; [apply Hin; by right|by apply Hp|]. by intros ->. }
  split_and!; [done|simpl; lia| |].
  2: { intros d t Ht. rewrite IHt, Hfs, lookup_delete_ne; [done| |done]. intros Hp'.
       destruct (pathFor_proper h Hh) as (? & ? & ? & ? & Hpf & ?). congruence. }
  intros h' Hh'. rewrite IH by done.
  destruct (decide (h' = h)) as [->|].
  - rewrite (decide_True (P := h ∈ h :: hashes ∧ _)) by (split; [by left|done]).
    rewrite Hfs, lookup_delete_eq. by case_decide.
  - rewrite Hoth by done. f_equal. apply decide_ext. rewrite elem_of_cons. naive_solver.
Qed.

(** [h] is the hash of a cached inode. *)
Definition referenced (d : DB) (h : string) : Prop :=
  ∃ r, r ∈ inodes d ∧ c_cached r = true ∧ c_content_hash r = h ∧ h ≠ "".

(** One orphan collection over an open database and a reachable store: the
    blobs left are exactly the stored ones some cached inode refers to, each
    with its content untouched; of the temp files exactly those modified within
    the grace period are left; the counts returned are those of the blobs and
    temp files removed; and the store invariant (byte counter included) holds
    again. *)
Theorem GCOrphans_spec d s now :
  closed d = false → store_inv s →
  ∃ (refd : gset string) blobs temps s', GCOrphans d s now = (Ok (mkGCSweep blobs temps), s') ∧
    store_inv s' ∧
    (∀ h, h ∈ refd ↔ referenced d h) ∧
    (∀ h, proper_hash h →
       files s' !! pathFor h = if decide (h ∈ refd) then files s !! pathFor h else None) ∧
    (∀ dir t f, IsTempName t = true → files s' !! InShard dir t = Some f ↔
       files s !! InShard dir t = Some f ∧ now - tempFileGrace < modTime f) ∧
    blobs = length (filter (λ h, h ∉ refd) (ListHashes s)) ∧
    temps = size (filter (λ '(p, f), gc_victim (now - tempFileGrace) p f = true) (files s)).
Proof using AL SL.
  intros Hc Hinv. pose proof (si_paths _ Hinv) as Hp.
  unfold GCOrphans, AllCachedHashes. rewrite query_open by done. set (refd := list_to_set _).
  pose proof (gc_blobs_spec refd (ListHashes s) 0 s Hinv) as Hg.
  destruct (gc_blobs _ _ _ _) as [blobs s1]. destruct Hg as (Hinv1 & -> & Hfs & Htmp).
  { apply Forall_forall. by intros h [? _]%elem_of_ListHashes. }
  { by apply NoDup_ListHashes. }
  { by intros h [_ ?]%elem_of_ListHashes. }
  pose proof (GCTempFiles_inv tempFileGrace now s1 Hinv1) as Hinv2.
  exists refd. do 3 eexists. split; [reflexivity|]. split; [exact Hinv2|]. split_and!; simpl.
  - intros h. unfold refd. rewrite elem_of_list_to_set, list_elem_of_fmap.
    unfold referenced. setoid_rewrite elem_of_sql_select. naive_solver.
  - intros h Hh. rewrite map_lookup_filter, Hfs by done.
    pose proof (elem_of_ListHashes s h Hp) as HL.
    destruct (files s !! pathFor h) as [f|] eqn:E; [|by repeat case_decide].
    destruct (decide (h ∈ refd)).
    + rewrite (decide_False (P := h ∈ ListHashes s ∧ h ∉ refd)) by naive_solver. simpl.
      rewrite option_guard_True; [done|by apply gc_victim_proper].
    + rewrite (decide_True (P := h ∈ ListHashes s ∧ h ∉ refd)); [done|].
      split; [apply HL; eauto|done].
  - intros dir t f Ht. rewrite map_lookup_filter_Some, Htmp by done. simpl. rewrite Ht. simpl.
    rewrite negb_false_iff, bool_decide_eq_true. done.
  - done.
  - f_equal. apply map_eq. intros [t|dir t].
    + apply option_eq. intros f. rewrite !map_lookup_filter_Some. simpl. naive_solver.
    + destruct (IsTempName t) eqn:Ht.
      * rewrite !map_lookup_filter. by rewrite Htmp.
      * apply option_eq. intros f. rewrite !map_lookup_filter_Some. simpl. rewrite Ht. naive_solver.
Qed.
End orphans.

(** ** Clearing failed transfers *)

Definition clearable (i : Inode) : Prop :=
  ¬ (i_SyncStatus i = StatusConflict ∨ i_SyncStatus i = StatusRejected).
#[export] Instance clearable_dec i : Decision (clearable i).
Proof. unfold clearable. apply _. Defined.

Definition clear_ids (ids : list Z) (d : DB) : DB :=
  on_queue (sql_delete (λ e, w_InodeID e ∈ ids ∧ w_Action e = "upload" ∧ w_Status e = "failed"))
    (on_failures (sql_delete (λ f, f_InodeID f ∈ ids)) d).

Lemma clear_ids_cons id (ids : list Z) d : clear_ids ids (clear_ids [id] d) = clear_ids (id :: ids) d.
Proof.
  unfold clear_ids, on_queue, on_failures. simpl.
  rewrite (sql_delete_compose (λ f, f_InodeID f ∈ ids) (λ f, f_InodeID f ∈ [id])
    (λ f, f_InodeID f ∈ id :: ids)) by (intros f; rewrite !elem_of_cons; set_solver).
  rewrite (sql_delete_compose
    (λ e, w_InodeID e ∈ ids ∧ w_Action e = "upload" ∧ w_Status e = "failed")
    (λ e, w_InodeID e ∈ [id] ∧ w_Action e = "upload" ∧ w_Status e = "failed")
    (λ e, w_InodeID e ∈ id :: ids ∧ w_Action e = "upload" ∧ w_Status e = "failed"));
    [done|intros e; rewrite elem_of_cons, list_elem_of_singleton; naive_solver].
Qed.

Lemma clear_one id d :
  closed d = false →
  (DeleteFailedUploadWritebacks id (DeleteSyncFailures id d).2).2 = clear_ids [id] d.
Proof.
  intros Hc. unfold DeleteFailedUploadWritebacks, delete_queue, DeleteSyncFailures, exec_.
  rewrite (exec_open _ _ d) by done. cbn [snd]. rewrite exec_open by done. cbn [snd].
  unfold clear_ids, on_queue, on_failures, sql_delete. simpl.
  rewrite (list_filter_iff (λ r, ¬ f_InodeID r = id) (λ f, ¬ f_InodeID f ∈ [id]))
    by (intros; rewrite list_elem_of_singleton; done).
  rewrite (list_filter_iff (λ r, ¬ (w_InodeID r = id ∧ w_Action r = "upload" ∧ w_Status r = "failed"))
    (λ r, ¬ (w_InodeID r ∈ [id] ∧ w_Action r = "upload" ∧ w_Status r = "failed")))
    by (intros; rewrite list_elem_of_singleton; done).
  done.
Qed.

Lemma clear_ids_nil d : clear_ids [] d = d.
Proof.
  unfold clear_ids, on_queue, on_failures. simpl.
  rewrite (sql_delete_none (λ f, f_InodeID f ∈ [])) by (intros; apply not_elem_of_nil).
  rewrite sql_delete_none by (intros r [?%elem_of_nil _]; done). by destruct d.
Qed.

Lemma clearEach_spec candidates : ∀ d,
  closed d = false →
  clearEach candidates d =
  (filter clearable candidates, clear_ids (i_ID <$> filter clearable candidates) d).
Proof.
  induction candidates as [|i rest IH]; intros d Hc; [by rewrite clear_ids_nil|].
  cbn [clearEach]. destruct (decide (i_SyncStatus i = StatusConflict ∨ i_SyncStatus i = StatusRejected)).
  - rewrite filter_cons_False by (unfold clearable; tauto). by apply IH.
  - rewrite filter_cons_True by done. rewrite clear_one, IH by done. cbn [fmap list_fmap].
    by rewrite clear_ids_cons.
Qed.

(** A failed status, or a recorded transfer failure. *)
Definition has_failed (d : DB) (r : inode_row) : Prop :=
  c_sync_status r = StatusFailed ∨ c_id r ∈ (f_InodeID <$> sync_failures d).

Definition kinds_ok (d : DB) : Prop :=
  ∀ f, f ∈ sync_failures d → f_Kind f = FailureUpload ∨ f_Kind f = FailureDownload.

Lemma hasFailureLatch_spec d r :
  closed d = false → kinds_ok d → hasFailureLatch (scanInodeRow r) d = true ↔ has_failed d r.
Proof.
  intros Hc Hk. unfold hasFailureLatch, has_failed. simpl i_SyncStatus. simpl i_ID.
  rewrite orb_true_iff, bool_decide_eq_true, existsb_exists.
  assert (∀ kind, (match GetSyncFailure (c_id r) kind d with Ok (Some _) => true | _ => false end) = true
    ↔ ∃ f, f ∈ sync_failures d ∧ f_InodeID f = c_id r ∧ f_Kind f = kind) as Hget.
  { intros kind. unfold GetSyncFailure. rewrite query_open by done.
    destruct (sql_first _ _) as [f|] eqn:E.
    - apply sql_first_Some in E as [[? ?] ?]. split; [eauto|done].
    - apply sql_first_None in E. rewrite Forall_forall in E.
      split; [done|]. intros (f & Hf & ? & ?). by destruct (E f Hf). }
  setoid_rewrite Hget. rewrite list_elem_of_fmap. split.
  - intros [?|(k & _ & f & Hf & <- & _)]; [by left|right; eauto].
  - intros [?|(f & Hid & Hf)]; [by left|right]. exists (f_Kind f).
    split; [|by exists f]. destruct (Hk f Hf) as [->| ->]; [by left|by right; left].
Qed.

(** Clearing failed transfers, of one path or (for the empty path) of all:
    the inodes returned are exactly those in scope with a failed status or a
    recorded failure whose status is neither conflict nor rejected; for them,
    and for no other inode, the recorded failures and the failed upload entries
    are deleted.  Nothing else changes. *)
Theorem ClearFailedTransfers_spec path d :
  closed d = false → db_wf d → kinds_ok d →
  ∃ cleared, ClearFailedTransfers path d = (Ok cleared, clear_ids (i_ID <$> cleared) d) ∧
    ∀ i, i ∈ cleared ↔ ∃ r, r ∈ inodes d ∧ i = scanInodeRow r ∧
      (path = "" ∨ c_remote_path r = path) ∧ has_failed d r ∧ clearable i.
Proof.
  intros Hc Hwf Hk. unfold ClearFailedTransfers. case_decide as Hp.
  - unfold InodesWithFailures. rewrite query_open, clearEach_spec by done.
    eexists. split; [reflexivity|]. intros i. unfold collectInodes.
    rewrite list_elem_of_filter, list_elem_of_fmap.
    setoid_rewrite elem_of_sql_order_by. setoid_rewrite elem_of_sql_select.
    unfold has_failed. naive_solver.
  - destruct (GetInodeByPath path d) as [i|err] eqn:E.
    + apply GetInodeByPath_Ok in E as (r & Hr & Hpath & ->); [|done..].
      pose proof (hasFailureLatch_spec d r Hc Hk) as Hl.
      assert (∀ r', r' ∈ inodes d → c_remote_path r' = path → r' = r) as Huniq.
      { intros. apply (keyed_eq c_remote_path (inodes d)); try congruence. apply Hwf. }
      destruct (hasFailureLatch (scanInodeRow r) d).
      * rewrite clearEach_spec by done. eexists. split; [reflexivity|].
        intros i. rewrite list_elem_of_filter, list_elem_of_singleton. naive_solver.
      * exists []. rewrite clear_ids_nil. split; [done|]. intros i. rewrite elem_of_nil. naive_solver.
    + exists []. rewrite clear_ids_nil. split; [done|]. intros i. rewrite elem_of_nil.
      split; [done|]. intros (r & Hr & _ & [|Hpath] & _); [done|].
      unfold GetInodeByPath in E. rewrite query_open in E by done. unfold scan_row in E.
      destruct (sql_first _ _) eqn:E'; [done|]. apply sql_first_None in E'.
      rewrite Forall_forall in E'. by apply (E' r).
Qed.

(** On a closed database clearing everything reports the error, but clearing
    a single path reports success with nothing cleared. *)
Theorem ClearFailedTransfers_closed path d :
  closed d = true →
  ClearFailedTransfers path d =
  if decide (path = "") then (Err (ErrSentinel SqlErrClosed), d) else (Ok [], d).
Proof.
  intros Hc. unfold ClearFailedTransfers, InodesWithFailures, GetInodeByPath, query. by rewrite Hc.
Qed.

(** ** A concrete sweep: a clean and a pinned inode share one blob *)

#[local] Existing Instance ex_chunk_size | 0.

Definition ex_row (id access : Z) (path hash : string) (pinned : bool) (status : SyncStatus)
    : inode_row :=
  mkRow id path path false 10 0 true false pinned access hash "" 0 "" "" "" 0 status "" "" "".
Definition ex_cache_db : DB :=
  mkDB [ex_row 1 30 "a" ex_hash false StatusSynced; ex_row 2 10 "b" ex_hash true StatusSynced;
        ex_row 3 20 "c" "" false StatusFailed]
    3 [] 0 [] false false.
Definition ex_evictor : Evictor := SetHooks (Some (λ id, bool_decide (id = 9))) (NewEvictor 100).

Lemma ex_cache_db_wf : db_wf ex_cache_db.
Proof.
  split; try (by apply (bool_decide_unpack _)).
Qed.

Lemma RunIfNeeded_swept_witness :
  ∃ w, RunIfNeeded ex_evictor ex_cache_db (Some ex_store) = (Ok tt, w) ∧
    swept ex_evictor ex_cache_db (Some ex_store) w ∧ sw_log w = [3; 1] ∧ sw_size w = 142.
Proof.
  destruct (RunIfNeeded_swept ex_evictor ex_cache_db (Some ex_store) eq_refl (wf_ids _ ex_cache_db_wf))
    as (w & H1 & H2 & _).
  exists w. split; [exact H1|]. split; [exact H2|].
  assert (w = (RunIfNeeded ex_evictor ex_cache_db (Some ex_store)).2) as -> by (rewrite H1; reflexivity).
  split; vm_compute; reflexivity.
Defined.

Lemma ForceEvict_swept_witness :
  ∃ w, ForceEvict ex_evictor ex_cache_db None = (Ok tt, w) ∧ sw_log w = [3; 1].
Proof.
  destruct (ForceEvict_swept ex_evictor ex_cache_db None eq_refl (wf_ids _ ex_cache_db_wf))
    as (w & H1 & _).
  exists w. split; [exact H1|].
  assert (w = (ForceEvict ex_evictor ex_cache_db None).2) as -> by (rewrite H1; reflexivity).
  vm_compute. reflexivity.
Defined.

(** No inode refers to the blob. *)
Lemma GCOrphans_spec_witness :
  ∃ s', GCOrphans empty_db ex_store 0 = (Ok (mkGCSweep 1 0), s') ∧ store_inv s' ∧
    files s' !! pathFor ex_hash = None.
Proof.
  destruct (GCOrphans_spec empty_db ex_store 0 eq_refl ex_store_inv)
    as (refd & n & t & s' & H1 & H2 & H3 & H4 & _).
  assert ((GCOrphans empty_db ex_store 0).1 = Ok (mkGCSweep 1 0)) as Hr by (by vm_compute).
  rewrite H1 in Hr. simpl in Hr. exists s'. rewrite H1. split; [by rewrite Hr|].
  split; [exact H2|]. rewrite H4 by apply sha256_proper. rewrite decide_False; [done|].
  rewrite H3. intros (r & Hr' & _). by apply elem_of_nil in Hr'.
Defined.

Lemma ClearFailedTransfers_spec_witness :
  ∃ cleared, ClearFailedTransfers "" ex_cache_db = (Ok cleared, clear_ids [3] ex_cache_db).
Proof.
  destruct (ClearFailedTransfers_spec "" ex_cache_db eq_refl ex_cache_db_wf) as (cl & H & _).
  - intros f Hf. by apply elem_of_nil in Hf.
  - exists cl. assert ((ClearFailedTransfers "" ex_cache_db).1
      = Ok [scanInodeRow (ex_row 3 20 "c" "" false StatusFailed)]) as Hr by (by vm_compute).
    rewrite H in Hr. simpl in Hr. injection Hr as ->. exact H.
Defined.

Lemma ClearFailedTransfers_closed_witness :
  ClearFailedTransfers "a" (CacheDB.Close ex_cache_db) = (Ok [], CacheDB.Close ex_cache_db).
Proof. exact (ClearFailedTransfers_closed "a" (CacheDB.Close ex_cache_db) eq_refl). Defined.
