(* ===== verification/Hybrid.v ===== *)
(** * Hybrid sealing, key wrapping and parent references

    [internal/crypto]: [hybrid.go], [keys.go], [message.go], [parent_ref.go].
    Random bytes and the ephemeral keys are arguments; a failing random source
    is not modelled. *)
From S2P Require Import Prelude GoLib ApiErrors Crypto.
Local Open Scope Z_scope.

Definition HybridKDFInfo : bytes := String.list_byte_of_string "pigcloud-hybrid-seal-v2".
Definition KyberPublicKeySize : nat := 1184.
Definition KyberSeedSize : nat := 64.
Definition KyberCiphertextSize : nat := 1088.
Definition hybridX25519PKLen : nat := 32.
Definition hybridHeaderSize : nat := hybridX25519PKLen + KyberCiphertextSize + NonceSize.
Definition hybridMinSize : nat := hybridHeaderSize + 16.
Definition SaltSize : nat := 16.
Definition KDFOpsLimit : Z := 3.
Definition KDFMemLimitBytes : Z := 256 * 1024 * 1024.

(** The [X25519] fields are arrays of 32 bytes: see [keys_ok]. *)
Record PublicKeySet : Type := mkPublicKeySet { pk_X25519 : bytes; pk_Kyber : bytes }.
Record PrivateKeySet : Type := mkPrivateKeySet { sk_X25519 : bytes; sk_Kyber : bytes }.

Definition Zero (p : option PrivateKeySet) : option PrivateKeySet :=
  (λ k, mkPrivateKeySet ((λ _, x00) <$> sk_X25519 k) ((λ _, x00) <$> sk_Kyber k)) <$> p.

(** [guard e c]: the early return with the error [e] unless [c]. *)
Definition ensure (c : Prop) `{Decision c} (e : string) : result error unit :=
  if decide c then Ok tt else Err (ErrText e).

Section hybrid.
Context `{A : AEAD, X : X25519, K : MLKEM, HK : Hkdf, AR : Argon2, BL : Blake2b}.

(** [aead.Open] as a result. *)
Definition open_or (e : string) (key nonce ct ad : bytes) : result error bytes :=
  match aead_Open key nonce ct ad with
  | Some p => Ok p
  | None => Err (ErrWrap e (ErrText "chacha20poly1305: message authentication failed"))
  end.

Definition deriveHybridKey (mlkemCT ephX25519PK recipientStaticPK ssX ssK : bytes) : bytes :=
  let salt := mlkemCT ++ ephX25519PK ++ recipientStaticPK in
  let ikm := ssX ++ ssK in
  hkdf_sha256 ikm salt HybridKDFInfo.

Definition HybridSeal (plaintext : bytes) (recipient : option PublicKeySet)
    (ephPriv kemRand nonce : bytes) : result error bytes :=
  match recipient with
  | None => Err (ErrText "invalid recipient key set")
  | Some recipient =>
      _ ← ensure (length (pk_Kyber recipient) = KyberPublicKeySize) "invalid recipient key set";
      let ephPub := ScalarBaseMult ephPriv in
      match x25519 ephPriv (pk_X25519 recipient) with
      | None => Err (ErrWrap "x25519 ecdh" (ErrText "bad input point: low order point"))
      | Some ssX =>
          match mlkem_Encapsulate (pk_Kyber recipient) kemRand with
          | None => Err (ErrWrap "mlkem encapsulation key" (ErrText "invalid encapsulation key"))
          | Some (ssK, ctK) =>
              let wrapKey := deriveHybridKey ctK ephPub (pk_X25519 recipient) ssX ssK in
              _ ← NewX wrapKey;
              Ok (ephPub ++ ctK ++ nonce ++ aead_Seal wrapKey nonce plaintext [])
          end
      end
  end.

Definition HybridUnseal (sealed : bytes) (priv : option PrivateKeySet) : result error bytes :=
  match priv with
  | None => Err (ErrText "invalid private key set")
  | Some priv =>
      _ ← ensure (length (sk_Kyber priv) = KyberSeedSize) "invalid private key set";
      _ ← ensure (hybridMinSize ≤ length sealed)%nat "hybrid blob too short";
      let ephPub := take hybridX25519PKLen sealed in
      let ctK := take KyberCiphertextSize (drop hybridX25519PKLen sealed) in
      let nonceOff := (hybridX25519PKLen + KyberCiphertextSize)%nat in
      let nonce := take NonceSize (drop nonceOff sealed) in
      let aeadCT := drop (nonceOff + NonceSize) sealed in
      match x25519 (sk_X25519 priv) ephPub with
      | None => Err (ErrWrap "x25519 ecdh" (ErrText "bad input point: low order point"))
      | Some ssX =>
          match mlkem_Decapsulate (sk_Kyber priv) ctK with
          | None => Err (ErrWrap "mlkem decap" (ErrText "invalid ciphertext"))
          | Some ssK =>
              let recipientStaticPub := ScalarBaseMult (sk_X25519 priv) in
              let wrapKey := deriveHybridKey ctK ephPub recipientStaticPub ssX ssK in
              _ ← NewX wrapKey;
              open_or "aead open (corrupted blob or wrong key)" wrapKey nonce aeadCT []
          end
      end
  end.

(** [seed] is what [mlkem.GenerateKey768] draws. *)
Definition GenerateHybridKeyPair (x25519Priv seed : bytes)
    : result error (PublicKeySet * PrivateKeySet) :=
  let x25519Pub := ScalarBaseMult x25519Priv in
  _ ← ensure (length seed = KyberSeedSize) "unexpected mlkem seed length";
  let ekBytes := mlkem_public seed in
  _ ← ensure (length ekBytes = KyberPublicKeySize) "unexpected mlkem encapsulation key length";
  Ok (mkPublicKeySet x25519Pub ekBytes, mkPrivateKeySet x25519Priv seed).

(** ** Wrapping of the private key set *)

Record EncryptedHybridPrivateKey : Type := mkEncryptedHybridPrivateKey {
  X25519Ciphertext : bytes; X25519Nonce : bytes;
  KyberCiphertext : bytes; KyberNonce : bytes;
  Salt : bytes; OpsLimit : Z; MemLimit : Z }.
Record RecoveryWrappedHybridKey : Type := mkRecoveryWrappedHybridKey {
  rw_X25519Ciphertext : bytes; rw_X25519Nonce : bytes;
  rw_KyberCiphertext : bytes; rw_KyberNonce : bytes }.

Definition DeriveKey (password salt : bytes) (opsLimit memLimit : Z) : bytes :=
  let memKB := memLimit `div` 1024 in argon2_IDKey password salt opsLimit memKB.

Definition wrapWithKey (key : bytes) (priv : PrivateKeySet) (xNonce kNonce : bytes)
    : result error (bytes * bytes * bytes * bytes) :=
  _ ← NewX key;
  Ok (aead_Seal key xNonce (sk_X25519 priv) [], xNonce,
      aead_Seal key kNonce (sk_Kyber priv) [], kNonce).

Definition EncryptHybridPrivateKey (priv : option PrivateKeySet) (password : bytes)
    (salt xNonce kNonce : bytes) : result error EncryptedHybridPrivateKey :=
  match priv with
  | None => Err (ErrText "invalid private key set")
  | Some priv =>
      _ ← ensure (length (sk_Kyber priv) = KyberSeedSize) "invalid private key set";
      let pdk := DeriveKey password salt KDFOpsLimit KDFMemLimitBytes in
      w ← wrapWithKey pdk priv xNonce kNonce;
      let '(xCT, xN, kCT, kN) := w in
      Ok (mkEncryptedHybridPrivateKey xCT xN kCT kN salt KDFOpsLimit KDFMemLimitBytes)
  end.

Definition EncryptHybridPrivateKeyWithKey (priv : option PrivateKeySet) (key : bytes)
    (xNonce kNonce : bytes) : result error RecoveryWrappedHybridKey :=
  match priv with
  | None => Err (ErrText "invalid private key set")
  | Some priv =>
      _ ← ensure (length (sk_Kyber priv) = KyberSeedSize) "invalid private key set";
      _ ← ensure (length key = KeySize) "recovery key must be 32 bytes";
      w ← wrapWithKey key priv xNonce kNonce;
      let '(xCT, xN, kCT, kN) := w in Ok (mkRecoveryWrappedHybridKey xCT xN kCT kN)
  end.

Definition DecryptHybridPrivateKeyWithRawKey (enc : EncryptedHybridPrivateKey) (pdk : bytes)
    : result error PrivateKeySet :=
  _ ← ensure (length pdk = KeySize) "pdk must be 32 bytes";
  _ ← ensure (length (X25519Nonce enc) = NonceSize) "x25519 nonce must be 24 bytes";
  _ ← ensure (length (KyberNonce enc) = NonceSize) "kyber nonce must be 24 bytes";
  _ ← NewX pdk;
  xPlain ← open_or "wrong key or corrupted x25519 key" pdk (X25519Nonce enc) (X25519Ciphertext enc) [];
  kPlain ← open_or "wrong key or corrupted kyber seed" pdk (KyberNonce enc) (KyberCiphertext enc) [];
  _ ← ensure (length xPlain = 32%nat) "unexpected x25519 sk length";
  _ ← ensure (length kPlain = KyberSeedSize) "unexpected kyber seed length";
  Ok (mkPrivateKeySet xPlain kPlain).

Definition DecryptHybridPrivateKey (enc : EncryptedHybridPrivateKey) (password : bytes)
    : result error PrivateKeySet :=
  DecryptHybridPrivateKeyWithRawKey enc
    (DeriveKey password (Salt enc) (OpsLimit enc) (MemLimit enc)).

(** ** Sealed data keys and messages *)

Definition SealDataKey (dataKey : bytes) (recipient : option PublicKeySet)
    (ephPriv kemRand nonce : bytes) : result error bytes :=
  match HybridSeal dataKey recipient ephPriv kemRand nonce with
  | Ok s => Ok s
  | Err e => Err (ErrWrap "failed to seal data key" e)
  end.
Definition UnsealDataKey (sealed : bytes) (priv : option PrivateKeySet) : result error bytes :=
  match HybridUnseal sealed priv with
  | Ok p => Ok p
  | Err e => Err (ErrWrap "failed to unseal data key" e)
  end.

Definition EncryptWithKey (plaintext key nonce : bytes) : result error (bytes * bytes) :=
  _ ← NewX key; Ok (aead_Seal key nonce plaintext [], nonce).
Definition DecryptWithKey (ciphertext nonce key : bytes) : result error bytes :=
  _ ← NewX key; open_or "failed to decrypt" key nonce ciphertext [].

Definition EncryptMessage (plaintext dataKey nonce : bytes) : result error (bytes * bytes) :=
  _ ← ensure (length dataKey = KeySize) "data key must be 32 bytes";
  EncryptWithKey plaintext dataKey nonce.
Definition DecryptMessage (ciphertext nonce dataKey : bytes) : result error bytes :=
  _ ← ensure (length nonce = NonceSize) "nonce must be 24 bytes";
  _ ← ensure (length dataKey = KeySize) "data key must be 32 bytes";
  DecryptWithKey ciphertext nonce dataKey.

(** ** Parent references *)

Definition parentKeyContext : bytes := String.list_byte_of_string "pigcloud-e2ee-parent-key-v1".
Definition treeCacheKeyContext : bytes :=
  String.list_byte_of_string "pigcloud-e2ee-tree-cache-key-v1".
Definition parentRefVersionOwn : byte := x01.
Definition parentRefVersionForeign : byte := x02.
Definition parentRefNonceSize : nat := 24.
Definition parentRefIDSize : nat := 16.

Definition DeriveParentKey (priv : PrivateKeySet) : result error bytes :=
  blake2b_New256 parentKeyContext (sk_X25519 priv ++ sk_Kyber priv).
Definition DeriveTreeCacheKey (priv : PrivateKeySet) : result error bytes :=
  blake2b_New256 treeCacheKeyContext (sk_X25519 priv ++ sk_Kyber priv).

Definition parentRefPayload (parentID : bytes) : result error bytes :=
  if decide (length parentID = 0%nat) then Ok (replicate parentRefIDSize x00) else
  _ ← ensure (length parentID = parentRefIDSize) "parent ref parent id must be 16 bytes";
  Ok parentID.

(** The nil slice of the root is [None]. *)
Definition parentOrRoot (payload : bytes) : option bytes :=
  if decide (payload = replicate parentRefIDSize x00) then None else Some payload.

Definition SealParentRef (parentID nodeID parentKey nonce : bytes) : result error bytes :=
  payload ← parentRefPayload parentID;
  _ ← ensure (length nodeID = parentRefIDSize) "parent ref node id must be 16 bytes";
  _ ← NewX parentKey;
  Ok (parentRefVersionOwn :: nonce ++ aead_Seal parentKey nonce payload nodeID).

Definition SealParentRefForRecipient (parentID nodeID : bytes) (recipient : option PublicKeySet)
    (ephPriv kemRand nonce : bytes) : result error bytes :=
  payload ← parentRefPayload parentID;
  _ ← ensure (length nodeID = parentRefIDSize) "parent ref node id must be 16 bytes";
  sealed ← HybridSeal (payload ++ nodeID) recipient ephPriv kemRand nonce;
  Ok (parentRefVersionForeign :: sealed).

(** [parentKey] and [priv] may be nil. *)
Definition OpenParentRef (blob nodeID : bytes) (parentKey : option bytes)
    (priv : option PrivateKeySet) : result error (option bytes) :=
  _ ← ensure (2 ≤ length blob)%nat "parent ref too short";
  _ ← ensure (length nodeID = parentRefIDSize) "parent ref node id must be 16 bytes";
  match blob with
  | [] => Err (ErrText "parent ref too short")
  | version :: rest =>
      if decide (version = parentRefVersionOwn) then
        match parentKey with
        | None => Err (ErrText "parent key required")
        | Some parentKey =>
            _ ← ensure (1 + parentRefNonceSize + parentRefIDSize + Overhead ≤ length blob)%nat
                  "parent ref too short";
            _ ← NewX parentKey;
            let nonce := take parentRefNonceSize rest in
            match aead_Open parentKey nonce (drop parentRefNonceSize rest) nodeID with
            | None => Err (ErrText "parent ref decrypt failed")
            | Some payload =>
                _ ← ensure (length payload = parentRefIDSize) "parent ref payload malformed";
                Ok (parentOrRoot payload)
            end
        end
      else if decide (version = parentRefVersionForeign) then
        match priv with
        | None => Err (ErrText "private key set required")
        | Some priv =>
            payload ← HybridUnseal rest (Some priv);
            _ ← ensure (length payload = 2 * parentRefIDSize)%nat "parent ref payload malformed";
            _ ← ensure (drop parentRefIDSize payload = nodeID) "parent ref bound to another node";
            Ok (parentOrRoot (take parentRefIDSize payload))
        end
      else Err (ErrText "unknown parent ref version")
  end.
End hybrid.

(** ** Round trips *)

(** Take the outermost guard whose condition the tactic proves. *)
Tactic Notation "pass" "by" tactic3(t) :=
  match goal with
  | |- context [ensure ?c ?e ≫= ?f] =>
      let H := fresh in assert (ensure c e = Ok tt) as H
        by (unfold ensure; rewrite decide_True by t; reflexivity);
      rewrite H; clear H; rewrite bind_Ok
  | |- context [NewX ?k ≫= ?f] =>
      let H := fresh in assert (NewX k = Ok tt) as H
        by (unfold NewX; rewrite decide_True by t; reflexivity);
      rewrite H; clear H; rewrite bind_Ok
  end.

Section laws.
Context `{AL : !AEADLaws A, XL : !X25519Laws X, KL : !MLKEMLaws K, HL : !HkdfLaws HK,
          ARL : !Argon2Laws AR, BL : Blake2b}.

Lemma ensure_Err (c : Prop) `{Decision c} e : ¬ c → ensure c e = Err (ErrText e).
Proof using Type. intros. unfold ensure. by rewrite decide_False. Qed.

Lemma open_or_Seal e key nonce p ad : open_or e key nonce (aead_Seal key nonce p ad) ad = Ok p.
Proof using AL. unfold open_or. by rewrite aead_Open_Seal. Qed.

(** The pair of key sets of one generated key. *)
Definition keys_ok (pub : PublicKeySet) (priv : PrivateKeySet) : Prop :=
  length (sk_X25519 priv) = 32%nat ∧ length (sk_Kyber priv) = KyberSeedSize ∧
  pub = mkPublicKeySet (ScalarBaseMult (sk_X25519 priv)) (mlkem_public (sk_Kyber priv)).

Lemma GenerateHybridKeyPair_ok x seed :
  length x = 32%nat → length seed = KyberSeedSize →
  ∃ pub priv, GenerateHybridKeyPair x seed = Ok (pub, priv) ∧ keys_ok pub priv.
Proof using KL.
  intros Hx Hs. unfold GenerateHybridKeyPair. pass by done. cbv zeta.
  pass by (by apply mlkem_public_length).
  do 2 eexists. split; [reflexivity|]. done.
Qed.

(** The wrapping key sealer and recipient agree on. *)
Lemma HybridSeal_ok p pub priv eph r nonce :
  keys_ok pub priv → length eph = 32%nat →
  ∃ ct key, length ct = KyberCiphertextSize ∧ length key = KeySize ∧
    HybridSeal p (Some pub) eph r nonce
    = Ok (ScalarBaseMult eph ++ ct ++ nonce ++ aead_Seal key nonce p []) ∧
    ∃ ssX ssK, x25519 (sk_X25519 priv) (ScalarBaseMult eph) = Some ssX ∧
      mlkem_Decapsulate (sk_Kyber priv) ct = Some ssK ∧
      key = deriveHybridKey ct (ScalarBaseMult eph) (ScalarBaseMult (sk_X25519 priv)) ssX ssK.
Proof using XL KL HL.
  intros (Hx & Hk & ->) He. unfold HybridSeal. simpl.
  pass by (by apply mlkem_public_length). cbv zeta.
  destruct (x25519_agree eph (sk_X25519 priv) He Hx) as (ssX & -> & H2).
  destruct (mlkem_agree (sk_Kyber priv) r Hk) as (ssK & ct & -> & Hct & Hdec).
  set (key := deriveHybridKey _ _ _ _ _).
  assert (length key = KeySize) as Hkey by apply hkdf_length.
  pass by done. exists ct, key. split_and!; try done.
  exists ssX, ssK. done.
Qed.

Lemma HybridUnseal_ok p pub priv eph r nonce :
  keys_ok pub priv → length eph = 32%nat → length nonce = NonceSize →
  ∃ sealed, HybridSeal p (Some pub) eph r nonce = Ok sealed ∧
    length sealed = (hybridMinSize + length p)%nat ∧
    HybridUnseal sealed (Some priv) = Ok p.
Proof using AL XL KL HL.
  intros Hkeys He Hn. destruct (HybridSeal_ok p pub priv eph r nonce Hkeys He)
    as (ct & key & Hct & Hkey & Hseal & ssX & ssK & HX & HK' & Hder).
  pose proof (ScalarBaseMult_length eph) as Hpub.
  exists (ScalarBaseMult eph ++ ct ++ nonce ++ aead_Seal key nonce p []). split; [done|].
  assert (length (ScalarBaseMult eph ++ ct ++ nonce ++ aead_Seal key nonce p [])
          = (hybridMinSize + length p)%nat) as Hlen.
  { rewrite !length_app, aead_Seal_length, Hpub, Hct, Hn.
    unfold hybridMinSize, hybridHeaderSize, hybridX25519PKLen, Overhead. lia. }
  split; [done|]. unfold HybridUnseal.
  destruct Hkeys as (Hx & Hk & _).
  pass by done. pass by lia. cbv zeta.
  unfold hybridX25519PKLen. rewrite !take_app_length', !drop_app_length' by done.
  rewrite take_app_length' by done.
  rewrite (drop_app_add' _ _ 32) by done. rewrite (drop_app_length' ct) by done. rewrite (take_app_length' nonce) by done.
  rewrite !app_assoc, drop_app_length' by (rewrite !length_app; lia).
  rewrite HX, HK', <- Hder. pass by done. apply open_or_Seal.
Qed.

(** What is sealed for a generated key set unseals, with its private half, to
    the same plaintext, whatever randomness the sealer drew. *)
Theorem HybridUnseal_HybridSeal p x seed eph r nonce :
  length x = 32%nat → length seed = KyberSeedSize → length eph = 32%nat →
  length nonce = NonceSize →
  ∃ pub priv sealed, GenerateHybridKeyPair x seed = Ok (pub, priv) ∧
    HybridSeal p (Some pub) eph r nonce = Ok sealed ∧
    length sealed = (hybridMinSize + length p)%nat ∧
    HybridUnseal sealed (Some priv) = Ok p.
Proof using AL XL KL HL.
  intros Hx Hs He Hn. destruct (GenerateHybridKeyPair_ok x seed Hx Hs) as (pub & priv & Hg & Hk).
  destruct (HybridUnseal_ok p pub priv eph r nonce Hk He Hn) as (sealed & ? & ? & ?).
  by exists pub, priv, sealed.
Qed.

(** A password-wrapped private key set opens with the same password, and a
    recovery-wrapped one with the recovery key. *)
Theorem private_key_wrap_roundtrip priv password key salt xN kN :
  length (sk_X25519 priv) = 32%nat → length (sk_Kyber priv) = KyberSeedSize →
  length xN = NonceSize → length kN = NonceSize → length key = KeySize →
  (∃ enc, EncryptHybridPrivateKey (Some priv) password salt xN kN = Ok enc ∧
     DecryptHybridPrivateKey enc password = Ok priv) ∧
  (∃ w, EncryptHybridPrivateKeyWithKey (Some priv) key xN kN = Ok w ∧
     DecryptHybridPrivateKeyWithRawKey (mkEncryptedHybridPrivateKey
       (rw_X25519Ciphertext w) (rw_X25519Nonce w) (rw_KyberCiphertext w) (rw_KyberNonce w)
       [] 0 0) key = Ok priv).
Proof using AL ARL.
  intros Hx Hk HxN HkN Hkey.
  assert (∀ k salt o m, length k = KeySize → DecryptHybridPrivateKeyWithRawKey
    (mkEncryptedHybridPrivateKey (aead_Seal k xN (sk_X25519 priv) []) xN
       (aead_Seal k kN (sk_Kyber priv) []) kN salt o m) k = Ok priv) as Hopen.
  { intros k sl o m Hl. unfold DecryptHybridPrivateKeyWithRawKey. simpl.
    do 4 (pass by done). rewrite !open_or_Seal, !bind_Ok.
    do 2 (pass by done). by destruct priv. }
  split.
  - unfold EncryptHybridPrivateKey, wrapWithKey. pass by done. cbv zeta.
    assert (length (DeriveKey password salt KDFOpsLimit KDFMemLimitBytes) = KeySize) as Hpdk
      by apply argon2_length.
    eexists. split; [pass by done; rewrite bind_Ok; reflexivity|].
    unfold DecryptHybridPrivateKey. simpl. by apply Hopen.
  - unfold EncryptHybridPrivateKeyWithKey, wrapWithKey. do 2 (pass by done).
    eexists. split; [pass by done; rewrite bind_Ok; reflexivity|]. by apply Hopen.
Qed.

(** ** Parent references *)

Lemma parentRefPayload_length parentID payload :
  parentRefPayload parentID = Ok payload → length payload = parentRefIDSize.
Proof using Type.
  unfold parentRefPayload. case_decide; [by intros [= <-]|].
  unfold ensure. case_decide; [|done]. rewrite bind_Ok. by intros [= <-].
Qed.

(** The parent a reference denotes: none for the empty or all-zero identifier. *)
Definition denoted_parent (parentID : bytes) : option bytes :=
  if decide (length parentID = 0%nat) then None else parentOrRoot parentID.

Lemma parentOrRoot_payload parentID payload :
  parentRefPayload parentID = Ok payload → parentOrRoot payload = denoted_parent parentID.
Proof using Type.
  unfold parentRefPayload, denoted_parent. case_decide.
  - intros [= <-]. unfold parentOrRoot. by rewrite decide_True.
  - unfold ensure. case_decide; [|done]. rewrite bind_Ok. by intros [= <-].
Qed.

(** A parent reference sealed for a node opens for that node to the parent it
    was sealed with (none for the root), both in its own-key form and in the
    form sealed to a recipient; the recipient form never opens for another
    node. *)
Theorem ParentRef_roundtrip parentID nodeID key nonce pub priv eph r payload :
  parentRefPayload parentID = Ok payload → length nodeID = parentRefIDSize →
  length key = KeySize → length nonce = NonceSize →
  keys_ok pub priv → length eph = 32%nat →
  (∃ blob, SealParentRef parentID nodeID key nonce = Ok blob ∧
     OpenParentRef blob nodeID (Some key) None = Ok (denoted_parent parentID)) ∧
  (∃ blob, SealParentRefForRecipient parentID nodeID (Some pub) eph r nonce = Ok blob ∧
     OpenParentRef blob nodeID None (Some priv) = Ok (denoted_parent parentID) ∧
     ∀ nodeID' key', nodeID' ≠ nodeID → is_ok (OpenParentRef blob nodeID' key' (Some priv)) = false).
Proof using AL XL KL HL.
  intros Hp Hnode Hkey Hn Hkeys He.
  pose proof (parentRefPayload_length _ _ Hp) as Hpl.
  pose proof (parentOrRoot_payload _ _ Hp) as Hroot. split.
  - unfold SealParentRef. rewrite Hp, bind_Ok. do 2 (pass by done). eexists. split; [reflexivity|].
    unfold OpenParentRef.
    assert (length (parentRefVersionOwn :: nonce ++ aead_Seal key nonce payload nodeID)
      = (1 + parentRefNonceSize + parentRefIDSize + Overhead)%nat) as Hl.
    { simpl. rewrite length_app, aead_Seal_length, Hn, Hpl. done. }
    pass by (rewrite Hl; unfold parentRefNonceSize; lia). pass by done.
    rewrite decide_True by done. pass by (by rewrite Hl). pass by done. cbv zeta.
    rewrite take_app_length', drop_app_length' by done. rewrite aead_Open_Seal.
    pass by done. by rewrite Hroot.
  - unfold SealParentRefForRecipient. rewrite Hp, bind_Ok. pass by done.
    destruct (HybridUnseal_ok (payload ++ nodeID) pub priv eph r nonce)
      as (sealed & -> & Hl & Hun); try done.
    rewrite bind_Ok. eexists. split; [reflexivity|].
    assert (2 ≤ length (parentRefVersionForeign :: sealed))%nat as H2.
    { simpl. rewrite Hl. unfold hybridMinSize. lia. }
    assert (length (payload ++ nodeID) = 2 * parentRefIDSize)%nat as Hpn
      by (rewrite length_app; lia).
    split.
    + unfold OpenParentRef. pass by done. pass by done.
      rewrite decide_False, decide_True by done. rewrite Hun, bind_Ok. pass by done.
      pass by (by rewrite drop_app_length'). rewrite take_app_length' by done. by rewrite Hroot.
    + intros nodeID' key' Hne. unfold OpenParentRef. pass by done.
      destruct (decide (length nodeID' = parentRefIDSize)); [|by rewrite (ensure_Err (length nodeID' = _))].
      pass by done. rewrite decide_False, decide_True by done. rewrite Hun, bind_Ok. pass by done.
      rewrite drop_app_length' by done. by rewrite (ensure_Err (nodeID = nodeID')).
Qed.
End laws.

(** ** Concrete keys *)

Definition ex_x : bytes := replicate 32 x07.
Definition ex_seed : bytes := replicate 64 x03.
Definition ex_priv : PrivateKeySet := mkPrivateKeySet ex_x ex_seed.
Definition ex_pub : PublicKeySet := mkPublicKeySet (ScalarBaseMult ex_x) (mlkem_public ex_seed).
Definition ex_eph : bytes := replicate 32 x05.
Definition ex_nonce : bytes := replicate 24 x09.
Definition ex_node : bytes := replicate 16 x0b.
Definition ex_parent : bytes := replicate 16 x0c.

Lemma HybridUnseal_HybridSeal_witness :
  ∃ pub priv sealed, GenerateHybridKeyPair ex_x ex_seed = Ok (pub, priv) ∧
    HybridSeal [x61; x62] (Some pub) ex_eph [x02] ex_nonce = Ok sealed ∧
    length sealed = (hybridMinSize + 2)%nat ∧ HybridUnseal sealed (Some priv) = Ok [x61; x62].
Proof.
  exact (HybridUnseal_HybridSeal [x61; x62] ex_x ex_seed ex_eph [x02] ex_nonce
    eq_refl eq_refl eq_refl eq_refl).
Defined.

Lemma private_key_wrap_roundtrip_witness :
  ∃ enc, EncryptHybridPrivateKey (Some ex_priv) [x70] (replicate 16 x01) ex_nonce ex_nonce = Ok enc ∧
    DecryptHybridPrivateKey enc [x70] = Ok ex_priv.
Proof.
  exact (proj1 (private_key_wrap_roundtrip ex_priv [x70] (replicate 32 x04) (replicate 16 x01)
    ex_nonce ex_nonce eq_refl eq_refl eq_refl eq_refl eq_refl)).
Defined.

Lemma ParentRef_roundtrip_witness :
  ∃ blob, SealParentRef ex_parent ex_node (replicate 32 x04) ex_nonce = Ok blob ∧
    OpenParentRef blob ex_node (Some (replicate 32 x04)) None = Ok (Some ex_parent).
Proof.
  exact (proj1 (ParentRef_roundtrip ex_parent ex_node (replicate 32 x04) ex_nonce ex_pub ex_priv
    ex_eph [x02] ex_parent eq_refl eq_refl eq_refl eq_refl
    (conj eq_refl (conj eq_refl eq_refl)) eq_refl)).
Defined.
