(* ===== verification/Sign.v ===== *)
(** * Signing keys, file signatures and key bundles

    [internal/crypto]: [sign.go] and [device_transfer.go].  Key-generation
    randomness and nonces are arguments; a reader is the bytes it yields or the
    error that ends it. *)
From S2P Require Import Prelude GoLib GoFmt ApiErrors Crypto Hybrid.
Local Open Scope Z_scope.

Definition SignatureDomain : string := "pigcloud-file-signature-v1".
Definition TEESignatureDomain : string := "pigcloud-tee-file-signature-v1".
Definition KeyBundleDomain : string := "pigcloud-key-bundle-v1".
Definition Ed25519SigSize : nat := 64.
Definition Ed25519PKSize : nat := 32.
Definition Ed25519SKSize : nat := 64.
Definition Mldsa44SigSize : nat := 2420.
Definition Mldsa44PKSize : nat := 1312.
Definition Mldsa44SKSize : nat := 2560.

Record SigningPublicKeySet : Type := mkSigningPublicKeySet { spk_Ed25519 : bytes; spk_Mldsa : bytes }.
Record SigningPrivateKeySet : Type := mkSigningPrivateKeySet { ssk_Ed25519 : bytes; ssk_Mldsa : bytes }.
Record EncryptedSigningPrivateKeySet : Type := mkEncryptedSigningPrivateKeySet {
  es_Ed25519Ciphertext : bytes; es_Ed25519Nonce : bytes;
  es_MldsaCiphertext : bytes; es_MldsaNonce : bytes }.
Record KeyBundle : Type := mkKeyBundle {
  kb_X25519 : bytes; kb_Kyber : bytes; kb_Ed25519 : bytes; kb_Mldsa : bytes }.

(** A reader to its end. *)
Abbreviation reader := (result error bytes).

Definition text_bytes (s : string) : bytes := String.list_byte_of_string s.

(** [copy(dst[:], src)] into an array of [n] bytes. *)
Definition copy_array (n : nat) (src : bytes) : bytes := resize n x00 src.

Definition signing_keys_ok (priv : SigningPrivateKeySet) : Prop :=
  length (ssk_Ed25519 priv) = Ed25519SKSize ∧ length (ssk_Mldsa priv) = Mldsa44SKSize.
#[export] Instance signing_keys_ok_dec priv : Decision (signing_keys_ok priv).
Proof. unfold signing_keys_ok. apply _. Defined.

Definition Zero (s : option SigningPrivateKeySet) : option SigningPrivateKeySet :=
  (λ k, mkSigningPrivateKeySet ((λ _, x00) <$> ssk_Ed25519 k) ((λ _, x00) <$> ssk_Mldsa k)) <$> s.

Section sign.
Context `{A : AEAD, SS : Sha256Sum, E : Ed25519, M : MLDSA, X : X25519, K : MLKEM}.

(** ** Keys *)

Definition GenerateSigningKeyPair (edSeed mlRand : bytes) : SigningPublicKeySet * SigningPrivateKeySet :=
  let edPriv := ed25519_NewKeyFromSeed edSeed in
  let (mlPub, mlPriv) := mldsa_GenerateKey mlRand in
  (mkSigningPublicKeySet (copy_array Ed25519PKSize (drop 32 edPriv)) mlPub,
   mkSigningPrivateKeySet edPriv mlPriv).

Definition EncryptSigningPrivateKeys (priv : option SigningPrivateKeySet) (pdk edNonce mlNonce : bytes)
    : result error EncryptedSigningPrivateKeySet :=
  match priv with
  | None => Err (ErrText "invalid signing private key set")
  | Some priv =>
      _ ← ensure (signing_keys_ok priv) "invalid signing private key set";
      _ ← ensure (length pdk = KeySize) "pdk must be 32 bytes";
      _ ← NewX pdk;
      Ok (mkEncryptedSigningPrivateKeySet
            (aead_Seal pdk edNonce (ssk_Ed25519 priv) []) edNonce
            (aead_Seal pdk mlNonce (ssk_Mldsa priv) []) mlNonce)
  end.

Definition EncryptSigningPrivateKeysWithKey (priv : option SigningPrivateKeySet) (key edNonce mlNonce : bytes) :=
  EncryptSigningPrivateKeys priv key edNonce mlNonce.

Definition DecryptSigningPrivateKeys (enc : option EncryptedSigningPrivateKeySet) (pdk : bytes)
    : result error SigningPrivateKeySet :=
  match enc with
  | None => Err (ErrText "encrypted signing key set is nil")
  | Some enc =>
      _ ← ensure (length pdk = KeySize) "pdk must be 32 bytes";
      _ ← ensure (length (es_Ed25519Nonce enc) = NonceSize)
            ("ed25519 nonce must be 24 bytes, got " +:+ fmt_d (Z.of_nat (length (es_Ed25519Nonce enc))));
      _ ← ensure (length (es_MldsaNonce enc) = NonceSize)
            ("mldsa nonce must be 24 bytes, got " +:+ fmt_d (Z.of_nat (length (es_MldsaNonce enc))));
      _ ← NewX pdk;
      edPlain ← open_or "wrong key or corrupted ed25519 sk" pdk (es_Ed25519Nonce enc) (es_Ed25519Ciphertext enc) [];
      _ ← ensure (length edPlain = Ed25519SKSize)
            ("unexpected ed25519 sk length: " +:+ fmt_d (Z.of_nat (length edPlain)));
      mlPlain ← open_or "wrong key or corrupted mldsa sk" pdk (es_MldsaNonce enc) (es_MldsaCiphertext enc) [];
      _ ← ensure (length mlPlain = Mldsa44SKSize)
            ("unexpected mldsa sk length: " +:+ fmt_d (Z.of_nat (length mlPlain)));
      Ok (mkSigningPrivateKeySet edPlain mlPlain)
  end.

Definition DeriveSigningPublic (priv : option SigningPrivateKeySet) : result error SigningPublicKeySet :=
  match priv with
  | None => Err (ErrText "invalid signing private key set")
  | Some priv =>
      _ ← ensure (signing_keys_ok priv) "invalid signing private key set";
      match mldsa_Public (ssk_Mldsa priv) with
      | None => Err (ErrWrap "mldsa44 priv unmarshal" (ErrText "packed private key"))
      | Some mlPub => Ok (mkSigningPublicKeySet (copy_array Ed25519PKSize (drop 32 (ssk_Ed25519 priv))) mlPub)
      end
  end.

(** ** Signatures of files *)

(** The digest is always 32 bytes here: see [signingInput_ok]; [None] is the
    panic on another length. *)
Definition signingInput (domain : string) (ciphertextSha256 : bytes) : option bytes :=
  if decide (length ciphertextSha256 = 32%nat) then Some (text_bytes domain ++ ciphertextSha256) else None.

Definition hashCiphertext (r : reader) : result error bytes :=
  match r with
  | Ok data => Ok (sha256_Sum256 data)
  | Err e => Err (ErrWrap "hash ciphertext" e)
  end.

(** [signingInput] in a function that may panic. *)
Definition input_or_panic (domain : string) (digest : bytes) : result error bytes :=
  match signingInput domain digest with Some i => Ok i | None => Err go_panic end.

(** Both signatures of a message: [mldsa44.SignTo] after the private key is
    unmarshalled. *)
Definition mldsa_sign_to (sk input : bytes) : result error bytes :=
  match mldsa_Public sk with
  | None => Err (ErrWrap "mldsa44 priv unmarshal" (ErrText "packed private key"))
  | Some _ =>
      match mldsa_Sign sk input with
      | Some sig => Ok sig
      | None => Err (ErrWrap "mldsa44 sign" (ErrText "context"))
      end
  end.

Definition SignFileBytes (r : reader) (priv : option SigningPrivateKeySet) : result error (bytes * bytes) :=
  match priv with
  | None => Err (ErrText "invalid signing private key set")
  | Some priv =>
      _ ← ensure (signing_keys_ok priv) "invalid signing private key set";
      digest ← hashCiphertext r;
      input ← input_or_panic SignatureDomain digest;
      mlSig ← mldsa_sign_to (ssk_Mldsa priv) input;
      Ok (ed25519_Sign (ssk_Ed25519 priv) input, mlSig)
  end.

Definition verifySignaturePair (r : reader) (domain : string) (sigEd sigMldsa : bytes)
    (pub : option SigningPublicKeySet) (errPrefix : string) : result error unit :=
  _ ← ensure (length sigEd = Ed25519SigSize ∧ length sigMldsa = Mldsa44SigSize) (errPrefix +:+ "_missing");
  match pub with
  | None => Err (ErrText (errPrefix +:+ "_public_key_missing"))
  | Some pub =>
      _ ← ensure (length (spk_Mldsa pub) = Mldsa44PKSize) (errPrefix +:+ "_public_key_missing");
      digest ← hashCiphertext r;
      input ← input_or_panic domain digest;
      _ ← ensure (ed25519_Verify (spk_Ed25519 pub) input sigEd = true) (errPrefix +:+ "_invalid_ed25519");
      match mldsa_Verify (spk_Mldsa pub) input sigMldsa with
      | None => Err (ErrWrap "mldsa44 pub unmarshal" (ErrText "packed public key"))
      | Some ok => ensure (ok = true) (errPrefix +:+ "_invalid_mldsa")
      end
  end.

Definition VerifyFileSignatures (r : reader) (sigEd sigMldsa : bytes) (pub : option SigningPublicKeySet) :=
  verifySignaturePair r SignatureDomain sigEd sigMldsa pub "file_signature".
Definition VerifyTEEFileSignatures (r : reader) (sigEd sigMldsa : bytes) (teePub : option SigningPublicKeySet) :=
  verifySignaturePair r TEESignatureDomain sigEd sigMldsa teePub "tee_file_signature".

(** ** Key bundles *)

Definition keyBundleFields (b : KeyBundle) : list (bytes * nat) :=
  [(kb_X25519 b, 32%nat); (kb_Kyber b, KyberPublicKeySize);
   (kb_Ed25519 b, Ed25519PKSize); (kb_Mldsa b, Mldsa44PKSize)].

Fixpoint append_fields (fields : list (bytes * nat)) (input : bytes) : result error bytes :=
  match fields with
  | [] => Ok input
  | (raw, size) :: rest =>
      _ ← ensure (length raw = size) "key bundle field size mismatch";
      append_fields rest (input ++ raw)
  end.

Definition keyBundleInput (b : KeyBundle) : result error bytes :=
  append_fields (keyBundleFields b) (text_bytes KeyBundleDomain).

(** The private keys are not checked here: a missing set, or an Ed25519 key of
    another length, panics. *)
Definition SignKeyBundle (b : KeyBundle) (priv : option SigningPrivateKeySet) : result error (bytes * bytes) :=
  input ← keyBundleInput b;
  match priv with
  | None => Err go_panic
  | Some priv =>
      sigMldsa ← mldsa_sign_to (ssk_Mldsa priv) input;
      if decide (length (ssk_Ed25519 priv) = Ed25519SKSize)
      then Ok (ed25519_Sign (ssk_Ed25519 priv) input, sigMldsa) else Err go_panic
  end.

Definition VerifyKeyBundle (b : KeyBundle) (sigEd sigMldsa : bytes) : bool :=
  match keyBundleInput b with
  | Err _ => false
  | Ok input =>
      if decide (length sigEd = Ed25519SigSize ∧ length sigMldsa = Mldsa44SigSize) then
        if ed25519_Verify (kb_Ed25519 b) input sigEd then
          match mldsa_Verify (kb_Mldsa b) input sigMldsa with Some ok => ok | None => false end
        else false
      else false
  end.

(** ** Keys handed over by another device *)

Definition DeviceKeyTransferVersion : byte := x01.
Definition DeviceKeyTransferSize : nat := (1 + 32 + KyberSeedSize + Ed25519SKSize + Mldsa44SKSize)%nat.

Definition ParseDeviceKeyTransfer (payload : bytes) : result error (PrivateKeySet * SigningPrivateKeySet) :=
  _ ← ensure (length payload = DeviceKeyTransferSize)
        ("device transfer: expected " +:+ fmt_d (Z.of_nat DeviceKeyTransferSize) +:+ " bytes, got " +:+
         fmt_d (Z.of_nat (length payload)));
  let version := default x00 (head payload) in
  _ ← ensure (version = DeviceKeyTransferVersion)
        ("device transfer: unsupported version " +:+ fmt_d (Z_of_byte version));
  let off := 1%nat in
  let x := take 32 (drop off payload) in
  let off := (off + 32)%nat in
  let kyberSeed := take KyberSeedSize (drop off payload) in
  let off := (off + KyberSeedSize)%nat in
  let edSK := take Ed25519SKSize (drop off payload) in
  let off := (off + Ed25519SKSize)%nat in
  let mldsaSK := take Mldsa44SKSize (drop off payload) in
  Ok (mkPrivateKeySet x kyberSeed, mkSigningPrivateKeySet edSK mldsaSK).

Definition DeriveHybridPublic (priv : option PrivateKeySet) : result error PublicKeySet :=
  match priv with
  | None => Err (ErrText "invalid private key set")
  | Some priv =>
      _ ← ensure (length (sk_Kyber priv) = KyberSeedSize) "invalid private key set";
      let ek := mlkem_public (sk_Kyber priv) in
      _ ← ensure (length ek = KyberPublicKeySize)
            ("unexpected mlkem encapsulation key length: " +:+ fmt_d (Z.of_nat (length ek)));
      Ok (mkPublicKeySet (ScalarBaseMult (sk_X25519 priv)) ek)
  end.
End sign.

(** ** Lemmas *)

Section laws.
Context `{AL : !AEADLaws A, SH : Sha256, SSL : !Sha256SumLaws SH SS, EL : !Ed25519Laws E, ML : !MLDSALaws M,
  XL : !X25519Laws X, KL : !MLKEMLaws K}.
Implicit Types (data sigEd sigMl : bytes) (pub : SigningPublicKeySet) (priv : SigningPrivateKeySet).

Lemma ensure_Ok (c : Prop) `{Decision c} e : ensure c e = Ok tt ↔ c.
Proof. unfold ensure. case_decide; naive_solver. Qed.
Lemma ensure_bind_Ok (c : Prop) `{Decision c} e {B} (k : unit → result error B) b :
  ensure c e ≫= k = Ok b ↔ c ∧ k tt = Ok b.
Proof. unfold ensure. case_decide; simpl; naive_solver. Qed.
Lemma ensure_True (c : Prop) `{Decision c} e {B} (k : unit → result error B) :
  c → ensure c e ≫= k = k tt.
Proof. intros. unfold ensure. by rewrite decide_True. Qed.

Lemma NewX_Ok key : length key = KeySize → NewX key = Ok tt.
Proof. intros. unfold NewX. by rewrite decide_True. Qed.

(** The digest always has the length [signingInput] requires, so signing and
    verifying never panic. *)
Lemma signingInput_ok domain data :
  input_or_panic domain (sha256_Sum256 data) = Ok (text_bytes domain ++ sha256_Sum256 data).
Proof. unfold input_or_panic, signingInput. by rewrite decide_True by apply sha256_Sum256_length. Qed.

(** Exactly the pairs of signatures valid for the domain and the digest are
    accepted. *)
Lemma verifySignaturePair_Ok data domain sigEd sigMl pub p :
  verifySignaturePair (Ok data) domain sigEd sigMl (Some pub) p = Ok tt ↔
  length sigEd = Ed25519SigSize ∧ length sigMl = Mldsa44SigSize ∧ length (spk_Mldsa pub) = Mldsa44PKSize ∧
  let input := text_bytes domain ++ sha256_Sum256 data in
  ed25519_Verify (spk_Ed25519 pub) input sigEd = true ∧ mldsa_Verify (spk_Mldsa pub) input sigMl = Some true.
Proof.
  unfold verifySignaturePair, hashCiphertext.
  rewrite !ensure_bind_Ok, bind_Ok, signingInput_ok, bind_Ok, ensure_bind_Ok.
  destruct (mldsa_Verify _ _ _) as [[]|]; rewrite ?ensure_Ok; naive_solver.
Qed.

(** A key set as [GenerateSigningKeyPair] makes it. *)
Definition generated_keys pub priv : Prop :=
  ∃ seed r, length seed = 32%nat ∧ GenerateSigningKeyPair seed r = (pub, priv).

Lemma generated_sizes pub priv : generated_keys pub priv →
  signing_keys_ok priv ∧ length (spk_Ed25519 pub) = Ed25519PKSize ∧ length (spk_Mldsa pub) = Mldsa44PKSize ∧
  spk_Ed25519 pub = drop 32 (ssk_Ed25519 priv).
Proof.
  intros (seed & r & Hs & Hg). unfold GenerateSigningKeyPair in Hg.
  pose proof (mldsa_public_length r) as Hp. pose proof (mldsa_private_length r) as Hq.
  destruct (mldsa_GenerateKey r) as [mp ms]. cbn [fst snd] in Hp, Hq. simplify_eq.
  pose proof (ed25519_key_length seed Hs) as Hk. unfold signing_keys_ok, copy_array. cbn [spk_Ed25519 spk_Mldsa ssk_Ed25519 ssk_Mldsa].
  rewrite length_resize, resize_all_alt by (rewrite length_drop, Hk; done). done.
Qed.

Lemma DeriveSigningPublic_generated pub priv :
  generated_keys pub priv → DeriveSigningPublic (Some priv) = Ok pub.
Proof.
  intros Hg. destruct (generated_sizes _ _ Hg) as (Hok & _). destruct Hg as (seed & r & Hs & Hg).
  unfold DeriveSigningPublic. rewrite ensure_True by done.
  unfold GenerateSigningKeyPair in Hg. pose proof (mldsa_Public_Generate r) as Hp.
  destruct (mldsa_GenerateKey r) as [mp ms]. cbn [fst snd] in Hp. simplify_eq.
  cbn [ssk_Mldsa ssk_Ed25519]. by rewrite Hp.
Qed.

Lemma mldsa_sign_generated pub priv input : generated_keys pub priv →
  ∃ sig, mldsa_sign_to (ssk_Mldsa priv) input = Ok sig ∧ length sig = Mldsa44SigSize ∧
    mldsa_Verify (spk_Mldsa pub) input sig = Some true.
Proof.
  intros (seed & r & Hs & Hg). unfold GenerateSigningKeyPair in Hg.
  pose proof (mldsa_Public_Generate r) as Hp. destruct (mldsa_correct r input) as (sig & Hsig & Hl & Hv).
  destruct (mldsa_GenerateKey r) as [mp ms]. cbn [fst snd] in *. simplify_eq.
  exists sig. unfold mldsa_sign_to. cbn [ssk_Mldsa spk_Mldsa]. rewrite Hp, Hsig. done.
Qed.

Lemma ed25519_sign_generated pub priv input : generated_keys pub priv →
  ed25519_Verify (spk_Ed25519 pub) input (ed25519_Sign (ssk_Ed25519 priv) input) = true.
Proof.
  intros Hg. destruct (generated_sizes _ _ Hg) as (_ & _ & _ & ->). destruct Hg as (seed & r & Hs & Hg).
  unfold GenerateSigningKeyPair in Hg. destruct (mldsa_GenerateKey r). simplify_eq.
  by apply ed25519_correct.
Qed.

(** What is signed verifies under the public half. *)
Lemma SignFileBytes_verifies data pub priv :
  generated_keys pub priv →
  ∃ sigEd sigMl, SignFileBytes (Ok data) (Some priv) = Ok (sigEd, sigMl) ∧
    VerifyFileSignatures (Ok data) sigEd sigMl (Some pub) = Ok tt.
Proof.
  intros Hg. destruct (generated_sizes _ _ Hg) as (Hok & _ & Hml & _).
  set (input := text_bytes SignatureDomain ++ sha256_Sum256 data).
  destruct (mldsa_sign_generated pub priv input Hg) as (sig & Hsig & Hl & Hv).
  exists (ed25519_Sign (ssk_Ed25519 priv) input), sig. split.
  - unfold SignFileBytes, hashCiphertext. rewrite ensure_True by done.
    rewrite !bind_Ok, signingInput_ok, bind_Ok. fold input. by rewrite Hsig.
  - apply verifySignaturePair_Ok. split; [apply ed25519_Sign_length|]. split; [done|]. split; [done|].
    split; [by apply ed25519_sign_generated|done].
Qed.

(** Wrapped signing keys open under the key that wrapped them. *)
Lemma DecryptSigningPrivateKeys_Encrypt priv pdk n1 n2 enc :
  length n1 = NonceSize → length n2 = NonceSize →
  EncryptSigningPrivateKeys (Some priv) pdk n1 n2 = Ok enc →
  DecryptSigningPrivateKeys (Some enc) pdk = Ok priv.
Proof.
  intros H1 H2. unfold EncryptSigningPrivateKeys, DecryptSigningPrivateKeys.
  rewrite !ensure_bind_Ok. intros ([He Hm] & Hk & Henc). rewrite (NewX_Ok _ Hk), bind_Ok in Henc.
  injection Henc as <-. cbn [es_Ed25519Nonce es_MldsaNonce es_Ed25519Ciphertext es_MldsaCiphertext].
  do 3 (split; [done|]). rewrite (NewX_Ok _ Hk), bind_Ok. unfold open_or.
  rewrite !aead_Open_Seal, bind_Ok, ensure_True, bind_Ok, ensure_True by done. by destruct priv.
Qed.

(** Only the wrapping key set is recovered: whatever is accepted is the sealing
    of what is returned. *)
Lemma DecryptSigningPrivateKeys_inv enc pdk priv :
  DecryptSigningPrivateKeys (Some enc) pdk = Ok priv →
  EncryptSigningPrivateKeys (Some priv) pdk (es_Ed25519Nonce enc) (es_MldsaNonce enc) = Ok enc.
Proof.
  unfold DecryptSigningPrivateKeys, EncryptSigningPrivateKeys, open_or. rewrite !ensure_bind_Ok.
  intros (Hk & H1 & H2 & Hd). rewrite (NewX_Ok _ Hk), bind_Ok in Hd.
  apply bind_Ok_inv in Hd as (edp & E1 & Hd). rewrite ensure_bind_Ok in Hd. destruct Hd as [L1 Hd].
  apply bind_Ok_inv in Hd as (mlp & E2 & Hd). rewrite ensure_bind_Ok in Hd. destruct Hd as [L2 Hd].
  injection Hd as <-. cbn [ssk_Ed25519 ssk_Mldsa].
  destruct (aead_Open pdk (es_Ed25519Nonce enc) _ _) eqn:E1'; [|done].
  destruct (aead_Open pdk (es_MldsaNonce enc) _ _) eqn:E2'; [|done]. simplify_eq.
  apply aead_Open_inv in E1' as <-. apply aead_Open_inv in E2' as <-. split; [done|].
  split; [done|]. rewrite (NewX_Ok _ Hk), bind_Ok. by destruct enc.
Qed.
End laws.
