(* ===== verification/PinStore.v ===== *)
(** * Stores of pinned keys, own signing keys and signing peers

    [internal/e2ee]: [signing_pin.go], [peer_signing_pin.go], and the four JSON
    files the pin stores of the package live in.  A file is the document it
    decodes to; [encoding/json] writes a document that decodes to itself. *)
From S2P Require Import Prelude GoLib GoFmt ApiErrors Crypto Hybrid Sign.
Local Open Scope Z_scope.

(** ** Files *)

Inductive file (D : Type) : Type :=
| FileAbsent
| FileUnreadable (e : error)   (** [os.ReadFile] fails otherwise *)
| FileInvalid (e : error)      (** [json.Unmarshal] fails *)
| FileDoc (d : D).
Arguments FileAbsent {D}.
Arguments FileUnreadable {D} e.
Arguments FileInvalid {D} e.
Arguments FileDoc {D} d.

(** The documents: a nil map is [None]. *)
Inductive signingPksFile : Type :=
| OwnFile (V : Z) (Owners : option (gmap string (list string)))
| OwnLegacy (legacy : list string).   (** a bare JSON array *)
Record peerSigningPksFile : Type := mkPeerSigningPksFile {
  pf_V : Z; pf_Owners : option (gmap string (gmap string string)) }.

Record retiredTeeSigningPk : Type := mkRetired { rt_Ed : string; rt_Ml : string; rt_RetiredAt : string }.
Record teeAttestationPosture : Type := mkPosture {
  tp_Mode : string; tp_Mrenclave : string; tp_SealingPk : string; tp_SealingPkKyber : string }.
Record teeSigningPk : Type := mkTeeSigningPk {
  ts_Ed : string; ts_Ml : string; ts_Posture : option teeAttestationPosture; ts_Retired : list retiredTeeSigningPk }.
Record teeSigningPksFile : Type := mkTeeSigningPksFile {
  tf_V : Z; tf_Owners : option (gmap string teeSigningPk) }.
#[export] Instance eta_teeSigningPk : Eta teeSigningPk :=
  λ r, mkTeeSigningPk (ts_Ed r) (ts_Ml r) (ts_Posture r) (ts_Retired r).
#[export] Instance posture_eq_dec : EqDecision teeAttestationPosture.
Proof. solve_decision. Defined.

Record peerSealPk : Type := mkPeerSealPk { ps_Fp : string; ps_Ed : string; ps_Ml : string }.
Record peerSealPksFile : Type := mkPeerSealPksFile {
  sf_V : Z; sf_Owners : option (gmap string (gmap string peerSealPk)) }.
#[export] Instance peerSealPk_eq_dec : EqDecision peerSealPk.
Proof. solve_decision. Defined.

(** [config.Dir()], the public key of the configured account, the four files,
    and the outcomes of the next system calls that write ([None]: success; past
    the end of the list they succeed). *)
Record Pins : Type := mkPins {
  p_dir : string; p_PublicKey : string;
  p_own : file signingPksFile; p_peer : file peerSigningPksFile;
  p_tee : file teeSigningPksFile; p_seal : file peerSealPksFile;
  p_io : list (option error) }.
#[export] Instance eta_Pins : Eta Pins := λ r,
  mkPins (p_dir r) (p_PublicKey r) (p_own r) (p_peer r) (p_tee r) (p_seal r) (p_io r).

(** Texts that only error messages carry: [Error()] of an error of the system
    or of the JSON decoder, and [%q]. *)
Class ErrorText : Type := { error_text : error → string; fmt_q : string → string }.
#[export] Instance toy_error_text : ErrorText := {| error_text _ := "error"; fmt_q s := s |}.

(** The outcome of the next system call. *)
Definition next_io (p : Pins) : option error * Pins :=
  match p_io p with [] => (None, p) | o :: rest => (o, p <| p_io := rest |>) end.

(** [fsutil.WriteFileAtomic]: the new document is published or the file is
    unchanged. *)
Definition WriteFileAtomic (publish : Pins → Pins) (p : Pins) : option error * Pins :=
  let (o, p) := next_io p in
  match o with None => (None, publish p) | Some e => (Some e, p) end.

(** [_ = os.MkdirAll(...); _ = fsutil.WriteFileAtomic(...)]. *)
Definition write_quietly (publish : Pins → Pins) (p : Pins) : Pins :=
  let (_, p) := next_io p in (WriteFileAtomic publish p).2.

(** ** Own signing keys *)

Definition ownSigningPksMax : nat := 16.
Definition store_path (name : string) (p : Pins) : string :=
  if decide (p_dir p = "") then "" else path_Join (p_dir p) name.
Definition signingPksPath : Pins → string := store_path "signing_pks.json".

Section pins.
Context `{SS : Sha256Sum, E : Ed25519, M : MLDSA}.

Definition AccountFingerprint (pub : bytes) : string :=
  match pub with
  | [] => ""
  | _ => hex_encode (take 8 (sha256_Sum256 pub))
  end.

Definition signingPinOwner (p : Pins) : string :=
  match base64_decode (p_PublicKey p) with
  | None => ""
  | Some raw => AccountFingerprint raw
  end.

(** The owners of [loadSigningPkFile]'s result, whose version is always 2. *)
Definition loadSigningPkFile (p : Pins) : gmap string (list string) :=
  if decide (signingPksPath p = "") then ∅
  else match p_own p with
       | FileDoc (OwnFile V (Some owners)) => if decide (V = 2) then owners else ∅
       | FileDoc (OwnLegacy ((_ :: _) as legacy)) =>
           let owner := signingPinOwner p in
           if decide (owner = "") then ∅ else {[owner := legacy]}
       | _ => ∅
       end.

Definition loadSigningPkSet (p : Pins) : list string :=
  let owner := signingPinOwner p in
  if decide (owner = "") then [] else default [] (loadSigningPkFile p !! owner).

(** [set[len(set)-n:]] when the set is longer than [n]. *)
Definition keep_last {T} (n : nat) (l : list T) : list T := drop (length l - n) l.

Definition rememberSigningEdPub (pub : bytes) (p : Pins) : Pins :=
  let owner := signingPinOwner p in
  if decide (signingPksPath p = "" ∨ owner = "") then p
  else
    let b64 := base64_encode pub in
    let f := loadSigningPkFile p in
    let set := default [] (f !! owner) in
    if decide (b64 ∈ set) then p
    else
      let set := keep_last ownSigningPksMax (set ++ [b64]) in
      write_quietly (λ p, p <| p_own := FileDoc (OwnFile 2 (Some (<[owner := set]> f))) |>) p.

Definition SigningPinCount (p : Pins) : nat := length (loadSigningPkSet p).

Definition signingEdPubTrusted (pub : bytes) (p : Pins) : bool :=
  bool_decide (base64_encode pub ∈ loadSigningPkSet p).

(** *** The history of own signing keys *)

Definition signingPkHistoryDomain : string := "pigcloud-signing-pk-history-v1".
Record signingPkHistoryBlob : Type := mkHistoryBlob {
  hb_V : Z; hb_Eds : list string; hb_SigEd : string; hb_SigMl : string }.

Fixpoint decode_eds (eds : list string) (input : bytes) (decoded : list bytes) : option (bytes * list bytes) :=
  match eds with
  | [] => Some (input, decoded)
  | edB64 :: rest =>
      match base64_decode edB64 with
      | None => None
      | Some raw => decode_eds rest (input ++ raw) (decoded ++ [raw])
      end
  end.

(** [None] is the nil result. *)
Definition verifySigningPkHistory (blob : option signingPkHistoryBlob) (ownEdPub ownMldsaPub : bytes)
    : option (list bytes) :=
  blob ← blob;
  guard (hb_V blob = 1 ∧ hb_Eds blob ≠ [] ∧ hb_SigEd blob ≠ "" ∧ hb_SigMl blob ≠ "");;
  '(input, decoded) ← decode_eds (hb_Eds blob) (text_bytes signingPkHistoryDomain) [];
  sigEd ← base64_decode (hb_SigEd blob);
  guard (length ownEdPub = Ed25519PKSize);;
  guard (ed25519_Verify ownEdPub input sigEd = true);;
  sigMl ← base64_decode (hb_SigMl blob);
  guard (length ownMldsaPub = Mldsa44PKSize);;
  ok ← mldsa_Verify ownMldsaPub input sigMl;
  guard (ok = true);;
  Some decoded.

(** [ownSigningHistorySeeded] and [ownSigningHistoryNextTry]. *)
Record HistoryMemo : Type := mkHistoryMemo { hm_Seeded : bool; hm_NextTry : Z }.
Definition ownSigningHistoryRetryAfter : Z := minute.

(** The answer to [FetchEncryptionKeys]: [None] when the call fails, is refused
    or does not parse; else [SigningPkHistory], which decodes to a blob. *)
Record HistoryAnswer : Type := mkHistoryAnswer {
  ha_History : string; ha_blob : bytes → option signingPkHistoryBlob }.

(** [time.Now()] is read once. *)
Definition seedOwnSigningPkHistory (now : Z) (fetch : option HistoryAnswer) (ownEdPub ownMldsaPub : bytes)
    (w : HistoryMemo * Pins) : HistoryMemo * Pins :=
  let (h, p) := w in
  if decide (hm_Seeded h = true ∨ now < hm_NextTry h) then (h, p)
  else
    let h := mkHistoryMemo false (now + ownSigningHistoryRetryAfter) in
    match fetch with
    | None => (h, p)
    | Some a =>
        if decide (ha_History a = "") then (mkHistoryMemo true (hm_NextTry h), p)
        else match base64_decode (ha_History a) with
             | None => (h, p)
             | Some blobJSON =>
                 let eds := default [] (verifySigningPkHistory (ha_blob a blobJSON) ownEdPub ownMldsaPub) in
                 (mkHistoryMemo true (hm_NextTry h), foldl (λ p ed, rememberSigningEdPub ed p) p eds)
             end
    end.

(** ** Signing peers *)

Inductive PeerPinReason : Type := owner_signing_pk_untrusted | owner_signing_pk_changed.
#[export] Instance PeerPinReason_eq_dec : EqDecision PeerPinReason.
Proof. solve_decision. Defined.

Definition peerSigningPinVersion : Z := 1.
Definition maxPeerNameLen : nat := 64.
Definition peerSigningPksPath : Pins → string := store_path "peer_signing_pks.json".

Definition loadPeerSigningPkFile (p : Pins) : gmap string (gmap string string) :=
  if decide (peerSigningPksPath p = "") then ∅
  else match p_peer p with
       | FileDoc (mkPeerSigningPksFile V (Some owners)) =>
           if decide (V = peerSigningPinVersion) then owners else ∅
       | _ => ∅
       end.

(** The runes below 0x20 and 0x7f are single bytes, and no byte of a longer
    rune is one of them. *)
Definition peer_char_ok (a : ascii) : bool :=
  let n := N_of_ascii a in
  bool_decide (32 ≤ n ∧ n ≠ 127)%N && negb (bool_decide (a = slash)) && negb (bool_decide (a = backslash)).
Definition validPeerName (peer : string) : bool :=
  if decide (peer = "" ∨ (maxPeerNameLen < String.length peer)%nat) then false
  else forallb peer_char_ok (String.list_ascii_of_string peer).

Definition peerSigningPkSeen (peer : string) (p : Pins) : option string :=
  let owner := signingPinOwner p in
  if decide (owner = "" ∨ validPeerName peer = false) then None
  else bucket ← loadPeerSigningPkFile p !! owner; bucket !! peer.

Definition recordPeerSigningPk (peer edB64 : string) (p : Pins) : Pins :=
  let owner := signingPinOwner p in
  if decide (peerSigningPksPath p = "" ∨ owner = "" ∨ validPeerName peer = false) then p
  else
    let f := loadPeerSigningPkFile p in
    let bucket := default ∅ (f !! owner) in
    let f := <[owner := <[peer := edB64]> bucket]> f in
    write_quietly (λ p, p <| p_peer := FileDoc (mkPeerSigningPksFile peerSigningPinVersion (Some f)) |>) p.

Definition PeerSigningPinCount (p : Pins) : nat :=
  let owner := signingPinOwner p in
  if decide (owner = "") then 0%nat else size (default ∅ (loadPeerSigningPkFile p !! owner)).

(** [friendSet] ([None]: nil), [friendSetAt] and [friendSetNextTry]. *)
Record FriendMemo : Type := mkFriendMemo { fm_Set : option (gset string); fm_At : Z; fm_NextTry : Z }.
Definition friendSetRetryAfter : Z := minute.
Definition friendSetTTL : Z := 5 * minute.

Definition in_friend_set (m : FriendMemo) (peer : string) : bool :=
  match fm_Set m with Some s => bool_decide (peer ∈ s) | None => false end.

(** [fetch]: the user names of the friend list, [None] when it is not answered
    or does not parse. *)
Definition peerHasFriendEdge (now : Z) (fetch : option (list string)) (peer : string) (m : FriendMemo)
    : bool * FriendMemo :=
  if decide (isSome (fm_Set m) = true ∧ now - fm_At m < friendSetTTL) then (in_friend_set m peer, m)
  else if decide (now < fm_NextTry m) then (in_friend_set m peer, m)
  else
    let m := mkFriendMemo (fm_Set m) (fm_At m) (now + friendSetRetryAfter) in
    match fetch with
    | None => (in_friend_set m peer, m)
    | Some names =>
        let m := mkFriendMemo (Some (list_to_set (filter (λ n, n ≠ "") names))) now (fm_NextTry m) in
        (in_friend_set m peer, m)
    end.

(** The first component is the commit to run once the signatures verify. *)
Definition checkForeignSignerOnOwnNode (now : Z) (fetch : option (list string)) (signedBy : string)
    (servedEd : bytes) (p : Pins) (m : FriendMemo)
    : result PeerPinReason (Pins → Pins) * FriendMemo :=
  if decide (validPeerName signedBy = false) then (Err owner_signing_pk_untrusted, m)
  else
    let servedB64 := base64_encode servedEd in
    match peerSigningPkSeen signedBy p with
    | None =>
        let (edge, m) := peerHasFriendEdge now fetch signedBy m in
        if edge then (Ok (recordPeerSigningPk signedBy servedB64), m) else (Err owner_signing_pk_untrusted, m)
    | Some seen =>
        if decide (seen ≠ servedB64) then (Err owner_signing_pk_changed, m) else (Ok id, m)
    end.
End pins.
