(* ===== verification/SealPin.v ===== *)
(** * Pins of the keys data is sealed to

    [internal/e2ee/peer_seal_pin.go]: the fingerprint of a contact's sealing
    key is pinned on first contact, and moves only with a bundle signed by the
    signing keys the pin was taken under, or by an explicit repin. *)
From S2P Require Import Prelude GoLib GoFmt ApiErrors Crypto Hybrid Sign PinStore.
Local Open Scope Z_scope.

Definition peerSealPinVersion : Z := 1.
Definition peerSealPksPath : Pins → string := store_path "peer_seal_pks.json".
Definition anchored (r : peerSealPk) : bool := bool_decide (ps_Ed r ≠ "" ∧ ps_Ml r ≠ "").

Record PeerKeyBundle : Type := mkPeerKeyBundle {
  pb_X25519 : bytes; pb_Kyber : bytes; pb_Ed25519 : bytes; pb_Mldsa : bytes; pb_BundleSig : bytes }.

(** The [*SealPinError]s and the other errors of this file. *)
Inductive seal_error : Type :=
| SealPinError (Reason Peer Pinned Served Detail : string)
| PlainError (e : error).

Definition IsSealPinFailure (e : seal_error) : bool :=
  match e with SealPinError _ _ _ _ _ => true | PlainError _ => false end.

Section seal.
Context `{SS : Sha256Sum, E : Ed25519, M : MLDSA, ET : ErrorText}.

Definition sealStoreFailure (peer : string) (err : error) : seal_error :=
  SealPinError "peer_seal_pk_store_unusable" peer "" ""
    ("the seal pin store could not be used, so nothing was sealed to " +:+ peer +:+ ": " +:+ error_text err +:+
     ". Confirm each covered contact's key with them out of band first, and only then move the file aside by hand, since starting over re-accepts whatever key the server offers next").

Definition loadPeerSealPkFile (p : Pins) : result error (gmap string (gmap string peerSealPk)) :=
  let path := peerSealPksPath p in
  if decide (path = "") then
    Err (ErrText "no CLI config directory, so there is nowhere to keep the seal pins")
  else match p_seal p with
       | FileAbsent => Ok ∅
       | FileUnreadable e => Err (ErrWrap ("read " +:+ path) e)
       | FileInvalid e => Err (ErrWrap (path +:+ " is not readable as a pin store") e)
       | FileDoc f =>
           match sf_Owners f with
           | Some owners =>
               if decide (sf_V f = peerSealPinVersion) then Ok owners
               else Err (ErrText (path +:+ " carries pin-store version " +:+ fmt_d (sf_V f) +:+
                                  ", which this build does not understand"))
           | None => Err (ErrText (path +:+ " carries pin-store version " +:+ fmt_d (sf_V f) +:+
                                   ", which this build does not understand"))
           end
       end.

(** The record and whether it pins a fingerprint; the zero record when absent. *)
Definition peerSealRecord (peer : string) (p : Pins) : result error (peerSealPk * bool) :=
  let owner := signingPinOwner p in
  if decide (owner = "" ∨ validPeerName peer = false) then
    Err (ErrText "no account key set is configured, so there is no pin bucket to read")
  else
    f ← loadPeerSealPkFile p;
    match f !! owner ≫= lookup peer with
    | None => Ok (mkPeerSealPk "" "" "", false)
    | Some rec => Ok (rec, bool_decide (ps_Fp rec ≠ ""))
    end.

(** [fsutil.WithFileLock]: taking the lock may fail. *)
Definition writePeerSealRecord (peer : string) (rec : peerSealPk) (p : Pins) : option error * Pins :=
  let path := peerSealPksPath p in
  let owner := signingPinOwner p in
  if decide (path = "" ∨ owner = "" ∨ validPeerName peer = false) then
    (Some (ErrText "no account key set is configured, so there is no pin bucket to write"), p)
  else
    let (mkdir, p) := next_io p in
    match mkdir with
    | Some e => (Some e, p)
    | None =>
        let (lock, p) := next_io p in
        match lock with
        | Some e => (Some e, p)
        | None =>
            match loadPeerSealPkFile p with
            | Err e => (Some e, p)
            | Ok f =>
                let bucket := default ∅ (f !! owner) in
                let f := <[owner := <[peer := rec]> bucket]> f in
                WriteFileAtomic (λ p, p <| p_seal := FileDoc (mkPeerSealPksFile peerSealPinVersion (Some f)) |>) p
            end
        end
    end.

Definition PeerSealPinCount (p : Pins) : result error nat :=
  let owner := signingPinOwner p in
  if decide (owner = "") then Ok 0%nat
  else f ← loadPeerSealPkFile p; Ok (size (default ∅ (f !! owner))).

Definition PinnedPeerSealFingerprint (peer : string) (p : Pins) : string :=
  match peerSealRecord peer p with Err _ => "" | Ok (rec, _) => ps_Fp rec end.

Definition sealKeyFingerprint (x25519 kyber : bytes) : string :=
  base64_encode (sha256_Sum256 (x25519 ++ kyber)).

(** The groups of four characters; a last group that is shorter is dropped. *)
Fixpoint groups_of_4 (s : string) : list string :=
  match s with
  | String.String a (String.String b (String.String c (String.String d rest))) =>
      String.String a (String.String b (String.String c (String.String d ""))) :: groups_of_4 rest
  | _ => []
  end.

Definition FingerprintDisplay (fpB64 : string) : string :=
  match base64_decode fpB64 with
  | None | Some [] => "none"
  | Some raw => join_with " " (groups_of_4 (hex_encode raw))
  end.

(** The message [Error] renders. *)
Definition SealPinError_Error (reason pinned served detail : string) : string :=
  let msg := reason +:+ ": " +:+ detail in
  if decide (pinned ≠ "" ∨ served ≠ "") then
    msg +:+ " (pinned " +:+ FingerprintDisplay pinned +:+ ", now offered " +:+ FingerprintDisplay served +:+ ")"
  else msg.

(** ** Bundles *)

Definition usableSealKey (b : option PeerKeyBundle) : bool :=
  match b with
  | None => false
  | Some b => bool_decide (length (pb_X25519 b) = 32%nat ∧ length (pb_Kyber b) = KyberPublicKeySize)
  end.

Definition Fingerprint (b : option PeerKeyBundle) : string :=
  match b with
  | Some b' => if usableSealKey b then sealKeyFingerprint (pb_X25519 b') (pb_Kyber b') else ""
  | None => ""
  end.

Definition signing_sizes (b : PeerKeyBundle) : bool :=
  bool_decide (length (pb_Ed25519 b) = Ed25519PKSize ∧ length (pb_Mldsa b) = Mldsa44PKSize).

Definition signingAnchors (b : PeerKeyBundle) : string * string :=
  if signing_sizes b then (base64_encode (pb_Ed25519 b), base64_encode (pb_Mldsa b)) else ("", "").

Definition SealKeySet (b : option PeerKeyBundle) : result error PublicKeySet :=
  match b with
  | Some b' =>
      if usableSealKey b then Ok (mkPublicKeySet (copy_array 32 (pb_X25519 b')) (pb_Kyber b'))
      else Err (ErrText "peer_seal_pk_missing: the served key set has no usable X25519 + ML-KEM pair")
  | None => Err (ErrText "peer_seal_pk_missing: the served key set has no usable X25519 + ML-KEM pair")
  end.

(** [keyBundleSigBlob]; the JSON text it is decoded from is a parameter. *)
Record keyBundleSigBlob : Type := mkKeyBundleSigBlob { ks_V : Z; ks_SigEd : string; ks_SigMl : string }.
Context (parse_sig : bytes → option keyBundleSigBlob).

Definition bundleSelfSigned (b : PeerKeyBundle) : bool :=
  if usableSealKey (Some b) && signing_sizes b && bool_decide (pb_BundleSig b ≠ []) then
    match parse_sig (pb_BundleSig b) with
    | None => false
    | Some blob =>
        if decide (ks_V blob = 1) then
          match base64_decode (ks_SigEd blob), base64_decode (ks_SigMl blob) with
          | Some sigEd, Some sigMl =>
              VerifyKeyBundle (mkKeyBundle (pb_X25519 b) (pb_Kyber b) (pb_Ed25519 b) (pb_Mldsa b)) sigEd sigMl
          | _, _ => false
          end
        else false
    end
  else false.

Definition sealRotationAttributable (rec : peerSealPk) (bundle : PeerKeyBundle) : bool :=
  anchored rec && bool_decide (signingAnchors bundle = (ps_Ed rec, ps_Ml rec)) && bundleSelfSigned bundle.

Definition repinHint (peer : string) : string :=
  "If " +:+ peer +:+ " deliberately rotated their keys, compare the safety number with them out of band and run `pc fr repin " +:+
  peer +:+ "` to move the pin".

Definition pin_record (b : PeerKeyBundle) : peerSealPk :=
  let (edB64, mlB64) := signingAnchors b in
  mkPeerSealPk (sealKeyFingerprint (pb_X25519 b) (pb_Kyber b)) edB64 mlB64.

Definition store_pin (peer : string) (b : PeerKeyBundle) (p : Pins) : option seal_error * Pins :=
  let (err, p) := writePeerSealRecord peer (pin_record b) p in
  (sealStoreFailure peer <$> err, p).

Definition changed_detail (peer : string) (rec : peerSealPk) : string :=
  (if anchored rec then
     "the encryption key published for " +:+ peer +:+ " differs from the one this account pinned, and the new key carries no valid signature from the signing keys the pin was taken under, so nothing was sealed to it. "
   else
     "the encryption key published for " +:+ peer +:+ " differs from the one this account pinned, and that pin predates the signing anchor a rotation is checked against, so no change can be attributed to " +:+ peer +:+ " and nothing was sealed. ")
  +:+ repinHint peer.

(** [None] is success. *)
Definition PinPeerSealKey (peer : string) (bundle : option PeerKeyBundle) (p : Pins) : option seal_error * Pins :=
  if decide (validPeerName peer = false) then
    (Some (SealPinError "peer_seal_pk_missing" peer "" "" "the server named a recipient that cannot be pinned"), p)
  else
    match bundle with
    | Some b =>
        if usableSealKey bundle then
          let fp := sealKeyFingerprint (pb_X25519 b) (pb_Kyber b) in
          match peerSealRecord peer p with
          | Err e => (Some (sealStoreFailure peer e), p)
          | Ok (rec, have) =>
              if have then
                if decide (ps_Fp rec = fp) then (None, p)
                else if sealRotationAttributable rec b then store_pin peer b p
                else (Some (SealPinError "peer_seal_pk_changed" peer (ps_Fp rec) fp (changed_detail peer rec)), p)
              else store_pin peer b p
          end
        else (Some (SealPinError "peer_seal_pk_missing" peer "" ""
                ("the key set served for " +:+ peer +:+ " has no usable X25519 + ML-KEM pair to seal to")), p)
    | None => (Some (SealPinError "peer_seal_pk_missing" peer "" ""
                ("the key set served for " +:+ peer +:+ " has no usable X25519 + ML-KEM pair to seal to")), p)
    end.

Definition RepinPeerSealKey (peer : string) (bundle : option PeerKeyBundle) (p : Pins) : option seal_error * Pins :=
  if decide (validPeerName peer = false) then (Some (PlainError (ErrText "that username cannot be pinned")), p)
  else
    match bundle with
    | Some b =>
        if usableSealKey bundle then
          let fp := sealKeyFingerprint (pb_X25519 b) (pb_Kyber b) in
          match peerSealRecord peer p with
          | Err e => (Some (sealStoreFailure peer e), p)
          | Ok (rec, have) =>
              if decide (have = true ∧ ps_Fp rec = fp) then
                (Some (PlainError (ErrText "that key is already the pinned one")), p)
              else store_pin peer b p
          end
        else (Some (PlainError (ErrText ("the server offered no usable X25519 + ML-KEM key pair for " +:+ peer))), p)
    | None => (Some (PlainError (ErrText ("the server offered no usable X25519 + ML-KEM key pair for " +:+ peer))), p)
    end.

(** ** Bundles from the server *)

Record E2EEPubkeyPayload : Type := mkE2EEPubkeyPayload {
  pp_PublicKey : string; pp_PublicKeyKyber : string;
  pp_SigningPublicKeyEd25519 : string; pp_SigningPublicKeyMldsa : string; pp_KeyBundleSig : string }.

Definition decode_or_nil (s : string) : bytes := default [] (base64_decode s).
Definition bundleFromPubkeyPayload (p : E2EEPubkeyPayload) : PeerKeyBundle :=
  mkPeerKeyBundle (decode_or_nil (pp_PublicKey p)) (decode_or_nil (pp_PublicKeyKyber p))
    (decode_or_nil (pp_SigningPublicKeyEd25519 p)) (decode_or_nil (pp_SigningPublicKeyMldsa p))
    (decode_or_nil (pp_KeyBundleSig p)).

Definition PinPeerSealKeyFromPubkey (peer : string) (payload : E2EEPubkeyPayload) (p : Pins)
    : result seal_error PublicKeySet * Pins :=
  let bundle := bundleFromPubkeyPayload payload in
  let (err, p) := PinPeerSealKey peer (Some bundle) p in
  match err with
  | Some e => (Err e, p)
  | None => (match SealKeySet (Some bundle) with Ok k => Ok k | Err e => Err (PlainError e) end, p)
  end.

(** [FetchPeerKeyBundle]: [answer] is the outcome of [FetchPublicKey] and of
    decoding its payload; an answer that is refused is [None]. *)
Definition FetchPeerKeyBundle (peer : string) (answer : result error (option E2EEPubkeyPayload))
    : result error PeerKeyBundle :=
  match answer with
  | Err e => Err e
  | Ok None => Err (ErrText ("the server did not answer with " +:+ peer +:+ "'s public keys"))
  | Ok (Some payload) =>
      let bundle := bundleFromPubkeyPayload payload in
      if usableSealKey (Some bundle) then Ok bundle
      else Err (ErrText (peer +:+ " has no usable encryption key set"))
  end.

(** [peerBundles] and [peerBundleNextTry]. *)
Record BundleMemo : Type := mkBundleMemo {
  bm_Bundles : gmap string PeerKeyBundle; bm_NextTry : gmap string Z }.
Definition peerBundleRetryAfter : Z := minute.

Definition peerSigningIdentity (now : Z) (answer : result error (option E2EEPubkeyPayload)) (peer : string)
    (m : BundleMemo) : option PeerKeyBundle * BundleMemo :=
  match bm_Bundles m !! peer with
  | Some b => (Some b, m)
  | None =>
      if match bm_NextTry m !! peer with Some t => bool_decide (now < t) | None => false end then (None, m)
      else match FetchPeerKeyBundle peer answer with
           | Err _ => (None, mkBundleMemo (bm_Bundles m) (<[peer := now + peerBundleRetryAfter]> (bm_NextTry m)))
           | Ok b => (Some b, mkBundleMemo (<[peer := b]> (bm_Bundles m)) (delete peer (bm_NextTry m)))
           end
  end.

Record ShareRecipientWithKey : Type := mkShareRecipient {
  sr_Username : string; sr_PublicKey : string; sr_PublicKeyKyber : string }.

Definition decodeRecipient (r : ShareRecipientWithKey) : result error PublicKeySet :=
  _ ← ensure (sr_PublicKey r ≠ "" ∧ sr_PublicKeyKyber r ≠ "") "recipient missing one or both public keys";
  match base64_decode (sr_PublicKey r) with
  | Some xBytes =>
      _ ← ensure (length xBytes = 32%nat) "invalid x25519 pubkey";
      match base64_decode (sr_PublicKeyKyber r) with
      | Some kBytes =>
          _ ← ensure (length kBytes = KyberPublicKeySize) "invalid kyber pubkey";
          Ok (mkPublicKeySet (copy_array 32 xBytes) kBytes)
      | None => Err (ErrText "invalid kyber pubkey")
      end
  | None => Err (ErrText "invalid x25519 pubkey")
  end.

Definition with_identity (keys : PublicKeySet) (identity : option PeerKeyBundle) : PeerKeyBundle :=
  match identity with
  | Some i => mkPeerKeyBundle (pk_X25519 keys) (pk_Kyber keys) (pb_Ed25519 i) (pb_Mldsa i) (pb_BundleSig i)
  | None => mkPeerKeyBundle (pk_X25519 keys) (pk_Kyber keys) [] [] []
  end.

Definition PinShareRecipientSealKey (now : Z) (answer : result error (option E2EEPubkeyPayload))
    (r : ShareRecipientWithKey) (w : BundleMemo * Pins) : result seal_error PublicKeySet * (BundleMemo * Pins) :=
  let (m, p) := w in
  match decodeRecipient r with
  | Err e => (Err (PlainError e), w)
  | Ok keys =>
      let (identity, m) := peerSigningIdentity now answer (sr_Username r) m in
      let (err, p) := PinPeerSealKey (sr_Username r) (Some (with_identity keys identity)) p in
      (match err with Some e => Err e | None => Ok keys end, (m, p))
  end.
End seal.

(** ** The trust a pin store keeps *)

(** What is pinned for a contact of the configured account. *)
Definition pinned `{Sha256Sum} (p : Pins) (peer : string) : option peerSealPk :=
  match loadPeerSealPkFile p with
  | Ok f => rec ← f !! signingPinOwner p ≫= lookup peer; guard (ps_Fp rec ≠ "");; Some rec
  | Err _ => None
  end.

Section spec.
Context `{SS : Sha256Sum, SH : Sha256, SSL : !Sha256SumLaws SH SS, E : Ed25519, M : MLDSA, ET : ErrorText}.
Context (parse_sig : bytes → option keyBundleSigBlob).
Implicit Types (p : Pins) (peer : string) (b : PeerKeyBundle) (s : option peerSealPk).

(** A bundle signed by the signing keys [ed] and [ml] in base64: its own
    signing keys are those keys, and both signatures over the whole bundle
    verify under them. *)
Definition signed_under (ed ml : string) b : Prop :=
  signing_sizes b = true ∧ base64_encode (pb_Ed25519 b) = ed ∧ base64_encode (pb_Mldsa b) = ml ∧
  ∃ input sigEd sigMl, keyBundleInput (mkKeyBundle (pb_X25519 b) (pb_Kyber b) (pb_Ed25519 b) (pb_Mldsa b)) = Ok input ∧
    ed25519_Verify (pb_Ed25519 b) input sigEd = true ∧ mldsa_Verify (pb_Mldsa b) input sigMl = Some true.

(** The abstract store: a contact is unpinned or pinned, and an offered bundle
    is accepted on first contact, when it is the pinned key, or as a rotation
    signed under the anchors. *)
Inductive accepts : option peerSealPk → PeerKeyBundle → option peerSealPk → Prop :=
| accept_first b : accepts None b (Some (pin_record b))
| accept_same rec b :
    ps_Fp rec = sealKeyFingerprint (pb_X25519 b) (pb_Kyber b) → accepts (Some rec) b (Some rec)
| accept_rotation rec b :
    ps_Ed rec ≠ "" → ps_Ml rec ≠ "" → signed_under (ps_Ed rec) (ps_Ml rec) b →
    accepts (Some rec) b (Some (pin_record b)).

Lemma base64_encode_nil l : base64_encode l = "" → l = [].
Proof.
  intros H. pose proof (base64_decode_encode l) as Hd. rewrite H in Hd.
  change (base64_decode "") with (Some (@nil byte)) in Hd. by simplify_eq.
Qed.

Lemma sealKeyFingerprint_ne x k : sealKeyFingerprint x k ≠ "".
Proof.
  intros Hl%base64_encode_nil. pose proof (sha256_Sum256_length (x ++ k)) as H. by rewrite Hl in H.
Qed.

Lemma pin_record_Fp b : ps_Fp (pin_record b) = sealKeyFingerprint (pb_X25519 b) (pb_Kyber b).
Proof. unfold pin_record. by destruct (signingAnchors b). Qed.

Lemma next_io_eq p o p1 : next_io p = (o, p1) → ∃ io, p1 = p <| p_io := io |>.
Proof.
  unfold next_io. destruct (p_io p) eqn:Hio; intros [= <- <-]; [exists []|eauto].
  destruct p. simpl in Hio. by subst.
Qed.

Lemma next_io_nil p : p_io p = [] → next_io p = (None, p).
Proof. intros Hn. unfold next_io. by rewrite Hn. Qed.

(** The calls reach the store at all: a directory, an account, a valid name. *)
Definition store_reachable p peer : Prop :=
  peerSealPksPath p ≠ "" ∧ signingPinOwner p ≠ "" ∧ validPeerName peer = true.

(** The store with a record written. *)
Definition put_record peer (rec : peerSealPk) (f : gmap string (gmap string peerSealPk)) p : Pins :=
  p <| p_seal := FileDoc (mkPeerSealPksFile peerSealPinVersion (Some
         (<[signingPinOwner p := <[peer := rec]> (default ∅ (f !! signingPinOwner p))]> f))) |>.

Lemma writePeerSealRecord_spec peer rec p f e p' :
  store_reachable p peer → loadPeerSealPkFile p = Ok f →
  writePeerSealRecord peer rec p = (e, p') →
  ∃ io, match e with
        | None => p' = put_record peer rec f (p <| p_io := io |>)
        | Some _ => p' = p <| p_io := io |>
        end.
Proof.
  intros (Hp & Ho & Hv) Hf. unfold writePeerSealRecord. rewrite decide_False by (rewrite Hv; naive_solver).
  cbv zeta. destruct (next_io p) as [o1 p1] eqn:H1. apply next_io_eq in H1 as [io1 ->].
  destruct o1; [intros; simplify_eq; by exists io1|].
  destruct (next_io _) as [o2 p2] eqn:H2. apply next_io_eq in H2 as [io2 ->].
  destruct o2; [intros; simplify_eq; by exists io2|].
  change (loadPeerSealPkFile _) with (loadPeerSealPkFile p). rewrite Hf. unfold WriteFileAtomic.
  destruct (next_io _) as [o3 p3] eqn:H3. apply next_io_eq in H3 as [io3 ->].
  destruct o3; intros; simplify_eq; by exists io3.
Qed.

Lemma pinned_put peer rec f p peer' :
  peerSealPksPath p ≠ "" → loadPeerSealPkFile p = Ok f → ps_Fp rec ≠ "" →
  pinned (put_record peer rec f p) peer' = if decide (peer' = peer) then Some rec else pinned p peer'.
Proof.
  intros Hp Hf Hr. unfold pinned. rewrite Hf.
  assert (loadPeerSealPkFile (put_record peer rec f p) =
    Ok (<[signingPinOwner p := <[peer := rec]> (default ∅ (f !! signingPinOwner p))]> f)) as ->.
  { unfold loadPeerSealPkFile. rewrite decide_False by done. done. }
  change (signingPinOwner (put_record peer rec f p)) with (signingPinOwner p).
  rewrite lookup_insert_eq. simpl. case_decide as Hd.
  - subst. rewrite lookup_insert_eq. simpl. by rewrite option_guard_True.
  - rewrite lookup_insert_ne by done. by destruct (f !! signingPinOwner p).
Qed.

Lemma peerSealRecord_pinned peer p rec have :
  peerSealRecord peer p = Ok (rec, have) →
  signingPinOwner p ≠ "" ∧ pinned p peer = (if have then Some rec else None) ∧
  ∃ f, loadPeerSealPkFile p = Ok f.
Proof.
  unfold peerSealRecord, pinned. cbv zeta. case_decide as Hown; [done|].
  intros (f & -> & H)%bind_Ok_inv. split; [naive_solver|]. split; [|eauto].
  destruct (f !! _ ≫= _) as [r|]; simplify_eq/=; [|done].
  destruct (decide (ps_Fp rec ≠ "")) as [Hd|Hd].
  - by rewrite option_guard_True, bool_decide_eq_true_2.
  - by rewrite option_guard_False, bool_decide_eq_false_2.
Qed.

Lemma sealRotationAttributable_signed rec b :
  sealRotationAttributable parse_sig rec b = true →
  ps_Ed rec ≠ "" ∧ ps_Ml rec ≠ "" ∧ signed_under (ps_Ed rec) (ps_Ml rec) b ∧
  signingAnchors b = (ps_Ed rec, ps_Ml rec).
Proof.
  unfold sealRotationAttributable, anchored. rewrite !andb_true_iff, !bool_decide_eq_true.
  intros [[[He Hm] Ha] Hs]. split; [done|]. split; [done|]. split; [|done]. unfold signed_under.
  unfold signingAnchors in Ha. destruct (signing_sizes b); simplify_eq/=.
  do 3 (split; [done|]). unfold bundleSelfSigned in Hs.
  destruct (usableSealKey _ && _ && _); [|done]. destruct (parse_sig _) as [blob|]; [|done].
  case_decide; [|done]. destruct (base64_decode _) as [sigEd|]; [|done].
  destruct (base64_decode _) as [sigMl|]; [|done]. unfold VerifyKeyBundle in Hs.
  destruct (keyBundleInput _) as [input|]; [|done]. case_decide; [|done].
  destruct (ed25519_Verify _ _ _) eqn:Hv; [|done]. destruct (mldsa_Verify _ _ _) eqn:Hw; [|done]. subst.
  exists input, sigEd, sigMl. done.
Qed.

Lemma pin_record_signed ed ml b :
  signed_under ed ml b → ps_Ed (pin_record b) = ed ∧ ps_Ml (pin_record b) = ml.
Proof. intros (Hs & <- & <- & _). unfold pin_record, signingAnchors. by rewrite Hs. Qed.

Lemma store_pin_spec peer b p e p1 :
  store_reachable p peer → (∃ f, loadPeerSealPkFile p = Ok f) → store_pin peer b p = (e, p1) →
  (∀ other, other ≠ peer → pinned p1 other = pinned p other) ∧
  match e with
  | None => pinned p1 peer = Some (pin_record b)
  | Some e => pinned p1 peer = pinned p peer ∧ IsSealPinFailure e = true ∧ p_io p ≠ []
  end.
Proof.
  intros Hr [f Hf] Hs. unfold store_pin in Hs.
  destruct (writePeerSealRecord _ _ _) as [e' p'] eqn:Hw. simplify_eq/=.
  assert (e' = None ∨ p_io p ≠ []) as Hio.
  { destruct (decide (p_io p = [])) as [Hn|]; [left|by right]. destruct Hr as (Hp & Ho & Hv). revert Hw.
    unfold writePeerSealRecord. rewrite decide_False by (rewrite Hv; naive_solver). unfold WriteFileAtomic.
    do 2 (rewrite (next_io_nil p Hn); cbv beta iota). rewrite Hf, (next_io_nil p Hn). naive_solver. }
  pose proof (writePeerSealRecord_spec _ _ _ _ _ _ Hr Hf Hw) as [io Hp']. destruct e' as [e'|]; simpl; subst p1.
  - split; [done|]. split; [done|]. naive_solver.
  - destruct Hr as (Hp & Ho & Hv).
    assert (∀ q, pinned (put_record peer (pin_record b) f (p <| p_io := io |>)) q =
      if decide (q = peer) then Some (pin_record b) else pinned p q) as Hpin.
    { intros q. change (pinned p q) with (pinned (p <| p_io := io |>) q).
      apply pinned_put; [done|done|].
      rewrite pin_record_Fp. apply sealKeyFingerprint_ne. }
    split; [intros other Ho'|]; rewrite Hpin; by case_decide.
Qed.

(** One offer: what it does to the abstract store. *)
Lemma PinPeerSealKey_step peer b p e p1 :
  PinPeerSealKey parse_sig peer (Some b) p = (e, p1) →
  (∀ other, other ≠ peer → pinned p1 other = pinned p other) ∧
  match e with
  | None => accepts (pinned p peer) b (pinned p1 peer) ∧
            ps_Fp <$> pinned p1 peer = Some (sealKeyFingerprint (pb_X25519 b) (pb_Kyber b)) ∧
            validPeerName peer = true ∧ usableSealKey (Some b) = true
  | Some e => pinned p1 peer = pinned p peer ∧ IsSealPinFailure e = true
  end.
Proof.
  unfold PinPeerSealKey. destruct (validPeerName peer) eqn:Hv; [|intros; by simplify_eq/=].
  rewrite decide_False by done. destruct (usableSealKey _) eqn:Hu; [|intros; by simplify_eq/=]. cbv zeta.
  destruct (peerSealRecord peer p) as [[rec have]|e0] eqn:Hrec; [|intros; by simplify_eq/=].
  apply peerSealRecord_pinned in Hrec as (Ho & Hpin & f & Hf).
  assert (store_reachable p peer) as Hr.
  { split; [|done]. intros Hn. unfold loadPeerSealPkFile in Hf. cbv zeta in Hf. by rewrite decide_True in Hf. }
  assert (ps_Fp <$> Some (pin_record b) = Some (sealKeyFingerprint (pb_X25519 b) (pb_Kyber b))) as Hfp.
  { simpl. by rewrite pin_record_Fp. }
  destruct have; [|intros Hs].
  - case_decide as Hsame; [intros; simplify_eq|].
    { split; [done|]. rewrite Hpin. split; [by constructor|]. simpl. by rewrite Hsame. }
    destruct (sealRotationAttributable _ _ _) eqn:Hrot; [intros Hs|intros; by simplify_eq/=].
    apply store_pin_spec in Hs as [Hoth Hs]; [|done|eauto]. split; [done|]. destruct e; [naive_solver|].
    rewrite Hs, Hpin. split; [|done]. apply sealRotationAttributable_signed in Hrot as (He & Hm & Hs' & _).
    by constructor.
  - apply store_pin_spec in Hs as [Hoth Hs]; [|done|eauto]. split; [done|]. destruct e; [naive_solver|].
    rewrite Hs, Hpin. split; [constructor|done].
Qed.

(** When the store can be read and written, an offer is refused only for
    another key than the pinned one that no signature attributes. *)
Lemma PinPeerSealKey_refused peer b p e p1 :
  store_reachable p peer → (∃ f, loadPeerSealPkFile p = Ok f) → p_io p = [] → usableSealKey (Some b) = true →
  PinPeerSealKey parse_sig peer (Some b) p = (e, p1) →
  e ≠ None ↔ ∃ rec, pinned p peer = Some rec ∧
    ps_Fp rec ≠ sealKeyFingerprint (pb_X25519 b) (pb_Kyber b) ∧ sealRotationAttributable parse_sig rec b = false.
Proof.
  intros Hr [f Hf] Hio Hu. pose proof Hr as (Hp & Ho & Hv). unfold PinPeerSealKey.
  rewrite Hv, decide_False, Hu by done. cbv zeta.
  assert (∃ rec have, peerSealRecord peer p = Ok (rec, have)) as (rec & have & Hrec).
  { unfold peerSealRecord. rewrite Hv, decide_False, Hf, bind_Ok by naive_solver.
    destruct (_ ≫= _); eauto. }
  rewrite Hrec. apply peerSealRecord_pinned in Hrec as (_ & -> & _).
  assert (∀ e p1, store_pin peer b p = (e, p1) → e = None) as Hst.
  { intros e' p' Hs. apply store_pin_spec in Hs as [_ Hs]; [|done|eauto]. destruct e'; naive_solver. }
  destruct have; [|intros Hs%Hst; naive_solver].
  case_decide; [intros; simplify_eq; naive_solver|].
  destruct (sealRotationAttributable _ _ _) eqn:Hrot; [intros ->%Hst; split; [done|intros (? & [= <-] & _ & ?); congruence]|intros [= <- <-]; naive_solver].
Qed.

(** Any sequence of bundles a server offers, for any contacts. *)
Fixpoint offers (l : list (string * option PeerKeyBundle)) p : Pins :=
  match l with
  | [] => p
  | (peer, b) :: rest => offers rest (PinPeerSealKey parse_sig peer b p).2
  end.

Lemma PinPeerSealKey_none peer p : pinned (PinPeerSealKey parse_sig peer None p).2 = pinned p.
Proof. unfold PinPeerSealKey. by case_decide. Qed.

(** C20: Offers implement the abstract store: an accepted offer is a step of it
    that leaves the offered key pinned, a refused one changes no pin, no other
    contact is touched, and, with a store that can be read and written, the
    offers refused are those of another key than the pinned one without a
    signature under the pin's anchors. *)
Theorem PinPeerSealKey_refines p peer b e p1 :
  PinPeerSealKey parse_sig peer (Some b) p = (e, p1) →
  (∀ other, other ≠ peer → pinned p1 other = pinned p other) ∧
  match e with
  | None => accepts (pinned p peer) b (pinned p1 peer) ∧
            ps_Fp <$> pinned p1 peer = Some (sealKeyFingerprint (pb_X25519 b) (pb_Kyber b))
  | Some e => pinned p1 peer = pinned p peer ∧ IsSealPinFailure e = true
  end ∧
  (store_reachable p peer → (∃ f, loadPeerSealPkFile p = Ok f) → p_io p = [] → usableSealKey (Some b) = true →
   e ≠ None ↔ ∃ rec, pinned p peer = Some rec ∧
     ps_Fp rec ≠ sealKeyFingerprint (pb_X25519 b) (pb_Kyber b) ∧ sealRotationAttributable parse_sig rec b = false).
Proof.
  intros Hp. pose proof (PinPeerSealKey_step _ _ _ _ _ Hp) as [Hoth He]. split; [done|]. split.
  - destruct e; naive_solver.
  - intros. by eapply PinPeerSealKey_refused.
Qed.

(** Whatever a server offers, in any order and under any write failures, a
    contact that is pinned stays pinned with the same signing anchors; its
    sealing key changes only to one of a bundle signed under them, and never
    changes when the pin has no anchors. *)
Theorem offers_keep_anchors l p peer rec :
  pinned p peer = Some rec →
  ∃ rec', pinned (offers l p) peer = Some rec' ∧ ps_Ed rec' = ps_Ed rec ∧ ps_Ml rec' = ps_Ml rec ∧
    (ps_Fp rec' = ps_Fp rec ∨
     anchored rec = true ∧ ∃ b, (peer, Some b) ∈ l ∧ signed_under (ps_Ed rec) (ps_Ml rec) b ∧
       ps_Fp rec' = sealKeyFingerprint (pb_X25519 b) (pb_Kyber b)).
Proof.
  revert p rec. induction l as [|[q ob] l IH]; intros p rec Hp; cbn [offers]; [naive_solver|].
  assert (∃ rec1, pinned (PinPeerSealKey parse_sig q ob p).2 peer = Some rec1 ∧
    ps_Ed rec1 = ps_Ed rec ∧ ps_Ml rec1 = ps_Ml rec ∧
    (ps_Fp rec1 = ps_Fp rec ∨ anchored rec = true ∧ ∃ b, (peer, Some b) = (q, ob) ∧
       signed_under (ps_Ed rec) (ps_Ml rec) b ∧ ps_Fp rec1 = sealKeyFingerprint (pb_X25519 b) (pb_Kyber b)))
    as (rec1 & Hp1 & He & Hm & Hf).
  { destruct ob as [b|]; [|rewrite PinPeerSealKey_none; naive_solver].
    destruct (PinPeerSealKey _ _ _ _) as [e p1] eqn:Hq. apply PinPeerSealKey_step in Hq as [Hoth Hstep].
    cbn [snd]. destruct (decide (q = peer)) as [->|]; [|rewrite Hoth by done; naive_solver].
    destruct e as [e|]; [destruct Hstep as [-> _]; naive_solver|]. destruct Hstep as (Hacc & _).
    rewrite Hp in Hacc. inversion Hacc as [| |? ? Ha1 Ha2 Hsg]; simplify_eq; [naive_solver|].
    destruct (pin_record_signed _ _ _ Hsg) as [Hed Hml]. eexists. split; [done|]. do 2 (split; [done|]). right.
    split; [by apply bool_decide_eq_true_2|]. exists b. rewrite pin_record_Fp. done. }
  destruct (IH _ _ Hp1) as (rec2 & H2 & He2 & Hm2 & Hf2). exists rec2. split; [done|].
  split; [congruence|]. split; [congruence|]. unfold anchored in *. rewrite He, Hm in Hf2.
  destruct Hf2 as [->|(Ha & b & Hb & Hsg & Hfp)].
  - destruct Hf as [|(Ha & b & Hb & Hsg & Hfp)]; [naive_solver|]. right. split; [done|]. exists b. set_solver.
  - right. split; [done|]. exists b. split; [|done]. by apply list_elem_of_further.
Qed.
End spec.

(** ** Examples: a contact pinned with its signing keys, then a rotation *)

Definition ex_signing : SigningPublicKeySet * SigningPrivateKeySet :=
  GenerateSigningKeyPair (replicate 32 x02) (replicate 40 x03).
Definition ex_bundle (x : byte) : PeerKeyBundle :=
  mkPeerKeyBundle (replicate 32 x) (replicate KyberPublicKeySize x)
    (spk_Ed25519 ex_signing.1) (spk_Mldsa ex_signing.1) [x01].
Definition ex_sigs (x : byte) : result error (bytes * bytes) :=
  let b := ex_bundle x in
  SignKeyBundle (mkKeyBundle (pb_X25519 b) (pb_Kyber b) (pb_Ed25519 b) (pb_Mldsa b)) (Some ex_signing.2).
(** The only blob is the signature of the bundle of [x09]. *)
Definition ex_parse (_ : bytes) : option keyBundleSigBlob :=
  match ex_sigs x09 with
  | Ok (e, m) => Some (mkKeyBundleSigBlob 1 (base64_encode e) (base64_encode m))
  | Err _ => None
  end.

Definition ex_account : bytes := replicate 32 x01.
Definition ex_no_pins : Pins :=
  mkPins "/home/u/.config/pigcloud" (base64_encode ex_account) FileAbsent FileAbsent FileAbsent FileAbsent [].
Definition ex_pins : Pins := (PinPeerSealKey ex_parse "bob" (Some (ex_bundle x08)) ex_no_pins).2.

Lemma PinPeerSealKey_refines_witness :
  let out := PinPeerSealKey ex_parse "bob" (Some (ex_bundle x09)) ex_pins in
  out.1 = None ∧ accepts (pinned ex_pins "bob") (ex_bundle x09) (pinned out.2 "bob").
Proof.
  cbv zeta. pose proof (PinPeerSealKey_refines ex_parse ex_pins "bob" (ex_bundle x09) _ _ (surjective_pairing _))
    as (_ & Hacc & _).
  assert ((PinPeerSealKey ex_parse "bob" (Some (ex_bundle x09)) ex_pins).1 = None) as Hok by (vm_compute; reflexivity).
  rewrite Hok in Hacc. split; [exact Hok|exact (proj1 Hacc)].
Defined.

Lemma offers_keep_anchors_witness :
  ∃ rec', pinned (offers ex_parse [("bob", Some (ex_bundle x0a)); ("bob", Some (ex_bundle x09)); ("eve", None)] ex_pins)
            "bob" = Some rec' ∧
    ps_Ed rec' = ps_Ed (pin_record (ex_bundle x08)) ∧ ps_Ml rec' = ps_Ml (pin_record (ex_bundle x08)).
Proof.
  assert (pinned ex_pins "bob" = Some (pin_record (ex_bundle x08))) as Hp.
  { vm_compute. reflexivity. }
  destruct (offers_keep_anchors ex_parse
    [("bob", Some (ex_bundle x0a)); ("bob", Some (ex_bundle x09)); ("eve", None)] ex_pins "bob" _ Hp)
    as (rec' & H1 & H2 & H3 & _).
  exists rec'. exact (conj H1 (conj H2 H3)).
Defined.
