(* ===== verification/TeePin.v ===== *)
(** * Pins of the scanner enclave

    [internal/e2ee/tee_signing_pin.go]: the enclave's signing key set, the
    superseded ones that still verify old files, and its attestation posture,
    per account. *)
From S2P Require Import Prelude GoLib GoFmt ApiErrors Crypto Hybrid Sign PinStore.
Local Open Scope Z_scope.

Definition teeSigningPinVersion : Z := 1.
Definition teeRetiredPkLimit : nat := 8.
Definition teeSigningPksPath : Pins → string := store_path "tee_signing_pks.json".
(** [ErrTeeAttestationUnavailable] *)
Definition ErrTeeAttestationUnavailable : error := ErrText "tee_signing_pk_unattested".

(** The zero record. *)
Definition no_tee_pin : teeSigningPk := mkTeeSigningPk "" "" None [].

Definition pinned (r : teeSigningPk) : bool := bool_decide (ts_Ed r ≠ "" ∧ ts_Ml r ≠ "").

Definition accepts (r : teeSigningPk) (edB64 mlB64 : string) : bool :=
  (pinned r && bool_decide (ts_Ed r = edB64 ∧ ts_Ml r = mlB64)) ||
  existsb (λ t, bool_decide (rt_Ed t = edB64 ∧ rt_Ml t = mlB64)) (ts_Retired r).

Definition dropRetired (l : list retiredTeeSigningPk) (edB64 mlB64 : string) : list retiredTeeSigningPk :=
  filter (λ t, ¬ (rt_Ed t = edB64 ∧ rt_Ml t = mlB64)) l.

Definition errTeePinStoreUnreadable (path why : string) : error :=
  ErrText ("tee_pin_store_unreadable: " +:+ path +:+ " exists but cannot be used (" +:+ why +:+
    "), so nothing it pins can be checked and it was left untouched. Run `pc te repin` to set it aside and pin what the server offers after comparing fingerprints, or inspect or remove the file yourself").

(** The part of an attestation a posture is taken from. *)
Record servedAttestation : Type := mkServed {
  sa_Mode : string; sa_Mrenclave : string; sa_Quote : string; sa_Status : string;
  sa_SealingPk : string; sa_SealingPkKyber : string }.

Definition sgx (a : servedAttestation) : bool :=
  bool_decide (sa_Mode a = "epid" ∧ sa_Mrenclave a ≠ "" ∧ sa_Quote a ≠ "").

(** The answer of the attestation endpoint. *)
Record TeeAttestationResponse : Type := mkTeeAttestation {
  ta_Success : bool; ta_Enabled : bool; ta_Available : bool;
  ta_EnclavePublicKey : string; ta_EnclavePublicKeyKyber : string;
  ta_EnclaveSigningPkEd25519 : string; ta_EnclaveSigningPkMldsa : string;
  ta_AttestationMode : string; ta_SgxQuote : string; ta_Mrenclave : string; ta_VerificationStatus : string }.

Record TeeAttestationOffer : Type := mkOffer { o_Ed25519 : string; o_Mldsa : string; o_posture : teeAttestationPosture }.

Definition served (att : TeeAttestationResponse) : servedAttestation :=
  mkServed (ta_AttestationMode att) (ta_Mrenclave att) (ta_SgxQuote att) (ta_VerificationStatus att)
    (ta_EnclavePublicKey att) (ta_EnclavePublicKeyKyber att).

Definition teeAttestationAnswerable (resp : option TeeAttestationResponse) : result error unit :=
  match resp with
  | None => Err (ErrText "tee_attestation_unanswered: the server did not answer the attestation probe")
  | Some att =>
      _ ← ensure (ta_Success att = true) "tee_attestation_unanswered: the server did not answer the attestation probe";
      _ ← ensure (ta_Enabled att = true) "tee_scanner_disabled: this deployment runs no scanner, so there is no signing key to pin";
      _ ← ensure (ta_Available att = true) "tee_attestation_unavailable: the server reports the scanner as unavailable";
      _ ← ensure (ta_VerificationStatus att ≠ "untrusted") "tee_attestation_untrusted: the server reports its own enclave attestation as untrusted";
      _ ← ensure (¬ (sgx (served att) = true ∧ ta_VerificationStatus att ≠ "trusted"))
            "tee_attestation_unverified: the server reports SGX mode without a verified quote";
      ensure (ta_EnclaveSigningPkEd25519 att ≠ "" ∧ ta_EnclaveSigningPkMldsa att ≠ "")
            "tee_signing_pk_absent: the attestation carries no enclave signing key set"
  end.

(** [FetchTeeAttestation]'s outcome; an error or an answer, possibly nil. *)
Abbreviation attestation_answer := (result error (option TeeAttestationResponse)).

Definition fetchTeeSigningPk (answer : attestation_answer) : result error teeSigningPk :=
  resp ← answer;
  _ ← teeAttestationAnswerable resp;
  match resp with
  | None => Err go_panic
  | Some att => Ok (mkTeeSigningPk (ta_EnclaveSigningPkEd25519 att) (ta_EnclaveSigningPkMldsa att) None [])
  end.

(** [base64.StdEncoding.DecodeString] of a text that must have [n] bytes. *)
Definition decode_sized (s : string) (n : nat) (err : string) : result error bytes :=
  match base64_decode s with
  | Some l => _ ← ensure (length l = n) err; Ok l
  | None => Err (ErrText err)
  end.

Definition validateTeeSigningPair (edB64 mlB64 : string) : result error unit :=
  _ ← decode_sized edB64 Ed25519PKSize "tee_signing_pk_wrong_size: the offered Ed25519 signing key is not a valid 32-byte key";
  _ ← decode_sized mlB64 Mldsa44PKSize "tee_signing_pk_wrong_size: the offered ML-DSA signing key is not a valid 1312-byte key";
  Ok tt.

Definition postureFor (att : servedAttestation) : result error teeAttestationPosture :=
  _ ← decode_sized (sa_SealingPk att) 32 "tee_enclave_key_malformed: the server answered with an X25519 sealing key that is not 32 bytes";
  _ ← decode_sized (sa_SealingPkKyber att) KyberPublicKeySize "tee_enclave_key_malformed: the server answered with an ML-KEM sealing key of the wrong size";
  Ok (if sgx att then mkPosture "epid" (sa_Mrenclave att) (sa_SealingPk att) (sa_SealingPkKyber att)
      else mkPosture "none" "" (sa_SealingPk att) (sa_SealingPkKyber att)).

Definition OfferedTeeSigningPk (answer : attestation_answer) : result error TeeAttestationOffer :=
  resp ← answer;
  _ ← teeAttestationAnswerable resp;
  match resp with
  | None => Err go_panic
  | Some att =>
      _ ← validateTeeSigningPair (ta_EnclaveSigningPkEd25519 att) (ta_EnclaveSigningPkMldsa att);
      posture ← postureFor (served att);
      Ok (mkOffer (ta_EnclaveSigningPkEd25519 att) (ta_EnclaveSigningPkMldsa att) posture)
  end.

Definition teeRepinSidecarNote (path : string) : string :=
  "deleting " +:+ path +:+ " instead accepts the next one offered, which is also what an attacker needs, and drops every retired signing key with it".
Definition errTeeEnclavePkChanged (path : string) : error :=
  ErrText ("tee_enclave_pk_changed: the enclave sealing key differs from the one pinned for this account. If the scanner was deliberately rekeyed, `pc te repin` shows both keys and moves the pin; " +:+ teeRepinSidecarNote path).

(** ** The store *)

Section tee.
Context `{SS : Sha256Sum, ET : ErrorText}.

(** Groups of four hexadecimal characters. *)
Fixpoint hex_groups (s : string) : list string :=
  match s with
  | String.String a (String.String b (String.String c (String.String d rest))) =>
      String.String a (String.String b (String.String c (String.String d ""))) :: hex_groups rest
  | _ => []
  end.

Definition TeeSigningKeyFingerprint (edB64 mlB64 : string) : string :=
  match base64_decode edB64, base64_decode mlB64 with
  | Some ed, Some ml => join_with " " (hex_groups (hex_encode (sha256_Sum256 (ed ++ ml))))
  | _, _ => ""
  end.

Definition loadTeeSigningPkFile (p : Pins) : result error (gmap string teeSigningPk) :=
  let path := teeSigningPksPath p in
  if decide (path = "") then Ok ∅
  else match p_tee p with
       | FileAbsent => Ok ∅
       | FileUnreadable e => Err (errTeePinStoreUnreadable path (error_text e))
       | FileInvalid _ => Err (errTeePinStoreUnreadable path "it is not valid JSON")
       | FileDoc f =>
           if decide (tf_V f = teeSigningPinVersion) then Ok (default ∅ (tf_Owners f))
           else Err (errTeePinStoreUnreadable path
                  ("it is format version " +:+ fmt_d (tf_V f) +:+ " and this build reads version " +:+ fmt_d teeSigningPinVersion))
       end.

Definition teeSigningRecord (p : Pins) : result error teeSigningPk :=
  let owner := signingPinOwner p in
  if decide (owner = "") then Ok no_tee_pin
  else f ← loadTeeSigningPkFile p; Ok (default no_tee_pin (f !! owner)).

(** The record, or the zero one when it cannot be read. *)
Definition record_or_zero (p : Pins) : teeSigningPk :=
  match teeSigningRecord p with Ok rec => rec | Err _ => no_tee_pin end.

Definition pinnedTeeSigningPk (p : Pins) : teeSigningPk * bool := (record_or_zero p, pinned (record_or_zero p)).
Definition teeSigningPkPinned (p : Pins) : bool := pinned (record_or_zero p).

Definition TeeSigningPins (p : Pins) : option (string * string) * list retiredTeeSigningPk :=
  let rec := record_or_zero p in
  (if pinned rec then Some (ts_Ed rec, ts_Ml rec) else None, ts_Retired rec).

Definition writeTeeSigningPkFile (f : gmap string teeSigningPk) (p : Pins) : Pins :=
  write_quietly (λ p, p <| p_tee := FileDoc (mkTeeSigningPksFile teeSigningPinVersion (Some f)) |>) p.

(** A change of the account's record, when there is a store to keep it in and
    its file can be used. *)
Definition update_record (change : teeSigningPk → teeSigningPk) (p : Pins) : Pins :=
  let owner := signingPinOwner p in
  if decide (teeSigningPksPath p = "" ∨ owner = "") then p
  else match loadTeeSigningPkFile p with
       | Err _ => p
       | Ok f => writeTeeSigningPkFile (<[owner := change (default no_tee_pin (f !! owner))]> f) p
       end.

Definition recordTeeSigningPk (edB64 mlB64 : string) (p : Pins) : Pins :=
  if decide (edB64 = "" ∨ mlB64 = "") then p
  else update_record (λ rec, rec <| ts_Ed := edB64 |> <| ts_Ml := mlB64 |>) p.

Definition recordTeeAttestationPosture (q : teeAttestationPosture) (p : Pins) : Pins :=
  if decide (tp_Mode q = "") then p else update_record (λ rec, rec <| ts_Posture := Some q |>) p.

Definition pinnedTeeAttestationPosture (p : Pins) : result error (option teeAttestationPosture) :=
  let owner := signingPinOwner p in
  if decide (owner = "") then Ok None
  else
    f ← loadTeeSigningPkFile p;
    match f !! owner ≫= ts_Posture with
    | None => Ok None
    | Some q =>
        if decide (tp_Mode q ≠ "epid" ∧ tp_Mode q ≠ "none") then
          Err (errTeePinStoreUnreadable (teeSigningPksPath p)
                 ("this account's scanner posture has mode " +:+ fmt_q (tp_Mode q) +:+ ", which this build does not know"))
        else Ok (Some q)
    end.

(** The commit to run once the sealing key is used; [teeNotice]s are not
    modelled. *)
Definition checkTeeAttestationPosture (att : servedAttestation) (p : Pins) : result error (Pins → Pins) :=
  let path := teeSigningPksPath p in
  _ ← ensure (sa_Status att ≠ "untrusted") "tee_attestation_untrusted: the server reports its own enclave attestation as untrusted";
  _ ← ensure (¬ (sgx att = true ∧ sa_Status att ≠ "trusted")) "tee_attestation_unverified: the server reports SGX mode without a verified quote";
  offered ← postureFor att;
  let commit := recordTeeAttestationPosture offered in
  pinned ← pinnedTeeAttestationPosture p;
  match pinned with
  | None => Ok commit
  | Some pinned =>
      if decide (tp_Mode pinned = "epid" ∧ tp_Mode offered ≠ "epid") then
        Err (ErrText ("tee_attestation_downgraded: this account last saw an SGX enclave and the server now offers an unattested key. If the deployment deliberately left SGX, `pc te repin` shows both postures and moves the pin; " +:+ teeRepinSidecarNote path))
      else if decide (tp_Mode pinned ≠ tp_Mode offered) then
        Err (ErrText ("tee_attestation_mode_changed: the server now claims an SGX enclave where this account pinned an unattested key, and this client cannot verify that claim. If the deployment deliberately moved to SGX, `pc te repin` shows both postures and moves the pin; " +:+ teeRepinSidecarNote path))
      else if decide (tp_Mode offered = "epid" ∧ tp_Mrenclave offered ≠ tp_Mrenclave pinned) then
        Err (ErrText ("tee_mrenclave_changed: the enclave measurement differs from the one pinned for this account. If the scanner was deliberately rebuilt, `pc te repin` shows both measurements and moves the pin; " +:+ teeRepinSidecarNote path))
      else if decide (tp_SealingPk offered ≠ tp_SealingPk pinned) then Err (errTeeEnclavePkChanged path)
      else if decide (tp_SealingPkKyber pinned = "") then Ok commit
      else if decide (tp_SealingPkKyber offered ≠ tp_SealingPkKyber pinned) then Err (errTeeEnclavePkChanged path)
      else Ok id
  end.

Definition teeKeySetMatchesPin (set : option PublicKeySet) (p : Pins) : bool :=
  match pinnedTeeAttestationPosture p, set with
  | Ok (Some pinned), Some set =>
      bool_decide (tp_SealingPk pinned = base64_encode (pk_X25519 set) ∧
                   tp_SealingPkKyber pinned = base64_encode (pk_Kyber set))
  | _, _ => false
  end.

(** ** Moving the pin *)

(** The record after a repin; [retiredAt] is the formatted clock. *)
Definition repinned (offer : TeeAttestationOffer) (retiredAt : string) (rec : teeSigningPk) : teeSigningPk :=
  let rec :=
    if decide (ts_Ed rec = o_Ed25519 offer ∧ ts_Ml rec = o_Mldsa offer) then rec
    else
      let retired :=
        if decide (ts_Ed rec ≠ "" ∧ ts_Ml rec ≠ "") then
          dropRetired (ts_Retired rec) (ts_Ed rec) (ts_Ml rec) ++ [mkRetired (ts_Ed rec) (ts_Ml rec) retiredAt]
        else ts_Retired rec in
      let retired := dropRetired retired (o_Ed25519 offer) (o_Mldsa offer) in
      mkTeeSigningPk (o_Ed25519 offer) (o_Mldsa offer) (ts_Posture rec) (keep_last teeRetiredPkLimit retired) in
  rec <| ts_Posture := Some (o_posture offer) |>.

(** The file, or an empty one once an unusable file was set aside. *)
Definition load_or_set_aside (p : Pins) : result error (gmap string teeSigningPk) * Pins :=
  match loadTeeSigningPkFile p with
  | Ok f => (Ok f, p)
  | Err err =>
      let (rename, p) := next_io p in
      match rename with
      | Some e => (Err (ErrWrap "setting it aside failed" err), p)
      | None => (Ok ∅, p <| p_tee := FileAbsent |>)
      end
  end.

(** [RepinTeeSigningPk] up to the forgetting of the session's memos. *)
Definition RepinTeeSigningPk (offer : option TeeAttestationOffer) (retiredAt : string) (p : Pins)
    : result error unit * Pins :=
  let path := teeSigningPksPath p in
  let owner := signingPinOwner p in
  if decide (path = "" ∨ owner = "") then
    (Err (ErrText "no account key set is configured, so there is no pin to move"), p)
  else match offer with
  | None => (Err (ErrText "no attestation answer to pin"), p)
  | Some offer =>
      match validateTeeSigningPair (o_Ed25519 offer) (o_Mldsa offer) with
      | Err e => (Err e, p)
      | Ok _ =>
          if decide (TeeSigningKeyFingerprint (o_Ed25519 offer) (o_Mldsa offer) = "") then
            (Err (ErrText "tee_signing_pk_unfingerprintable: the offered key set has no fingerprint to show"), p)
          else
            let (loaded, p) := load_or_set_aside p in
            match loaded with
            | Err e => (Err e, p)
            | Ok f =>
                let rec := default no_tee_pin (f !! owner) in
                if decide (ts_Ed rec = o_Ed25519 offer ∧ ts_Ml rec = o_Mldsa offer ∧ ts_Posture rec = Some (o_posture offer))
                then (Err (ErrText "that attestation is already the pinned one"), p)
                else (Ok tt, writeTeeSigningPkFile (<[owner := repinned offer retiredAt rec]> f) p)
            end
      end
  end.

Definition ForgetRetiredTeeSigningPk (fingerprint : string) (p : Pins) : bool * Pins :=
  let owner := signingPinOwner p in
  if decide (teeSigningPksPath p = "" ∨ owner = "" ∨ fingerprint = "") then (false, p)
  else match loadTeeSigningPkFile p with
       | Err _ => (false, p)
       | Ok f =>
           let rec := default no_tee_pin (f !! owner) in
           let kept := filter (λ r, TeeSigningKeyFingerprint (rt_Ed r) (rt_Ml r) ≠ fingerprint) (ts_Retired rec) in
           if decide (length kept = length (ts_Retired rec)) then (false, p)
           else (true, writeTeeSigningPkFile (<[owner := rec <| ts_Retired := kept |>]> f) p)
       end.

(** ** Checking a served signing key *)

(** [teeSigningAtt] and [teeSigningAttNextTry]. *)
Record AttestedMemo : Type := mkAttestedMemo { am_Att : option teeSigningPk; am_NextTry : Z }.
Definition teeSigningAttThrottle : Z := minute.

Definition attestedTeeSigningPk (now : Z) (answer : attestation_answer) (m : AttestedMemo)
    : option teeSigningPk * AttestedMemo :=
  match am_Att m with
  | Some pk => (Some pk, m)
  | None =>
      if decide (now < am_NextTry m) then (None, m)
      else match fetchTeeSigningPk answer with
           | Err _ => (None, mkAttestedMemo None (now + teeSigningAttThrottle))
           | Ok pk => (Some pk, mkAttestedMemo (Some pk) (now + teeSigningAttThrottle))
           end
  end.

(** The commit to run once the signatures verify. *)
Definition checkTeeSigningPks (now : Z) (answer : attestation_answer) (edB64 mlB64 : string) (p : Pins)
    (m : AttestedMemo) : result error (Pins → Pins) * AttestedMemo :=
  match teeSigningRecord p with
  | Err e => (Err e, m)
  | Ok rec =>
      if pinned rec then
        if accepts rec edB64 mlB64 then (Ok id, m)
        else (Err (ErrText ("tee_signing_pk_changed: the enclave signing key differs from the one pinned for this account. If the enclave was deliberately rekeyed, `pc te repin` shows both fingerprints and moves the pin, keeping the files the old key signed readable; deleting " +:+ teeSigningPksPath p +:+ " instead accepts the next key it is offered, which is also what an attacker needs, and refuses every file the old key signed")), m)
      else
        let (att, m) := attestedTeeSigningPk now answer m in
        match att with
        | None => (Err ErrTeeAttestationUnavailable, m)
        | Some att =>
            if decide (ts_Ed att ≠ edB64 ∨ ts_Ml att ≠ mlB64) then
              (Err (ErrText "tee_signing_pk_untrusted: the served enclave signing key is not the attested one"), m)
            else (Ok (recordTeeSigningPk edB64 mlB64), m)
        end
  end.
End tee.

(** ** What the store of enclave keys keeps *)

Definition key_of (t : retiredTeeSigningPk) : string * string := (rt_Ed t, rt_Ml t).

(** A record is well formed: at most eight superseded keys, none twice, and none
    before a key is pinned. *)
Definition tee_wf (r : teeSigningPk) : Prop :=
  (pinned r = false → ts_Retired r = []) ∧ (length (ts_Retired r) ≤ teeRetiredPkLimit)%nat ∧
  NoDup (key_of <$> ts_Retired r).

Section spec.
Context `{SS : Sha256Sum, ET : ErrorText}.
Implicit Types (p : Pins) (r : teeSigningPk).

Lemma keys_dropRetired l ed ml :
  key_of <$> dropRetired l ed ml = filter (λ k, k ≠ (ed, ml)) (key_of <$> l).
Proof.
  induction l as [|t l IH]; [done|]. unfold dropRetired in *. rewrite fmap_cons, !filter_cons.
  destruct (decide (key_of t = (ed, ml))) as [Hk|Hk].
  - rewrite !decide_False; [done|naive_solver|]. unfold key_of in Hk. naive_solver.
  - rewrite !decide_True; [by rewrite fmap_cons, IH|done|]. unfold key_of in Hk. naive_solver.
Qed.

Lemma keep_last_sublist {T} n (l : list T) : sublist (keep_last n l) l.
Proof. apply sublist_drop. Qed.
Lemma length_keep_last {T} n (l : list T) : (length (keep_last n l) ≤ n)%nat.
Proof. unfold keep_last. rewrite length_drop. lia. Qed.
Lemma keep_last_snoc {T} n (l : list T) x : keep_last (S n) (l ++ [x]) = keep_last n l ++ [x].
Proof.
  unfold keep_last. rewrite length_app. simpl. rewrite drop_app_le by lia. do 2 f_equal. lia.
Qed.

Lemma accepts_spec r ed ml :
  accepts r ed ml = true ↔ (pinned r = true ∧ (ed, ml) = (ts_Ed r, ts_Ml r)) ∨ (ed, ml) ∈ key_of <$> ts_Retired r.
Proof.
  unfold accepts. rewrite orb_true_iff, andb_true_iff, bool_decide_eq_true, existsb_exists, list_elem_of_fmap.
  unfold key_of. setoid_rewrite bool_decide_eq_true. setoid_rewrite list_elem_of_In. naive_solver.
Qed.

(** A repinned record is well formed, pins the offer, and still accepts the key
    it supersedes. *)
Lemma repinned_wf offer at_ r :
  o_Ed25519 offer ≠ "" → o_Mldsa offer ≠ "" → tee_wf r → tee_wf (repinned offer at_ r).
Proof.
  intros He Hm Hwf. pose proof Hwf as (Hp & Hlen & Hnd). unfold repinned. case_decide as Hsame; [done|].
  unfold tee_wf. cbn [ts_Ed ts_Ml ts_Retired over_field].
  set (base := if decide (ts_Ed r ≠ "" ∧ ts_Ml r ≠ "") then _ else _).
  assert (NoDup (key_of <$> base)) as Hb.
  { unfold base. case_decide; [|done]. rewrite fmap_app, keys_dropRetired. apply NoDup_app.
    split; [by apply NoDup_filter|]. split; [|apply NoDup_singleton].
    intros k Hk%list_elem_of_filter Hk'%list_elem_of_singleton. naive_solver. }
  assert (sublist (key_of <$> keep_last teeRetiredPkLimit (dropRetired base (o_Ed25519 offer) (o_Mldsa offer)))
            (key_of <$> dropRetired base (o_Ed25519 offer) (o_Mldsa offer))) as Hsub
    by apply fmap_sublist, keep_last_sublist.
  rewrite keys_dropRetired in Hsub. split; [|split].
  - unfold pinned. cbn. rewrite bool_decide_eq_true_2; done.
  - apply length_keep_last.
  - eapply sublist_NoDup; [|exact Hsub]. by apply NoDup_filter.
Qed.

(** *** Writes *)

Lemma next_io_split p o p1 : next_io p = (o, p1) → ∃ io, p1 = p <| p_io := io |> ∧ (p_io p = [] → o = None ∧ io = []).
Proof.
  unfold next_io. destruct (p_io p) eqn:Hio; intros [= <- <-]; [exists []|eexists; split; [done|done]].
  split; [|done]. destruct p. simpl in Hio. by subst.
Qed.

(** The store after a write: unchanged, or the new document. *)
Lemma writeTeeSigningPkFile_spec f p : ∃ io, 
  (writeTeeSigningPkFile f p = p <| p_io := io |> ∧ p_io p ≠ []) ∨
  writeTeeSigningPkFile f p =
    p <| p_io := io |> <| p_tee := FileDoc (mkTeeSigningPksFile teeSigningPinVersion (Some f)) |>.
Proof.
  unfold writeTeeSigningPkFile, write_quietly, WriteFileAtomic.
  destruct (next_io p) as [o1 p1] eqn:H1. apply next_io_split in H1 as (io1 & -> & H1).
  destruct (next_io _) as [o2 p2] eqn:H2. apply next_io_split in H2 as (io2 & -> & H2).
  exists io2. destruct o2; [left|by right]. split; [done|]. intros Hn. destruct (H1 Hn) as [_ ->]. by destruct H2.
Qed.

Definition tee_store p : Prop := teeSigningPksPath p ≠ "" ∧ signingPinOwner p ≠ "".

Lemma teeSigningRecord_written p io f : tee_store p →
  teeSigningRecord (p <| p_io := io |> <| p_tee := FileDoc (mkTeeSigningPksFile teeSigningPinVersion (Some f)) |>) =
  Ok (default no_tee_pin (f !! signingPinOwner p)).
Proof.
  intros [Hp Ho]. unfold teeSigningRecord. cbv zeta. rewrite decide_False by done. unfold loadTeeSigningPkFile.
  cbv zeta. rewrite decide_False by done. reflexivity.
Qed.

(** A change of the record is kept, or lost with the failing write. *)
Lemma update_written change p f : tee_store p → loadTeeSigningPkFile p = Ok f →
  let p1 := writeTeeSigningPkFile (<[signingPinOwner p := change (default no_tee_pin (f !! signingPinOwner p))]> f) p in
  ∃ r r1, teeSigningRecord p = Ok r ∧ teeSigningRecord p1 = Ok r1 ∧ (r1 = r ∧ p_io p ≠ [] ∨ r1 = change r).
Proof.
  intros Hst Hf. cbv zeta. exists (default no_tee_pin (f !! signingPinOwner p)).
  assert (teeSigningRecord p = Ok (default no_tee_pin (f !! signingPinOwner p))) as Hr.
  { unfold teeSigningRecord. cbv zeta. rewrite decide_False by apply Hst. by rewrite Hf. }
  destruct (writeTeeSigningPkFile_spec (<[signingPinOwner p := change (default no_tee_pin (f !! signingPinOwner p))]> f) p)
    as (io & [[-> Hio]| ->]); eexists; (split; [exact Hr|]).
  - change (teeSigningRecord (p <| p_io := io |>)) with (teeSigningRecord p). split; [exact Hr|by left].
  - rewrite teeSigningRecord_written by done. split; [reflexivity|]. right. by rewrite lookup_insert_eq.
Qed.

Lemma teeSigningRecord_inv p r : teeSigningRecord p = Ok r →
  (signingPinOwner p = "" ∧ r = no_tee_pin) ∨
  (signingPinOwner p ≠ "" ∧ ∃ f, loadTeeSigningPkFile p = Ok f ∧ r = default no_tee_pin (f !! signingPinOwner p)).
Proof.
  unfold teeSigningRecord. cbv zeta. case_decide; [intros; simplify_eq; by left|].
  intros (f & Hf & [= <-])%bind_Ok_inv. right. eauto.
Qed.

(** Every update of the record by a check: the record stays or takes the change. *)
Lemma update_record_spec change p r : teeSigningRecord p = Ok r →
  ∃ r1, teeSigningRecord (update_record change p) = Ok r1 ∧
    (r1 = r ∧ (p_io p ≠ [] ∨ ¬ tee_store p) ∨ r1 = change r).
Proof.
  intros Hr. unfold update_record. cbv zeta. case_decide as Hd.
  { exists r. split; [done|]. left. split; [done|]. right. unfold tee_store. naive_solver. }
  apply teeSigningRecord_inv in Hr as [[? _]|(Ho & f & Hf & ->)]; [naive_solver|]. rewrite Hf.
  assert (tee_store p) as Hst by (unfold tee_store; naive_solver).
  destruct (update_written change p f Hst Hf) as (r0 & r1 & H0 & H1 & H2). exists r1. split; [done|].
  apply teeSigningRecord_inv in H0 as [[? _]|(_ & f' & Hf' & ->)]; [naive_solver|].
  assert (f' = f) as -> by congruence.
  destruct H2 as [[-> ?]| ->]; [left; split; [done|by left]|by right].
Qed.

(** *** The invariant *)

Definition tee_ok p : Prop := ∀ r, teeSigningRecord p = Ok r → tee_wf r.

Lemma no_tee_pin_wf : tee_wf no_tee_pin.
Proof. split; [done|]. split; [simpl; lia|constructor]. Qed.

Lemma tee_wf_posture r q : tee_wf r → tee_wf (r <| ts_Posture := q |>).
Proof. done. Qed.

Lemma tee_wf_key r ed ml : tee_wf r → ed ≠ "" → ml ≠ "" → tee_wf (r <| ts_Ed := ed |> <| ts_Ml := ml |>).
Proof.
  intros (_ & Hl & Hn) He Hm. split; [|done]. unfold pinned. cbn [ts_Ed ts_Ml over_field].
  by rewrite bool_decide_eq_true_2.
Qed.

Lemma tee_wf_kept r (P : retiredTeeSigningPk → Prop) `{∀ t, Decision (P t)} :
  tee_wf r → tee_wf (r <| ts_Retired := filter P (ts_Retired r) |>).
Proof.
  intros (Hp & Hl & Hn). unfold tee_wf. cbn [ts_Ed ts_Ml ts_Retired over_field].
  assert (sublist (key_of <$> filter P (ts_Retired r)) (key_of <$> ts_Retired r)) as Hs
    by apply fmap_sublist, sublist_filter.
  split; [|split].
  - intros Hpn. by rewrite (Hp Hpn).
  - etrans; [apply length_filter|done].
  - by eapply sublist_NoDup.
Qed.

(** A write of a well-formed record. *)
Lemma tee_ok_written change p f : tee_ok p → loadTeeSigningPkFile p = Ok f → tee_store p →
  (tee_wf (default no_tee_pin (f !! signingPinOwner p)) → tee_wf (change (default no_tee_pin (f !! signingPinOwner p)))) →
  tee_ok (writeTeeSigningPkFile (<[signingPinOwner p := change (default no_tee_pin (f !! signingPinOwner p))]> f) p).
Proof.
  intros Hok Hf Hst Hc r Hr.
  destruct (update_written change p f Hst Hf) as (r0 & r1 & H0 & H1 & H2).
  assert (r = r1) as -> by congruence. pose proof (Hok _ H0) as Hwf.
  apply teeSigningRecord_inv in H0 as [[Ho _]|(_ & f' & Hf' & Hr0)]; [by destruct Hst|].
  assert (f' = f) as -> by congruence. subst r0. destruct H2 as [[-> _]| ->]; auto.
Qed.

Lemma tee_ok_update change p : tee_ok p →
  (∀ r, teeSigningRecord p = Ok r → tee_wf r → tee_wf (change r)) → tee_ok (update_record change p).
Proof.
  intros Hok Hc. unfold update_record. cbv zeta. case_decide as Hd; [done|].
  destruct (loadTeeSigningPkFile p) as [f|] eqn:Hf; [|done].
  apply tee_ok_written; [done|done|unfold tee_store; naive_solver|]. intros Hwf. apply Hc; [|done].
  unfold teeSigningRecord. cbv zeta. rewrite decide_False by naive_solver. by rewrite Hf.
Qed.

Lemma decode_sized_ne s n e l : decode_sized s n e = Ok l → n ≠ 0%nat → s ≠ "".
Proof.
  intros Hd Hn ->. unfold decode_sized in Hd. change (base64_decode "") with (Some (@nil byte)) in Hd.
  unfold ensure in Hd. case_decide; simplify_eq/=.
Qed.

Lemma validateTeeSigningPair_ne ed ml u : validateTeeSigningPair ed ml = Ok u → ed ≠ "" ∧ ml ≠ "".
Proof.
  unfold validateTeeSigningPair. intros (l & H1 & (l' & H2 & _)%bind_Ok_inv)%bind_Ok_inv.
  split; eapply decode_sized_ne; eauto.
Qed.

Lemma RepinTeeSigningPk_ok offer at_ p : tee_ok p → tee_ok (RepinTeeSigningPk offer at_ p).2.
Proof.
  intros Hok. unfold RepinTeeSigningPk. cbv zeta. case_decide as Hd; [done|]. destruct offer as [offer|]; [|done].
  destruct (validateTeeSigningPair _ _) as [u|] eqn:Hv; [|done]. apply validateTeeSigningPair_ne in Hv as [He Hm].
  case_decide; [done|]. unfold load_or_set_aside.
  assert (∀ q f, tee_ok q → loadTeeSigningPkFile q = Ok f → tee_store q → signingPinOwner q = signingPinOwner p →
    tee_ok (writeTeeSigningPkFile (<[signingPinOwner p :=
      repinned offer at_ (default no_tee_pin (f !! signingPinOwner p))]> f) q)) as Hw.
  { intros q f Hq Hf Hst Hown. rewrite <- Hown. apply (tee_ok_written (repinned offer at_)); [done..|].
    by apply repinned_wf. }
  destruct (loadTeeSigningPkFile p) as [f|err] eqn:Hf.
  - case_decide; [done|]. cbn [snd]. apply Hw; [done|done|unfold tee_store; naive_solver|done].
  - destruct (next_io p) as [[e|] p1] eqn:Hio; apply next_io_split in Hio as (io & -> & _).
    + intros r Hr. by apply Hok.
    + case_decide; cbn [snd].
      all: assert (loadTeeSigningPkFile (p <| p_io := io |> <| p_tee := FileAbsent |>) = Ok ∅) as Hf0
        by (unfold loadTeeSigningPkFile; cbv zeta; by case_decide).
      all: assert (tee_ok (p <| p_io := io |> <| p_tee := FileAbsent |>)) as Hok0.
      1, 3: intros r [[_ ->]|(_ & f & Hf' & ->)]%teeSigningRecord_inv; [apply no_tee_pin_wf|];
        rewrite Hf0 in Hf'; injection Hf' as <-; rewrite lookup_empty; apply no_tee_pin_wf.
      * done.
      * apply Hw; [done|done|unfold tee_store in *; naive_solver|done].
Qed.

Lemma ForgetRetiredTeeSigningPk_ok fp p : tee_ok p → tee_ok (ForgetRetiredTeeSigningPk fp p).2.
Proof.
  intros Hok. unfold ForgetRetiredTeeSigningPk. cbv zeta. case_decide as Hd; [done|].
  destruct (loadTeeSigningPkFile p) as [f|] eqn:Hf; [|done]. case_decide; [done|]. cbn [snd].
  apply (tee_ok_written (λ rec, rec <| ts_Retired := filter (λ t, TeeSigningKeyFingerprint (rt_Ed t) (rt_Ml t) ≠ fp) (ts_Retired rec) |>));
    [done|done|unfold tee_store; naive_solver|]. apply tee_wf_kept.
Qed.

(** The commits of the posture check. *)
Lemma posture_commit att p commit : checkTeeAttestationPosture att p = Ok commit →
  commit = id ∨ ∃ q, commit = recordTeeAttestationPosture q.
Proof.
  unfold checkTeeAttestationPosture. cbv zeta.
  intros (? & _ & (? & _ & (off & _ & (q & _ & Hc)%bind_Ok_inv)%bind_Ok_inv)%bind_Ok_inv)%bind_Ok_inv.
  destruct q; repeat case_decide; simplify_eq; eauto.
Qed.

(** The commits of the check of a key: one that began with a key pinned has
    nothing to write. *)
Lemma signing_commit now ans ed ml p m commit m1 r :
  checkTeeSigningPks now ans ed ml p m = (Ok commit, m1) → teeSigningRecord p = Ok r →
  commit = id ∨ pinned r = false ∧ commit = recordTeeSigningPk ed ml.
Proof.
  unfold checkTeeSigningPks. intros Hc Hr. rewrite Hr in Hc.
  destruct (pinned r); [destruct (accepts _ _ _); simplify_eq; by left|].
  destruct (attestedTeeSigningPk now ans m) as [[att|] m2]; [|done]. case_decide; simplify_eq. by right.
Qed.

(** *** Steps: a repin and the removal of a superseded key, each a critical
    section of [teeSigningFileMu]; the two checks, which read the store without
    it; and the commit of a check that was begun earlier, which may come at any
    later time (the file is verified in between) or not at all. *)
Inductive pending_check : Type :=
| SigningCheck (began : teeSigningPk) (ed ml : string) (commit : Pins → Pins)
| PostureCheck (commit : Pins → Pins).
Definition commit_of (c : pending_check) : Pins → Pins :=
  match c with SigningCheck _ _ _ commit | PostureCheck commit => commit end.

Abbreviation tee_state := (Pins * list pending_check)%type.
Inductive tee_step : tee_state → tee_state → Prop :=
| step_repin p l offer at_ : tee_step (p, l) ((RepinTeeSigningPk offer at_ p).2, l)
| step_forget p l fp : tee_step (p, l) ((ForgetRetiredTeeSigningPk fp p).2, l)
| step_check p l now ans ed ml m commit m1 began :
    checkTeeSigningPks now ans ed ml p m = (Ok commit, m1) → teeSigningRecord p = Ok began →
    tee_step (p, l) (p, l ++ [SigningCheck began ed ml commit])
| step_attest p l att commit :
    checkTeeAttestationPosture att p = Ok commit → tee_step (p, l) (p, l ++ [PostureCheck commit])
| step_commit p l i c : l !! i = Some c → tee_step (p, l) (commit_of c p, delete i l)
| step_abandon p l i c : l !! i = Some c → tee_step (p, l) (p, delete i l).

(** What a check that is under way may still write. *)
Definition check_ok (c : pending_check) : Prop :=
  match c with
  | SigningCheck began ed ml commit => commit = id ∨ pinned began = false ∧ commit = recordTeeSigningPk ed ml
  | PostureCheck commit => commit = id ∨ ∃ q, commit = recordTeeAttestationPosture q
  end.
Definition checks_ok (l : list pending_check) : Prop := ∀ c, c ∈ l → check_ok c.

Lemma checks_ok_delete l i : checks_ok l → checks_ok (delete i l).
Proof. intros H c Hc. apply H. by eapply elem_of_sublist, sublist_delete. Qed.
Lemma checks_ok_snoc l c : checks_ok l → check_ok c → checks_ok (l ++ [c]).
Proof. intros H Hc d [Hd| ->%list_elem_of_singleton]%elem_of_app; auto. Qed.

Lemma tee_step_checks y z : tee_step y z → checks_ok y.2 → checks_ok z.2.
Proof.
  intros Hst Hl. destruct Hst; cbn [snd] in *; try done; try by apply checks_ok_delete.
  - apply checks_ok_snoc; [done|]. by eapply signing_commit.
  - apply checks_ok_snoc; [done|]. by eapply posture_commit.
Qed.

Lemma check_ok_commit c p : check_ok c → tee_ok p → tee_ok (commit_of c p).
Proof.
  intros Hc Hok. destruct c as [began ed ml commit|commit]; cbn in *.
  - destruct Hc as [->|[_ ->]]; [done|]. unfold recordTeeSigningPk. case_decide; [done|]. apply tee_ok_update; [done|].
    intros r _ Hwf. apply tee_wf_key; naive_solver.
  - destruct Hc as [->|[q ->]]; [done|]. unfold recordTeeAttestationPosture. case_decide; [done|].
    apply tee_ok_update; [done|]. intros r _. apply tee_wf_posture.
Qed.

Definition tee_start p : Prop := p_tee p = FileAbsent.
Lemma tee_reachable p0 p l : tee_start p0 → rtc tee_step (p0, []) (p, l) → tee_ok p ∧ checks_ok l.
Proof.
  intros H0 Hrtc. enough (∀ y z, rtc tee_step y z → tee_ok y.1 ∧ checks_ok y.2 → tee_ok z.1 ∧ checks_ok z.2) as Hinv.
  { apply (Hinv _ _ Hrtc). split; [|by intros c Hc%not_elem_of_nil].
    intros r [[_ ->]|(_ & f & Hf & ->)]%teeSigningRecord_inv; [apply no_tee_pin_wf|]. cbn [fst] in Hf.
    unfold loadTeeSigningPkFile in Hf. rewrite H0 in Hf. cbv zeta in Hf. case_decide; simplify_eq;
      rewrite lookup_empty; apply no_tee_pin_wf. }
  clear. intros y z Hrtc. induction Hrtc as [|y z x Hst _ IH]; [done|]. intros [Hok Hl]. apply IH.
  split; [|by eapply tee_step_checks]. destruct Hst; cbn [fst snd] in *; try done.
  - by apply RepinTeeSigningPk_ok.
  - by apply ForgetRetiredTeeSigningPk_ok.
  - apply check_ok_commit; [|done]. apply Hl. by eapply list_elem_of_lookup_2.
Qed.

(** From an empty store, whatever is repinned, removed, checked and committed in
    whatever order, an account's record holds at most eight superseded keys,
    none twice, and none before a key is pinned. *)
Theorem reachable_tee_wf p0 p l :
  p_tee p0 = FileAbsent → rtc tee_step (p0, []) (p, l) → ∀ r, teeSigningRecord p = Ok r → tee_wf r.
Proof. intros H0 Hrtc. by destruct (tee_reachable p0 p l H0 Hrtc). Qed.

Lemma repinned_pins offer at_ r : o_Ed25519 offer ≠ "" → o_Mldsa offer ≠ "" →
  pinned (repinned offer at_ r) = true ∧ ts_Ed (repinned offer at_ r) = o_Ed25519 offer ∧ ts_Ml (repinned offer at_ r) = o_Mldsa offer.
Proof.
  intros He Hm. unfold repinned. case_decide as Hs; cbn [over_field ts_Ed ts_Ml].
  - destruct Hs as [Hs1 Hs2]. split; [|done]. unfold pinned. cbn [over_field ts_Ed ts_Ml]. rewrite Hs1, Hs2. by rewrite bool_decide_eq_true_2.
  - split; [|done]. unfold pinned. cbn [over_field ts_Ed ts_Ml]. by rewrite bool_decide_eq_true_2.
Qed.

Lemma repinned_accepts offer at_ r : pinned r = true →
  ts_Ed (repinned offer at_ r) = o_Ed25519 offer ∧ ts_Ml (repinned offer at_ r) = o_Mldsa offer ∧
  (o_Ed25519 offer ≠ "" → o_Mldsa offer ≠ "" → accepts (repinned offer at_ r) (ts_Ed r) (ts_Ml r) = true).
Proof.
  intros Hp. unfold repinned. case_decide as Hs; cbn [over_field ts_Ed ts_Ml].
  { destruct Hs as [Hs1 Hs2]. split; [done|]. split; [done|]. intros. apply accepts_spec. left.
    split; [exact Hp|done]. }
  split; [done|]. split; [done|]. intros He Hm. apply accepts_spec. right. cbn [over_field ts_Retired].
  apply bool_decide_eq_true in Hp as [He0 Hm0]. rewrite decide_True by done.
  unfold dropRetired at 1. rewrite filter_app, filter_cons_True by (cbn; naive_solver). rewrite filter_nil.
  change teeRetiredPkLimit with 8%nat. rewrite keep_last_snoc, fmap_app, elem_of_app. right. apply list_elem_of_singleton. done.
Qed.

(** What a repin that reports success leaves, when its writes succeed; when
    they fail nothing changes, though it reports success all the same. *)
Lemma RepinTeeSigningPk_Ok offer at_ p u p1 r :
  RepinTeeSigningPk offer at_ p = (Ok u, p1) → teeSigningRecord p = Ok r →
  ∃ o r1, offer = Some o ∧ o_Ed25519 o ≠ "" ∧ o_Mldsa o ≠ "" ∧ teeSigningRecord p1 = Ok r1 ∧
    (r1 = r ∧ p_io p ≠ [] ∨ r1 = repinned o at_ r).
Proof.
  unfold RepinTeeSigningPk. cbv zeta. case_decide as Hd; [done|]. destruct offer as [o|]; [|done].
  destruct (validateTeeSigningPair _ _) as [v|] eqn:Hv; [|done]. apply validateTeeSigningPair_ne in Hv as [He Hm].
  case_decide; [done|]. unfold load_or_set_aside. intros Hre Hr.
  apply teeSigningRecord_inv in Hr as [[? _]|(_ & f & Hf & ->)]; [naive_solver|]. rewrite Hf in Hre.
  case_decide; [done|]. injection Hre as _ <-.
  assert (tee_store p) as Hst by (unfold tee_store; naive_solver).
  destruct (update_written (repinned o at_) p f Hst Hf) as (r0 & r1 & Hr0 & Hr1 & Hr2).
  apply teeSigningRecord_inv in Hr0 as [[? _]|(_ & f' & Hf' & ->)]; [naive_solver|].
  assert (f' = f) as -> by congruence. exists o, r1. naive_solver.
Qed.

Lemma RepinTeeSigningPk_Err offer at_ p e p1 :
  RepinTeeSigningPk offer at_ p = (Err e, p1) → (∃ r, teeSigningRecord p = Ok r) →
  teeSigningRecord p1 = teeSigningRecord p.
Proof.
  unfold RepinTeeSigningPk. cbv zeta. intros Hre [r Hr]. revert Hre. case_decide as Hd; [by intros [= _ <-]|].
  destruct offer as [o|]; [|by intros [= _ <-]].
  destruct (validateTeeSigningPair _ _) as [v|]; [|by intros [= _ <-]].
  case_decide; [by intros [= _ <-]|]. unfold load_or_set_aside.
  apply teeSigningRecord_inv in Hr as [[? _]|(_ & f & Hf & _)]; [naive_solver|]. rewrite Hf.
  case_decide; [by intros [= _ <-]|done].
Qed.

Lemma postureFor_mode att off : postureFor att = Ok off → tp_Mode off = "epid" ∨ tp_Mode off = "none".
Proof.
  unfold postureFor. intros (? & _ & (? & _ & [= <-])%bind_Ok_inv)%bind_Ok_inv. destruct (sgx att); auto.
Qed.

Lemma posture_committed att off p pin : postureFor att = Ok off → pinnedTeeAttestationPosture p = Ok pin →
  tee_store p → p_io p = [] → pinnedTeeAttestationPosture (recordTeeAttestationPosture off p) = Ok (Some off).
Proof.
  intros Hm%postureFor_mode Hpin Hst Hio. unfold recordTeeAttestationPosture.
  rewrite decide_False by (destruct Hm as [-> | ->]; done). unfold pinnedTeeAttestationPosture in Hpin.
  cbv zeta in Hpin. rewrite decide_False in Hpin by apply Hst. apply bind_Ok_inv in Hpin as (f & Hf & _).
  unfold update_record. cbv zeta. rewrite decide_False, Hf by (unfold tee_store in Hst; naive_solver).
  destruct (writeTeeSigningPkFile_spec (<[signingPinOwner p :=
    (default no_tee_pin (f !! signingPinOwner p)) <| ts_Posture := Some off |>]> f) p) as (io & [[_ ?]| ->]); [done|].
  unfold pinnedTeeAttestationPosture. cbv zeta. rewrite decide_False by apply Hst.
  unfold loadTeeSigningPkFile. cbv zeta. rewrite decide_False by apply Hst. cbn [p_tee over_field tf_V tf_Owners].
  rewrite decide_True by done. rewrite bind_Ok. cbn [from_option id]. change (signingPinOwner _) with (signingPinOwner p).
  rewrite lookup_insert_eq. cbn. rewrite decide_False; [done|]. destruct Hm as [-> | ->]; naive_solver.
Qed.

Lemma ForgetRetired_key fp p r : teeSigningRecord p = Ok r →
  ∃ r1, teeSigningRecord (ForgetRetiredTeeSigningPk fp p).2 = Ok r1 ∧ ts_Ed r1 = ts_Ed r ∧ ts_Ml r1 = ts_Ml r.
Proof.
  intros Hr. unfold ForgetRetiredTeeSigningPk. cbv zeta. case_decide as Hd; [by exists r|].
  pose proof Hr as [[? ->]|(Ho & f & Hf & ->)]%teeSigningRecord_inv; [naive_solver|]. rewrite Hf.
  case_decide; cbn [snd]; [by eexists|].
  destruct (update_written (λ rec, rec <| ts_Retired := filter (λ t, TeeSigningKeyFingerprint (rt_Ed t) (rt_Ml t) ≠ fp) (ts_Retired rec) |>) p f)
    as (r0 & r1 & Hr0 & Hr1 & Hr2); [unfold tee_store; naive_solver|done|].
  rewrite Hr in Hr0. injection Hr0 as <-. eexists. split; [exact Hr1|]. by destruct Hr2 as [[-> _]| ->].
Qed.

(** C23: The pinned enclave key moves in two ways only.  Among the steps of any
    number of goroutines, whose checks read the store long before they commit to
    it, a step from a store that has a key pinned leaves the key, or is a repin,
    after which the superseded key is still accepted and so are the files it
    signed, or is the commit of a check that began when no key was pinned and
    that puts in the attested key it checked.  So while no such first contact is
    under way, only a repin moves the pin. *)
Theorem tee_pin_moves p0 p l p1 l1 r :
  p_tee p0 = FileAbsent → rtc tee_step (p0, []) (p, l) →
  teeSigningRecord p = Ok r → pinned r = true → tee_step (p, l) (p1, l1) → ∃ r1, teeSigningRecord p1 = Ok r1 ∧
    (ts_Ed r1 = ts_Ed r ∧ ts_Ml r1 = ts_Ml r ∨
     (∃ offer at_, p1 = (RepinTeeSigningPk (Some offer) at_ p).2 ∧
       ts_Ed r1 = o_Ed25519 offer ∧ ts_Ml r1 = o_Mldsa offer ∧ accepts r1 (ts_Ed r) (ts_Ml r) = true) ∨
     ∃ began commit, SigningCheck began (ts_Ed r1) (ts_Ml r1) commit ∈ l ∧ pinned began = false ∧ p1 = commit p).
Proof.
  intros H0 Hrtc Hr Hp Hst. destruct (tee_reachable p0 p l H0 Hrtc) as [_ Hl].
  inversion Hst as [? ? offer at_|? ? fp|? ? ? ? ? ? ? ? ? ? Hc|? ? ? ? Hc|? ? i c Hi|]; simplify_eq; try by (exists r; auto).
  - destruct (RepinTeeSigningPk offer at_ p) as [[u|e] p2] eqn:Hre; cbn [snd].
    + destruct (RepinTeeSigningPk_Ok _ _ _ _ _ _ Hre Hr) as (o & r1 & -> & He & Hm & H1 & [[-> _]| ->]); eexists; (split; [exact H1|]).
      * by left.
      * right. left. exists o, at_. rewrite Hre. destruct (repinned_accepts o at_ r Hp) as (? & ? & Ha). naive_solver.
    + exists r. split; [|by left]. rewrite <- Hr. by apply (RepinTeeSigningPk_Err _ _ _ _ _ Hre); exists r.
  - destruct (ForgetRetired_key fp p r Hr) as (r1 & H1 & H2). exists r1. auto.
  - assert (c ∈ l) as Hin by (by eapply list_elem_of_lookup_2). pose proof (Hl c Hin) as Hc.
    destruct c as [began ed ml commit|commit]; cbn in Hc |- *.
    + destruct Hc as [->|[Hb ->]]; [by exists r; auto|]. unfold recordTeeSigningPk. case_decide as Hd; [by exists r; auto|].
      destruct (update_record_spec (λ rec, rec <| ts_Ed := ed |> <| ts_Ml := ml |>) p r Hr) as (r1 & H1 & [[-> _]| ->]);
        eexists; (split; [exact H1|]); [by left|]. right. right. exists began, (recordTeeSigningPk ed ml).
      split; [done|]. split; [done|]. unfold recordTeeSigningPk. by rewrite decide_False by done.
    + destruct Hc as [->|[q ->]]; [by exists r; auto|]. unfold recordTeeAttestationPosture. case_decide; [by exists r; auto|].
      destruct (update_record_spec (λ rec, rec <| ts_Posture := Some q |>) p r Hr) as (r1 & H1 & H2).
      exists r1. split; [done|]. left. by destruct H2 as [[-> _]| ->].
Qed.

(** Equalities out of the negations the guards leave. *)
Ltac undouble := repeat match goal with H : ¬ (_ ≠ _) |- _ => apply dec_stable in H end.

(** A served posture that is accepted has the mode, the measurement and the
    sealing keys of the pinned one (the post-quantum key only once it is
    pinned), and running its commit pins it; an enclave never becomes an
    unattested key, nor the reverse. *)
Theorem tee_posture_pinned att p commit :
  checkTeeAttestationPosture att p = Ok commit →
  ∃ offered, postureFor att = Ok offered ∧ (sgx att = true → sa_Status att = "trusted") ∧
    (∀ q, pinnedTeeAttestationPosture p = Ok (Some q) →
       tp_Mode offered = tp_Mode q ∧ (tp_Mode q = "epid" → tp_Mrenclave offered = tp_Mrenclave q) ∧
       tp_SealingPk offered = tp_SealingPk q ∧
       (tp_SealingPkKyber q ≠ "" → tp_SealingPkKyber offered = tp_SealingPkKyber q)) ∧
    (tee_store p → p_io p = [] → ∃ q, pinnedTeeAttestationPosture (commit p) = Ok (Some q) ∧
       tp_Mode q = tp_Mode offered ∧ tp_SealingPk q = tp_SealingPk offered ∧
       tp_SealingPkKyber q = tp_SealingPkKyber offered).
Proof.
  unfold checkTeeAttestationPosture. cbv zeta. rewrite !ensure_bind_Ok.
  intros (_ & Hs & (off & Hoff & (pin & Hpin & Hc)%bind_Ok_inv)%bind_Ok_inv). exists off. split; [done|].
  split; [intros Hsgx; apply dec_stable; naive_solver|].
  split.
  - intros q Hq. rewrite Hq in Hpin. injection Hpin as <-.
    repeat (case_decide; try discriminate); undouble; (split; [done|]); (split; [|naive_solver]);
      intros; apply dec_stable; naive_solver congruence.
  - intros Hst Hio. destruct pin as [q|].
    + do 4 (case_decide; [discriminate|]). case_decide; [|case_decide; [discriminate|]]; injection Hc as <-.
      * exists off. rewrite (posture_committed _ _ _ _ Hoff Hpin Hst Hio). done.
      * exists q. split; [exact Hpin|]. undouble. naive_solver.
    + simplify_eq. exists off. rewrite (posture_committed _ _ _ _ Hoff Hpin Hst Hio). done.
Qed.
End spec.

(** ** Examples *)

Definition ex_tee_att (x : byte) : TeeAttestationResponse :=
  mkTeeAttestation true true true (base64_encode (replicate 32 x)) (base64_encode (replicate KyberPublicKeySize x))
    (base64_encode (replicate 32 x)) (base64_encode (replicate Mldsa44PKSize x)) "none" "" "" "unattested".
Definition ex_offer (x : byte) : TeeAttestationOffer :=
  mkOffer (base64_encode (replicate 32 x)) (base64_encode (replicate Mldsa44PKSize x))
    (mkPosture "none" "" (base64_encode (replicate 32 x)) (base64_encode (replicate KyberPublicKeySize x))).
Definition ex_tee_none : Pins :=
  mkPins "/home/u/.config/pigcloud" (base64_encode (replicate 32 x01)) FileAbsent FileAbsent FileAbsent FileAbsent [].
(** The record after pinning the keys of [x02]. *)
Definition ex_tee_record : teeSigningPk :=
  mkTeeSigningPk (o_Ed25519 (ex_offer x02)) (o_Mldsa (ex_offer x02)) (Some (o_posture (ex_offer x02))) [].
Definition ex_tee : Pins :=
  ex_tee_none <| p_tee := FileDoc (mkTeeSigningPksFile 1 (Some {[signingPinOwner ex_tee_none := ex_tee_record]})) |>.

Lemma ex_tee_read : teeSigningRecord ex_tee = Ok ex_tee_record.
Proof. vm_compute. reflexivity. Qed.

Lemma reachable_tee_wf_witness :
  ∃ r, teeSigningRecord (RepinTeeSigningPk (Some (ex_offer x03)) "2026-01-01T00:00:00Z"
         (RepinTeeSigningPk (Some (ex_offer x02)) "2025-01-01T00:00:00Z" ex_tee_none).2).2 = Ok r ∧
    length (ts_Retired r) = 1%nat ∧ tee_wf r.
Proof.
  set (p := (RepinTeeSigningPk (Some (ex_offer x03)) "2026-01-01T00:00:00Z"
         (RepinTeeSigningPk (Some (ex_offer x02)) "2025-01-01T00:00:00Z" ex_tee_none).2).2).
  assert (match teeSigningRecord p with Ok r => length (ts_Retired r) | Err _ => 0%nat end = 1%nat) as Hl
    by (vm_compute; reflexivity).
  destruct (teeSigningRecord p) as [r|e] eqn:Hr; [|discriminate Hl].
  exists r. split; [reflexivity|]. split; [exact Hl|].
  apply (reachable_tee_wf ex_tee_none p []); [reflexivity| |exact Hr].
  eapply rtc_l; [apply step_repin|]. apply rtc_once, step_repin.
Defined.

(** A check that began before the repin to [x02] and commits after it. *)
Definition ex_attested (x : byte) : AttestedMemo :=
  mkAttestedMemo (Some (mkTeeSigningPk (o_Ed25519 (ex_offer x)) (o_Mldsa (ex_offer x)) None [])) 0.
Definition ex_first_contact (x : byte) : pending_check :=
  SigningCheck no_tee_pin (o_Ed25519 (ex_offer x)) (o_Mldsa (ex_offer x))
    (recordTeeSigningPk (o_Ed25519 (ex_offer x)) (o_Mldsa (ex_offer x))).
Definition ex_repinned : Pins := (RepinTeeSigningPk (Some (ex_offer x02)) "2025-01-01T00:00:00Z" ex_tee_none).2.
Definition ex_late : Pins := commit_of (ex_first_contact x04) ex_repinned.

Lemma ex_late_reachable : rtc tee_step (ex_tee_none, []) (ex_repinned, [ex_first_contact x04]).
Proof.
  eapply rtc_l; [eapply (step_check ex_tee_none [] 0 (Err (ErrText "offline")) _ _ (ex_attested x04)); [|reflexivity]|].
  { unfold checkTeeSigningPks. change (teeSigningRecord ex_tee_none) with (Ok no_tee_pin : result error teeSigningPk).
    change (pinned no_tee_pin) with false. cbv match. unfold attestedTeeSigningPk. cbn [am_Att ex_attested].
    rewrite decide_False by (by intros [[]|[]]). reflexivity. }
  apply rtc_once, step_repin.
Qed.
Lemma ex_repinned_read : ∃ r, teeSigningRecord ex_repinned = Ok r ∧ pinned r = true ∧
  ts_Ed r = o_Ed25519 (ex_offer x02) ∧ ts_Ml r = o_Mldsa (ex_offer x02).
Proof.
  assert (is_ok (RepinTeeSigningPk (Some (ex_offer x02)) "2025-01-01T00:00:00Z" ex_tee_none).1 = true) as Hok by (vm_compute; reflexivity).
  unfold ex_repinned.
  destruct (RepinTeeSigningPk (Some (ex_offer x02)) "2025-01-01T00:00:00Z" ex_tee_none) as [[u|] p] eqn:Hre; [|discriminate].
  destruct (RepinTeeSigningPk_Ok _ _ _ _ _ no_tee_pin Hre eq_refl) as (o & r1 & [= <-] & He & Hm & Hr & Hor).
  exists r1. split; [exact Hr|]. destruct Hor as [[_ Hio]| ->]; [by destruct Hio|]. exact (repinned_pins _ _ _ He Hm).
Qed.

Lemma tee_pin_moves_witness :
  ∃ r r1, teeSigningRecord ex_repinned = Ok r ∧ pinned r = true ∧ teeSigningRecord ex_late = Ok r1 ∧
    (ts_Ed r1 = ts_Ed r ∧ ts_Ml r1 = ts_Ml r ∨
     (∃ offer at_, ex_late = (RepinTeeSigningPk (Some offer) at_ ex_repinned).2) ∨
     ∃ began commit, SigningCheck began (ts_Ed r1) (ts_Ml r1) commit ∈ [ex_first_contact x04] ∧ pinned began = false).
Proof.
  destruct ex_repinned_read as (r & Hr & Hp & _).
  destruct (tee_pin_moves ex_tee_none ex_repinned [ex_first_contact x04] ex_late [] r eq_refl ex_late_reachable Hr Hp
    (step_commit ex_repinned [ex_first_contact x04] 0%nat (ex_first_contact x04) eq_refl)) as (r1 & H1 & H).
  exists r, r1. split; [exact Hr|]. split; [exact Hp|]. split; [exact H1|].
  destruct H as [H|[(o & t & H & _)|(b & c & Hin & Hb & _)]]; [left; exact H|right; left; exists o, t; exact H|].
  right. right. exists b, c. split; [exact Hin|exact Hb].
Defined.

(** The key the user repinned is then neither pinned nor accepted any more: the
    late commit replaces it without keeping it as a superseded one. *)
Lemma late_commit_drops_repin :
  ∃ r1, teeSigningRecord ex_late = Ok r1 ∧ ts_Ed r1 = o_Ed25519 (ex_offer x04) ∧
    accepts r1 (o_Ed25519 (ex_offer x02)) (o_Mldsa (ex_offer x02)) = false.
Proof.
  assert (match teeSigningRecord ex_late with
          | Ok r => bool_decide (ts_Ed r = o_Ed25519 (ex_offer x04)) && negb (accepts r (o_Ed25519 (ex_offer x02)) (o_Mldsa (ex_offer x02)))
          | Err _ => false end = true) as H by (vm_compute; reflexivity).
  destruct (teeSigningRecord ex_late) as [r|]; [|discriminate]. apply andb_true_iff in H as [H1 H2]. exists r.
  split; [reflexivity|]. split; [by apply bool_decide_eq_true in H1|by apply negb_true_iff].
Qed.

Lemma tee_posture_pinned_witness :
  ∃ commit, checkTeeAttestationPosture (served (ex_tee_att x02)) ex_tee = Ok commit ∧
  ∃ offered, postureFor (served (ex_tee_att x02)) = Ok offered ∧ tp_Mode offered = "none".
Proof.
  assert (is_ok (checkTeeAttestationPosture (served (ex_tee_att x02)) ex_tee) = true) as Hok by (vm_compute; reflexivity).
  destruct (checkTeeAttestationPosture (served (ex_tee_att x02)) ex_tee) as [commit|] eqn:Hc; [|discriminate Hok].
  exists commit. split; [reflexivity|].
  destruct (tee_posture_pinned _ _ _ Hc) as (off & Hoff & _ & Hq & _). exists off. split; [exact Hoff|].
  assert (pinnedTeeAttestationPosture ex_tee = Ok (Some (o_posture (ex_offer x02)))) as Hp by (vm_compute; reflexivity).
  exact (proj1 (Hq _ Hp)).
Defined.
