(* ===== verification/TeeFetch.v ===== *)
(** * Fetching the enclave's sealing keys

    [internal/e2ee/e2ee.go]: the key set a session seals uploads to is probed
    by one goroutine at a time and shared by every one that asks meanwhile; a
    repin starts a new epoch that no probe of an older one can write into.  A
    critical section of [Session.mu] is one function; what runs between two of
    them, the check of the server's answer against the pins and the commit to
    them, interleaves. *)
From S2P Require Import Prelude GoLib GoFmt ApiErrors Crypto Hybrid Sign PinStore TeePin.
Local Open Scope Z_scope.

(** [teeKeysCall]; [tc_done] is the closing of its channel. *)
Record teeKeysCall : Type := mkCall { tc_done : bool; tc_epoch : Z; tc_set : option PublicKeySet }.

(** The part of [Session] used here.  Calls live in a heap, since goroutines
    hold pointers to them; [s_nextCall] is fresh in it. *)
Record Session : Type := mkSession {
  s_teeEnclaveKeySet : option PublicKeySet; s_teeScannerDisabledByServer : bool;
  s_teeEnclaveKeyRefusal : option error; s_teeKeysFetch : option nat; s_teeKeysEpoch : Z;
  s_teeStaleCheckedAt : Z; s_calls : gmap nat teeKeysCall; s_nextCall : nat }.
#[export] Instance eta_Session : Eta Session := λ s,
  mkSession (s_teeEnclaveKeySet s) (s_teeScannerDisabledByServer s) (s_teeEnclaveKeyRefusal s)
    (s_teeKeysFetch s) (s_teeKeysEpoch s) (s_teeStaleCheckedAt s) (s_calls s) (s_nextCall s).

Definition new_session : Session := mkSession None false None None 0 0 ∅ 0.

(** ** Fetching *)

Inductive fetch_plan : Type :=
| Cached (set : PublicKeySet)
| Join (call : nat)
| Probe (call : nat).

(** [FetchTeeEnclaveKeySet] up to the release of the lock before the probe. *)
Definition fetch_begin (s : Session) : fetch_plan * Session :=
  match s_teeEnclaveKeySet s with
  | Some cached => (Cached cached, s)
  | None =>
      match s_teeKeysFetch s with
      | Some call => (Join call, s)
      | None =>
          let call := s_nextCall s in
          (Probe call, s <| s_calls := <[call := mkCall false (s_teeKeysEpoch s) None]> (s_calls s) |>
                         <| s_nextCall := S call |> <| s_teeKeysFetch := Some call |>)
      end
  end.

Record probe_result : Type := mkProbe {
  pr_set : option PublicKeySet; pr_disabled : bool; pr_answered : bool; pr_refusal : option error }.

(** The second critical section, and the close of the call's channel. *)
Definition fetch_finish (call : nat) (r : probe_result) (s : Session) : option PublicKeySet * Session :=
  let epoch := match s_calls s !! call with Some c => tc_epoch c | None => 0 end in
  let s := if decide (s_teeKeysFetch s = Some call) then s <| s_teeKeysFetch := None |> else s in
  let '(set, s) :=
    if decide (s_teeKeysEpoch s = epoch) then
      let s := s <| s_teeEnclaveKeyRefusal := pr_refusal r |> in
      let s := if pr_answered r then s <| s_teeScannerDisabledByServer := pr_disabled r |> else s in
      (pr_set r, match pr_set r with Some set => s <| s_teeEnclaveKeySet := Some set |> | None => s end)
    else (None, s) in
  (set, s <| s_calls := <[call := mkCall true epoch set]> (s_calls s) |>).

(** [call.wait] when its context stays alive: [None] while it blocks. *)
Definition call_wait (call : nat) (s : Session) : option (option PublicKeySet) :=
  match s_calls s !! call with
  | Some c => if tc_done c then Some (tc_set c) else None
  | None => None
  end.

(** [teeKeysEpoch] is a [uint64]. *)
Definition u64 (z : Z) : Z := z mod 2 ^ 64.
Definition forgetTeeAttestationMemos (s : Session) : Session :=
  s <| s_teeEnclaveKeySet := None |> <| s_teeEnclaveKeyRefusal := None |>
    <| s_teeKeysEpoch := u64 (s_teeKeysEpoch s + 1) |> <| s_teeKeysFetch := None |>.

Section probe.
Context `{SS : Sha256Sum, ET : ErrorText}.

(** [probeTeeEnclaveKeySet] up to its commit, which writes the posture. *)
Definition probe_check (answer : attestation_answer) (p : Pins) : probe_result * (Pins → Pins) :=
  match answer with
  | Err _ | Ok None => (mkProbe None false false None, id)
  | Ok (Some att) =>
      if ta_Success att then
        let disabled := negb (ta_Enabled att) in
        if ta_Available att then
          match checkTeeAttestationPosture (served att) p with
          | Err err => (mkProbe None disabled true (Some err), id)
          | Ok commit =>
              match decode_sized (ta_EnclavePublicKey att) 32 "tee_enclave_key_malformed: the server answered with an X25519 sealing key that is not 32 bytes" with
              | Err err => (mkProbe None disabled true (Some err), id)
              | Ok xBytes =>
                  match decode_sized (ta_EnclavePublicKeyKyber att) KyberPublicKeySize "tee_enclave_key_malformed: the server answered with an ML-KEM sealing key of the wrong size" with
                  | Err err => (mkProbe None disabled true (Some err), id)
                  | Ok kBytes => (mkProbe (Some (mkPublicKeySet (copy_array 32 xBytes) kBytes)) disabled true None, commit)
                  end
              end
          end
        else (mkProbe None disabled true None, id)
      else (mkProbe None false false None, id)
  end.
Definition probeTeeEnclaveKeySet (answer : attestation_answer) (p : Pins) : probe_result * Pins :=
  let '(r, commit) := probe_check answer p in (r, commit p).

(** ** A seal that went stale *)

Definition teeStaleRecheckGap : Z := 30 * second.
Definition errTeePinOwnerUnknown : error :=
  ErrText "tee_pin_owner_unknown: no account key set is loaded, so the scanner key the server now offers cannot be checked against this account's pin; the upload was not resent and can be retried once the keys are available".

Definition sameTeeKeySet (a b : option PublicKeySet) : bool :=
  match a, b with
  | Some a, Some b => bool_decide (pk_X25519 a = pk_X25519 b ∧ pk_Kyber a = pk_Kyber b)
  | None, None => true
  | _, _ => false
  end.

(** The verdict and the error, [None] for nil. *)
Definition staleSealVerdict (fresh sealedTo : option PublicKeySet) (s : Session) (p : Pins) : bool * option error :=
  match fresh with
  | None => (false, s_teeEnclaveKeyRefusal s)
  | Some _ =>
      if decide (signingPinOwner p = "") then (false, Some errTeePinOwnerUnknown)
      else if teeKeySetMatchesPin fresh p then (negb (sameTeeKeySet fresh sealedTo), None)
      else (false, Some (errTeeEnclavePkChanged (teeSigningPksPath p)))
  end.

(** What a goroutine does after the critical section of [TeeSealWentStale]:
    answer at once, wait for the call in flight, judge the cached set, or fetch
    again. *)
Inductive stale_plan : Type :=
| NotStale
| WaitFor (call : nat)
| Judge (current : option PublicKeySet)
| FetchAgain.

Definition stale_begin (now : Z) (err : error) (s : Session) : stale_plan * Session :=
  if MayBeStaleTeeSeal err then
    if decide (now - s_teeStaleCheckedAt s < teeStaleRecheckGap) then
      (match s_teeEnclaveKeySet s, s_teeKeysFetch s with
       | None, Some call => WaitFor call
       | current, _ => Judge current
       end, s)
    else (FetchAgain, s <| s_teeStaleCheckedAt := now |> <| s_teeEnclaveKeySet := None |>)
  else (NotStale, s).
End probe.

(** ** Goroutines *)

Section goroutines.
Context `{SS : Sha256Sum, ET : ErrorText}.

(** How far a probe is: waiting for the answer of the server, which it checks
    against the pinned posture; about to write the posture; done. *)
Inductive stage : Type :=
| Asking
| Checked (r : probe_result) (commit : Pins → Pins)
| Committed (r : probe_result).

(** Where a goroutine that fetches the key set is: before its first critical
    section, probing for a call it registered, waiting for a call, or back. *)
Inductive pc : Type :=
| Entering
| Probing (call : nat) (st : stage)
| Waiting (call : nat)
| Returned (set : option PublicKeySet).

(** The session, the store of pins, which no lock of the session guards, and the
    goroutines. *)
Record system : Type := mkSystem { sy_session : Session; sy_pins : Pins; sy_threads : list pc }.

Definition enter (plan : fetch_plan) : pc :=
  match plan with
  | Cached set => Returned (Some set)
  | Join call => Waiting call
  | Probe call => Probing call Asking
  end.

(** The goroutines' own steps; the answer of the server is arbitrary. *)
Inductive run : system → system → Prop :=
| run_begin s p ts i plan s' :
    ts !! i = Some Entering → fetch_begin s = (plan, s') →
    run (mkSystem s p ts) (mkSystem s' p (<[i := enter plan]> ts))
| run_check s p ts i call answer r commit :
    ts !! i = Some (Probing call Asking) → probe_check answer p = (r, commit) →
    run (mkSystem s p ts) (mkSystem s p (<[i := Probing call (Checked r commit)]> ts))
| run_commit s p ts i call r commit :
    ts !! i = Some (Probing call (Checked r commit)) →
    run (mkSystem s p ts) (mkSystem s (commit p) (<[i := Probing call (Committed r)]> ts))
| run_finish s p ts i call r set s' :
    ts !! i = Some (Probing call (Committed r)) → fetch_finish call r s = (set, s') →
    run (mkSystem s p ts) (mkSystem s' p (<[i := Returned set]> ts))
| run_wake s p ts i call set :
    ts !! i = Some (Waiting call) → call_wait call s = Some set →
    run (mkSystem s p ts) (mkSystem s p (<[i := Returned set]> ts)).

(** What else happens: a goroutine arrives, a waiting one is cancelled, a stale
    seal clears the cached set, a repin starts an epoch (fewer than 2^64 of
    them), and the store of pins is written by whoever else does. *)
Inductive environment : system → system → Prop :=
| env_arrive s p ts : environment (mkSystem s p ts) (mkSystem s p (ts ++ [Entering]))
| env_cancel s p ts i call :
    ts !! i = Some (Waiting call) → environment (mkSystem s p ts) (mkSystem s p (<[i := Returned None]> ts))
| env_stale s p ts now err s' plan :
    stale_begin now err s = (plan, s') → environment (mkSystem s p ts) (mkSystem s' p ts)
| env_repin s p ts :
    s_teeKeysEpoch s + 1 < 2 ^ 64 → environment (mkSystem s p ts) (mkSystem (forgetTeeAttestationMemos s) p ts)
| env_pins s p p' ts : environment (mkSystem s p ts) (mkSystem s p' ts).

Definition moves (y z : system) : Prop := run y z ∨ environment y z.
Definition reachable (y : system) : Prop := ∃ p, rtc moves (mkSystem new_session p []) y.

(** *** The invariant *)

Record fetch_ok (s : Session) (ts : list pc) : Prop := {
  ok_epoch : 0 ≤ s_teeKeysEpoch s < 2 ^ 64;
  ok_fresh c k : s_calls s !! c = Some k → (c < s_nextCall s)%nat ∧ tc_epoch k ≤ s_teeKeysEpoch s;
  ok_fetch c : s_teeKeysFetch s = Some c →
    ∃ i st, ts !! i = Some (Probing c st) ∧ ∃ k, s_calls s !! c = Some k ∧ tc_epoch k = s_teeKeysEpoch s;
  ok_probing i c st : ts !! i = Some (Probing c st) → ∃ k, s_calls s !! c = Some k ∧ tc_done k = false ∧
    (tc_epoch k = s_teeKeysEpoch s → s_teeKeysFetch s = Some c);
  ok_alone i j c st st' : ts !! i = Some (Probing c st) → ts !! j = Some (Probing c st') → i = j;
  ok_waiting i c : ts !! i = Some (Waiting c) → ∃ k, s_calls s !! c = Some k ∧
    (tc_done k = true ∨ ∃ j st, ts !! j = Some (Probing c st));
  ok_cached set : s_teeEnclaveKeySet s = Some set →
    ∃ c k, s_calls s !! c = Some k ∧ tc_done k = true ∧ tc_set k = Some set ∧ tc_epoch k = s_teeKeysEpoch s }.

Lemma fetch_ok_start : fetch_ok new_session [].
Proof. split; simpl; intros; try done; try lia. Qed.

(** The places of the other goroutines after one moves. *)
Lemma moved_Some (ts : list pc) i j a b x :
  ts !! i = Some a → <[i := b]> ts !! j = Some x ↔ (j = i ∧ x = b) ∨ (j ≠ i ∧ ts !! j = Some x).
Proof.
  intros Hi. pose proof (lookup_lt_Some _ _ _ Hi). rewrite list_lookup_insert_Some. naive_solver.
Qed.
Lemma moved_Probing (ts : list pc) i a b c :
  ts !! i = Some a → (∀ c st, a ≠ Probing c st) → (∃ j st, ts !! j = Some (Probing c st)) →
  ∃ j st, <[i := b]> ts !! j = Some (Probing c st).
Proof.
  intros Hi Ha (j & st & Hj). exists j, st. apply (moved_Some _ _ _ _ _ _ Hi). right. split; [|done].
  intros ->. rewrite Hi in Hj. simplify_eq. by eapply Ha.
Qed.

(** A goroutine that holds no probe moves to waiting or back. *)
Lemma fetch_ok_move s ts i a b :
  fetch_ok s ts → ts !! i = Some a → (∀ c st, a ≠ Probing c st) → (∀ c st, b ≠ Probing c st) →
  (∀ c, b = Waiting c → ∃ k, s_calls s !! c = Some k ∧ (tc_done k = true ∨ ∃ j st, ts !! j = Some (Probing c st))) →
  fetch_ok s (<[i := b]> ts).
Proof.
  intros [H1 H2 H3 H4 H5 H6 H7] Hi Ha Hb Hw. split; [done|done| | | | |done].
  - intros c Hc. destruct (H3 c Hc) as (j & st & Hj & Hk). destruct (moved_Probing ts i a b c) as (j' & st' & Hj'); eauto.
  - intros j c st. rewrite (moved_Some _ _ _ _ _ _ Hi). intros [[-> Hx]|[_ Hj]]; [by destruct (Hb c st)|eauto].
  - intros j j' c st st'. rewrite !(moved_Some _ _ _ _ _ _ Hi).
    intros [[-> Hx]|[_ Hj]] [[-> Hx']|[_ Hj']]; [done|by destruct (Hb c st)|by destruct (Hb c st')|eauto].
  - intros j c. rewrite (moved_Some _ _ _ _ _ _ Hi). intros [[-> Hx]|[_ Hj]].
    + destruct (Hw c) as (k & Hk & Hd); [done|]. exists k. split; [done|].
      destruct Hd as [|Hp]; [by left|right; by eapply moved_Probing].
    + destruct (H6 _ _ Hj) as (k & Hk & Hd). exists k. split; [done|].
      destruct Hd as [|Hp]; [by left|right; by eapply moved_Probing].
Qed.

(** A probe gets further. *)
Lemma fetch_ok_stage s ts i c st st' :
  fetch_ok s ts → ts !! i = Some (Probing c st) → fetch_ok s (<[i := Probing c st']> ts).
Proof.
  intros [H1 H2 H3 H4 H5 H6 H7] Hi.
  assert (∀ j d x, <[i := Probing c st']> ts !! j = Some (Probing d x) → ∃ y, ts !! j = Some (Probing d y)) as Hback.
  { intros j d x. rewrite (moved_Some _ _ _ _ _ _ Hi). intros [[-> [= -> ->]]|[_ Hj]]; eauto. }
  assert (∀ j d x, ts !! j = Some (Probing d x) → ∃ y, <[i := Probing c st']> ts !! j = Some (Probing d y)) as Hforth.
  { intros j d x Hj. destruct (decide (j = i)) as [->|Hne]; [rewrite Hi in Hj; injection Hj as <- _; exists st'|exists x];
      apply (moved_Some _ _ _ _ _ _ Hi); [by left|by right]. }
  split; [done|done| | | | |done].
  - intros d Hd. destruct (H3 d Hd) as (j & x & Hj & Hk). destruct (Hforth _ _ _ Hj) as [y Hy]. eauto.
  - intros j d x Hj. destruct (Hback _ _ _ Hj) as [y Hy]. eauto.
  - intros j j' d x x' Hj Hj'. destruct (Hback _ _ _ Hj) as [y Hy]. destruct (Hback _ _ _ Hj') as [y' Hy']. eauto.
  - intros j d. rewrite (moved_Some _ _ _ _ _ _ Hi). intros [[_ ?]|[_ Hj]]; [done|].
    destruct (H6 _ _ Hj) as (k & Hk & [Hd|(j' & x & Hj')]); exists k; (split; [done|]); [by left|right].
    destruct (Hforth _ _ _ Hj') as [y Hy]. eauto.
Qed.

Lemma fetch_ok_begin s ts i plan s' :
  fetch_ok s ts → ts !! i = Some Entering → fetch_begin s = (plan, s') → fetch_ok s' (<[i := enter plan]> ts).
Proof.
  intros Hok Hi. unfold fetch_begin. destruct (s_teeEnclaveKeySet s) as [set|] eqn:Hset.
  { intros [= <- <-]. by eapply fetch_ok_move. }
  destruct (s_teeKeysFetch s) as [c|] eqn:Hc.
  { intros [= <- <-]. eapply fetch_ok_move; [done|done|done|done|]. intros ? [= <-].
    destruct (ok_fetch _ _ Hok c Hc) as (j & st & Hj & k & Hk & _). eauto 6. }
  intros [= <- <-]. pose proof Hok as [H1 H2 H3 H4 H5 H6 H7]. cbn [enter]. set (n := s_nextCall s).
  assert (∀ c k, s_calls s !! c = Some k → c ≠ n) as Hn by (intros c k Hk; pose proof (H2 c k Hk); unfold n; lia).
  assert (∀ j st, ts !! j ≠ Some (Probing n st)) as Hnp by (intros j st Hj; destruct (H4 j n st Hj) as (k & Hk & _); by destruct (Hn n k)).
  split; cbn [s_teeKeysEpoch s_calls s_nextCall s_teeKeysFetch s_teeEnclaveKeySet over_field].
  - done.
  - intros c k [[<- <-]|[Hne Hk]]%lookup_insert_Some; cbn; [split; lia|]. pose proof (H2 c k Hk). lia.
  - intros c [= <-]. exists i, Asking. split; [apply (moved_Some _ _ _ _ _ _ Hi); by left|].
    eexists. split; [apply lookup_insert_eq|done].
  - intros j c st. rewrite (moved_Some _ _ _ _ _ _ Hi). intros [[-> [= <- ->]]|[_ Hj]].
    + eexists. split; [apply lookup_insert_eq|done].
    + destruct (H4 j c st Hj) as (k & Hk & Hd & He). exists k. rewrite lookup_insert_ne by (symmetry; eauto).
      split; [done|]. split; [done|]. intros Hep. specialize (He Hep). congruence.
  - intros j j' c st st'. rewrite !(moved_Some _ _ _ _ _ _ Hi).
    intros [[-> Hx]|[_ Hj]] [[-> Hx']|[_ Hj']]; [done| | |eauto]; simplify_eq; by edestruct Hnp.
  - intros j c. rewrite (moved_Some _ _ _ _ _ _ Hi). intros [[-> Hx]|[_ Hj]]; [done|].
    destruct (H6 _ _ Hj) as (k & Hk & Hd). exists k. rewrite lookup_insert_ne by (symmetry; eauto).
    split; [done|]. destruct Hd as [|Hp]; [by left|right; by eapply moved_Probing].
  - intros set Hs. congruence.
Qed.

Lemma fetch_finish_spec c r s k set s' :
  s_calls s !! c = Some k → fetch_finish c r s = (set, s') →
  set = (if decide (s_teeKeysEpoch s = tc_epoch k) then pr_set r else None) ∧
  s_calls s' = <[c := mkCall true (tc_epoch k) set]> (s_calls s) ∧
  s_nextCall s' = s_nextCall s ∧ s_teeKeysEpoch s' = s_teeKeysEpoch s ∧
  s_teeKeysFetch s' = (if decide (s_teeKeysFetch s = Some c) then None else s_teeKeysFetch s) ∧
  s_teeEnclaveKeySet s' = match set with Some x => Some x | None => s_teeEnclaveKeySet s end.
Proof.
  intros Hk. unfold fetch_finish. rewrite Hk. cbv zeta.
  destruct (decide (s_teeKeysFetch s = Some c)) as [Hf|Hf]; cbn [s_teeKeysEpoch over_field];
    (case_decide; [destruct (pr_answered r), (pr_set r)|]); intros [= <- <-]; done.
Qed.

(** A probe of an older epoch leaves the session as it is, its own call apart. *)
Lemma fetch_finish_older c r s k : s_calls s !! c = Some k → tc_epoch k ≠ s_teeKeysEpoch s → s_teeKeysFetch s ≠ Some c →
  fetch_finish c r s = (None, s <| s_calls := <[c := mkCall true (tc_epoch k) None]> (s_calls s) |>).
Proof.
  intros Hk He Hf. unfold fetch_finish. rewrite Hk. cbv zeta. by rewrite (decide_False _ _ Hf), decide_False by congruence.
Qed.

Lemma fetch_ok_finish s ts i c r set s' :
  fetch_ok s ts → ts !! i = Some (Probing c (Committed r)) → fetch_finish c r s = (set, s') →
  fetch_ok s' (<[i := Returned set]> ts).
Proof.
  intros [H1 H2 H3 H4 H5 H6 H7] Hi Hfin. destruct (H4 i c _ Hi) as (k & Hk & Hd & Hkf).
  destruct (fetch_finish_spec _ _ _ _ _ _ Hk Hfin) as (Hset & Hcalls & Hnext & Hep & Hf & Hcache). clear Hfin.
  assert (∀ j c' st, j ≠ i → ts !! j = Some (Probing c' st) → c' ≠ c) as Hother by (intros j c' st Hne Hj ->; eauto).
  split.
  - by rewrite Hep.
  - intros c' k'. rewrite Hcalls, Hnext, Hep. intros [[<- <-]|[_ Hk']]%lookup_insert_Some; [by apply (H2 c k)|eauto].
  - intros c'. rewrite Hf, Hcalls, Hep. case_decide as Hdec; [done|]. intros Hc'.
    destruct (H3 c' Hc') as (j & st & Hj & k' & Hk' & He'). exists j, st.
    assert (c' ≠ c) as Hne by congruence. split; [apply (moved_Some _ _ _ _ _ _ Hi); right; split; [congruence|done]|].
    exists k'. rewrite lookup_insert_ne by congruence. done.
  - intros j c' st. rewrite (moved_Some _ _ _ _ _ _ Hi), Hf, Hcalls, Hep. intros [[_ ?]|[Hne Hj]]; [done|].
    destruct (H4 j c' st Hj) as (k' & Hk' & Hd' & He'). exists k'. pose proof (Hother _ _ _ Hne Hj).
    rewrite lookup_insert_ne by congruence. split; [done|]. split; [done|]. intros Heq. specialize (He' Heq).
    rewrite decide_False by congruence. done.
  - intros j j' c' st st'. rewrite !(moved_Some _ _ _ _ _ _ Hi). intros [[_ ?]|[_ Hj]] [[_ ?]|[_ Hj']]; [done..|eauto].
  - intros j c'. rewrite (moved_Some _ _ _ _ _ _ Hi), Hcalls. intros [[_ ?]|[Hne Hj]]; [done|].
    destruct (decide (c' = c)) as [->|Hcc].
    { eexists. split; [apply lookup_insert_eq|by left]. }
    destruct (H6 j c' Hj) as (k' & Hk' & Hd'). exists k'. rewrite lookup_insert_ne by congruence. split; [done|].
    destruct Hd' as [|(j' & st & Hj')]; [by left|right]. exists j', st. apply (moved_Some _ _ _ _ _ _ Hi). right. split; congruence.
  - intros x. rewrite Hcache, Hcalls, Hep. destruct set as [y|].
    + intros [= <-]. exists c. eexists. split; [apply lookup_insert_eq|]. split; [done|]. split; [done|]. cbn.
      clear Hf. case_decide; congruence.
    + intros Hx. destruct (H7 x Hx) as (c' & k' & Hk' & Hd' & Hs' & He'). exists c', k'.
      rewrite lookup_insert_ne; [done|]. congruence.
Qed.

Lemma fetch_ok_run y z : run y z → fetch_ok (sy_session y) (sy_threads y) → fetch_ok (sy_session z) (sy_threads z).
Proof.
  intros Hr Hok. destruct Hr; cbn [sy_session sy_threads] in *.
  - by eapply fetch_ok_begin.
  - by eapply fetch_ok_stage.
  - by eapply fetch_ok_stage.
  - by eapply fetch_ok_finish.
  - by eapply fetch_ok_move.
Qed.

Lemma fetch_ok_environment y z :
  environment y z → fetch_ok (sy_session y) (sy_threads y) → fetch_ok (sy_session z) (sy_threads z).
Proof.
  intros Hr Hok. destruct Hr as [s p ts|s p ts i call Hi|s p ts now err s' plan Hst|s p ts Hlt|]; cbn [sy_session sy_threads] in *.
  - destruct Hok as [H1 H2 H3 H4 H5 H6 H7].
    assert (∀ j c st, (ts ++ [Entering]) !! j = Some (Probing c st) ↔ ts !! j = Some (Probing c st)) as Hp.
    { intros j c st. rewrite lookup_app_Some, list_lookup_singleton_Some. naive_solver. }
    assert (∀ j c, (ts ++ [Entering]) !! j = Some (Waiting c) ↔ ts !! j = Some (Waiting c)) as Hw.
    { intros j c. rewrite lookup_app_Some, list_lookup_singleton_Some. naive_solver. }
    split; [done|done| | | | |done]; intros *; rewrite ?Hw; setoid_rewrite Hp; eauto.
  - by eapply fetch_ok_move.
  - unfold stale_begin in Hst. destruct (MayBeStaleTeeSeal err); [|by simplify_eq].
    case_decide; simplify_eq; [done|]. by destruct Hok; split.
  - destruct Hok as [H1 H2 H3 H4 H5 H6 H7].
    assert (u64 (s_teeKeysEpoch s + 1) = s_teeKeysEpoch s + 1) as Hu by (apply Z.mod_small; lia).
    split; cbn [s_teeKeysEpoch s_calls s_nextCall s_teeKeysFetch s_teeEnclaveKeySet forgetTeeAttestationMemos over_field];
      rewrite ?Hu; try done; [lia| | ].
    + intros c k Hk. pose proof (H2 c k Hk). lia.
    + intros i c st Hi. destruct (H4 i c st Hi) as (k & Hk & Hd & _). exists k. split; [done|]. split; [done|].
      pose proof (H2 c k Hk). lia.
  - done.
Qed.

Lemma reachable_fetch_ok y : reachable y → fetch_ok (sy_session y) (sy_threads y).
Proof.
  intros [p Hr]. assert (fetch_ok (sy_session (mkSystem new_session p [])) (sy_threads (mkSystem new_session p []))) as H0
    by apply fetch_ok_start.
  revert H0. induction Hr as [|x y z [Hm|Hm] _ IH]; intros H0; [done|by apply IH, (fetch_ok_run _ _ Hm)|by apply IH, (fetch_ok_environment _ _ Hm)].
Qed.

(** *** Single flight *)

(** C22: Whatever the schedule, the answers of the server, the stale seals and
    the repins, two goroutines never probe for the current epoch at once (though
    one may probe after the other, when a probe failed or a seal went stale); the
    cached key set is the answer of a finished probe of the current epoch; and a
    probe begun before a repin returns no key set to anyone and leaves the whole
    session as it is, the record of its own call apart: the cached set, the
    refusal, the flag of the disabled scanner, the epoch and the probe in flight.
    (Its commit may still have written to the store of pins.) *)
Theorem fetch_single_flight y :
  reachable y →
  (∀ i j c d st st' k l, sy_threads y !! i = Some (Probing c st) → sy_threads y !! j = Some (Probing d st') →
     s_calls (sy_session y) !! c = Some k → s_calls (sy_session y) !! d = Some l →
     tc_epoch k = s_teeKeysEpoch (sy_session y) → tc_epoch l = s_teeKeysEpoch (sy_session y) → i = j) ∧
  (∀ set, s_teeEnclaveKeySet (sy_session y) = Some set → ∃ c k, s_calls (sy_session y) !! c = Some k ∧
     tc_done k = true ∧ tc_set k = Some set ∧ tc_epoch k = s_teeKeysEpoch (sy_session y)) ∧
  (∀ i c st k r, sy_threads y !! i = Some (Probing c st) → s_calls (sy_session y) !! c = Some k →
     tc_epoch k ≠ s_teeKeysEpoch (sy_session y) →
     fetch_finish c r (sy_session y) =
       (None, (sy_session y) <| s_calls := <[c := mkCall true (tc_epoch k) None]> (s_calls (sy_session y)) |>)).
Proof.
  intros Hr. pose proof (reachable_fetch_ok y Hr) as [H1 H2 H3 H4 H5 H6 H7]. split; [|split; [exact H7|]].
  - intros i j c d st st' k l Hi Hj Hk Hl Hek Hel.
    destruct (H4 i c st Hi) as (k' & Hk' & _ & Hc). destruct (H4 j d st' Hj) as (l' & Hl' & _ & Hd).
    rewrite Hk in Hk'. rewrite Hl in Hl'. simplify_eq. specialize (Hc Hek). specialize (Hd Hel).
    rewrite Hc in Hd. simplify_eq. eauto.
  - intros i c st k r Hi Hk Hne. apply fetch_finish_older; [done..|]. intros Hc.
    destruct (H3 c Hc) as (_ & _ & _ & k' & Hk' & He). congruence.
Qed.

(** *** Every fetch returns *)

(** The critical sections and waits a goroutine has before it. *)
Definition weight (p : pc) : nat :=
  match p with
  | Entering => 4
  | Probing _ Asking => 3
  | Probing _ (Checked _ _) => 2
  | Probing _ (Committed _) | Waiting _ => 1
  | Returned _ => 0
  end.
Definition pending (y : system) : nat := sum_list_with weight (sy_threads y).

Lemma sum_list_with_insert (ts : list pc) i a b :
  ts !! i = Some a → (sum_list_with weight (<[i := b]> ts) + weight a = sum_list_with weight ts + weight b)%nat.
Proof.
  revert i. induction ts as [|x ts IH]; intros [|i] Hi; simplify_eq/=; [lia|]. specialize (IH i Hi). lia.
Qed.

Lemma run_pending y z : run y z → (pending z < pending y)%nat.
Proof.
  intros Hr. destruct Hr as [s p ts i plan s' Hi _|s p ts i call answer r commit Hi _|s p ts i call r commit Hi
    |s p ts i call r set s' Hi _|s p ts i call set Hi _]; unfold pending; cbn [sy_threads].
  - pose proof (sum_list_with_insert ts i _ (enter plan) Hi). destruct plan; simpl in *; lia.
  - pose proof (sum_list_with_insert ts i _ (Probing call (Checked r commit)) Hi). simpl in *; lia.
  - pose proof (sum_list_with_insert ts i _ (Probing call (Committed r)) Hi). simpl in *; lia.
  - pose proof (sum_list_with_insert ts i _ (Returned set) Hi). simpl in *; lia.
  - pose proof (sum_list_with_insert ts i _ (Returned set) Hi). simpl in *; lia.
Qed.

Definition all_returned (y : system) : Prop := ∀ i p, sy_threads y !! i = Some p → ∃ set, p = Returned set.

(** A probe can always go on. *)
Lemma probe_enabled s p ts i c st : ts !! i = Some (Probing c st) → ∃ z, run (mkSystem s p ts) z.
Proof.
  intros Hi. destruct st as [|r commit|r].
  - destruct (probe_check (Ok None) p) as [r commit] eqn:Hc. eexists. by eapply run_check.
  - eexists. by eapply run_commit.
  - destruct (fetch_finish c r s) as [set s'] eqn:Hf. eexists. by eapply run_finish.
Qed.

Lemma run_enabled y i p :
  fetch_ok (sy_session y) (sy_threads y) → sy_threads y !! i = Some p → (∀ set, p ≠ Returned set) → ∃ z, run y z.
Proof.
  intros Hok Hi Hp. destruct y as [s q ts]. cbn [sy_session sy_threads] in *. destruct p as [|c st|c|set].
  - destruct (fetch_begin s) as [plan s'] eqn:Hb. eexists. by eapply run_begin.
  - by eapply probe_enabled.
  - destruct (ok_waiting _ _ Hok i c Hi) as (k & Hk & [Hd|(j & st & Hj)]).
    + eexists. eapply (run_wake s q ts i c (tc_set k)); [done|]. unfold call_wait. by rewrite Hk, Hd.
    + by eapply probe_enabled.
  - by destruct (Hp set).
Qed.

Lemma all_returned_dec y : all_returned y ∨ ∃ i p, sy_threads y !! i = Some p ∧ ∀ set, p ≠ Returned set.
Proof.
  destruct (decide (Forall (λ p, weight p = 0%nat) (sy_threads y))) as [Hf|Hf].
  - left. intros i p Hp. apply (Forall_lookup_1 _ _ _ _ Hf) in Hp. destruct p as [|? []| |]; try done. eauto.
  - right. apply not_Forall_Exists in Hf; [|apply _]. apply Exists_exists in Hf as (p & Hin & Hw).
    apply list_elem_of_lookup in Hin as [i Hi]. exists i, p. split; [done|]. intros set ->. by apply Hw.
Qed.

(** C21: Every fetch of the key set returns: while one has not, some goroutine
    can move, every move brings the end nearer, and so any schedule that keeps
    running the goroutines ends with all of them back. *)
Theorem fetches_return y :
  reachable y →
  ((∃ i p, sy_threads y !! i = Some p ∧ ∀ set, p ≠ Returned set) → ∃ z, run y z) ∧
  (∀ n z, nsteps run n y z → (n + pending z ≤ pending y)%nat) ∧
  (∃ z, rtc run y z ∧ all_returned z).
Proof.
  intros Hr%reachable_fetch_ok. split; [|split].
  - intros (i & p & Hi & Hp). by eapply run_enabled.
  - intros n z Hn. clear Hr. induction Hn as [|n x y z Hxy _ IH]; [lia|]. apply run_pending in Hxy. lia.
  - remember (pending y) as m eqn:Hm. revert y Hm Hr. induction m as [m IH] using lt_wf_ind. intros y -> Hok.
    destruct (all_returned_dec y) as [Hall|(i & p & Hi & Hp)]; [by exists y|].
    destruct (run_enabled y i p Hok Hi Hp) as [z Hz].
    destruct (IH _ (run_pending _ _ Hz) z eq_refl (fetch_ok_run _ _ Hz Hok)) as (x & Hx & Hall).
    exists x. split; [by eapply rtc_l|done].
Qed.

End goroutines.

(** ** An example: two goroutines share a probe across a repin *)

Definition ex_session : Session := (fetch_begin new_session).2.
Definition ex_sharing : system := mkSystem ex_session ex_tee_none [Probing 0 Asking; Waiting 0].
Definition ex_repinned_session : system :=
  mkSystem (forgetTeeAttestationMemos ex_session) ex_tee_none [Probing 0 Asking; Waiting 0].

Lemma ex_sharing_reachable : reachable ex_sharing.
Proof.
  exists ex_tee_none. eapply rtc_l; [right; apply env_arrive|]. eapply rtc_l; [right; apply env_arrive|].
  eapply rtc_l; [left; eapply (run_begin _ _ _ 0); reflexivity|].
  eapply rtc_l; [left; eapply (run_begin _ _ _ 1); reflexivity|]. apply rtc_refl.
Qed.
Lemma ex_repinned_reachable : reachable ex_repinned_session.
Proof.
  destruct ex_sharing_reachable as [p H]. exists p. eapply rtc_r; [exact H|]. right. apply env_repin. reflexivity.
Qed.

Lemma fetch_single_flight_witness :
  let s := sy_session ex_repinned_session in
  fetch_finish 0 (mkProbe (Some (mkPublicKeySet [] [])) true true (Some (ErrText "refused"))) s =
    (None, s <| s_calls := <[0%nat := mkCall true 0 None]> (s_calls s) |>).
Proof.
  exact (proj2 (proj2 (fetch_single_flight ex_repinned_session ex_repinned_reachable)) 0%nat 0%nat Asking (mkCall false 0 None)
    (mkProbe (Some (mkPublicKeySet [] [])) true true (Some (ErrText "refused"))) eq_refl eq_refl ltac:(discriminate)).
Defined.

Lemma fetches_return_witness : ∃ z, rtc run ex_sharing z ∧ all_returned z.
Proof. exact (proj2 (proj2 (fetches_return ex_sharing ex_sharing_reachable))). Defined.
