(* ===== verification/VerifyDownload.v ===== *)
(** * Verification of downloaded files

    [internal/e2ee/verify_download.go]: which signature of a download is
    checked, whose key may have made it, and when a key seen for the first time
    is pinned. *)
From S2P Require Import Prelude GoLib GoFmt ApiErrors Crypto Hybrid Sign PinStore TeePin.
Local Open Scope Z_scope.

(** The metadata of a download. *)
Record DownloadResult : Type := mkDownloadResult {
  d_E2EE : bool; d_SealedKey : string; d_EncryptionMeta : string;
  d_SignatureEd25519 : string; d_SignatureMldsa : string;
  d_SigningPkEd25519 : string; d_SigningPkMldsa : string; d_SignedBy : string;
  d_TEESignatureEd25519 : string; d_TEESignatureMldsa : string;
  d_TEESigningPkEd25519 : string; d_TEESigningPkMldsa : string }.

(** A [*PeerPinError] or another error. *)
Inductive verify_error : Type :=
| PeerPinError (Reason : PeerPinReason) (Peer : string)
| VerifyError (e : error).
Definition IsPeerPinFailure (e : verify_error) : bool :=
  match e with PeerPinError _ _ => true | VerifyError _ => false end.

(** What verification reads and writes: the pins, and the memos of the process. *)
Record Trust : Type := mkTrust {
  t_pins : Pins; t_history : HistoryMemo; t_friends : FriendMemo; t_attested : AttestedMemo }.
#[export] Instance eta_Trust : Eta Trust := λ t, mkTrust (t_pins t) (t_history t) (t_friends t) (t_attested t).

(** The answers of the server and the clock. *)
Record Answers : Type := mkAnswers {
  an_now : Z; an_history : option HistoryAnswer; an_friends : option (list string); an_attestation : attestation_answer }.

(** A result in [verify_error], with the error wrapped. *)
Definition lift_err {T} (r : result error T) : result verify_error T :=
  match r with Ok a => Ok a | Err e => Err (VerifyError e) end.

Definition decodeB64Required (s label : string) : result error bytes :=
  if decide (s = "") then Err (ErrText (label +:+ "_missing"))
  else match base64_decode s with
       | Some b => Ok b
       | None => Err (ErrWrap (label +:+ "_invalid") (ErrText "illegal base64 data"))
       end.

(** The four decoded texts of a signature. *)
Record decoded_sigs : Type := mkDecoded { ds_sigEd : bytes; ds_sigMl : bytes; ds_pkEd : bytes; ds_pkMl : bytes }.
Definition decode_sigs (prefix sizeErr sigEd sigMl pkEd pkMl : string) : result error decoded_sigs :=
  sigEd ← decodeB64Required sigEd (prefix +:+ "signature_ed25519");
  sigMl ← decodeB64Required sigMl (prefix +:+ "signature_mldsa");
  pkEd ← decodeB64Required pkEd (prefix +:+ "signing_pk_ed25519");
  pkMl ← decodeB64Required pkMl (prefix +:+ "signing_pk_mldsa");
  _ ← ensure (length pkEd = Ed25519PKSize ∧ length pkMl = Mldsa44PKSize) sizeErr;
  Ok (mkDecoded sigEd sigMl pkEd pkMl).

Section verify.
Context `{SS : Sha256Sum, E : Ed25519, M : MLDSA, ET : ErrorText}.

(** Whether the served key may sign an own file: the commit to run once the
    signatures verify. *)
Definition check_signer (a : Answers) (signedBy : string) (pkEd ownEdPub ownMldsaPub : bytes) (t : Trust)
    : result verify_error (Pins → Pins) * Trust :=
  if decide (length ownEdPub = Ed25519PKSize) then
    let t := t <| t_pins := rememberSigningEdPub ownEdPub (t_pins t) |> in
    if decide (ownEdPub ≠ pkEd ∧ signingEdPubTrusted pkEd (t_pins t) = false) then
      let '(h, p) := seedOwnSigningPkHistory (an_now a) (an_history a) ownEdPub ownMldsaPub (t_history t, t_pins t) in
      let t := t <| t_history := h |> <| t_pins := p |> in
      if signingEdPubTrusted pkEd (t_pins t) then (Ok id, t)
      else if decide (signedBy = "") then (Err (VerifyError (ErrText "owner_signing_pk_untrusted")), t)
      else
        let '(r, m) := checkForeignSignerOnOwnNode (an_now a) (an_friends a) signedBy pkEd (t_pins t) (t_friends t) in
        let t := t <| t_friends := m |> in
        match r with
        | Ok commit => (Ok commit, t)
        | Err reason => (Err (PeerPinError reason signedBy), t)
        end
    else (Ok id, t)
  else (Ok id, t).

Definition verifyOwnerSigsReader (a : Answers) (r : reader) (dl : DownloadResult) (ownEdPub ownMldsaPub : bytes)
    (t : Trust) : result verify_error unit * Trust :=
  match decode_sigs "" "signing_public_key_wrong_size" (d_SignatureEd25519 dl) (d_SignatureMldsa dl)
          (d_SigningPkEd25519 dl) (d_SigningPkMldsa dl) with
  | Err e => (Err (VerifyError e), t)
  | Ok s =>
      let '(signer, t) := check_signer a (d_SignedBy dl) (ds_pkEd s) ownEdPub ownMldsaPub t in
      match signer with
      | Err e => (Err e, t)
      | Ok commitPeerPin =>
          let pub := mkSigningPublicKeySet (copy_array Ed25519PKSize (ds_pkEd s)) (ds_pkMl s) in
          match VerifyFileSignatures r (ds_sigEd s) (ds_sigMl s) (Some pub) with
          | Err e => (Err (VerifyError e), t)
          | Ok _ => (Ok tt, t <| t_pins := commitPeerPin (t_pins t) |>)
          end
      end
  end.

Definition verifyTEESigsReader (a : Answers) (r : reader) (dl : DownloadResult) (t : Trust)
    : result verify_error unit * Trust :=
  match decode_sigs "tee_" "tee_signing_public_key_wrong_size" (d_TEESignatureEd25519 dl) (d_TEESignatureMldsa dl)
          (d_TEESigningPkEd25519 dl) (d_TEESigningPkMldsa dl) with
  | Err e => (Err (VerifyError e), t)
  | Ok s =>
      let '(signer, m) := checkTeeSigningPks (an_now a) (an_attestation a) (d_TEESigningPkEd25519 dl)
                            (d_TEESigningPkMldsa dl) (t_pins t) (t_attested t) in
      let t := t <| t_attested := m |> in
      match signer with
      | Err e => (Err (VerifyError e), t)
      | Ok commitPin =>
          let pub := mkSigningPublicKeySet (copy_array Ed25519PKSize (ds_pkEd s)) (ds_pkMl s) in
          match VerifyTEEFileSignatures r (ds_sigEd s) (ds_sigMl s) (Some pub) with
          | Err e => (Err (VerifyError e), t)
          | Ok _ => (Ok tt, t <| t_pins := commitPin (t_pins t) |>)
          end
      end
  end.

(** [verifyDownloadIntegrity]; the own keys are empty when the session has no
    signing keys at hand. *)
Definition verifyDownloadIntegrity (a : Answers) (r : reader) (dlResult : option DownloadResult)
    (ownEdPub ownMldsaPub : bytes) (t : Trust) : result verify_error unit * Trust :=
  match dlResult with
  | None => (Err (VerifyError (ErrText "download_result_missing")), t)
  | Some dl =>
      if decide (d_SignatureEd25519 dl ≠ "" ∨ d_SignatureMldsa dl ≠ "") then
        verifyOwnerSigsReader a r dl ownEdPub ownMldsaPub t
      else if decide (d_TEESignatureEd25519 dl ≠ "" ∨ d_TEESignatureMldsa dl ≠ "") then
        verifyTEESigsReader a r dl t
      else (Err (VerifyError (ErrText "file_signature_missing")), t)
  end.

(** [deriveSigningEdPub] and [deriveSigningPubs]: nil is empty. *)
Definition deriveSigningEdPub (priv : option SigningPrivateKeySet) : bytes :=
  match priv with
  | Some k => if decide (length (ssk_Ed25519 k) = Ed25519SKSize) then drop 32 (ssk_Ed25519 k) else []
  | None => []
  end.
Definition deriveSigningPubs (priv : option SigningPrivateKeySet) : bytes * bytes :=
  (deriveSigningEdPub priv, match DeriveSigningPublic priv with Ok pub => spk_Mldsa pub | Err _ => [] end).

Definition VerifyDownloadIntegrityWithSigningKey (a : Answers) (r : reader) (dlResult : option DownloadResult)
    (signingPriv : option SigningPrivateKeySet) (t : Trust) : result verify_error unit * Trust :=
  let '(ownEdPub, ownMldsaPub) := deriveSigningPubs signingPriv in
  verifyDownloadIntegrity a r dlResult ownEdPub ownMldsaPub t.
End verify.

(** ** Who may have signed a download that verifies *)

Section spec.
Context `{SS : Sha256Sum, SH : Sha256, SSL : !Sha256SumLaws SH SS, E : Ed25519, M : MLDSA, ET : ErrorText}.
Implicit Types (p : Pins) (t : Trust) (a : Answers).

(** Only the own keys and the outcomes of writes differ. *)
Definition own_only p q : Prop :=
  ∃ own io, q = p <| p_own := own |> <| p_io := io |>.

Lemma own_only_refl p : own_only p p.
Proof. exists (p_own p), (p_io p). by destruct p. Qed.
Lemma own_only_trans p q s : own_only p q → own_only q s → own_only p s.
Proof. intros (o1 & i1 & ->) (o2 & i2 & ->). by exists o2, i2. Qed.

Lemma base64_encode_inj l k : base64_encode l = base64_encode k → l = k.
Proof. intros H%(f_equal base64_decode). rewrite !base64_decode_encode in H. by simplify_eq. Qed.

Lemma next_io_own p o q : next_io p = (o, q) → ∃ io, q = p <| p_io := io |>.
Proof.
  unfold next_io. destruct (p_io p) eqn:Hio; intros [= <- <-]; [exists []|by eauto].
  destruct p. simpl in Hio. by subst.
Qed.

(** Remembering a key adds it and nothing else to the trusted ones. *)
Lemma rememberSigningEdPub_spec pub p :
  own_only p (rememberSigningEdPub pub p) ∧
  ∀ x, signingEdPubTrusted x (rememberSigningEdPub pub p) = true → x = pub ∨ signingEdPubTrusted x p = true.
Proof.
  unfold rememberSigningEdPub. cbv zeta. case_decide as Hd; [split; [apply own_only_refl|auto]|].
  case_decide as Hin; [split; [apply own_only_refl|auto]|].
  unfold write_quietly, WriteFileAtomic. destruct (next_io p) as [o1 p1] eqn:H1. apply next_io_own in H1 as [io1 ->].
  destruct (next_io _) as [o2 p2] eqn:H2. apply next_io_own in H2 as [io2 ->]. destruct o2; cbn [snd].
  - split; [exists (p_own p), io2; by destruct p|]. intros x Hx. right. exact Hx.
  - split; [eexists _, io2; reflexivity|]. intros x. unfold signingEdPubTrusted. rewrite !bool_decide_eq_true.
    unfold loadSigningPkSet at 1. cbv zeta. change (signingPinOwner (_ <| p_own := _ |>)) with (signingPinOwner p).
    case_decide as Ho; [by intros ?%not_elem_of_nil|]. unfold loadSigningPkFile at 1.
    change (signingPksPath (_ <| p_own := _ |>)) with (signingPksPath p). rewrite decide_False by naive_solver.
    cbn [p_own over_field]. rewrite decide_True, lookup_insert_eq by done. cbn [from_option id].
    intros Hx. apply (elem_of_sublist _ (default [] (loadSigningPkFile p !! signingPinOwner p) ++ [base64_encode pub])) in Hx;
      [|apply sublist_drop]. apply elem_of_app in Hx as [Hx|Hx%list_elem_of_singleton].
    + right. unfold loadSigningPkSet. cbv zeta. by rewrite decide_False.
    + left. by apply base64_encode_inj.
Qed.

(** Trust in a key after the history was consulted. *)
Definition trusted_since a (own ownMl pkEd : bytes) p : Prop :=
  pkEd = own ∨ signingEdPubTrusted pkEd p = true ∨
  ∃ h blob eds, an_history a = Some h ∧ verifySigningPkHistory blob own ownMl = Some eds ∧ pkEd ∈ eds.

Lemma remember_all_spec eds p :
  own_only p (foldl (λ p ed, rememberSigningEdPub ed p) p eds) ∧
  ∀ x, signingEdPubTrusted x (foldl (λ p ed, rememberSigningEdPub ed p) p eds) = true →
    x ∈ eds ∨ signingEdPubTrusted x p = true.
Proof.
  revert p. induction eds as [|ed eds IH]; intros p; cbn [foldl]; [split; [apply own_only_refl|auto]|].
  destruct (rememberSigningEdPub_spec ed p) as [Hp Ht]. destruct (IH (rememberSigningEdPub ed p)) as [Hp' Ht'].
  split; [by eapply own_only_trans|]. intros x [Hx|[->|Hx]%Ht]%Ht'; [left; by right|left; by left|by right].
Qed.

Lemma seed_spec a own ownMl h p h' p' :
  seedOwnSigningPkHistory (an_now a) (an_history a) own ownMl (h, p) = (h', p') →
  own_only p p' ∧ ∀ x, signingEdPubTrusted x p' = true → trusted_since a own ownMl x p.
Proof.
  unfold seedOwnSigningPkHistory, trusted_since. case_decide; [intros [= _ <-]; split; [apply own_only_refl|auto]|].
  destruct (an_history a) as [ans|]; [|intros [= _ <-]; split; [apply own_only_refl|auto]]. cbv zeta.
  case_decide; [intros [= _ <-]; split; [apply own_only_refl|auto]|].
  destruct (base64_decode _) as [blob|]; [|intros [= _ <-]; split; [apply own_only_refl|auto]].
  intros [= _ <-]. destruct (remember_all_spec (default [] (verifySigningPkHistory (ha_blob ans blob) own ownMl)) p) as [Hp Ht].
  split; [done|]. intros x [Hx|Hx]%Ht; [|auto]. destruct (verifySigningPkHistory _ _ _) as [eds|] eqn:Hv;
    [|by apply not_elem_of_nil in Hx]. right. right. by exists ans, (ha_blob ans blob), eds.
Qed.

(** The signer of an own file, as the code decides it. *)
Inductive signer_ok a (signedBy : string) (own ownMl pkEd : bytes) t : Prop :=
| signer_unchecked : length own ≠ Ed25519PKSize → signer_ok a signedBy own ownMl pkEd t
| signer_trusted : trusted_since a own ownMl pkEd (t_pins t) → signer_ok a signedBy own ownMl pkEd t
| signer_pinned : peerSigningPkSeen signedBy (t_pins t) = Some (base64_encode pkEd) → signer_ok a signedBy own ownMl pkEd t
| signer_friend : peerSigningPkSeen signedBy (t_pins t) = None →
    (peerHasFriendEdge (an_now a) (an_friends a) signedBy (t_friends t)).1 = true → signer_ok a signedBy own ownMl pkEd t.

(** What a commit does to the store of own keys: nothing. *)
Definition spares_own (commit : Pins → Pins) : Prop :=
  ∀ p, p_own (commit p) = p_own p ∧ p_dir (commit p) = p_dir p ∧ p_PublicKey (commit p) = p_PublicKey p.

Lemma spares_trusted commit p x : spares_own commit → signingEdPubTrusted x (commit p) = signingEdPubTrusted x p.
Proof.
  intros H. destruct (H p) as (H1 & H2 & H3). unfold signingEdPubTrusted, loadSigningPkSet, signingPinOwner, loadSigningPkFile,
    signingPinOwner, signingPksPath, store_path. by rewrite H1, H2, H3.
Qed.
Lemma spares_id : spares_own id.
Proof. by split. Qed.
Lemma spares_write publish : spares_own publish → spares_own (write_quietly publish).
Proof.
  intros H p. unfold write_quietly, WriteFileAtomic. destruct (next_io p) as [o1 p1] eqn:H1. apply next_io_own in H1 as [io1 ->].
  destruct (next_io _) as [[e|] p2] eqn:H2; apply next_io_own in H2 as [io2 ->]; cbn [snd]; [done|exact (H _)].
Qed.
Lemma spares_peer peer ed : spares_own (recordPeerSigningPk peer ed).
Proof.
  intros p. unfold recordPeerSigningPk. cbv zeta. case_decide; [done|].
  by refine (spares_write _ (λ q, _) p).
Qed.
Lemma spares_tee ed ml : spares_own (recordTeeSigningPk ed ml).
Proof.
  intros p. unfold recordTeeSigningPk, update_record. case_decide; [done|]. cbv zeta. case_decide; [done|].
  destruct (loadTeeSigningPkFile p); [|done]. unfold writeTeeSigningPkFile. by refine (spares_write _ (λ q, _) p).
Qed.

Lemma check_signer_spec a signedBy pkEd own ownMl t r t' :
  check_signer a signedBy pkEd own ownMl t = (r, t') →
  own_only (t_pins t) (t_pins t') ∧ (is_ok r = true → signer_ok a signedBy own ownMl pkEd t).
Proof.
  unfold check_signer. case_decide as Hlen; [|intros [= <- <-]; split; [apply own_only_refl|by constructor 1]]. cbv zeta.
  destruct (rememberSigningEdPub_spec own (t_pins t)) as [Hp1 Ht1]. cbn [t_pins t_history t_friends over_field].
  case_decide as Hk.
  - destruct (seedOwnSigningPkHistory _ _ _ _ _) as [h p] eqn:Hs. apply seed_spec in Hs as [Hp2 Ht2].
    assert (own_only (t_pins t) p) as Hp by (by eapply own_only_trans). cbn [t_pins t_history t_friends over_field].
    destruct (signingEdPubTrusted pkEd p) eqn:Htr.
    { intros [= <- <-]. split; [done|]. intros _. apply signer_trusted.
      destruct (Ht2 _ Htr) as [?|[[?|?]%Ht1|?]]; unfold trusted_since; auto. }
    case_decide; [intros [= <- <-]; split; [done|by intros]|].
    destruct (checkForeignSignerOnOwnNode _ _ _ _ _ _) as [c m] eqn:Hc. intros Hr.
    assert (t_pins t' = p ∧ is_ok r = is_ok c) as [-> ->] by (by destruct c; simplify_eq). split; [done|].
    unfold checkForeignSignerOnOwnNode in Hc. case_decide; [by simplify_eq|]. cbv zeta in Hc.
    assert (peerSigningPkSeen signedBy p = peerSigningPkSeen signedBy (t_pins t)) as Hseen
      by (destruct Hp as (o & io & ->); reflexivity).
    rewrite Hseen in Hc. destruct (peerSigningPkSeen signedBy (t_pins t)) as [seen|] eqn:Hpk.
    + case_decide as Hne; [by simplify_eq|]. intros _. apply signer_pinned. by rewrite Hpk, Hne.
    + destruct (peerHasFriendEdge _ _ _ _) as [edge m'] eqn:He. destruct edge; simplify_eq; [|done]. intros _.
      apply signer_friend; [done|]. by rewrite He.
  - intros [= <- <-]. split; [done|]. intros _. apply signer_trusted. unfold trusted_since.
    destruct (decide (pkEd = own)) as [->|Hne]; [by left|]. destruct (signingEdPubTrusted pkEd (rememberSigningEdPub own (t_pins t))) eqn:Ht.
    + destruct (Ht1 _ Ht) as [->|]; auto.
    + destruct Hk. by split; [congruence|].
Qed.

(** What the check comes to trust, and what it leaves to do. *)
Lemma check_signer_trusts a signedBy pkEd own ownMl t r t' :
  check_signer a signedBy pkEd own ownMl t = (r, t') →
  (∀ x, signingEdPubTrusted x (t_pins t') = true → trusted_since a own ownMl x (t_pins t)) ∧
  (∀ commit, r = Ok commit → spares_own commit).
Proof.
  unfold check_signer, trusted_since. case_decide; [|intros [= <- <-]; split; [auto|intros ? [= <-]; apply spares_id]]. cbv zeta.
  destruct (rememberSigningEdPub_spec own (t_pins t)) as [_ Ht1]. cbn [t_pins t_history t_friends over_field]. case_decide.
  - destruct (seedOwnSigningPkHistory _ _ _ _ _) as [h p] eqn:Hs. apply seed_spec in Hs as [_ Ht2].
    assert (∀ x, signingEdPubTrusted x p = true → trusted_since a own ownMl x (t_pins t)) as Hp.
    { intros x [?|[[?|?]%Ht1|?]]%Ht2; unfold trusted_since; auto. }
    cbn [t_pins t_history t_friends over_field].
    destruct (signingEdPubTrusted pkEd p); [intros [= <- <-]; split; [done|intros ? [= <-]; apply spares_id]|].
    case_decide; [by intros [= <- <-]|]. destruct (checkForeignSignerOnOwnNode _ _ _ _ _ _) as [c m] eqn:Hc. intros Hr.
    assert (t_pins t' = p ∧ (∀ commit, r = Ok commit → c = Ok commit)) as [-> Hcommit] by (destruct c; simplify_eq; split; [done|congruence|done|done]).
    split; [done|]. intros commit ->%Hcommit. unfold checkForeignSignerOnOwnNode in Hc. case_decide; [done|]. cbv zeta in Hc.
    destruct (peerSigningPkSeen _ _); [case_decide; simplify_eq; apply spares_id|].
    destruct (peerHasFriendEdge _ _ _ _) as [[] m']; simplify_eq. apply spares_peer.
  - intros [= <- <-]. split; [|intros ? [= <-]; apply spares_id]. intros x [->|?]%Ht1; auto.
Qed.

(** Both signatures of the downloaded bytes verify under the served keys. *)
Definition signatures_verify (domain : string) (data : bytes) (s : decoded_sigs) : Prop :=
  let input := text_bytes domain ++ sha256_Sum256 data in
  length (ds_pkEd s) = Ed25519PKSize ∧ length (ds_pkMl s) = Mldsa44PKSize ∧
  ed25519_Verify (ds_pkEd s) input (ds_sigEd s) = true ∧ mldsa_Verify (ds_pkMl s) input (ds_sigMl s) = Some true.

Lemma decode_sigs_sizes prefix err se sm pe pm s :
  decode_sigs prefix err se sm pe pm = Ok s → length (ds_pkEd s) = Ed25519PKSize ∧ length (ds_pkMl s) = Mldsa44PKSize.
Proof.
  unfold decode_sigs.
  intros (? & _ & (? & _ & (? & _ & (? & _ & Hl)%bind_Ok_inv)%bind_Ok_inv)%bind_Ok_inv)%bind_Ok_inv.
  apply ensure_bind_Ok in Hl as [Hl [= <-]]. done.
Qed.

Lemma decode_sigs_pk prefix err se sm pe pm s :
  decode_sigs prefix err se sm pe pm = Ok s → base64_decode pe = Some (ds_pkEd s).
Proof.
  unfold decode_sigs.
  intros (? & _ & (? & _ & (pk & Hpk & (? & _ & Hl)%bind_Ok_inv)%bind_Ok_inv)%bind_Ok_inv)%bind_Ok_inv.
  apply ensure_bind_Ok in Hl as [_ [= <-]]. cbn [ds_pkEd]. unfold decodeB64Required in Hpk.
  case_decide; [done|]. destruct (base64_decode pe); by simplify_eq.
Qed.

Lemma verify_pair domain r s errPrefix u :
  length (ds_pkEd s) = Ed25519PKSize → length (ds_pkMl s) = Mldsa44PKSize →
  verifySignaturePair r domain (ds_sigEd s) (ds_sigMl s)
    (Some (mkSigningPublicKeySet (copy_array Ed25519PKSize (ds_pkEd s)) (ds_pkMl s))) errPrefix = Ok u →
  ∃ data, r = Ok data ∧ signatures_verify domain data s.
Proof.
  intros H1 H2 Hv. destruct u. assert (copy_array Ed25519PKSize (ds_pkEd s) = ds_pkEd s) as Hc
    by (by apply resize_all_alt). rewrite Hc in Hv.
  destruct r as [data|e].
  - exists data. split; [done|]. apply verifySignaturePair_Ok in Hv. unfold signatures_verify.
    cbn [spk_Ed25519 spk_Mldsa] in Hv. naive_solver.
  - unfold verifySignaturePair, hashCiphertext in Hv. rewrite !ensure_bind_Ok in Hv. by destruct Hv as (_ & _ & ?).
Qed.

(** The signer of a file the enclave made: a key the account's record accepts,
    or, before one is pinned, the attested one. *)
Definition enclave_ok a (edB64 mlB64 : string) t : Prop :=
  ∃ rec, teeSigningRecord (t_pins t) = Ok rec ∧
    if pinned rec then accepts rec edB64 mlB64 = true
    else ∃ att, (attestedTeeSigningPk (an_now a) (an_attestation a) (t_attested t)).1 = Some att ∧
           ts_Ed att = edB64 ∧ ts_Ml att = mlB64.

Lemma checkTeeSigningPks_spec a ed ml t commit m :
  checkTeeSigningPks (an_now a) (an_attestation a) ed ml (t_pins t) (t_attested t) = (Ok commit, m) →
  enclave_ok a ed ml t.
Proof.
  unfold checkTeeSigningPks, enclave_ok. destruct (teeSigningRecord (t_pins t)) as [rec|]; [|done].
  intros H. exists rec. split; [done|]. destruct (pinned rec).
  - by destruct (accepts rec ed ml).
  - destruct (attestedTeeSigningPk _ _ _) as [[att|] m']; [|done]. case_decide; [done|]. exists att.
    split; [done|]. split; apply dec_stable; naive_solver.
Qed.

Lemma checkTeeSigningPks_spares now answer ed ml p m commit m' :
  checkTeeSigningPks now answer ed ml p m = (Ok commit, m') → spares_own commit.
Proof.
  unfold checkTeeSigningPks. destruct (teeSigningRecord p) as [rec|]; [|done]. destruct (pinned rec).
  - destruct (accepts rec ed ml); [|done]. intros [= <- _]. apply spares_id.
  - destruct (attestedTeeSigningPk _ _ _) as [[att|] m2]; [|done]. case_decide; [done|]. intros [= <- _]. apply spares_tee.
Qed.

(** C5: A download verifies only if both post-quantum and classical signatures
    of its bytes hold under the served keys.  When the session has own signing
    keys those keys are moreover allowed: the own key, one trusted already or
    listed in a history signed by the own keys, the pinned key of the named peer,
    or a friend's on first contact; without own signing keys any owner key is
    accepted.  A file without an owner signature needs the accepted or attested
    enclave's key.  Whatever the outcome, the own keys trusted afterwards are the
    session's own key, those trusted before and those of a history it signed, and
    a download that does not verify changes no pin of a peer, of a contact's
    sealing key or of the enclave. *)
Theorem verifyDownloadIntegrity_signer a r dl own ownMl t res t' :
  verifyDownloadIntegrity a r (Some dl) own ownMl t = (res, t') →
  (∀ x, signingEdPubTrusted x (t_pins t') = true → trusted_since a own ownMl x (t_pins t)) ∧
  match res with
  | Err _ => p_peer (t_pins t') = p_peer (t_pins t) ∧ p_tee (t_pins t') = p_tee (t_pins t) ∧
             p_seal (t_pins t') = p_seal (t_pins t)
  | Ok _ => ∃ data s, r = Ok data ∧
      ((d_SignatureEd25519 dl ≠ "" ∨ d_SignatureMldsa dl ≠ "") ∧ signatures_verify SignatureDomain data s ∧
         base64_decode (d_SigningPkEd25519 dl) = Some (ds_pkEd s) ∧
         signer_ok a (d_SignedBy dl) own ownMl (ds_pkEd s) t ∨
       (d_SignatureEd25519 dl = "" ∧ d_SignatureMldsa dl = "") ∧ signatures_verify TEESignatureDomain data s ∧
         enclave_ok a (d_TEESigningPkEd25519 dl) (d_TEESigningPkMldsa dl) t)
  end.
Proof.
  unfold verifyDownloadIntegrity. case_decide as Hown.
  - unfold verifyOwnerSigsReader. destruct (decode_sigs _ _ _ _ _ _) as [s|e] eqn:Hs; [|intros [= <- <-]; unfold trusted_since; auto].
    destruct (check_signer _ _ _ _ _ _) as [c t1] eqn:Hc. pose proof (check_signer_trusts _ _ _ _ _ _ _ _ Hc) as [Htr Hco].
    apply check_signer_spec in Hc as [Hp Hok].
    assert (p_peer (t_pins t1) = p_peer (t_pins t) ∧ p_tee (t_pins t1) = p_tee (t_pins t) ∧
            p_seal (t_pins t1) = p_seal (t_pins t)) as Hfiles by (by destruct Hp as (o & io & ->)).
    destruct c as [commit|e]; [|intros [= <- <-]; by split].
    pose proof (decode_sigs_sizes _ _ _ _ _ _ _ Hs) as [H1 H2].
    destruct (VerifyFileSignatures _ _ _ _) as [u|e] eqn:Hv; [|intros [= <- <-]; by split].
    intros [= <- <-]. destruct (verify_pair _ _ _ _ _ H1 H2 Hv) as (data & -> & Hd).
    split; [intros x; cbn [t_pins over_field]; rewrite (spares_trusted _ _ _ (Hco _ eq_refl)); apply Htr|].
    exists data, s. split; [done|]. left. split; [done|]. split; [done|]. split; [by eapply decode_sigs_pk|auto].
  - case_decide; [|intros [= <- <-]; unfold trusted_since; auto]. unfold verifyTEESigsReader.
    destruct (decode_sigs _ _ _ _ _ _) as [s|e] eqn:Hs; [|intros [= <- <-]; unfold trusted_since; auto].
    destruct (checkTeeSigningPks _ _ _ _ _ _) as [c m] eqn:Hc.
    destruct c as [commit|e]; [|intros [= <- <-]; unfold trusted_since; cbn; auto].
    pose proof (decode_sigs_sizes _ _ _ _ _ _ _ Hs) as [H1 H2].
    destruct (VerifyTEEFileSignatures _ _ _ _) as [u|e] eqn:Hv; [|intros [= <- <-]; unfold trusted_since; cbn; auto].
    intros [= <- <-]. destruct (verify_pair _ _ _ _ _ H1 H2 Hv) as (data & -> & Hd).
    split; [intros x; cbn [t_pins over_field]; rewrite (spares_trusted _ _ _ (checkTeeSigningPks_spares _ _ _ _ _ _ _ _ Hc)); unfold trusted_since; auto|].
    exists data, s. split; [done|]. right. split; [split; apply dec_stable; naive_solver|].
    split; [done|]. by eapply checkTeeSigningPks_spec.
Qed.
End spec.

(** ** An example: a file signed with the own keys *)

Definition ex_signer : SigningPublicKeySet * SigningPrivateKeySet :=
  GenerateSigningKeyPair (replicate 32 x02) (replicate 40 x03).
Definition ex_body : bytes := [x01; x02; x03].
Definition ex_download : DownloadResult :=
  match SignFileBytes (Ok ex_body) (Some ex_signer.2) with
  | Ok (e, m) => mkDownloadResult true "" "" (base64_encode e) (base64_encode m) (base64_encode (spk_Ed25519 ex_signer.1))
                   (base64_encode (spk_Mldsa ex_signer.1)) "" "" "" "" ""
  | Err _ => mkDownloadResult false "" "" "" "" "" "" "" "" "" "" ""
  end.
Definition ex_trust : Trust :=
  mkTrust (mkPins "/home/u/.config/pigcloud" (base64_encode (replicate 32 x01)) FileAbsent FileAbsent FileAbsent FileAbsent [])
    (mkHistoryMemo false 0) (mkFriendMemo None 0 0) (mkAttestedMemo None 0).
Definition ex_answers : Answers := mkAnswers hour None None (Err (ErrText "offline")).

Lemma verifyDownloadIntegrity_signer_witness :
  is_ok (verifyDownloadIntegrity ex_answers (Ok ex_body) (Some ex_download) (replicate 32 x02) [] ex_trust).1 = true ∧
  ∃ s, signatures_verify SignatureDomain ex_body s ∨ signatures_verify TEESignatureDomain ex_body s.
Proof.
  assert (is_ok (verifyDownloadIntegrity ex_answers (Ok ex_body) (Some ex_download) (replicate 32 x02) [] ex_trust).1
    = true) as Hok by (vm_compute; reflexivity).
  pose proof (verifyDownloadIntegrity_signer ex_answers (Ok ex_body) ex_download (replicate 32 x02) [] ex_trust _ _
    (surjective_pairing _)) as Hthm.
  destruct (verifyDownloadIntegrity ex_answers (Ok ex_body) (Some ex_download) (replicate 32 x02) [] ex_trust).1 as [u|];
    [|discriminate Hok].
  split; [reflexivity|]. destruct Hthm as (_ & data & s & Hd & Hs). injection Hd as <-. exists s.
  destruct Hs as [(_ & Hs & _)|(_ & Hs & _)]; [left; exact Hs|right; exact Hs].
Defined.

(** ** What a signature is over

    The client signs four kinds of messages with the same keys: a file, a file
    of the enclave, a key bundle and a history of keys. *)

Inductive signed_message : Type :=
| SignedFile (digest : bytes)
| SignedTEEFile (digest : bytes)
| SignedBundle (b : KeyBundle)
| SignedHistory (eds : list string).

Definition signed_input (m : signed_message) : option bytes :=
  match m with
  | SignedFile digest => signingInput SignatureDomain digest
  | SignedTEEFile digest => signingInput TEESignatureDomain digest
  | SignedBundle b => match keyBundleInput b with Ok i => Some i | Err _ => None end
  | SignedHistory eds => fst <$> decode_eds eds (text_bytes signingPkHistoryDomain) []
  end.

(** Messages a signature cannot tell apart. *)
Definition same_message (m n : signed_message) : Prop :=
  match m, n with
  | SignedFile d, SignedFile d' | SignedTEEFile d, SignedTEEFile d' => d = d'
  | SignedBundle b, SignedBundle b' => b = b'
  | SignedHistory eds, SignedHistory eds' =>
      ∃ l l', mapM base64_decode eds = Some l ∧ mapM base64_decode eds' = Some l' ∧ concat l = concat l'
  | _, _ => False
  end.

Lemma decode_all_cons ed eds :
  mapM base64_decode (ed :: eds) = (raw ← base64_decode ed; l ← mapM base64_decode eds; Some (raw :: l)).
Proof. done. Qed.

Lemma decode_eds_spec eds input decoded :
  decode_eds eds input decoded = (λ l, (input ++ concat l, decoded ++ l)) <$> mapM base64_decode eds.
Proof.
  revert input decoded. induction eds as [|ed eds IH]; intros input decoded; cbn [decode_eds].
  { change (mapM base64_decode []) with (Some (@nil bytes)). simpl. by rewrite !app_nil_r. }
  rewrite decode_all_cons. destruct (base64_decode ed) as [raw|]; [|done]. cbn [mbind option_bind]. rewrite IH.
  destruct (mapM base64_decode eds) as [l|]; [|done]. simpl. by rewrite <- !app_assoc.
Qed.

Lemma append_fields_Ok fields input i :
  append_fields fields input = Ok i → i = input ++ concat (fst <$> fields) ∧ Forall (λ f, length f.1 = f.2) fields.
Proof.
  revert input. induction fields as [|[raw size] fields IH]; intros input; cbn [append_fields].
  { intros [= <-]. simpl. by rewrite app_nil_r. }
  rewrite ensure_bind_Ok. intros [Hl [-> Hf]%IH]. simpl. rewrite <- app_assoc. split; [done|]. by constructor.
Qed.

Lemma keyBundleInput_Ok b i : keyBundleInput b = Ok i →
  i = text_bytes KeyBundleDomain ++ kb_X25519 b ++ kb_Kyber b ++ kb_Ed25519 b ++ kb_Mldsa b ∧
  length (kb_X25519 b) = 32%nat ∧ length (kb_Kyber b) = KyberPublicKeySize ∧
  length (kb_Ed25519 b) = Ed25519PKSize ∧ length (kb_Mldsa b) = Mldsa44PKSize.
Proof.
  unfold keyBundleInput, keyBundleFields. intros [-> Hf]%append_fields_Ok.
  rewrite !Forall_cons in Hf. cbn [fmap list_fmap fst snd concat] in *. rewrite app_nil_r. naive_solver.
Qed.

Lemma keyBundleInput_inj b b' i : keyBundleInput b = Ok i → keyBundleInput b' = Ok i → b = b'.
Proof.
  intros (-> & H1 & H2 & H3 & H4)%keyBundleInput_Ok (He & H1' & H2' & H3' & H4')%keyBundleInput_Ok.
  apply app_inv_head in He. apply app_inj_1 in He as [E1 He]; [|congruence].
  apply app_inj_1 in He as [E2 He]; [|congruence]. apply app_inj_1 in He as [E3 E4]; [|congruence].
  destruct b, b'; simpl in *; congruence.
Qed.

(** The domains already differ in their first ten bytes. *)
Lemma domain_take m i : signed_input m = Some i →
  take 10 i = take 10 (text_bytes match m with SignedFile _ => SignatureDomain | SignedTEEFile _ => TEESignatureDomain
    | SignedBundle _ => KeyBundleDomain | SignedHistory _ => signingPkHistoryDomain end).
Proof.
  destruct m as [d|d|b|eds]; cbn [signed_input].
  - unfold signingInput. case_decide; intros; by simplify_eq.
  - unfold signingInput. case_decide; intros; by simplify_eq.
  - destruct (keyBundleInput b) as [k|] eqn:Hb; [|done]. apply keyBundleInput_Ok in Hb as [-> _]. intros; by simplify_eq.
  - rewrite decode_eds_spec. destruct (mapM base64_decode eds); simpl; intros; by simplify_eq.
Qed.

(** C28: A signature made for one purpose never counts for another, and binds
    the whole message, except that a history of keys is bound only up to where
    one key ends and the next begins. *)
Theorem signed_messages_separate m n i :
  signed_input m = Some i → signed_input n = Some i → same_message m n.
Proof.
  intros Hm Hn. pose proof (domain_take _ _ Hm) as Dm. pose proof (domain_take _ _ Hn) as Dn. rewrite Dm in Dn. clear Dm.
  destruct m as [d|d|b|eds], n as [d'|d'|b'|eds']; try discriminate Dn; cbn [signed_input same_message] in *; clear Dn.
  - unfold signingInput in *. repeat case_decide; simplify_eq. done.
  - unfold signingInput in *. repeat case_decide; simplify_eq. done.
  - destruct (keyBundleInput b) eqn:Hb, (keyBundleInput b') eqn:Hb'; simplify_eq. by eapply keyBundleInput_inj.
  - rewrite decode_eds_spec in Hm, Hn. destruct (mapM base64_decode eds) as [l|]; [|done].
    destruct (mapM base64_decode eds') as [l'|]; [|done]. simplify_eq/=. exists l, l'. split; [done|]. split; [done|].
    exact Hm.
Qed.

Lemma guard_bind_Some (P : Prop) `{Decision P} {B} (k : option B) b : (guard P;; k) = Some b ↔ P ∧ k = Some b.
Proof. destruct (decide P); [rewrite option_guard_True by done|rewrite option_guard_False by done]; naive_solver. Qed.

(** A history that verifies still verifies when its keys are cut elsewhere. *)
Lemma history_resplit `{E : Ed25519, M : MLDSA} blob own ml keys cut :
  verifySigningPkHistory (Some blob) own ml = Some keys → cut ≠ [] → concat cut = concat keys →
  verifySigningPkHistory (Some (mkHistoryBlob (hb_V blob) (base64_encode <$> cut) (hb_SigEd blob) (hb_SigMl blob)))
    own ml = Some cut.
Proof.
  assert (∀ l, mapM base64_decode (base64_encode <$> l) = Some l) as Hmap.
  { intros l. induction l as [|x l IH]; [done|]. rewrite fmap_cons, decode_all_cons, base64_decode_encode, IH. done. }
  unfold verifySigningPkHistory. cbn [mbind option_bind hb_V hb_Eds hb_SigEd hb_SigMl]. intros H Hc Hcat.
  rewrite guard_bind_Some in H |- *. destruct H as [(? & _ & ? & ?) H]. split; [by destruct cut|].
  rewrite decode_eds_spec, Hmap. rewrite decode_eds_spec in H.
  destruct (mapM base64_decode (hb_Eds blob)) as [l|]; [|done]. simpl in H |- *.
  assert (concat l = concat keys) as Hl.
  { revert H. rewrite bind_Some. intros (sigEd & _ & H). rewrite !guard_bind_Some, bind_Some in H.
    destruct H as (_ & _ & sigMl & _ & H). rewrite guard_bind_Some, bind_Some in H.
    destruct H as (_ & ok & _ & H). rewrite guard_bind_Some in H. by destruct H as [_ [= <-]]. }
  rewrite Hcat, <- Hl. revert H. rewrite !bind_Some. intros (sigEd & ? & H). exists sigEd. split; [done|].
  rewrite !guard_bind_Some, !bind_Some in H |- *. destruct H as (? & ? & sigMl & ? & H). do 2 (split; [done|]).
  exists sigMl. split; [done|]. rewrite !guard_bind_Some, !bind_Some in H |- *. destruct H as (? & ok & ? & H).
  split; [done|]. exists ok. split; [done|]. rewrite guard_bind_Some in H |- *. naive_solver.
Qed.

(** Two histories with the same signed message: one key and its halves. *)
Lemma signed_messages_separate_witness :
  signed_input (SignedHistory [base64_encode [x01; x02]]) =
  signed_input (SignedHistory [base64_encode [x01]; base64_encode [x02]]) ∧
  same_message (SignedHistory [base64_encode [x01; x02]]) (SignedHistory [base64_encode [x01]; base64_encode [x02]]).
Proof.
  split; [reflexivity|].
  apply (signed_messages_separate _ _ (text_bytes signingPkHistoryDomain ++ [x01; x02])); reflexivity.
Defined.
