(* ===== verification/FileCrypt.v ===== *)
(** * File encryption

    [internal/crypto]: [encrypt.go], [decrypt.go], [frame.go].  An encrypted file
    is a sequence of chunks, each a 4-byte big-endian ciphertext length and the
    ciphertext, sealed under a nonce incremented per chunk with the chunk index
    as additional data; the metadata carry a MAC over every field and the hash
    of the plaintext. *)
From S2P Require Import Prelude GoLib GoFmt ApiErrors Crypto.
Local Open Scope Z_scope.

(** The constant [ChunkSize], a parameter so that small files can be evaluated. *)
Class FileChunkSize : Type := {
  ChunkSize : Z;
  ChunkSize_bound : 0 < ChunkSize ∧ ChunkSize + Z.of_nat Overhead + 1024 < 2 ^ 32 }.
#[export] Instance code_file_chunk_size : FileChunkSize | 10.
Proof. refine {| ChunkSize := 1024 * 1024 |}. by vm_compute. Defined.

Record EncryptionMetadata : Type := mkEncryptionMetadata {
  Version : Z; Nonce : bytes; MetaChunkSize : Z; Chunks : Z;
  PlaintextSHA256 : string; PlaintextSize : Z; MetadataMAC : string }.
#[export] Instance EncryptionMetadata_eta : Eta EncryptionMetadata := λ m,
  mkEncryptionMetadata (Version m) (Nonce m) (MetaChunkSize m) (Chunks m)
    (PlaintextSHA256 m) (PlaintextSize m) (MetadataMAC m).

(** The value [WireJSON] marshals. *)
Definition WireJSON (m : EncryptionMetadata) : EncryptionMetadata := m <| PlaintextSHA256 := "" |>.

(** The loop stops after the first byte that does not wrap to zero. *)
Fixpoint incrementNonce (nonce : bytes) : bytes :=
  match nonce with
  | [] => []
  | b :: rest =>
      let b' := byte_of_Z (Z_of_byte b + 1) in
      if decide (b' = x00) then b' :: incrementNonce rest else b' :: rest
  end.

Section crypt.
Context `{A : AEAD, SH : Sha256, HM : Hmac, CS : FileChunkSize}.

Definition chunk_len : nat := Z.to_nat ChunkSize.
Definition maxChunkLen : Z := ChunkSize + Z.of_nat Overhead + 1024.

(** The line the MAC is computed over: the six fields in brackets, separated by
    commas, the nonce and the hash in double quotes. *)
Definition canonical (m : EncryptionMetadata) : string :=
  "[" ^^ fmt_d (Version m) ^^ String.String comma (String.String quote
  (base64_encode (Nonce m) ^^ String.String quote (String.String comma
  (fmt_d (MetaChunkSize m) ^^ String.String comma
  (fmt_d (Chunks m) ^^ String.String comma (String.String quote
  (PlaintextSHA256 m ^^ String.String quote (String.String comma
  (fmt_d (PlaintextSize m) ^^ "]"))))))))).

Definition ComputeMetadataMAC (dataKey : bytes) (m : EncryptionMetadata) : string :=
  hex_encode (hmac_sha256 dataKey (String.list_byte_of_string (canonical m))).

Definition ComputePlaintextHmac (plaintextSHA256Hex : string) (nameKey : bytes)
    : result error string :=
  match hex_decode plaintextSHA256Hex with
  | None => Err (ErrWrap "invalid plaintext sha256 hex" (ErrText "encoding/hex"))
  | Some hashBytes => Ok (hex_encode (hmac_sha256 nameKey hashBytes))
  end.

(** ** Encryption *)

(** A file opened for writing that accepts [room] more bytes. *)
Record outfile : Type := mkOut { written : bytes; room : nat }.
Definition out_write (p : bytes) (o : outfile) : bool * outfile :=
  if decide (length p ≤ room o)%nat then (true, mkOut (written o ++ p) (room o - length p))
  else (false, mkOut (written o ++ take (room o) p) 0).

(** A source yields bytes and then end of file or a read error. *)
Record source : Type := mkSource { remaining : bytes; read_error : option error }.

Record enc_state : Type := mkEnc {
  currentNonce : bytes; chunks : Z; totalSize : Z; hashed : bytes; output : outfile }.

(** The body of the loop for the [n > 0] bytes read. *)
Definition enc_chunk (dataKey chunk : bytes) (st : enc_state) : result error unit * enc_state :=
  let hashed' := hashed st ++ chunk in
  let total' := wrap64 (totalSize st + Z.of_nat (length chunk)) in
  let chunkAD := be_bytes 4 (u32 (chunks st)) in
  let ciphertext := aead_Seal dataKey (currentNonce st) chunk chunkAD in
  let lenBuf := be_bytes 4 (u32 (Z.of_nat (length ciphertext))) in
  let '(ok, o) := out_write lenBuf (output st) in
  if negb ok then
    (Err (ErrWrap "failed to write length" (ErrText "write")),
     mkEnc (currentNonce st) (chunks st) total' hashed' o)
  else
  let '(ok, o) := out_write ciphertext o in
  if negb ok then
    (Err (ErrWrap "failed to write ciphertext" (ErrText "write")),
     mkEnc (currentNonce st) (chunks st) total' hashed' o)
  else (Ok tt, mkEnc (incrementNonce (currentNonce st)) (wrap64 (chunks st + 1)) total' hashed' o).

Definition out_of_fuel : error := ErrText "out of fuel".

Fixpoint enc_loop (fuel : nat) (dataKey : bytes) (input : source) (st : enc_state)
    : result error unit * enc_state :=
  match fuel with
  | O => (Err out_of_fuel, st)
  | S fuel =>
      let full := bool_decide (chunk_len ≤ length (remaining input))%nat in
      let buf := if full then take chunk_len (remaining input) else remaining input in
      let input' := mkSource (drop (length buf) (remaining input)) (read_error input) in
      let '(res, st) :=
        if decide (0 < length buf)%nat then enc_chunk dataKey buf st else (Ok tt, st) in
      match res with
      | Err e => (Err e, st)
      | Ok _ =>
          if full then enc_loop fuel dataKey input' st
          else match read_error input with
               | None => (Ok tt, st)
               | Some e => (Err (ErrWrap "failed to read input" e), st)
               end
      end
  end.

(** [input] is the opened input file or the error of opening it, [create] the
    error of creating the output, [room] the space left for it. *)
Definition EncryptFile (input : result error source) (create : option error) (space : nat)
    (dataKey nonce : bytes) : result error EncryptionMetadata * bytes :=
  match NewX dataKey with
  | Err e => (Err (ErrWrap "failed to create AEAD" e), [])
  | Ok _ =>
      match input with
      | Err e => (Err (ErrWrap "failed to open input" e), [])
      | Ok input =>
          match create with
          | Some e => (Err (ErrWrap "failed to create output" e), [])
          | None =>
              match enc_loop (S (length (remaining input))) dataKey input
                      (mkEnc nonce 0 0 [] (mkOut [] space)) with
              | (Err e, st) => (Err e, written (output st))
              | (Ok _, st) =>
                  let meta := mkEncryptionMetadata 2 nonce ChunkSize (chunks st)
                                (sha256_hex (hashed st)) (totalSize st) "" in
                  (Ok (meta <| MetadataMAC := ComputeMetadataMAC dataKey meta |>),
                   written (output st))
              end
          end
      end
  end.

(** ** Decryption *)

Definition verifyMetadataMACWithRecoveredHash (dataKey : bytes) (m : EncryptionMetadata)
    (recoveredHash : string) : result error unit :=
  if decide (MetadataMAC m = "") then
    Err (ErrText "metadata MAC missing: metadata integrity cannot be verified")
  else
  let metaCopy :=
    if decide (PlaintextSHA256 m = "") then m <| PlaintextSHA256 := recoveredHash |> else m in
  if decide (MetadataMAC m = ComputeMetadataMAC dataKey metaCopy) then Ok tt
  else Err (ErrText "metadata MAC verification failed: metadata may have been tampered with").

(** One round of the loops of [DecryptFile] and [decryptReader]: [None] at the
    end of the input. *)
Definition dec_chunk (dataKey : bytes) (version : Z) (nonce : bytes) (chunkIndex : Z)
    (input : bytes) : result error (option (bytes * bytes)) :=
  match read_full 4 input with
  | ReadEOF => Ok None
  | ReadShort _ => Err (ErrWrap "failed to read chunk length" (ErrSentinel IoErrUnexpectedEOF))
  | ReadOk lenBuf input =>
      let chunkLen := be_Z lenBuf in
      if decide (u32 maxChunkLen < chunkLen) then
        Err (ErrText "chunk length exceeds maximum (corrupted file?)")
      else
      let open ct :=
        match aead_Open dataKey nonce ct (be_bytes 4 chunkIndex) with
        | Some p => Ok p
        | None =>
            if decide (2 ≤ version) then Err (ErrText "decryption failed")
            else match aead_Open dataKey nonce ct [] with
                 | Some p => Ok p
                 | None => Err (ErrText "decryption failed")
                 end
        end in
      match read_full (Z.to_nat chunkLen) input with
      | ReadEOF => Err (ErrWrap "failed to read ciphertext" (ErrSentinel IoEOF))
      | ReadShort _ => Err (ErrWrap "failed to read ciphertext" (ErrSentinel IoErrUnexpectedEOF))
      | ReadOk ct input => p ← open ct; Ok (Some (p, input))
      end
  end.

Fixpoint dec_loop (fuel : nat) (dataKey : bytes) (version : Z) (nonce : bytes) (chunkIndex : Z)
    (input result : bytes) : Prelude.result error bytes :=
  match fuel with
  | O => Err out_of_fuel
  | S fuel =>
      dec_chunk dataKey version nonce chunkIndex input ≫= λ r,
      match r with
      | None => Ok result
      | Some (p, input) =>
          dec_loop fuel dataKey version (incrementNonce nonce) (u32 (chunkIndex + 1)) input
            (result ++ p)
      end
  end.

(** The checks after the loop. *)
Definition dec_finish (dataKey : bytes) (m : EncryptionMetadata) (plain : bytes)
    : result error unit :=
  let recoveredHash := sha256_hex plain in
  if decide (PlaintextSHA256 m ≠ "" ∧ recoveredHash ≠ PlaintextSHA256 m) then
    Err (ErrText "integrity check failed: hash mismatch")
  else verifyMetadataMACWithRecoveredHash dataKey m recoveredHash.

(** [copy(currentNonce, metadata.Nonce)] into 24 zero bytes. *)
Definition nonce_of (m : EncryptionMetadata) : bytes := resize NonceSize x00 (Nonce m).

Definition decryptReader (input dataKey : bytes) (m : EncryptionMetadata) : result error bytes :=
  match NewX dataKey with
  | Err e => Err (ErrWrap "failed to create AEAD" e)
  | Ok _ =>
      result ← dec_loop (S (length input)) dataKey (Version m) (nonce_of m) 0 input [];
      _ ← dec_finish dataKey m result;
      Ok result
  end.

Definition DecryptBytes (ciphertext dataKey : bytes) (m : EncryptionMetadata)
    : result error bytes := decryptReader ciphertext dataKey m.

Definition DecryptToMemory (input : result error bytes) (dataKey : bytes)
    (m : EncryptionMetadata) : result error bytes :=
  match input with
  | Err e => Err (ErrWrap "failed to open input" e)
  | Ok input => decryptReader input dataKey m
  end.

(** The loop of [DecryptFile] writes each chunk as it is opened. *)
Fixpoint dec_file_loop (fuel : nat) (dataKey : bytes) (version : Z) (nonce : bytes)
    (chunkIndex : Z) (input hashed : bytes) (o : outfile) : result error bytes * outfile :=
  match fuel with
  | O => (Err out_of_fuel, o)
  | S fuel =>
      match dec_chunk dataKey version nonce chunkIndex input with
      | Err e => (Err e, o)
      | Ok None => (Ok hashed, o)
      | Ok (Some (p, input)) =>
          let '(ok, o) := out_write p o in
          if negb ok then (Err (ErrWrap "failed to write plaintext" (ErrText "write")), o)
          else dec_file_loop fuel dataKey version (incrementNonce nonce) (u32 (chunkIndex + 1))
                 input (hashed ++ p) o
      end
  end.

Definition DecryptFile (input : result error bytes) (create : option error) (space : nat)
    (dataKey : bytes) (m : EncryptionMetadata) : result error unit * bytes :=
  match NewX dataKey with
  | Err e => (Err (ErrWrap "failed to create AEAD" e), [])
  | Ok _ =>
      match input with
      | Err e => (Err (ErrWrap "failed to open input" e), [])
      | Ok input =>
          match create with
          | Some e => (Err (ErrWrap "failed to create output" e), [])
          | None =>
              match dec_file_loop (S (length input)) dataKey (Version m) (nonce_of m) 0 input []
                      (mkOut [] space) with
              | (Err e, o) => (Err e, written o)
              | (Ok plain, o) => (dec_finish dataKey m plain, written o)
              end
          end
      end
  end.

(** ** Index frames ([frame.go]); [gunzip] is [gzip.NewReader] read to the end *)

Definition frameVersionJSON : byte := x01.
Definition frameVersionGzip : byte := x02.
Definition frameVersionPadded : byte := x04.
Definition frameVersionBareJSON : byte := x7b.
Definition padHeaderBytes : nat := 5.

Definition UnframeIndexBody (gunzip : bytes → result error bytes) (framed : bytes)
    : result error bytes :=
  match framed with
  | [] => Err (ErrText "empty framed payload")
  | v :: _ =>
      framed ←
        (if decide (v = frameVersionPadded) then
           if decide (length framed < padHeaderBytes)%nat then Err (ErrText "truncated padded frame")
           else
           let innerLen := be_Z (take 4 (drop 1 framed)) in
           if decide (innerLen < 0 ∨ Z.of_nat (length framed - padHeaderBytes) < innerLen)
           then Err (ErrText "padded frame inner length out of range")
           else
           let inner := take (Z.to_nat innerLen) (drop padHeaderBytes framed) in
           if decide (length inner = 0%nat) then Err (ErrText "empty inner frame") else Ok inner
         else Ok framed);
      match framed with
      | [] => Err (ErrText "empty framed payload")
      | v :: body =>
          if decide (v = frameVersionJSON) then Ok body
          else if decide (v = frameVersionBareJSON) then Ok framed
          else if decide (v = frameVersionGzip) then gunzip body
          else Err (ErrText "unknown frame version")
      end
  end.
End crypt.

(** ** Nonces *)

(** A nonce read as a little-endian number. *)
Fixpoint le_Z (l : bytes) : Z :=
  match l with [] => 0 | b :: l' => Z_of_byte b + 256 * le_Z l' end.

Lemma le_Z_bound l : 0 ≤ le_Z l < 2 ^ (8 * Z.of_nat (length l)).
Proof.
  induction l as [|b l IH]; [simpl; lia|]. cbn [le_Z length]. pose proof (Z_of_byte_range b).
  replace (8 * Z.of_nat (S (length l))) with (8 * Z.of_nat (length l) + 8) by lia.
  rewrite Z.pow_add_r by lia. change (2 ^ 8) with 256. nia.
Qed.

Lemma length_incrementNonce n : length (incrementNonce n) = length n.
Proof. induction n as [|b n IH]; [done|]. simpl. case_decide; simpl; congruence. Qed.

Lemma incrementNonce_value n :
  le_Z (incrementNonce n) = (le_Z n + 1) mod 2 ^ (8 * Z.of_nat (length n)).
Proof.
  induction n as [|b n IH]; [done|]. cbn [incrementNonce le_Z length].
  pose proof (Z_of_byte_range b). pose proof (le_Z_bound n).
  replace (8 * Z.of_nat (S (length n))) with (8 * Z.of_nat (length n) + 8) by lia.
  rewrite Z.pow_add_r by lia. change (2 ^ 8) with 256.
  set (M := 2 ^ (8 * Z.of_nat (length n))) in *.
  pose proof (Z_of_byte_of_Z (Z_of_byte b + 1)) as Hb. case_decide as Hz.
  - rewrite Hz in *. change (Z_of_byte x00) with 0 in Hb. cbn [le_Z]. rewrite IH.
    change (Z_of_byte x00) with 0.
    assert (Z_of_byte b = 255) as -> by (Z.to_euclidean_division_equations; lia).
    replace (255 + 256 * le_Z n + 1) with ((le_Z n + 1) * 256) by lia.
    rewrite Z.mul_mod_distr_r by lia. lia.
  - cbn [le_Z]. rewrite Hb.
    assert (Z_of_byte b ≠ 255) as Hne.
    { intros E. apply Hz. apply (inj Z_of_byte). rewrite Hb, E. done. }
    rewrite (Z.mod_small (Z_of_byte b + 1)) by lia. rewrite Z.mod_small by nia. lia.
Qed.

Lemma incrementNonce_iter k n :
  length (Nat.iter k incrementNonce n) = length n ∧
  le_Z (Nat.iter k incrementNonce n) = (le_Z n + Z.of_nat k) mod 2 ^ (8 * Z.of_nat (length n)).
Proof.
  induction k as [|k [IHl IHv]].
  - split; [done|]. simpl. rewrite Z.add_0_r, Z.mod_small; [done|apply le_Z_bound].
  - change (Nat.iter (S k) incrementNonce n) with (incrementNonce (Nat.iter k incrementNonce n)).
    rewrite length_incrementNonce. split; [done|].
    rewrite incrementNonce_value, IHl, IHv, Z.add_mod_idemp_l by lia. f_equal. lia.
Qed.

(** The nonces of a file never repeat: the [i]-th and the [j]-th chunk of one
    file are sealed under the same nonce only when [i] and [j] agree modulo
    2^192. *)
Theorem nonces_distinct n i j :
  length n = NonceSize →
  Nat.iter i incrementNonce n = Nat.iter j incrementNonce n →
  (Z.of_nat i) mod 2 ^ 192 = (Z.of_nat j) mod 2 ^ 192.
Proof.
  intros Hn Heq%(f_equal le_Z). destruct (incrementNonce_iter i n) as [_ Hi].
  destruct (incrementNonce_iter j n) as [_ Hj]. rewrite Hi, Hj, Hn in Heq.
  change (8 * Z.of_nat NonceSize) with 192 in Heq.
  apply Z.cong_iff_0. apply Z.cong_iff_0 in Heq.
  replace (Z.of_nat i - Z.of_nat j) with (le_Z n + Z.of_nat i - (le_Z n + Z.of_nat j)) by lia. done.
Qed.

(** ** Decryption inverts encryption *)

Section roundtrip.
Context `{AL : !AEADLaws A, SH : Sha256, HL : !HmacLaws HM, CS : FileChunkSize}.

Lemma chunk_len_pos : (0 < chunk_len)%nat.
Proof using Type. unfold chunk_len. pose proof ChunkSize_bound. lia. Qed.
Lemma chunk_len_Z : Z.of_nat chunk_len = ChunkSize.
Proof using Type. unfold chunk_len. pose proof ChunkSize_bound. lia. Qed.

(** The bytes written for one chunk. *)
Definition record_of (key nonce : bytes) (idx : Z) (chunk : bytes) : bytes :=
  let ct := aead_Seal key nonce chunk (be_bytes 4 (u32 idx)) in
  be_bytes 4 (u32 (Z.of_nat (length ct))) ++ ct.

Lemma length_record_of key nonce idx chunk :
  length (record_of key nonce idx chunk) = (20 + length chunk)%nat.
Proof using AL.
  unfold record_of. rewrite length_app, length_be_bytes, aead_Seal_length.
  unfold Overhead. lia.
Qed.

Lemma u32_wrap64_succ z : u32 (wrap64 (z + 1)) = u32 (u32 z + 1).
Proof using Type. unfold u32, wrap64. Z.to_euclidean_division_equations. lia. Qed.

(** Decryption reads back one chunk. *)
Lemma dec_chunk_record key version nonce idx chunk rest :
  (length chunk ≤ chunk_len)%nat →
  dec_chunk key version nonce (u32 idx) (record_of key nonce idx chunk ++ rest)
  = Ok (Some (chunk, rest)).
Proof using AL.
  intros Hl. unfold dec_chunk, record_of. rewrite <- app_assoc.
  rewrite read_full_app by apply length_be_bytes. cbv zeta.
  pose proof chunk_len_Z. pose proof ChunkSize_bound.
  set (ct := aead_Seal key nonce chunk (be_bytes 4 (u32 idx))).
  assert (length ct = (length chunk + Overhead)%nat) as Hct by apply aead_Seal_length.
  rewrite be_Z_be_bytes_id by (rewrite u32_id by lia; lia).
  rewrite (u32_id (Z.of_nat _)) by lia. unfold maxChunkLen. rewrite u32_id by lia.
  rewrite decide_False by lia. rewrite Nat2Z.id, read_full_app by done.
  unfold ct. by rewrite aead_Open_Seal.
Qed.

Lemma enc_chunk_Ok key chunk st st' :
  enc_chunk key chunk st = (Ok tt, st') →
  written (output st') = written (output st) ++ record_of key (currentNonce st) (chunks st) chunk ∧
  hashed st' = hashed st ++ chunk ∧ currentNonce st' = incrementNonce (currentNonce st) ∧
  chunks st' = wrap64 (chunks st + 1) ∧
  totalSize st' = wrap64 (totalSize st + Z.of_nat (length chunk)).
Proof using Type.
  unfold enc_chunk, out_write, record_of. intros H.
  repeat (case_decide; simpl in H; try discriminate H).
  injection H as <-. simpl. by rewrite <- app_assoc.
Qed.

Lemma enc_chunk_room key chunk st :
  (20 + length chunk ≤ room (output st))%nat →
  ∃ st', enc_chunk key chunk st = (Ok tt, st') ∧
    room (output st') = (room (output st) - (20 + length chunk))%nat.
Proof using AL.
  intros Hr. unfold enc_chunk, out_write. rewrite length_be_bytes, decide_True by lia.
  cbn [negb room written output].
  pose proof (aead_Seal_length key (currentNonce st) chunk (be_bytes 4 (u32 (chunks st)))) as Hl.
  unfold Overhead in Hl. rewrite decide_True by lia. cbn [negb].
  eexists. split; [reflexivity|]. cbn [room output]. lia.
Qed.

Lemma wrap64_add a b c : wrap64 (wrap64 (a + b) + c) = wrap64 (a + (b + c)).
Proof using Type. unfold wrap64. Z.to_euclidean_division_equations. lia. Qed.

(** A finished encryption loop: what it wrote decrypts to what it read. *)
Lemma enc_loop_dec key version fuel : ∀ input st st',
  enc_loop fuel key input st = (Ok tt, st') →
  read_error input = None ∧ hashed st' = hashed st ++ remaining input ∧
  (int64_ok (totalSize st) →
   totalSize st' = wrap64 (totalSize st + Z.of_nat (length (remaining input)))) ∧
  ∃ out, written (output st') = written (output st) ++ out ∧
    ∀ fuel2 acc, (length out < fuel2)%nat →
      dec_loop fuel2 key version (currentNonce st) (u32 (chunks st)) out acc
      = Ok (acc ++ remaining input).
Proof using AL.
  pose proof chunk_len_pos as Hpos.
  induction fuel as [|fuel IH]; intros [r e] st st'; [done|]. cbn [enc_loop remaining read_error].
  case_bool_decide as Hfull.
  - rewrite length_take_le by lia. rewrite decide_True by lia.
    destruct (enc_chunk key (take chunk_len r) st) as [[[]|] st1] eqn:E; [|done].
    apply enc_chunk_Ok in E as (Hw & Hh & Hn & Hc & Ht).
    intros Hl. apply IH in Hl as (He & Hh' & Ht' & out & Hw' & Hd). simpl in *.
    split; [done|]. split; [by rewrite Hh', Hh, <- app_assoc, take_drop|].
    split.
    { intros _. rewrite Ht', Ht, wrap64_add by (rewrite Ht; apply wrap64_ok).
      rewrite length_take_le, length_drop by lia. f_equal. lia. }
    exists (record_of key (currentNonce st) (chunks st) (take chunk_len r) ++ out).
    split; [by rewrite Hw', Hw, <- app_assoc|]. intros fuel2 acc Hf.
    rewrite length_app, length_record_of in Hf. destruct fuel2 as [|fuel2]; [lia|].
    cbn [dec_loop]. rewrite dec_chunk_record by (rewrite length_take; lia). rewrite bind_Ok.
    rewrite <- Hn, <- u32_wrap64_succ, <- Hc, Hd by lia. by rewrite <- app_assoc, take_drop.
  - case_decide as Hne.
    + destruct (enc_chunk key r st) as [[[]|] st1] eqn:E; [|done].
      apply enc_chunk_Ok in E as (Hw & Hh & Hn & Hc & Ht).
      destruct e as [e|]; [done|]. intros [= <-]. split; [done|]. split; [done|].
      split; [intros _; exact Ht|].
      exists (record_of key (currentNonce st) (chunks st) r). split; [done|].
      intros fuel2 acc Hf. rewrite length_record_of in Hf.
      destruct fuel2 as [|[|fuel2]]; [lia..|]. cbn [dec_loop].
      rewrite <- (app_nil_r (record_of _ _ _ _)), dec_chunk_record by lia. rewrite bind_Ok.
      reflexivity.
    + destruct e as [e|]; [done|]. intros [= <-]. destruct r; [|simpl in *; lia].
      split; [done|]. split; [by rewrite app_nil_r|].
      split; [intros; rewrite Z.add_0_r; by rewrite wrap64_id|].
      exists []. split; [by rewrite app_nil_r|]. intros [|fuel2] acc Hf; [simpl in *; lia|].
      simpl. by rewrite app_nil_r.
Qed.

Lemma enc_loop_room key fuel : ∀ input st,
  read_error input = None → (length (remaining input) < fuel)%nat →
  (21 * length (remaining input) ≤ room (output st))%nat →
  ∃ st', enc_loop fuel key input st = (Ok tt, st').
Proof using AL.
  pose proof chunk_len_pos as Hpos.
  induction fuel as [|fuel IH]; intros [r e] st; simpl; [lia|]. intros -> Hf Hr.
  case_bool_decide as Hfull.
  - rewrite length_take_le by lia. rewrite decide_True by lia.
    destruct (enc_chunk_room key (take chunk_len r) st) as (st1 & -> & Hr1);
      [rewrite length_take_le by lia; lia|].
    apply IH; [done|simpl; rewrite length_drop; lia|].
    simpl. rewrite length_drop, Hr1, length_take_le by lia. lia.
  - case_decide; [|eauto]. destruct (enc_chunk_room key r st) as (st1 & -> & _); [lia|]. eauto.
Qed.

Lemma hex_encode_nonempty l : (0 < length l)%nat → hex_encode l ≠ "".
Proof using Type. destruct l; simpl; [lia|done]. Qed.

Lemma MAC_nonempty key m : ComputeMetadataMAC key m ≠ "".
Proof using HL. apply hex_encode_nonempty. rewrite hmac_length. lia. Qed.

(** The MAC does not depend on the field it is stored in. *)
Lemma MAC_field key m mac : ComputeMetadataMAC key (m <| MetadataMAC := mac |>) = ComputeMetadataMAC key m.
Proof using Type. done. Qed.

(** What [EncryptFile] returns on success. *)
Lemma EncryptFile_Ok input create space key nonce m out :
  EncryptFile input create space key nonce = (Ok m, out) →
  ∃ r st, length key = KeySize ∧ input = Ok r ∧ create = None ∧
    enc_loop (S (length (remaining r))) key r (mkEnc nonce 0 0 [] (mkOut [] space)) = (Ok tt, st) ∧
    out = written (output st) ∧
    let meta := mkEncryptionMetadata 2 nonce ChunkSize (chunks st)
                  (sha256_hex (remaining r)) (totalSize st) "" in
    m = meta <| MetadataMAC := ComputeMetadataMAC key meta |>.
Proof using AL.
  unfold EncryptFile, NewX. case_decide; [|done]. destruct input as [r|]; [|done].
  destruct create; [done|]. destruct (enc_loop _ _ _ _) as [[[]|] st] eqn:E; [|done].
  intros [= <- <-]. exists r, st. split_and!; try done.
  apply (enc_loop_dec key 2) in E as (_ & Hh & _). simpl in Hh. by rewrite Hh.
Qed.

Lemma dec_finish_Ok key m plain :
  MetadataMAC m ≠ "" → (PlaintextSHA256 m = "" ∨ PlaintextSHA256 m = sha256_hex plain) →
  MetadataMAC m = ComputeMetadataMAC key (m <| PlaintextSHA256 := sha256_hex plain |>) →
  dec_finish key m plain = Ok tt.
Proof using Type.
  intros Hne Hsha Hmac. unfold dec_finish, verifyMetadataMACWithRecoveredHash.
  rewrite decide_False by naive_solver. rewrite decide_False by done.
  destruct (decide (PlaintextSHA256 m = "")) as [E|E]; [by rewrite decide_True|]. destruct Hsha as [|Hsha]; [done|].
  rewrite decide_True; [done|]. rewrite Hmac, <- Hsha. by destruct m.
Qed.

(** Whatever [EncryptFile] made from, its output opens to. *)
Lemma EncryptFile_decrypts input create space key nonce m out :
  length key = KeySize → length nonce = NonceSize →
  EncryptFile input create space key nonce = (Ok m, out) →
  ∃ r, input = Ok r ∧ read_error r = None ∧ decryptReader out key (WireJSON m) = Ok (remaining r) ∧
    decryptReader out key m = Ok (remaining r) ∧
    PlaintextSize m = wrap64 (Z.of_nat (length (remaining r))) ∧ PlaintextSHA256 m = sha256_hex (remaining r).
Proof using AL HL.
  intros Hk Hn (r & st & _ & -> & _ & Hl & -> & ->)%EncryptFile_Ok. exists r. split; [done|].
  pose proof Hl as Hl2. apply (enc_loop_dec key 2) in Hl as (He & _ & Htot & out & Hw & Hd).
  split; [exact He|]. cbn [written output app] in Hw.
  assert (∀ m, Version m = 2 → Nonce m = nonce → MetadataMAC m ≠ "" →
    (PlaintextSHA256 m = "" ∨ PlaintextSHA256 m = sha256_hex (remaining r)) →
    MetadataMAC m = ComputeMetadataMAC key (m <| PlaintextSHA256 := sha256_hex (remaining r) |>) →
    decryptReader (written (output st)) key m = Ok (remaining r)) as Hdec.
  { intros m Hv Hno ???. unfold decryptReader, NewX. rewrite decide_True by done.
    unfold nonce_of. rewrite Hno, Hv, resize_all_alt, Hw by done.
    change (u32 (chunks _)) with 0 in Hd. cbn [currentNonce] in Hd.
    rewrite Hd by lia. cbn [app remaining]. rewrite bind_Ok, dec_finish_Ok by done. done. }
  split; [|split].
  - apply Hdec; try done; [apply MAC_nonempty|by left].
  - apply Hdec; try done; [apply MAC_nonempty|by right].
  - split; [|done]. cbn [PlaintextSize]. simpl. rewrite Htot; [done|].
    unfold int64_ok. simpl. lia.
Qed.

(** The output never exceeds the room it is given. *)
Definition out_end (o : outfile) : nat := (length (written o) + room o)%nat.
Lemma out_write_end q o : (out_end (out_write q o).2 ≤ out_end o)%nat.
Proof using Type.
  unfold out_write, out_end. case_decide; cbn [snd written room]; rewrite ?length_app, ?length_take; lia.
Qed.

Lemma enc_chunk_end key chunk st : (out_end (output (enc_chunk key chunk st).2) ≤ out_end (output st))%nat.
Proof using Type.
  unfold enc_chunk. set (lb := be_bytes 4 _). set (ct := aead_Seal _ _ _ _).
  pose proof (out_write_end lb (output st)) as H1. destruct (out_write lb (output st)) as [ok1 o1].
  pose proof (out_write_end ct o1) as H2. destruct (out_write ct o1) as [ok2 o2]. cbn [snd] in *.
  destruct ok1; [destruct ok2|]; cbn [negb snd output]; lia.
Qed.

Lemma enc_loop_end key fuel : ∀ input st, (out_end (output (enc_loop fuel key input st).2) ≤ out_end (output st))%nat.
Proof using Type.
  induction fuel as [|fuel IH]; intros input st; cbn [enc_loop]; [done|]. cbv zeta.
  match goal with |- context [enc_chunk key ?buf st] => pose proof (enc_chunk_end key buf st) as Hc;
    destruct (decide (0 < length buf)%nat); [destruct (enc_chunk key buf st) as [[u|e] st1]|] end; cbn [snd] in *.
  - match goal with |- context [enc_loop fuel key ?i st1] => pose proof (IH i st1) as Hi end.
    case_bool_decide; [lia|]. by destruct (read_error input).
  - done.
  - match goal with |- context [enc_loop fuel key ?i st] => pose proof (IH i st) as Hi end.
    case_bool_decide; [lia|]. by destruct (read_error input).
Qed.

Lemma EncryptFile_fits input create space key nonce : (length (EncryptFile input create space key nonce).2 ≤ space)%nat.
Proof using Type.
  unfold EncryptFile. destruct (NewX key); [|simpl; lia]. destruct input as [input|]; [|simpl; lia].
  destruct create; [simpl; lia|].
  pose proof (enc_loop_end key (S (length (remaining input))) input (mkEnc nonce 0 0 [] (mkOut [] space))) as H.
  destruct (enc_loop _ _ _ _) as [[u|e] st]; unfold out_end in H; cbn [snd output written room length] in *; lia.
Qed.

(** C7: An encrypted file decrypts to the plaintext it was made from.  With a
    32-byte key, a 24-byte nonce, a readable input and enough room, [EncryptFile]
    succeeds; whenever it succeeds, the metadata that go on the wire (without
    the plaintext hash) decrypt its output to exactly the bytes read, with
    [decryptReader], and their size is recorded modulo 2^64. *)
Theorem decrypt_EncryptFile data space key nonce :
  length key = KeySize → length nonce = NonceSize →
  ((21 * length data ≤ space)%nat →
   is_ok (EncryptFile (Ok (mkSource data None)) None space key nonce).1 = true) ∧
  ∀ m out, EncryptFile (Ok (mkSource data None)) None space key nonce = (Ok m, out) →
    decryptReader out key (WireJSON m) = Ok data ∧ decryptReader out key m = Ok data ∧
    PlaintextSize m = wrap64 (Z.of_nat (length data)) ∧ PlaintextSHA256 m = sha256_hex data.
Proof using AL HL.
  intros Hk Hn. split.
  - intros Hroom. unfold EncryptFile, NewX. rewrite decide_True by done.
    destruct (enc_loop_room key (S (length data)) (mkSource data None)
      (mkEnc nonce 0 0 [] (mkOut [] space))) as [st Hst]; simpl; [done|lia|lia|].
    simpl in Hst. by rewrite Hst.
  - by intros m out (r & [= <-] & _ & H)%EncryptFile_decrypts.
Qed.

(** ** The two decryption paths agree *)

Lemma dec_file_loop_spec key version fuel : ∀ nonce idx input h o,
  written o = h →
  match dec_file_loop fuel key version nonce idx input h o with
  | (Ok plain, o') => dec_loop fuel key version nonce idx input h = Ok plain ∧ written o' = plain ∧
      (length plain + room o' = length h + room o)%nat
  | (Err _, _) => ∀ plain, dec_loop fuel key version nonce idx input h = Ok plain →
      (length h + room o < length plain)%nat
  end.
Proof using Type.
  induction fuel as [|fuel IH]; intros nonce idx input h o Ho; [done|].
  cbn [dec_file_loop dec_loop]. destruct (dec_chunk _ _ _ _ _) as [[[p rest]|]|err]; [| |done].
  - rewrite bind_Ok. unfold out_write. case_decide as Hr; simpl.
    + specialize (IH (incrementNonce nonce) (u32 (idx + 1)) rest (h ++ p)
        (mkOut (written o ++ p) (room o - length p))).
      destruct (dec_file_loop _ _ _ _ _ _ _ _) as [[plain|err] o'].
      * destruct IH as (? & ? & IH); [by rewrite Ho|]. split_and!; try done.
        rewrite length_app in IH. simpl in IH. lia.
      * intros plain Hd. specialize (IH ltac:(by rewrite Ho) plain Hd).
        rewrite length_app in IH. simpl in IH. lia.
    + intros plain Hd.
      assert (∀ f n i r acc q, dec_loop f key version n i r acc = Ok q → length acc ≤ length q)%nat
        as Hmono.
      { clear. induction f as [|f IH]; intros n i r acc q; [done|]. cbn [dec_loop].
        intros ([[p r']|] & _ & Hq)%bind_Ok_inv; [|by injection Hq as <-].
        apply IH in Hq. rewrite length_app in Hq. lia. }
      apply Hmono in Hd. rewrite length_app in Hd. lia.
  - rewrite bind_Ok. done.
Qed.

(** [DecryptFile] and [decryptReader] accept the same files and yield the
    same plaintext: decrypting to a file succeeds, with [out] in it, exactly
    when decrypting to memory yields [out] and the disk has room for it. *)
Theorem DecryptFile_decryptReader input space key m out :
  DecryptFile (Ok input) None space key m = (Ok tt, out) ↔
  decryptReader input key m = Ok out ∧ (length out ≤ space)%nat.
Proof using Type.
  unfold DecryptFile, decryptReader. destruct (NewX key); [|naive_solver].
  pose proof (dec_file_loop_spec key (Version m) (S (length input)) (nonce_of m) 0 input []
    (mkOut [] space) eq_refl) as Hl. simpl room in Hl.
  destruct (dec_file_loop _ _ _ _ _ _ _ _) as [[plain|err] o'].
  - destruct Hl as (-> & Hw & Hr). rewrite bind_Ok, Hw. simpl in Hr.
    destruct (dec_finish key m plain) as [[]|]; simpl; [|naive_solver].
    split; [intros [= <-]; split; [done|lia]|]. by intros [[= ->] _].
  - split; [done|]. intros [(plain & Hd & (u & _ & Hp)%bind_Ok_inv)%bind_Ok_inv Hle].
    injection Hp as ->. apply Hl in Hd. simpl in Hd. lia.
Qed.
End roundtrip.

(** ** The metadata MAC binds every field *)

Section binding.
Context `{AL : !AEADLaws A, SL : !Sha256Laws SH, HL : !HmacLaws HM, CS : FileChunkSize}.

(** The fields the line determines, for hashes of equal length. *)
Lemma canonical_inj m1 m2 :
  String.length (PlaintextSHA256 m1) = String.length (PlaintextSHA256 m2) →
  canonical m1 = canonical m2 →
  Version m1 = Version m2 ∧ Nonce m1 = Nonce m2 ∧ MetaChunkSize m1 = MetaChunkSize m2 ∧
  Chunks m1 = Chunks m2 ∧ PlaintextSHA256 m1 = PlaintextSHA256 m2 ∧
  PlaintextSize m1 = PlaintextSize m2.
Proof using Type.
  intros Hl H. unfold canonical in H. injection H as H.
  apply append_sep_inj in H as [->%(inj _) H]; [|apply fmt_d_no_comma..]. injection H as H.
  apply append_sep_inj in H as [->%(inj _) H]; [|apply base64_no_quote..]. injection H as H.
  apply append_sep_inj in H as [->%(inj _) H]; [|apply fmt_d_no_comma..].
  apply append_sep_inj in H as [->%(inj _) H]; [|apply fmt_d_no_comma..]. injection H as H.
  apply append_inj_length in H as [-> H]; [|done]. injection H as H.
  split_and!; try done. apply (inj fmt_d).
  apply (append_sep_inj "]"%char _ _ "" "") in H as [-> _]; [done|apply fmt_d_no_bracket..].
Qed.

Lemma list_byte_of_string_inj s1 s2 :
  String.list_byte_of_string s1 = String.list_byte_of_string s2 → s1 = s2.
Proof using Type.
  intros H%(f_equal String.string_of_list_byte).
  by rewrite !String.string_of_list_byte_of_string in H.
Qed.

(** What the MAC of the metadata is computed over. *)
Definition mac_input (m : EncryptionMetadata) : bytes := String.list_byte_of_string (canonical m).

Lemma mac_input_inj m1 m2 :
  String.length (PlaintextSHA256 m1) = String.length (PlaintextSHA256 m2) → mac_input m1 = mac_input m2 →
  Version m1 = Version m2 ∧ Nonce m1 = Nonce m2 ∧ MetaChunkSize m1 = MetaChunkSize m2 ∧
  Chunks m1 = Chunks m2 ∧ PlaintextSHA256 m1 = PlaintextSHA256 m2 ∧ PlaintextSize m1 = PlaintextSize m2.
Proof using Type. intros Hl H%list_byte_of_string_inj. by apply canonical_inj. Qed.

Lemma decryptReader_Ok input key m plain :
  decryptReader input key m = Ok plain →
  dec_loop (S (length input)) key (Version m) (nonce_of m) 0 input [] = Ok plain ∧
  MetadataMAC m = ComputeMetadataMAC key (m <| PlaintextSHA256 := sha256_hex plain |>).
Proof using Type.
  unfold decryptReader. destruct (NewX key); [|done].
  intros (p & Hd & (u & Hf & [= ->])%bind_Ok_inv)%bind_Ok_inv. split; [done|].
  unfold dec_finish, verifyMetadataMACWithRecoveredHash in Hf.
  case_decide as Hsha; [done|]. case_decide; [done|].
  destruct (decide (PlaintextSHA256 m = "")) as [E|E].
  - by case_decide.
  - case_decide as HM'; [|done]. rewrite HM'.
    assert (sha256_hex plain = PlaintextSHA256 m) as -> by
      (destruct (decide (sha256_hex plain = PlaintextSHA256 m)); naive_solver).
    by destruct m.
Qed.

(** C6: Tampering is detected.  Take the metadata of an encryption of [data], and
    any ciphertext and any metadata that carry the same MAC.  If they decrypt
    under the same key, the MAC of the data key is the same for what the
    encryption authenticated and for the line made of the metadata at hand and of
    the hash of what was decrypted.  Unless these two given lines differ, which
    makes them a forgery of HMAC-SHA256 under a key nobody else has, every
    authenticated field is the original one and the plaintext has the hash of
    [data]. *)
Theorem decrypt_authentic data space key nonce m out input' m' plain :
  EncryptFile (Ok (mkSource data None)) None space key nonce = (Ok m, out) →
  MetadataMAC m' = MetadataMAC m →
  decryptReader input' key m' = Ok plain →
  let made := mac_input m in
  let found := mac_input (m' <| PlaintextSHA256 := sha256_hex plain |>) in
  hmac_sha256 key found = hmac_sha256 key made ∧
  (found ≠ made ∨
   sha256_hex plain = sha256_hex data ∧ Version m' = Version m ∧ Nonce m' = Nonce m ∧
   MetaChunkSize m' = MetaChunkSize m ∧ Chunks m' = Chunks m ∧ PlaintextSize m' = PlaintextSize m).
Proof using AL SL.
  intros (r & st & _ & [= <-] & _ & _ & _ & ->)%EncryptFile_Ok Hmac [_ Hm]%decryptReader_Ok. cbv zeta.
  rewrite Hmac in Hm. symmetry in Hm. split; [by apply (inj hex_encode) in Hm|].
  match goal with |- ?f ≠ ?g ∨ _ => destruct (decide (f = g)) as [E|]; [right|by left] end.
  apply mac_input_inj in E as (? & ? & ? & ? & ? & ?); [done|]. simpl. by rewrite !sha256_hex_length.
Qed.
End binding.

(** ** Concrete files: chunks of four bytes *)

Definition ex_file_chunk : FileChunkSize.
Proof. refine {| ChunkSize := 4 |}. by vm_compute. Defined.
#[local] Existing Instance ex_file_chunk | 0.

Definition ex_dkey : bytes := replicate 32 x11.
Definition ex_fnonce : bytes := xff :: replicate 23 x00.
Definition ex_plain : bytes := [x61; x62; x63; x64; x65; x66].
Definition ex_enc : EncryptionMetadata * bytes :=
  match EncryptFile (Ok (mkSource ex_plain None)) None 200 ex_dkey ex_fnonce with
  | (Ok m, out) => (m, out)
  | (Err _, out) => (mkEncryptionMetadata 0 [] 0 0 "" 0 "", out)
  end.

Lemma decrypt_EncryptFile_witness :
  decryptReader ex_enc.2 ex_dkey (WireJSON ex_enc.1) = Ok ex_plain ∧
  PlaintextSize ex_enc.1 = 6 ∧ Chunks ex_enc.1 = 2 ∧ length ex_enc.2 = 46%nat.
Proof.
  destruct (decrypt_EncryptFile ex_plain 200 ex_dkey ex_fnonce eq_refl eq_refl) as [_ H].
  destruct (H ex_enc.1 ex_enc.2) as (H1 & _); [vm_compute; reflexivity|].
  split; [exact H1|]. vm_compute. repeat split; reflexivity.
Defined.

Lemma nonces_distinct_witness :
  incrementNonce ex_fnonce = x00 :: x01 :: replicate 22 x00 ∧
  (Nat.iter 3 incrementNonce ex_fnonce = Nat.iter 3 incrementNonce ex_fnonce →
   Z.of_nat 3 mod 2 ^ 192 = Z.of_nat 3 mod 2 ^ 192).
Proof. split; [vm_compute; reflexivity|]. exact (nonces_distinct ex_fnonce 3 3 eq_refl). Defined.

Lemma decrypt_authentic_witness :
  sha256_hex ex_plain = sha256_hex ex_plain ∧ Chunks (WireJSON ex_enc.1) = Chunks ex_enc.1.
Proof.
  destruct (decrypt_authentic ex_plain 200 ex_dkey ex_fnonce ex_enc.1 ex_enc.2 ex_enc.2
    (WireJSON ex_enc.1) ex_plain) as [_ [H|(H & _ & _ & _ & Hc & _)]].
  - vm_compute. reflexivity.
  - vm_compute. reflexivity.
  - vm_compute. reflexivity.
  - exfalso. apply H. vm_compute. reflexivity.
  - exact (conj H Hc).
Defined.
