(* ===== verification/Names.v ===== *)
(** * Names and path tokens

    [internal/crypto/names.go]: the padding of sealed display names, the path
    normalisation behind the search tokens, and the list of paths a remote path
    needs tokens for.  The Unicode tables ([norm.NFC], [cases.Lower],
    [strings.ToLower]) and [json.Marshal] of a map are parameters. *)
From S2P Require Import Prelude GoLib ApiErrors Crypto Hybrid.
Local Open Scope Z_scope.

Class Unicode : Type := {
  norm_NFC : string → string;
  cases_Lower : string → string;
  strings_ToLower : string → string }.

Definition NameKeySize : nat := 32.
Definition nameKeyContext : bytes := String.list_byte_of_string "pigcloud-e2ee-name-key-v2".

(** ** Path normalisation *)

(** [strings.Contains(s, "//")] and [strings.ReplaceAll(s, "//", "/")]: pairs of
    slashes, found from the left without overlap. *)
Fixpoint contains_slashes (s : string) : bool :=
  match s with
  | String.String a (String.String b _ as s') =>
      (bool_decide (a = slash) && bool_decide (b = slash)) || contains_slashes s'
  | _ => false
  end.
Fixpoint replace_slashes (s : string) : string :=
  match s with
  | String.String a s' =>
      match s' with
      | String.String b s'' =>
          if decide (a = slash ∧ b = slash) then String.String slash (replace_slashes s'')
          else String.String a (replace_slashes s')
      | _ => s
      end
  | _ => s
  end.

(** [for strings.Contains(path, "//")]: each round shortens the path. *)
Fixpoint collapse_slashes (fuel : nat) (s : string) : string :=
  match fuel with
  | O => s
  | S fuel => if contains_slashes s then collapse_slashes fuel (replace_slashes s) else s
  end.

(** The path before Unicode normalisation. *)
Definition path_shape (p : string) : string :=
  let p := replace_all backslash slash p in
  let p := trim slash p in
  collapse_slashes (String.length p) p.

(** ** Display-name padding *)

Definition displayNamePadBuckets : list nat := [64; 128; 256; 512; 888]%nat.
Definition displayNamePadMarker : byte := xff.
Definition displayNamePadVersion : byte := x01.
Definition displayNamePadHeader : nat := 4.

(** The first bucket that holds [total], 0 for none. *)
Fixpoint pad_bucket (buckets : list nat) (total : nat) : nat :=
  match buckets with
  | [] => 0%nat
  | b :: rest => if decide (total ≤ b)%nat then b else pad_bucket rest total
  end.

Definition pad_into (bucket : nat) (name : bytes) : bytes :=
  let n := Z.of_nat (length name) in
  displayNamePadMarker :: displayNamePadVersion :: byte_of_Z (Z.shiftr n 8) :: byte_of_Z n ::
  name ++ replicate (bucket - displayNamePadHeader - length name) x00.

Definition padDisplayName (name : bytes) : bytes :=
  let total := (displayNamePadHeader + length name)%nat in
  let bucket := pad_bucket displayNamePadBuckets total in
  if decide (bucket = 0%nat) then
    if decide (head name ≠ Some displayNamePadMarker) then name else pad_into total name
  else pad_into bucket name.

Definition unpadDisplayName (plain : bytes) : result error bytes :=
  match plain with
  | m :: v :: hi :: lo :: body =>
      if decide (m ≠ displayNamePadMarker) then Ok plain
      else if decide (v ≠ displayNamePadVersion) then
        Err (ErrText "unknown display-name pad version")
      else
        let n := Z.lor (Z.shiftl (Z_of_byte hi) 8) (Z_of_byte lo) in
        if decide (Z.of_nat (length plain) < Z.of_nat displayNamePadHeader + n) then
          Err (ErrText "display-name pad length out of bounds")
        else Ok (take (Z.to_nat n) body)
  | _ => Ok plain
  end.

(** ** Path tokens *)

Inductive PathTokenDepth : Type :=
| PathTokenSelfOnly | PathTokenSelfAndParent | PathTokenSelfAndAncestors.

(** The loop over [path.Dir]; the paths are collected in order. *)
Fixpoint ancestor_loop (fuel : nat) (parent_only : bool) (parent : string) : list string :=
  match fuel with
  | O => []
  | S fuel =>
      if decide (parent ≠ "." ∧ parent ≠ "" ∧ parent ≠ "/") then
        parent :: (if parent_only then [] else ancestor_loop fuel parent_only (path_Dir parent))
      else []
  end.

Definition PathTokenPaths (remotePath : string) (depth : PathTokenDepth) : list string :=
  let trimmed := trim_left slash (replace_all backslash slash remotePath) in
  if decide (trimmed = "") then [] else
  match depth with
  | PathTokenSelfOnly => [trimmed]
  | PathTokenSelfAndParent =>
      trimmed :: ancestor_loop (S (String.length trimmed)) true (path_Dir trimmed)
  | PathTokenSelfAndAncestors =>
      trimmed :: ancestor_loop (S (String.length trimmed)) false (path_Dir trimmed)
  end.

Section tokens.
Context `{U : Unicode, BL : Blake2b, A : AEAD, X : X25519, K : MLKEM, HK : Hkdf}.

Definition normalizePathShape (p : string) : string := norm_NFC (path_shape p).
Definition normalizeLower (p : string) : string := cases_Lower (normalizePathShape p).
Definition normalizeLowerSimple (p : string) : string := strings_ToLower (normalizePathShape p).

Definition DeriveNameKey (priv : PrivateKeySet) : result error bytes :=
  blake2b_New256 nameKeyContext (sk_X25519 priv ++ sk_Kyber priv).

Definition pathTokenOver (nameKey : bytes) (normalized : string) : result error bytes :=
  blake2b_New256 nameKey (String.list_byte_of_string normalized).
Definition ComputePathToken (nameKey : bytes) (canonicalPath : string) : result error bytes :=
  pathTokenOver nameKey (normalizeLower canonicalPath).
Definition ComputePathTokenLegacy (nameKey : bytes) (canonicalPath : string) : result error bytes :=
  pathTokenOver nameKey (normalizeLowerSimple canonicalPath).
Definition PathTokenNeedsLegacy (canonicalPath : string) : bool :=
  bool_decide (normalizeLower canonicalPath ≠ normalizeLowerSimple canonicalPath).

(** The two token maps; a path whose token fails is left out. *)
Fixpoint token_maps (nameKey : bytes) (paths : list string) (canonical legacy : gmap string string)
    : gmap string string * gmap string string :=
  match paths with
  | [] => (canonical, legacy)
  | p :: rest =>
      if decide (p = "") then token_maps nameKey rest canonical legacy else
      match ComputePathToken nameKey p with
      | Err _ => token_maps nameKey rest canonical legacy
      | Ok token =>
          let canonical := <[p := hex_encode token]> canonical in
          let legacy :=
            if PathTokenNeedsLegacy p then
              match ComputePathTokenLegacy nameKey p with
              | Ok t => <[p := hex_encode t]> legacy
              | Err _ => legacy
              end
            else legacy in
          token_maps nameKey rest canonical legacy
      end
  end.

(** A path of the list whose token can be computed is in the first map. *)
Lemma token_maps_lookup nk p token : ∀ paths c l, p ≠ "" → ComputePathToken nk p = Ok token →
  p ∈ paths ∨ c !! p = Some (hex_encode token) → (token_maps nk paths c l).1 !! p = Some (hex_encode token).
Proof using Type.
  induction paths as [|q paths IH]; intros c l Hp Ht Hin; cbn [token_maps].
  { destruct Hin as [Hin|]; [by apply elem_of_nil in Hin|done]. }
  rewrite elem_of_cons in Hin. case_decide; [apply IH; [done|done|naive_solver]|].
  destruct (ComputePathToken nk q) as [t|e] eqn:Hq; [|apply IH; [done|done|naive_solver congruence]].
  cbv zeta. apply IH; [done|done|]. destruct (decide (p = q)) as [->|Hne].
  - right. rewrite lookup_insert_eq. congruence.
  - rewrite lookup_insert_ne by congruence. naive_solver.
Qed.

Variable json_marshal : gmap string string → option string.

Definition marshalHexTokenMap (tokens : gmap string string) : string :=
  if decide (tokens = ∅) then "" else default "" (json_marshal tokens).

Definition PathTokenOptionJSON (nameKey : bytes) (paths : list string) : string * string :=
  if decide (length nameKey = 0%nat ∨ length paths = 0%nat) then ("", "") else
  let '(canonical, legacy) := token_maps nameKey paths ∅ ∅ in
  (marshalHexTokenMap canonical, marshalHexTokenMap legacy).

Definition AddPathTokenOptions (options : gmap string string) (nameKey : bytes)
    (paths : list string) : gmap string string :=
  let '(canonical, legacy) := PathTokenOptionJSON nameKey paths in
  let options := if decide (canonical ≠ "") then <["path_tokens" := canonical]> options else options in
  if decide (legacy ≠ "") then <["path_tokens_legacy" := legacy]> options else options.

(** ** Sealed names *)

Definition SealDisplayName (name : bytes) (recipient : option PublicKeySet)
    (ephPriv kemRand nonce : bytes) : result error bytes :=
  HybridSeal (padDisplayName name) recipient ephPriv kemRand nonce.
Definition UnsealDisplayName (sealed : bytes) (priv : option PrivateKeySet) : result error bytes :=
  plaintext ← HybridUnseal sealed priv; unpadDisplayName plaintext.
End tokens.

Definition DecodeHexKey (hexStr : string) (size : nat) : option bytes :=
  if decide (hexStr = "") then None else
  match hex_decode hexStr with
  | Some b => if decide (length b = size) then Some b else None
  | None => None
  end.

(** ** Padding round trip *)

Lemma length_pad_into bucket name :
  (displayNamePadHeader + length name ≤ bucket)%nat → length (pad_into bucket name) = bucket.
Proof.
  intros. unfold pad_into, displayNamePadHeader in *. simpl.
  rewrite length_app, length_replicate. lia.
Qed.

Lemma lor_shiftl_byte h l : 0 ≤ h → 0 ≤ l < 2 ^ 8 → Z.lor (Z.shiftl h 8) l = h * 2 ^ 8 + l.
Proof.
  intros Hh Hl. rewrite <- (Z.shiftl_mul_pow2 h 8) by lia. rewrite <- Z.add_lor_land.
  enough (Z.land (Z.shiftl h 8) l = 0) by lia.
  apply Z.bits_inj_iff'. intros k Hk. rewrite Z.land_spec, Z.testbit_0_l.
  destruct (decide (k < 8)).
  - by rewrite Z.shiftl_spec_low.
  - rewrite <- (Z.mod_small l (2 ^ 8)) by lia. rewrite Z.mod_pow2_bits_high by lia.
    apply andb_false_r.
Qed.

Lemma pad_length_field n :
  0 ≤ n < 65536 →
  Z.lor (Z.shiftl (Z_of_byte (byte_of_Z (Z.shiftr n 8))) 8) (Z_of_byte (byte_of_Z n)) = n.
Proof.
  intros. rewrite !Z_of_byte_of_Z, Z.shiftr_div_pow2 by lia. change (2 ^ 8) with 256.
  pose proof (Z.mod_pos_bound (n / 256) 256 eq_refl). pose proof (Z.mod_pos_bound n 256 eq_refl).
  rewrite lor_shiftl_byte by lia.
  change (2 ^ 8) with 256. Z.to_euclidean_division_equations; lia.
Qed.

Lemma unpad_pad_into bucket name :
  (displayNamePadHeader + length name ≤ bucket)%nat → Z.of_nat (length name) < 65536 →
  unpadDisplayName (pad_into bucket name) = Ok name.
Proof.
  intros Hb Hl. pose proof (length_pad_into bucket name Hb) as Hlen.
  unfold unpadDisplayName. unfold pad_into at 1.
  rewrite (decide_False (P := displayNamePadMarker ≠ _)) by naive_solver.
  rewrite (decide_False (P := displayNamePadVersion ≠ _)) by naive_solver.
  rewrite pad_length_field by lia. cbv zeta.
  change (displayNamePadMarker :: displayNamePadVersion :: _) with (pad_into bucket name).
  rewrite decide_False by (rewrite Hlen; lia). rewrite Nat2Z.id.
  by rewrite take_app_length.
Qed.

Lemma pad_bucket_spec buckets total :
  Forall (λ b, 0 < b)%nat buckets →
  pad_bucket buckets total = 0%nat ∧ Forall (λ b, b < total)%nat buckets ∨
  pad_bucket buckets total ∈ buckets ∧ (total ≤ pad_bucket buckets total)%nat.
Proof.
  induction 1 as [|b rest Hb Hr IH]; simpl; [by left|]. case_decide.
  - right. split; [by left|done].
  - destruct IH as [[IH1 IH2]|[IH1 IH2]]; [left|right].
    + split; [done|]. constructor; [lia|done].
    + split; [by right|done].
Qed.

Lemma pad_bucket_least buckets total b :
  StronglySorted (≤)%nat buckets → b ∈ buckets → (total ≤ b)%nat →
  (pad_bucket buckets total ≤ b)%nat.
Proof.
  induction 1 as [|c rest Hs IH Hf]; intros Hin Hle; [by apply elem_of_nil in Hin|].
  simpl. rewrite Forall_forall in Hf. apply elem_of_cons in Hin as [->|Hin].
  - by rewrite decide_True.
  - case_decide; [by apply Hf|by apply IH].
Qed.

(** Padding hides the length of a name and loses nothing.  Every name shorter
    than 64 KiB comes back unchanged; a name of up to 884 bytes is padded to one
    of the five bucket sizes, the least that holds it with its header; a longer
    one is left as it is unless it could be mistaken for a padded name. *)
Theorem unpad_padDisplayName name :
  Z.of_nat (length name) < 65536 →
  unpadDisplayName (padDisplayName name) = Ok name ∧
  ((length name ≤ 884)%nat → length (padDisplayName name) ∈ displayNamePadBuckets ∧
     ∀ b, b ∈ displayNamePadBuckets → (displayNamePadHeader + length name ≤ b)%nat →
       (length (padDisplayName name) ≤ b)%nat) ∧
  ((884 < length name)%nat → head name ≠ Some displayNamePadMarker → padDisplayName name = name).
Proof.
  intros Hl. unfold padDisplayName. cbv zeta.
  set (total := (displayNamePadHeader + length name)%nat).
  assert (total = 4 + length name)%nat as Htot by done.
  assert (Forall (λ b, 0 < b)%nat displayNamePadBuckets) as Hpos by (repeat first [lia | constructor]).
  assert (StronglySorted (≤)%nat displayNamePadBuckets) as Hsorted by (repeat first [lia | constructor]).
  destruct (pad_bucket_spec displayNamePadBuckets total Hpos) as [[Hz Hall]|[Hin Hle]].
  - rewrite Hz, decide_True by done. unfold displayNamePadBuckets in Hall.
    rewrite !Forall_cons in Hall. assert (884 < length name)%nat as Hlong
      by lia.
    case_decide as Hm.
    + split; [|split; [lia|done]]. destruct name as [|m [|v [|hi [|lo body]]]]; try done.
      simpl in Hm. unfold unpadDisplayName. by rewrite decide_True by congruence.
    + split; [by apply unpad_pad_into|]. split; [lia|done].
  - assert (pad_bucket displayNamePadBuckets total ≠ 0%nat) as Hne by lia.
    rewrite decide_False by done. split; [by apply unpad_pad_into|].
    rewrite length_pad_into by done. split; [intros _; split; [done|]; intros; by apply pad_bucket_least|]. intros Hlong.
    assert (pad_bucket displayNamePadBuckets total ≤ 888)%nat; [|lia].
    revert Hin. generalize (pad_bucket displayNamePadBuckets total). intros k.
    unfold displayNamePadBuckets. rewrite !elem_of_cons. intros Hin. destruct Hin as [?|[?|[?|[?|[?|?%elem_of_nil]]]]]; lia.
Qed.

(** ** The shape of a path: its non-empty segments joined by one slash *)

Definition segments (s : string) : list string := filter (λ x, x ≠ "") (split_on slash s).

Lemma split_slash s : split_on slash (String.String slash s) = "" :: split_on slash s.
Proof. done. Qed.

Lemma split_other a s h t :
  a ≠ slash → split_on slash s = h :: t → split_on slash (String.String a s) = String.String a h :: t.
Proof. intros Ha Hs. simpl. by rewrite decide_False, Hs by done. Qed.

(** Two strings with the same first segment and the same non-empty others. *)
Definition same_segments (s1 s2 : string) : Prop :=
  ∃ h t1 t2, split_on slash s1 = h :: t1 ∧ split_on slash s2 = h :: t2 ∧
    filter (λ x, x ≠ "") t1 = filter (λ x, x ≠ "") t2.

Lemma same_segments_refl s : same_segments s s.
Proof. destruct (split_on slash s) as [|h t] eqn:E; [by destruct (split_on_nonempty slash s)|].
  by exists h, t, t. Qed.

Lemma same_segments_eq s1 s2 : same_segments s1 s2 → segments s1 = segments s2.
Proof.
  intros (h & t1 & t2 & E1 & E2 & Hf). unfold segments. by rewrite E1, E2, !filter_cons, Hf.
Qed.

Lemma same_segments_cons a s1 s2 :
  same_segments s1 s2 → same_segments (String.String a s1) (String.String a s2).
Proof.
  intros Hs. destruct (decide (a = slash)) as [->|Ha].
  - exists "", (split_on slash s1), (split_on slash s2). rewrite !split_slash.
    split_and!; try done. by apply same_segments_eq in Hs.
  - destruct Hs as (h & t1 & t2 & E1 & E2 & Hf). exists (String.String a h), t1, t2.
    split_and!; [by apply split_other..|done].
Qed.

Lemma replace_slashes_cons a b s :
  replace_slashes (String.String a (String.String b s)) =
  if decide (a = slash ∧ b = slash) then String.String slash (replace_slashes s)
  else String.String a (replace_slashes (String.String b s)).
Proof. done. Qed.
Lemma contains_slashes_cons a b s :
  contains_slashes (String.String a (String.String b s)) =
  (bool_decide (a = slash) && bool_decide (b = slash)) || contains_slashes (String.String b s).
Proof. done. Qed.

Lemma replace_slashes_same s : same_segments (replace_slashes s) s.
Proof.
  remember (String.length s) as k eqn:Hk. revert s Hk.
  induction (lt_wf k) as [k _ IH]; intros s Hk.
  destruct s as [|a [|b s]]; [apply same_segments_refl..|]. rewrite replace_slashes_cons. case_decide as Hab.
  - destruct Hab as [-> ->].
    exists "", (split_on slash (replace_slashes s)), ("" :: split_on slash s).
    rewrite !split_slash. split_and!; try done.
    rewrite filter_cons_False by naive_solver. apply same_segments_eq.
    by apply (IH (String.length s)); [subst k; simpl; lia|].
  - apply same_segments_cons.
    apply (IH (String.length (String.String b s))); [subst k; simpl; lia|done].
Qed.

Lemma trim_right_same s : same_segments (trim_right slash s) s.
Proof.
  induction s as [|a s IH]; [apply same_segments_refl|]. cbn [trim_right]. cbv zeta. case_decide as H.
  - destruct H as [Ht ->]. rewrite Ht in IH. apply same_segments_eq in IH.
    exists "", [], (split_on slash s). rewrite split_slash. split_and!; done.
  - by apply same_segments_cons.
Qed.

Lemma trim_left_segments s : segments (trim_left slash s) = segments s.
Proof.
  induction s as [|a s IH]; [done|]. simpl. case_decide as Ha; [|done].
  subst a. rewrite IH. unfold segments at 2. rewrite split_slash, filter_cons_False; [done|naive_solver].
Qed.

(** Neither end is a slash. *)
Definition no_lead (s : string) : Prop :=
  match s with String.String a _ => a ≠ slash | _ => True end.
Fixpoint no_trail (s : string) : Prop :=
  match s with
  | "" => True
  | String.String a s' => match s' with "" => a ≠ slash | _ => no_trail s' end
  end.

Lemma trim_left_no_lead s : no_lead (trim_left slash s).
Proof. induction s as [|a s IH]; [done|]. simpl. by case_decide. Qed.

Lemma trim_right_ends s : no_trail (trim_right slash s) ∧ (no_lead s → no_lead (trim_right slash s)).
Proof.
  induction s as [|a s [IH _]]; [done|]. cbn [trim_right]. cbv zeta. case_decide as H; [done|].
  split; [|done]. cbn [no_trail]. destruct (trim_right slash s); [|done]. naive_solver.
Qed.

Lemma replace_slashes_ends s :
  no_trail s → no_trail (replace_slashes s) ∧ (s ≠ "" → replace_slashes s ≠ "") ∧
  (no_lead s → no_lead (replace_slashes s)).
Proof.
  remember (String.length s) as k eqn:Hk. revert s Hk.
  induction (lt_wf k) as [k _ IH]; intros s Hk Hn.
  destruct s as [|a [|b s]]; [done..|]. rewrite replace_slashes_cons. case_decide as Hab.
  - destruct Hab as [-> ->]. destruct s as [|c s]; [by destruct Hn|].
    destruct (IH (String.length (String.String c s)) ltac:(subst k; simpl; lia) _ eq_refl Hn)
      as (H1 & H2 & _). split_and!; [|done|done].
    cbn [no_trail]. destruct (replace_slashes _); [by destruct H2|done].
  - destruct (IH (String.length (String.String b s)) ltac:(subst k; simpl; lia) _ eq_refl Hn)
      as (H1 & H2 & _). split_and!; [|done|done].
    cbn [no_trail]. destruct (replace_slashes _); [by destruct H2|done].
Qed.

Lemma replace_slashes_length s :
  (String.length (replace_slashes s) ≤ String.length s)%nat ∧
  (contains_slashes s = true → (String.length (replace_slashes s) < String.length s)%nat).
Proof.
  remember (String.length s) as k eqn:Hk. revert s Hk.
  induction (lt_wf k) as [k _ IH]; intros s Hk. destruct s as [|a [|b s]]; [by subst k..|].
  rewrite replace_slashes_cons, contains_slashes_cons.
  pose proof (IH (String.length s) ltac:(subst k; simpl; lia) s eq_refl) as [H1 _].
  pose proof (IH (String.length (String.String b s)) ltac:(subst k; simpl; lia) _ eq_refl) as [H2 H3].
  destruct (decide (a = slash ∧ b = slash)) as [[-> ->]|Hab]; subst k; cbn [String.length] in *; [lia|].
  split; [lia|]. intros [[?%bool_decide_eq_true ?%bool_decide_eq_true]%andb_true_iff|Hc]%orb_true_iff.
  - naive_solver.
  - specialize (H3 Hc). lia.
Qed.

(** The loop ends with a path free of double slashes. *)
Lemma collapse_spec fuel : ∀ s, (String.length s ≤ fuel)%nat → no_trail s → no_lead s →
  let r := collapse_slashes fuel s in
  contains_slashes r = false ∧ segments r = segments s ∧ no_trail r ∧ no_lead r.
Proof.
  induction fuel as [|fuel IH]; intros s Hl Ht Hd.
  { destruct s; simpl in *; [done|lia]. }
  cbn [collapse_slashes]. destruct (contains_slashes s) eqn:E; [|done].
  destruct (replace_slashes_length s) as [_ Hlt]. specialize (Hlt E).
  destruct (replace_slashes_ends s Ht) as (H1 & _ & H2).
  destruct (IH (replace_slashes s)) as (? & Hs & ?); [lia|done|auto|].
  split; [done|]. split; [|done]. rewrite Hs. apply same_segments_eq, replace_slashes_same.
Qed.

Lemma clean_segments s :
  contains_slashes s = false → no_trail s →
  ∃ h t, split_on slash s = h :: t ∧ Forall (λ x, x ≠ "") t ∧ (no_lead s → s ≠ "" → h ≠ "").
Proof.
  induction s as [|a s IH]; intros Hc Ht; [by exists "", []|].
  destruct s as [|b s].
  { exists (String.String a ""), []. rewrite split_on_no_sep; [done|]. simpl.
    rewrite orb_false_r. by apply bool_decide_eq_false. }
  rewrite contains_slashes_cons in Hc. apply orb_false_iff in Hc as [Hab Hc].
  destruct (IH Hc Ht) as (h & t & E & Hf & Hh).
  destruct (decide (a = slash)) as [->|Ha].
  - exists "", (h :: t). rewrite split_slash, E. split_and!; [done| |by intros []].
    constructor; [|done]. apply Hh; [|done]. intros ->. rewrite !bool_decide_true in Hab; done.
  - exists (String.String a h), t. by rewrite (split_other _ _ h t).
Qed.

Lemma filter_id (P : string → Prop) `{∀ x, Decision (P x)} l : Forall P l → filter P l = l.
Proof. induction 1; [done|]. by rewrite filter_cons_True, IHForall. Qed.

Lemma replace_all_gone a b s : a ≠ b → contains_char a (replace_all a b s) = false.
Proof.
  intros Hab. induction s as [|x s IH]; [done|]. simpl. rewrite IH, orb_false_r.
  apply bool_decide_eq_false. by case_decide.
Qed.

Lemma replace_all_id a b s : contains_char a s = false → replace_all a b s = s.
Proof.
  induction s as [|x s IH]; [done|]. simpl. intros [Hx Hs]%orb_false_iff.
  apply bool_decide_eq_false in Hx. by rewrite decide_False, IH.
Qed.

Lemma split_contains a c s :
  contains_char a s = false → Forall (λ x, contains_char a x = false) (split_on c s).
Proof.
  induction s as [|x s IH]; simpl; [by repeat constructor|].
  intros [Hx Hs]%orb_false_iff. specialize (IH Hs).
  destruct (decide (x = c)); [by constructor|]. destruct (split_on c s) as [|h t]; [by constructor; simpl; rewrite ?Hx|].
  apply Forall_cons in IH as [Hh Ht]. constructor; [|done]. simpl. by rewrite Hx.
Qed.

Lemma append_assoc s1 s2 s3 : (s1 ^^ s2) ^^ s3 = s1 ^^ s2 ^^ s3.
Proof.
  induction s1 as [|a s1 IH]; [done|].
  change (String.String a ((s1 ^^ s2) ^^ s3) = String.String a (s1 ^^ s2 ^^ s3)). by rewrite IH.
Qed.

Lemma contains_append a s1 s2 : contains_char a (s1 ^^ s2) = contains_char a s1 || contains_char a s2.
Proof. induction s1 as [|x s1 IH]; [done|]. simpl. by rewrite IH, orb_assoc. Qed.

Lemma join_contains a l :
  a ≠ slash → Forall (λ x, contains_char a x = false) l → contains_char a (join_with "/" l) = false.
Proof.
  intros Ha. induction 1 as [|x l Hx Hl IH]; [done|]. destruct l as [|y l]; [done|].
  change (join_with "/" (x :: y :: l)) with (x ^^ String.String slash (join_with "/" (y :: l))).
  rewrite contains_append, Hx. cbn [contains_char]. rewrite IH, orb_false_r.
  by apply bool_decide_eq_false.
Qed.

(** Normalising the shape of a path terminates and yields its non-empty
    segments, backslashes read as slashes, joined by single slashes; hence it
    has no empty segment and normalising again changes nothing. *)
Theorem path_shape_spec p :
  path_shape p = join_with "/" (segments (replace_all backslash slash p)) ∧
  Forall (λ x, x ≠ "") (segments (path_shape p)) ∧ path_shape (path_shape p) = path_shape p.
Proof.
  assert (∀ p, path_shape p = join_with "/" (segments (replace_all backslash slash p)) ∧
            segments (path_shape p) = segments (replace_all backslash slash p)) as Hspec.
  { clear p. intros p. unfold path_shape, trim. set (q := replace_all backslash slash p).
    destruct (trim_right_ends (trim_left slash q)) as [Ht Hd].
    specialize (Hd (trim_left_no_lead q)). set (s := trim_right slash (trim_left slash q)) in *.
    destruct (collapse_spec (String.length s) s (Nat.le_refl _) Ht Hd) as (Hc & Hs & Ht' & Hd').
    set (r := collapse_slashes (String.length s) s) in *.
    assert (segments r = segments q) as Hq.
    { rewrite Hs. unfold s. rewrite (same_segments_eq _ _ (trim_right_same _)).
      apply trim_left_segments. }
    split; [|done]. rewrite <- Hq. destruct (clean_segments r Hc Ht') as (h & t & E & Hf & Hh).
    destruct (decide (r = "")) as [->|Hr]; [done|].
    unfold segments. rewrite E, filter_id, <- E; [by rewrite join_split|].
    constructor; auto. }
  destruct (Hspec p) as [H1 H2]. split; [done|]. split.
  - apply Forall_forall. intros x Hx. unfold segments in Hx. by apply list_elem_of_filter in Hx as [].
  - destruct (Hspec (path_shape p)) as [H3 _]. rewrite H3, replace_all_id, H2, <- H1; [done|].
    rewrite H1. apply join_contains; [done|]. apply Forall_forall.
    intros x [_ Hx]%list_elem_of_filter. revert x Hx. apply Forall_forall.
    by apply split_contains, replace_all_gone.
Qed.

(** ** The paths a remote path needs tokens for *)

(** A path element: not empty, no separator, not a dot element. *)
Definition plain_elem (x : string) : Prop :=
  x ≠ "" ∧ x ≠ "." ∧ x ≠ ".." ∧ contains_char slash x = false ∧ contains_char backslash x = false.

Lemma join_snoc l x : l ≠ [] → join_with "/" (l ++ [x]) = join_with "/" l ^^ "/" ^^ x.
Proof.
  induction l as [|y l IH]; [done|]. intros _. destruct l as [|z l]; [done|].
  change (join_with "/" ((y :: z :: l) ++ [x])) with (y ^^ "/" ^^ join_with "/" ((z :: l) ++ [x])).
  rewrite IH by done. change (join_with "/" (y :: z :: l)) with (y ^^ "/" ^^ join_with "/" (z :: l)).
  by rewrite !append_assoc.
Qed.

Lemma plain_no_slash l : Forall plain_elem l → Forall (λ x, contains_char slash x = false) l.
Proof. intros H. eapply Forall_impl; [exact H|]. by intros x (_ & _ & _ & ? & _). Qed.

Lemma clean_plain l stack :
  Forall plain_elem l → foldl (clean_step false) stack l = reverse l ++ stack.
Proof.
  intros H. revert stack. induction H as [|x l (Hx & Hd & Hdd & _) Hl IH]; intros stack; [done|].
  simpl. unfold clean_step at 2. rewrite decide_False, decide_False by naive_solver.
  rewrite IH, reverse_cons, <- app_assoc. done.
Qed.

Lemma join_first l : Forall plain_elem l → l ≠ [] →
  ∃ b s, join_with "/" l = String.String b s ∧ b ≠ slash.
Proof.
  intros [|x l' (Hx & _ & _ & Hs & _) _] Hne; [done|]. destruct x as [|b x]; [done|].
  simpl in Hs. apply orb_false_iff in Hs as [Hb _]. apply bool_decide_eq_false in Hb.
  destruct l' as [|y l']; [by exists b, x|]. eexists b, _. split; [reflexivity|done].
Qed.

Lemma path_Clean_dir l :
  Forall plain_elem l → l ≠ [] → path_Clean (join_with "/" l ^^ "/") = join_with "/" l.
Proof.
  intros Hl Hne. unfold path_Clean.
  destruct (join_first l Hl Hne) as (b & s & Hj & Hb).
  assert (join_with "/" l ^^ "/" = join_with "/" (l ++ [""])) as E.
  { by rewrite join_snoc. }
  assert (is_rooted (join_with "/" l ^^ "/") = false) as ->.
  { rewrite Hj. exact (bool_decide_eq_false_2 _ Hb). }
  rewrite E, split_on_join; [|by destruct l|].
  2: { apply Forall_app. split; [by apply plain_no_slash|by repeat constructor]. }
  unfold clean_elems. rewrite foldl_app, (clean_plain l []) by done. simpl.
  rewrite app_nil_r. change (clean_step false (reverse l) "") with (reverse l). rewrite reverse_involutive.
  rewrite decide_False; [done|]. by rewrite Hj.
Qed.

Lemma path_Dir_join l x :
  Forall plain_elem (l ++ [x]) →
  path_Dir (join_with "/" (l ++ [x])) = if decide (l = []) then "." else join_with "/" l.
Proof.
  intros Hf. pose proof (plain_no_slash _ Hf). apply Forall_app in Hf as [Hl _].
  unfold path_Dir. rewrite split_on_join by (done || by destruct l).
  rewrite removelast_app by done. change (removelast [x]) with (@nil string).
  rewrite app_nil_r. case_decide as E; [by subst|].
  destruct l as [|y l]; [done|]. exact (path_Clean_dir (y :: l) Hl E).
Qed.

(** The joins of the non-empty prefixes, longest first. *)
Definition prefix_paths (l : list string) : list string :=
  (λ n, join_with "/" (take n l)) <$> reverse (seq 1 (length l)).

Lemma prefix_paths_snoc l x :
  prefix_paths (l ++ [x]) = join_with "/" (l ++ [x]) :: prefix_paths l.
Proof.
  unfold prefix_paths. rewrite length_app. simpl. rewrite Nat.add_1_r, seq_S, reverse_snoc. simpl.
  f_equal; [by rewrite take_ge by (rewrite length_app; simpl; lia)|].
  apply list_fmap_ext. intros i n Hn.
  apply list_elem_of_lookup_2 in Hn. rewrite elem_of_reverse, elem_of_seq in Hn.
  by rewrite take_app_le by lia.
Qed.

Lemma join_plain_dots l :
  Forall plain_elem l → l ≠ [] →
  join_with "/" l ≠ "." ∧ join_with "/" l ≠ "" ∧ join_with "/" l ≠ "/".
Proof.
  intros Hl Hne. destruct (join_first l Hl Hne) as (b & s & Hj & Hb).
  split_and!.
  - intros E. assert (split_on slash (join_with "/" l) = ["."]) as Hs by (by rewrite E).
    rewrite split_on_join in Hs by (done || by apply plain_no_slash). subst l.
    apply Forall_cons in Hl as [(_ & ? & _) _]. done.
  - by rewrite Hj.
  - rewrite Hj. intros [= -> _]. done.
Qed.

Lemma ancestor_loop_prefixes l : ∀ fuel,
  Forall plain_elem l → (length l < fuel)%nat →
  ancestor_loop fuel false (if decide (l = []) then "." else join_with "/" l) = prefix_paths l.
Proof.
  induction l as [|x l IH] using rev_ind; intros fuel Hl Hf.
  { destruct fuel; done. }
  rewrite length_app in Hf. simpl in Hf. destruct fuel as [|fuel]; [lia|].
  rewrite decide_False by (by destruct l). cbn [ancestor_loop].
  rewrite decide_True by (apply join_plain_dots; [done|by destruct l]).
  rewrite prefix_paths_snoc, path_Dir_join by done. f_equal. apply IH; [|lia].
  by apply Forall_app in Hl as [].
Qed.

Lemma length_append s1 s2 : String.length (s1 ^^ s2) = (String.length s1 + String.length s2)%nat.
Proof.
  induction s1 as [|a s1 IH]; [done|].
  change (S (String.length (s1 ^^ s2)) = S (String.length s1 + String.length s2)%nat). by rewrite IH.
Qed.

Lemma join_length l : Forall plain_elem l → (length l ≤ String.length (join_with "/" l))%nat.
Proof.
  intros Hl. induction Hl as [|x l (Hx & _) Hl IH]; [done|].
  assert (0 < String.length x)%nat by (destruct x; [done|simpl; lia]).
  destruct l as [|y l]; [simpl; lia|].
  change (join_with "/" (x :: y :: l)) with (x ^^ "/" ^^ join_with "/" (y :: l)).
  rewrite !length_append. simpl in *. lia.
Qed.

(** For a path of plain elements, with any number of leading slashes, the
    token paths are the path itself and then, at the requested depth, nothing
    more, its parent (if it has one), or all its ancestors from the nearest to
    the outermost; the root is never among them. *)
Theorem PathTokenPaths_spec l x k depth :
  Forall plain_elem (l ++ [x]) →
  PathTokenPaths (Nat.iter k (String.String slash) (join_with "/" (l ++ [x]))) depth =
  match depth with
  | PathTokenSelfOnly => [join_with "/" (l ++ [x])]
  | PathTokenSelfAndParent => take 2 (prefix_paths (l ++ [x]))
  | PathTokenSelfAndAncestors => prefix_paths (l ++ [x])
  end.
Proof.
  intros Hl. unfold PathTokenPaths. set (j := join_with "/" (l ++ [x])).
  assert (l ++ [x] ≠ []) as Hne by (by destruct l).
  destruct (join_plain_dots _ Hl Hne) as (_ & Hnon & _).
  assert (replace_all backslash slash j = j) as Hbs.
  { apply replace_all_id, join_contains; [done|]. eapply Forall_impl; [exact Hl|].
    by intros ? (_ & _ & _ & _ & ?). }
  assert (trim_left slash (replace_all backslash slash (Nat.iter k (String.String slash) j)) = j) as ->.
  { destruct (join_first _ Hl Hne) as (b & s & Hj & Hb).
    induction k as [|k IH]; simpl; [|done].
    rewrite Hbs. fold j in Hj. rewrite Hj. simpl. by rewrite decide_False. }
  rewrite decide_False by done. unfold j. rewrite path_Dir_join by done.
  pose proof (join_length _ Hl) as Hlen. rewrite length_app in Hlen. simpl in Hlen.
  assert (Forall plain_elem l) as Hl' by (by apply Forall_app in Hl as []).
  rewrite prefix_paths_snoc. destruct depth; [done| |].
  - simpl take. f_equal. cbn [ancestor_loop].
    destruct (decide (l = [])) as [->|Hl0]; [done|].
    rewrite decide_True by (by apply join_plain_dots).
    destruct (exists_last Hl0) as (l' & y & ->). by rewrite prefix_paths_snoc.
  - f_equal. apply ancestor_loop_prefixes; [done|]. lia.
Qed.

(** ** Witnesses *)

Lemma unpad_padDisplayName_witness :
  unpadDisplayName (padDisplayName [x61; x62]) = Ok [x61; x62] ∧
  length (padDisplayName [x61; x62]) = 64%nat.
Proof.
  destruct (unpad_padDisplayName [x61; x62] ltac:(simpl; lia)) as (H & _ & _).
  split; [exact H|vm_compute; reflexivity].
Defined.

Lemma PathTokenPaths_spec_witness :
  PathTokenPaths "/a/b/c.txt" PathTokenSelfAndAncestors = ["a/b/c.txt"; "a/b"; "a"].
Proof.
  apply (PathTokenPaths_spec ["a"; "b"] "c.txt" 1 PathTokenSelfAndAncestors).
  repeat (apply Forall_cons; split; [by repeat split|]). by apply Forall_nil.
Defined.

Example path_shape_ex : path_shape "/a//b\c///" = "a/b/c".
Proof. by vm_compute. Qed.
