(* ===== verification/TreeModel.v ===== *)
(** * The node tree

    [internal/tree]: building the tree from decoded nodes, detaching parent
    cycles, the queries, and the fetch loop.  Iteration over the Go map of nodes
    happens in an unspecified order: the order is an argument. *)
From S2P Require Import Prelude GoLib ApiErrors Crypto Hybrid Names.
From stdpp Require Import fin_maps.
Local Open Scope Z_scope.

Record Node : Type := mkNode {
  n_ID : string; n_Name : string; n_ParentID : string; n_IsDir : bool; n_Size : Z;
  n_CreatedAt : Z; n_ModifiedAt : Z; n_Hidden : bool; n_Trashed : bool }.
#[export] Instance Node_eta : Eta Node := λ n,
  mkNode (n_ID n) (n_Name n) (n_ParentID n) (n_IsDir n) (n_Size n) (n_CreatedAt n)
    (n_ModifiedAt n) (n_Hidden n) (n_Trashed n).
#[export] Instance Node_eq_dec : EqDecision Node.
Proof. solve_decision. Defined.

Record Tree : Type := mkTree {
  byID : gmap string Node; children : gmap string (list string); Orphans : list string }.
#[export] Instance Tree_eta : Eta Tree := λ t, mkTree (byID t) (children t) (Orphans t).

(** The lookup of an absent key of a Go map of slices: the nil slice. *)
Definition kids (t : Tree) (parent : string) : list string := default [] (children t !! parent).

Definition add_child (parent id : string) (t : Tree) : Tree :=
  t <| children := <[parent := kids t parent ++ [id]]> (children t) |>.

(** The two loops of [New] over the nodes. *)
Definition index_nodes (nodes : list Node) : gmap string Node :=
  foldl (λ m n, <[n_ID n := n]> m) ∅ nodes.

Definition attach (t : Tree) (n : Node) : Tree :=
  let parent := n_ParentID n in
  if decide (parent ≠ "" ∧ byID t !! parent = None)
  then add_child "" (n_ID n) (t <| Orphans := Orphans t ++ [n_ID n] |>)
  else add_child parent (n_ID n) t.

(** [append(siblings[:i:i], siblings[i+1:]...)] at the first occurrence. *)
Fixpoint remove_first (id : string) (l : list string) : list string :=
  match l with
  | [] => []
  | x :: l' => if decide (x = id) then l' else x :: remove_first id l'
  end.

Definition reroot (id : string) (t : Tree) : Tree :=
  match byID t !! id with
  | None => t
  | Some node =>
      let parent := n_ParentID node in
      if decide (parent = "") then t else
      let siblings := kids t parent in
      let t :=
        if decide (id ∈ siblings)
        then t <| children := <[parent := remove_first id siblings]> (children t) |> else t in
      let t := t <| byID := <[id := node <| n_ParentID := "" |>]> (byID t) |> in
      let t := add_child "" id t in
      t <| Orphans := Orphans t ++ [id] |>
  end.

(** The chain followed from one node: it ends at the root, at a node known to be
    reachable, or at an unknown parent; or it meets itself. *)
Inductive walk_end : Type := WalkGrounded (chain : list string) | WalkCycle.

Fixpoint chain_walk (fuel : nat) (m : gmap string Node) (reachable : gset string)
    (chain : list string) (cur : string) : walk_end :=
  match fuel with
  | O => WalkCycle
  | S fuel =>
      if decide (cur = "" ∨ cur ∈ reachable) then WalkGrounded chain
      else if decide (cur ∈ chain) then WalkCycle
      else
        match m !! cur with
        | None => WalkGrounded (chain ++ [cur])
        | Some node => chain_walk fuel m reachable (chain ++ [cur]) (n_ParentID node)
        end
  end.

Definition detach_one (st : Tree * gset string) (id : string) : Tree * gset string :=
  let '(t, reachable) := st in
  if decide (id ∈ reachable) then st else
  match chain_walk (S (S (size (byID t)))) (byID t) reachable [] id with
  | WalkGrounded chain => (t, reachable ∪ list_to_set chain)
  | WalkCycle => (reroot id t, reachable)
  end.

(** [order]: the order in which the map [byID] is iterated. *)
Definition detachCycles (order : list string) (t : Tree) : Tree :=
  (foldl detach_one (t, ∅) order).1.

Section tree.
Context `{U : Unicode}.
(** [strings.EqualFold]. *)
Variable equal_fold : string → string → bool.

(** The order of [sort.Slice]: directories first, then by lower-cased name. *)
Definition node_before (m : gmap string Node) (i j : string) : Prop :=
  match m !! i, m !! j with
  | Some a, Some b =>
      if decide (n_IsDir a ≠ n_IsDir b) then n_IsDir a = true
      else String.leb (strings_ToLower (n_Name a)) (strings_ToLower (n_Name b)) = true
  | _, _ => True
  end.
#[export] Instance node_before_dec m : RelDecision (node_before m).
Proof.
  intros i j. unfold node_before.
  destruct (m !! i) as [a|]; [|apply _]. destruct (m !! j) as [b|]; [|apply _].
  destruct (decide (n_IsDir a ≠ n_IsDir b)); apply _.
Defined.

(** Equal elements may come in any order; the model keeps theirs. *)
Definition sort_children (t : Tree) : Tree :=
  t <| children := merge_sort (node_before (byID t)) <$> children t |>.

Definition New (order : list string) (nodes : list Node) : Tree :=
  let t := mkTree (index_nodes nodes) ∅ [] in
  let t := foldl attach t nodes in
  sort_children (detachCycles order t).

Definition Get (id : string) (t : Tree) : option Node := byID t !! id.
Definition Len (t : Tree) : nat := size (byID t).
Definition Children (parentID : string) (t : Tree) : list Node :=
  omap (λ id, byID t !! id) (kids t parentID).

(** One pass of [Descendants] over a frontier: (seen, out, next). *)
Fixpoint frontier_pass (t : Tree) (frontier : list string) (seen : gset string)
    (out next : list string) : gset string * list string * list string :=
  match frontier with
  | [] => (seen, out, next)
  | id :: rest =>
      if decide (id ∈ seen) then frontier_pass t rest seen out next
      else frontier_pass t rest ({[id]} ∪ seen) (out ++ [id]) (next ++ kids t id)
  end.
Fixpoint descend (fuel : nat) (t : Tree) (frontier : list string) (seen : gset string)
    (out : list string) : list string :=
  match fuel with
  | O => out
  | S fuel =>
      match frontier with
      | [] => out
      | _ =>
          let '(seen, out, next) := frontier_pass t frontier seen out [] in
          descend fuel t next seen out
      end
  end.
(** Every identifier in a list of children. *)
Definition listed (t : Tree) : gset string :=
  map_fold (λ _ l acc, list_to_set l ∪ acc) ∅ (children t).
Definition Descendants (parentID : string) (t : Tree) : list string :=
  descend (S (S (size (listed t)))) t (kids t parentID) {[parentID]} [].

(** [walk] of [Subtree]: depth first; the seen set and the output are threaded. *)
Fixpoint subtree_walk (fuel : nat) (t : Tree) (includeHidden : bool) (l : list Node)
    (seen : gset string) (out : list string) : gset string * list string :=
  match fuel with
  | O => (seen, out)
  | S fuel =>
      match l with
      | [] => (seen, out)
      | child :: rest =>
          if decide (n_ID child ∈ seen ∨ n_Trashed child = true) then
            subtree_walk fuel t includeHidden rest seen out
          else if decide (includeHidden = false ∧ n_Hidden child = true) then
            subtree_walk fuel t includeHidden rest seen out
          else
            let seen := {[n_ID child]} ∪ seen in
            let out := out ++ [n_ID child] in
            let '(seen, out) :=
              if n_IsDir child
              then subtree_walk fuel t includeHidden (Children (n_ID child) t) seen out
              else (seen, out) in
            subtree_walk fuel t includeHidden rest seen out
      end
  end.

(** The fuel bounds the stack of [walk]: every list on it belongs to another
    directory. *)
Definition subtree_fuel (t : Tree) : nat :=
  S (map_fold (λ _ l n, S (length l) + n)%nat 0%nat (children t)).
Definition Subtree (parentID : string) (includeHidden : bool) (t : Tree) : list string :=
  (subtree_walk (subtree_fuel t) t includeHidden (Children parentID t) {[parentID]} []).2.

(** The segment loop of [Resolve]. *)
Fixpoint resolve_segments (t : Tree) (segments : list string) (parent : string)
    (node : option Node) : option (option Node) :=
  match segments with
  | [] => Some node
  | seg :: rest =>
      if decide (seg = "" ∨ seg = ".") then resolve_segments t rest parent node
      else
        match List.find (λ child, equal_fold (n_Name child) seg && negb (n_Trashed child))
                (Children parent t) with
        | Some child => resolve_segments t rest (n_ID child) (Some child)
        | None => None
        end
  end.
(** The root is [Ok None]. *)
Definition Resolve (path : string) (t : Tree) : result error (option Node) :=
  let trimmed := trim slash (replace_all backslash slash path) in
  if decide (trimmed = "") then Ok None else
  match resolve_segments t (split_on slash trimmed) "" None with
  | Some (Some node) => Ok (Some node)
  | _ => Err (ErrSentinel ErrNotFound)
  end.

Fixpoint path_parts (fuel : nat) (m : gmap string Node) (seen : list string) (cur : string)
    : option (list string) :=
  match fuel with
  | O => None
  | S fuel =>
      if decide (cur = "") then Some [] else
      if decide (cur ∈ seen) then None else
      match m !! cur with
      | None => None
      | Some node => (λ l, l ++ [n_Name node]) <$> path_parts fuel m (cur :: seen) (n_ParentID node)
      end
  end.
Definition PathOf (id : string) (t : Tree) : string :=
  match path_parts (S (S (size (byID t)))) (byID t) [] id with
  | Some parts => join_with "/" parts
  | None => ""
  end.
End tree.

(** ** Fetching *)

Record Shell : Type := mkShell {
  NodeID : string; ItemType : string; FileSize : Z; s_CreatedAt : Z; s_ModifiedAt : Z;
  s_IsHidden : bool; s_IsTrashed : bool; DisplayName : string; SealedParent : string;
  PlaintextParent : string }.
Record shellPage : Type := mkShellPage {
  Shells : list Shell; NextCursor : option string; Done : bool }.
Record Keys : Type := mkKeys { Priv : option PrivateKeySet; ParentKey : option bytes }.

Definition IDBytes (hexID : string) : result error bytes :=
  match hex_decode hexID with
  | None => Err (ErrText "encoding/hex: invalid byte")
  | Some raw =>
      if decide (length raw = 16%nat) then Ok raw else Err (ErrText "node id must be 16 bytes")
  end.

Section fetch.
Context `{U : Unicode, A : AEAD, X : X25519, K : MLKEM, HK : Hkdf}.
(** [base64.StdEncoding.DecodeString]; the page a request with a cursor yields:
    an error, no usable response, or the parsed body. *)
Variable base64_decode : string → option bytes.
Variable execute : nat → string → result error (option (result error shellPage)).

Definition decodeShell (shell : Shell) (keys : Keys) : result error Node :=
  match IDBytes (NodeID shell) with
  | Err e => Err (ErrWrap "tree: node id" e)
  | Ok nodeIDBytes =>
      let name :=
        match base64_decode (DisplayName shell) with
        | Some sealedName =>
            match UnsealDisplayName sealedName (Priv keys) with
            | Ok decrypted => String.string_of_list_byte decrypted
            | Err _ => "(encrypted)"
            end
        | None => "(encrypted)"
        end in
      let parent :=
        if decide (SealedParent shell = "") then PlaintextParent shell else
        match base64_decode (SealedParent shell) with
        | None => PlaintextParent shell
        | Some blob =>
            match OpenParentRef blob nodeIDBytes (ParentKey keys) (Priv keys) with
            | Ok None => ""
            | Ok (Some parentBytes) => hex_encode parentBytes
            | Err _ => PlaintextParent shell
            end
        end in
      Ok (mkNode (NodeID shell) name parent
            (bool_decide (ItemType shell = "directory" ∨ ItemType shell = "folder"))
            (FileSize shell) (s_CreatedAt shell) (s_ModifiedAt shell)
            (s_IsHidden shell) (s_IsTrashed shell))
  end.

Fixpoint decodeShells (shells : list Shell) (keys : Keys) : result error (list Node) :=
  match shells with
  | [] => Ok []
  | s :: rest => n ← decodeShell s keys; ns ← decodeShells rest keys; Ok (n :: ns)
  end.

(** The loop over [pages]; it gives up after page 10000. *)
Fixpoint fetch_loop (fuel : nat) (pages : nat) (cursor : string) (keys : Keys) (nodes : list Node)
    : result error (list Node) :=
  match fuel with
  | O => Err (ErrText "tree: shell walk did not terminate")
  | S fuel =>
      match execute pages cursor with
      | Err e => Err (ErrWrap "tree: list shells" e)
      | Ok None => Err (ErrText "tree: list shells refused")
      | Ok (Some (Err e)) => Err (ErrWrap "tree: parse shells" e)
      | Ok (Some (Ok page)) =>
          ns ← decodeShells (Shells page) keys;
          let nodes := nodes ++ ns in
          match NextCursor page with
          | Some next =>
              if decide (Done page = true ∨ next = "") then Ok nodes
              else fetch_loop fuel (S pages) next keys nodes
          | None => Ok nodes
          end
      end
  end.
Definition Fetch (order : list Node → list string) (keys : Keys) : result error Tree :=
  match Priv keys with
  | None => Err (ErrText "tree: private key set required")
  | Some _ =>
      nodes ← fetch_loop (Z.to_nat 10001) 0 "" keys [];
      Ok (New (order nodes) nodes)
  end.
End fetch.

(** ** Grounded nodes: their chain of parents ends *)

Inductive grounded (m : gmap string Node) : string → Prop :=
| grounded_root : grounded m ""
| grounded_missing id : m !! id = None → grounded m id
| grounded_step id n : m !! id = Some n → grounded m (n_ParentID n) → grounded m id.

(** One step towards the root. *)
Definition parent_step (m : gmap string Node) (x y : string) : Prop :=
  x ≠ "" ∧ ∃ n, m !! x = Some n ∧ y = n_ParentID n.

Lemma parent_step_det m x y z : parent_step m x y → parent_step m x z → y = z.
Proof. intros (_ & n & Hn & ->) (_ & n' & Hn' & ->). congruence. Qed.

Lemma tc_step_det m x y z :
  parent_step m x y → tc (parent_step m) x z → rtc (parent_step m) y z.
Proof.
  intros Hs Ht. inversion Ht as [? ? Hz|? w ? Hw Hr]; subst.
  - rewrite (parent_step_det _ _ _ _ Hs Hz). constructor.
  - rewrite (parent_step_det _ _ _ _ Hs Hw). by apply tc_rtc.
Qed.

Lemma grounded_no_loop m id : grounded m id → ¬ tc (parent_step m) id id.
Proof.
  assert (∀ y, ¬ parent_step m "" y) as Hroot by (by intros y [? _]).
  induction 1 as [|id Hn|id n Hn Hg IH].
  - intros Ht. inversion Ht as [? ? Hs|? ? ? Hs _]; by apply Hroot in Hs.
  - intros Ht. inversion Ht as [? ? (_ & ? & ? & _)|? ? ? (_ & ? & ? & _) _]; congruence.
  - intros Ht. destruct (decide (id = "")) as [->|Hne].
    { inversion Ht as [? ? Hs|? ? ? Hs _]; by apply Hroot in Hs. }
    assert (parent_step m id (n_ParentID n)) as Hs by (split; eauto).
    apply IH. pose proof (tc_step_det _ _ _ _ Hs Ht) as Hr.
    eapply tc_rtc_l; [exact Hr|]. by apply tc_once.
Qed.

(** The walk from a grounded node succeeds, given one round per node. *)
Lemma chain_walk_complete m R fuel : ∀ chain cur,
  grounded m cur → NoDup chain → (∀ x, x ∈ chain → is_Some (m !! x) ∧ tc (parent_step m) x cur) →
  (size m < length chain + fuel)%nat →
  ∃ c, chain_walk fuel m R chain cur = WalkGrounded c.
Proof.
  induction fuel as [|fuel IH]; intros chain cur Hg Hnd Hch Hf.
  { exfalso. assert (list_to_set chain ⊆ dom m) as Hsub.
    { intros x. rewrite elem_of_list_to_set, elem_of_dom. intros Hx. by apply Hch. }
    apply subseteq_size in Hsub. rewrite size_list_to_set, size_dom in Hsub by done. lia. }
  cbn [chain_walk]. case_decide as Hr; [eauto|]. case_decide as Hin.
  { destruct (Hch cur Hin) as [_ Ht]. by destruct (grounded_no_loop _ _ Hg). }
  destruct (m !! cur) as [n|] eqn:E; [|eauto].
  assert (cur ≠ "") as Hne by tauto.
  assert (parent_step m cur (n_ParentID n)) as Hs by (split; eauto).
  apply IH.
  - inversion Hg as [|? Hn|? n' Hn Hg']; [done|congruence|]. congruence.
  - apply NoDup_app. split_and!; [done| |apply NoDup_singleton].
    by intros x Hx ->%list_elem_of_singleton.
  - intros x [Hx| ->%list_elem_of_singleton]%elem_of_app.
    + destruct (Hch x Hx) as [? Ht]. split; [done|]. eapply tc_r; [exact Ht|exact Hs].
    + split; [by eexists|by apply tc_once].
  - rewrite length_app. simpl. lia.
Qed.

Lemma chain_walk_sound m R fuel : ∀ chain cur c,
  (∀ x, x ∈ R → grounded m x) → chain_walk fuel m R chain cur = WalkGrounded c →
  grounded m cur ∧ ∀ x, x ∈ c → x ∈ chain ∨ grounded m x.
Proof.
  induction fuel as [|fuel IH]; intros chain cur c HR; [done|].
  cbn [chain_walk]. case_decide as Hr.
  { intros [= <-]. split; [|by left]. destruct Hr as [->|Hr]; [constructor|by apply HR]. }
  case_decide; [done|]. destruct (m !! cur) as [n|] eqn:E.
  - intros Hw. destruct (IH _ _ _ HR Hw) as [Hg Hc].
    assert (grounded m cur) as Hcur by (by eapply grounded_step).
    split; [done|]. intros x Hx. destruct (Hc x Hx) as [[?| ->%list_elem_of_singleton]%elem_of_app|]; auto.
  - intros [= <-]. assert (grounded m cur) as Hcur by (by apply grounded_missing).
    split; [done|]. intros x [?| ->%list_elem_of_singleton]%elem_of_app; auto.
Qed.

(** Cutting a node's parent grounds it and no fewer others. *)
Lemma grounded_cut m id n x :
  m !! id = Some n → grounded m x → grounded (<[id := n <| n_ParentID := "" |>]> m) x.
Proof.
  intros Hid. induction 1 as [|y Hn|y n' Hn Hg IH]; [constructor| |].
  - apply grounded_missing. rewrite lookup_insert_ne; [done|congruence].
  - destruct (decide (y = id)) as [->|Hne].
    + eapply grounded_step; [apply lookup_insert_eq|]. constructor.
    + eapply grounded_step; [by rewrite lookup_insert_ne|done].
Qed.

Lemma byID_reroot id t :
  byID (reroot id t) =
  match byID t !! id with
  | Some n => if decide (n_ParentID n = "") then byID t
              else <[id := n <| n_ParentID := "" |>]> (byID t)
  | None => byID t
  end.
Proof. unfold reroot. destruct (byID t !! id); [|done]. case_decide; [done|]. by case_decide. Qed.

Lemma reroot_grounded id t x :
  (grounded (byID t) x ∨ x = id) → grounded (byID (reroot id t)) x.
Proof.
  rewrite byID_reroot. destruct (byID t !! id) as [n|] eqn:E; [case_decide as Hp|].
  - intros [?| ->]; [done|]. eapply grounded_step; [exact E|]. rewrite Hp. constructor.
  - intros [Hg| ->]; [by apply grounded_cut|].
    eapply grounded_step; [apply lookup_insert_eq|]. constructor.
  - intros [?| ->]; [done|]. by apply grounded_missing.
Qed.

(** What detaching keeps: grounded nodes and their records. *)
Lemma detach_one_spec t R id :
  (∀ x, x ∈ R → grounded (byID t) x) →
  let '(t', R') := detach_one (t, R) id in
  (∀ x, x ∈ R' → grounded (byID t') x) ∧ grounded (byID t') id ∧
  (∀ x, grounded (byID t) x → grounded (byID t') x ∧ byID t' !! x = byID t !! x) ∧
  (t' = t ∨ (¬ grounded (byID t) id ∧ t' = reroot id t)).
Proof.
  intros HR. unfold detach_one. case_decide as Hin.
  { split_and!; auto. }
  destruct (chain_walk _ _ _ _ _) as [chain|] eqn:E.
  - destruct (chain_walk_sound _ _ _ _ _ _ HR E) as [Hg Hc]. split_and!; auto.
    intros x [Hx|Hx%elem_of_list_to_set]%elem_of_union; [by apply HR|].
    by destruct (Hc x Hx) as [?%elem_of_nil|].
  - assert (¬ grounded (byID t) id) as Hng.
    { intros Hg. destruct (chain_walk_complete (byID t) R (S (S (size (byID t)))) [] id)
        as [c Hw]; [done|apply NoDup_nil_2|by intros x ?%elem_of_nil|simpl; lia|]. congruence. }
    split_and!; [| |intros x Hx; split|by right].
    + intros x Hx. apply reroot_grounded. left. by apply HR.
    + apply reroot_grounded. by right.
    + apply reroot_grounded. by left.
    + rewrite byID_reroot. destruct (byID t !! id); [|done]. case_decide; [done|].
      rewrite lookup_insert_ne; [done|]. by intros ->.
Qed.

Lemma detach_fold order : ∀ t R,
  (∀ x, x ∈ R → grounded (byID t) x) →
  let t' := (foldl detach_one (t, R) order).1 in
  (∀ x, x ∈ order → grounded (byID t') x) ∧
  (∀ x, grounded (byID t) x → grounded (byID t') x ∧ byID t' !! x = byID t !! x).
Proof.
  induction order as [|id order IH]; intros t R HR; [split; [by intros x ?%elem_of_nil|auto]|].
  cbn [foldl]. pose proof (detach_one_spec t R id HR) as Hd.
  destruct (detach_one (t, R) id) as [t1 R1]. destruct Hd as (HR1 & Hid & Hkeep & _).
  destruct (IH t1 R1 HR1) as [H1 H2]. split.
  - intros x [->|Hx]%elem_of_cons; [by apply H2|by apply H1].
  - intros x Hx. destruct (Hkeep x Hx) as [Hx1 E1]. destruct (H2 x Hx1) as [? E2].
    split; [done|congruence].
Qed.

(** ** The index of children *)

(** The list a node belongs to: its parent's if the parent exists, the root's
    otherwise. *)
Definition home (m : gmap string Node) (n : Node) : string :=
  if decide (n_ParentID n ≠ "" ∧ m !! n_ParentID n = None) then "" else n_ParentID n.

(** Every node of [known] is listed once, in its home, and nothing else is. *)
Definition index_ok (known : gset string) (t : Tree) : Prop :=
  ∀ p, NoDup (kids t p) ∧
    ∀ id, id ∈ kids t p ↔ id ∈ known ∧ ∃ n, byID t !! id = Some n ∧ home (byID t) n = p.

Lemma kids_add_child parent id t p :
  kids (add_child parent id t) p = kids t p ++ (if decide (p = parent) then [id] else []).
Proof.
  unfold add_child, kids. simpl. rewrite lookup_insert. case_decide; case_decide; subst; try done.
  by rewrite app_nil_r.
Qed.

Lemma index_ok_add known t id n :
  index_ok known t → id ∉ known → byID t !! id = Some n →
  index_ok ({[id]} ∪ known) (add_child (home (byID t) n) id t).
Proof.
  intros Hok Hni Hid p. destruct (Hok p) as [Hnd Hk]. rewrite kids_add_child. simpl. split.
  - apply NoDup_app. split_and!; [done| |by case_decide; [apply NoDup_singleton|apply NoDup_nil_2]].
    intros x Hx%Hk Hx'. case_decide; [|by apply elem_of_nil in Hx'].
    apply list_elem_of_singleton in Hx' as ->. by destruct Hx.
  - intros x. rewrite elem_of_app, Hk, elem_of_union, elem_of_singleton. split.
    + intros [(? & ?)|Hx]; [auto|]. case_decide; [|by apply elem_of_nil in Hx].
      apply list_elem_of_singleton in Hx as ->. split; [by left|]. subst. by exists n.
    + intros ([->|Hx] & n' & Hn' & Hh); [|left; eauto]. right. assert (n' = n) as -> by congruence.
      rewrite decide_True by done. by apply list_elem_of_singleton.
Qed.

Lemma attach_home t n :
  attach t n = add_child (home (byID t) n) (n_ID n)
    (if decide (n_ParentID n ≠ "" ∧ byID t !! n_ParentID n = None)
     then t <| Orphans := Orphans t ++ [n_ID n] |> else t).
Proof. unfold attach, home. by case_decide. Qed.

Lemma index_nodes_lookup nodes : ∀ m : gmap string Node,
  NoDup (n_ID <$> nodes) →
  (∀ n, n ∈ nodes → foldl (λ m n, <[n_ID n := n]> m) m nodes !! n_ID n = Some n) ∧
  (∀ id, id ∉ (n_ID <$> nodes) → foldl (λ m n, <[n_ID n := n]> m) m nodes !! id = m !! id).
Proof.
  induction nodes as [|n nodes IH]; intros m Hnd; [split; [by intros ? ?%elem_of_nil|done]|].
  apply NoDup_cons in Hnd as [Hni Hnd]. destruct (IH (<[n_ID n := n]> m) Hnd) as [IH1 IH2].
  cbn [foldl]. split.
  - intros n' [->|Hn']%elem_of_cons; [|by apply IH1]. rewrite IH2 by done. apply lookup_insert_eq.
  - intros id [Hne Hid]%not_elem_of_cons. rewrite IH2 by done. by rewrite lookup_insert_ne.
Qed.

Lemma dom_index_nodes nodes :
  NoDup (n_ID <$> nodes) → dom (index_nodes nodes) = list_to_set (n_ID <$> nodes).
Proof.
  intros Hnd. destruct (index_nodes_lookup nodes ∅ Hnd) as [Hin Hout].
  fold (index_nodes nodes) in Hin, Hout. apply set_eq. intros id.
  rewrite elem_of_dom, elem_of_list_to_set. split.
  - intros Hs. destruct (decide (id ∈ (n_ID <$> nodes))); [done|].
    rewrite Hout, lookup_empty in Hs by done. by destruct Hs.
  - intros (n & -> & Hn)%list_elem_of_fmap. rewrite Hin by done. by eexists.
Qed.

Lemma attach_fold nodes : ∀ known t,
  index_ok known t → NoDup (n_ID <$> nodes) → (∀ n, n ∈ nodes → n_ID n ∉ known) →
  (∀ n, n ∈ nodes → byID t !! n_ID n = Some n) →
  let t' := foldl attach t nodes in
  byID t' = byID t ∧ index_ok (list_to_set (n_ID <$> nodes) ∪ known) t'.
Proof.
  induction nodes as [|n nodes IH]; intros known t Hok Hnd Hnew Hin.
  { split; [done|]. simpl. by rewrite union_empty_l_L. }
  apply NoDup_cons in Hnd as [Hni Hnd]. cbn [foldl].
  assert (byID (attach t n) = byID t) as Eb by (unfold attach; by case_decide).
  assert (index_ok ({[n_ID n]} ∪ known) (attach t n)) as Hok1.
  { assert (n ∈ n :: nodes) as Hn by left. rewrite attach_home. case_decide;
      match goal with |- index_ok _ (add_child _ _ ?t1) =>
        exact (index_ok_add known t1 (n_ID n) n Hok (Hnew n Hn) (Hin n Hn)) end. }
  destruct (IH _ _ Hok1 Hnd) as [E1 E2].
  - intros n' Hn'. rewrite not_elem_of_union, not_elem_of_singleton. split.
    + intros E. apply Hni. rewrite <- E. by apply list_elem_of_fmap_2.
    + apply Hnew. by right.
  - intros n' Hn'. rewrite Eb. apply Hin. by right.
  - split; [by rewrite E1|]. rewrite fmap_cons, list_to_set_cons.
    by replace ({[n_ID n]} ∪ list_to_set (n_ID <$> nodes) ∪ known)
      with (list_to_set (n_ID <$> nodes) ∪ ({[n_ID n]} ∪ known) : gset string) by set_solver.
Qed.

Lemma remove_first_elem id l x : NoDup l → x ∈ remove_first id l ↔ x ∈ l ∧ x ≠ id.
Proof.
  induction 1 as [|y l Hni Hnd IH]; simpl; [rewrite elem_of_nil; tauto|].
  case_decide as E; [subst y|]; rewrite !elem_of_cons, ?IH; naive_solver.
Qed.
Lemma remove_first_NoDup id l : NoDup l → NoDup (remove_first id l).
Proof.
  induction 1 as [|y l Hni Hnd IH]; simpl; [apply NoDup_nil_2|]. case_decide; [done|].
  apply NoDup_cons. rewrite remove_first_elem by done. naive_solver.
Qed.

Lemma ungrounded_parent m id :
  ¬ grounded m id → ∃ n, m !! id = Some n ∧ n_ParentID n ≠ "" ∧ is_Some (m !! n_ParentID n).
Proof.
  intros Hg. destruct (m !! id) as [n|] eqn:E; [|by destruct Hg; apply grounded_missing].
  exists n. split; [done|]. split.
  - intros Hp. apply Hg. eapply grounded_step; [done|]. rewrite Hp. constructor.
  - destruct (m !! n_ParentID n) eqn:Ep; [done|]. destruct Hg. eapply grounded_step; [done|].
    by apply grounded_missing.
Qed.

Lemma kids_reroot id t n :
  byID t !! id = Some n → n_ParentID n ≠ "" →
  ∀ p, kids (reroot id t) p =
    (if decide (p = n_ParentID n) then remove_first id (kids t p) else kids t p)
    ++ (if decide (p = "") then [id] else []).
Proof.
  intros Hid Hp p. unfold reroot. rewrite Hid, decide_False by done.
  assert (∀ id l, id ∉ l → remove_first id l = l) as Hrm.
  { clear. induction l as [|y l IH]; [done|]. intros [? ?]%not_elem_of_cons. simpl.
    rewrite decide_False by done. by rewrite IH. }
  change (kids (?a <| Orphans := _ |>) p) with (kids a p).
  case_decide as Hin; simpl; rewrite kids_add_child; f_equal; unfold kids; simpl.
  - rewrite lookup_insert. unfold kids in *. case_decide; case_decide; subst; done.
  - case_decide; [|done]. subst. symmetry. by apply Hrm.
Qed.

Lemma index_ok_reroot known id t :
  ¬ grounded (byID t) id → id ∈ known → index_ok known t → index_ok known (reroot id t).
Proof.
  intros Hg Hkn Hok. destruct (ungrounded_parent _ _ Hg) as (n & Hid & Hp & Hsome).
  assert (home (byID t) n = n_ParentID n) as Hhome.
  { unfold home. rewrite decide_False; [done|]. intros [_ ?]. destruct Hsome; congruence. }
  assert (∀ n', home (byID (reroot id t)) n' = home (byID t) n') as Hh.
  { intros n'. unfold home. rewrite byID_reroot, Hid, (decide_False (P := n_ParentID n = "")) by done.
    apply decide_ext. rewrite lookup_insert_None. split; [tauto|].
    intros [? Hn]. split; [done|]. split; [done|]. intros ->. congruence. }
  intros p. destruct (Hok p) as [Hnd Hk]. rewrite (kids_reroot id t n) by done. split.
  - apply NoDup_app. split_and!.
    + case_decide; [by apply remove_first_NoDup|done].
    + intros x Hx Hx'. destruct (decide (p = "")) as [->|]; [|by apply elem_of_nil in Hx'].
      apply list_elem_of_singleton in Hx' as ->. rewrite decide_False in Hx by done.
      apply Hk in Hx as (_ & n' & Hn' & Hh'). congruence.
    + case_decide; [apply NoDup_singleton|apply NoDup_nil_2].
  - intros x. rewrite elem_of_app. setoid_rewrite Hh.
    rewrite byID_reroot, Hid, (decide_False (P := n_ParentID n = "")) by done.
    destruct (decide (x = id)) as [->|Hne].
    + rewrite lookup_insert_eq. split.
      * intros [Hx|Hx].
        -- case_decide; [apply remove_first_elem in Hx as [_ ?]; done|].
           apply Hk in Hx as (_ & n' & Hn' & Hh'). congruence.
        -- destruct (decide (p = "")) as [->|]; [|by apply elem_of_nil in Hx].
           split; [done|]. eexists. split; [done|]. unfold home. by rewrite decide_False by naive_solver.
      * intros (_ & n' & [= <-] & Hh'). right.
        change (home (byID t) (n <| n_ParentID := "" |>)) with "" in Hh'. subst p. rewrite decide_True by done.
        by apply list_elem_of_singleton.
    + rewrite lookup_insert_ne by done. rewrite <- Hk.
      assert (x ∈ (if decide (p = "") then [id] else []) ↔ False) as ->.
      { case_decide; [rewrite list_elem_of_singleton|rewrite elem_of_nil]; tauto. }
      case_decide; [rewrite remove_first_elem by done|]; tauto.
Qed.

(** ** Descendants: breadth-first search of the index *)

Definition child_of (t : Tree) (p c : string) : Prop := c ∈ kids t p.

Lemma frontier_pass_spec t frontier : ∀ seen out next,
  ∃ new, frontier_pass t frontier seen out next =
      (list_to_set new ∪ seen, out ++ new, next ++ (new ≫= kids t)) ∧
    NoDup new ∧ (∀ x, x ∈ new → x ∈ frontier ∧ x ∉ seen) ∧
    (∀ x, x ∈ frontier → x ∈ seen ∨ x ∈ new).
Proof.
  induction frontier as [|id rest IH]; intros seen out next.
  { exists []. simpl. rewrite !app_nil_r, union_empty_l_L. split_and!; [done|apply NoDup_nil_2|..];
      by intros x ?%elem_of_nil. }
  cbn [frontier_pass]. case_decide as Hin.
  - destruct (IH seen out next) as (new & -> & Hnd & H1 & H2). exists new. split_and!; [done..| |].
    + intros x Hx. destruct (H1 x Hx). split; [by right|done].
    + intros x [->|Hx]%elem_of_cons; auto.
  - destruct (IH ({[id]} ∪ seen) (out ++ [id]) (next ++ kids t id)) as (new & -> & Hnd & H1 & H2).
    exists (id :: new). split_and!.
    + rewrite list_to_set_cons, <- !app_assoc. simpl. do 2 f_equal. set_solver.
    + apply NoDup_cons. split; [|done]. intros Hi. apply H1 in Hi as [_ Hi]. set_solver.
    + intros x [->|Hx]%elem_of_cons; [split; [by left|done]|].
      destruct (H1 x Hx) as [? Hn]. split; [by right|set_solver].
    + intros x [->|Hx]%elem_of_cons; [right; by left|].
      destruct (H2 x Hx) as [[?%elem_of_singleton|?]%elem_of_union|?]; [subst; right; by left|by left|].
      right. by right.
Qed.

Lemma tc_child_inv t a b : tc (child_of t) a b → ∃ p, b ∈ kids t p.
Proof. induction 1 as [a b H|a b c _ _ IH]; [by exists a|done]. Qed.

(** The search so far: what is out is reachable, and what is reachable is seen
    or behind the frontier. *)
Record search_ok (t : Tree) (p : string) (frontier : list string) (seen : gset string)
    (out : list string) : Prop := {
  so_seen : seen = {[p]} ∪ list_to_set out;
  so_nodup : NoDup out;
  so_not_p : p ∉ out;
  so_out : ∀ x, x ∈ out → tc (child_of t) p x;
  so_frontier : ∀ x, x ∈ frontier → tc (child_of t) p x;
  so_closed : ∀ x y, x ∈ seen → child_of t x y → y ∈ seen ∨ y ∈ frontier }.

Lemma search_step t p frontier seen out new :
  search_ok t p frontier seen out → NoDup new → (∀ x, x ∈ new → x ∈ frontier ∧ x ∉ seen) →
  (∀ x, x ∈ frontier → x ∈ seen ∨ x ∈ new) →
  search_ok t p (new ≫= kids t) (list_to_set new ∪ seen) (out ++ new).
Proof.
  intros [-> Hnd Hp Ho Hf Hcl] Hnn H1 H2. split.
  - set_solver.
  - apply NoDup_app. split_and!; [done| |done]. intros x Hx Hx'. apply H1 in Hx' as [_ Hx']. set_solver.
  - intros [Hx|Hx]%elem_of_app; [done|]. apply H1 in Hx as [_ Hx]. set_solver.
  - intros x [Hx|Hx]%elem_of_app; [by apply Ho|]. apply Hf. by apply H1.
  - intros y (x & Hy & Hx)%list_elem_of_bind. eapply tc_r; [apply Hf, H1, Hx|done].
  - intros x y Hx Hy. apply elem_of_union in Hx as [Hx%elem_of_list_to_set|Hx].
    + right. apply list_elem_of_bind. eauto.
    + destruct (Hcl x y Hx Hy) as [?|Hyf]; [set_solver|]. destruct (H2 y Hyf); set_solver.
Qed.

Lemma elem_of_listed t p x : x ∈ kids t p → x ∈ listed t.
Proof.
  unfold listed, kids. generalize (children t). intros m. revert p.
  induction m as [|k l m Hk IH] using map_ind; intros p; [rewrite lookup_empty; simpl; by intros ?%elem_of_nil|].
  rewrite map_fold_insert_L; [|set_solver|done].
  rewrite lookup_insert. case_decide; simpl; [set_solver|]. intros Hx. apply IH in Hx. set_solver.
Qed.

Lemma descend_spec t p fuel : ∀ frontier seen out,
  search_ok t p frontier seen out → (∀ x, x ∈ frontier → x ∈ listed t) →
  (size (listed t ∖ seen) + (if decide (frontier = []) then 0 else 1) < fuel)%nat →
  ∃ seen', search_ok t p [] seen' (descend fuel t frontier seen out).
Proof.
  induction fuel as [|fuel IH]; intros frontier seen out Hok Hl Hf; [lia|].
  cbn [descend]. destruct frontier as [|x0 fr]; [by exists seen|]. set (frontier := x0 :: fr) in *.
  rewrite decide_False in Hf by done.
  destruct (frontier_pass_spec t frontier seen out []) as (new & -> & Hnd & H1 & H2). simpl app.
  pose proof (search_step _ _ _ _ _ _ Hok Hnd H1 H2) as Hok'. apply IH; [exact Hok'| |].
  - intros y (x & Hy & _)%list_elem_of_bind. by eapply elem_of_listed.
  - destruct new as [|n new].
    + simpl in *. rewrite union_empty_l_L. lia.
    + assert (size (listed t ∖ (list_to_set (n :: new) ∪ seen)) < size (listed t ∖ seen))%nat.
      { apply subset_size. destruct (H1 n) as [Hn Hs]; [by left|]. apply Hl in Hn.
        split; [set_solver|]. intros Hsub. specialize (Hsub n). set_solver. }
      case_decide; lia.
Qed.

Lemma Descendants_search t p : ∃ seen, search_ok t p [] seen (Descendants p t).
Proof.
  unfold Descendants. apply descend_spec.
  - split.
    + set_solver.
    + apply NoDup_nil_2.
    + apply not_elem_of_nil.
    + by intros x ?%elem_of_nil.
    + intros x Hx. by apply tc_once.
    + intros x y ->%elem_of_singleton Hy. by right.
  - intros x. apply elem_of_listed.
  - assert (size (listed t ∖ {[p]}) ≤ size (listed t))%nat by (apply subseteq_size; set_solver).
    case_decide; lia.
Qed.

(** [Descendants] terminates and lists exactly the identifiers reachable from
    the given parent through one or more child links, the parent itself left
    out, each once, whatever the index (cyclic ones included). *)
Theorem Descendants_spec p t :
  NoDup (Descendants p t) ∧
  ∀ x, x ∈ Descendants p t ↔ x ≠ p ∧ tc (child_of t) p x.
Proof.
  destruct (Descendants_search t p) as [seen [Hseen Hnd Hp Ho _ Hcl]]. split; [done|].
  intros x. split.
  - intros Hx. split; [by intros ->|by apply Ho].
  - intros [Hne Ht].
    assert (∀ a b, tc (child_of t) a b → a ∈ seen → b ∈ seen) as Hall.
    { clear Ht. induction 1 as [a b Hab|a b c Hab _ IH]; intros Ha.
      - by destruct (Hcl a b Ha Hab) as [|?%elem_of_nil].
      - apply IH. by destruct (Hcl a b Ha Hab) as [|?%elem_of_nil]. }
    apply Hall in Ht; [|subst; set_solver]. subst seen. set_solver.
Qed.

(** ** The tree [New] builds *)

Section new.
Context `{U : Unicode}.

Lemma kids_sorted t p : kids (sort_children t) p ≡ₚ kids t p.
Proof using Type.
  unfold kids, sort_children. simpl. rewrite lookup_fmap. destruct (children t !! p); simpl; [|done].
  apply merge_sort_Permutation.
Qed.

Lemma detach_index known order : ∀ t R,
  (∀ x, x ∈ R → grounded (byID t) x) → dom (byID t) = known → index_ok known t →
  let t' := (foldl detach_one (t, R) order).1 in
  dom (byID t') = known ∧ index_ok known t'.
Proof using Type.
  induction order as [|id order IH]; intros t R HR Hdom Hok; [done|]. cbn [foldl].
  pose proof (detach_one_spec t R id HR) as Hd. destruct (detach_one (t, R) id) as [t1 R1].
  destruct Hd as (HR1 & _ & _ & [->|[Hg ->]]); [by apply IH|].
  destruct (ungrounded_parent _ _ Hg) as (n & Hn & Hp & _). apply IH; [done| |].
  - rewrite byID_reroot, Hn, decide_False by done. rewrite dom_insert_lookup_L; [done|by eexists].
  - apply index_ok_reroot; [done| |done]. rewrite <- Hdom. by eapply elem_of_dom_2.
Qed.

(** Walking up from a grounded node, the index leads back down to it. *)
Lemma grounded_descends known t id :
  index_ok known t → dom (byID t) = known → grounded (byID t) id → is_Some (byID t !! id) →
  tc (child_of t) "" id ∨ id = "".
Proof using Type.
  intros Hok Hdom. induction 1 as [|id Hn|id n Hn Hg IH]; intros Hs; [by right| |].
  - destruct Hs; congruence.
  - assert (id ∈ kids t (home (byID t) n)) as Hk.
    { apply Hok. split; [rewrite <- Hdom; by eapply elem_of_dom_2|eauto]. }
    left. unfold home in Hk. case_decide as Hc; [by apply tc_once|].
    destruct (decide (n_ParentID n = "")) as [E|Hne]; [rewrite E in Hk; by apply tc_once|].
    destruct IH as [IH|IH]; [|by eapply tc_r|done].
    destruct (byID t !! n_ParentID n) eqn:E; [done|]. tauto.
Qed.

(** For nodes with distinct identifiers and whatever order the map of nodes is
    iterated in, [New] builds a tree: following parents from any node ends; a
    node none of whose ancestors lies on a cycle keeps its record; the index
    lists every node exactly once, under its parent if that exists and under
    the root otherwise; so every node is a descendant of the root. *)
Theorem New_spec order nodes :
  NoDup (n_ID <$> nodes) → (∀ n, n ∈ nodes → n_ID n ∈ order) →
  let t := New order nodes in
  (∀ id, grounded (byID t) id) ∧
  (∀ id, is_Some (byID t !! id) ↔ id ∈ (n_ID <$> nodes)) ∧
  (∀ n, n ∈ nodes → grounded (index_nodes nodes) (n_ID n) → byID t !! n_ID n = Some n) ∧
  (∀ p, NoDup (kids t p) ∧
     ∀ id, id ∈ kids t p ↔ ∃ n, byID t !! id = Some n ∧ home (byID t) n = p) ∧
  (∀ id, id ∈ Descendants "" t ↔ id ≠ "" ∧ id ∈ (n_ID <$> nodes)).
Proof using Type.
  intros Hnd Hord. destruct (index_nodes_lookup nodes ∅ Hnd) as [Hin Hout].
  fold (index_nodes nodes) in Hin, Hout. set (known := list_to_set (n_ID <$> nodes) : gset string).
  pose proof (dom_index_nodes nodes Hnd) as Hdom0. fold known in Hdom0.
  destruct (attach_fold nodes ∅ (mkTree (index_nodes nodes) ∅ [])) as [Eb Hok]; try done.
  { intros p. split; [apply NoDup_nil_2|]. intros id. unfold kids. simpl. rewrite lookup_empty. set_solver. }
  rewrite union_empty_r_L in Hok. fold known in Hok. simpl in Eb.
  set (t0 := foldl attach _ nodes) in *.
  assert (∀ x, x ∈ (∅ : gset string) → grounded (byID t0) x) as HR by set_solver.
  destruct (detach_fold order t0 ∅ HR) as [Hall Hkeep].
  destruct (detach_index known order t0 ∅ HR) as [Hdom Hok']; [by rewrite Eb|done|].
  fold (detachCycles order t0) in Hall, Hkeep, Hdom, Hok'. set (t1 := detachCycles order t0) in *.
  assert (New order nodes = sort_children t1) as -> by done. cbv zeta.
  change (byID (sort_children t1)) with (byID t1).
  assert (∀ id, is_Some (byID t1 !! id) ↔ id ∈ (n_ID <$> nodes)) as Hids.
  { intros id. unfold known in Hdom. by rewrite <- elem_of_dom, Hdom, elem_of_list_to_set. }
  assert (∀ id, grounded (byID t1) id) as Hg.
  { intros id. destruct (byID t1 !! id) as [n0|] eqn:E; [|by apply grounded_missing]. apply Hall.
    assert (id ∈ (n_ID <$> nodes)) as (n & -> & Hn)%list_elem_of_fmap by (apply Hids; by eexists).
    by apply Hord. }
  assert (index_ok known (sort_children t1)) as Hok1.
  { intros p. destruct (Hok' p) as [H1 H2]. rewrite kids_sorted. split; [done|].
    intros id. rewrite kids_sorted. apply H2. }
  split_and!; try done.
  - intros n Hn Hgn. rewrite <- Eb in Hgn. destruct (Hkeep _ Hgn) as [_ ->]. rewrite Eb. by apply Hin.
  - intros p. destruct (Hok1 p) as [H1 H2]. split; [done|]. intros id. rewrite H2.
    change (byID (sort_children t1)) with (byID t1). split; [naive_solver|].
    intros (n & Hn & ?). split; [|by exists n]. rewrite <- Hdom. by eapply elem_of_dom_2.
  - intros id. destruct (Descendants_spec "" (sort_children t1)) as [_ Hd]. rewrite Hd. split.
    + intros [Hne Ht]. split; [done|]. destruct (tc_child_inv _ _ _ Ht) as [p Hp].
      apply Hok1 in Hp as [Hp _]. unfold known in Hp. by apply elem_of_list_to_set in Hp.
    + intros [Hne Hid]. split; [done|].
      destruct (grounded_descends known (sort_children t1) id) as [|]; try done. by apply Hids.
Qed.
End new.

(** ** Concrete trees *)

#[export] Instance toy_unicode : Unicode := {|
  norm_NFC s := s; cases_Lower s := s; strings_ToLower s := s |}.

Definition ex_tnode (id parent : string) (dir : bool) : Node :=
  mkNode id id parent dir 0 0 0 false false.
(** [a] and [b] are each other's parent, [c] hangs below them, [f] is in [d], and
    the parent of [o] does not exist. *)
Definition ex_nodes : list Node :=
  [ex_tnode "a" "b" true; ex_tnode "b" "a" true; ex_tnode "c" "a" false;
   ex_tnode "d" "" true; ex_tnode "f" "d" false; ex_tnode "o" "gone" false].

Lemma New_spec_witness :
  let t := New ["a"; "b"; "c"; "d"; "f"; "o"] ex_nodes in
  (∀ id, grounded (byID t) id) ∧ Orphans t = ["o"; "a"] ∧ PathOf "c" t = "a/c" ∧
  Descendants "" t = ["a"; "d"; "o"; "b"; "c"; "f"].
Proof.
  destruct (New_spec ["a"; "b"; "c"; "d"; "f"; "o"] ex_nodes) as [H _].
  - by apply (bool_decide_unpack _).
  - intros n Hn. unfold ex_nodes in Hn. rewrite !elem_of_cons, elem_of_nil in Hn.
    destruct Hn as [->|[->|[->|[->|[->|[->|[]]]]]]]; by apply (bool_decide_unpack _).
  - split; [exact H|]. vm_compute. repeat split; reflexivity.
Defined.

(** Which nodes are detached depends on the order in which the Go map is iterated:
    visited first, a node below a cycle is detached from its parent; visited
    after the cycle was cut, it stays. *)
Theorem New_order_dependent :
  Orphans (New ["a"; "b"; "c"; "d"; "f"; "o"] ex_nodes) = ["o"; "a"] ∧
  Orphans (New ["c"; "a"; "b"; "d"; "f"; "o"] ex_nodes) = ["o"; "c"; "a"].
Proof. by vm_compute. Qed.

(** An orphan is listed under the root and [Resolve] finds it there, but its
    parent field is kept and [PathOf] gives no path for it. *)
Theorem PathOf_orphan :
  let t := New ["a"; "b"; "c"; "d"; "f"; "o"] ex_nodes in
  Resolve String.eqb "o" t = Ok (Some (ex_tnode "o" "gone" false)) ∧ PathOf "o" t = "".
Proof. by vm_compute. Qed.
