(* ===== verification/LocalFs.v ===== *)
(** * The local side of a sync folder

    [internal/mount/syncer/local_path.go], [local_path_unix.go] and the helpers
    of [downloader.go], [watcher.go] and [writeback.go] that look at the sync
    folder: which local paths may be touched, which names are ignored, the digest
    of a local file.  Paths are those of a Unix build. *)
From S2P Require Import Prelude GoLib ApiErrors Crypto Names.
Local Open Scope Z_scope.

(** ** The local file system

    What [os.Lstat] sees under an absolute, clean path.  A link is never followed:
    every path the code opens has passed [safeSyncPath]. *)
Inductive fs_entry : Type :=
| FsFile (content : bytes) (mtime : Z)
| FsDir (mtime : Z)
| FsLink
| FsDenied.
Abbreviation LocalFs := (gmap string fs_entry).

(** The paths above [p]: what comes before each of its slashes. *)
Fixpoint ancestors (upto p : string) : list string :=
  match p with
  | String.EmptyString => []
  | String.String a p' =>
      (if decide (a = slash ∧ upto ≠ "") then [upto] else []) ++ ancestors (upto ^^ String.String a "") p'
  end.
(** A path through a file: [ENOTDIR]. *)
Definition under_file (fs : LocalFs) (p : string) : bool :=
  existsb (λ q, match fs !! q with Some (FsFile _ _) => true | _ => false end) (ancestors "" p).

Definition os_Lstat (fs : LocalFs) (p : string) : result error fs_entry :=
  match fs !! p with
  | None => Err (if under_file fs p then ErrText "not a directory" else ErrSentinel FsErrNotExist)
  | Some FsDenied => Err (ErrSentinel FsErrPermission)
  | Some e => Ok e
  end.
(** [os.IsNotExist] of such an error. *)
Definition IsNotExist (e : error) : bool := bool_decide (e = ErrSentinel FsErrNotExist).

Definition isLocalLink (info : fs_entry) : bool :=
  match info with FsLink => true | _ => false end.

(** ** filepath.Rel *)

Definition strip_root (p : string) : string :=
  match p with
  | String.String a p' => if decide (a = slash) then p' else p
  | String.EmptyString => p
  end.
(** The elements of a clean path. *)
Definition path_elems (p : string) : list string :=
  let q := strip_root p in if decide (q = "") then [] else split_on slash q.

Fixpoint drop_common (b t : list string) : list string * list string :=
  match b, t with
  | x :: b', y :: t' => if decide (x = y) then drop_common b' t' else (b, t)
  | _, _ => (b, t)
  end.

Definition filepath_Rel (base targ : string) : option string :=
  let base := path_Clean base in
  let targ := path_Clean targ in
  if decide (targ = base) then Some "." else
  let base := if decide (base = ".") then "" else base in
  if decide (is_rooted base ≠ is_rooted targ) then None else
  let '(b, t) := drop_common (path_elems base) (path_elems targ) in
  if decide (head b = Some "..") then None
  else Some (join_with "/" (((λ _, "..") <$> b) ++ t)).

(** ** Paths that may be touched *)

Fixpoint links_on_way (fs : LocalFs) (current : string) (parts : list string) : bool :=
  match parts with
  | [] => true
  | part :: rest =>
      let current := if decide (part = "") then current else path_Join current part in
      match os_Lstat fs current with
      | Err e => IsNotExist e
      | Ok info => if isLocalLink info then false else links_on_way fs current rest
      end
  end.

Definition safeSyncPath (fs : LocalFs) (root localPath : string) : bool :=
  match filepath_Rel root localPath with
  | None => false
  | Some rel =>
      if decide (rel = ".." ∨ has_prefix "../" rel = true) then false
      else links_on_way fs root ("" :: split_on slash rel)
  end.

(** [WritebackProcessor.localPath]. *)
Definition localPath (fs : LocalFs) (syncDir RemoteBase remotePath : string) : option string :=
  if decide (syncDir = "" ∨ remotePath = "") then None else
  let rel := if decide (RemoteBase ≠ "") then trim_prefix (RemoteBase ^^ "/") remotePath
             else remotePath in
  let p := path_Join syncDir rel in
  if safeSyncPath fs syncDir p then Some p else None.

(** ** Ignored names *)

Definition ignoredNames : list string := [".DS_Store"; "Thumbs.db"; "desktop.ini"].
Definition ignoredPrefixes : list string := ["~$"; ".pig"].
Definition ignoredSuffixes : list string := [".swp"; ".tmp"; ".crdownload"; ".part"].

(** [strings.HasSuffix]. *)
Fixpoint has_suffix (suf s : string) : bool :=
  bool_decide (s = suf) ||
  match s with String.String _ s' => has_suffix suf s' | String.EmptyString => false end.

Definition shouldIgnore (name : string) : bool :=
  if decide (name ∈ ignoredNames) then true
  else if existsb (λ p, has_prefix p name) ignoredPrefixes then true
  else if existsb (λ p, has_suffix p name) ignoredSuffixes then true
  else has_prefix "." name && bool_decide (name ≠ ".") && bool_decide (name ≠ "..").

(** ** Local content *)

Section hashing.
Context `{SH : Sha256}.

(** A directory can be opened but not read. *)
Definition hashLocalFile (fs : LocalFs) (p : string) : result error string :=
  match os_Lstat fs p with
  | Err e => Err e
  | Ok (FsFile content _) => Ok (sha256_hex content)
  | Ok _ => Err (ErrText "is a directory")
  end.
End hashing.

(** ** Clean absolute paths *)

(** An element of a clean absolute path. *)
Definition name_ok (x : string) : Prop :=
  x ≠ "" ∧ x ≠ "." ∧ x ≠ ".." ∧ contains_char slash x = false.
Definition abs (es : list string) : string := String.String slash (join_with "/" es).

Lemma name_ok_no_slash es :
  Forall name_ok es → Forall (λ x, contains_char slash x = false) es.
Proof. intros H. eapply Forall_impl; [exact H|]. by intros x (_ & _ & _ & ?). Qed.

Lemma clean_step_ok es stack :
  Forall name_ok es → foldl (clean_step true) stack es = reverse es ++ stack.
Proof.
  intros H. revert stack. induction H as [|x l (Hx & Hd & Hdd & _) Hl IH]; intros stack; [done|].
  simpl. unfold clean_step at 2. rewrite decide_False, decide_False by naive_solver.
  by rewrite IH, reverse_cons, <- app_assoc.
Qed.

Lemma clean_elems_ok es : Forall name_ok es → clean_elems true es = es.
Proof.
  intros H. unfold clean_elems. by rewrite clean_step_ok, app_nil_r, reverse_involutive.
Qed.

(** What [path.Clean] keeps of a rooted path is made of proper names. *)
Lemma clean_stack_ok es stack :
  Forall (λ x, contains_char slash x = false) es → Forall name_ok stack →
  Forall name_ok (foldl (clean_step true) stack es).
Proof.
  intros H. revert stack. induction H as [|x l Hx Hl IH]; intros stack Hs; [done|].
  simpl. apply IH. unfold clean_step. destruct (decide (x = "" ∨ x = ".")) as [|H1]; [done|].
  destruct (decide (x = "..")) as [|H2].
  - destruct Hs as [|y s Hy Hs]; [done|].
    destruct Hy as (? & ? & ? & ?). by rewrite decide_False.
  - constructor; [|done]. unfold name_ok. naive_solver.
Qed.

Lemma split_abs l :
  l ≠ [] → Forall (λ x, contains_char slash x = false) l →
  split_on slash (abs l) = "" :: l.
Proof.
  intros Hne Hf. unfold abs. simpl. by rewrite split_on_join.
Qed.

Lemma path_Clean_rooted l :
  l ≠ [] → Forall (λ x, contains_char slash x = false) l →
  path_Clean (abs l) = abs (clean_elems true l).
Proof. intros. unfold path_Clean. by rewrite split_abs. Qed.

Lemma path_Clean_abs es : Forall name_ok es → path_Clean (abs es) = abs es.
Proof.
  intros Hes. destruct es as [|x es]; [done|].
  rewrite path_Clean_rooted by (done || by apply name_ok_no_slash). by rewrite clean_elems_ok.
Qed.

Lemma clean_rooted p :
  is_rooted p = true → ∃ es, Forall name_ok es ∧ path_Clean p = abs es.
Proof.
  intros Hr. unfold path_Clean. rewrite Hr. eexists. split; [|reflexivity].
  unfold clean_elems. apply Forall_reverse, clean_stack_ok; [|constructor].
  apply split_on_Forall.
Qed.

Lemma join_eq_nil es : Forall name_ok es → join_with "/" es = "" → es = [].
Proof.
  intros [|x l (Hx & _) _]; [done|]. destruct x; [done|]. by destruct l.
Qed.

Lemma path_elems_abs es : Forall name_ok es → path_elems (abs es) = es.
Proof.
  intros Hes. unfold path_elems, abs. cbn [strip_root]. rewrite (decide_True (P := slash = slash)) by done.
  case_decide as E; [symmetry; by apply join_eq_nil|].
  apply split_on_join; [by intros ->|by apply name_ok_no_slash].
Qed.

Lemma abs_inj es1 es2 : Forall name_ok es1 → Forall name_ok es2 → abs es1 = abs es2 → es1 = es2.
Proof. intros H1 H2 E%(f_equal path_elems). by rewrite !path_elems_abs in E. Qed.

Lemma path_Join_abs es x :
  Forall name_ok es → name_ok x → path_Join (abs es) x = abs (es ++ [x]).
Proof.
  intros Hes Hx. unfold path_Join.
  rewrite !filter_cons_True by (done || apply Hx). rewrite filter_nil.
  assert (∀ l, Forall (λ y, contains_char slash y = false) l → l ≠ [] →
    clean_elems true l = es ++ [x] →
    path_Clean (abs l) = abs (es ++ [x])) as Hl.
  { intros l ?? <-. by apply path_Clean_rooted. }
  destruct es as [|y es].
  - apply (Hl ["" ; x]); [repeat constructor; apply Hx|done|].
    change (clean_elems true [x] = [x]). apply (clean_elems_ok [x]). constructor; [exact Hx|constructor].
  - change (join_with "/" [abs (y :: es); x])
      with (String.String slash (join_with "/" (y :: es) ^^ "/" ^^ x)).
    rewrite <- join_snoc by done. apply (Hl ((y :: es) ++ [x])); [|done|].
    + apply name_ok_no_slash, Forall_app. split; [done|]. by constructor.
    + apply clean_elems_ok, Forall_app. split; [done|]. by constructor.
Qed.

Lemma path_Join_dot es : Forall name_ok es → path_Join (abs es) "." = abs es.
Proof.
  intros Hes. destruct es as [|y es]; [done|]. unfold path_Join.
  rewrite !filter_cons_True by done. rewrite filter_nil.
  change (join_with "/" [abs (y :: es); "."])
    with (String.String slash (join_with "/" (y :: es) ^^ "/" ^^ ".")).
  rewrite <- join_snoc by done. change (path_Clean (abs ((y :: es) ++ ["."])) = abs (y :: es)).
  rewrite path_Clean_rooted; [|done|].
  2: { apply Forall_app. split; [by apply name_ok_no_slash|by repeat constructor]. }
  unfold clean_elems. rewrite foldl_app, (clean_step_ok (y :: es)) by done.
  rewrite app_nil_r. change (foldl (clean_step true) (reverse (y :: es)) ["."]) with (reverse (y :: es)).
  by rewrite reverse_involutive.
Qed.

(** ** The relative path and the walk *)

Lemma drop_common_spec b t b' t' :
  drop_common b t = (b', t') →
  ∃ c, b = c ++ b' ∧ t = c ++ t' ∧ (b' = [] ∨ t' = [] ∨ head b' ≠ head t').
Proof.
  revert t. induction b as [|x b IH]; intros t; simpl.
  { intros [= <- <-]. exists []. auto. }
  destruct t as [|y t]; [intros [= <- <-]; exists []; auto|].
  case_decide as E.
  - subst y. intros (c & -> & -> & ?)%IH. by exists (x :: c).
  - intros [= <- <-]. exists []. split_and!; [done..|]. do 2 right. simpl. congruence.
Qed.

(** A relative path stays relative. *)
Definition rel_elem (x : string) : Prop := contains_char slash x = false ∧ x ≠ "".

Lemma clean_step_rel es stack :
  Forall (λ x, contains_char slash x = false) es → Forall rel_elem stack →
  Forall rel_elem (foldl (clean_step false) stack es).
Proof.
  intros H. revert stack. induction H as [|x l Hx Hl IH]; intros stack Hst; [done|].
  simpl. apply IH. unfold clean_step. destruct (decide (x = "" ∨ x = ".")) as [|H1]; [done|].
  assert (rel_elem ".." ∧ rel_elem x) as [Hdd Hx'] by (unfold rel_elem; naive_solver).
  destruct (decide (x = "..")) as [|H2]; [|by constructor].
  destruct Hst; [by apply Forall_singleton|]. case_decide; [|done]. by repeat (constructor; [assumption|]).
Qed.

Lemma path_Clean_relative p : is_rooted p = false → is_rooted (path_Clean p) = false.
Proof.
  intros Hp. unfold path_Clean. rewrite Hp. case_decide as E; [done|].
  revert E. unfold clean_elems.
  pose proof (clean_step_rel _ [] (split_on_Forall slash p) (Forall_nil_2 _)) as Hf.
  apply Forall_reverse in Hf. destruct Hf as [|x l [Hx Hne] _]; [done|]. intros _.
  destruct x as [|b x]; [done|]. simpl in Hx. apply orb_false_iff in Hx as [Hx _].
  destruct l; exact Hx.
Qed.

Lemma filepath_Rel_abs bs p :
  Forall name_ok bs →
  match filepath_Rel (abs bs) p with
  | None => is_rooted (path_Clean p) = false
  | Some rel =>
      ∃ c b t, bs = c ++ b ∧ Forall name_ok t ∧ path_Clean p = abs (c ++ t) ∧
        (b = [] ∨ t = [] ∨ head b ≠ head t) ∧
        rel = if decide (b = [] ∧ t = []) then "."
              else join_with "/" (((λ _, "..") <$> b) ++ t)
  end.
Proof.
  intros Hb. unfold filepath_Rel. rewrite path_Clean_abs by done.
  destruct (decide (path_Clean p = abs bs)) as [->|Hne].
  { exists bs, [], []. rewrite app_nil_r, decide_True by done. split_and!; auto. }
  rewrite (decide_False (P := abs bs = ".")) by done.
  destruct (is_rooted (path_Clean p)) eqn:Hr; [|done].
  rewrite decide_False by (by intros []).
  assert (is_rooted p = true) as Hp.
  { apply not_false_iff_true. intros Hp%path_Clean_relative. congruence. }
  destruct (clean_rooted p Hp) as (es & Hes & E). rewrite E in *.
  rewrite !path_elems_abs by done.
  destruct (drop_common bs es) as [b t] eqn:Ed.
  apply drop_common_spec in Ed as (c & -> & -> & Hh).
  apply Forall_app in Hb as [_ Hb]. apply Forall_app in Hes as [_ Ht].
  rewrite decide_False.
  2: { destruct Hb as [|x l (_ & _ & ? & _) _]; simpl; congruence. }
  exists c, b, t. rewrite decide_False; [by split_and!|].
  intros [-> ->]. done.
Qed.

Lemma append_empty_r d : d ^^ "" = d.
Proof. induction d as [|a d IH]; [done|]. exact (f_equal (String.String a) IH). Qed.

(** The paths above [abs es] are its own prefixes. *)
Lemma ancestors_app d s t :
  ancestors d (s ^^ t) = ancestors d s ++ ancestors (d ^^ s) t.
Proof.
  revert d. induction s as [|a s IH]; intros d.
  - by rewrite append_empty_r.
  - change (String.String a s ^^ t) with (String.String a (s ^^ t)). cbn [ancestors].
    rewrite IH, <- app_assoc. do 3 f_equal. exact (append_assoc d (String.String a "") s).
Qed.

Lemma ancestors_name d x : contains_char slash x = false → ancestors d x = [].
Proof.
  revert d. induction x as [|a x IH]; intros d; [done|]. intros [Ha Hx]%orb_false_iff.
  cbn [ancestors]. rewrite decide_False, IH by (done || intros [-> _]; by vm_compute in Ha). done.
Qed.

Lemma abs_snoc es x : es ≠ [] → abs (es ++ [x]) = abs es ^^ String.String slash x.
Proof. intros. unfold abs. by rewrite join_snoc. Qed.

Lemma ancestors_abs es x :
  Forall name_ok es → name_ok x → es ≠ [] →
  ancestors "" (abs (es ++ [x])) = ancestors "" (abs es) ++ [abs es].
Proof.
  intros Hes (_ & _ & _ & Hx) Hne. rewrite abs_snoc by done. rewrite ancestors_app. f_equal.
  cbn [ancestors]. rewrite decide_True by done. by rewrite ancestors_name.
Qed.

Lemma under_file_snoc fs es x :
  Forall name_ok es → name_ok x →
  under_file fs (abs (es ++ [x])) = true ↔
  under_file fs (abs es) = true ∨ (es ≠ [] ∧ ∃ c t, fs !! abs es = Some (FsFile c t)).
Proof.
  intros Hes Hx. destruct es as [|y es].
  - split; [|intros [H|[]]; done]. unfold under_file. cbn [app]. unfold abs at 1. cbn [ancestors].
    rewrite decide_False by naive_solver. cbn. rewrite ancestors_name by apply Hx. done.
  - unfold under_file. rewrite ancestors_abs by done. rewrite existsb_app, orb_true_iff. cbn [existsb].
    destruct (fs !! abs (y :: es)) as [[]|]; naive_solver.
Qed.

(** A path through a file has a file for a proper prefix, and conversely. *)
Lemma under_file_spec fs es :
  Forall name_ok es →
  under_file fs (abs es) = true ↔
  ∃ k c t, (0 < k < length es)%nat ∧ fs !! abs (take k es) = Some (FsFile c t).
Proof.
  induction es as [|x es IH] using rev_ind; intros Hes.
  { split; [by intros H|]. intros (k & _ & _ & Hk & _). simpl in Hk. lia. }
  apply Forall_app in Hes as [Hes Hx]. assert (name_ok x) as Hx1 by (by inversion Hx). rewrite under_file_snoc, IH by done.
  rewrite length_app. simpl. split.
  - intros [(k & c & t & Hk & H)|(Hne & c & t & H)].
    + exists k, c, t. rewrite take_app_le by lia. split; [lia|done].
    + exists (length es), c, t. rewrite take_app_length. split; [|done]. destruct es; [done|simpl; lia].
  - intros (k & c & t & Hk & H). destruct (decide (k = length es)) as [->|].
    + rewrite take_app_length in H. right. split; [|by eauto]. destruct es; [simpl in Hk; lia|done].
    + left. exists k, c, t. rewrite take_app_le in H by lia. split; [lia|done].
Qed.

(** No component from [abs bs] down to [abs (bs ++ ts)], up to the first one that
    is not there, is a link or cannot be looked at; and if one is not there, that
    is because it does not exist, not because the path leads through a file. *)
Definition may_pass (fs : LocalFs) (p : string) : Prop :=
  match fs !! p with
  | Some FsLink | Some FsDenied => False
  | Some _ => True
  | None => under_file fs p = false
  end.
Definition way_clear (fs : LocalFs) (bs ts : list string) : Prop :=
  ∀ k, (k ≤ length ts)%nat →
    (∀ j, (j < k)%nat → is_Some (fs !! abs (bs ++ take j ts))) → may_pass fs (abs (bs ++ take k ts)).

Lemma way_clear_nil fs bs : way_clear fs bs [] ↔ may_pass fs (abs bs).
Proof.
  unfold way_clear. split.
  - intros H. specialize (H 0%nat). simpl in H. rewrite app_nil_r in H. apply H; lia.
  - intros H [|k] Hk _; simpl in *; [by rewrite app_nil_r|lia].
Qed.

Lemma way_clear_cons fs bs x ts :
  way_clear fs bs (x :: ts) ↔
  may_pass fs (abs bs) ∧ (is_Some (fs !! abs bs) → way_clear fs (bs ++ [x]) ts).
Proof.
  assert (∀ j, bs ++ take (S j) (x :: ts) = (bs ++ [x]) ++ take j ts) as Hj.
  { intros j. simpl. by rewrite <- app_assoc. }
  split.
  - intros H. split.
    { specialize (H 0%nat). simpl in H. rewrite app_nil_r in H. apply H; lia. }
    intros Hs k Hk He. rewrite <- Hj. apply H; [simpl; lia|].
    intros [|j] Hle; [simpl; by rewrite app_nil_r|]. rewrite Hj. apply He. lia.
  - intros (H1 & H) [|k] Hk He; [simpl; by rewrite app_nil_r|].
    rewrite Hj. apply H; [|simpl in Hk; lia|].
    + specialize (He 0%nat). simpl in He. rewrite app_nil_r in He. apply He. lia.
    + intros j Hle. rewrite <- Hj. apply He. lia.
Qed.

(** The walk goes on below what it may pass. *)
Lemma Lstat_may_pass fs p :
  match os_Lstat fs p with
  | Err e => IsNotExist e = true ↔ may_pass fs p
  | Ok info => isLocalLink info = false ↔ may_pass fs p
  end.
Proof.
  unfold os_Lstat, may_pass. destruct (fs !! p) as [[]|]; simpl; try done.
  destruct (under_file fs p); done.
Qed.

Lemma links_on_way_spec fs bs ts :
  Forall name_ok bs → Forall name_ok ts →
  links_on_way fs (abs bs) ("" :: ts) = true ↔ way_clear fs bs ts.
Proof.
  intros Hb Ht. revert bs Hb. induction Ht as [|x ts Hx Ht IH]; intros bs Hb.
  - rewrite way_clear_nil. cbn [links_on_way]. rewrite decide_True by done.
    pose proof (Lstat_may_pass fs (abs bs)) as H. destruct (os_Lstat fs (abs bs)) as [i|e]; [|done].
    destruct (isLocalLink i); rewrite <- H; done.
  - rewrite way_clear_cons, <- IH by (apply Forall_app; split; [done|by apply Forall_singleton]).
    cbn [links_on_way]. rewrite (decide_True (P := "" = "")) by done.
    rewrite (decide_False (P := x = "")) by apply Hx. rewrite path_Join_abs by done.
    pose proof (Lstat_may_pass fs (abs bs)) as H. destruct (os_Lstat fs (abs bs)) as [i|e] eqn:E.
    + assert (is_Some (fs !! abs bs)) as Hs
        by (unfold os_Lstat in E; destruct (fs !! abs bs); [by eexists|done]).
      destruct (isLocalLink i); naive_solver.
    + split; [|by intros [? _]; apply H]. intros Hn%H. split; [done|]. intros [z Hz]. exfalso.
      unfold may_pass in Hn. unfold os_Lstat in E. rewrite Hz in *. by destruct z.
Qed.

Lemma has_prefix_app p s : has_prefix p s = true → ∃ t, s = p ^^ t.
Proof.
  unfold has_prefix. revert s. induction p as [|a p IH]; intros s; [by exists s|].
  destruct s as [|b s]; simpl; [done|].
  destruct (ascii_dec a b) as [->|]; [|done]. intros [t ->]%IH. by exists t.
Qed.

Lemma dotdot_names t : Forall name_ok t → t ≠ [] →
  join_with "/" t ≠ ".." ∧ has_prefix "../" (join_with "/" t) = false.
Proof.
  intros Ht Hne.
  assert (head (split_on slash (join_with "/" t)) ≠ Some "..") as Hh.
  { rewrite split_on_join by (done || by apply name_ok_no_slash).
    destruct Ht as [|x l (_ & _ & ? & _) _]; simpl; congruence. }
  split.
  - intros E. by rewrite E in Hh.
  - apply not_true_iff_false. intros [s E]%has_prefix_app. rewrite E in Hh.
    change ("../" ^^ s) with (".." ^^ String.String slash s) in Hh.
    by rewrite split_on_app in Hh.
Qed.

Lemma dotdots_rejected b t : b ≠ [] →
  let rel := join_with "/" (((λ _ : string, "..") <$> b) ++ t) in
  rel = ".." ∨ has_prefix "../" rel = true.
Proof.
  destruct b as [|x b]; [done|]. intros _. cbv zeta. simpl.
  destruct (list_fmap string string (λ _, "..") b ++ t) as [|y l]; [by left|right].
  destruct (join_with "/" (y :: l)); reflexivity.
Qed.

Lemma safe_spec fs bs p :
  Forall name_ok bs →
  safeSyncPath fs (abs bs) p = true ↔
  ∃ ts, Forall name_ok ts ∧ path_Clean p = abs (bs ++ ts) ∧ way_clear fs bs ts.
Proof.
  intros Hb. unfold safeSyncPath. pose proof (filepath_Rel_abs bs p Hb) as H.
  destruct (filepath_Rel (abs bs) p) as [rel|].
  2: { split; [done|]. intros (ts & _ & E & _). by rewrite E in H. }
  destruct H as (c & b & t & -> & Ht & E & Hh & ->).
  apply Forall_app in Hb as Hb'. destruct Hb' as [Hc Hb'].
  destruct (decide (b = [] ∧ t = [])) as [[-> ->]|Hne].
  - rewrite decide_False by (by intros []). rewrite app_nil_r in *. rewrite <- (app_nil_r c) in E.
    change (split_on slash ".") with ["."]. transitivity (way_clear fs c []).
    + rewrite <- links_on_way_spec by done. cbn [links_on_way].
      rewrite (decide_True (P := "" = "")), (decide_False (P := "." = "")) by done.
      assert (path_Join (abs c) "." = abs c) as ->.
      { by apply path_Join_dot. }
      destruct (os_Lstat fs (abs c)) as [i|]; [by destruct (isLocalLink i)|done].
    + split; [by exists []|]. intros (ts & Hts & E' & H).
      rewrite E in E'. apply abs_inj in E'; [|by rewrite app_nil_r|by apply Forall_app].
      by apply app_inv_head in E' as <-.
  - destruct b as [|x b].
    + rewrite app_nil_r in *. change (((λ _, "..") <$> []) ++ t) with t.
      destruct (dotdot_names t Ht) as [H1 H2]; [naive_solver|].
      rewrite decide_False by (intros []; congruence).
      rewrite split_on_join by (naive_solver || by apply name_ok_no_slash).
      rewrite links_on_way_spec by done. split; [by exists t|]. intros (ts & Hts & E' & H).
      rewrite E in E'. apply abs_inj in E'; [|by apply Forall_app..].
      by apply app_inv_head in E' as <-.
    + rewrite decide_True by (by apply dotdots_rejected). split; [done|].
      intros (ts & Hts & E' & _). exfalso.
      rewrite E, <- app_assoc in E'. apply abs_inj in E'; [|by apply Forall_app..|].
      2: { apply Forall_app. split; [done|]. by apply Forall_app. }
      apply app_inv_head in E' as ->. naive_solver.
Qed.

(** C29: A path is accepted exactly when, cleaned, it is the sync folder or lies
    below it by proper names (never through [..]), and the way down to it is clear:
    no component up to the first one that is not there is a link or cannot be
    looked at, and that first one does not exist (a path that leads through a file
    is refused). *)
Theorem safeSyncPath_spec fs bs p :
  Forall name_ok bs →
  safeSyncPath fs (abs bs) p = true ↔
  ∃ ts, Forall name_ok ts ∧ path_Clean p = abs (bs ++ ts) ∧ way_clear fs bs ts.
Proof. apply safe_spec. Qed.

Lemma path_Join_rooted bs rel : ∃ es, Forall name_ok es ∧ path_Join (abs bs) rel = abs es.
Proof.
  assert (∀ p, is_rooted p = true → ∃ es, Forall name_ok es ∧ path_Clean p = abs es) as H
    by exact clean_rooted.
  unfold path_Join. rewrite filter_cons_True by done.
  destruct (decide (rel = "")) as [->|Hr].
  - by apply H.
  - rewrite filter_cons_True by done. by apply H.
Qed.

(** Whatever remote path the server names, the local path it is mapped to is
    in the sync folder: proper names appended to the folder's own path, not
    reached through a link. *)
Theorem localPath_confined fs bs base remotePath p :
  Forall name_ok bs → localPath fs (abs bs) base remotePath = Some p →
  ∃ ts, Forall name_ok ts ∧ p = abs (bs ++ ts) ∧ way_clear fs bs ts.
Proof.
  intros Hb. unfold localPath. case_decide; [done|]. cbv zeta.
  set (rel := if decide (base ≠ "") then _ else _).
  destruct (safeSyncPath fs (abs bs) (path_Join (abs bs) rel)) eqn:E; [|done].
  intros [= <-]. destruct (path_Join_rooted bs rel) as (es & Hes & Ej). rewrite Ej in *.
  apply safe_spec in E as (ts & Hts & E & ?); [|done].
  rewrite path_Clean_abs in E by done. by exists ts.
Qed.

(** ** Witnesses *)

Definition ex_fs : LocalFs :=
  <["/sync" := FsDir 1]> (<["/sync/docs" := FsDir 1]> (<["/sync/docs/a.txt" := FsFile [x41] 7]>
  (<["/sync/out" := FsLink]> ∅))).

Example localPath_runs :
  localPath ex_fs "/sync" "base" "base/docs/a.txt" = Some "/sync/docs/a.txt" ∧
  localPath ex_fs "/sync" "" "docs/new/b.txt" = Some "/sync/docs/new/b.txt" ∧
  localPath ex_fs "/sync" "" "out/a.txt" = None ∧
  localPath ex_fs "/sync" "" "docs/a.txt/b" = None ∧
  localPath ex_fs "/sync" "" "../etc/passwd" = None ∧
  localPath ex_fs "/sync" "" "docs/../../sync2/x" = None.
Proof. vm_compute. by repeat split. Qed.

Lemma ex_root_ok : Forall name_ok ["sync"].
Proof. by repeat constructor. Qed.

Lemma safeSyncPath_spec_witness :
  safeSyncPath ex_fs (abs ["sync"]) "/sync/docs/../docs/a.txt" = true ∧
  way_clear ex_fs ["sync"] ["docs"; "a.txt"].
Proof.
  assert (safeSyncPath ex_fs (abs ["sync"]) "/sync/docs/../docs/a.txt" = true) as H
    by (vm_compute; reflexivity).
  split; [exact H|].
  apply (safeSyncPath_spec ex_fs ["sync"] _ ex_root_ok) in H as (ts & Hts & E & Hw).
  assert (abs (["sync"] ++ ["docs"; "a.txt"]) = abs (["sync"] ++ ts)) as E'
    by (rewrite <- E; vm_compute; reflexivity).
  apply abs_inj in E'; [|by repeat constructor|apply Forall_app; by split; [exact ex_root_ok|]].
  apply app_inv_head in E' as <-. exact Hw.
Defined.

Lemma localPath_confined_witness :
  ∃ ts, Forall name_ok ts ∧ "/sync/docs/a.txt" = abs (["sync"] ++ ts) ∧
    way_clear ex_fs ["sync"] ts.
Proof.
  apply (localPath_confined ex_fs ["sync"] "base" "base/docs/a.txt").
  - exact ex_root_ok.
  - vm_compute. reflexivity.
Defined.
