(* ===== verification/FileTypes.v ===== *)
(** * The registry of file types

    [internal/filetypes/filetypes.go] with the table it embeds
    ([file-types.json]): extension to type, as [init] loads it. *)
From S2P Require Import Prelude.

Definition registered : list (string * string) := [
  ("jpg", "image"); ("jpeg", "image"); ("jfif", "image"); ("pjpeg", "image");
  ("png", "image"); ("apng", "image"); ("gif", "image"); ("webp", "image");
  ("bmp", "image"); ("svg", "image"); ("tif", "image"); ("tiff", "image");
  ("heic", "image"); ("heif", "image"); ("hif", "image"); ("avif", "image");
  ("ico", "image"); ("cur", "image"); ("jxl", "image"); ("qoi", "image"); ("pbm", "image");
  ("pgm", "image"); ("ppm", "image"); ("pnm", "image"); ("pam", "image"); ("ras", "image");
  ("tga", "image"); ("dds", "image"); ("exr", "image"); ("hdr", "image"); ("xpm", "image");
  ("pcx", "image"); ("psd", "image"); ("psb", "image"); ("xcf", "image"); ("eps", "image");
  ("ai", "image"); ("cdr", "image"); ("dng", "image"); ("cr2", "image"); ("cr3", "image");
  ("nef", "image"); ("nrw", "image"); ("arw", "image"); ("orf", "image"); ("rw2", "image");
  ("raf", "image"); ("pef", "image"); ("srw", "image"); ("gpr", "image"); ("raw", "image");
  ("mp4", "video"); ("webm", "video"); ("ogv", "video"); ("mov", "video"); ("m4v", "video");
  ("avi", "video"); ("mkv", "video"); ("flv", "video"); ("wmv", "video"); ("mpeg", "video");
  ("mpg", "video"); ("mts", "video"); ("m2ts", "video"); ("vob", "video"); ("asf", "video");
  ("f4v", "video"); ("3gp", "video"); ("3g2", "video"); ("mxf", "video"); ("divx", "video");
  ("xvid", "video"); ("rm", "video"); ("rmvb", "video"); ("dv", "video");
  ("mjpeg", "video"); ("mp3", "audio"); ("wav", "audio"); ("ogg", "audio");
  ("oga", "audio"); ("weba", "audio"); ("flac", "audio"); ("m4a", "audio");
  ("m4r", "audio"); ("m4b", "audio"); ("aac", "audio"); ("opus", "audio");
  ("aiff", "audio"); ("aif", "audio"); ("wma", "audio"); ("mid", "audio");
  ("midi", "audio"); ("mka", "audio"); ("caf", "audio"); ("ape", "audio"); ("amr", "audio");
  ("au", "audio"); ("snd", "audio"); ("dsf", "audio"); ("dff", "audio"); ("mp2", "audio");
  ("mpc", "audio"); ("mpp", "audio"); ("tta", "audio"); ("wv", "audio"); ("ac3", "audio");
  ("dts", "audio"); ("xm", "audio"); ("it", "audio"); ("s3m", "audio"); ("mod", "audio");
  ("doc", "document"); ("dot", "document"); ("docx", "document"); ("docm", "document");
  ("dotx", "document"); ("dotm", "document"); ("rtf", "document"); ("odt", "document");
  ("odp", "document"); ("ppt", "document"); ("pptx", "document"); ("pptm", "document");
  ("pot", "document"); ("potx", "document"); ("potm", "document"); ("pps", "document");
  ("ppsx", "document"); ("ppsm", "document"); ("epub", "document"); ("mobi", "document");
  ("azw", "document"); ("azw3", "document"); ("fb2", "text"); ("djvu", "document");
  ("djv", "document"); ("xps", "document"); ("oxps", "document"); ("pages", "document");
  ("abw", "document"); ("wpd", "document"); ("odg", "document"); ("msg", "document");
  ("xls", "spreadsheet"); ("xlsx", "spreadsheet"); ("xlsm", "spreadsheet");
  ("xlt", "spreadsheet"); ("xltx", "spreadsheet"); ("xltm", "spreadsheet");
  ("xlam", "spreadsheet"); ("ods", "spreadsheet"); ("numbers", "spreadsheet");
  ("pdf", "pdf"); ("zip", "archive"); ("rar", "archive"); ("7z", "archive");
  ("tar", "archive"); ("gz", "archive"); ("bz", "archive"); ("bz2", "archive");
  ("xz", "archive"); ("lz", "archive"); ("lzma", "archive"); ("zst", "archive");
  ("iso", "archive"); ("cab", "archive"); ("tgz", "archive"); ("tbz2", "archive");
  ("txz", "archive"); ("jar", "archive"); ("war", "archive"); ("ear", "archive");
  ("xar", "archive"); ("lzh", "archive"); ("lha", "archive"); ("cbz", "archive");
  ("cbr", "archive"); ("cb7", "archive"); ("cbt", "archive"); ("z", "archive");
  ("apk", "archive"); ("ipa", "archive"); ("whl", "archive"); ("xpi", "archive");
  ("crx", "archive"); ("dmg", "archive"); ("deb", "archive"); ("rpm", "archive");
  ("msi", "archive"); ("exe", "archive"); ("dll", "archive"); ("bin", "archive");
  ("appimage", "archive"); ("lz4", "archive"); ("br", "archive"); ("wim", "archive");
  ("vhd", "archive"); ("vhdx", "archive"); ("vmdk", "archive"); ("qcow2", "archive");
  ("txt", "text"); ("md", "text"); ("markdown", "text"); ("mdx", "text"); ("json", "text");
  ("jsonc", "text"); ("json5", "text"); ("ndjson", "text"); ("jsonl", "text");
  ("geojson", "text"); ("webmanifest", "text"); ("map", "text"); ("xml", "text");
  ("xsd", "text"); ("xsl", "text"); ("uot", "text"); ("xslt", "text"); ("dtd", "text");
  ("html", "text"); ("htm", "text"); ("xhtml", "text"); ("css", "text"); ("js", "text");
  ("cjs", "text"); ("mjs", "text"); ("jsx", "text"); ("ts", "text"); ("tsx", "text");
  ("coffee", "text"); ("log", "text"); ("yaml", "text"); ("yml", "text"); ("php", "text");
  ("py", "text"); ("pyi", "text"); ("pyw", "text"); ("ipynb", "text"); ("rb", "text");
  ("pl", "text"); ("go", "text"); ("rs", "text"); ("java", "text"); ("c", "text");
  ("cpp", "text"); ("h", "text"); ("hpp", "text"); ("cs", "text"); ("swift", "text");
  ("kt", "text"); ("lua", "text"); ("dart", "text"); ("scala", "text"); ("clj", "text");
  ("cljs", "text"); ("cljc", "text"); ("edn", "text"); ("ex", "text"); ("exs", "text");
  ("erl", "text"); ("hrl", "text"); ("hs", "text"); ("ml", "text"); ("mli", "text");
  ("fs", "text"); ("fsx", "text"); ("fsi", "text"); ("nim", "text"); ("groovy", "text");
  ("elm", "text"); ("tcl", "text"); ("ahk", "text"); ("sol", "text"); ("pas", "text");
  ("lisp", "text"); ("lsp", "text"); ("scm", "text"); ("awk", "text"); ("f90", "text");
  ("f95", "text"); ("asm", "text"); ("s", "text"); ("jl", "text"); ("vbs", "text");
  ("tex", "text"); ("latex", "text"); ("bib", "text"); ("sty", "text"); ("cls", "text");
  ("rst", "text"); ("adoc", "text"); ("asciidoc", "text"); ("org", "text"); ("ics", "text");
  ("vcf", "text"); ("srt", "text"); ("vtt", "text"); ("sub", "text"); ("eml", "text");
  ("gpx", "text"); ("kml", "text"); ("m3u", "text"); ("m3u8", "text"); ("cue", "text");
  ("nfo", "text"); ("torrent", "text"); ("bak", "text"); ("ass", "text"); ("ssa", "text");
  ("sh", "text"); ("bash", "text"); ("zsh", "text"); ("fish", "text"); ("ksh", "text");
  ("ps1", "text"); ("psm1", "text"); ("psd1", "text"); ("bat", "text"); ("cmd", "text");
  ("vue", "text"); ("svelte", "text"); ("ejs", "text"); ("asp", "text"); ("hbs", "text");
  ("twig", "text"); ("j2", "text"); ("scss", "text"); ("sass", "text"); ("less", "text");
  ("ini", "text"); ("conf", "text"); ("cfg", "text"); ("env", "text"); ("toml", "text");
  ("properties", "text"); ("sql", "text"); ("csv", "text"); ("tsv", "text");
  ("gitignore", "text"); ("nomedia", "text"); ("plink", "text"); ("gitattributes", "text");
  ("dockerignore", "text"); ("npmignore", "text"); ("htaccess", "text");
  ("dockerfile", "text"); ("makefile", "text"); ("editorconfig", "text");
  ("prettierrc", "text"); ("eslintrc", "text"); ("r", "text"); ("diff", "text");
  ("patch", "text"); ("graphql", "text"); ("gql", "text"); ("zig", "text"); ("zon", "text");
  ("hcl", "text"); ("tf", "text"); ("nix", "text"); ("proto", "text"); ("gradle", "text");
  ("cmake", "text"); ("gcode", "text"); ("lock", "text"); ("sln", "text");
  ("csproj", "text"); ("fsproj", "text"); ("plist", "text"); ("xaml", "text");
  ("resx", "text"); ("glsl", "text"); ("hlsl", "text"); ("frag", "text"); ("vert", "text");
  ("wgsl", "text"); ("wat", "text"); ("wasm", "text"); ("phtml", "text"); ("cc", "text");
  ("cxx", "text"); ("hxx", "text"); ("ino", "text"); ("sc", "text"); ("kts", "text");
  ("m", "text"); ("mm", "text"); ("rake", "text"); ("gemspec", "text"); ("pm", "text");
  ("lhs", "text"); ("cl", "text"); ("el", "text"); ("ss", "text"); ("rkt", "text");
  ("pp", "text"); ("dpr", "text"); ("v", "text"); ("sv", "text"); ("vh", "text");
  ("vhdl", "text"); ("vb", "text"); ("bas", "text"); ("cr", "text"); ("f", "text");
  ("for", "text"); ("cob", "text"); ("cbl", "text"); ("hx", "text"); ("styl", "text");
  ("st", "text"); ("rq", "text"); ("ttl", "text"); ("xq", "text"); ("xquery", "text");
  ("feature", "text"); ("http", "text"); ("jinja", "text"); ("jinja2", "text");
  ("wast", "text"); ("liquid", "text"); ("bf", "text"); ("fth", "text"); ("pug", "text");
  ("jade", "text"); ("textile", "text"); ("nb", "text"); ("wl", "text"); ("mo", "text");
  ("e", "text"); ("ttf", "font"); ("otf", "font"); ("ttc", "font"); ("woff", "font");
  ("woff2", "font"); ("eot", "font"); ("pfa", "font"); ("pfb", "font");
  ("pfx", "certificate"); ("p12", "certificate"); ("der", "certificate");
  ("crt", "certificate"); ("cer", "certificate"); ("pem", "certificate");
  ("csr", "certificate"); ("key", "certificate"); ("pub", "certificate");
  ("asc", "certificate"); ("gpg", "certificate"); ("sig", "certificate");
  ("kdbx", "certificate"); ("db", "database"); ("sqlite", "database");
  ("sqlite3", "database"); ("dbf", "database"); ("mdb", "database"); ("accdb", "database");
  ("npy", "database"); ("npz", "database"); ("h5", "database"); ("hdf5", "database");
  ("parquet", "database"); ("stl", "model"); ("obj", "model"); ("gltf", "model");
  ("glb", "model"); ("3mf", "model"); ("fbx", "model"); ("ply", "model"); ("dae", "model");
  ("dxf", "model"); ("dwg", "model"); ("3ds", "model"); ("blend", "model");
  ("usdz", "model"); ("step", "model"); ("stp", "model"); ("safetensors", "model");
  ("gguf", "model"); ("onnx", "model"); ("pt", "model"); ("pth", "model")].

Definition typeMap : gmap string string := list_to_map registered.

Definition TypeOf (ext : string) : string := default "other" (typeMap !! ext).
Definition IsText (ext : string) : bool := bool_decide (TypeOf ext = "text").
(** The order of a map iteration is not fixed. *)
Definition Extensions : list string := (map_to_list typeMap).*1.

#[global] Opaque registered.

Lemma registered_NoDup : NoDup registered.*1.
Proof. apply (bool_decide_unpack _). vm_compute. exact I. Qed.

Lemma TypeOf_registered ext t : (ext, t) ∈ registered → TypeOf ext = t.
Proof.
  intros H. unfold TypeOf, typeMap.
  by rewrite (elem_of_list_to_map_1 registered ext t registered_NoDup H).
Qed.

Lemma registered_types : Forall (λ p, p.2 ≠ "" ∧ p.2 ≠ "other" ∧ p.1 ≠ "") registered.
Proof. apply (bool_decide_unpack _). vm_compute. exact I. Qed.

(** Known and unknown extensions are told apart by the type alone. *)
Lemma TypeOf_other ext : TypeOf ext = "other" ↔ ext ∉ registered.*1.
Proof.
  unfold TypeOf. destruct (typeMap !! ext) as [t|] eqn:E; simpl.
  - apply elem_of_list_to_map_2 in E.
    pose proof registered_types as Hf. rewrite Forall_forall in Hf.
    specialize (Hf _ E) as (_ & Hne & _). split; [done|]. intros Hn. destruct Hn.
    exact (list_elem_of_fmap_2 fst registered (ext, t) E).
  - split; [|done]. intros _. exact (not_elem_of_list_to_map_2 registered ext E).
Qed.
