(* ===== verification/VfsNode.v ===== *)
(** * Nodes of the mounted tree and the validation of names

    [internal/mount/vfs/node.go] and [validate.go] with its two platform
    variants.  A node is reached through pointers from its parent, its children
    and the identifier index, so the nodes live in a heap and those references
    are locations.  Each method holds the node's lock for its whole body and is
    one step. *)
From S2P Require Import Prelude GoLib ApiErrors Names CacheDB FileTypes LocalFs.
Local Open Scope Z_scope.

(** ** Nodes *)

Abbreviation loc := positive.

(** Times are nanoseconds since the epoch, [None] being the zero time; [None]
    children is the nil map; the channel a reader waits on is its number, [0] for
    nil.  The mutex carries no data. *)
Record Node : Type := mkNode {
  n_ID : Z; n_Name : string; n_RemotePath : string; n_IsDir : bool;
  n_Size : Z; n_Mtime : Z; n_Mode : Z;
  n_SealedKey : string; n_EncMeta : string; n_Etag : string;
  n_Cached : bool; n_Dirty : bool; n_ContentHash : string;
  n_SyncStatus : SyncStatus; n_StatusReason : string;
  n_Parent : option loc; n_Children : option (gmap string loc); n_Loaded : bool;
  n_OpenCount : Z; n_Data : option bytes; n_WriteGen : Z;
  n_Downloading : bool; n_DownloadErr : option error; n_DownloadCh : nat;
  n_lastAccessFlush : option Z }.
#[export] Instance Node_eta : Eta Node := λ r,
  mkNode (n_ID r) (n_Name r) (n_RemotePath r) (n_IsDir r) (n_Size r) (n_Mtime r)
    (n_Mode r) (n_SealedKey r) (n_EncMeta r) (n_Etag r) (n_Cached r) (n_Dirty r)
    (n_ContentHash r) (n_SyncStatus r) (n_StatusReason r) (n_Parent r) (n_Children r)
    (n_Loaded r) (n_OpenCount r) (n_Data r) (n_WriteGen r) (n_Downloading r)
    (n_DownloadErr r) (n_DownloadCh r) (n_lastAccessFlush r).
Abbreviation heap := (gmap loc Node).

Definition zero_node : Node :=
  mkNode 0 "" "" false 0 0 0 "" "" "" false false "" StatusSynced "" None None false
    0 None 0 false None 0 None.

Definition NewRootNode (remotePath : string) (now : Z) : Node :=
  zero_node <| n_Name := "/" |> <| n_RemotePath := remotePath |> <| n_IsDir := true |>
    <| n_Mode := 493 |> <| n_Mtime := now |> <| n_Children := Some ∅ |>
    <| n_SyncStatus := StatusSynced |>.

Definition NewDirNode (name remotePath : string) (parent : option loc) (now : Z) : Node :=
  zero_node <| n_Name := name |> <| n_RemotePath := remotePath |> <| n_IsDir := true |>
    <| n_Mode := 493 |> <| n_Mtime := now |> <| n_Parent := parent |>
    <| n_Children := Some ∅ |> <| n_SyncStatus := StatusSynced |>.

Definition NewFileNode (name remotePath : string) (size mtime : Z) (parent : option loc) : Node :=
  zero_node <| n_Name := name |> <| n_RemotePath := remotePath |> <| n_IsDir := false |>
    <| n_Mode := 420 |> <| n_Size := size |> <| n_Mtime := mtime |>
    <| n_Parent := parent |> <| n_SyncStatus := StatusSynced |>.

Definition update_node (l : loc) (f : Node → Node) (h : heap) : heap := alter f l h.

(** [None] is the panic of a nil dereference. *)
Definition AddChild (n child : loc) (h : heap) : option heap :=
  match h !! n, h !! child with
  | Some _, Some c =>
      let h := update_node n (λ nd, nd <| n_Children :=
                 Some (<[n_Name c := child]> (default ∅ (n_Children nd))) |>) h in
      Some (update_node child (λ nd, nd <| n_Parent := Some n |>) h)
  | _, _ => None
  end.

Definition children_of (n : loc) (h : heap) : gmap string loc :=
  default ∅ (h !! n ≫= n_Children).

(** A nil map reads as empty, and deleting from it is no change. *)
Definition RemoveChild (n : loc) (name : string) (h : heap) : option loc * heap :=
  (children_of n h !! name,
   update_node n (λ nd, nd <| n_Children := delete name <$> n_Children nd |>) h).
Definition GetChild (n : loc) (name : string) (h : heap) : option loc := children_of n h !! name.
Definition ListChildren (n : loc) (h : heap) : list loc := (map_to_list (children_of n h)).*2.
Definition ChildCount (n : loc) (h : heap) : nat := size (children_of n h).

Definition FullPath (n : Node) : string :=
  if decide (n_RemotePath n = "" ∨ n_RemotePath n = "/") then "/"
  else "/" ^^ n_RemotePath n.

(** ** Validation *)

Definition MaxUploadSize : Z := 5 * 1024 * 1024 * 1024.

(** [filepath.Ext] of a Unix build: the text from the last dot of the last
    element. *)
Definition dot : ascii := "."%char.
Definition filepath_Ext (p : string) : string :=
  let base := last_segment slash p in
  if contains_char dot base then String.String dot (last_segment dot base) else "".

Definition in_range (lo hi : Z) (a : ascii) : bool :=
  let n := Z.of_N (N_of_ascii a) in bool_decide (lo ≤ n) && bool_decide (n ≤ hi).
Definition word_char (a : ascii) : bool :=
  in_range 97 122 a || in_range 65 90 a || in_range 48 57 a ||
  bool_decide (a = "_"%char) || bool_decide (a = " "%char) || bool_decide (a = "-"%char).
(** The letters äöüÄÖÜß are the byte 0xC3 and one of these. *)
Definition umlaut_tail (b : ascii) : bool :=
  bool_decide (Z.of_N (N_of_ascii b) ∈ [164; 182; 188; 132; 150; 156; 159]).
Definition umlaut_lead : ascii := ascii_of_nat 195.

(** The repeated class of the two name patterns, over UTF-8 text. *)
Fixpoint match_class (ok : ascii → bool) (s : string) : bool :=
  match s with
  | String.EmptyString => true
  | String.String a s1 =>
      if ok a then match_class ok s1
      else match s1 with
           | String.String b s2 =>
               bool_decide (a = umlaut_lead) && umlaut_tail b && match_class ok s2
           | String.EmptyString => false
           end
  end.
Definition validNameRegex (s : string) : bool :=
  bool_decide (s ≠ "") && match_class (λ a, word_char a || bool_decide (a = dot)) s.
Definition validFolderRegex (s : string) : bool :=
  bool_decide (s ≠ "") && match_class word_char s.

Definition ExcludedDirs : list string := [".Trash"; ".Favorites"; ".Recents"].
Definition IsExcludedDir (name : string) : bool := bool_decide (name ∈ ExcludedDirs).

Definition ValidateFile `{Unicode} (name : string) (size : Z) : bool * string :=
  let ext := strings_ToLower (trim_prefix "." (filepath_Ext name)) in
  if decide (ext ≠ "" ∧ TypeOf ext = "other")
  then (false, "file type ." ^^ ext ^^ " is not supported")
  else if decide (size > MaxUploadSize) then (false, "file exceeds 5 GB upload limit")
  else if negb (validNameRegex name) then (false, "file name contains unsupported characters")
  else (true, "").

Definition ValidateDirName (name : string) : bool * string :=
  if negb (validFolderRegex name) then (false, "folder name contains unsupported characters")
  else (true, "").

(** [isSafeNamePlatform]: [None] on a Unix build; on Windows [Some upper] with
    [strings.ToUpper]. *)
Definition reservedDeviceNames : list string :=
  ["CON"; "PRN"; "AUX"; "NUL"; "COM1"; "COM2"; "COM3"; "COM4"; "COM5"; "COM6"; "COM7"; "COM8";
   "COM9"; "LPT1"; "LPT2"; "LPT3"; "LPT4"; "LPT5"; "LPT6"; "LPT7"; "LPT8"; "LPT9"].
Definition windows_bad (a : ascii) : bool :=
  in_range 0 31 a || bool_decide (Z.of_N (N_of_ascii a) ∈ [60; 62; 58; 34; 124; 63; 42]).
Fixpoint string_any (f : ascii → bool) (s : string) : bool :=
  match s with String.EmptyString => false | String.String a s' => f a || string_any f s' end.
Definition last_char (s : string) : option ascii := last (String.list_ascii_of_string s).
Definition isSafeNamePlatform (windows : option (string → string)) (name : string) : bool :=
  match windows with
  | None => true
  | Some upper =>
      if string_any windows_bad name then false
      else if decide (last_char name = Some dot ∨ last_char name = Some " "%char) then false
      else negb (bool_decide (upper (hd name (split_on dot name)) ∈ reservedDeviceNames))
  end.

Definition unsafe_char (a : ascii) : bool :=
  bool_decide (a = slash) || bool_decide (a = backslash) || bool_decide (a = Ascii.zero).
Definition IsSafeName (windows : option (string → string)) (name : string) : bool :=
  if decide (name = "" ∨ name = "." ∨ name = "..") then false
  else if string_any unsafe_char name then false
  else isSafeNamePlatform windows name.

(** ** The heap *)

Lemma update_node_insert l f h nd : h !! l = Some nd → update_node l f h = <[l := f nd]> h.
Proof.
  intros Hl. apply map_eq. intros k. unfold update_node.
  destruct (decide (k = l)) as [->|].
  - by rewrite lookup_alter_eq, lookup_insert_eq, Hl.
  - by rewrite lookup_alter_ne, lookup_insert_ne.
Qed.

(** ** The children of a node *)

Lemma GetChild_AddChild n child c name h h' :
  h !! child = Some c → AddChild n child h = Some h' →
  GetChild n name h' = if decide (name = n_Name c) then Some child else GetChild n name h.
Proof.
  unfold AddChild, GetChild, children_of. intros Hc. rewrite Hc.
  destruct (h !! n) as [nd|] eqn:Hn; [|done]. intros [= <-]. unfold update_node.
  assert (n_Children <$> alter (λ nd0 : Node, nd0 <| n_Parent := Some n |>) child
    (alter (λ nd0 : Node, nd0 <| n_Children :=
       Some (<[n_Name c := child]> (default ∅ (n_Children nd0))) |>) n h) !! n
    = Some (Some (<[n_Name c := child]> (default ∅ (n_Children nd))))) as E.
  { destruct (decide (child = n)) as [->|Hne].
    - by rewrite !lookup_alter_eq, Hn.
    - by rewrite lookup_alter_ne, lookup_alter_eq, Hn. }
  destruct (alter _ child _ !! n) as [nd'|]; [|done]. injection E as E.
  simpl. rewrite E.
  change (<[n_Name c:=child]> (default ∅ (n_Children nd)) !! name =
    if decide (name = n_Name c) then Some child else default ∅ (n_Children nd) !! name).
  case_decide as Hx; [subst; by rewrite lookup_insert_eq|by rewrite lookup_insert_ne].
Qed.

Lemma GetChild_RemoveChild n name x h :
  (RemoveChild n name h).1 = GetChild n name h ∧
  GetChild n x (RemoveChild n name h).2 = if decide (x = name) then None else GetChild n x h.
Proof.
  split; [done|]. unfold GetChild, RemoveChild, children_of, update_node. simpl.
  rewrite lookup_alter_eq. destruct (h !! n) as [nd|]; simpl; [|by case_decide].
  destruct (n_Children nd) as [m|]; simpl; [|by case_decide].
  case_decide as Hx; [subst; by rewrite lookup_delete_eq|by rewrite lookup_delete_ne].
Qed.

(** ** Names *)

Lemma string_any_false f s :
  string_any f s = false ↔ Forall (λ a, f a = false) (String.list_ascii_of_string s).
Proof.
  induction s as [|a s IH]; simpl; [split; [constructor|done]|].
  rewrite orb_false_iff, IH, Forall_cons. done.
Qed.

Lemma contains_char_any c s : contains_char c s = string_any (λ a, bool_decide (a = c)) s.
Proof. induction s as [|a s IH]; simpl; [done|]. by rewrite IH. Qed.

(** A safe name is one proper element of a path, whatever the platform. *)
Lemma IsSafeName_ok windows name :
  IsSafeName windows name = true →
  name_ok name ∧ contains_char backslash name = false ∧ contains_char Ascii.zero name = false.
Proof.
  unfold IsSafeName. case_decide as H1; [done|].
  destruct (string_any unsafe_char name) eqn:E; [done|]. intros _.
  rewrite string_any_false in E. unfold name_ok. rewrite !contains_char_any.
  assert (∀ c, unsafe_char c = true → string_any (λ a, bool_decide (a = c)) name = false) as H.
  { intros c Hc. apply string_any_false. eapply Forall_impl; [exact E|].
    intros a Ha. simpl. apply bool_decide_eq_false. intros ->. congruence. }
  split_and!; try (by apply H); naive_solver.
Qed.

(** A character neither pattern accepts in any position. *)
Definition foreign (ok : ascii → bool) (a : ascii) : Prop :=
  ok a = false ∧ a ≠ umlaut_lead ∧ umlaut_tail a = false.

Lemma match_class_foreign ok c s :
  foreign ok c → match_class ok s = true → contains_char c s = false.
Proof.
  intros (Hok & Hl & Ht).
  assert (∀ n s, (String.length s ≤ n)%nat → match_class ok s = true →
    contains_char c s = false) as H; [|by apply (H (String.length s))].
  clear s. induction n as [|n IH]; intros [|a s] Hn; simpl in *; try done; [lia|].
  destruct (ok a) eqn:Ea.
  - intros Hm. rewrite bool_decide_false by congruence. simpl. apply IH; [lia|done].
  - destruct s as [|b s]; [done|]. simpl in *. intros [[H1 H2]%andb_prop H3]%andb_prop.
    apply bool_decide_eq_true in H1 as ->.
    rewrite !bool_decide_false by congruence. simpl. apply IH; [lia|done].
Qed.

Section validate.
Context `{U : Unicode}.

Definition ext_of (name : string) : string :=
  strings_ToLower (trim_prefix "." (filepath_Ext name)).

Lemma ValidateFile_accepts name size :
  (ValidateFile name size).1 = true ↔
    (ext_of name = "" ∨ ext_of name ∈ registered.*1) ∧
    size ≤ 5 * 2 ^ 30 ∧ validNameRegex name = true.
Proof using Type.
  unfold ValidateFile. fold (ext_of name).
  pose proof (TypeOf_other (ext_of name)) as Ho.
  assert (ext_of name ∈ registered.*1 ∨ ¬ ext_of name ∈ registered.*1) as Hd
    by (destruct (decide (ext_of name ∈ registered.*1)); auto).
  revert Ho Hd.
  generalize (TypeOf (ext_of name)) (ext_of name ∈ registered.*1). intros ty P Ho Hd.
  change (5 * 2 ^ 30) with MaxUploadSize.
  destruct (decide (ext_of name ≠ "" ∧ ty = "other")) as [[He Ht]|Hn].
  { split; [done|]. intros ([?|?] & _); [done|]. by apply Ho in Ht. }
  destruct (decide (size > MaxUploadSize)) as [Hs|Hs]; [split; [done|intros (_ & ? & _); lia]|].
  destruct (validNameRegex name); simpl; [|split; [done|by intros (_ & _ & ?)]].
  split; [|done]. intros _. split_and!; [|lia|done].
  destruct (decide (ext_of name = "")) as [|He]; [by left|right].
  destruct (decide (ty = "other")) as [Ht|Ht]; [by destruct Hn|].
  destruct Hd as [|Hd]; [done|]. by apply Ho in Hd.
Qed.

Lemma ValidateFile_reason name size :
  (ValidateFile name size).1 = true ↔ (ValidateFile name size).2 = "".
Proof using Type.
  unfold ValidateFile. repeat case_decide; [done..|]. by destruct (validNameRegex name).
Qed.

Lemma foreign_control c :
  Z.of_N (N_of_ascii c) < 32 ∨ c = slash ∨ c = backslash →
  foreign (λ a, word_char a || bool_decide (a = dot)) c.
Proof using Type.
  intros Hc. assert (string_any (λ a, negb
    (bool_decide (Z.of_N (N_of_ascii a) < 32 ∨ a = slash ∨ a = backslash)) ||
     bool_decide (foreign (λ a, word_char a || bool_decide (a = dot)) a)) (String.String c "") = true)
    as H by (destruct c as [[] [] [] [] [] [] [] []]; vm_compute; reflexivity).
  simpl in H. rewrite bool_decide_true in H by done. simpl in H. rewrite orb_false_r in H.
  by apply bool_decide_eq_true in H.
Qed.

(** [ValidateFile] accepts exactly the files of at most 5 GiB whose name
    matches the pattern and whose extension, if it has one, is registered; a
    refusal always carries a reason and an acceptance none.  An accepted name
    holds no path separator of any platform and no control character. *)
Theorem ValidateFile_spec name size :
  ((ValidateFile name size).1 = true ↔
    (ext_of name = "" ∨ ext_of name ∈ registered.*1) ∧
    size ≤ 5 * 2 ^ 30 ∧ validNameRegex name = true) ∧
  ((ValidateFile name size).1 = true ↔ (ValidateFile name size).2 = "") ∧
  ((ValidateFile name size).1 = true → ∀ c,
    Z.of_N (N_of_ascii c) < 32 ∨ c = slash ∨ c = backslash → contains_char c name = false).
Proof using Type.
  split; [apply ValidateFile_accepts|]. split; [apply ValidateFile_reason|].
  intros (_ & _ & Hm)%ValidateFile_accepts c Hc%foreign_control.
  apply andb_prop in Hm as [_ Hm]. by eapply match_class_foreign.
Qed.
End validate.

Example ValidateFile_runs :
  let U : Unicode := {| norm_NFC := id; cases_Lower := id; strings_ToLower := id |} in
  ValidateFile "report.pdf" 10 = (true, "") ∧
  ValidateFile "Übung 1.txt" 10 = (true, "") ∧
  ValidateFile "a.unknownext" 10 = (false, "file type .unknownext is not supported") ∧
  ValidateFile "a/b.txt" 10 = (false, "file name contains unsupported characters") ∧
  ValidateFile "a.txt" (5 * 2 ^ 30 + 1) = (false, "file exceeds 5 GB upload limit") ∧
  ValidateFile ".." 0 = (true, "").
Proof. vm_compute. by repeat split. Qed.

Example IsSafeName_runs :
  IsSafeName None ".." = false ∧ IsSafeName None "a\b" = false ∧ IsSafeName None "CON.txt" = true ∧
  IsSafeName (Some id) "CON.txt" = false ∧ IsSafeName (Some id) "a." = false ∧
  IsSafeName (Some id) "a b.txt" = true.
Proof. vm_compute. by repeat split. Qed.
