(* ===== verification/VfsContent.v ===== *)
(** * The content of mounted files

    The part of [internal/mount/vfs/vfs.go] that reads and changes the bytes of a
    file: [Read], [Write], [Truncate], [Flush], [Release], the index of nodes by
    identifier and the eviction hooks.  The state is the node heap, the cache
    database and the blob store; each method runs under the node's lock, and
    [Flush], which drops the lock around [Store.Put], is one step here. *)
From S2P Require Import Prelude GoLib Table ApiErrors Crypto Names CacheDB CacheStore CacheEvict.
From S2P Require Import FileTypes LocalFs VfsNode.
Local Open Scope Z_scope.

(** [v_statfs] is the cached answer of the quota request with its time,
    [v_chans] the number of channels made so far and [v_closed] those closed. *)
Record VFS : Type := mkVFS {
  v_RemoteBase : string; v_Cache : DB; v_Store : Store; v_readOnly : bool;
  v_nodes : heap; v_nodesByID : gmap Z loc; v_Online : bool;
  v_statfs : option (Z * Z * Z); v_chans : nat; v_closed : gset nat }.
#[export] Instance VFS_eta : Eta VFS := λ v,
  mkVFS (v_RemoteBase v) (v_Cache v) (v_Store v) (v_readOnly v) (v_nodes v) (v_nodesByID v)
    (v_Online v) (v_statfs v) (v_chans v) (v_closed v).

(** Unix seconds of a time in nanoseconds. *)
Definition Unix (t : Z) : Z := t / second.

Definition with_node (l : loc) (f : Node → Node) (v : VFS) : VFS :=
  v <| v_nodes := update_node l f (v_nodes v) |>.
Definition with_db {A} (op : DB → result error A * DB) (v : VFS) : result error A * VFS :=
  let '(r, d) := op (v_Cache v) in (r, v <| v_Cache := d |>).
(** A database call whose error the code drops. *)
Definition do_db {A} (op : DB → result error A * DB) (v : VFS) : VFS := (with_db op v).2.

(** ** The node index *)

Definition SetReadOnly (ro : bool) (v : VFS) : VFS :=
  v <| v_readOnly := ro |> <| v_Cache := SetWritebackDisabled ro (v_Cache v) |>.

Definition NodeByID (id : Z) (v : VFS) : option loc := v_nodesByID v !! id.

Definition trackNode (l : loc) (v : VFS) : VFS :=
  match v_nodes v !! l with
  | Some nd => if decide (n_ID nd = 0) then v
               else v <| v_nodesByID := <[n_ID nd := l]> (v_nodesByID v) |>
  | None => v
  end.
Definition untrackNode (l : loc) (v : VFS) : VFS :=
  match v_nodes v !! l with
  | Some nd => if decide (n_ID nd = 0) then v
               else v <| v_nodesByID := delete (n_ID nd) (v_nodesByID v) |>
  | None => v
  end.
Definition AttachChild (parent child : loc) (v : VFS) : option VFS :=
  h ← AddChild parent child (v_nodes v); Some (trackNode child (v <| v_nodes := h |>)).
Definition DetachChild (parent : loc) (name : string) (v : VFS) : VFS :=
  let '(child, h) := RemoveChild parent name (v_nodes v) in
  let v := v <| v_nodes := h |> in
  match child with Some c => untrackNode c v | None => v end.

(** The node an identifier is tracked under. *)
Definition node_by_id (id : Z) (v : VFS) : option (loc * Node) :=
  l ← NodeByID id v; nd ← v_nodes v !! l; Some (l, nd).

Definition evictInUse (v : VFS) (id : Z) : bool :=
  match node_by_id id v with
  | Some (_, nd) => bool_decide (0 < n_OpenCount nd) || n_Dirty nd
  | None => false
  end.
Definition evictClear (id : Z) (v : VFS) : VFS :=
  match node_by_id id v with
  | Some (l, _) => with_node l (λ nd, nd <| n_Cached := false |> <| n_ContentHash := "" |>) v
  | None => v
  end.

(** ** Buffers *)

(** [copy(dst, src)]. *)
Definition copy_into (dst src : bytes) : bytes := take (length dst) src ++ drop (length src) dst.
Definition blen (d : bytes) : Z := Z.of_nat (length d).
(** [d[lo:hi]] of a slice without spare capacity; [None] is the bounds panic. *)
Definition go_slice (lo hi : Z) (d : bytes) : option bytes :=
  if decide (0 ≤ lo ≤ hi ∧ hi ≤ blen d)
  then Some (take (Z.to_nat (hi - lo)) (drop (Z.to_nat lo) d)) else None.
(** [make([]byte, n)] with the old content copied in. *)
Definition extend_to (n : Z) (d : bytes) : bytes := d ++ replicate (Z.to_nat n - length d) x00.

Section content.
Context `{A : AEAD, SH : Sha256, CS : ChunkSize, U : Unicode}.
Variable json_marshal_key : string → string.
Variable json_unmarshal_key : string → option string.

Definition queue_writeback := CacheDB.EnqueueWriteback json_marshal_key json_unmarshal_key.

Definition Read (l : loc) (off size : Z) (v : VFS) : result error bytes * VFS :=
  match v_nodes v !! l with
  | None => (Err go_panic, v)
  | Some node =>
      match n_Dirty node, n_Data node with
      | true, Some data =>
          let end_ := wrap64 (off + size) in
          if decide (blen data ≤ off) then (Ok [], v) else
          let end_ := if decide (blen data < end_) then blen data else end_ in
          (match go_slice off end_ data with Some b => Ok b | None => Err go_panic end, v)
      | _, _ =>
          if decide (n_Cached node = false ∨ n_ContentHash node = "")
          then (Err (ErrText ("file not cached: " ^^ n_RemotePath node)), v)
          else let '(r, s) := ReadAt (n_ContentHash node) off size (v_Store v) in
               (r, v <| v_Store := s |>)
      end
  end.

(** The buffer [Write] and [Truncate] start from. *)
Definition load_data (node : Node) (s : Store) : result error bytes :=
  match n_Data node with
  | Some d => Ok d
  | None => if decide (n_Cached node = true ∧ n_ContentHash node ≠ "")
            then Get (n_ContentHash node) s else Ok []
  end.

Definition touch_content (data : bytes) (size now : Z) (node : Node) : Node :=
  node <| n_Data := Some data |> <| n_Size := size |> <| n_Mtime := now |>
    <| n_Dirty := true |> <| n_WriteGen := (n_WriteGen node + 1) mod 2 ^ 64 |>
    <| n_SyncStatus := StatusPending |>.

Definition Write (l : loc) (off : Z) (data : bytes) (now : Z) (v : VFS) : result error Z * VFS :=
  if v_readOnly v then (Err (ErrSentinel ErrReadOnly), v) else
  match v_nodes v !! l with
  | None => (Err go_panic, v)
  | Some node =>
      match load_data node (v_Store v) with
      | Err e => (Err (ErrWrap "read cached content" e), v)
      | Ok d =>
          let end_ := wrap64 (off + blen data) in
          let d := if decide (blen d < end_) then extend_to end_ d else d in
          match go_slice off (blen d) d with
          | None => (Err go_panic, with_node l (λ nd, nd <| n_Data := Some d |>) v)
          | Some tail =>
              let d := take (Z.to_nat off) d ++ copy_into tail data in
              (Ok (blen data), with_node l (touch_content d (blen d) now) v)
          end
      end
  end.

Definition Truncate (l : loc) (size now : Z) (v : VFS) : result error unit * VFS :=
  if v_readOnly v then (Err (ErrSentinel ErrReadOnly), v) else
  match v_nodes v !! l with
  | None => (Err go_panic, v)
  | Some node =>
      match load_data node (v_Store v) with
      | Err e => (Err e, v)
      | Ok d =>
          let d' := if decide (size < blen d) then go_slice 0 size d
                    else if decide (blen d < size) then Some (extend_to size d) else Some d in
          match d' with
          | None => (Err go_panic, with_node l (λ nd, nd <| n_Data := Some d |>) v)
          | Some d' => (Ok tt, with_node l (touch_content d' size now) v)
          end
      end
  end.

(** What [Flush] draws from outside: the nonces and temp name of [Store.Put], its
    failures, the clock and the generated idempotency key. *)
Record flush_env : Type := mkFlushEnv {
  fe_nonces : nat → bytes; fe_tmp : string; fe_faults : put_faults; fe_now : Z; fe_key : string }.

(** [Flush] once the content is stored under [hash]. *)
Definition flush_stored (l : loc) (node : Node) (hash : string) (env : flush_env) (v : VFS) : VFS :=
  let id := n_ID node in
  let superseded := n_ContentHash node in
  let v := with_node l (λ nd, nd <| n_ContentHash := hash |> <| n_Cached := true |>) v in
  let v := do_db (MarkCached id hash (Unix (fe_now env))) v in
  let v := do_db (MarkDirty id) v in
  let v := if decide (superseded ≠ hash)
           then v <| v_Store := default (v_Store v)
                       (ReleaseBlob (Some (v_Cache v)) (Some (v_Store v)) superseded id) |>
           else v in
  match ValidateFile (n_Name node) (n_Size node) with
  | (false, reason) =>
      let v := do_db (SetSyncStatus id StatusRejected reason) v in
      with_node l (λ nd, nd <| n_SyncStatus := StatusRejected |>
                            <| n_StatusReason := reason |>) v
  | (true, _) =>
      do_db (queue_writeback id "upload" (n_RemotePath node) "" (fe_key env)
               (Unix (fe_now env))) v
  end.

Definition Flush (l : loc) (env : flush_env) (v : VFS) : result error unit * VFS :=
  match v_nodes v !! l with
  | None => (Err go_panic, v)
  | Some node =>
      match n_Dirty node, n_Data node with
      | true, Some data =>
          let '(r, s) := Put data (fe_nonces env) (fe_tmp env) (fe_now env) (fe_faults env)
                           (v_Store v) in
          let v := v <| v_Store := s |> in
          match r with
          | Err e => (Err (ErrWrap "write to cache" e), v)
          | Ok hash => (Ok tt, flush_stored l node hash env v)
          end
      | _, _ => (Ok tt, v)
      end
  end.

Definition Release (l : loc) (env : flush_env) (v : VFS) : result error unit * VFS :=
  match v_nodes v !! l with
  | None => (Err go_panic, v)
  | Some node =>
      let v := with_node l (λ nd, nd <| n_OpenCount := n_OpenCount nd - 1 |>) v in
      if decide (n_OpenCount node - 1 ≤ 0 ∧ n_Dirty node = true) then Flush l env v else (Ok tt, v)
  end.
End content.

(** ** Reading what was written *)

Lemma length_extend n d : (length d ≤ Z.to_nat n)%nat → length (extend_to n d) = Z.to_nat n.
Proof. intros. unfold extend_to. rewrite length_app, length_replicate. lia. Qed.

Lemma lookup_extend n d i :
  extend_to n d !! i = if decide (i < length d)%nat then d !! i
                       else if decide (i < Z.to_nat n)%nat then Some x00 else None.
Proof.
  unfold extend_to. case_decide as H.
  - by rewrite lookup_app_l.
  - rewrite lookup_app_r by lia. case_decide.
    + apply lookup_replicate. split; [done|lia].
    + apply lookup_ge_None. rewrite length_replicate. lia.
Qed.

(** The buffer after a write: the window holds the data, a gap reads as zeros,
    everything else is as before. *)
Definition patched (off : Z) (data c c' : bytes) : Prop :=
  length c' = Nat.max (length c) (Z.to_nat off + length data) ∧
  ∀ i : nat, c' !! i =
    if decide (Z.to_nat off ≤ i < Z.to_nat off + length data)%nat then data !! (i - Z.to_nat off)%nat
    else if decide (i < length c)%nat then c !! i
    else if decide (i < Z.to_nat off)%nat then Some x00 else None.

Lemma write_buffer off data c :
  0 ≤ off → off + blen data < 2 ^ 63 →
  let d := if decide (blen c < wrap64 (off + blen data)) then extend_to (wrap64 (off + blen data)) c
           else c in
  ∃ tail, go_slice off (blen d) d = Some tail ∧
    patched off data c (take (Z.to_nat off) d ++ copy_into tail data).
Proof.
  intros Ho Hb. rewrite wrap64_id by (unfold int64_ok, blen in *; lia). cbv zeta.
  set (d := if decide _ then _ else _).
  assert (length d = Nat.max (length c) (Z.to_nat off + length data)) as Hl.
  { unfold d, blen in *. case_decide; [rewrite length_extend|]; lia. }
  assert (∀ i, d !! i = if decide (i < length c)%nat then c !! i
    else if decide (i < Z.to_nat off + length data)%nat then Some x00 else None) as Hd.
  { intros i. unfold d, blen in *. case_decide.
    - rewrite lookup_extend. by replace (Z.to_nat (off + Z.of_nat (length data)))
        with (Z.to_nat off + length data)%nat by lia.
    - destruct (decide (i < length c)%nat); [done|]. rewrite decide_False by lia.
      apply lookup_ge_None. lia. }
  unfold go_slice, blen in *. rewrite decide_True by lia. eexists; split; [done|].
  rewrite (take_ge (drop _ _)) by (rewrite length_drop; lia). unfold copy_into.
  rewrite length_drop, (take_ge data) by lia. rewrite drop_drop. split.
  - rewrite !length_app, length_take, length_drop. lia.
  - intros i. destruct (decide (i < Z.to_nat off)%nat) as [Hi|Hi].
    + rewrite lookup_app_l by (rewrite length_take; lia). rewrite lookup_take_lt by done.
      rewrite (decide_False (P := (Z.to_nat off ≤ i < _)%nat)) by lia. rewrite Hd.
      destruct (decide (i < length c)%nat); [done|]. by rewrite decide_True by lia.
    + rewrite lookup_app_r by (rewrite length_take; lia). rewrite length_take, Nat.min_l by lia.
      destruct (decide (Z.to_nat off ≤ i < Z.to_nat off + length data)%nat) as [Hw|Hw].
      * by rewrite lookup_app_l by lia.
      * rewrite lookup_app_r by lia. rewrite lookup_drop, Hd.
        replace (Z.to_nat off + length data + (i - Z.to_nat off - length data))%nat with i by lia.
        destruct (decide (i < length c)%nat); [done|]. by rewrite decide_False by lia.
Qed.

Lemma patched_window off data c c' :
  0 ≤ off → patched off data c c' → take (length data) (drop (Z.to_nat off) c') = data.
Proof.
  intros Ho [Hl Hp]. apply list_eq. intros i.
  destruct (decide (i < length data)%nat).
  - rewrite lookup_take_lt, lookup_drop, Hp by done. rewrite decide_True by lia.
    f_equal. lia.
  - rewrite !(proj2 (lookup_ge_None _ _)); [done|lia|rewrite length_take; lia].
Qed.

Section laws.
Context `{A : AEAD, SH : Sha256, CS : ChunkSize, U : Unicode}.

(** A write at an offset the file system can express returns the number of
    bytes written and changes one node only: its buffer becomes the content it
    had (cached blob included) with the window replaced and any gap before it
    filled with zeros, its size the length of that buffer, and it is dirty with a
    new write generation.  Reading the window back yields the data written. *)
Theorem Write_Read l off data now v node c :
  v_readOnly v = false → v_nodes v !! l = Some node →
  load_data node (v_Store v) = Ok c → 0 ≤ off → off + blen data < 2 ^ 63 → blen c < 2 ^ 63 →
  ∃ node', let v' := v <| v_nodes := <[l := node']> (v_nodes v) |> in
    Write l off data now v = (Ok (blen data), v') ∧
    (∃ c', n_Data node' = Some c' ∧ patched off data c c' ∧ n_Size node' = blen c') ∧
    n_Dirty node' = true ∧ n_SyncStatus node' = StatusPending ∧
    n_WriteGen node' = (n_WriteGen node + 1) mod 2 ^ 64 ∧
    Read l off (blen data) v' = (Ok data, v').
Proof using Type.
  intros Hro Hn Hc Ho Hb Hlc. unfold Write. rewrite Hro, Hn, Hc.
  destruct (write_buffer off data c Ho Hb) as (tail & Ht & Hp). cbv zeta.
  rewrite Ht. set (c' := take _ _ ++ _) in *.
  assert (length c' = length (if decide (blen c < wrap64 (off + blen data))
    then extend_to (wrap64 (off + blen data)) c else c)) as Hl'.
  { unfold go_slice in Ht. case_decide as Hd; [|done]. injection Ht as <-. unfold c', copy_into, blen in *.
    rewrite !length_app, !length_take, !length_drop, !length_take, !length_drop. lia. }
  exists (touch_content c' (blen c') now node). split_and!; try done.
  - unfold with_node, blen in *. rewrite Hl'. do 2 f_equal.
    by rewrite (update_node_insert _ _ _ node).
  - by exists c'.
  - unfold Read. simpl. rewrite lookup_insert_eq. simpl.
    rewrite wrap64_id by (unfold int64_ok, blen in *; lia).
    pose proof (proj1 Hp) as Hlen. pose proof (patched_window _ _ _ _ Ho Hp) as Hw.
    unfold blen in *. destruct (decide (Z.of_nat (length c') ≤ off)) as [Hle|Hle].
    + destruct data; [done|]. simpl in *. lia.
    + rewrite decide_False by lia. unfold go_slice, blen. rewrite decide_True by lia.
      replace (Z.to_nat (off + Z.of_nat (length data) - off)) with (length data) by lia.
      by rewrite Hw.
Qed.

(** ** Flushing *)

Lemma Get_frame h s s' :
  cek s' = cek s → files s' !! pathFor h = files s !! pathFor h → Get h s' = Get h s.
Proof using Type. intros Hk Hf. unfold Get, open_blob. by rewrite Hk, Hf. Qed.

Lemma ReleaseBlob_keeps d s h h' id s' :
  ReleaseBlob (Some d) (Some s) h id = Some s' →
  h = "" ∨ proper_hash h → proper_hash h' → h ≠ h' → Get h' s' = Get h' s.
Proof using Type.
  unfold ReleaseBlob. intros Hr Hh Hh' Hne. case_decide as Hd; [by simplify_eq|].
  destruct Hh as [|Hh]; [done|].
  destruct (CountCachedByHash h id d) as [n|]; [|by simplify_eq].
  destruct (decide (0 < n)%nat); [by simplify_eq|]. injection Hr as <-.
  unfold Remove, remove_sys. rewrite decide_False by done. simpl.
  destruct (files s !! pathFor h) as [f|] eqn:E; apply Get_frame; simpl; try done.
  rewrite lookup_delete_ne; [done|]. intros Hp. apply Hne. by apply pathFor_inj.
Qed.

Lemma ReleaseBlob_Some d s h id : is_Some (ReleaseBlob (Some d) (Some s) h id).
Proof using Type.
  unfold ReleaseBlob. case_decide; [by eexists|].
  destruct (CountCachedByHash h id d); [case_decide|]; by eexists.
Qed.

Context (mk : string → string) (un : string → option string).

Lemma do_db_eq {X} (op : DB → result error X * DB) v :
  do_db op v = v <| v_Cache := (op (v_Cache v)).2 |>.
Proof using Type. unfold do_db, with_db. by destruct (op _). Qed.

(** What [flush_stored] leaves behind on an open, writable database. *)
Lemma flush_stored_spec l node hash env v r :
  closed (v_Cache v) = false → writebackDisabled (v_Cache v) = false →
  row_of (n_ID node) (v_Cache v) = Some r →
  n_ContentHash node = "" ∨ proper_hash (n_ContentHash node) → proper_hash hash →
  let v' := flush_stored mk un l node hash env v in
  Get hash (v_Store v') = Get hash (v_Store v) ∧
  (∃ r', row_of (n_ID node) (v_Cache v') = Some r' ∧ c_dirty r' = true ∧ c_cached r' = true ∧
    c_content_hash r' = hash ∧
    match ValidateFile (n_Name node) (n_Size node) with
    | (false, reason) => c_sync_status r' = StatusRejected ∧ c_status_reason r' = reason
    | (true, _) => ∃ e, e ∈ writeback_queue (v_Cache v') ∧ w_InodeID e = n_ID node ∧
        w_Action e = "upload" ∧ w_RemotePath e = n_RemotePath node ∧ w_Status e = "pending"
    end) ∧
  ∃ f, v_nodes v' = update_node l f (v_nodes v) ∧
    ∀ nd, n_Data (f nd) = n_Data nd ∧ n_Dirty (f nd) = n_Dirty nd ∧ n_ContentHash (f nd) = hash.
Proof using Type.
  intros Hc Hw Hr Hsup Hh. cbv zeta. unfold flush_stored.
  set (f := λ nd : Node, nd <| n_ContentHash := hash |> <| n_Cached := true |>).
  set (v1 := do_db (MarkDirty (n_ID node)) _).
  assert (v_Store v1 = v_Store v ∧ v_nodes v1 = update_node l f (v_nodes v) ∧
    closed (v_Cache v1) = false ∧ writebackDisabled (v_Cache v1) = false ∧
    ∃ r1, row_of (n_ID node) (v_Cache v1) = Some r1 ∧ c_dirty r1 = true ∧
      c_cached r1 = true ∧ c_content_hash r1 = hash) as (<- & Hn & Hc1 & Hw1 & r1 & Hr1 & H1).
  { unfold v1, MarkDirty, MarkCached. rewrite !do_db_eq. cbn [v_Cache v_Store v_nodes].
    split; [done|]. split; [done|]. simpl.
    rewrite (update_inode_open _ _ (v_Cache v)) by done. cbn [snd].
    rewrite update_inode_open by done. cbn [snd]. split; [done|]. split; [done|].
    rewrite !row_of_update_eq, Hr by done. simpl. eexists. by split; [reflexivity|]. }
  clearbody v1. set (v2 := if decide (n_ContentHash node ≠ hash) then _ else v1).
  assert (v_Cache v2 = v_Cache v1 ∧ v_nodes v2 = v_nodes v1 ∧
    Get hash (v_Store v2) = Get hash (v_Store v1)) as (Hd2 & Hn2 & <-).
  { unfold v2. case_decide as Hne; [|done]. split; [done|]. split; [done|].
    destruct (ReleaseBlob_Some (v_Cache v1) (v_Store v1) (n_ContentHash node) (n_ID node)) as [s Hs].
    rewrite Hs. simpl. by eapply ReleaseBlob_keeps. }
  clearbody v2. rewrite <- Hd2, <- Hn2 in *. clear v1 Hd2 Hn2.
  destruct (ValidateFile (n_Name node) (n_Size node)) as [[] reason]; rewrite do_db_eq; simpl.
  - split; [done|]. split; [|by exists f].
    exists r1. unfold queue_writeback, EnqueueWriteback. rewrite Hw1, Hc1. simpl.
    destruct H1 as (? & ? & ?). split_and!; try done. eexists. split.
    + apply elem_of_app. right. by apply list_elem_of_singleton.
    + done.
  - split; [done|]. split.
    + unfold SetSyncStatus. rewrite update_inode_open by done. cbn [snd].
      rewrite row_of_update_eq, Hr1 by done. simpl. eexists. split; [reflexivity|].
      destruct H1 as (? & ? & ?). by split_and!.
    + exists (λ nd, (f nd) <| n_SyncStatus := StatusRejected |> <| n_StatusReason := reason |>).
      split; [|done]. rewrite Hn. apply map_eq. intros k. unfold update_node.
      destruct (decide (k = l)) as [->|]; [|by rewrite !lookup_alter_ne].
      rewrite !lookup_alter_eq. by destruct (v_nodes v !! l).
Qed.

Context `{AL : !AEADLaws A, SL : !Sha256Laws SH}.

(** C3: Flushing a dirty buffer on an open, writable database, under any failure
    of the store's system calls.  If the store refuses the content, the database,
    the nodes and the stored files are as before, so the buffer is still dirty.
    Otherwise the content is in the blob store under its hash (releasing the
    superseded blob never removes it), the inode row is cached under that hash and
    dirty, and an upload of the inode is pending, unless validation refuses the
    file, in which case the row is rejected with the reason. *)
Theorem Flush_durable l env v node data r :
  v_nodes v !! l = Some node → n_Dirty node = true → n_Data node = Some data →
  closed (v_Cache v) = false → writebackDisabled (v_Cache v) = false →
  row_of (n_ID node) (v_Cache v) = Some r →
  n_ContentHash node = "" ∨ proper_hash (n_ContentHash node) →
  store_ok (v_Store v) → (∀ i, length (fe_nonces env i) = nonceSize) →
  IsTempName (fe_tmp env) = true →
  files (v_Store v) !! temp_path (sha256_hex data) (fe_tmp env) = None →
  let '(res, v') := Flush mk un l env v in
  match res with
  | Err _ => v_Cache v' = v_Cache v ∧ v_nodes v' = v_nodes v ∧
      files (v_Store v') = files (v_Store v)
  | Ok _ => let hash := sha256_hex data in
      (∃ d, Get hash (v_Store v') = Ok d ∧ sha256_hex d = hash) ∧
      (∃ node', v_nodes v' !! l = Some node' ∧ n_Data node' = Some data ∧
        n_Dirty node' = true ∧ n_ContentHash node' = hash) ∧
      ∃ r', row_of (n_ID node) (v_Cache v') = Some r' ∧ c_dirty r' = true ∧
        c_cached r' = true ∧ c_content_hash r' = hash ∧
        match ValidateFile (n_Name node) (n_Size node) with
        | (false, reason) => c_sync_status r' = StatusRejected ∧ c_status_reason r' = reason
        | (true, _) => ∃ e, e ∈ writeback_queue (v_Cache v') ∧ w_InodeID e = n_ID node ∧
            w_Action e = "upload" ∧ w_RemotePath e = n_RemotePath node ∧ w_Status e = "pending"
        end
  end.
Proof using AL SL.
  intros Hn Hd Hdata Hc Hw Hr Hsup Hok Hnon Htmp Hfresh. unfold Flush. rewrite Hn, Hd, Hdata.
  pose proof (Put_ok data (fe_nonces env) (fe_tmp env) (fe_now env) (fe_faults env)
    (v_Store v) Hok Hnon Htmp Hfresh) as Hp.
  destruct (Put _ _ _ _ _ _) as [res s]. destruct Hp as (_ & _ & Hres).
  destruct res as [hash|e]; [|by destruct Hres]. destruct Hres as (-> & d & Hg & Hsd & _).
  set (v1 := v <| v_Store := s |>).
  destruct (flush_stored_spec l node (sha256_hex data) env v1 r
    Hc Hw Hr Hsup (sha256_proper data)) as (Hget & Hrow & f & Hnodes & Hf).
  split; [exists d; split; [|done]; etransitivity; [exact Hget|exact Hg]|]. split; [|exact Hrow].
  exists (f node). destruct (Hf node) as (-> & -> & ->). split; [|by rewrite Hd].
  rewrite Hnodes. unfold update_node. simpl. by rewrite lookup_alter_eq, Hn.
Qed.
End laws.

(** ** Witnesses *)

#[local] Existing Instance ex_chunk_size | 0.
#[local] Instance ex_unicode : Unicode :=
  {| norm_NFC := id; cases_Lower := id; strings_ToLower := id |}.

Definition ex_node : Node :=
  (NewFileNode "a.txt" "a.txt" 3 0 None) <| n_ID := 1 |> <| n_Dirty := true |>
    <| n_Data := Some [x41; x42; x43] |>.
Definition ex_vfs : VFS :=
  mkVFS "" ex_db ex_store0 false {[ 1%positive := ex_node ]} {[ 1 := 1%positive ]} true None 0 ∅.
Definition ex_env : flush_env :=
  mkFlushEnv ex_nonces ".pigcloud-tmp-1" no_faults (50 * second) "key".

Example Write_runs :
  let '(r, v) := Write 1%positive 5 [x5a] 7 ex_vfs in
  r = Ok 1 ∧ (n_Data <$> v_nodes v !! 1%positive) = Some (Some [x41; x42; x43; x00; x00; x5a]) ∧
  (Read 1%positive 2 100 v).1 = Ok [x43; x00; x00; x5a] ∧
  (Truncate 1%positive 1 8 v).1 = Ok tt.
Proof. vm_compute. by repeat split. Qed.

Lemma Write_Read_witness :
  (Write 1%positive 1 [x5a] 7 ex_vfs).1 = Ok 1 ∧
  (Read 1%positive 1 1 (Write 1%positive 1 [x5a] 7 ex_vfs).2).1 = Ok [x5a].
Proof.
  destruct (Write_Read 1%positive 1 [x5a] 7 ex_vfs ex_node [x41; x42; x43]
    eq_refl eq_refl eq_refl ltac:(lia) ltac:(vm_compute; reflexivity) ltac:(vm_compute; reflexivity))
    as (node' & Hw & _ & _ & _ & _ & Hr).
  rewrite Hw. split; [reflexivity|]. cbn [snd]. change 1 with (blen [x5a]) at 2. by rewrite Hr.
Defined.

Lemma Flush_durable_witness :
  ∃ v', Flush ex_mk ex_un 1%positive ex_env ex_vfs = (Ok tt, v') ∧
    ∃ e, e ∈ writeback_queue (v_Cache v') ∧ w_InodeID e = 1 ∧ w_Status e = "pending".
Proof.
  destruct (row_of 1 ex_db) as [r|] eqn:Hr; [|vm_compute in Hr; discriminate Hr].
  pose proof (Flush_durable ex_mk ex_un 1%positive ex_env ex_vfs ex_node [x41; x42; x43] r
    eq_refl eq_refl eq_refl eq_refl eq_refl Hr (or_introl eq_refl)
    (si_ok _ ex_store0_inv) ex_nonces_ok eq_refl ltac:(vm_compute; reflexivity)) as H.
  destruct (Flush _ _ _ _ _) as [res v'] eqn:E.
  assert (res = Ok tt) as ->.
  { change res with (fst (res, v')). rewrite <- E. vm_compute. reflexivity. }
  exists v'. split; [reflexivity|]. destruct H as (_ & _ & r' & _ & _ & _ & _ & H).
  destruct (ValidateFile _ _) as [[] reason] eqn:V.
  - destruct H as (e & ? & ? & _ & _ & ?). exists e. split_and!; assumption.
  - exfalso. assert ((ValidateFile (n_Name ex_node) (n_Size ex_node)).1 = true) as Hv
      by (vm_compute; reflexivity). rewrite V in Hv. discriminate Hv.
Defined.
