(* ===== verification/Writeback.v ===== *)
(** * The writeback processor: one queue entry

    [internal/mount/syncer/writeback.go] (everything around one entry),
    [upload_content.go], [upload_identity.go], [poller.go:addPathTokens].  The
    world is what the processor shares with the rest of the mount: the tree, the
    database and the store ([VFS]), the sync folder, the clock and the activity
    log.  What happens while a request to the server is under way (a user
    writing, the watcher queueing) is the action's own effect on the world. *)
From S2P Require Import Prelude GoLib GoFmt Table ApiErrors Crypto Hybrid Names CacheDB CacheStore.
From S2P Require Import LocalFs VfsNode VfsContent.
Local Open Scope Z_scope.

Definition debounceDelay : Z := 2 * second.
Definition maxRetries : Z := 3.
Definition processBatchSize : Z := 10.

(** ** The shared world *)

(** The map of suppressed local paths and the timers that will delete entries of
    it ([time.AfterFunc]), each with its due time. *)
Record Suppression : Type := mkSuppression { sp_paths : gset string; sp_timers : list (Z * string) }.
Definition no_suppression : Suppression := mkSuppression ∅ [].

Record World : Type := mkWorld {
  wd_vfs : VFS; wd_fs : LocalFs; wd_now : Z;
  wd_activity : list (string * string * Z * option error);
  wd_suppress : Suppression }.
#[export] Instance World_eta : Eta World := λ w,
  mkWorld (wd_vfs w) (wd_fs w) (wd_now w) (wd_activity w) (wd_suppress w).

Definition wd_db (w : World) : DB := v_Cache (wd_vfs w).
Definition wd_nodes (w : World) : heap := v_nodes (wd_vfs w).
Definition run_db {A} (op : DB → result error A * DB) (w : World) : result error A * World :=
  let '(r, v) := with_db op (wd_vfs w) in (r, w <| wd_vfs := v |>).
(** A call whose error the code drops. *)
Definition call_db {A} (op : DB → result error A * DB) (w : World) : World := (run_db op w).2.
Definition on_node (l : loc) (f : Node → Node) (w : World) : World :=
  w <| wd_vfs := with_node l f (wd_vfs w) |>.
Definition with_inode_node (id : Z) (f : Node → Node) (w : World) : World :=
  match NodeByID id (wd_vfs w) with Some l => on_node l f w | None => w end.

(** ** Upload results *)

Record uploadedContent : Type := mkUploaded { digest : string; etag : string }.
Definition no_upload : uploadedContent := mkUploaded "" "".

(** A decoded response: [Raw] is the body [json.Unmarshal] reads. *)
Record Response : Type := mkResponse {
  Success : bool; MessageKey : string; Message : string; ErrorCode : string; Cwd : string;
  StatusCode : Z; Raw : bytes }.

(** [payload_etag] is [json.Unmarshal] into an [UploadPayload], its [ETag]. *)
Definition confirmedUploadContent (payload_etag : bytes → option string)
    (response : option Response) (dg : string) : uploadedContent :=
  match response with
  | Some r =>
      if Success r then
        match payload_etag (Raw r) with
        | Some tag =>
            match hex_decode tag with
            | Some decoded =>
                if decide (length decoded = 32%nat) then mkUploaded dg tag else mkUploaded dg ""
            | None => mkUploaded dg ""
            end
        | None => mkUploaded dg ""
        end
      else mkUploaded dg ""
  | None => mkUploaded dg ""
  end.

(** ** The identity of an upload *)

Definition upload_domain : bytes := String.list_byte_of_string "pigcloud-sync-upload-v1" ++ [x00].
(** What the HMAC is computed over. *)
Definition identity_message (operationKey remotePath : string) (dg : bytes) : bytes :=
  upload_domain ++ String.list_byte_of_string operationKey ++ [x00] ++
  String.list_byte_of_string remotePath ++ [x00] ++ dg.
Definition identity_error : error :=
  ErrText "upload content identity is unavailable; retry this file after unlocking".
Definition uploadIdentityKey `{Hmac} (nameKey : bytes)
    (operationKey remotePath plaintextDigest : string) : result error string :=
  match hex_decode plaintextDigest with
  | Some dg =>
      if decide (length nameKey ≠ 32%nat ∨ operationKey = "" ∨ remotePath = "" ∨ length dg ≠ 32%nat)
      then Err identity_error
      else Ok (hex_encode (hmac_sha256 nameKey (identity_message operationKey remotePath dg)))
  | None => Err identity_error
  end.

Definition classifyUploadError (err : error) : error :=
  if IsPermanentRequest err then Permanent (ErrWrap "upload" err) else ErrWrap "upload" err.

(** ** Requests without content *)

Section requests.
Context `{U : Unicode, BL : Blake2b, A : AEAD, X : X25519, K : MLKEM, HK : Hkdf}.
Variable json_marshal : gmap string string → option string.
(** [client.Execute(ctx, command, options)]. *)
Variable Execute : string → gmap string string → World → result error Response * World.
Variable NameKey : option bytes.
Variable PublicKey : option PublicKeySet.
(** The random input of a sealed name: ephemeral key, KEM randomness, nonce. *)
Variable seal_rand : World → bytes * bytes * bytes.

Definition addPathTokens (options : gmap string string) (remotePath : string)
    : gmap string string :=
  match NameKey with
  | Some key => if decide (remotePath = "") then options
                else AddPathTokenOptions json_marshal options key
                       (PathTokenPaths remotePath PathTokenSelfAndAncestors)
  | None => options
  end.

Definition checked (prefix : string) (r : result error Response * World)
    : result error unit * World :=
  match r with
  | (Err err, w) => (Err (ErrWrap prefix err), w)
  | (Ok resp, w) => (if Success resp then Ok tt else Err (ErrText (prefix ^^ ": " ^^ Message resp)), w)
  end.

(** [fmt.Sprintf("%x", token)]; a nil name key is the empty slice. *)
Definition processMkdir (entry : WritebackEntry) (w : World) : result error unit * World :=
  let options : gmap string string := {[ "source" := "/" ^^ w_RemotePath entry ]} in
  let options := addPathTokens options (w_RemotePath entry) in
  let name := last_segment slash (w_RemotePath entry) in
  let '(eph, kem, nonce) := seal_rand w in
  let options :=
    match SealDisplayName (String.list_byte_of_string name) PublicKey eph kem nonce with
    | Ok sealedName => <["e2ee_display_name" := base64_encode sealedName]> options
    | Err _ => options
    end in
  let options :=
    match ComputePathToken (default [] NameKey) (w_RemotePath entry) with
    | Ok token => <["e2ee_path_token" := hex_encode token]> options
    | Err _ => options
    end in
  checked "mkdir" (Execute "mk" options w).

Definition processDelete (entry : WritebackEntry) (w : World) : result error unit * World :=
  let options : gmap string string := {[ "source" := "/" ^^ w_RemotePath entry ]} in
  checked "delete" (Execute "rm" (addPathTokens options (w_RemotePath entry)) w).

(** [json_target] is [json.Unmarshal] of the target; a failure leaves it empty. *)
Variable json_target : string → option string.
Definition processRename (entry : WritebackEntry) (w : World) : result error unit * World :=
  let target := if decide (w_ExtraJSON entry = "") then ""
                else default "" (json_target (w_ExtraJSON entry)) in
  if decide (target = "") then (Err (ErrText "rename: missing target"), w) else
  let options : gmap string string :=
    <["target" := "/" ^^ target]> {[ "source" := "/" ^^ w_RemotePath entry ]} in
  let options := addPathTokens options (w_RemotePath entry) in
  let options := addPathTokens options target in
  checked "rename" (Execute "mv" options w).
End requests.

(** ** One entry *)

Definition action (A : Type) : Type := WritebackEntry → World → result error A * World.

(** The processor's dependencies: the server actions, the key generator, the
    JSON of the upload extra, the text of an error ([err.Error()]), the sync
    folder ([""] for a mount without one). *)
Record WritebackProcessor : Type := mkProcessor {
  wp_upload : action uploadedContent;
  wp_mkdir : action unit; wp_delete : action unit; wp_rename : action unit;
  wp_newKey : World → string;
  wp_marshal : string → string; wp_unmarshal : string → option string;
  wp_Error : error → string;
  wp_syncDir : string }.

Section processor.
Context `{SH : Sha256}.
Variable p : WritebackProcessor.

Definition localPath_of (w : World) (remotePath : string) : option string :=
  LocalFs.localPath (wd_fs w) (wp_syncDir p) (v_RemoteBase (wd_vfs w)) remotePath.

(** [EnqueueWriteback(id, action, path, "")]. *)
Definition enqueue (id : Z) (act path : string) (w : World) : result error unit * World :=
  run_db (EnqueueWriteback (wp_marshal p) (wp_unmarshal p) id act path "" (wp_newKey p w)
            (Unix (wd_now w))) w.

Definition emitUpload (entry : WritebackEntry) (n : Z) (err : option error) (w : World) : World :=
  if decide (w_Action entry ≠ "upload") then w
  else w <| wd_activity := wd_activity w ++ [(w_RemotePath entry, "upload", n, err)] |>.

Definition os_Stat_mtime (fs : LocalFs) (lp : string) : option Z :=
  match os_Lstat fs lp with
  | Ok (FsFile _ mtime) | Ok (FsDir mtime) => Some mtime
  | _ => None
  end.

Definition recordUploaded (entry : WritebackEntry) (dg : string) (confirmedEtag : option string)
    (w : World) : World :=
  if decide (dg = "") then w else
  let mtime := match localPath_of w (w_RemotePath entry) with
               | Some lp => match os_Stat_mtime (wd_fs w) lp with Some t => Unix t | None => 0 end
               | None => 0
               end in
  match confirmedEtag with
  | Some tag =>
      call_db (SetLocalContentForVersion (w_InodeID entry) dg mtime tag)
        (call_db (SetRemoteVersion (w_InodeID entry) tag) w)
  | None => call_db (SetLocalContent (w_InodeID entry) dg mtime) w
  end.

(** The action switch; an upload sealed to a retired scanner key is tried once
    more. *)
Definition lift_unit (r : result error unit * World) : result error uploadedContent * World :=
  match r with (Ok _, w) => (Ok no_upload, w) | (Err e, w) => (Err e, w) end.
Definition run_action (entry : WritebackEntry) (w : World)
    : result error uploadedContent * World :=
  if decide (w_Action entry = "upload") then
    match wp_upload p entry w with
    | (Err err, w') => if errors_Is ErrTeeSealStale err then wp_upload p entry w' else (Err err, w')
    | ok => ok
    end
  else if decide (w_Action entry = "mkdir") then lift_unit (wp_mkdir p entry w)
  else if decide (w_Action entry = "delete") then lift_unit (wp_delete p entry w)
  else if decide (w_Action entry = "rename") then lift_unit (wp_rename p entry w)
  else (Err (ErrText ("unknown action: " ^^ w_Action entry)), w).

(** The error branch. *)
Definition entry_failed (entry : WritebackEntry) (uploadBytes : Z) (err : error) (w : World)
    : World :=
  let attempts := w_Attempts entry + 1 in
  let text := wp_Error p err in
  if decide (maxRetries ≤ attempts ∨ IsPermanent err = true) then
    let w := call_db (UpdateWriteback (w_ID entry) "failed" text attempts) w in
    let w := call_db (SetSyncStatus (w_InodeID entry) StatusFailed text) w in
    let w :=
      if decide (w_Action entry = "upload") then
        let next := if IsPermanent err then 0
                    else Unix (wd_now w + writebackRetryDelay err attempts) in
        call_db (RecordSyncFailure (mkSyncFailure (w_InodeID entry) FailureUpload
                   (IsPermanent err) attempts next text)) w
      else w in
    let w := with_inode_node (w_InodeID entry)
               (λ nd, nd <| n_SyncStatus := StatusFailed |> <| n_StatusReason := text |>) w in
    emitUpload entry uploadBytes (Some err) w
  else
    let delay := writebackRetryDelay err attempts in
    let w := call_db (SetSyncStatus (w_InodeID entry) StatusPending text) w in
    call_db (DeferWriteback (w_ID entry) text attempts (Unix (wd_now w + delay))) w.

(** (localChanged, localMissing). *)
Definition local_state (entry : WritebackEntry) (dg : string) (w : World) : bool * bool :=
  if decide (w_Action entry = "upload" ∧ wp_syncDir p ≠ "") then
    match localPath_of w (w_RemotePath entry) with
    | None => (true, false)
    | Some lp =>
        match hashLocalFile (wd_fs w) lp with
        | Ok d => (bool_decide (d ≠ dg), false)
        | Err e => (true, IsNotExist e)
        end
    end
  else (false, false).

Definition requeue_node (text : string) (nd : Node) : Node :=
  nd <| n_Dirty := true |> <| n_SyncStatus := StatusPending |> <| n_StatusReason := text |>.
Definition nextAction (localMissing : bool) : string := if localMissing then "delete" else "upload".

(** The content changed while it was uploaded: keep it dirty, queue it again. *)
Definition requeue_changed (entry : WritebackEntry) (pre : option loc) (localMissing : bool)
    (path : string) (w : World) : World :=
  let w := call_db (MarkDirty (w_InodeID entry)) w in
  match enqueue (w_InodeID entry) (nextAction localMissing) path w with
  | (Ok _, w) => w
  | (Err _, w) =>
      let w := call_db (SetSyncStatus (w_InodeID entry) StatusPending "re-enqueue failed") w in
      match pre with
      | Some l => on_node l (requeue_node "re-enqueue failed") w
      | None => w
      end
  end.

(** The success branch up to the check for changes. *)
Definition record_done (entry : WritebackEntry) (uploadBytes : Z) (uploaded : uploadedContent)
    (w : World) : World :=
  let w := call_db (DeleteWriteback (w_ID entry)) w in
  let w :=
    if decide (w_Action entry = "upload") then
      recordUploaded entry (digest uploaded) (Some (etag uploaded))
        (call_db (ClearSyncFailure (w_InodeID entry) FailureUpload) w)
    else w in
  emitUpload entry uploadBytes None w.

(** Its last part, for an entry without a node or an unchanged one. *)
Definition settle_inode (entry : WritebackEntry) (tag : string) (localChanged localMissing : bool)
    (w : World) : World :=
  if localChanged then requeue_changed entry None localMissing (w_RemotePath entry) w
  else call_db (MarkSynced (w_InodeID entry) tag) w.

Definition synced_node (nd : Node) : Node :=
  nd <| n_Dirty := false |> <| n_SyncStatus := StatusSynced |> <| n_StatusReason := "" |>
    <| n_Data := None |>.

(** The node part, for the node [pre] and its write generation before the
    upload. *)
Definition settle (entry : WritebackEntry) (pre : option (loc * Z)) (tag : string)
    (localChanged localMissing : bool) (w : World) : World :=
  match pre with
  | Some (l, preGen) =>
      match wd_nodes w !! l with
      | Some preNode =>
          let w := on_node l (λ nd, nd <| n_Etag := tag |>) w in
          if decide (n_WriteGen preNode ≠ preGen ∨ localChanged = true) then
            requeue_changed entry (Some l) localMissing (n_RemotePath preNode)
              (on_node l (requeue_node "") w)
          else settle_inode entry tag localChanged localMissing (on_node l synced_node w)
      | None => settle_inode entry tag localChanged localMissing w
      end
  | None => settle_inode entry tag localChanged localMissing w
  end.

Definition entry_done (entry : WritebackEntry) (uploadBytes : Z) (pre : option (loc * Z))
    (uploaded : uploadedContent) (w : World) : World :=
  let w := record_done entry uploadBytes uploaded w in
  let '(localChanged, localMissing) := local_state entry (digest uploaded) w in
  settle entry pre (etag uploaded) localChanged localMissing w.

Definition pre_node (entry : WritebackEntry) (w : World) : option (loc * Z) :=
  if decide (w_Action entry = "upload") then
    l ← NodeByID (w_InodeID entry) (wd_vfs w);
    n ← wd_nodes w !! l; Some (l, n_WriteGen n)
  else None.
Definition upload_bytes (entry : WritebackEntry) (w : World) : Z :=
  if decide (w_Action entry = "upload") then
    match GetInode (w_InodeID entry) (wd_db w) with Ok i => i_Size i | Err _ => 0 end
  else 0.

Definition processEntry (entry : WritebackEntry) (w : World) : bool * World :=
  let pre := pre_node entry w in
  let uploadBytes := upload_bytes entry w in
  match run_action entry w with
  | (Err err, w) => (false, entry_failed entry uploadBytes err w)
  | (Ok uploaded, w) => (true, entry_done entry uploadBytes pre uploaded w)
  end.

(** ** Batches *)

Definition heldByConflict (entry : WritebackEntry) (w : World) : bool :=
  bool_decide (w_Action entry = "upload") &&
  match GetInode (w_InodeID entry) (wd_db w) with
  | Ok inode => bool_decide (i_SyncStatus inode = StatusConflict)
  | Err _ => false
  end.

Definition requeue (entries : list WritebackEntry) (w : World) : World :=
  foldl (λ w e, call_db (UpdateWriteback (w_ID e) "pending" (w_LastError e) (w_Attempts e)) w)
    w entries.

(** The loop over a claimed batch: [ctx_err] is [ctx.Err() != nil].  [None] when
    the context ended, with everything unprocessed requeued; otherwise the held
    entries and the number flushed. *)
Fixpoint batch_loop (ctx_err : World → bool) (entries held : list WritebackEntry) (flushed : Z)
    (w : World) : option (list WritebackEntry) * Z * World :=
  match entries with
  | [] => (Some held, flushed, w)
  | entry :: rest =>
      if ctx_err w then (None, flushed, requeue held (requeue entries w))
      else if heldByConflict entry w then batch_loop ctx_err rest (held ++ [entry]) flushed w
      else
        let '(ok, w) := processEntry entry w in
        batch_loop ctx_err rest held (if ok then flushed + 1 else flushed) w
  end.

Definition processBatch (ctx_err : World → bool) (w : World) : World :=
  let claimBefore := Unix (wd_now w - debounceDelay) in
  match run_db (DequeueWriteback processBatchSize claimBefore (Unix (wd_now w))) w with
  | (Err _, w) => w
  | (Ok [], w) => w
  | (Ok entries, w) =>
      match batch_loop ctx_err entries [] 0 w with
      | (Some held, _, w) => requeue held w
      | (None, _, w) => w
      end
  end.

Record FlushResult : Type := mkFlushResult { Flushed : Z; Deferred : Z; NextDue : Z }.

Definition withDeferred (flushed : Z) (w : World) : FlushResult :=
  let horizon := Unix (wd_now w) + 1 in
  match DeferredWritebackCount horizon (wd_db w) with
  | Ok (count, next) =>
      mkFlushResult flushed (Z.of_nat count)
        (if decide (horizon < next) then (next - horizon) * second else 0)
  | Err _ => mkFlushResult flushed 0 0
  end.

Definition flush_timeout : error := ErrText "flush timeout with entries remaining".

(** The outer loop; [None] is out of fuel. *)
Fixpoint flush_loop (fuel : nat) (ctx_err : World → bool) (flushed : Z) (w : World)
    : option (FlushResult * option error * World) :=
  match fuel with
  | O => None
  | S fuel =>
      match run_db (DequeueWriteback processBatchSize 0 (Unix (wd_now w))) w with
      | (Err err, w) => Some (withDeferred flushed w, Some err, w)
      | (Ok entries, w) =>
          if decide (entries = []) then Some (withDeferred flushed w, None, w) else
          match batch_loop ctx_err entries [] flushed w with
          | (None, flushed, w) => Some (withDeferred flushed w, Some flush_timeout, w)
          | (Some held, flushed, w) =>
              let w := requeue held w in
              if decide (length held = length entries)
              then Some (withDeferred flushed w, None, w)
              else flush_loop fuel ctx_err flushed w
          end
      end
  end.

(** [FlushAll(timeout)]: the context ends when the timeout has passed. *)
Definition FlushAll (fuel : nat) (timeout : Z) (w : World)
    : option (FlushResult * option error * World) :=
  if WritebackDisabled (wd_db w)
  then Some (mkFlushResult 0 0 0, Some (ErrSentinel ErrReadOnlyMount), w)
  else let deadline := wd_now w + timeout in
       flush_loop fuel (λ w, bool_decide (deadline ≤ wd_now w)) 0 w.
End processor.

(** ** The effect of database calls on the world *)

Definition db_open (w : World) : Prop :=
  closed (wd_db w) = false ∧ writebackDisabled (wd_db w) = false.

Lemma call_db_eq {X} (op : DB → result error X * DB) w :
  call_db op w = w <| wd_vfs := (wd_vfs w) <| v_Cache := (op (wd_db w)).2 |> |>.
Proof. unfold call_db, run_db, with_db, wd_db. by destruct (op _). Qed.

Lemma wd_db_call {X} (op : DB → result error X * DB) w : wd_db (call_db op w) = (op (wd_db w)).2.
Proof. by rewrite call_db_eq. Qed.
Lemma wd_nodes_call {X} (op : DB → result error X * DB) w : wd_nodes (call_db op w) = wd_nodes w.
Proof. by rewrite call_db_eq. Qed.
Lemma wd_db_node l f w : wd_db (on_node l f w) = wd_db w.
Proof. done. Qed.
Lemma wd_nodes_node l f w : wd_nodes (on_node l f w) = update_node l f (wd_nodes w).
Proof. done. Qed.
Lemma wd_db_emit entry n err w : wd_db (emitUpload entry n err w) = wd_db w.
Proof. unfold emitUpload. by case_decide. Qed.
Lemma wd_nodes_emit entry n err w : wd_nodes (emitUpload entry n err w) = wd_nodes w.
Proof. unfold emitUpload. by case_decide. Qed.
Lemma wd_now_call {X} (op : DB → result error X * DB) w : wd_now (call_db op w) = wd_now w.
Proof. by rewrite call_db_eq. Qed.
Lemma wd_db_inode id f w : wd_db (with_inode_node id f w) = wd_db w.
Proof. unfold with_inode_node. by destruct (NodeByID _ _). Qed.
Hint Rewrite @wd_db_call @wd_nodes_call @wd_now_call wd_db_inode wd_db_node wd_nodes_node wd_db_emit wd_nodes_emit : world.

(** The sync folder and the base path are no database state. *)
Definition same_fs (w w' : World) : Prop :=
  wd_fs w' = wd_fs w ∧ v_RemoteBase (wd_vfs w') = v_RemoteBase (wd_vfs w) ∧ wd_now w' = wd_now w.
Lemma same_fs_call {X} (op : DB → result error X * DB) w : same_fs w (call_db op w).
Proof. by rewrite call_db_eq. Qed.
Lemma same_fs_emit entry n err w : same_fs w (emitUpload entry n err w).
Proof. unfold emitUpload. by case_decide. Qed.
Lemma same_fs_trans w1 w2 w3 : same_fs w1 w2 → same_fs w2 w3 → same_fs w1 w3.
Proof. unfold same_fs. naive_solver congruence. Qed.
#[export] Hint Resolve same_fs_call same_fs_emit : go.
Ltac same_fs_steps :=
  repeat lazymatch goal with
  | |- same_fs _ (emitUpload ?e ?n ?r ?w) => apply (same_fs_trans _ w); [|apply same_fs_emit]
  | |- same_fs _ (call_db ?op ?w) => apply (same_fs_trans _ w); [|apply (same_fs_call op w)]
  end.

Section frames.
Context (d : DB).
Lemma ui_closed id f : closed (update_inode id f d).2 = closed d.
Proof using Type. unfold update_inode, exec_, exec. by destruct (closed d) eqn:E. Qed.
Lemma ui_disabled id f : writebackDisabled (update_inode id f d).2 = writebackDisabled d.
Proof using Type. unfold update_inode, exec_, exec. by destruct (closed d). Qed.
Lemma ui_queue id f : writeback_queue (update_inode id f d).2 = writeback_queue d.
Proof using Type. unfold update_inode, exec_, exec. by destruct (closed d). Qed.
Lemma ui_failures id f : sync_failures (update_inode id f d).2 = sync_failures d.
Proof using Type. unfold update_inode, exec_, exec. by destruct (closed d). Qed.
Lemma ui_row id f : closed d = false → (∀ r, c_id (f r) = c_id r) →
  row_of id (update_inode id f d).2 = f <$> row_of id d.
Proof using Type. intros. rewrite update_inode_open by done. by apply row_of_update_eq. Qed.

Lemma q_closed f : closed (exec_ (on_queue f) d).2 = closed d.
Proof using Type. unfold exec_, exec. by destruct (closed d) eqn:E. Qed.
Lemma q_disabled f : writebackDisabled (exec_ (on_queue f) d).2 = writebackDisabled d.
Proof using Type. unfold exec_, exec. by destruct (closed d). Qed.
Lemma q_row id f : row_of id (exec_ (on_queue f) d).2 = row_of id d.
Proof using Type. unfold exec_, exec. by destruct (closed d). Qed.
Lemma q_failures f : sync_failures (exec_ (on_queue f) d).2 = sync_failures d.
Proof using Type. unfold exec_, exec. by destruct (closed d). Qed.
Lemma q_queue f : closed d = false →
  writeback_queue (exec_ (on_queue f) d).2 = f (writeback_queue d).
Proof using Type. intros Hc. unfold exec_, exec. by rewrite Hc. Qed.

Lemma sf_closed f : closed (exec_ (on_failures f) d).2 = closed d.
Proof using Type. unfold exec_, exec. by destruct (closed d) eqn:E. Qed.
Lemma sf_disabled f : writebackDisabled (exec_ (on_failures f) d).2 = writebackDisabled d.
Proof using Type. unfold exec_, exec. by destruct (closed d). Qed.
Lemma sf_row id f : row_of id (exec_ (on_failures f) d).2 = row_of id d.
Proof using Type. unfold exec_, exec. by destruct (closed d). Qed.
Lemma sf_queue f : writeback_queue (exec_ (on_failures f) d).2 = writeback_queue d.
Proof using Type. unfold exec_, exec. by destruct (closed d). Qed.
End frames.
Hint Rewrite ui_closed ui_disabled ui_queue ui_failures q_closed q_disabled q_row q_failures
  sf_closed sf_disabled sf_row sf_queue : world.
Hint Rewrite q_queue ui_row using (autorewrite with world; done) : world.

Ltac unfold_calls :=
  unfold MarkDirty, MarkSynced, SetSyncStatus, SetRemoteVersion, SetLocalContentForVersion,
    SetLocalContent, DeleteWriteback, delete_queue, UpdateWriteback, DeferWriteback,
    ClearSyncFailure, RecordSyncFailure.
Ltac world_simpl := unfold_calls; autorewrite with world.

Section entry.
Context `{SH : Sha256} (p : WritebackProcessor).

Lemma local_state_fs entry dg w w' :
  same_fs w w' → local_state p entry dg w' = local_state p entry dg w.
Proof using Type. intros (Hf & Hb & _). unfold local_state, localPath_of. by rewrite Hf, Hb. Qed.

(** An open, writable database takes every enqueue. *)
Lemma enqueue_open id act path w :
  db_open w → ∃ e, w_InodeID e = id ∧ w_Action e = act ∧ w_RemotePath e = path ∧
    w_Status e = "pending" ∧
    let q := writeback_queue (wd_db w) in
    let w' := call_db (λ d, (Ok tt, d <| writeback_queue :=
      (if decide (act ≠ "rename")
       then sql_delete (λ e, w_InodeID e = id ∧ w_Action e = act ∧ w_Status e = "pending") q
       else q) ++ [e] |> <| wb_seq := wb_seq d + 1 |>) : result error unit * DB) w in
    enqueue p id act path w = (Ok tt, w').
Proof using Type.
  intros [Hc Hw]. unfold enqueue, run_db, with_db, EnqueueWriteback, wd_db in *. rewrite Hw, Hc.
  eexists. split; [|split; [|split; [|split]]]; [..|reflexivity]; done.
Qed.

Lemma requeue_changed_spec entry pre missing path w r :
  db_open w → row_of (w_InodeID entry) (wd_db w) = Some r →
  let w' := requeue_changed p entry pre missing path w in
  row_of (w_InodeID entry) (wd_db w') =
    Some (r <| c_dirty := true |> <| c_sync_status := StatusPending |>) ∧
  wd_nodes w' = wd_nodes w ∧
  ∃ e, e ∈ writeback_queue (wd_db w') ∧ w_InodeID e = w_InodeID entry ∧
    w_Action e = nextAction missing ∧ w_RemotePath e = path ∧ w_Status e = "pending".
Proof using Type.
  intros [Hc Hw] Hr. cbv zeta. unfold requeue_changed.
  destruct (enqueue_open (w_InodeID entry) (nextAction missing) path
    (call_db (MarkDirty (w_InodeID entry)) w)) as (e & ? & ? & ? & ? & ->).
  { unfold db_open. world_simpl. by rewrite Hc, Hw. }
  cbv zeta. rewrite wd_db_call, wd_nodes_call. split_and!.
  - transitivity (row_of (w_InodeID entry) (wd_db (call_db (MarkDirty (w_InodeID entry)) w))); [done|].
    world_simpl. by rewrite Hr.
  - by world_simpl.
  - exists e. split; [|done]. apply elem_of_app. right. by left.
Qed.

Lemma record_done_spec entry n uploaded w r :
  w_Action entry = "upload" →
  db_open w → row_of (w_InodeID entry) (wd_db w) = Some r →
  let w' := record_done p entry n uploaded w in
  db_open w' ∧ same_fs w w' ∧ wd_nodes w' = wd_nodes w ∧
  v_nodesByID (wd_vfs w') = v_nodesByID (wd_vfs w) ∧
  writeback_queue (wd_db w') = sql_delete (λ e, w_ID e = w_ID entry) (writeback_queue (wd_db w)) ∧
  ∃ r', row_of (w_InodeID entry) (wd_db w') = Some r' ∧ c_dirty r' = c_dirty r ∧
    (digest uploaded ≠ "" → c_local_hash r' = digest uploaded ∧
       c_local_remote_etag r' = etag uploaded ∧ c_etag r' = etag uploaded).
Proof using Type.
  intros Ha [Hc Hw] Hr. cbv zeta. unfold record_done, recordUploaded, db_open.
  rewrite decide_True by done.
  case_decide as Hd.
  - split_and!; try (by world_simpl).
    + by same_fs_steps.
    + unfold emitUpload. case_decide; by rewrite !call_db_eq.
    + exists r. world_simpl. done.
  - match goal with |- context [SetLocalContentForVersion _ _ ?t] => generalize t end. intros mtime.
    split_and!; try (by world_simpl).
    + by same_fs_steps.
    + unfold emitUpload. case_decide; by rewrite !call_db_eq.
    + world_simpl. rewrite Hr. eexists. split; [reflexivity|]. done.
Qed.

(** The node's content was edited while the upload ran. *)
Definition edited (pre : option (loc * Z)) (w : World) : Prop :=
  match pre with
  | Some (l, gen) => ∃ nd, wd_nodes w !! l = Some nd ∧ n_WriteGen nd ≠ gen
  | None => False
  end.
(** Node [l], where the entry has one, is as [P] says, given what it was. *)
Definition pre_is (pre : option (loc * Z)) (w w' : World) (P : Node → Node → Prop) : Prop :=
  match pre with
  | Some (l, _) => ∀ nd, wd_nodes w !! l = Some nd → ∃ nd', wd_nodes w' !! l = Some nd' ∧ P nd nd'
  | None => True
  end.

Lemma on_node_lookup l f w nd :
  wd_nodes w !! l = Some nd → wd_nodes (on_node l f w) !! l = Some (f nd).
Proof using Type.
  intros Hl. rewrite wd_nodes_node. unfold update_node. by rewrite lookup_alter_eq, Hl.
Qed.

(** The two ways the success branch can end. *)
Definition kept_dirty (entry : WritebackEntry) (missing : bool) (w' : World) : Prop :=
  (∃ r', row_of (w_InodeID entry) (wd_db w') = Some r' ∧ c_dirty r' = true ∧
     c_sync_status r' = StatusPending) ∧
  ∃ e, e ∈ writeback_queue (wd_db w') ∧ w_InodeID e = w_InodeID entry ∧
     w_Action e = nextAction missing ∧ w_Status e = "pending".
Definition marked_synced (entry : WritebackEntry) (tag : string) (w w' : World) : Prop :=
  (∃ r', row_of (w_InodeID entry) (wd_db w') = Some r' ∧ c_dirty r' = false ∧
     c_sync_status r' = StatusSynced ∧ c_etag r' = tag) ∧
  writeback_queue (wd_db w') = writeback_queue (wd_db w).

Lemma requeue_kept entry pre missing path w w0 r :
  db_open w → row_of (w_InodeID entry) (wd_db w) = Some r → wd_db w0 = wd_db w →
  let w' := requeue_changed p entry pre missing path w0 in
  kept_dirty entry missing w' ∧ wd_nodes w' = wd_nodes w0.
Proof using Type.
  unfold db_open. intros Ho Hr Hd. rewrite <- Hd in Ho, Hr.
  destruct (requeue_changed_spec entry pre missing path w0 r Ho Hr) as (H1 & H2 & e & ? & ? & ? & _ & ?).
  cbv zeta. split; [|done]. split; [by eexists|by exists e].
Qed.

Lemma settle_inode_spec entry tag changed missing w w0 r :
  db_open w → row_of (w_InodeID entry) (wd_db w) = Some r → wd_db w0 = wd_db w →
  let w' := settle_inode p entry tag changed missing w0 in
  (changed = true → kept_dirty entry missing w') ∧
  (changed = false → marked_synced entry tag w w') ∧ wd_nodes w' = wd_nodes w0.
Proof using Type.
  intros Ho Hr Hd. unfold settle_inode. destruct changed.
  - destruct (requeue_kept entry None missing (w_RemotePath entry) w w0 r Ho Hr Hd). by split_and!.
  - cbv zeta. split; [done|]. destruct Ho as [Hc _]. unfold marked_synced.
    rewrite <- Hd in Hc, Hr |- *. split; [intros _|by world_simpl].
    world_simpl. rewrite Hr. split; [by eexists|done].
Qed.

Lemma settle_spec entry pre tag changed missing w r :
  db_open w → row_of (w_InodeID entry) (wd_db w) = Some r →
  let w' := settle p entry pre tag changed missing w in
  (edited pre w ∨ changed = true → kept_dirty entry missing w' ∧
     pre_is pre w w' (λ nd nd', n_Data nd' = n_Data nd ∧ n_WriteGen nd' = n_WriteGen nd ∧
       n_Dirty nd' = true ∧ n_SyncStatus nd' = StatusPending)) ∧
  (¬ edited pre w → changed = false → marked_synced entry tag w w' ∧
     pre_is pre w w' (λ nd nd', n_Data nd' = None ∧ n_Dirty nd' = false ∧
        n_SyncStatus nd' = StatusSynced ∧ n_Etag nd' = tag)).
Proof using Type.
  intros Ho Hr. cbv zeta. unfold settle.
  pose proof (settle_inode_spec entry tag changed missing w) as Hi.
  destruct pre as [[l gen]|]; simpl; [|destruct (Hi w r Ho Hr eq_refl) as (? & ? & _); naive_solver].
  destruct (wd_nodes w !! l) as [nd|] eqn:Hl;
    [|destruct (Hi w r Ho Hr eq_refl) as (? & ? & _); naive_solver].
  pose proof (on_node_lookup l (λ nd, nd <| n_Etag := tag |>) w nd Hl) as Hl'.
  destruct (decide (n_WriteGen nd ≠ gen ∨ changed = true)) as [Hd|Hd].
  - set (w0 := on_node l (requeue_node "") _).
    destruct (requeue_kept entry (Some l) missing (n_RemotePath nd) w w0 r Ho Hr eq_refl) as [Hk Hn].
    split; [|naive_solver]. intros _. split; [done|]. intros nd' [= <-]. rewrite Hn.
    eexists. split; [by apply on_node_lookup|]. done.
  - set (w0 := on_node l synced_node _).
    destruct (Hi w0 r Ho Hr eq_refl) as (_ & Hs & Hn).
    split; [naive_solver|]. intros _ Hc. split; [by apply Hs|]. intros nd' [= <-]. rewrite Hn.
    eexists. split; [by apply on_node_lookup|]. done.
Qed.

(** C2: An upload that succeeds never loses an edit.  If the node was written to
    while the upload ran (its write generation moved) or the local file no longer
    has the uploaded digest, the inode stays dirty and pending, another upload (a
    delete when the local file is gone) is queued for it, and the node keeps its
    buffer and its generation; otherwise, and only then, the inode is marked
    synced under the confirmed version, the node drops its buffer, and the entry
    is gone from the queue. *)
Theorem processEntry_no_lost_edit entry w uploaded w1 r :
  w_Action entry = "upload" → run_action p entry w = (Ok uploaded, w1) →
  db_open w1 → row_of (w_InodeID entry) (wd_db w1) = Some r →
  let pre := pre_node entry w in
  let '(localChanged, localMissing) := local_state p entry (digest uploaded) w1 in
  let '(ok, w2) := processEntry p entry w in
  ok = true ∧
  (edited pre w1 ∨ localChanged = true → kept_dirty entry localMissing w2 ∧
     pre_is pre w1 w2 (λ nd nd', n_Data nd' = n_Data nd ∧ n_WriteGen nd' = n_WriteGen nd ∧
       n_Dirty nd' = true ∧ n_SyncStatus nd' = StatusPending)) ∧
  (¬ edited pre w1 → localChanged = false →
     (∃ r', row_of (w_InodeID entry) (wd_db w2) = Some r' ∧ c_dirty r' = false ∧
        c_sync_status r' = StatusSynced ∧ c_etag r' = etag uploaded) ∧
     writeback_queue (wd_db w2) =
       sql_delete (λ e, w_ID e = w_ID entry) (writeback_queue (wd_db w1)) ∧
     pre_is pre w1 w2 (λ nd nd', n_Data nd' = None ∧ n_Dirty nd' = false ∧
       n_SyncStatus nd' = StatusSynced ∧ n_Etag nd' = etag uploaded)).
Proof using Type.
  intros Ha Hrun Ho Hr. cbv zeta. unfold processEntry. rewrite Hrun.
  pose proof (record_done_spec entry (upload_bytes entry w) uploaded w1 r Ha Ho Hr)
    as (Ho' & Hfs & Hn & _ & Hq & r' & Hr' & _ & _).
  rewrite <- (local_state_fs _ _ _ _ Hfs). unfold entry_done.
  set (wd := record_done p entry (upload_bytes entry w) uploaded w1) in *.
  destruct (local_state p entry (digest uploaded) wd) as [changed missing].
  pose proof (settle_spec entry (pre_node entry w) (etag uploaded) changed missing wd r' Ho' Hr')
    as [H1 H2].
  unfold edited, pre_is, marked_synced in *. rewrite Hn in H1, H2. rewrite <- Hq.
  split; [done|]. split; [exact H1|]. intros Hne Hc. destruct (H2 Hne Hc) as ((? & ?) & ?). done.
Qed.

(** What a failed attempt makes of the queue entry. *)
Definition failed_entry (text : string) (attempts : Z) (e : WritebackEntry) : WritebackEntry :=
  e <| w_Status := "failed" |> <| w_LastError := text |> <| w_Attempts := attempts |>.
Definition deferred_entry (text : string) (attempts notBefore : Z) (e : WritebackEntry)
    : WritebackEntry :=
  e <| w_Status := "pending" |> <| w_LastError := text |> <| w_Attempts := attempts |>
    <| w_EnqueuedAt := notBefore |>.

(** C26: A failed attempt counts.  On the third one, or at once for a permanent
    error, the entry is marked failed, the inode failed with the error's text, and
    for an upload the failure is recorded with the attempts and, unless permanent,
    the time of the next retry; before that the entry goes back to the queue, to
    be claimed no earlier than the retry delay from now.  Either way the inode
    keeps its dirty flag and no other entry changes. *)
Theorem processEntry_retry entry w err w1 r :
  run_action p entry w = (Err err, w1) → db_wf (wd_db w1) → db_open w1 →
  row_of (w_InodeID entry) (wd_db w1) = Some r →
  let attempts := w_Attempts entry + 1 in
  let text := wp_Error p err in
  let '(ok, w2) := processEntry p entry w in
  ok = false ∧
  (∃ r', row_of (w_InodeID entry) (wd_db w2) = Some r' ∧ c_dirty r' = c_dirty r ∧
     c_status_reason r' = text ∧
     c_sync_status r' = if decide (3 ≤ attempts ∨ IsPermanent err = true)
                        then StatusFailed else StatusPending) ∧
  writeback_queue (wd_db w2) = sql_update (λ e, w_ID e = w_ID entry)
    (if decide (3 ≤ attempts ∨ IsPermanent err = true) then failed_entry text attempts
     else deferred_entry text attempts (Unix (wd_now w1 + writebackRetryDelay err attempts)))
    (writeback_queue (wd_db w1)) ∧
  (w_Action entry = "upload" → 3 ≤ attempts ∨ IsPermanent err = true →
   GetSyncFailure (w_InodeID entry) FailureUpload (wd_db w2) = Ok (Some
     (mkSyncFailure (w_InodeID entry) FailureUpload (IsPermanent err) attempts
        (if IsPermanent err then 0
         else Unix (wd_now w1 + writebackRetryDelay err attempts)) text))).
Proof using Type.
  intros Hrun Hwf [Hc Hw] Hr. cbv zeta. unfold processEntry. rewrite Hrun. split; [done|].
  unfold entry_failed. change maxRetries with 3.
  destruct (decide (3 ≤ w_Attempts entry + 1 ∨ IsPermanent err = true)) as [Hf|Hf].
  - set (wu := call_db (SetSyncStatus _ _ _) _).
    assert (wd_now wu = wd_now w1 ∧ closed (wd_db wu) = false ∧ db_wf (wd_db wu) ∧
      writeback_queue (wd_db wu) = sql_update (λ e, w_ID e = w_ID entry)
        (failed_entry (wp_Error p err) (w_Attempts entry + 1)) (writeback_queue (wd_db w1)) ∧
      ∃ r', row_of (w_InodeID entry) (wd_db wu) = Some r' ∧ c_dirty r' = c_dirty r ∧
        c_status_reason r' = wp_Error p err ∧ c_sync_status r' = StatusFailed)
      as (Hnow & Hcu & Hwu & Hq & Hrow).
    { unfold wu. split_and!; try (by world_simpl).
      - rewrite !wd_db_call. apply (run_op_wf (OpSetSyncStatus _ _ _)).
        by apply (run_op_wf (OpUpdateWriteback _ _ _ _)).
      - world_simpl. rewrite Hr. by eexists. }
    clearbody wu. autorewrite with world. rewrite Hnow. case_decide as Ha.
    + split_and!; [by world_simpl..|]. intros _ _. rewrite wd_db_call.
      rewrite GetSyncFailure_Record by done. by rewrite decide_True.
    + by split_and!.
  - split_and!; [|by world_simpl|naive_solver]. world_simpl. rewrite Hr. by eexists.
Qed.
End entry.

(** ** Witnesses *)

(** A server that takes a second per request and accepts everything; the upload
    runs while the user appends to the file when [edit] is set. *)
Definition tick (w : World) : World := w <| wd_now := wd_now w + second |>.
Definition user_edit (w : World) : World :=
  on_node 1%positive (λ nd, nd <| n_WriteGen := n_WriteGen nd + 1 |>
                               <| n_Data := Some [x41; x42; x43; x44] |>) w.
Definition ex_upload (edit : bool) : action uploadedContent := λ _ w,
  (Ok (mkUploaded "d1" "e9"), tick (if edit then user_edit w else w)).
Definition ex_refuse : action uploadedContent := λ _ w, (Err (ErrText "refused"), tick w).
Definition ex_ok : action unit := λ _ w, (Ok tt, tick w).
Definition ex_proc (up : action uploadedContent) : WritebackProcessor :=
  mkProcessor up ex_ok ex_ok ex_ok (λ _, "key") ex_mk ex_un
    (λ e, match e with ErrText s => s | _ => "error" end) "".
Definition ex_world : World :=
  mkWorld (ex_vfs <| v_Cache := ex_queue |>) ∅ (100 * second) [] no_suppression.
Definition ex_entry : WritebackEntry :=
  mkWritebackEntry 1 1 "upload" "a.txt" "{key" 40 2 "" "in_progress".

Lemma ex_world_row : ∃ r, row_of 1 (wd_db ex_world) = Some r.
Proof. by eexists. Qed.
Lemma ex_world_open : db_open ex_world.
Proof. by split. Qed.

Lemma processEntry_no_lost_edit_witness :
  kept_dirty ex_entry false (processEntry (ex_proc (ex_upload true)) ex_entry ex_world).2 ∧
  writeback_queue (wd_db (processEntry (ex_proc (ex_upload false)) ex_entry ex_world).2) = [].
Proof.
  destruct ex_world_row as [r Hr]. split.
  - pose proof (processEntry_no_lost_edit (ex_proc (ex_upload true)) ex_entry ex_world
      (mkUploaded "d1" "e9") (tick (user_edit ex_world)) r eq_refl eq_refl ex_world_open Hr) as H.
    cbv zeta in H. change (local_state _ _ _ _) with (false, false) in H.
    destruct (processEntry _ _ _) as [ok w2]. destruct H as (_ & H & _). apply H. left.
    eexists. split; [reflexivity|]. vm_compute. discriminate.
  - pose proof (processEntry_no_lost_edit (ex_proc (ex_upload false)) ex_entry ex_world
      (mkUploaded "d1" "e9") (tick ex_world) r eq_refl eq_refl ex_world_open Hr) as H.
    cbv zeta in H. change (local_state _ _ _ _) with (false, false) in H.
    destruct (processEntry _ _ _) as [ok w2]. destruct H as (_ & _ & H).
    destruct H as (_ & H & _); [|reflexivity|exact H].
    intros (nd & Hn & Hg). vm_compute in Hn. injection Hn as <-. by apply Hg.
Defined.

Lemma processEntry_retry_witness :
  GetSyncFailure 1 "upload" (wd_db (processEntry (ex_proc ex_refuse) ex_entry ex_world).2)
  = Ok (Some (mkSyncFailure 1 "upload" false 3 221 "refused")).
Proof.
  destruct ex_world_row as [r Hr].
  pose proof (processEntry_retry (ex_proc ex_refuse) ex_entry ex_world (ErrText "refused")
    (tick ex_world) r eq_refl ex_queue_wf ex_world_open Hr) as H.
  cbv zeta in H. destruct (processEntry _ _ _) as [ok w2]. destruct H as (_ & _ & _ & H).
  etransitivity; [apply H; [reflexivity|left; simpl; lia]|]. vm_compute. reflexivity.
Defined.
