(* ===== verification/WritebackQueue.v ===== *)
(** * The writeback processor: batches

    [processBatch], [requeue] and [FlushAll] of
    [internal/mount/syncer/writeback.go]: no claimed entry is left behind, the
    flush ends, and what a queue headed by conflicts does. *)
From S2P Require Import Prelude GoLib GoFmt Table ApiErrors Crypto CacheDB CacheStore.
From S2P Require Import LocalFs VfsNode VfsContent Writeback.
Local Open Scope Z_scope.

(** ** Claims *)

(** Every entry in progress is one of [ids]: what [Close] and a crash would leave
    to [RequeueInProgress]. *)
Definition claims_within (ids : list Z) (w : World) : Prop :=
  ∀ e, e ∈ writeback_queue (wd_db w) → w_Status e = "in_progress" → w_ID e ∈ ids.

Definition known_action (a : string) : Prop :=
  a = "upload" ∨ a = "mkdir" ∨ a = "delete" ∨ a = "rename".
Definition known_queue (w : World) : Prop :=
  Forall (λ e, known_action (w_Action e)) (writeback_queue (wd_db w)).

(** What the rest of the mount may do to the queue while an action runs: anything
    but claim entries (only the processor claims), close the database, or queue
    an action the processor does not have. *)
Definition fair_env {A} (act : action A) : Prop := ∀ entry w,
  let w' := (act entry w).2 in
  (db_open w → db_open w') ∧ (∀ ids, claims_within ids w → claims_within ids w') ∧
  (known_queue w → known_queue w').
Record fair_processor (p : WritebackProcessor) : Prop := {
  fair_upload : fair_env (wp_upload p); fair_mkdir : fair_env (wp_mkdir p);
  fair_delete : fair_env (wp_delete p); fair_rename : fair_env (wp_rename p) }.

(** A server request takes time. *)
Definition takes_time {A} (act : action A) : Prop := ∀ entry w, wd_now w < wd_now (act entry w).2.
Record timed_processor (p : WritebackProcessor) : Prop := {
  timed_upload : takes_time (wp_upload p); timed_mkdir : takes_time (wp_mkdir p);
  timed_delete : takes_time (wp_delete p); timed_rename : takes_time (wp_rename p) }.

Section batches.
Context `{SH : Sha256} (p : WritebackProcessor).

(** The entry's own claim is settled, no other claim is taken, and nothing but
    known actions is queued. *)
Definition settles (id : Z) (w w' : World) : Prop :=
  (∀ ids, claims_within (id :: ids) w → claims_within ids w') ∧ (known_queue w → known_queue w').

Lemma settles_sub id w w' :
  (∀ e, e ∈ writeback_queue (wd_db w') →
     (w_Status e = "in_progress" → e ∈ writeback_queue (wd_db w) ∧ w_ID e ≠ id) ∧
     (known_action (w_Action e) ∨
      ∃ e0, e0 ∈ writeback_queue (wd_db w) ∧ w_Action e0 = w_Action e)) → settles id w w'.
Proof using Type.
  intros H. split.
  - intros ids Hc e Hin Hs. destruct (H e Hin) as [Hs' _]. destruct (Hs' Hs) as [Hin' Hne].
    specialize (Hc e Hin' Hs). by apply elem_of_cons in Hc as [|].
  - unfold known_queue. rewrite !Forall_forall. intros Hk e Hin.
    destruct (H e Hin) as [_ [?|(e0 & ? & <-)]]; [done|]. by apply Hk.
Qed.

Lemma requeue_changed_queue entry pre missing path w e :
  e ∈ writeback_queue (wd_db (requeue_changed p entry pre missing path w)) →
  e ∈ writeback_queue (wd_db w) ∨ (w_Status e = "pending" ∧ known_action (w_Action e)).
Proof using Type.
  unfold requeue_changed, enqueue, run_db, with_db, EnqueueWriteback.
  set (wm := call_db (MarkDirty (w_InodeID entry)) w).
  assert (writeback_queue (wd_db wm) = writeback_queue (wd_db w)) as Hq by (unfold wm; by world_simpl).
  assert (∀ (x : World), wd_db x = wd_db wm → e ∈ writeback_queue (wd_db
    (let w := call_db (SetSyncStatus (w_InodeID entry) StatusPending "re-enqueue failed") x in
     match pre with Some l => on_node l (requeue_node "re-enqueue failed") w | None => w end)) →
     e ∈ writeback_queue (wd_db w)) as Hf.
  { intros x Hx. rewrite <- Hq, <- Hx. destruct pre; world_simpl; done. }
  fold (wd_db wm).
  destruct (writebackDisabled (wd_db wm)); [left; by eapply Hf|].
  destruct (closed (wd_db wm)); [left; by eapply Hf|].
  simpl. intros [Hin|Hin]%elem_of_app.
  - left. rewrite <- Hq. unfold nextAction in Hin. case_decide; [|done].
    by apply elem_of_sql_delete in Hin as [_ ?].
  - right. apply list_elem_of_singleton in Hin as ->. split; [done|]. simpl.
    unfold nextAction, known_action. destruct missing; auto.
Qed.

Lemma record_done_queue entry n uploaded w :
  db_open w →
  writeback_queue (wd_db (record_done p entry n uploaded w)) =
    sql_delete (λ e, w_ID e = w_ID entry) (writeback_queue (wd_db w)) ∧
  db_open (record_done p entry n uploaded w).
Proof using Type.
  intros [Hc Hw]. unfold record_done, recordUploaded, db_open.
  repeat case_decide; split_and!; by world_simpl.
Qed.

Lemma settle_queue entry pre tag changed missing w e :
  e ∈ writeback_queue (wd_db (settle p entry pre tag changed missing w)) →
  e ∈ writeback_queue (wd_db w) ∨ (w_Status e = "pending" ∧ known_action (w_Action e)).
Proof using Type.
  unfold settle, settle_inode.
  assert (∀ x, wd_db x = wd_db w →
    e ∈ writeback_queue (wd_db (call_db (MarkSynced (w_InodeID entry) tag) x)) →
    e ∈ writeback_queue (wd_db w)) as Hm by (intros x Hx; rewrite <- Hx; by world_simpl).
  assert (∀ x q pa, wd_db x = wd_db w →
    e ∈ writeback_queue (wd_db (requeue_changed p entry q missing pa x)) →
    e ∈ writeback_queue (wd_db w) ∨ w_Status e = "pending" ∧ known_action (w_Action e)) as Hr.
  { intros x q pa Hx. rewrite <- Hx. apply requeue_changed_queue. }
  destruct pre as [[l gen]|]; [destruct (wd_nodes w !! l); [case_decide|]|];
    try destruct changed; cbn iota; try (by apply Hr); intros He; left; revert He; by apply Hm.
Qed.

Lemma settle_open entry pre tag changed missing w :
  db_open w → db_open (settle p entry pre tag changed missing w).
Proof using Type.
  intros Ho. unfold settle, settle_inode.
  assert (∀ x, wd_db x = wd_db w → db_open (call_db (MarkSynced (w_InodeID entry) tag) x)) as Hm.
  { intros x Hx. unfold db_open in *. rewrite <- Hx in Ho. destruct Ho. split; by world_simpl. }
  assert (∀ x q pa, wd_db x = wd_db w → db_open (requeue_changed p entry q missing pa x)) as Hr.
  { intros x q pa Hx. unfold requeue_changed. unfold db_open in Ho. rewrite <- Hx in Ho.
    destruct (enqueue_open p (w_InodeID entry) (nextAction missing) pa
      (call_db (MarkDirty (w_InodeID entry)) x)) as (e & _ & _ & _ & _ & ->).
    - destruct Ho. split; by world_simpl.
    - cbv zeta. destruct Ho as [Hc Hw]. split; rewrite wd_db_call; cbn [snd closed writebackDisabled].
      + change (closed (wd_db (call_db (MarkDirty (w_InodeID entry)) x)) = false). by world_simpl.
      + change (writebackDisabled (wd_db (call_db (MarkDirty (w_InodeID entry)) x)) = false).
        by world_simpl. }
  destruct pre as [[l gen]|]; [destruct (wd_nodes w !! l); [case_decide|]|];
    try destruct changed; cbn iota; try (by apply Hr); by apply Hm.
Qed.

Lemma entry_done_settles entry n pre uploaded w :
  db_open w →
  settles (w_ID entry) w (entry_done p entry n pre uploaded w) ∧
  db_open (entry_done p entry n pre uploaded w).
Proof using Type.
  intros Ho. destruct (record_done_queue entry n uploaded w Ho) as [Hq Ho'].
  unfold entry_done. destruct (local_state p entry (digest uploaded) _) as [changed missing].
  split; [|by apply settle_open]. apply settles_sub. intros e He.
  apply settle_queue in He. rewrite Hq, elem_of_sql_delete in He.
  destruct He as [[Hne Hin]|[Hs Ha]].
  - split; [done|]. right. by exists e.
  - split; [congruence|]. by left.
Qed.

Lemma updated_settles id f w w' :
  writeback_queue (wd_db w') = sql_update (λ e, w_ID e = id) f (writeback_queue (wd_db w)) →
  (∀ e, w_Status (f e) ≠ "in_progress" ∧ w_Action (f e) = w_Action e) → settles id w w'.
Proof using Type.
  intros Hq Hf. apply settles_sub. intros e He. rewrite Hq, elem_of_sql_update in He.
  destruct He as (e0 & Hin & ->). destruct (decide (w_ID e0 = id)) as [Hi|Hi].
  - destruct (Hf e0) as [H1 H2]. split; [done|]. right. by exists e0.
  - split; [done|]. right. by exists e0.
Qed.

Lemma entry_failed_settles entry n err w :
  db_open w →
  settles (w_ID entry) w (entry_failed p entry n err w) ∧ db_open (entry_failed p entry n err w).
Proof using Type.
  intros [Hc Hw]. unfold entry_failed, db_open. case_decide as Hf.
  - split.
    + apply (updated_settles _ (failed_entry (wp_Error p err) (w_Attempts entry + 1))); [|done].
      case_decide; by world_simpl.
    + case_decide; split; by world_simpl.
  - split; [|split; by world_simpl].
    eapply (updated_settles _ (deferred_entry _ _ _)); [|done]. by world_simpl.
Qed.

Lemma requeue_settles es w :
  db_open w →
  db_open (requeue es w) ∧ (known_queue w → known_queue (requeue es w)) ∧
  ∀ ids, claims_within ((w_ID <$> es) ++ ids) w → claims_within ids (requeue es w).
Proof using Type.
  revert w. induction es as [|e es IH]; intros w Ho; [done|].
  set (w1 := call_db (UpdateWriteback (w_ID e) "pending" (w_LastError e) (w_Attempts e)) w).
  assert (settles (w_ID e) w w1 ∧ db_open w1) as [[Hs Hk] Ho1].
  { unfold w1. destruct Ho as [Hc Hw]. split; [|split; by world_simpl].
    eapply (updated_settles _ (λ e0, e0 <| w_Status := "pending" |> <| w_LastError := w_LastError e |>
      <| w_Attempts := w_Attempts e |>)); [by world_simpl|done]. }
  destruct (IH w1 Ho1) as (? & ? & Hcl). split_and!; [done|by auto|].
  intros ids Hc. apply Hcl, Hs. exact Hc.
Qed.

Context (Hfair : fair_processor p).

Lemma run_action_fair entry w :
  let w' := (run_action p entry w).2 in
  (db_open w → db_open w') ∧ (∀ ids, claims_within ids w → claims_within ids w') ∧
  (known_queue w → known_queue w').
Proof using Hfair.
  destruct Hfair as [Hu Hm Hd Hr]. cbv zeta. unfold run_action.
  assert (∀ act : action unit, fair_env act →
    (db_open w → db_open (lift_unit (act entry w)).2) ∧
    (∀ ids, claims_within ids w → claims_within ids (lift_unit (act entry w)).2) ∧
    (known_queue w → known_queue (lift_unit (act entry w)).2)) as Hl.
  { intros act Ha. specialize (Ha entry w). unfold lift_unit. by destruct (act entry w) as [[] ?]. }
  case_decide; [|repeat case_decide; auto].
  pose proof (Hu entry w) as H1. destruct (wp_upload p entry w) as [[up|err] w1]; [done|].
  destruct (errors_Is ErrTeeSealStale err); [|done]. pose proof (Hu entry w1) as H2.
  simpl in *. naive_solver.
Qed.

Lemma processEntry_fair entry w :
  db_open w → settles (w_ID entry) w (processEntry p entry w).2 ∧ db_open (processEntry p entry w).2.
Proof using Hfair.
  intros Ho. pose proof (run_action_fair entry w) as (Ho1 & Hc & Hk). unfold processEntry.
  destruct (run_action p entry w) as [[uploaded|err] w1]; simpl in *; specialize (Ho1 Ho).
  - destruct (entry_done_settles entry (upload_bytes entry w) (pre_node entry w) uploaded w1 Ho1)
      as [[Hs Hs'] ?]. split; [|done]. split; auto.
  - destruct (entry_failed_settles entry (upload_bytes entry w) err w1 Ho1) as [[Hs Hs'] ?].
    split; [|done]. split; auto.
Qed.

Lemma batch_loop_settles ctx_err entries held flushed w :
  db_open w → claims_within ((w_ID <$> entries) ++ (w_ID <$> held)) w →
  let '(o, _, w') := batch_loop p ctx_err entries held flushed w in
  db_open w' ∧ (known_queue w → known_queue w') ∧
  claims_within (w_ID <$> default [] o) w'.
Proof using Hfair.
  revert held flushed w. induction entries as [|e rest IH]; intros held flushed w Ho Hc; [done|].
  cbn [batch_loop]. destruct (ctx_err w).
  { destruct (requeue_settles (e :: rest) w Ho) as (Ho1 & Hk1 & Hc1).
    destruct (requeue_settles held _ Ho1) as (Ho2 & Hk2 & Hc2).
    split_and!; [done|by auto|]. apply Hc2. rewrite app_nil_r. by apply Hc1. }
  destruct (heldByConflict e w).
  { apply IH; [done|]. intros e' Hin Hs. specialize (Hc e' Hin Hs).
    rewrite fmap_app. simpl. set_solver. }
  destruct (processEntry_fair e w Ho) as [[Hs Hk] Ho1].
  destruct (processEntry p e w) as [ok w1]. simpl in *.
  specialize (IH held (if ok then flushed + 1 else flushed) w1 Ho1 (Hs _ Hc)).
  destruct (batch_loop _ _ _ _ _ _) as [[o f'] w']. naive_solver.
Qed.

Lemma dequeue_claims w limit before :
  db_open w → claims_within [] w →
  ∃ es w1, run_db (DequeueWriteback limit before (Unix (wd_now w))) w = (Ok es, w1) ∧
    db_open w1 ∧
    (known_queue w → known_queue w1 ∧ Forall (λ e, known_action (w_Action e)) es) ∧
    wd_now w1 = wd_now w ∧ claims_within (w_ID <$> es) w1.
Proof using Type.
  intros [Hc Hw] Hcl. unfold run_db, with_db, DequeueWriteback.
  fold (wd_db w). rewrite exec_open by done. eexists _, _. split; [reflexivity|]. split_and!.
  - by split.
  - unfold known_queue. rewrite !Forall_forall. intros Hk. split; intros e He.
    + unfold wd_db in He. simpl in He.
      apply elem_of_sql_update in He as (e0 & Hin & ->). specialize (Hk e0 Hin). by case_decide.
    + apply list_elem_of_fmap in He as (e0 & -> & [_ Hin]%elem_of_sql_select). exact (Hk e0 Hin).
  - done.
  - intros e He Hs. unfold wd_db in He. simpl in He.
    apply elem_of_sql_update in He as (e0 & Hin & ->).
    case_decide as Hi.
    + apply list_elem_of_fmap. eexists. split; [reflexivity|]. apply list_elem_of_fmap.
      exists e0. split; [done|]. by apply elem_of_sql_select.
    + by destruct (not_elem_of_nil (w_ID e0)); apply Hcl.
Qed.

Lemma processBatch_claims ctx_err w :
  db_open w → claims_within [] w → claims_within [] (processBatch p ctx_err w).
Proof using Hfair.
  intros Ho Hcl. unfold processBatch.
  destruct (dequeue_claims w processBatchSize (Unix (wd_now w - debounceDelay)) Ho Hcl)
    as (es & w1 & -> & Ho1 & _ & _ & Hc1).
  destruct es as [|e es]; [done|].
  pose proof (batch_loop_settles ctx_err (e :: es) [] 0 w1 Ho1) as Hb.
  rewrite app_nil_r in Hb. specialize (Hb Hc1).
  destruct (batch_loop _ _ _ _ _ _) as [[[held|] f'] w2]; destruct Hb as (Ho2 & _ & Hc2); [|done].
  apply requeue_settles; [done|]. by rewrite app_nil_r.
Qed.

Lemma flush_loop_claims fuel ctx_err flushed w r oe w' :
  db_open w → claims_within [] w → flush_loop p fuel ctx_err flushed w = Some (r, oe, w') →
  claims_within [] w' ∧ db_open w'.
Proof using Hfair.
  revert flushed w. induction fuel as [|fuel IH]; intros flushed w Ho Hcl; [done|].
  cbn [flush_loop].
  destruct (dequeue_claims w processBatchSize 0 Ho Hcl) as (es & w1 & -> & Ho1 & _ & _ & Hc1).
  case_decide as He; [intros [= <- <- <-]; by subst|].
  pose proof (batch_loop_settles ctx_err es [] flushed w1 Ho1) as Hb.
  rewrite app_nil_r in Hb. specialize (Hb Hc1).
  destruct (batch_loop _ _ _ _ _ _) as [[[held|] f'] w2]; destruct Hb as (Ho2 & _ & Hc2);
    [|by intros [= <- <- <-]].
  destruct (requeue_settles held w2 Ho2) as (Ho3 & _ & Hc3).
  specialize (Hc3 []). rewrite app_nil_r in Hc3. specialize (Hc3 Hc2). cbv zeta.
  case_decide; [by intros [= <- <- <-]|by apply IH].
Qed.

(** The processor never leaves an entry claimed.  Starting with none in
    progress, after a batch, and after a flush however it ends (queue empty,
    conflicts only, database error or timeout), no entry is in progress: each one
    claimed was deleted, marked failed, or put back to pending. *)
Theorem batches_release_claims ctx_err fuel timeout w :
  db_open w → claims_within [] w →
  claims_within [] (processBatch p ctx_err w) ∧
  ∀ r oe w', FlushAll p fuel timeout w = Some (r, oe, w') → claims_within [] w'.
Proof using Hfair.
  intros Ho Hcl. split; [by apply processBatch_claims|]. intros r oe w'. unfold FlushAll.
  destruct (WritebackDisabled (wd_db w)); [by intros [= <- <- <-]|].
  intros Hf. by apply flush_loop_claims in Hf as [].
Qed.

(** ** Termination of the flush *)

Context (Htimed : timed_processor p).

Lemma wd_now_node l f w : wd_now (on_node l f w) = wd_now w.
Proof using Type. done. Qed.
Lemma wd_now_inode id f w : wd_now (with_inode_node id f w) = wd_now w.
Proof using Type. unfold with_inode_node. by destruct (NodeByID _ _). Qed.
Lemma wd_now_emit entry n err w : wd_now (emitUpload entry n err w) = wd_now w.
Proof using Type. unfold emitUpload. by case_decide. Qed.
Lemma wd_now_run {X} (op : DB → result error X * DB) w : wd_now (run_db op w).2 = wd_now w.
Proof using Type. unfold run_db. by destruct (with_db op (wd_vfs w)). Qed.

Lemma wd_now_requeue es w : wd_now (requeue es w) = wd_now w.
Proof using Type.
  revert w. induction es as [|e es IH]; intros w; [done|]. simpl.
  fold (requeue es). rewrite IH. by autorewrite with world.
Qed.

Lemma wd_now_requeue_changed entry pre missing path w :
  wd_now (requeue_changed p entry pre missing path w) = wd_now w.
Proof using Type.
  unfold requeue_changed, enqueue. set (w1 := call_db _ w).
  transitivity (wd_now w1); [|unfold w1; by autorewrite with world].
  match goal with |- context [run_db ?op w1] => pose proof (wd_now_run op w1) as Hr;
    destruct (run_db op w1) as [[] w2] end; [done|]. simpl in Hr.
  destruct pre; rewrite ?wd_now_node; autorewrite with world; done.
Qed.

Lemma wd_now_entry_done entry n pre uploaded w :
  wd_now (entry_done p entry n pre uploaded w) = wd_now w.
Proof using Type.
  unfold entry_done, settle, settle_inode, record_done, recordUploaded.
  repeat (case_match || case_decide); rewrite ?wd_now_requeue_changed, ?wd_now_node;
    autorewrite with world; rewrite ?wd_now_node, ?wd_now_emit; autorewrite with world; done.
Qed.

Lemma wd_now_entry_failed entry n err w : wd_now (entry_failed p entry n err w) = wd_now w.
Proof using Type.
  unfold entry_failed. repeat case_decide; rewrite ?wd_now_emit, ?wd_now_inode;
    autorewrite with world; done.
Qed.

Lemma processEntry_time e w :
  known_action (w_Action e) → wd_now w < wd_now (processEntry p e w).2.
Proof using Htimed.
  destruct Htimed as [Hu Hm Hd Hr]. intros Hk.
  assert (wd_now w < wd_now (run_action p e w).2) as Ht.
  { unfold run_action.
    assert (∀ act : action unit, takes_time act → wd_now w < wd_now (lift_unit (act e w)).2) as Hl.
    { intros act Ha. specialize (Ha e w). unfold lift_unit. by destruct (act e w) as [[] ?]. }
    case_decide as H1.
    - pose proof (Hu e w) as H2. destruct (wp_upload p e w) as [[up|err] w1]; [done|].
      destruct (errors_Is ErrTeeSealStale err); [|done]. pose proof (Hu e w1). simpl in *. lia.
    - repeat case_decide; auto. unfold known_action in Hk. naive_solver. }
  unfold processEntry. destruct (run_action p e w) as [[up|err] w1]; simpl in *.
  - by rewrite wd_now_entry_done.
  - by rewrite wd_now_entry_failed.
Qed.

Lemma batch_loop_time ctx_err entries held flushed w :
  Forall (λ e, known_action (w_Action e)) entries →
  let '(o, _, w') := batch_loop p ctx_err entries held flushed w in
  wd_now w ≤ wd_now w' ∧
  (∀ h, o = Some h → length h = (length held + length entries)%nat ∨ wd_now w < wd_now w') ∧
  (ctx_err w = true → entries ≠ [] → o = None).
Proof using Htimed.
  intros Hk. revert held flushed w. induction Hk as [|e rest He Hk IH]; intros held flushed w.
  { simpl. split; [lia|]. split; [|done]. intros h [= <-]. left. lia. }
  cbn [batch_loop]. destruct (ctx_err w) eqn:Ec.
  { rewrite !wd_now_requeue. split; [lia|]. done. }
  destruct (heldByConflict e w).
  { specialize (IH (held ++ [e]) flushed w).
    destruct (batch_loop _ _ _ _ _ _) as [[o f'] w']. destruct IH as (? & Hl & _).
    split; [done|]. split; [|done]. intros h Hh. rewrite length_app in Hl. simpl in *.
    destruct (Hl h Hh); [left; lia|by right]. }
  pose proof (processEntry_time e w He) as Ht.
  destruct (processEntry p e w) as [ok w1]. simpl in Ht.
  specialize (IH held (if ok then flushed + 1 else flushed) w1).
  destruct (batch_loop _ _ _ _ _ _) as [[o f'] w']. destruct IH as (? & _ & _).
  split; [lia|]. split; [|done]. intros h _. right. lia.
Qed.

Lemma flush_loop_ends deadline fuel flushed w :
  db_open w → claims_within [] w → known_queue w → (Z.to_nat (deadline - wd_now w) < fuel)%nat →
  is_Some (flush_loop p fuel (λ w, bool_decide (deadline ≤ wd_now w)) flushed w).
Proof using Hfair Htimed.
  revert flushed w. induction fuel as [|fuel IH]; intros flushed w Ho Hcl Hk Hf; [lia|].
  cbn [flush_loop].
  destruct (dequeue_claims w processBatchSize 0 Ho Hcl) as (es & w1 & -> & Ho1 & Hk1 & Ht1 & Hc1).
  destruct (Hk1 Hk) as [Hk1' Hke]. case_decide as He; [by eexists|].
  pose proof (batch_loop_time (λ w, bool_decide (deadline ≤ wd_now w)) es [] flushed w1 Hke) as Hb.
  pose proof (batch_loop_settles (λ w, bool_decide (deadline ≤ wd_now w)) es [] flushed w1 Ho1) as Hs.
  rewrite app_nil_r in Hs. specialize (Hs Hc1).
  destruct (batch_loop _ _ _ _ _ _) as [[[held|] f'] w2]; [|by eexists].
  destruct Hb as (Hle & Hlen & Hdl). destruct Hs as (Ho2 & Hk2 & Hc2).
  destruct (requeue_settles held w2 Ho2) as (Ho3 & Hk3 & Hc3).
  specialize (Hc3 []). rewrite app_nil_r in Hc3. specialize (Hc3 Hc2). cbv zeta.
  destruct (decide (length held = length es)) as [Hl|Hl]; [eexists; reflexivity|]. apply IH; [done|done|by auto|].
  rewrite wd_now_requeue. destruct (Hlen held eq_refl) as [|Hlt]; [done|].
  assert (¬ deadline ≤ wd_now w1).
  { intros Hd. by specialize (Hdl (bool_decide_eq_true_2 _ Hd) He). }
  lia.
Qed.

(** [FlushAll] ends.  Each round either leaves the loop or runs a request, and
    a request takes time, so that a flush of [timeout] nanoseconds makes at most
    [timeout + 1] rounds: with that fuel it returns, whatever the server answers
    and whatever else is queued meanwhile. *)
Theorem FlushAll_terminates timeout w :
  db_open w → claims_within [] w → known_queue w →
  is_Some (FlushAll p (S (Z.to_nat timeout)) timeout w).
Proof using Hfair Htimed.
  intros Ho Hcl Hk. unfold FlushAll. destruct (WritebackDisabled (wd_db w)); [by eexists|].
  apply flush_loop_ends; [done..|]. lia.
Qed.
End batches.

(** ** A queue headed by conflicts *)

Section conflicts.
Context `{SH : Sha256} (p : WritebackProcessor).

Definition with_queue (q : list WritebackEntry) (w : World) : World :=
  w <| wd_vfs := (wd_vfs w) <| v_Cache := (wd_db w) <| writeback_queue := q |> |> |>.
Definition repend (ids : list Z) : list WritebackEntry → list WritebackEntry :=
  sql_update (λ e, w_ID e ∈ ids) (λ e, e <| w_Status := "pending" |>).

Lemma with_queue_same w : with_queue (writeback_queue (wd_db w)) w = w.
Proof using Type. by destruct w as [[? [] ? ? ? ?] ? ? ?]. Qed.

(** Requeueing entries that carry the stored error and attempts only resets their
    status. *)
Lemma requeue_repend es w :
  closed (wd_db w) = false →
  (∀ e e', e ∈ es → e' ∈ writeback_queue (wd_db w) → w_ID e' = w_ID e →
     w_LastError e' = w_LastError e ∧ w_Attempts e' = w_Attempts e) →
  requeue es w = with_queue (repend (w_ID <$> es) (writeback_queue (wd_db w))) w.
Proof using Type.
  revert w. induction es as [|e es IH]; intros w Hc Hes.
  - rewrite <- (with_queue_same w) at 1. simpl. f_equal. symmetry. unfold repend, sql_update.
    rewrite <- (list_fmap_id (writeback_queue (wd_db w))) at 2. apply list_fmap_ext.
    intros i x _. by rewrite decide_False by apply not_elem_of_nil.
  - change (requeue (e :: es) w) with
      (requeue es (call_db (UpdateWriteback (w_ID e) "pending" (w_LastError e) (w_Attempts e)) w)).
    assert (call_db (UpdateWriteback (w_ID e) "pending" (w_LastError e) (w_Attempts e)) w =
      with_queue (repend [w_ID e] (writeback_queue (wd_db w))) w) as ->.
    { rewrite call_db_eq. unfold UpdateWriteback, exec_. rewrite exec_open by done.
      unfold on_queue. cbn [snd].
      match goal with |- context [sql_update ?P ?f ?q] =>
        assert (sql_update P f q = repend [w_ID e] q) as ->; [|done] end.
      apply list_fmap_ext. intros i x Hx.
      apply list_elem_of_lookup_2 in Hx. simpl. destruct (decide (w_ID x = w_ID e)) as [Hi|Hi].
      - rewrite decide_True by (by apply list_elem_of_singleton).
        destruct (Hes e x (list_elem_of_here _ _) Hx Hi) as [H1 H2]. rewrite <- H1, <- H2. by destruct x.
      - by rewrite decide_False by (by intros ?%list_elem_of_singleton). }
    rewrite IH; [|done|].
    + assert (repend (w_ID <$> es) (repend [w_ID e] (writeback_queue (wd_db w))) =
        repend (w_ID <$> e :: es) (writeback_queue (wd_db w))) as <-; [|done].
      unfold repend, sql_update. rewrite <- list_fmap_compose. apply list_fmap_ext. intros i x _. simpl.
      destruct (decide (w_ID x ∈ [w_ID e])) as [H1|H1]; simpl.
      * apply list_elem_of_singleton in H1. rewrite (decide_True (P := w_ID x ∈ _ :: _)) by (rewrite H1; left).
        by case_decide.
      * rewrite list_elem_of_singleton in H1. destruct (decide (w_ID x ∈ w_ID <$> es)) as [H2|H2].
        -- by rewrite decide_True by (by right).
        -- by rewrite decide_False by (by intros [|]%elem_of_cons).
    + intros e1 e2 H1 H2 H3. unfold wd_db in H2. simpl in H2.
      apply elem_of_sql_update in H2 as (e0 & Hin & ->).
      destruct (Hes e1 e0 (list_elem_of_further _ _ _ H1) Hin) as [? ?]; [by case_decide|].
      by case_decide.
Qed.

Lemma batch_all_held ctx_err entries held flushed w :
  ctx_err w = false → Forall (λ e, heldByConflict e w = true) entries →
  batch_loop p ctx_err entries held flushed w = (Some (held ++ entries), flushed, w).
Proof using Type.
  intros Hctx H. revert held. induction H as [|e es He Hes IH]; intros held; simpl.
  - by rewrite app_nil_r.
  - rewrite Hctx, He, IH. by rewrite <- app_assoc.
Qed.

(** Putting a claim back restores the queue. *)
Lemma repend_claim (ids : list Z) q :
  NoDup (w_ID <$> q) → (∀ e, e ∈ q → w_ID e ∈ ids → w_Status e = "pending") →
  repend (w_ID <$> ((λ e : WritebackEntry, e <| w_Status := "in_progress" |>) <$>
                      sql_select (λ e, w_ID e ∈ ids) q))
    (sql_update (λ e, w_ID e ∈ ids) (λ e, e <| w_Status := "in_progress" |>) q) = q.
Proof using Type.
  intros Hnd Hp. unfold repend, sql_update. rewrite <- list_fmap_compose.
  transitivity (id <$> q); [|apply list_fmap_id]. apply list_fmap_ext. intros i e He.
  apply list_elem_of_lookup_2 in He. simpl.
  destruct (decide (w_ID e ∈ ids)) as [Hi|Hi].
  - rewrite decide_True; [|]. { simpl. pose proof (Hp e He Hi) as Hs. destruct e. simpl in *. by subst. }
    simpl. rewrite <- list_fmap_compose. apply list_elem_of_fmap. exists e.
    split; [done|]. by apply elem_of_sql_select.
  - rewrite decide_False; [done|]. rewrite <- list_fmap_compose.
    intros (e0 & Hi0 & [Hid _]%elem_of_sql_select)%list_elem_of_fmap. simpl in Hi0. congruence.
Qed.

(** The entry's inode and action decide whether it is held, not its status. *)
Lemma heldByConflict_inodes e e' w w' :
  w_Action e' = w_Action e → w_InodeID e' = w_InodeID e → closed (wd_db w') = closed (wd_db w) →
  inodes (wd_db w') = inodes (wd_db w) → heldByConflict e' w' = heldByConflict e w.
Proof using Type.
  intros Ha Hi Hc Hr. unfold heldByConflict, GetInode, query. by rewrite Ha, Hi, Hc, Hr.
Qed.

(** With [L] ten pending entries older than [e0], a claim of ten that holds [e0]
    would hold them all, and be eleven. *)
Lemma older_crowd_out before q L e0 :
  NoDup (w_ID <$> q) → length L = 10%nat → NoDup (w_ID <$> L) → e0 ∈ q →
  (∀ l, l ∈ L → l ∈ q ∧ w_Status l = "pending" ∧ l ≠ e0 ∧ due_order l e0) →
  w_ID e0 ∉ dequeue_claim processBatchSize before q.
Proof using Type.
  intros Hnd Hlen HndL Hin HL Hcl.
  apply (claimed_ids _ _ _ Hnd _ Hin) in Hcl.
  pose proof (claim_sublist processBatchSize before q e0 Hcl) as [_ [Hp Hb]].
  assert (∀ l, l ∈ L → w_ID l ∈ dequeue_claim processBatchSize before q) as HLc.
  { intros l Hl. destruct (HL l Hl) as (Hlq & Hlp & Hne & Ho).
    apply (claimed_ids processBatchSize before q Hnd _ Hlq). apply dec_stable. intros Hn.
    assert (due before l) as Hdl by (split; [done|]; unfold due_order in Ho; lia).
    pose proof (claim_oldest processBatchSize before q Hnd e0 l Hcl Hlq Hdl Hn) as Ho'.
    apply Hne. apply (keyed_eq w_ID q); [done..|]. unfold due_order in *. lia. }
  pose proof (length_claim processBatchSize before q ltac:(unfold processBatchSize; lia)) as Hle.
  assert (length (w_ID <$> e0 :: L) ≤ length (dequeue_claim processBatchSize before q))%nat as Hge.
  { apply submseteq_length, NoDup_submseteq.
    - rewrite fmap_cons. apply NoDup_cons. split; [|done].
      intros (l & Hi & Hl)%list_elem_of_fmap. destruct (HL l Hl) as (Hlq & _ & Hne & _).
      apply Hne. by apply (keyed_eq w_ID q).
    - intros i (e & -> & [->|He]%elem_of_cons)%list_elem_of_fmap; [|by apply HLc].
      by apply (claimed_ids _ _ _ Hnd _ Hin). }
  assert (length (dequeue_claim processBatchSize before q) ≤ 10)%nat as Hle'.
  { unfold dequeue_claim. rewrite length_fmap. exact Hle. }
  rewrite length_fmap in Hge. cbn [length] in Hge. lia.
Qed.

(** C32: Ten uploads in conflict block the whole queue.  If ten pending uploads of
    inodes in conflict are older than every other pending entry, then at every
    later time a batch claims those ten only, holds them, puts them back as they
    were, and the queue, the database and the nodes are unchanged: no other entry
    is ever processed until a conflict is resolved. *)
Theorem conflicts_block_queue ctx_err L w t :
  db_wf (wd_db w) → closed (wd_db w) = false → (∀ w', ctx_err w' = false) →
  length L = 10%nat → NoDup (w_ID <$> L) →
  (∀ l, l ∈ L → l ∈ writeback_queue (wd_db w) ∧ w_Status l = "pending" ∧ heldByConflict l w = true) →
  (∀ e l, e ∈ writeback_queue (wd_db w) → w_Status e = "pending" → heldByConflict e w = false →
     l ∈ L → due_order l e) →
  processBatch p ctx_err (w <| wd_now := t |>) = w <| wd_now := t |>.
Proof using Type.
  intros Hwf Hc Hctx Hlen HndL HL Hold. pose proof (wf_wb_ids _ Hwf) as Hnd.
  set (wt := w <| wd_now := t |>).
  assert (∀ before e, e ∈ writeback_queue (wd_db w) →
    w_ID e ∈ dequeue_claim processBatchSize before (writeback_queue (wd_db w)) →
    w_Status e = "pending" ∧ heldByConflict e w = true) as Hclaim.
  { intros before e Hin Hcl. pose proof (proj1 (claimed_ids processBatchSize before _ Hnd _ Hin) Hcl) as Hcl'.
    apply (claim_sublist processBatchSize before) in Hcl' as [_ [Hp _]]. split; [done|].
    apply not_false_iff_true. intros Hf.
    apply (older_crowd_out before _ L e) in Hcl; try done.
    intros l Hl. destruct (HL l Hl) as (? & ? & ?). split_and!; [done..|congruence|]. by apply Hold. }
  unfold processBatch, run_db, with_db, DequeueWriteback. fold (wd_db wt).
  rewrite exec_open by done. change (wd_db wt) with (wd_db w).
  match goal with |- context [dequeue_claim _ ?b _] => generalize b end. intros before.
  specialize (Hclaim before). set (q := writeback_queue (wd_db w)) in *.
  set (ids := dequeue_claim processBatchSize before q) in *.
  set (es := (λ e : WritebackEntry, e <| w_Status := "in_progress" |>) <$>
    sql_select (λ e, w_ID e ∈ ids) q).
  match goal with |- context [batch_loop p _ _ _ _ ?x] => set (w1 := x) end.
  assert (writeback_queue (wd_db w1) = sql_update (λ e, w_ID e ∈ ids)
    (λ e, e <| w_Status := "in_progress" |>) q) as Hq1 by done.
  assert (Forall (λ e, heldByConflict e w1 = true) es) as Hheld.
  { apply Forall_forall. intros e (e0 & -> & [Hid Hin]%elem_of_sql_select)%list_elem_of_fmap.
    rewrite (heldByConflict_inodes e0 _ w w1) by done. by apply Hclaim. }
  assert (requeue es w1 = wt) as Hre.
  { rewrite (requeue_repend es w1); [|done|].
    - rewrite Hq1. transitivity (with_queue q wt); [|exact (with_queue_same wt)].
      assert (repend (w_ID <$> es) (sql_update (λ e, w_ID e ∈ ids)
        (λ e, e <| w_Status := "in_progress" |>) q) = q) as ->; [|done].
      apply repend_claim; [done|]. intros e He Hi. by apply Hclaim.
    - intros e e' (e0 & -> & [Hid Hin]%elem_of_sql_select)%list_elem_of_fmap He' Hi.
      rewrite Hq1 in He'. apply elem_of_sql_update in He' as (e1 & Hin1 & ->).
      assert (e1 = e0) as -> by (apply (keyed_eq w_ID q); [done..|]; by case_decide).
      by case_decide. }
  clearbody es. destruct es as [|e es0]; [exact Hre|].
  rewrite (batch_all_held ctx_err (e :: es0)) by (done || apply Hctx). exact Hre.
Qed.
End conflicts.

(** ** Witnesses *)

Lemma tick_fair {A} (f : WritebackEntry → World → result error A) :
  fair_env (λ e w, (f e w, tick w)) ∧ takes_time (λ e w, (f e w, tick w)).
Proof.
  split.
  - intros e w. split; [exact (λ H, H)|]. split; [exact (λ _ H, H)|exact (λ H, H)].
  - intros e w. simpl. unfold second. lia.
Qed.
Lemma ex_proc_fair : fair_processor (ex_proc (ex_upload false)).
Proof.
  split; [apply (tick_fair (λ _ _, Ok (mkUploaded "d1" "e9")))|
    apply (tick_fair (λ _ _, Ok tt))..].
Qed.
Lemma ex_proc_timed : timed_processor (ex_proc (ex_upload false)).
Proof.
  split; [apply (tick_fair (λ _ _, Ok (mkUploaded "d1" "e9")))|
    apply (tick_fair (λ _ _, Ok tt))..].
Qed.

Lemma ex_world_unclaimed : claims_within [] ex_world.
Proof. intros e He Hs. by apply list_elem_of_singleton in He as ->. Qed.

Lemma batches_release_claims_witness :
  claims_within [] (processBatch (ex_proc (ex_upload false)) (λ _, false) ex_world) ∧
  writeback_queue (wd_db (processBatch (ex_proc (ex_upload false)) (λ _, false) ex_world)) = [].
Proof.
  split; [|vm_compute; reflexivity].
  apply (batches_release_claims (ex_proc (ex_upload false)) ex_proc_fair (λ _, false) 1 1 ex_world
    ex_world_open ex_world_unclaimed).
Defined.

Lemma FlushAll_terminates_witness :
  is_Some (FlushAll (ex_proc (ex_upload false)) 6 5 ex_world).
Proof.
  apply (FlushAll_terminates (ex_proc (ex_upload false)) ex_proc_fair ex_proc_timed 5 ex_world
    ex_world_open ex_world_unclaimed).
  apply Forall_singleton. by left.
Defined.

(** Ten conflicting uploads in front of one ordinary upload. *)
Definition conflict_row (id : Z) : inode_row :=
  (excluded_row id (ex_inode (fmt_d id) true "")) <| c_sync_status := StatusConflict |>.
Definition conflict_entry (id : Z) : WritebackEntry :=
  mkWritebackEntry id id "upload" (fmt_d id) "" 10 0 "" "pending".
Definition ten : list Z := [1; 2; 3; 4; 5; 6; 7; 8; 9; 10].
Definition blocked_entry : WritebackEntry :=
  mkWritebackEntry 11 11 "upload" "11" "" 20 0 "" "pending".
Definition blocked_db : DB :=
  mkDB ((conflict_row <$> ten) ++ [excluded_row 11 (ex_inode "11" true "")]) 11
    ((conflict_entry <$> ten) ++ [blocked_entry]) 11 [] false false.
Definition blocked_world : World :=
  mkWorld (ex_vfs <| v_Cache := blocked_db |>) ∅ (100 * second) [] no_suppression.

Lemma blocked_db_wf : db_wf blocked_db.
Proof. split; try (by apply (bool_decide_unpack _); vm_compute). Qed.

Lemma conflicts_block_queue_witness :
  processBatch (ex_proc (ex_upload false)) (λ _, false) (blocked_world <| wd_now := 1000 * second |>)
  = blocked_world <| wd_now := 1000 * second |>.
Proof.
  apply (conflicts_block_queue _ (λ _, false) (conflict_entry <$> ten)).
  - exact blocked_db_wf.
  - reflexivity.
  - reflexivity.
  - reflexivity.
  - apply (bool_decide_unpack _). vm_compute. exact I.
  - intros l Hl. split; [by apply elem_of_app; left|].
    assert (Forall (λ l, w_Status l = "pending" ∧ heldByConflict l blocked_world = true)
      (conflict_entry <$> ten)) as Hf by (apply (bool_decide_unpack _); vm_compute; exact I).
    rewrite Forall_forall in Hf. by apply Hf.
  - assert (Forall (λ e, heldByConflict e blocked_world = false →
      Forall (λ l, due_order l e) (conflict_entry <$> ten)) (writeback_queue blocked_db)) as Hf
      by (apply (bool_decide_unpack _); vm_compute; exact I).
    rewrite Forall_forall in Hf. intros e l He _ Hh Hl. specialize (Hf e He Hh).
    rewrite Forall_forall in Hf. by apply Hf.
Defined.
