(* ===== verification/VfsTree.v ===== *)
(** * The directories of a mount

    The part of [internal/mount/vfs/vfs.go] that changes the tree: listing a
    directory from the server ([populateDir], [Lookup], [Readdir]), creating,
    deleting and renaming entries, the removal of rejected files and the quota
    cache.  Each operation is one step of the shared world of [Writeback]: what
    the server does meanwhile is the effect of [m_Execute] on it. *)
From S2P Require Import Prelude GoLib GoFmt Table ApiErrors Crypto Hybrid Names CacheDB CacheStore CacheEvict.
From S2P Require Import FileTypes LocalFs VfsNode VfsContent Writeback.
Local Open Scope Z_scope.

(** ** What the server lists *)

Record ListEntry : Type := mkListEntry {
  le_ID : string; le_Name : string; le_Path : string; le_Type : string; le_Size : option Z;
  le_PlaintextSize : option Z; le_Modified : option string; le_Shared : bool; le_Direct : bool;
  le_Permission : option string; le_E2EEDisplayName : string; le_SignedBy : string;
  le_ETag : string }.
#[export] Instance ListEntry_eta : Eta ListEntry := λ e,
  mkListEntry (le_ID e) (le_Name e) (le_Path e) (le_Type e) (le_Size e) (le_PlaintextSize e)
    (le_Modified e) (le_Shared e) (le_Direct e) (le_Permission e) (le_E2EEDisplayName e)
    (le_SignedBy e) (le_ETag e).

(** The collaborators of a mount: the root, the keys, the API client, the JSON
    and time decoders, the platform's name rules, the order Go ranges over a map
    in, and the text of an error. *)
Record Mount : Type := mkMount {
  m_Root : loc;
  m_NameKey : option bytes; m_PublicKey : option PublicKeySet; m_PrivateKey : option PrivateKeySet;
  m_Execute : string → gmap string string → World → result error Response * World;
  m_entries : bytes → result error (list ListEntry);
  m_quota : bytes → result error (Z * Z);
  m_RFC3339 : string → option Z;
  m_windows : option (string → string);
  m_json_map : gmap string string → option string;
  m_marshal : string → string; m_unmarshal : string → option string;
  m_newKey : World → string;
  m_seal_rand : World → bytes * bytes * bytes;
  m_range : list (string * loc) → list (string * loc);
  m_Error : error → string }.

Definition accessFlushInterval : Z := 60 * second.
Definition statfsTTL : Z := 30 * second.

(** ** The heap of a world *)

(** A new mount has its root only. *)
Definition New (remoteBase : string) (root : loc) (db : DB) (store : Store) (now : Z) : VFS :=
  let remoteBase := if decide (remoteBase = "/") then "" else remoteBase in
  let remoteBase := trim_prefix "/" remoteBase in
  mkVFS remoteBase db store false {[ root := NewRootNode remoteBase now ]} ∅ true None 0 ∅.

(** A location not in use. *)
Definition new_loc (h : heap) : loc := map_fold (λ l _ m, Pos.max (Pos.succ l) m) 1%positive h.
Definition on_vfs (f : VFS → VFS) (w : World) : World := w <| wd_vfs := f (wd_vfs w) |>.
Definition alloc (nd : Node) (w : World) : loc * World :=
  let l := new_loc (wd_nodes w) in
  (l, on_vfs (λ v, v <| v_nodes := <[l := nd]> (v_nodes v) |>) w).

(** References are never dangling in Go, so a missing node reads as the zero
    node here and never occurs. *)
Definition node_at (l : loc) (w : World) : Node := default zero_node (wd_nodes w !! l).
Definition add_child (parent child : loc) (w : World) : World :=
  on_vfs (λ v, match AddChild parent child (v_nodes v) with
               | Some h => v <| v_nodes := h |> | None => v end) w.
Definition remove_child (parent : loc) (name : string) (w : World) : World :=
  on_vfs (λ v, v <| v_nodes := (RemoveChild parent name (v_nodes v)).2 |>) w.
Definition attach_child (parent child : loc) (w : World) : World :=
  on_vfs (trackNode child) (add_child parent child w).
Definition set_id (l : loc) (id : Z) : World → World := on_node l (λ nd, nd <| n_ID := id |>).

(** A database read whose error the code drops: a nil result. *)
Definition inode_or_nil (id : Z) (w : World) : option Inode :=
  match GetInode id (wd_db w) with Ok i => Some i | Err _ => None end.
Definition inode_at_path (path : string) (w : World) : option Inode :=
  match GetInodeByPath path (wd_db w) with Ok i => Some i | Err _ => None end.
(** [id, _ := UpsertInode(inode)]: [0] after an error. *)
Definition upsert_id (inode : Inode) (w : World) : Z * World :=
  match run_db (UpsertInode inode) w with (Ok id, w) => (id, w) | (Err _, w) => (0, w) end.

Definition release_blob (hash : string) (id : Z) (w : World) : World :=
  on_vfs (λ v, v <| v_Store := default (v_Store v)
                  (ReleaseBlob (Some (v_Cache v)) (Some (v_Store v)) hash id) |>) w.

(** ** Names and paths *)

Definition joinPath (parent child : string) : string :=
  if decide (parent = "") then child else path_Join parent child.

Definition nodeToInode (node : Node) (parentID : Z) : Inode :=
  mkInode 0 (n_RemotePath node) (n_Name node) (n_IsDir node) (n_Size node) (Unix (n_Mtime node))
    (n_Cached node) (n_Dirty node) false 0 (n_ContentHash node) "" 0 (n_SealedKey node)
    (n_EncMeta node) (n_Etag node) parentID (n_SyncStatus node) (n_StatusReason node).

Section tree.
Context `{U : Unicode, BL : Blake2b, A : AEAD, X : X25519, K : MLKEM, HK : Hkdf, SH : Sha256, CS : ChunkSize}.
Variable m : Mount.

Definition decryptName (e2eeDisplayNameB64 : string) : string :=
  if decide (e2eeDisplayNameB64 = "") then "" else
  match base64_decode e2eeDisplayNameB64 with
  | None => "(encrypted)"
  | Some sealed =>
      match UnsealDisplayName sealed (m_PrivateKey m) with
      | Err _ => "(encrypted)"
      | Ok name =>
          let name := String.string_of_list_byte name in
          if IsSafeName (m_windows m) name then name else "(encrypted)"
      end
  end.

(** The random input of the sealed name comes from the world. *)
Definition addE2eeNameFields (options : gmap string string) (fileName fullPath : string)
    (w : World) : gmap string string :=
  let '(eph, kem, nonce) := m_seal_rand m w in
  match SealDisplayName (String.list_byte_of_string fileName) (m_PublicKey m) eph kem nonce with
  | Err _ => options
  | Ok sealedName =>
      match ComputePathToken (default [] (m_NameKey m)) fullPath with
      | Err _ => options
      | Ok pathToken =>
          <["e2ee_path_token" := hex_encode pathToken]>
            (<["e2ee_display_name" := base64_encode sealedName]> options)
      end
  end.

Definition addPathTokens (options : gmap string string) (paths : list string)
    : gmap string string :=
  AddPathTokenOptions (m_json_map m) options (default [] (m_NameKey m))
    (paths ≫= λ p, PathTokenPaths p PathTokenSelfAndAncestors).

(** [client.Execute] and the two ways it can fail. *)
Definition request (prefix failed command : string) (options : gmap string string) (w : World)
    : result error Response * World :=
  match m_Execute m command options w with
  | (Err err, w) => (Err (ErrWrap prefix err), w)
  | (Ok resp, w) => if Success resp then (Ok resp, w)
                    else (Err (ErrText (failed ^^ ": " ^^ Message resp)), w)
  end.

Definition enqueue_wb (id : Z) (act path : string) (w : World) : World :=
  call_db (EnqueueWriteback (m_marshal m) (m_unmarshal m) id act path "" (m_newKey m w)
             (Unix (wd_now w))) w.

(** ** Listing a directory *)

Definition set_online (b : bool) : World → World := on_vfs (λ v, v <| v_Online := b |>).
Definition remote_changed : string := "remote changed while local edits pending".

Definition modified_time (entry : ListEntry) : option Z := le_Modified entry ≫= m_RFC3339 m.

(** An entry whose name is already a child. *)
Definition refresh_child (l : loc) (entry : ListEntry) (w : World) : World :=
  let existing := node_at l w in
  let id := n_ID existing in
  let locallyDirty := n_Dirty existing ||
    match inode_or_nil id w with Some cached => i_Dirty cached | None => false end in
  let changed := bool_decide (n_Etag existing ≠ le_ETag entry) in
  if locallyDirty && changed then
    call_db (MarkLocalConflict id remote_changed)
      (on_node l (λ nd, nd <| n_SyncStatus := StatusConflict |>
                           <| n_StatusReason := remote_changed |>) w)
  else
    let w := if negb locallyDirty && changed
             then call_db (InvalidateCache id) (on_node l (λ nd, nd <| n_Cached := false |>) w)
             else w in
    let w := on_node l (λ nd, nd <| n_Etag := le_ETag entry |>) w in
    let w := call_db (SetRemoteVersion id (le_ETag entry)) w in
    let w := match le_PlaintextSize entry with
             | Some size => on_node l (λ nd, nd <| n_Size := size |>) w | None => w end in
    match modified_time entry with
    | Some t => on_node l (λ nd, nd <| n_Mtime := t |>) w | None => w end.

(** The node of an entry not listed before, from the entry and the row a former
    run left for its path. *)
Definition listed_node (parent : loc) (name childPath : string) (entry : ListEntry) (w : World)
    : Node :=
  let node :=
    if decide (le_Type entry = "directory") then NewDirNode name childPath (Some parent) (wd_now w)
    else
      let size := match le_PlaintextSize entry with
                  | Some size => size
                  | None => match inode_at_path childPath w with
                            | Some dbInode => i_Size dbInode | None => 0 end
                  end in
      NewFileNode name childPath size (default (wd_now w) (modified_time entry)) (Some parent) in
  let node := node <| n_Etag := le_ETag entry |> in
  match inode_at_path childPath w with
  | Some prior =>
      if i_Dirty prior then
        let node := node <| n_Dirty := true |> <| n_Etag := i_Etag prior |>
                         <| n_Size := i_Size prior |> <| n_Mtime := i_Mtime prior * second |>
                         <| n_SyncStatus := i_SyncStatus prior |>
                         <| n_StatusReason := i_StatusReason prior |> in
        if decide (i_Etag prior ≠ le_ETag entry)
        then node <| n_SyncStatus := StatusConflict |> <| n_StatusReason := remote_changed |>
        else node
      else node
  | None => node
  end.

(** [parent.Children[name] = node]. *)
Definition set_child (parent : loc) (name : string) (l : loc) (w : World) : World :=
  on_node parent (λ nd, nd <| n_Children := <[name := l]> <$> n_Children nd |>) w.

Definition new_child (parent : loc) (name childPath : string) (entry : ListEntry) (w : World)
    : World :=
  let node := listed_node parent name childPath entry w in
  let inode := nodeToInode node (n_ID (node_at parent w)) in
  let '(id, w) := upsert_id inode w in
  let '(l, w) := alloc (node <| n_ID := id |>) w in
  on_vfs (trackNode l) (set_child parent name l w).

Definition populate_entry (parent : loc) (remotePath : string) (seen : gset string)
    (entry : ListEntry) (w : World) : gset string * World :=
  let name := decryptName (le_E2EEDisplayName entry) in
  if decide (name = "" ∨ name = "(encrypted)") then (seen, w)
  else if IsExcludedDir name then (seen, w)
  else
    ({[name]} ∪ seen,
     match GetChild parent name (wd_nodes w) with
     | Some existing => refresh_child existing entry w
     | None => new_child parent name (joinPath remotePath name) entry w
     end).

Fixpoint populate_entries (parent : loc) (remotePath : string) (seen : gset string)
    (entries : list ListEntry) (w : World) : gset string * World :=
  match entries with
  | [] => (seen, w)
  | entry :: rest =>
      let '(seen, w) := populate_entry parent remotePath seen entry w in
      populate_entries parent remotePath seen rest w
  end.

(** The children that the listing no longer has, but for edited ones. *)
Definition gone (seen : gset string) (w : World) (x : string * loc) : Prop :=
  x.1 ∉ seen ∧ n_Dirty (node_at x.2 w) = false.
#[export] Instance gone_dec seen w x : Decision (gone seen w x).
Proof. unfold gone. apply _. Defined.
Definition kept (seen : gset string) (w : World) (ch : gmap string loc) : gmap string loc :=
  filter (λ x, ¬ gone seen w x) ch.
Definition prune_children (parent : loc) (seen : gset string) (w : World) : World :=
  let children := children_of parent (wd_nodes w) in
  let removed := filter (gone seen w) children in
  let w := on_node parent (λ nd, nd <| n_Children := kept seen w <$> n_Children nd |>) w in
  foldr (λ l, on_vfs (untrackNode l)) w (map_to_list removed).*2.

Definition populateDir (parent : loc) (w : World) : result error unit * World :=
  let remotePath := n_RemotePath (node_at parent w) in
  let source := if decide (remotePath = "") then "/" else "/" ^^ remotePath in
  let options : gmap string string := {[ "source" := source ]} in
  let options := if decide (remotePath = "") then options else addPathTokens options [remotePath] in
  match m_Execute m "ls" options w with
  | (Err err, w) => (Err (ErrWrap "ls API call" err), set_online false w)
  | (Ok resp, w) =>
      let w := set_online true w in
      if negb (Success resp) then (Err (ErrText ("ls failed: " ^^ Message resp)), w) else
      match m_entries m (Raw resp) with
      | Err err => (Err (ErrWrap "parse ls response" err), w)
      | Ok entries =>
          let '(seen, w) := populate_entries parent remotePath ∅ entries w in
          let w := prune_children parent seen w in
          (Ok tt, on_node parent (λ nd, nd <| n_Loaded := true |>) w)
      end
  end.

Definition ensure_loaded (parent : loc) (w : World) : result error unit * World :=
  if n_Loaded (node_at parent w) then (Ok tt, w) else populateDir parent w.

Definition Lookup (parent : loc) (name : string) (w : World) : result error loc * World :=
  if IsExcludedDir name then (Err (ErrText ("excluded directory: " ^^ name)), w) else
  match GetChild parent name (wd_nodes w) with
  | Some child => (Ok child, w)
  | None =>
      match ensure_loaded parent w with
      | (Err err, w) => (Err err, w)
      | (Ok _, w') =>
          let child := if n_Loaded (node_at parent w) then None
                       else GetChild parent name (wd_nodes w') in
          (match child with Some c => Ok c | None => Err (ErrText ("not found: " ^^ name)) end, w')
      end
  end.

Definition Readdir (parent : loc) (w : World) : result error (list loc) * World :=
  if negb (n_IsDir (node_at parent w)) then (Err (ErrText "not a directory"), w) else
  match ensure_loaded parent w with
  | (Err err, w) => (Err err, w)
  | (Ok _, w) => (Ok (ListChildren parent (wd_nodes w)), w)
  end.

(** ** Creating and deleting *)

Definition not_dir : error := ErrText "parent is not a directory".
Definition read_only {T} (w : World) (k : result error T * World) : result error T * World :=
  if v_readOnly (wd_vfs w) then (Err (ErrSentinel ErrReadOnly), w) else k.

Definition truncate_existing (existing : loc) (w : World) : result error loc * World :=
  let '(r, v) := Truncate existing 0 (wd_now w) (wd_vfs w) in
  (match r with Ok _ => Ok existing | Err err => Err err end, w <| wd_vfs := v |>).

Definition Create (parent : loc) (name : string) (w : World) : result error loc * World :=
  read_only w
  (if negb (n_IsDir (node_at parent w)) then (Err not_dir, w) else
   match GetChild parent name (wd_nodes w) with
   | Some existing =>
       if n_IsDir (node_at existing w) then (Err (ErrSentinel ErrExists), w)
       else truncate_existing existing w
   | None =>
       let remotePath := joinPath (n_RemotePath (node_at parent w)) name in
       let '(ok, reason) := ValidateFile name 0 in
       let status := if ok then StatusPending else StatusRejected in
       let node := (NewFileNode name remotePath 0 (wd_now w) (Some parent))
                     <| n_SyncStatus := status |> <| n_StatusReason := reason |>
                     <| n_Dirty := true |> <| n_Data := Some [] |> in
       let inode := mkInode 0 remotePath name false 0 (Unix (wd_now w)) false true false 0 "" "" 0
                      "" "" "" (n_ID (node_at parent w)) status reason in
       match run_db (UpsertInode inode) w with
       | (Err err, w) => (Err (ErrWrap "persist inode" err), w)
       | (Ok id, w) =>
           let '(l, w) := alloc (node <| n_ID := id |>) w in
           (Ok l, attach_child parent l w)
       end
   end).

Definition Mkdir (parent : loc) (name : string) (w : World) : result error loc * World :=
  read_only w
  (if negb (n_IsDir (node_at parent w)) then (Err not_dir, w) else
   match ValidateDirName name with
   | (false, reason) => (Err (ErrText ("invalid directory name: " ^^ reason)), w)
   | (true, _) =>
       let remotePath := joinPath (n_RemotePath (node_at parent w)) name in
       let options := addE2eeNameFields {[ "source" := "/" ^^ remotePath ]} name remotePath w in
       match request "mkdir API call" "mkdir failed" "mk" (addPathTokens options [remotePath]) w with
       | (Err err, w) => (Err err, w)
       | (Ok _, w) =>
           let node := NewDirNode name remotePath (Some parent) (wd_now w) in
           let inode := mkInode 0 remotePath name true 0 (Unix (wd_now w)) false false false 0 "" ""
                          0 "" "" "" (n_ID (node_at parent w)) StatusSynced "" in
           match run_db (UpsertInode inode) w with
           | (Err err, w) => (Err (ErrWrap "persist inode" err), w)
           | (Ok id, w) =>
               let '(l, w) := alloc (node <| n_ID := id |>) w in
               (Ok l, attach_child parent l w)
           end
       end
   end).

(** The statuses under which the server is taken to have the file. *)
Definition is_uploaded (node : Node) : bool :=
  bool_decide (n_SyncStatus node = StatusSynced ∨ n_SyncStatus node = StatusConflict).

Definition rm_request (remotePath : string) (w : World) : result error unit * World :=
  match request "rm API call" "rm failed" "rm"
          (addPathTokens {[ "source" := "/" ^^ remotePath ]} [remotePath]) w with
  | (Err err, w) => (Err err, w)
  | (Ok _, w) => (Ok tt, w)
  end.

(** [Unlink] once the server has agreed. *)
Definition forget_file (parent : loc) (name : string) (child : loc) (node : Node) (w : World)
    : World :=
  let w := remove_child parent name w in
  let w := call_db (DeleteWritebackByInode (n_ID node)) w in
  let w := release_blob (n_ContentHash node) (n_ID node) w in
  let w := call_db (DeleteInode (n_RemotePath node)) w in
  on_vfs (untrackNode child) w.

Definition Unlink (parent : loc) (name : string) (w : World) : result error unit * World :=
  read_only w
  match GetChild parent name (wd_nodes w) with
  | None => (Err (ErrSentinel ErrNotFound), w)
  | Some child =>
      let node := node_at child w in
      if n_IsDir node then (Err (ErrSentinel ErrIsDir), w) else
      match (if is_uploaded node then rm_request (n_RemotePath node) w else (Ok tt, w)) with
      | (Err err, w) => (Err err, w)
      | (Ok _, w) => (Ok tt, forget_file parent name child node w)
      end
  end.

Definition Rmdir (parent : loc) (name : string) (w : World) : result error unit * World :=
  read_only w
  match GetChild parent name (wd_nodes w) with
  | None => (Err (ErrSentinel ErrNotFound), w)
  | Some child =>
      if negb (n_IsDir (node_at child w)) then (Err (ErrText ("not a directory: " ^^ name)), w) else
      match ensure_loaded child w with
      | (Err err, w) => (Err (ErrWrap ("rmdir: list " ^^ name) err), w)
      | (Ok _, w) =>
          if decide (0 < ChildCount child (wd_nodes w))%nat
          then (Err (ErrSentinel ErrNotEmpty), w) else
          let remotePath := n_RemotePath (node_at child w) in
          match rm_request remotePath w with
          | (Err err, w) => (Err err, w)
          | (Ok _, w) =>
              let w := remove_child parent name w in
              let w := call_db (DeleteChildren (n_ID (node_at child w))) w in
              let w := call_db (DeleteInode remotePath) w in
              (Ok tt, on_vfs (untrackNode child) w)
          end
      end
  end.

(** ** Renaming *)

(** Take [child] out of one directory, put it into another under a new name, and
    give it the row of its new path. *)
Definition move_node (oldParent child : loc) (oldName : string) (newParent : loc)
    (newName newRemotePath : string) (w : World) : World :=
  let w := remove_child oldParent oldName w in
  let w := on_vfs (untrackNode child) w in
  let w := on_node child (λ nd, nd <| n_Name := newName |> <| n_RemotePath := newRemotePath |>
                                   <| n_Parent := Some newParent |>) w in
  add_child newParent child w.
Definition rekey (l : loc) (oldRemotePath : string) (parentID : Z) (w : World) : Z * World :=
  let w := call_db (DeleteInode oldRemotePath) w in
  let '(id, w) := upsert_id (nodeToInode (node_at l w) parentID) w in
  (id, on_vfs (trackNode l) (set_id l id w)).

(** [for name, child := range dir.Children]. *)
Definition range_children (dir : loc) (w : World) : list (string * loc) :=
  m_range m (map_to_list (children_of dir (wd_nodes w))).

(** [fuel] bounds the depth of the tree. *)
Fixpoint rewriteSubtree (fuel : nat) (dir : loc) (oldPrefix newPrefix : string) (w : World)
    : World :=
  match fuel with
  | O => w
  | S fuel =>
      foldl (λ w child,
        let oldPath := n_RemotePath (node_at child w) in
        let newPath := newPrefix ^^ trim_prefix oldPrefix oldPath in
        let w := on_vfs (untrackNode child) w in
        let w := on_node child (λ nd, nd <| n_RemotePath := newPath |>) w in
        let '(_, w) := rekey child oldPath (n_ID (node_at dir w)) w in
        if n_IsDir (node_at child w) then rewriteSubtree fuel child oldPath newPath w else w)
        w (range_children dir w).*2
  end.

Definition renameLocalOnlyFile (oldParent child : loc) (oldName : string) (newParent : loc)
    (newName newRemotePath : string) (w : World) : World :=
  let oldRemotePath := n_RemotePath (node_at child w) in
  let oldID := n_ID (node_at child w) in
  let w := move_node oldParent child oldName newParent newName newRemotePath w in
  let w := call_db (DeleteWritebackByInode oldID) w in
  let '(id, w) := rekey child oldRemotePath (n_ID (node_at newParent w)) w in
  enqueue_wb id "upload" newRemotePath w.

Definition Rename (oldParent : loc) (oldName : string) (newParent : loc) (newName : string)
    (w : World) : result error unit * World :=
  read_only w
  match GetChild oldParent oldName (wd_nodes w) with
  | None => (Err (ErrSentinel ErrNotFound), w)
  | Some child =>
      let newRemotePath := joinPath (n_RemotePath (node_at newParent w)) newName in
      let uploaded := is_uploaded (node_at child w) in
      let isDir := n_IsDir (node_at child w) in
      if negb (IsSafeName (m_windows m) newName) then (Err (ErrSentinel ErrInvalidName), w) else
      if negb (if isDir then (ValidateDirName newName).1 else validNameRegex newName)
      then (Err (ErrSentinel ErrInvalidName), w) else
      if negb uploaded && negb isDir then
        (Ok tt, renameLocalOnlyFile oldParent child oldName newParent newName newRemotePath w)
      else
        let path := n_RemotePath (node_at child w) in
        let options := addE2eeNameFields
          (<["target" := "/" ^^ newRemotePath]> {[ "source" := "/" ^^ path ]})
          newName newRemotePath w in
        match request "mv API call" "mv failed" "mv"
                (addPathTokens options [path; newRemotePath]) w with
        | (Err err, w) => (Err err, w)
        | (Ok _, w) =>
            let oldRemotePath := n_RemotePath (node_at child w) in
            let w := move_node oldParent child oldName newParent newName newRemotePath w in
            let '(_, w) := rekey child oldRemotePath (n_ID (node_at newParent w)) w in
            (Ok tt, if isDir
                    then rewriteSubtree (S (size (wd_nodes w))) child oldRemotePath newRemotePath w
                    else w)
        end
  end.

(** ** Rejected files and the quota *)

(** [fuel] bounds the depth of the tree. *)
Fixpoint remove_walk (fuel : nat) (status : SyncStatus) (dir : loc) (count : Z) (w : World)
    : Z * World :=
  match fuel with
  | O => (count, w)
  | S fuel =>
      if negb (n_IsDir (node_at dir w)) then (count, w) else
      foldl (λ cw entry,
        let '(count, w) := (cw : Z * World) in
        let '(name, child) := (entry : string * loc) in
        if decide (n_SyncStatus (node_at child w) = status) then
          (count + 1, on_vfs (untrackNode child) (remove_child dir name w))
        else if n_IsDir (node_at child w) then remove_walk fuel status child count w
        else (count, w))
        (count, w) (range_children dir w)
  end.
Definition removeFromTreeByStatus (status : SyncStatus) (w : World) : Z * World :=
  remove_walk (S (size (wd_nodes w))) status (m_Root m) 0 w.

Definition CleanRejected (w : World) : result error Z * World :=
  match run_db DeleteRejected w with
  | (Err err, w) => (Err err, w)
  | (Ok hashes, w) =>
      let w := foldl (λ w h, release_blob h 0 w) w hashes in
      let '(count, w) := removeFromTreeByStatus StatusRejected w in (Ok count, w)
  end.

Definition Statfs (w : World) : result error (Z * Z) * World :=
  let fresh := match v_statfs (wd_vfs w) with
               | Some (u, l, at_) => if decide (wd_now w - at_ < statfsTTL) then Some (u, l) else None
               | None => None
               end in
  match fresh with
  | Some ul => (Ok ul, w)
  | None =>
      match request "stat API call" "stat failed" "st" ∅ w with
      | (Err err, w) => (Err err, w)
      | (Ok resp, w) =>
          match m_quota m (Raw resp) with
          | Err err => (Err (ErrWrap "parse stat response" err), w)
          | Ok (u, l) => (Ok (u, l), on_vfs (λ v, v <| v_statfs := Some (u, l, wd_now w) |>) w)
          end
      end
  end.
End tree.

(** ** An example mount *)

#[local] Existing Instance ex_chunk_size | 0.
#[local] Existing Instance ex_unicode.

Definition ex_ok_response : Response := mkResponse true "" "" "" "" 200 [].
Definition ex_execute (ok : bool) (command : string) (options : gmap string string) (w : World)
    : result error Response * World :=
  (Ok (mkResponse ok "" "refused" "" "" 200 []), tick w).
Definition ex_sealed_name (name : string) : string :=
  match SealDisplayName (String.list_byte_of_string name) (Some ex_pub) ex_eph (replicate 32 x01)
          ex_nonce with
  | Ok b => base64_encode b | Err _ => "" end.
Definition ex_mount (ok : bool) (entries : list ListEntry) : Mount :=
  mkMount 1%positive None (Some ex_pub) (Some ex_priv) (ex_execute ok) (λ _, Ok entries)
    (λ _, Ok (0, 0)) (λ _, None) None (λ _, None) ex_mk ex_un (λ _, "key")
    (λ _, (ex_eph, replicate 32 x01, ex_nonce)) id (λ _, "error").
Definition ex_listed (name type etag : string) (size : option Z) : ListEntry :=
  mkListEntry "" "" "" type None size None false false None (ex_sealed_name name) "" etag.
Definition ex_root_world (db : DB) : World :=
  mkWorld (New "/" 1 db ex_store0 0) ∅ (100 * second) [] no_suppression.

Example populate_ex :
  let '(r, w) := populateDir (ex_mount true [ex_listed "a.txt" "file" "e1" (Some 3);
                                             ex_listed "docs" "directory" "" None]) 1
                   (ex_root_world empty_db) in
  r = Ok tt ∧ (c_remote_path <$> inodes (wd_db w)) = ["a.txt"; "docs"] ∧
  ((λ l, n_Name (node_at l w)) <$> ListChildren 1 (wd_nodes w)) = ["a.txt"; "docs"].
Proof. vm_compute. by repeat split. Qed.

(** Tracking a node touches the index only. *)
Lemma track_frame l v : v_Cache (trackNode l v) = v_Cache v ∧ v_nodes (trackNode l v) = v_nodes v.
Proof. unfold trackNode. destruct (v_nodes v !! l); [by case_decide|done]. Qed.

(** ** Deleting a file that was edited *)

Section unlinking.
Context `{U : Unicode, BL : Blake2b, A : AEAD, X : X25519, K : MLKEM, HK : Hkdf, SH : Sha256, CS : ChunkSize}.

Lemma Write_links l off data now v n v' nd :
  Write l off data now v = (Ok n, v') → v_nodes v !! l = Some nd →
  v_readOnly v' = false ∧ v_Cache v' = v_Cache v ∧
  (∀ p name, GetChild p name (v_nodes v') = GetChild p name (v_nodes v)) ∧
  ∃ nd', v_nodes v' !! l = Some nd' ∧ n_SyncStatus nd' = StatusPending ∧ n_IsDir nd' = n_IsDir nd ∧
         n_ID nd' = n_ID nd ∧ n_RemotePath nd' = n_RemotePath nd.
Proof.
  unfold Write. intros H Hl. destruct (v_readOnly v) eqn:Hro; [done|]. rewrite Hl in H.
  destruct (load_data _ _) as [d|]; [|done]. destruct (go_slice _ _ _) as [tail|]; [|done].
  injection H as _ <-. split; [done|]. split; [done|]. split.
  - intros p name. unfold GetChild, children_of, with_node, update_node. simpl.
    destruct (decide (p = l)) as [->|]; [by rewrite lookup_alter_eq, Hl|by rewrite lookup_alter_ne].
  - unfold with_node, update_node. simpl. rewrite lookup_alter_eq, Hl. by eexists.
Qed.

(** What is left of a file once it is forgotten. *)
Lemma forget_file_spec parent name child node w :
  closed (wd_db w) = false →
  let w' := forget_file parent name child node w in
  GetChild parent name (wd_nodes w') = None ∧ wd_now w' = wd_now w ∧
  Forall (λ r, c_remote_path r ≠ n_RemotePath node) (inodes (wd_db w')) ∧
  Forall (λ e, w_InodeID e ≠ n_ID node) (writeback_queue (wd_db w')).
Proof using Type.
  intros Hc. cbv zeta. unfold forget_file.
  set (w1 := remove_child parent name w).
  set (w2 := call_db (DeleteWritebackByInode (n_ID node)) w1).
  set (w3 := release_blob (n_ContentHash node) (n_ID node) w2).
  set (w4 := call_db (DeleteInode (n_RemotePath node)) w3).
  assert (wd_db w2 = on_queue (sql_delete (λ e, w_InodeID e = n_ID node)) (wd_db w)) as H2.
  { unfold w2. rewrite wd_db_call. unfold DeleteWritebackByInode, delete_queue, exec_.
    by rewrite exec_open. }
  assert (wd_db w4 = on_inodes (sql_delete (λ r, c_remote_path r = n_RemotePath node)) (wd_db w2)) as H4.
  { unfold w4. rewrite wd_db_call. change (wd_db w3) with (wd_db w2). unfold DeleteInode, exec_.
    rewrite exec_open; [done|]. by rewrite H2. }
  assert (wd_nodes w4 = wd_nodes w1 ∧ wd_now w4 = wd_now w) as [Hn Ht].
  { unfold w4. rewrite wd_nodes_call, wd_now_call. change (wd_nodes w3) with (wd_nodes w2).
    change (wd_now w3) with (wd_now w2). unfold w2. by rewrite wd_nodes_call, wd_now_call. }
  assert (wd_db (on_vfs (untrackNode child) w4) = wd_db w4 ∧
          wd_nodes (on_vfs (untrackNode child) w4) = wd_nodes w4) as [Hdb Hno].
  { unfold wd_db, wd_nodes, on_vfs, untrackNode. simpl.
    destruct (v_nodes (wd_vfs w4) !! child); [by case_decide|done]. }
  rewrite Hdb, Hno, Hn, H4, H2. split_and!; [|done|..].
  - unfold w1, remove_child. destruct (GetChild_RemoveChild parent name name (wd_nodes w)) as [_ Hg].
    rewrite decide_True in Hg by done. exact Hg.
  - apply Forall_forall. by intros r [? _]%elem_of_sql_delete.
  - apply Forall_forall. by intros r [? _]%elem_of_sql_delete.
Qed.

(** C33: Deleting a file with an edit that has not been uploaded yet is forgotten
    locally and never reaches the server.  After any successful write to a file
    (whatever its status was, so also one the server has), [Unlink] answers
    success without a request: its result is the same for every server, and no
    time passes.  The file is gone from its directory, its row and every queue
    entry of it are deleted and no deletion is queued, so the server keeps the
    version it has. *)
Theorem Unlink_edited m parent name child node off data now n v1 w :
  GetChild parent name (wd_nodes w) = Some child → wd_nodes w !! child = Some node →
  n_IsDir node = false → closed (wd_db w) = false →
  Write child off data now (wd_vfs w) = (Ok n, v1) →
  let w1 := w <| wd_vfs := v1 |> in
  (∀ m', Unlink m' parent name w1 = Unlink m parent name w1) ∧
  let '(res, w2) := Unlink m parent name w1 in
  res = Ok tt ∧ wd_now w2 = wd_now w ∧ GetChild parent name (wd_nodes w2) = None ∧
  Forall (λ r, c_remote_path r ≠ n_RemotePath node) (inodes (wd_db w2)) ∧
  Forall (λ e, w_InodeID e ≠ n_ID node) (writeback_queue (wd_db w2)).
Proof using Type.
  intros Hg Hnode Hd Hc Hw w1.
  destruct (Write_links _ _ _ _ _ _ _ _ Hw Hnode) as (Hro & Hdb & Hch & nd & Hnd & Hst & Hdir & Hid & Hpath).
  assert (∀ m', Unlink m' parent name w1 = (Ok tt, forget_file parent name child nd w1)) as Hun.
  { intros m'. unfold Unlink, read_only. change (v_readOnly (wd_vfs w1)) with (v_readOnly v1).
    rewrite Hro. change (GetChild parent name (wd_nodes w1)) with (GetChild parent name (v_nodes v1)).
    rewrite Hch. unfold wd_nodes in Hg. rewrite Hg. cbv zeta.
    assert (node_at child w1 = nd) as -> by (unfold node_at, wd_nodes; simpl; by rewrite Hnd).
    rewrite Hdir, Hd. unfold is_uploaded. by rewrite Hst, bool_decide_false by (by intros [|]). }
  split; [intros m'; by rewrite !Hun|]. rewrite Hun.
  destruct (forget_file_spec parent name child nd w1) as (Hf1 & Hf2 & Hf3 & Hf4).
  { unfold wd_db. simpl. rewrite Hdb. exact Hc. }
  rewrite <- Hid, <- Hpath. done.
Qed.
End unlinking.

(** ** Witnesses *)

(** A mount that has listed one synchronised file. *)
Definition ex_one : Mount := ex_mount true [].
Definition ex_one_node : Node :=
  (NewFileNode "a.txt" "a.txt" 3 0 (Some 1%positive)) <| n_ID := 1 |> <| n_Etag := "e1" |>.
Definition ex_one_root : Node :=
  (NewRootNode "" 0) <| n_Loaded := true |> <| n_Children := Some {[ "a.txt" := 2%positive ]} |>.
Definition ex_one_db : DB := run_op (OpUpsertInode (nodeToInode ex_one_node 0)) empty_db.
Definition ex_listed_world : World :=
  mkWorld (mkVFS "" ex_one_db ex_store0 false {[ 1%positive := ex_one_root; 2%positive := ex_one_node ]}
             {[ 1 := 2%positive ]} true None 0 ∅) ∅ (100 * second) [] no_suppression.

Lemma Unlink_edited_witness :
  (NodeByID 1 (wd_vfs ex_listed_world) = Some 2%positive ∧
   n_Etag (node_at 2 ex_listed_world) = "e1") ∧
  ∃ v1, Write 2 0 [x41] 7 (wd_vfs ex_listed_world) = (Ok 1, v1) ∧
    let w2 := (Unlink ex_one 1 "a.txt" (ex_listed_world <| wd_vfs := v1 |>)).2 in
    inodes (wd_db w2) = [] ∧ writeback_queue (wd_db w2) = [].
Proof.
  split; [vm_compute; by split|].
  destruct (Write 2 0 [x41] 7 (wd_vfs ex_listed_world)) as [[n|err] v1] eqn:E.
  - assert (n = 1) as -> by (apply (f_equal fst) in E; vm_compute in E; by injection E).
    exists v1. split; [reflexivity|].
    pose proof (Unlink_edited ex_one 1 "a.txt" 2 (node_at 2 ex_listed_world) 0 [x41] 7 1 v1
      ex_listed_world ltac:(vm_compute; reflexivity) ltac:(vm_compute; reflexivity)
      ltac:(vm_compute; reflexivity) ltac:(vm_compute; reflexivity) E) as [_ H].
    cbv zeta. set (w1 := ex_listed_world <| wd_vfs := v1 |>).
    assert (wd_db (Unlink ex_one 1 "a.txt" w1).2 = mkDB [] 1 [] 0 [] false false) as Hdb.
    { unfold w1. apply (f_equal snd) in E. cbn [snd] in E. rewrite <- E. vm_compute. reflexivity. }
    exact (conj (f_equal inodes Hdb) (f_equal writeback_queue Hdb)).
  - exfalso. apply (f_equal fst) in E. vm_compute in E. discriminate E.
Defined.
