(* ===== verification/VfsTreeInv.v ===== *)
(** * The shape of the mounted tree

    The node heap stays a tree under every operation of [VfsTree] and
    [VfsContent]: a child is listed under its own name and points back to its
    parent, and the identifier index lists a node under its own identifier. *)
From S2P Require Import Prelude GoLib GoFmt Table ApiErrors Crypto Hybrid Names CacheDB CacheStore CacheEvict.
From S2P Require Import FileTypes LocalFs VfsNode VfsContent Writeback VfsTree.
Local Open Scope Z_scope.

(** ** The invariant *)

Definition child_ok (h : heap) (p : loc) (name : string) (c : loc) : Prop :=
  ∃ cn, h !! c = Some cn ∧ n_Name cn = name ∧ n_Parent cn = Some p.
Definition children_ok (h : heap) : Prop := ∀ p pn ch name c,
  h !! p = Some pn → n_Children pn = Some ch → ch !! name = Some c → child_ok h p name c.
Definition index_ok (h : heap) (ix : gmap Z loc) : Prop := ∀ id l,
  ix !! id = Some l → id ≠ 0 ∧ ∃ nd, h !! l = Some nd ∧ n_ID nd = id.
Record tree_ok (v : VFS) : Prop := {
  tk_children : children_ok (v_nodes v);
  tk_index : index_ok (v_nodes v) (v_nodesByID v) }.

(** What the children clause looks at in a node. *)
Definition same_links (nd nd' : Node) : Prop :=
  n_Name nd' = n_Name nd ∧ n_Parent nd' = n_Parent nd ∧ n_Children nd' = n_Children nd.
Definition heap_related (R : Node → Node → Prop) (h h' : heap) : Prop := ∀ l,
  match h !! l, h' !! l with Some nd, Some nd' => R nd nd' | None, None => True | _, _ => False end.

Lemma related_update (R : Node → Node → Prop) l f h :
  (∀ nd, R nd nd) → (∀ nd, R nd (f nd)) → heap_related R h (update_node l f h).
Proof.
  intros Hr Hf k. unfold update_node. destruct (decide (k = l)) as [->|].
  - rewrite lookup_alter_eq. destruct (h !! l); simpl; [apply Hf|done].
  - rewrite lookup_alter_ne by done. destruct (h !! k); [apply Hr|done].
Qed.

Lemma children_ok_related h h' : heap_related same_links h h' → children_ok h → children_ok h'.
Proof.
  intros Hn Hc p pn ch name c Hp Hch Hnm. pose proof (Hn p) as Hsp. rewrite Hp in Hsp.
  destruct (h !! p) as [pn0|] eqn:Hp0; [|done]. destruct Hsp as (_ & _ & Hchp).
  destruct (Hc p pn0 ch name c Hp0 ltac:(congruence) Hnm) as (cn & Hcn & Hname & Hpar).
  pose proof (Hn c) as Hsc. rewrite Hcn in Hsc. destruct (h' !! c) as [cn'|] eqn:Hc'; [|done].
  destruct Hsc as (Hn1 & Hp1 & _). exists cn'. split; [done|]. split; congruence.
Qed.

Lemma index_ok_related h h' ix :
  heap_related (λ nd nd', n_ID nd' = n_ID nd) h h' → index_ok h ix → index_ok h' ix.
Proof.
  intros Hn Hi id l Hl. destruct (Hi id l Hl) as (Hz & nd & Hnd & Hid).
  split; [done|]. pose proof (Hn l) as Hs. rewrite Hnd in Hs.
  destruct (h' !! l) as [nd'|]; [|done]. exists nd'. split; [done|congruence].
Qed.

Lemma tree_ok_same v v' :
  v_nodesByID v' = v_nodesByID v → v_nodes v' = v_nodes v → tree_ok v → tree_ok v'.
Proof. intros Hix Hn [Hc Hi]. split; rewrite ?Hix, Hn; done. Qed.

Definition benign (f : Node → Node) : Prop := ∀ nd, same_links nd (f nd) ∧ n_ID (f nd) = n_ID nd.
Lemma tree_ok_update l f v : benign f → tree_ok v → tree_ok (with_node l f v).
Proof.
  intros Hf [Hc Hi]. split.
  - eapply children_ok_related; [|exact Hc]. apply related_update; [done|apply Hf].
  - eapply index_ok_related; [|exact Hi]. apply related_update; [done|apply Hf].
Qed.

(** ** The index *)

Lemma tree_ok_track l v : tree_ok v → tree_ok (trackNode l v).
Proof.
  intros [Hc Hi]. unfold trackNode. destruct (v_nodes v !! l) as [nd|] eqn:Hl; [|by split].
  case_decide; [by split|]. split; [done|]. simpl. intros id k.
  destruct (decide (id = n_ID nd)) as [->|].
  - rewrite lookup_insert_eq. intros [= <-]. eauto.
  - rewrite lookup_insert_ne by done. apply Hi.
Qed.

Lemma tree_ok_untrack l v : tree_ok v → tree_ok (untrackNode l v).
Proof.
  intros [Hc Hi]. unfold untrackNode. destruct (v_nodes v !! l) as [nd|] eqn:Hl; [|by split].
  case_decide; [by split|]. split; [done|]. simpl. intros id k [_ Hk]%lookup_delete_Some. by apply Hi.
Qed.

Lemma untracked_after l v id :
  tree_ok v → v_nodesByID (untrackNode l v) !! id ≠ Some l.
Proof.
  intros [_ Hi] Hid. unfold untrackNode in Hid.
  destruct (v_nodes v !! l) as [nd|] eqn:Hl.
  - case_decide as Hz.
    + destruct (Hi id l Hid) as (? & nd' & ? & ?). congruence.
    + simpl in Hid. apply lookup_delete_Some in Hid as [Hne Hid].
      destruct (Hi id l Hid) as (? & nd' & ? & ?). congruence.
  - destruct (Hi id l Hid) as (? & nd' & ? & ?). congruence.
Qed.

(** A node that is not tracked may get another identifier. *)
Lemma tree_ok_set_id l id v :
  (∀ id', v_nodesByID v !! id' ≠ Some l) → tree_ok v →
  tree_ok (with_node l (λ nd, nd <| n_ID := id |>) v).
Proof.
  intros Hun [Hc Hi]. split.
  - eapply children_ok_related; [|exact Hc]. by apply related_update.
  - intros id' k Hk. destruct (Hi id' k Hk) as (Hz & nd & Hnd & Hid). split; [done|].
    exists nd. split; [|done]. unfold with_node, update_node. simpl.
    rewrite lookup_alter_ne; [done|]. intros ->. by apply (Hun id').
Qed.

(** ** New nodes and changed children *)

Lemma new_loc_fresh h : h !! new_loc h = None.
Proof.
  assert (∀ l, is_Some (h !! l) → (l < new_loc h)%positive) as Hlt.
  { unfold new_loc. apply (map_fold_weak_ind (λ r m, ∀ l, is_Some (m !! l) → (l < r)%positive)).
    - intros l [x Hx]. by rewrite lookup_empty in Hx.
    - intros l nd m r Hl IH k. destruct (decide (k = l)) as [->|].
      + intros _. lia.
      + rewrite lookup_insert_ne by done. intros Hk%IH. lia. }
  destruct (h !! new_loc h) as [nd|] eqn:E; [|done].
  pose proof (Hlt (new_loc h) (ex_intro _ nd E)). lia.
Qed.

Lemma child_ok_insert h l nd p name c :
  h !! l = None → child_ok h p name c → child_ok (<[l := nd]> h) p name c.
Proof.
  intros Hl (cn & Hc & ?). exists cn. split; [|done]. rewrite lookup_insert_ne; [done|congruence].
Qed.

Lemma tree_ok_alloc l nd v :
  v_nodes v !! l = None → default ∅ (n_Children nd) = ∅ → tree_ok v →
  tree_ok (v <| v_nodes := <[l := nd]> (v_nodes v) |>).
Proof.
  intros Hl Hch [Hc Hi]. split; simpl.
  - intros p pn ch name c. destruct (decide (p = l)) as [->|].
    + rewrite lookup_insert_eq. intros [= <-] Hs Hnm. rewrite Hs in Hch. simpl in Hch. subst ch.
      by rewrite lookup_empty in Hnm.
    + rewrite lookup_insert_ne by done. intros Hp Hs Hnm.
      apply child_ok_insert; [done|]. by eapply Hc.
  - intros id k Hk. destruct (Hi id k Hk) as (? & nd' & Hnd' & ?). split; [done|].
    exists nd'. split; [|done]. rewrite lookup_insert_ne; [done|congruence].
Qed.

(** An update of the children keeps the invariant when every child it lists was
    listed before or fits. *)
Lemma tree_ok_children p (g : option (gmap string loc) → option (gmap string loc)) v :
  (∀ pn ch' name c, v_nodes v !! p = Some pn → g (n_Children pn) = Some ch' → ch' !! name = Some c →
     (∃ ch, n_Children pn = Some ch ∧ ch !! name = Some c) ∨ child_ok (v_nodes v) p name c) →
  tree_ok v → tree_ok (with_node p (λ nd, nd <| n_Children := g (n_Children nd) |>) v).
Proof.
  intros Hg [Hc Hi]. set (f := λ nd : Node, nd <| n_Children := g (n_Children nd) |>).
  assert (∀ q name c, child_ok (v_nodes v) q name c →
            child_ok (v_nodes (with_node p f v)) q name c) as Hok.
  { intros q name c (cn & Hcn & ? & ?). unfold with_node, update_node. simpl.
    exists (if decide (c = p) then f cn else cn). destruct (decide (c = p)) as [->|].
    - by rewrite lookup_alter_eq, Hcn.
    - by rewrite lookup_alter_ne. }
  split.
  - intros q pn ch name c Hq Hs Hnm. apply Hok. revert Hq. unfold with_node, update_node. simpl.
    destruct (decide (q = p)) as [->|].
    + rewrite lookup_alter_eq. destruct (v_nodes v !! p) as [pn0|] eqn:Hp; [|done].
      intros [= <-]. destruct (Hg pn0 ch name c eq_refl Hs Hnm) as [(ch0 & ? & ?)|]; [|done].
      by eapply Hc.
    + rewrite lookup_alter_ne by done. intros Hq. by eapply Hc.
  - eapply index_ok_related; [|exact Hi]. by apply related_update.
Qed.

Lemma tree_ok_remove p name v :
  tree_ok v → tree_ok (v <| v_nodes := (RemoveChild p name (v_nodes v)).2 |>).
Proof.
  apply (tree_ok_children p (λ ch, delete name <$> ch)). intros pn ch' nm c _ Hs Hnm. left.
  destruct (n_Children pn) as [ch|]; simplify_eq/=. exists ch. split; [done|].
  by apply lookup_delete_Some in Hnm as [_ ?].
Qed.

(** The links a node may be given while no directory lists it. *)
Definition unlisted (h : heap) (l : loc) : Prop := ∀ p pn ch name,
  h !! p = Some pn → n_Children pn = Some ch → ch !! name ≠ Some l.

Lemma tree_ok_relink l f v :
  unlisted (v_nodes v) l → (∀ nd, n_ID (f nd) = n_ID nd ∧ n_Children (f nd) = n_Children nd) →
  tree_ok v → tree_ok (with_node l f v).
Proof.
  intros Hun Hf [Hc Hi]. split.
  - intros p pn ch name c. unfold with_node, update_node. simpl.
    intros Hp Hs Hnm.
    assert (∃ pn0, v_nodes v !! p = Some pn0 ∧ n_Children pn0 = n_Children pn) as (pn0 & Hp0 & Hch0).
    { destruct (decide (p = l)) as [->|].
      - rewrite lookup_alter_eq in Hp. destruct (v_nodes v !! l) as [nd|]; [|done].
        injection Hp as <-. exists nd. split; [done|]. symmetry. apply Hf.
      - rewrite lookup_alter_ne in Hp by done. by exists pn. }
    rewrite <- Hch0 in Hs.
    destruct (Hc p pn0 ch name c Hp0 Hs Hnm) as (cn & Hcn & ? & ?).
    exists cn. split; [|done]. rewrite lookup_alter_ne; [done|].
    intros ->. exact (Hun p pn0 ch name Hp0 Hs Hnm).
  - eapply index_ok_related; [|exact Hi]. apply related_update; [done|apply Hf].
Qed.

(** A child is listed once. *)
Lemma removed_unlisted p name c v :
  tree_ok v → GetChild p name (v_nodes v) = Some c →
  unlisted (RemoveChild p name (v_nodes v)).2 c.
Proof.
  intros [Hc _] Hg q qn ch nm Hq Hs Hnm. unfold RemoveChild, update_node in Hq. simpl in Hq.
  unfold GetChild, children_of in Hg. destruct (v_nodes v !! p) as [pn|] eqn:Hp; [|done]. simpl in Hg.
  destruct (n_Children pn) as [pch|] eqn:Hpch; [|done]. simpl in Hg.
  destruct (Hc p pn pch name c Hp Hpch Hg) as (cn & Hcn & Hn1 & Hp1).
  destruct (decide (q = p)) as [->|].
  - rewrite lookup_alter_eq, Hp in Hq. simpl in Hq. injection Hq as <-. simpl in Hs.
    rewrite Hpch in Hs. injection Hs as <-. apply lookup_delete_Some in Hnm as [Hne Hnm].
    destruct (Hc p pn pch nm c Hp Hpch Hnm) as (cn' & Hcn' & ? & _). congruence.
  - rewrite lookup_alter_ne in Hq by done.
    destruct (Hc q qn ch nm c Hq Hs Hnm) as (cn' & Hcn' & _ & ?). congruence.
Qed.

Lemma tree_ok_add p c cn v h :
  v_nodes v !! c = Some cn → n_Parent cn = Some p → AddChild p c (v_nodes v) = Some h →
  tree_ok v → tree_ok (v <| v_nodes := h |>).
Proof.
  unfold AddChild. intros Hc Hpar. rewrite Hc. destruct (v_nodes v !! p) as [pn|] eqn:Hp; [|done].
  intros [= <-] Hok.
  set (f := λ nd : Node, nd <| n_Children := Some (<[n_Name cn := c]> (default ∅ (n_Children nd))) |>).
  assert (tree_ok (with_node p f v)) as Hok'.
  { apply (tree_ok_children p (λ ch, Some (<[n_Name cn := c]> (default ∅ ch)))); [|done].
    intros pn' ch' nm c' Hp' [= <-]. destruct (decide (nm = n_Name cn)) as [->|].
    - rewrite lookup_insert_eq. intros [= <-]. right. by exists cn.
    - rewrite lookup_insert_ne by done. intros Hnm. left.
      destruct (n_Children pn') as [ch|]; simpl in Hnm; [by exists ch|].
      by rewrite lookup_empty in Hnm. }
  destruct Hok' as [Hc' Hi']. split.
  - eapply children_ok_related; [|exact Hc']. intros k. simpl. unfold with_node, update_node. simpl.
    destruct (decide (k = c)) as [->|].
    + rewrite lookup_alter_eq. destruct (decide (c = p)) as [->|].
      * rewrite lookup_alter_eq, Hp. simpl. rewrite Hp in Hc. injection Hc as ->.
        split; [done|]. split; [simpl; congruence|done].
      * rewrite lookup_alter_ne, Hc by done. simpl. split; [done|]. split; [simpl; congruence|done].
    + rewrite (lookup_alter_ne _ _ c) by done. by destruct (alter _ p _ !! k).
  - eapply index_ok_related; [|exact Hi']. intros k. simpl. unfold with_node, update_node. simpl.
    destruct (decide (k = c)) as [->|].
    + rewrite lookup_alter_eq. by destruct (alter _ p _ !! c).
    + rewrite (lookup_alter_ne _ _ c) by done. by destruct (alter _ p _ !! k).
Qed.

(** ** The operations on the world *)

Definition tok (w : World) : Prop := tree_ok (wd_vfs w).
Definition same_tree (v v' : VFS) : Prop :=
  v_nodes v' = v_nodes v ∧ v_nodesByID v' = v_nodesByID v.
Create HintDb tok discriminated.

Lemma tok_same w w' : same_tree (wd_vfs w) (wd_vfs w') → tok w → tok w'.
Proof. intros [??]. by apply tree_ok_same. Qed.
Lemma tok_call {T} (op : DB → result error T * DB) w : tok w → tok (call_db op w).
Proof. apply tok_same. by rewrite call_db_eq. Qed.
Lemma tok_run {T} (op : DB → result error T * DB) w : tok w → tok (run_db op w).2.
Proof. apply (tok_call op). Qed.
Lemma tok_node l f w : benign f → tok w → tok (on_node l f w).
Proof. apply tree_ok_update. Qed.
Lemma tok_track l w : tok w → tok (on_vfs (trackNode l) w).
Proof. apply tree_ok_track. Qed.
Lemma tok_untrack l w : tok w → tok (on_vfs (untrackNode l) w).
Proof. apply tree_ok_untrack. Qed.
Lemma tok_release hash id w : tok w → tok (release_blob hash id w).
Proof. by apply tok_same. Qed.
Lemma tok_online b w : tok w → tok (set_online b w).
Proof. by apply tok_same. Qed.
Lemma tok_upsert i w : tok w → tok (upsert_id i w).2.
Proof.
  intros Hw. unfold upsert_id. pose proof (tok_run (UpsertInode i) w Hw).
  by destruct (run_db _ w) as [[]].
Qed.
Lemma tok_remove p name w : tok w → tok (remove_child p name w).
Proof. apply tree_ok_remove. Qed.
#[local] Hint Resolve tok_call tok_run tok_node tok_track tok_untrack tok_release tok_online
  tok_upsert tok_remove : tok.
#[local] Hint Extern 1 (benign _) => (intros ?; by repeat split) : tok.

Lemma same_tree_upsert i w : same_tree (wd_vfs w) (wd_vfs (upsert_id i w).2).
Proof.
  unfold upsert_id. pose proof (call_db_eq (UpsertInode i) w) as Hc. unfold call_db in Hc.
  destruct (run_db _ w) as [[] w']; simpl in *; by rewrite Hc.
Qed.

Lemma tok_alloc nd w : default ∅ (n_Children nd) = ∅ → tok w → tok (alloc nd w).2.
Proof. intros Hch. apply tree_ok_alloc; [apply new_loc_fresh|done]. Qed.

Lemma alloc_lookup nd w : wd_nodes (alloc nd w).2 !! (alloc nd w).1 = Some nd.
Proof. exact (lookup_insert_eq _ _ _). Qed.

Lemma tok_add p c cn w :
  wd_nodes w !! c = Some cn → n_Parent cn = Some p → tok w → tok (add_child p c w).
Proof.
  intros Hc Hp Hok. unfold tok, add_child, on_vfs. simpl. change (v_nodes (wd_vfs w)) with (wd_nodes w).
  destruct (AddChild p c (wd_nodes w)) as [h|] eqn:E; [|done]. by eapply tree_ok_add.
Qed.

Lemma tok_set_child p name l nd w :
  wd_nodes w !! l = Some nd → n_Name nd = name → n_Parent nd = Some p → tok w →
  tok (set_child p name l w).
Proof.
  intros Hl <- Hp. apply (tree_ok_children p (λ ch, <[n_Name nd := l]> <$> ch)).
  intros pn ch' nm c _ Hs Hnm. destruct (n_Children pn) as [ch|]; [|done].
  injection Hs as <-. change (<[n_Name nd := l]> ch !! nm = Some c) in Hnm.
  destruct (decide (nm = n_Name nd)) as [->|].
  - rewrite lookup_insert_eq in Hnm. injection Hnm as <-. right. by exists nd.
  - rewrite lookup_insert_ne in Hnm by done. left. by exists ch.
Qed.

Lemma foldl_keeps {T} (P : World → Prop) (f : World → T → World) l w :
  (∀ w x, x ∈ l → P w → P (f w x)) → P w → P (foldl f w l).
Proof.
  revert w. induction l as [|x l IH]; intros w Hf Hw; [done|]. simpl. apply IH.
  - intros w' y Hy. apply Hf. by right.
  - apply Hf; [by left|done].
Qed.

Section keeps.
Context `{U : Unicode, BL : Blake2b, A : AEAD, X : X25519, K : MLKEM, HK : Hkdf, SH : Sha256, CS : ChunkSize}.
Variable m : Mount.

Lemma tok_refresh l entry w : tok w → tok (refresh_child m l entry w).
Proof.
  intros Hw. unfold refresh_child.
  destruct (_ && _); [by auto with tok|].
  destruct (negb _ && _); destruct (le_PlaintextSize entry), (modified_time m entry); auto 10 with tok.
Qed.

Lemma listed_node_links p name path entry w :
  let nd := listed_node m p name path entry w in
  n_Name nd = name ∧ n_Parent nd = Some p ∧ default ∅ (n_Children nd) = ∅.
Proof.
  unfold listed_node. destruct (inode_at_path path w) as [prior|];
    [destruct (i_Dirty prior)|]; repeat case_decide; done.
Qed.

Lemma tok_new_child p name path entry w : tok w → tok (new_child m p name path entry w).
Proof.
  intros Hw. unfold new_child. pose proof (tok_upsert
    (nodeToInode (listed_node m p name path entry w) (n_ID (node_at p w))) w Hw) as Hw1.
  destruct (upsert_id _ w) as [id w1]. simpl in Hw1.
  destruct (listed_node_links p name path entry w) as (Hn & Hp & Hch).
  set (nd := (listed_node m p name path entry w) <| n_ID := id |>).
  pose proof (tok_alloc nd w1 Hch Hw1) as Hw2. pose proof (alloc_lookup nd w1) as Hl.
  destruct (alloc nd w1) as [l w2]. apply tok_track. by eapply tok_set_child.
Qed.

Lemma tok_populate_entries p path seen entries w :
  tok w → tok (populate_entries m p path seen entries w).2.
Proof.
  revert seen w. induction entries as [|e es IH]; intros seen w Hw; [done|]. simpl.
  destruct (populate_entry m p path seen e w) as [seen' w'] eqn:E. apply IH.
  unfold populate_entry in E. repeat case_decide; simplify_eq/=; [done|].
  destruct (IsExcludedDir _); simplify_eq; [done|].
  destruct (GetChild _ _ _); [by apply tok_refresh|by apply tok_new_child].
Qed.

Lemma tok_prune p seen w : tok w → tok (prune_children p seen w).
Proof.
  intros Hw. unfold prune_children.
  match goal with |- tok (foldr _ ?w0 ?l) =>
    assert (tok w0) as Hw0; [|revert Hw0; generalize w0; induction l as [|x ls IH]] end.
  - apply (tree_ok_children p (λ ch, kept seen w <$> ch)); [|done].
    intros pn ch' nm c _ Hs Hnm. left. destruct (n_Children pn) as [ch|]; [|done].
    injection Hs as <-. exists ch. split; [done|].
    apply map_lookup_filter_Some in Hnm as [Hnm _]. exact Hnm.
  - done.
  - intros w1 Hw1. simpl. apply tok_untrack. by apply IH.
Qed.

(** A request leaves the tree alone: what other threads do to it are steps of
    their own. *)
Hypothesis Hquiet : ∀ command options w, same_tree (wd_vfs w) (wd_vfs (m_Execute m command options w).2).
Lemma Hexec command options w : tok w → tok (m_Execute m command options w).2.
Proof using Hquiet. apply tok_same, Hquiet. Qed.

Lemma tok_populateDir p w : tok w → tok (populateDir m p w).2.
Proof using Hquiet.
  intros Hw. unfold populateDir.
  match goal with |- context [m_Execute m "ls" ?o w] => pose proof (Hexec "ls" o w Hw) as Hw1;
    destruct (m_Execute m "ls" o w) as [[resp|err] w1] end; simpl in Hw1; [|by apply tok_online].
  destruct (negb (Success resp)); [by apply tok_online|].
  destruct (m_entries m (Raw resp)) as [entries|err]; [|by apply tok_online].
  pose proof (tok_populate_entries p (n_RemotePath (node_at p w)) ∅ entries
    (set_online true w1) (tok_online true w1 Hw1)) as Hw2.
  destruct (populate_entries m _ _ _ _ _) as [seen w2]. simpl in *.
  apply tok_node; [intros ?; by repeat split|]. by apply tok_prune.
Qed.

Lemma tok_ensure_loaded p w : tok w → tok (ensure_loaded m p w).2.
Proof using Hquiet. unfold ensure_loaded. destruct (n_Loaded _); [done|apply tok_populateDir]. Qed.

Lemma tok_request pre fl command options w : tok w → tok (request m pre fl command options w).2.
Proof using Hquiet.
  intros Hw. unfold request. pose proof (Hexec command options w Hw) as Hw1.
  destruct (m_Execute m command options w) as [[resp|err] w1]; [|done].
  by destruct (Success resp).
Qed.

Lemma tok_rm_request path w : tok w → tok (rm_request m path w).2.
Proof using Hquiet.
  intros Hw. unfold rm_request.
  pose proof (λ o, tok_request "rm API call" "rm failed" "rm" o w Hw) as H.
  match goal with |- context [request m _ _ _ ?o w] => specialize (H o);
    destruct (request m _ _ _ o w) as [[] w1] end; done.
Qed.

Lemma tok_read_only {T} w (k : result error T * World) : tok w → tok k.2 → tok (read_only w k).2.
Proof. unfold read_only. by destruct (v_readOnly _). Qed.

Lemma tok_Lookup p name w : tok w → tok (Lookup m p name w).2.
Proof using Hquiet.
  intros Hw. unfold Lookup. destruct (IsExcludedDir name); [done|].
  destruct (GetChild p name _); [done|]. pose proof (tok_ensure_loaded p w Hw).
  by destruct (ensure_loaded m p w) as [[] w1].
Qed.
Lemma tok_Readdir p w : tok w → tok (Readdir m p w).2.
Proof using Hquiet.
  intros Hw. unfold Readdir. destruct (negb _); [done|]. pose proof (tok_ensure_loaded p w Hw).
  by destruct (ensure_loaded m p w) as [[] w1].
Qed.

(** A new file or directory: its row, its node, its place in the tree. *)
Lemma tok_attach p nd w :
  n_Parent nd = Some p → default ∅ (n_Children nd) = ∅ → tok w →
  tok (attach_child p (alloc nd w).1 (alloc nd w).2).
Proof.
  intros Hp Hch Hw. apply tok_track. eapply tok_add; [apply alloc_lookup|done|]. by apply tok_alloc.
Qed.

Lemma tok_truncate l w : tok w → tok (truncate_existing l w).2.
Proof.
  intros Hw. unfold truncate_existing, Truncate.
  destruct (v_readOnly _); [done|]. destruct (v_nodes (wd_vfs w) !! l) as [nd|]; [|done].
  destruct (load_data _ _) as [d|]; [|done].
  match goal with |- context [match ?o with Some _ => _ | None => _ end] => destruct o end;
    apply tree_ok_update; (done || intros ?; by repeat split).
Qed.

Lemma tok_Create p name w : tok w → tok (Create p name w).2.
Proof.
  intros Hw. apply tok_read_only; [done|]. cbv zeta.
  destruct (negb _); [done|]. destruct (GetChild p name _) as [l|].
  - destruct (n_IsDir _); [done|by apply tok_truncate].
  - destruct (ValidateFile name 0) as [ok reason]. cbv zeta.
    match goal with |- context [run_db ?op w] => pose proof (tok_run op w Hw) as Hw1;
      destruct (run_db op w) as [[id|err] w1] end; simpl in Hw1; [|done].
    by apply tok_attach.
Qed.

Lemma tok_Mkdir p name w : tok w → tok (Mkdir m p name w).2.
Proof using Hquiet.
  intros Hw. apply tok_read_only; [done|]. cbv zeta.
  destruct (negb _); [done|]. destruct (ValidateDirName name) as [[] reason]; [|done]. cbv zeta.
  match goal with |- context [request m ?p ?f ?c ?o w] => pose proof (tok_request p f c o w Hw) as Hw1;
    destruct (request m p f c o w) as [[resp|err] w1] end; simpl in Hw1; [|done]. cbv zeta.
  match goal with |- context [run_db ?op w1] => pose proof (tok_run op w1 Hw1) as Hw2;
    destruct (run_db op w1) as [[id|err] w2] end; simpl in Hw2; [|done].
  by apply tok_attach.
Qed.

Lemma tok_Unlink p name w : tok w → tok (Unlink m p name w).2.
Proof using Hquiet.
  intros Hw. apply tok_read_only; [done|]. cbv zeta.
  destruct (GetChild p name _) as [l|]; [|done]. destruct (n_IsDir _); [done|].
  assert (tok (if is_uploaded (node_at l w) then rm_request m (n_RemotePath (node_at l w)) w
               else (Ok tt, w)).2) as Hw1 by (destruct (is_uploaded (node_at l w)); [by apply tok_rm_request|done]).
  cbv zeta. destruct (if is_uploaded (node_at l w) then _ else _) as [[[]|err] w1]; [|done].
  unfold forget_file. simpl in *. auto 10 with tok.
Qed.

Lemma tok_Rmdir p name w : tok w → tok (Rmdir m p name w).2.
Proof using Hquiet.
  intros Hw. apply tok_read_only; [done|]. cbv zeta.
  destruct (GetChild p name _) as [l|]; [|done]. destruct (negb _); [done|].
  pose proof (tok_ensure_loaded l w Hw) as Hw1.
  destruct (ensure_loaded m l w) as [[[]|err] w1]; [|done]. simpl in Hw1.
  case_decide; [done|]. pose proof (tok_rm_request (n_RemotePath (node_at l w1)) w1 Hw1) as Hw2.
  destruct (rm_request m _ w1) as [[[]|err] w2]; [|done]. simpl in *. auto 10 with tok.
Qed.

(** *** Renaming *)

Lemma same_tree_trans v1 v2 v3 : same_tree v1 v2 → same_tree v2 v3 → same_tree v1 v3.
Proof using Type. unfold same_tree. naive_solver congruence. Qed.

Lemma rekey_tok l path pid w :
  (∀ id', v_nodesByID (wd_vfs w) !! id' ≠ Some l) → tok w → tok (rekey l path pid w).2.
Proof using Type.
  intros Hun Hw. unfold rekey. set (w1 := call_db (DeleteInode path) w).
  assert (tok w1) as Hw1 by (by apply tok_call).
  pose proof (same_tree_upsert (nodeToInode (node_at l w1) pid) w1) as [_ Hix].
  pose proof (tok_upsert (nodeToInode (node_at l w1) pid) w1 Hw1) as Hw2.
  destruct (upsert_id _ w1) as [id w2]. simpl in *. apply tok_track. apply tree_ok_set_id; [|done].
  intros id'. rewrite Hix. unfold w1. rewrite call_db_eq. apply Hun.
Qed.

Lemma untracked_keep l f w id :
  v_nodesByID (wd_vfs (on_node l f w)) !! id = v_nodesByID (wd_vfs w) !! id.
Proof using Type. done. Qed.

Lemma node_update_lookup l f w : wd_nodes (on_node l f w) !! l = f <$> wd_nodes w !! l.
Proof using Type. exact (lookup_alter_eq _ _ _). Qed.
Lemma untrack_nodes l v : v_nodes (untrackNode l v) = v_nodes v.
Proof using Type. unfold untrackNode. destruct (v_nodes v !! l); [by case_decide|done]. Qed.

(** Taking a child out, renaming it and putting it elsewhere. *)
Lemma tok_move p c old q new path w :
  GetChild p old (wd_nodes w) = Some c → tok w →
  tok (move_node p c old q new path w) ∧
  (∀ id, v_nodesByID (wd_vfs (move_node p c old q new path w)) !! id ≠ Some c).
Proof using Type.
  intros Hg Hw. unfold move_node. pose proof (removed_unlisted p old c _ Hw Hg) as Hun.
  pose proof (tok_remove p old w Hw) as Hw1.
  set (w1 := remove_child p old w) in *. set (w2 := on_vfs (untrackNode c) w1).
  pose proof (untracked_after c (wd_vfs w1)) as Hix. specialize (λ id, Hix id Hw1).
  assert (wd_nodes w2 = wd_nodes w1) as Hn2.
  { apply untrack_nodes. }
  set (f := λ nd : Node, nd <| n_Name := new |> <| n_RemotePath := path |> <| n_Parent := Some q |>).
  assert (tok (on_node c f w2)) as Hw3.
  { apply tree_ok_relink; [|done|by apply tok_untrack].
    change (v_nodes (wd_vfs w2)) with (wd_nodes w2). rewrite Hn2. exact Hun. }
  split.
  - destruct (wd_nodes w2 !! c) as [cn|] eqn:Hc.
    + apply (tok_add q c (f cn)); [|done..]. by rewrite node_update_lookup, Hc.
    + pose proof (node_update_lookup c f w2) as Hno. rewrite Hc in Hno. revert Hno Hw3.
      generalize (on_node c f w2). intros w3 Hno Hw3. unfold tok, add_child, on_vfs, AddChild. simpl.
      change (v_nodes (wd_vfs w3)) with (wd_nodes w3). rewrite Hno. by destruct (wd_nodes w3 !! q).
  - intros id. unfold add_child, on_vfs. simpl. destruct (AddChild _ _ _); apply Hix.
Qed.

Lemma tok_rewriteSubtree fuel dir old new w : tok w → tok (rewriteSubtree m fuel dir old new w).
Proof using Type.
  revert dir old new w. induction fuel as [|fuel IH]; intros dir old new w Hw; [done|].
  simpl. apply foldl_keeps; [|done]. intros w1 c _ Hw1. cbv zeta.
  match goal with |- context [rekey c ?p ?i ?w'] => pose proof (rekey_tok c p i w') as Hr;
    destruct (rekey c p i w') as [id w2] end.
  assert (tok w2) as Hw2.
  { apply Hr; [|by auto with tok]. intros id'. by apply (untracked_after c (wd_vfs w1)). }
  destruct (n_IsDir _); [by apply IH|done].
Qed.

Lemma tok_renameLocal p c old q new path w :
  GetChild p old (wd_nodes w) = Some c → tok w →
  tok (renameLocalOnlyFile m p c old q new path w).
Proof using Type.
  intros Hg Hw. unfold renameLocalOnlyFile. destruct (tok_move p c old q new path w Hg Hw) as [Hw1 Hun].
  set (w1 := move_node p c old q new path w) in *. cbv zeta.
  match goal with |- context [rekey c ?pa ?i ?w'] => pose proof (rekey_tok c pa i w') as Hr;
    destruct (rekey c pa i w') as [id w2] end.
  apply tok_call. apply Hr; [|by apply tok_call]. intros id'. rewrite call_db_eq. apply Hun.
Qed.

Lemma tok_Rename p old q new w : tok w → tok (Rename m p old q new w).2.
Proof using Hquiet.
  intros Hw. apply tok_read_only; [done|]. cbv zeta. destruct (GetChild p old _) as [c|] eqn:Hg; [|done].
  cbv zeta. destruct (negb (IsSafeName _ _)); [done|]. destruct (negb (if _ : bool then _ else _)); [done|].
  destruct (_ && _); [by apply tok_renameLocal|].
  match goal with |- context [request m ?p ?f ?c ?o w] => pose proof (tok_request p f c o w Hw) as Hw1;
    assert (same_tree (wd_vfs w) (wd_vfs (request m p f c o w).2)) as [Hn _];
    [unfold request; pose proof (Hquiet c o w); destruct (m_Execute m c o w) as [[r|] ?]; [destruct (Success r)|]; done|];
    destruct (request m p f c o w) as [[resp|err] w1] end; cbn [snd] in *; [|done].
  assert (GetChild p old (wd_nodes w1) = Some c) as Hg1 by (unfold wd_nodes; by rewrite Hn).
  destruct (tok_move p c old q new (joinPath (n_RemotePath (node_at q w)) new) w1 Hg1 Hw1) as [Hw2 Hun].
  match goal with |- context [rekey c ?pa ?i ?w'] => pose proof (rekey_tok c pa i w' Hun Hw2) as Hr;
    destruct (rekey c pa i w') as [id w2] end. cbn [snd] in *.
  destruct (n_IsDir (node_at c w)); [by apply tok_rewriteSubtree|done].
Qed.

(** *** Rejected files *)

Lemma tok_remove_walk fuel status dir count w : tok w → tok (remove_walk m fuel status dir count w).2.
Proof using Type.
  revert dir count w. induction fuel as [|fuel IH]; intros dir count w Hw; [done|].
  simpl. destruct (negb _); [done|]. generalize (range_children m dir w). intros l. revert count w Hw.
  induction l as [|[name c] l IHl]; intros count w Hw; [done|]. simpl. case_decide.
  - apply IHl. apply tok_untrack. by apply tok_remove.
  - destruct (n_IsDir _); [|by apply IHl]. pose proof (IH c count w Hw) as Hw'.
    destruct (remove_walk m fuel status c count w) as [k w']. by apply IHl.
Qed.

Lemma tok_CleanRejected w : tok w → tok (CleanRejected m w).2.
Proof using Type.
  intros Hw. unfold CleanRejected. pose proof (tok_run DeleteRejected w Hw) as Hw1.
  destruct (run_db DeleteRejected w) as [[hashes|err] w1]; [|done]. simpl in Hw1.
  assert (tok (foldl (λ w h, release_blob h 0 w) w1 hashes)) as Hw2.
  { apply foldl_keeps; [|done]. intros ???. apply tok_release. }
  unfold removeFromTreeByStatus. cbv zeta.
  match goal with |- context [remove_walk m ?f ?s ?d ?c ?w] => pose proof (tok_remove_walk f s d c w Hw2) as H;
    by destruct (remove_walk m f s d c w) end.
Qed.

(** *** The content of files *)

Variable mk : string → string.
Variable un : string → option string.

Lemma same_tree_do_db {T} (op : DB → result error T * DB) v : same_tree v (do_db op v).
Proof using Type. by rewrite do_db_eq. Qed.
Lemma tree_ok_do_db {T} (op : DB → result error T * DB) v : tree_ok v → tree_ok (do_db op v).
Proof using Type. rewrite do_db_eq. by apply tree_ok_same. Qed.

Lemma tree_ok_Write l off data now v : tree_ok v → tree_ok (Write l off data now v).2.
Proof using Type.
  intros Hv. unfold Write. destruct (v_readOnly v); [done|]. destruct (v_nodes v !! l) as [nd|]; [|done].
  destruct (load_data _ _) as [d|]; [|done].
  destruct (go_slice _ _ _); apply tree_ok_update; (done || intros ?; by repeat split).
Qed.

Lemma tree_ok_Truncate l size now v : tree_ok v → tree_ok (Truncate l size now v).2.
Proof using Type.
  intros Hv. unfold Truncate. destruct (v_readOnly v); [done|]. destruct (v_nodes v !! l) as [nd|]; [|done].
  destruct (load_data _ _) as [d|]; [|done].
  match goal with |- context [match ?o with Some _ => _ | None => _ end] => destruct o end;
    apply tree_ok_update; (done || intros ?; by repeat split).
Qed.

Lemma tree_ok_Flush l env v : tree_ok v → tree_ok (Flush mk un l env v).2.
Proof using Type.
  intros Hv. unfold Flush. destruct (v_nodes v !! l) as [nd|]; [|done].
  destruct (n_Dirty nd), (n_Data nd) as [data|]; try done.
  destruct (Put _ _ _ _ _ _) as [[hash|err] s]; [|by apply (tree_ok_same v)].
  unfold flush_stored.
  set (v1 := with_node l _ _). assert (tree_ok v1) as Hv1.
  { apply tree_ok_update; [intros ?; by repeat split|by apply (tree_ok_same v)]. }
  set (v2 := do_db (MarkDirty (n_ID nd)) (do_db (MarkCached (n_ID nd) hash (Unix (fe_now env))) v1)).
  assert (tree_ok v2) as Hv2 by (by do 2 apply tree_ok_do_db).
  set (v3 := if decide (n_ContentHash nd ≠ hash) then _ else v2).
  assert (tree_ok v3) as Hv3 by (unfold v3; case_decide; [by apply (tree_ok_same v2)|done]).
  destruct (ValidateFile _ _) as [[] reason]; cbn [snd].
  - by apply tree_ok_do_db.
  - apply tree_ok_update; [intros ?; by repeat split|]. by apply tree_ok_do_db.
Qed.

Lemma tree_ok_Release l env v : tree_ok v → tree_ok (Release mk un l env v).2.
Proof using Type.
  intros Hv. unfold Release. destruct (v_nodes v !! l) as [nd|]; [|done]. cbv zeta.
  assert (tree_ok (with_node l (λ nd, nd <| n_OpenCount := n_OpenCount nd - 1 |>) v)).
  { apply tree_ok_update; [intros ?; by repeat split|done]. }
  case_decide; [by apply tree_ok_Flush|done].
Qed.

(** ** Reachable trees *)

(** Everything that happens to a mount: the operations a file system call
    makes, and steps of other components that leave the links of the tree
    alone (transfers, the clock, the local files, the database). *)
Inductive vfs_step : World → World → Prop :=
| step_Lookup p name w : vfs_step w (Lookup m p name w).2
| step_Readdir p w : vfs_step w (Readdir m p w).2
| step_Create p name w : vfs_step w (Create p name w).2
| step_Mkdir p name w : vfs_step w (Mkdir m p name w).2
| step_Unlink p name w : vfs_step w (Unlink m p name w).2
| step_Rmdir p name w : vfs_step w (Rmdir m p name w).2
| step_Rename p old q new w : vfs_step w (Rename m p old q new w).2
| step_CleanRejected w : vfs_step w (CleanRejected m w).2
| step_Write l off data now w : vfs_step w (w <| wd_vfs := (Write l off data now (wd_vfs w)).2 |>)
| step_Truncate l size now w : vfs_step w (w <| wd_vfs := (Truncate l size now (wd_vfs w)).2 |>)
| step_Flush l env w : vfs_step w (w <| wd_vfs := (Flush mk un l env (wd_vfs w)).2 |>)
| step_Release l env w : vfs_step w (w <| wd_vfs := (Release mk un l env (wd_vfs w)).2 |>)
| step_node l f w : benign f → vfs_step w (on_node l f w)
| step_other w w' : same_tree (wd_vfs w) (wd_vfs w') → vfs_step w w'.

Lemma tok_step w w' : vfs_step w w' → tok w → tok w'.
Proof using Hquiet.
  intros [] Hw.
  - by apply tok_Lookup.
  - by apply tok_Readdir.
  - by apply tok_Create.
  - by apply tok_Mkdir.
  - by apply tok_Unlink.
  - by apply tok_Rmdir.
  - by apply tok_Rename.
  - by apply tok_CleanRejected.
  - by apply tree_ok_Write.
  - by apply tree_ok_Truncate.
  - by apply tree_ok_Flush.
  - by apply tree_ok_Release.
  - by apply tok_node.
  - by eapply tok_same.
Qed.

Lemma tok_New remoteBase db store now : tree_ok (New remoteBase (m_Root m) db store now).
Proof using Type.
  split; simpl.
  - intros p pn ch name c Hp Hs Hnm. apply lookup_singleton_Some in Hp as [_ <-]. simpl in Hs.
    injection Hs as <-. by rewrite lookup_empty in Hnm.
  - intros id l Hl. by rewrite lookup_empty in Hl.
Qed.

(** *** What each operation does to the index *)

(** A node is found under its own identifier, if it has one. *)
Definition indexed (w : World) (l : loc) : Prop := ∀ nd,
  wd_nodes w !! l = Some nd → n_ID nd ≠ 0 → NodeByID (n_ID nd) (wd_vfs w) = Some l.
(** A node is found nowhere: in no directory and under no identifier. *)
Definition forgotten (w : World) (l : loc) : Prop :=
  unlisted (wd_nodes w) l ∧ ∀ id, NodeByID id (wd_vfs w) ≠ Some l.

Lemma indexed_track l w : indexed (on_vfs (trackNode l) w) l.
Proof using Type.
  intros nd. unfold wd_nodes, NodeByID, on_vfs. simpl. unfold trackNode.
  destruct (v_nodes (wd_vfs w) !! l) as [nd'|] eqn:Hw; [|simpl; rewrite Hw; done].
  destruct (decide (n_ID nd' = 0)) as [Hz|Hz]; simpl; rewrite Hw; intros [= <-] Hid; [done|].
  by rewrite lookup_insert_eq.
Qed.
Lemma indexed_same w w' l : same_tree (wd_vfs w) (wd_vfs w') → indexed w l → indexed w' l.
Proof using Type. intros [Hn Hi] Hx nd. unfold wd_nodes, NodeByID. rewrite Hn, Hi. apply Hx. Qed.

Lemma Create_indexed p name w l w' :
  GetChild p name (wd_nodes w) = None → Create p name w = (Ok l, w') → indexed w' l.
Proof using Type.
  intros Hg. unfold Create, read_only. destruct (v_readOnly _); [done|]. destruct (negb _); [done|]. rewrite Hg.
  destruct (ValidateFile name 0) as [ok reason]. cbv zeta. destruct (run_db _ w) as [[id|err] w1]; [|done].
  intros [= <- <-]. apply indexed_track.
Qed.
Lemma Mkdir_indexed p name w l w' : Mkdir m p name w = (Ok l, w') → indexed w' l.
Proof using Type.
  unfold Mkdir, read_only. destruct (v_readOnly _); [done|]. destruct (negb _); [done|].
  destruct (ValidateDirName name) as [[] reason]; [|done]. cbv zeta. destruct (request _ _ _ _ _ _) as [[resp|] w1]; [|done].
  cbv zeta. destruct (run_db _ w1) as [[id|err] w2]; [|done]. intros [= <- <-]. apply indexed_track.
Qed.

(** What a listing adds. *)
Lemma populate_entry_indexed p path seen e w l :
  let name := decryptName m (le_E2EEDisplayName e) in
  let w' := (populate_entry m p path seen e w).2 in
  GetChild p name (wd_nodes w) = None → GetChild p name (wd_nodes w') = Some l → indexed w' l.
Proof using Type.
  cbv zeta. intros Hg. unfold populate_entry. case_decide; [simpl; congruence|].
  destruct (IsExcludedDir _); [simpl; congruence|]. rewrite Hg. cbn [snd]. unfold new_child.
  destruct (upsert_id _ w) as [id w1]. set (nd := _ <| n_ID := id |>).
  destruct (alloc nd w1) as [k w2] eqn:Ha. unfold GetChild, children_of.
  assert (wd_nodes (on_vfs (trackNode k) (set_child p (decryptName m (le_E2EEDisplayName e)) k w2)) =
    update_node p (λ nd, nd <| n_Children := <[decryptName m (le_E2EEDisplayName e) := k]> <$> n_Children nd |>) (wd_nodes w2)) as ->.
  { unfold wd_nodes, on_vfs. simpl. unfold trackNode. destruct (v_nodes _ !! k); [by case_decide|done]. }
  unfold update_node. rewrite lookup_alter_eq. destruct (wd_nodes w2 !! p) as [pn|]; [|done]. simpl.
  destruct (n_Children pn) as [ch|]; simpl; [|done]. rewrite lookup_insert_eq. intros [= <-]. apply indexed_track.
Qed.

(** A renamed file is found under its new identifier. *)
Lemma Rename_indexed p old q new w c w' :
  GetChild p old (wd_nodes w) = Some c → n_IsDir (node_at c w) = false → Rename m p old q new w = (Ok tt, w') → indexed w' c.
Proof using Type.
  intros Hg Hd. unfold Rename, read_only. destruct (v_readOnly _); [done|]. rewrite Hg. cbv zeta. rewrite Hd.
  destruct (negb (IsSafeName _ _)); [done|]. destruct (negb (validNameRegex new)); [done|]. destruct (_ && _).
  - intros [= <-]. unfold renameLocalOnlyFile, rekey. cbv zeta.
    match goal with |- context [upsert_id ?i ?v] => destruct (upsert_id i v) as [id w2] end.
    apply (indexed_same (on_vfs (trackNode c) (set_id c id w2))); [|apply indexed_track].
    unfold enqueue_wb. by rewrite call_db_eq.
  - destruct (request _ _ _ _ _ _) as [[resp|] w1]; [|done]. unfold rekey.
    match goal with |- context [upsert_id ?i ?v] => destruct (upsert_id i v) as [id w2] end.
    intros [= <-]. apply indexed_track.
Qed.

Lemma same_tree_rm_request path w : same_tree (wd_vfs w) (wd_vfs (rm_request m path w).2).
Proof using Hquiet.
  unfold rm_request, request. match goal with |- context [m_Execute m ?c ?o w] => pose proof (Hquiet c o w) as H;
    destruct (m_Execute m c o w) as [[r|] w1] end; [destruct (Success r)|]; exact H.
Qed.

(** A child that is taken out of its directory and of the index is gone. *)
Lemma forgotten_after p name c w w' :
  tok w → GetChild p name (wd_nodes w) = Some c →
  wd_nodes w' = wd_nodes (remove_child p name w) →
  v_nodesByID (wd_vfs w') = v_nodesByID (wd_vfs (remove_child p name w)) → forgotten (on_vfs (untrackNode c) w') c.
Proof using Type.
  intros Hw Hg Hn Hi. assert (tree_ok (wd_vfs w')) as Hw'
    by (apply (tree_ok_same (wd_vfs (remove_child p name w))); [done|exact Hn|by apply tok_remove]). split.
  - unfold wd_nodes, on_vfs. simpl. rewrite untrack_nodes. change (v_nodes (wd_vfs w')) with (wd_nodes w'). rewrite Hn.
    exact (removed_unlisted p name c _ Hw Hg).
  - intros id. by apply untracked_after.
Qed.

Lemma Unlink_forgets p name w c w' :
  tok w → GetChild p name (wd_nodes w) = Some c → Unlink m p name w = (Ok tt, w') → forgotten w' c.
Proof using Hquiet.
  intros Hw Hg. unfold Unlink, read_only. destruct (v_readOnly _); [done|]. rewrite Hg. cbv zeta.
  destruct (n_IsDir _); [done|].
  assert (same_tree (wd_vfs w) (wd_vfs (if is_uploaded (node_at c w) then rm_request m (n_RemotePath (node_at c w)) w
    else (Ok tt, w)).2)) as [Hn Hi] by (destruct (is_uploaded _); [apply same_tree_rm_request|done]).
  destruct (if is_uploaded (node_at c w) then _ else _) as [[[]|err] w1]; [|done]. cbn [snd] in Hn, Hi.
  intros [= <-]. unfold forget_file. apply (forgotten_after p name c w1).
  - by apply (tok_same w).
  - unfold wd_nodes. by rewrite Hn.
  - by rewrite call_db_eq; unfold release_blob; rewrite call_db_eq.
  - by rewrite call_db_eq; unfold release_blob; rewrite call_db_eq.
Qed.

(** C8: The links of the mounted tree agree.  Starting from a new mount, after any
    sequence of listings, creations, deletions, renames (of files, of local files
    and of whole directories), removals of rejected files and content operations,
    whatever the server answers: every child a directory lists exists, carries
    the name it is listed under and points back to that directory (so it is listed
    once); the identifier index lists each node under its own, non-zero identifier
    only; a file or directory that is created, a child that a listing adds and a
    file that is renamed are found under their identifier; and a file that is
    deleted is afterwards found in no directory and under no identifier. *)
Theorem reachable_tree_ok remoteBase db store now w :
  rtc vfs_step (mkWorld (New remoteBase (m_Root m) db store now) ∅ now [] no_suppression) w →
  (∀ p pn ch name c, wd_nodes w !! p = Some pn → n_Children pn = Some ch → ch !! name = Some c →
     ∃ cn, wd_nodes w !! c = Some cn ∧ n_Name cn = name ∧ n_Parent cn = Some p) ∧
  (∀ id l, NodeByID id (wd_vfs w) = Some l →
     id ≠ 0 ∧ ∃ nd, wd_nodes w !! l = Some nd ∧ n_ID nd = id) ∧
  (∀ p name l w', GetChild p name (wd_nodes w) = None → Create p name w = (Ok l, w') → indexed w' l) ∧
  (∀ p name l w', Mkdir m p name w = (Ok l, w') → indexed w' l) ∧
  (∀ p path seen e l, let name := decryptName m (le_E2EEDisplayName e) in
     let w' := (populate_entry m p path seen e w).2 in
     GetChild p name (wd_nodes w) = None → GetChild p name (wd_nodes w') = Some l → indexed w' l) ∧
  (∀ p old q new c w', GetChild p old (wd_nodes w) = Some c → n_IsDir (node_at c w) = false →
     Rename m p old q new w = (Ok tt, w') → indexed w' c) ∧
  (∀ p name c w', GetChild p name (wd_nodes w) = Some c → Unlink m p name w = (Ok tt, w') → forgotten w' c).
Proof using Hquiet.
  intros Hr. assert (tok w) as Hw.
  { revert Hr. apply (rtc_ind_r (λ w, tok w)); [apply tok_New|]. intros w1 w2 _ Hs. by apply tok_step. }
  destruct Hw as [Hc Hi]. split; [exact Hc|]. split; [exact Hi|].
  split; [exact (λ p name l w', Create_indexed p name w l w')|].
  split; [exact (λ p name l w', Mkdir_indexed p name w l w')|].
  split; [exact (λ p path seen e l, populate_entry_indexed p path seen e w l)|].
  split; [exact (λ p old q new c w', Rename_indexed p old q new w c w')|].
  intros p name c w'. apply Unlink_forgets. by split.
Qed.
End keeps.

(** ** Witness *)

#[local] Existing Instance ex_chunk_size | 0.
#[local] Existing Instance ex_unicode.

Lemma reachable_tree_ok_witness :
  ∃ w, rtc (vfs_step ex_one ex_mk ex_un) (mkWorld (New "/" 1 empty_db ex_store0 7) ∅ 7 [] no_suppression) w ∧
    GetChild 1 "a.txt" (wd_nodes w) = Some 2%positive ∧
    (∃ nd, wd_nodes w !! 2%positive = Some nd ∧ n_Name nd = "a.txt" ∧ n_Parent nd = Some 1%positive) ∧
    ∃ w', Unlink ex_one 1 "a.txt" w = (Ok tt, w') ∧ forgotten w' 2.
Proof.
  set (w0 := mkWorld (New "/" 1 empty_db ex_store0 7) ∅ 7 [] no_suppression).
  exists (Create 1 "a.txt" w0).2.
  assert (rtc (vfs_step ex_one ex_mk ex_un) w0 (Create 1 "a.txt" w0).2) as Hr
    by (apply rtc_once; constructor).
  assert (GetChild 1 "a.txt" (wd_nodes (Create 1 "a.txt" w0).2) = Some 2%positive) as Hg
    by (vm_compute; reflexivity).
  split; [exact Hr|]. split; [exact Hg|].
  destruct (reachable_tree_ok ex_one ltac:(done) ex_mk ex_un "/" empty_db ex_store0 7 _ Hr) as (Hc & _ & _ & _ & _ & _ & Hun).
  split.
  2: { exists (Unlink ex_one 1 "a.txt" (Create 1 "a.txt" w0).2).2.
    assert ((Unlink ex_one 1 "a.txt" (Create 1 "a.txt" w0).2).1 = Ok tt) as Hok by (vm_compute; reflexivity).
    assert (Unlink ex_one 1 "a.txt" (Create 1 "a.txt" w0).2 =
      (Ok tt, (Unlink ex_one 1 "a.txt" (Create 1 "a.txt" w0).2).2)) as Heq
      by (rewrite <- Hok at 1; apply surjective_pairing).
    split; [exact Heq|]. exact (Hun 1%positive "a.txt" 2%positive _ Hg Heq). }
  unfold GetChild, children_of in Hg.
  destruct (wd_nodes (Create 1 "a.txt" w0).2 !! 1%positive) as [pn|] eqn:Hp; [|discriminate Hg].
  simpl in Hg. destruct (n_Children pn) as [ch|] eqn:Hch; [|discriminate Hg].
  exact (Hc 1%positive pn ch "a.txt" 2%positive Hp Hch Hg).
Defined.
