(* ===== verification/Upload.v ===== *)
(** * Uploading one file

    [internal/mount/syncer/writeback.go]: [processUpload] and the two helpers
    that stage its plaintext.  Which content is uploaded (the buffer of an open
    file, a blob of the store, the file in the sync folder), how it is
    encrypted, sealed and signed, and what the request carries. *)
From S2P Require Import Prelude GoLib GoFmt Table ApiErrors Crypto Hybrid Sign FileCrypt Names CacheDB CacheStore CacheEvict.
From S2P Require Import FileTypes LocalFs VfsNode VfsContent Writeback VfsTree.
Local Open Scope Z_scope.

(** The failures of a temporary file: creating it, the room left to write, and
    closing it. *)
Record temp_faults : Type := mkTempFaults {
  tf_create : option error; tf_room : nat; tf_close : option error }.

(** What an upload works with: the keys of the mount, the sync folder ([""] for
    a mount without one), the randomness, the failures of its temporary files,
    what happens elsewhere while it prepares, the scanner's key set, and the
    request. *)
Record Uploader : Type := mkUploader {
  up_PublicKey : option PublicKeySet; up_NameKey : option bytes;
  up_SigningPublicKey : option SigningPublicKeySet; up_SigningPrivateKey : option SigningPrivateKeySet;
  up_syncDir : string;
  up_dataKey : World → bytes; up_fileNonce : World → bytes;
  up_seal_rand : nat → World → bytes * bytes * bytes;   (** the [n]th seal of an upload *)
  up_plainTemp : World → temp_faults; up_encTemp : World → option error; up_encRoom : World → nat;
  up_meanwhile : World → World;
  up_FetchTeeEnclaveKeySet : World → option PublicKeySet * World;
  up_TeeScannerDisabledByServer : World → bool;
  up_TeeEnclaveKeyRefusal : World → option error;
  up_TeeSealWentStale : error → option PublicKeySet → World → bool * option error * World;
  up_meta_json : EncryptionMetadata → result error bytes;
  up_json_marshal : gmap string string → option string;
  up_unmarshal : string → option string;
  up_payload_etag : bytes → option string;
  up_Upload : bytes → string → gmap string string → World → result error (option Response) * World }.

(** [remotePath[:strings.LastIndex(remotePath, "/")]], [None] without a slash. *)
Definition before_last (c : ascii) (s : string) : option string :=
  match reverse (split_on c s) with
  | _ :: (_ :: _) as front => Some (join_with (String.String c "") (reverse front))
  | _ => None
  end.

(** What [os.Open] and the reads of a local file give. *)
Definition open_source (fs : LocalFs) (p : string) : result error source :=
  match os_Lstat fs p with
  | Ok (FsFile content _) => Ok (mkSource content None)
  | Ok (FsDir _) => Ok (mkSource [] (Some (ErrText "is a directory")))
  | Ok _ => Err (ErrText "open")
  | Err e => Err e
  end.

Section upload.
Context `{U : Unicode, BL : Blake2b, A : AEAD, X : X25519, K : MLKEM, HK : Hkdf, SH : Sha256, SS : Sha256Sum,
  HM : Hmac, E : Ed25519, M : MLDSA, CS : CacheStore.ChunkSize, FC : FileChunkSize}.
Variable u : Uploader.

(** [localPath] of the processor. *)
Definition upload_path (w : World) (remotePath : string) : option string :=
  LocalFs.localPath (wd_fs w) (up_syncDir u) (v_RemoteBase (wd_vfs w)) remotePath.

(** ** The plaintext *)

Definition writeTempPlaintext (f : temp_faults) (data : bytes) : result error bytes :=
  match tf_create f with
  | Some e => Err (ErrWrap "create temp file" e)
  | None =>
      if decide (length data ≤ tf_room f)%nat then
        match tf_close f with Some e => Err (ErrWrap "close temp file" e) | None => Ok data end
      else Err (ErrWrap "write temp file" (ErrText "short write"))
  end.

Definition streamStoreToTemp (f : temp_faults) (hash : string) (s : Store) : result error bytes :=
  match tf_create f with
  | Some e => Err (ErrWrap "create temp file" e)
  | None =>
      match WriteTo hash (tf_room f) s with
      | (_, Some e, _) => Err e
      | (_, None, data) =>
          match tf_close f with Some e => Err (ErrWrap "close temp file" e) | None => Ok data end
      end
  end.

(** The name and path of the entry's file, and the content the mount holds: the
    buffer of an edited file, else a blob's hash. *)
Record upload_file : Type := mkUploadFile {
  uf_name : string; uf_remotePath : string; uf_virtualBuf : option bytes; uf_contentHash : string }.

Definition file_of_node (w : World) (id : Z) : upload_file :=
  match NodeByID id (wd_vfs w) ≫= λ l, wd_nodes w !! l with
  | None => mkUploadFile "" "" None ""
  | Some nd =>
      let '(buf, hash) :=
        if decide (up_syncDir u = "") then
          match n_Data nd with
          | Some d => (Some d, "")
          | None => if decide (n_Cached nd = true ∧ n_ContentHash nd ≠ "") then (None, n_ContentHash nd) else (None, "")
          end
        else (None, "") in
      mkUploadFile (n_Name nd) (n_RemotePath nd) buf hash
  end.

(** The row completes what the node does not say. *)
Definition file_to_upload (w : World) (id : Z) : result error upload_file :=
  let f := file_of_node w id in
  match uf_virtualBuf f with
  | Some _ => Ok f
  | None =>
      if decide (uf_contentHash f ≠ "") then Ok f
      else match GetInode id (wd_db w) with
           | Ok inode =>
               Ok (mkUploadFile (if decide (uf_name f = "") then i_DisplayName inode else uf_name f)
                     (if decide (uf_remotePath f = "") then i_RemotePath inode else uf_remotePath f)
                     None (i_ContentHash inode))
           | Err _ => Err (ErrText ("inode " +:+ fmt_d id +:+ " not found"))
           end
  end.

(** Where the plaintext is read from. *)
Inductive plaintext : Type :=
| Staged (data : bytes)      (** a temporary copy *)
| LiveFile (path : string).   (** the file of the sync folder itself *)

Definition plaintext_of (f : upload_file) (w : World) : result error plaintext :=
  match uf_virtualBuf f with
  | Some buf => data ← writeTempPlaintext (up_plainTemp u w) buf; Ok (Staged data)
  | None =>
      let staged :=
        if decide (uf_contentHash f ≠ "") then
          match streamStoreToTemp (up_plainTemp u w) (uf_contentHash f) (v_Store (wd_vfs w)) with
          | Ok data => Ok (Some data)
          | Err e => if decide (up_syncDir u = "") then Err (ErrWrap "read cache" e) else Ok None
          end
        else Ok None in
      staged ← staged;
      match staged with
      | Some data => Ok (Staged data)
      | None =>
          match upload_path w (uf_remotePath f) with
          | Some lp =>
              match os_Lstat (wd_fs w) lp with
              | Ok _ => Ok (LiveFile lp)
              | Err _ => Err (ErrText "no content to upload")
              end
          | None => Err (ErrText "no content to upload")
          end
      end
  end.

(** ** Encryption and signatures *)

(** The encrypted file, its metadata and the options that describe it. *)
Definition encrypt_upload (f : upload_file) (src : plaintext) (w : World)
    : result error (bytes * EncryptionMetadata * gmap string string * bytes) :=
  let dataKey := up_dataKey u w in
  match up_encTemp u w with
  | Some e => Err (ErrWrap "create encrypted temp file" e)
  | None =>
      input ← match src with
              | Staged data => Ok (Ok (mkSource data None))
              | LiveFile path =>
                  if safeSyncPath (wd_fs w) (up_syncDir u) path then Ok (open_source (wd_fs w) path)
                  else Err (Permanent (ErrText "upload path changed before encryption"))
              end;
      let '(enc, encFile) := EncryptFile input None (up_encRoom u w) dataKey (up_fileNonce u w) in
      match enc with
      | Err e => Err (ErrWrap "encrypt" e)
      | Ok encMeta =>
          let '(eph, kem, nonce) := up_seal_rand u 0 w in
          match SealDataKey dataKey (up_PublicKey u) eph kem nonce with
          | Err e => Err (ErrWrap "seal data key" e)
          | Ok sealedKey =>
              match up_meta_json u (WireJSON encMeta) with
              | Err e => Err (ErrWrap "marshal encryption meta" e)
              | Ok metaJSON =>
                  match up_SigningPublicKey u, up_SigningPrivateKey u with
                  | Some signPub, Some signPriv =>
                      match SignFileBytes (Ok encFile) (Some signPriv) with
                      | Err e => Err (ErrWrap "sign upload" e)
                      | Ok (sigEd, sigMldsa) =>
                          let options : gmap string string :=
                            <["sealed_key" := base64_encode sealedKey]>
                            (<["encryption_meta" := base64_encode metaJSON]>
                            (<["_original_name" := uf_name f]>
                            (<["signature_ed25519" := base64_encode sigEd]>
                            (<["signature_mldsa" := base64_encode sigMldsa]>
                            (<["signing_pk_ed25519" := base64_encode (spk_Ed25519 signPub)]>
                            {["signing_pk_mldsa" := base64_encode (spk_Mldsa signPub)]}))))) in
                          Ok (encFile, encMeta, options, dataKey)
                      end
                  | _, _ => Err (ErrText "signing keys unavailable; unlock with 'pc uk' and restart the mount")
                  end
              end
          end
      end
  end.

(** ** The scanner's copy of the key, and the names *)

Definition tee_options (teeKeys : option PublicKeySet) (dataKey : bytes) (options : gmap string string) (w : World)
    : result error (gmap string string) :=
  match teeKeys with
  | None =>
      if up_TeeScannerDisabledByServer u w then Ok options
      else match up_TeeEnclaveKeyRefusal u w with
           | Some refusal => Err (ErrWrap "TEE enclave key refused" refusal)
           | None => Err (ErrText "TEE enclave key unavailable; scanner cannot decrypt the upload")
           end
  | Some _ =>
      let '(eph, kem, nonce) := up_seal_rand u 1 w in
      match SealDataKey dataKey teeKeys eph kem nonce with
      | Err e => Err (ErrWrap "seal data key to enclave" e)
      | Ok teeSealed => Ok (<["tee_sealed_key" := base64_encode teeSealed]> options)
      end
  end.

(** An option whose value could be computed. *)
Definition set_ok {T} (key : string) (text : T → string) (r : result error T) (options : gmap string string)
    : gmap string string :=
  match r with Ok v => <[key := text v]> options | Err _ => options end.

Definition name_options (f : upload_file) (encMeta : EncryptionMetadata) (options : gmap string string) (w : World)
    : gmap string string :=
  let options :=
    match up_NameKey u with
    | Some nameKey => set_ok "plaintext_hmac" id (ComputePlaintextHmac (PlaintextSHA256 encMeta) nameKey) options
    | None => options
    end in
  let '(eph, kem, nonce) := up_seal_rand u 2 w in
  let options := set_ok "e2ee_display_name" base64_encode
    (SealDisplayName (String.list_byte_of_string (uf_name f)) (up_PublicKey u) eph kem nonce) options in
  let options := set_ok "e2ee_path_token" hex_encode
    (ComputePathToken (default [] (up_NameKey u)) (uf_remotePath f)) options in
  Writeback.addPathTokens (up_json_marshal u) (up_NameKey u) options (uf_remotePath f).

(** ** The request *)

Definition upload_failed (err : error) (teeKeys : option PublicKeySet) (w : World)
    : result error uploadedContent * World :=
  match teeKeys with
  | None => (Err (classifyUploadError err), w)
  | Some _ =>
      let '(stale, refusal, w) := up_TeeSealWentStale u err teeKeys w in
      match refusal with
      | Some e => (Err (ErrWrap "TEE enclave key refused" e), w)
      | None =>
          if (stale : bool) then (Err (ErrJoin (ErrSentinel ErrTeeSealStale) (classifyUploadError err)), w)
          else (Err (classifyUploadError err), w)
      end
  end.

Definition send_upload (entry : WritebackEntry) (f : upload_file) (teeKeys : option PublicKeySet) (encFile : bytes)
    (encMeta : EncryptionMetadata) (options : gmap string string) (w : World)
    : result error uploadedContent * World :=
  match uploadIdentityKey (default [] (up_NameKey u)) (UploadKeyFromExtra (up_unmarshal u) (w_ExtraJSON entry))
          (uf_remotePath f) (PlaintextSHA256 encMeta) with
  | Err e => (Err (Permanent e), w)
  | Ok identity =>
      let options := <["upload_idempotency_key" := identity]> options in
      let uploadDir := match before_last slash (uf_remotePath f) with Some d => "/" +:+ d | None => "/" end in
      let '(resp, w) := up_Upload u encFile uploadDir options w in
      match resp with
      | Err err => upload_failed err teeKeys w
      | Ok resp =>
          match resp with
          | Some r =>
              if Success r then (Ok (confirmedUploadContent (up_payload_etag u) (Some r) (PlaintextSHA256 encMeta)), w)
              else (Err (ErrText ("upload rejected: " +:+ (if decide (Message r ≠ "") then Message r else "unknown error"))), w)
          | None => (Err (ErrText "upload rejected: unknown error"), w)
          end
      end
  end.

Definition processUpload (entry : WritebackEntry) (w : World) : result error uploadedContent * World :=
  if decide (up_syncDir u ≠ "" ∧ upload_path w (w_RemotePath entry) = None) then
    (Err (Permanent (ErrText "upload path leaves the selected sync folder through a link")), w)
  else match file_to_upload w (w_InodeID entry) with
  | Err e => (Err e, w)
  | Ok f =>
      match plaintext_of f w with
      | Err e => (Err e, w)
      | Ok src =>
          let w := up_meanwhile u w in
          match encrypt_upload f src w with
          | Err e => (Err e, w)
          | Ok (encFile, encMeta, options, dataKey) =>
              let '(teeKeys, w) := up_FetchTeeEnclaveKeySet u w in
              match tee_options teeKeys dataKey options w with
              | Err e => (Err e, w)
              | Ok options => send_upload entry f teeKeys encFile encMeta (name_options f encMeta options w) w
              end
          end
      end
  end.

(** ** What arrives *)

(** The content the entry stands for: the buffer of an edited file, else the
    blob the node or the row names, else the file of the sync folder once it is
    read. *)
Inductive uploads (w : World) (id : Z) : bytes → Prop :=
| uploads_buffer l nd d :
    up_syncDir u = "" → NodeByID id (wd_vfs w) = Some l → wd_nodes w !! l = Some nd → n_Data nd = Some d →
    uploads w id d
| uploads_blob f hash data :
    file_to_upload w id = Ok f → uf_contentHash f = hash → hash ≠ "" → Get hash (v_Store (wd_vfs w)) = Ok data →
    uploads w id data
| uploads_local f path content info :
    file_to_upload w id = Ok f → upload_path w (uf_remotePath f) = Some path →
    safeSyncPath (wd_fs (up_meanwhile u w)) (up_syncDir u) path = true →
    os_Lstat (wd_fs (up_meanwhile u w)) path = Ok (FsFile content info) → uploads w id content.

(** An option holds a data key sealed for [priv]. *)
Definition seals_key (options : gmap string string) (name : string) (priv : PrivateKeySet) (key : bytes) : Prop :=
  ∃ sealed, options !! name = Some (base64_encode sealed) ∧ UnsealDataKey sealed (Some priv) = Ok key.

(** The request can be read by its owner: the sealed key opens, the metadata are
    there, and with them the body decrypts to [data]. *)
Definition opens_for (priv : PrivateKeySet) (key : bytes) (options : gmap string string) (body data : bytes) : Prop :=
  seals_key options "sealed_key" priv key ∧
  ∃ meta json, up_meta_json u meta = Ok json ∧ options !! "encryption_meta" = Some (base64_encode json) ∧
    decryptReader body key meta = Ok data.

(** The request carries the signatures of its body under [pub]. *)
Definition signed_by (pub : SigningPublicKeySet) (options : gmap string string) (body : bytes) : Prop :=
  options !! "signing_pk_ed25519" = Some (base64_encode (spk_Ed25519 pub)) ∧
  options !! "signing_pk_mldsa" = Some (base64_encode (spk_Mldsa pub)) ∧
  ∃ sigEd sigMl, options !! "signature_ed25519" = Some (base64_encode sigEd) ∧
    options !! "signature_mldsa" = Some (base64_encode sigMl) ∧
    VerifyFileSignatures (Ok body) sigEd sigMl (Some pub) = Ok tt.

(** The options a request is built from and the later steps leave alone. *)
Definition body_options : list string :=
  ["sealed_key"; "encryption_meta"; "signature_ed25519"; "signature_mldsa"; "signing_pk_ed25519";
   "signing_pk_mldsa"; "tee_sealed_key"].

Lemma set_ok_ne {T} k key (text : T → string) r options :
  k ≠ key → set_ok key text r options !! k = options !! k.
Proof using Type. intros Hk. destruct r; simpl; [by rewrite lookup_insert_ne by congruence|done]. Qed.

Lemma addPathTokens_ne jm nk options p k :
  k ≠ "path_tokens" → k ≠ "path_tokens_legacy" →
  Writeback.addPathTokens jm nk options p !! k = options !! k.
Proof using Type.
  intros H1 H2. unfold Writeback.addPathTokens, AddPathTokenOptions. destruct nk as [key|]; [|done].
  case_decide; [done|]. destruct (PathTokenOptionJSON _ _ _) as [c l].
  do 2 case_decide; by rewrite ?lookup_insert_ne by congruence.
Qed.

Lemma name_options_ne f encMeta options w k :
  k ∈ body_options → name_options f encMeta options w !! k = options !! k.
Proof using Type.
  intros Hk. unfold name_options. destruct (up_seal_rand u 2 w) as [[eph kem] nonce]. cbv zeta.
  assert (k ≠ "plaintext_hmac" ∧ k ≠ "e2ee_display_name" ∧ k ≠ "e2ee_path_token" ∧ k ≠ "path_tokens" ∧
    k ≠ "path_tokens_legacy") as (?&?&?&?&?).
  { unfold body_options in Hk. rewrite !elem_of_cons, elem_of_nil in Hk. naive_solver. }
  rewrite addPathTokens_ne, !set_ok_ne by done. destruct (up_NameKey u); [by rewrite set_ok_ne|done].
Qed.

Lemma plaintext_of_uploads w id f src :
  file_to_upload w id = Ok f → plaintext_of f w = Ok src →
  match src with
  | Staged data => uploads w id data
  | LiveFile path => upload_path w (uf_remotePath f) = Some path
  end.
Proof using Type.
  intros Hf. unfold plaintext_of. destruct (uf_virtualBuf f) as [buf|] eqn:Hb.
  - intros (d & Hd & [= <-])%bind_Ok_inv. unfold writeTempPlaintext in Hd.
    destruct (tf_create _); [done|]. case_decide; [|done]. destruct (tf_close _); [done|].
    injection Hd as <-. unfold file_to_upload in Hf. destruct (uf_virtualBuf (file_of_node w id)) as [b|] eqn:Ebuf.
    + injection Hf as <-. unfold file_of_node in Ebuf, Hb. rewrite Ebuf in Hb. injection Hb as ->.
      destruct (NodeByID id (wd_vfs w)) as [l|] eqn:Hl; [|done]. simpl in Ebuf.
      destruct (wd_nodes w !! l) as [nd|] eqn:Hn; [|done].
      destruct (decide (up_syncDir u = "")); [|done]. destruct (n_Data nd) eqn:Hd; [|by case_decide].
      injection Ebuf as ->. by eapply uploads_buffer.
    + case_decide; [injection Hf as <-; congruence|]. destruct (GetInode _ _); [|done].
      by injection Hf as <-.
  - intros (staged & Hs & H)%bind_Ok_inv. destruct staged as [data|].
    + injection H as <-. case_decide as Hne; [|done].
      destruct (streamStoreToTemp _ _ _) as [d|e] eqn:Hst; [|by case_decide]. injection Hs as ->.
      unfold streamStoreToTemp in Hst. destruct (tf_create _); [done|].
      destruct (WriteTo _ _ _) as [[n [e|]] d] eqn:Hw; [done|]. destruct (tf_close _); [done|].
      injection Hst as ->. apply WriteTo_inv in Hw. by eapply uploads_blob.
    + destruct (upload_path w _) as [lp|]; [|done]. destruct (os_Lstat _ lp); [|done]. by injection H as <-.
Qed.
End upload.

Section delivery.
Context `{U : Unicode, BL : Blake2b, A : AEAD, AL : !AEADLaws A, X : X25519, XL : !X25519Laws X, K : MLKEM, KL : !MLKEMLaws K,
  HK : Hkdf, HL : !HkdfLaws HK, SH : Sha256, SS : Sha256Sum, SSL : !Sha256SumLaws SH SS, HM : Hmac, HML : !HmacLaws HM,
  E : Ed25519, EL : !Ed25519Laws E, M : MLDSA, ML : !MLDSALaws M, CS : CacheStore.ChunkSize, FC : FileChunkSize}.
Variable u : Uploader.

(** The randomness has the sizes the primitives ask for. *)
Record fresh_randomness : Prop := {
  fr_key w : length (up_dataKey u w) = KeySize;
  fr_nonce w : length (up_fileNonce u w) = NonceSize;
  fr_seal n w : length (up_seal_rand u n w).1.1 = 32%nat ∧ length (up_seal_rand u n w).2 = NonceSize }.

Lemma SealDataKey_opens key pub priv n w :
  fresh_randomness → keys_ok pub priv →
  ∃ sealed, (let '(eph, kem, nonce) := up_seal_rand u n w in SealDataKey key (Some pub) eph kem nonce) = Ok sealed ∧
    UnsealDataKey sealed (Some priv) = Ok key.
Proof.
  intros [_ _ Hr] Hk. destruct (Hr n w) as [He Hn]. destruct (up_seal_rand u n w) as [[eph kem] nonce].
  destruct (HybridUnseal_ok key pub priv eph kem nonce Hk He Hn) as (sealed & Hs & _ & Hu).
  exists sealed. unfold SealDataKey, UnsealDataKey. by rewrite Hs, Hu.
Qed.

(** What is encrypted: the staged copy, or what the file of the sync folder holds
    when it is read. *)
Definition reads (w : World) (src : plaintext) (data : bytes) : Prop :=
  match src with
  | Staged d => data = d
  | LiveFile path => safeSyncPath (wd_fs w) (up_syncDir u) path = true ∧
      ∃ info, os_Lstat (wd_fs w) path = Ok (FsFile data info)
  end.

Definition keyed_for (pub : PublicKeySet) (priv : PrivateKeySet) (spub : SigningPublicKeySet) : Prop :=
  fresh_randomness ∧ up_PublicKey u = Some pub ∧ keys_ok pub priv ∧
  up_SigningPublicKey u = Some spub ∧ ∃ spriv, up_SigningPrivateKey u = Some spriv ∧ generated_keys spub spriv.

Lemma encrypt_upload_spec f src w enc encMeta options key pub priv spub :
  keyed_for pub priv spub → encrypt_upload u f src w = Ok (enc, encMeta, options, key) →
  ∃ data, reads w src data ∧ PlaintextSHA256 encMeta = sha256_hex data ∧
    opens_for u priv key options enc data ∧ signed_by spub options enc ∧ (length enc ≤ up_encRoom u w)%nat.
Proof.
  intros (Hr & Hpub & Hkeys & Hspub & spriv & Hspriv & Hg). unfold encrypt_upload.
  destruct (up_encTemp u w); [done|]. intros (input & Hin & H)%bind_Ok_inv.
  pose proof (EncryptFile_fits input None (up_encRoom u w) (up_dataKey u w) (up_fileNonce u w)) as Hfits.
  destruct (EncryptFile _ _ _ _ _) as [[m|e] out] eqn:Henc; [|done].
  destruct (EncryptFile_decrypts _ _ _ _ _ _ _ (fr_key Hr w) (fr_nonce Hr w) Henc) as (r & -> & Hre & Hdec & _ & _ & Hsha).
  destruct (SealDataKey_opens (up_dataKey u w) pub priv 0 w Hr Hkeys) as (sealed & Hs & Hu).
  rewrite Hpub in H. destruct (up_seal_rand u 0 w) as [[eph kem] nonce]. rewrite Hs in H.
  destruct (up_meta_json u (WireJSON m)) as [json|] eqn:Hj; [|done]. rewrite Hspub, Hspriv in H.
  destruct (SignFileBytes_verifies out spub spriv Hg) as (sigEd & sigMl & Hsig & Hv). rewrite Hsig in H.
  injection H as <- <- <- <-. exists (remaining r). split; [|split; [done|split]].
  - destruct src as [d|path]; simpl in Hin; [by injection Hin as <-|].
    destruct (safeSyncPath _ _ _) eqn:Hsafe; [|done]. injection Hin as Hop. split; [done|].
    unfold open_source in Hop. destruct (os_Lstat _ _) as [[c i| | |]|]; try done;
      injection Hop as <-; [by exists i|done].
  - split; [by exists sealed|]. by exists (WireJSON m), json.
  - split; [|exact Hfits]. split_and!; [done..|]. by exists sigEd, sigMl.
Qed.

(** The token of the path is among the options. *)
Lemma name_options_token f encMeta options w nk token :
  up_NameKey u = Some nk → ComputePathToken nk (uf_remotePath f) = Ok token →
  name_options u f encMeta options w !! "e2ee_path_token" = Some (hex_encode token).
Proof.
  intros Hnk Ht. unfold name_options. destruct (up_seal_rand u 2 w) as [[eph kem] nonce]. cbv zeta.
  rewrite addPathTokens_ne by done. rewrite Hnk. cbn [default from_option id]. rewrite Ht. simpl.
  by rewrite lookup_insert_eq.
Qed.

Lemma uploads_of_reads w id f src data :
  file_to_upload u w id = Ok f → plaintext_of u f w = Ok src → reads (up_meanwhile u w) src data →
  uploads u w id data.
Proof.
  intros Hf Hp Hr. pose proof (plaintext_of_uploads u w id f src Hf Hp) as Hu.
  destruct src as [d|path]; [by rewrite Hr|]. destruct Hr as (Hs & info & Hl). by eapply uploads_local.
Qed.

(** The step of the enclave: it adds the key sealed for it and nothing else. *)
Lemma tee_options_spec teeKeys key options options' w :
  fresh_randomness → tee_options u teeKeys key options w = Ok options' →
  (∀ k, k ≠ "tee_sealed_key" → options' !! k = options !! k) ∧
  (∀ tpub tpriv, teeKeys = Some tpub → keys_ok tpub tpriv → seals_key options' "tee_sealed_key" tpriv key).
Proof.
  intros Hr. unfold tee_options. destruct teeKeys as [tk|].
  - destruct (up_seal_rand u 1 w) as [[eph kem] nonce] eqn:Hrand.
    destruct (SealDataKey _ _ _ _ _) as [sealed|] eqn:Hs; [|done]. intros [= <-]. split.
    + intros k Hk. by rewrite lookup_insert_ne by congruence.
    + intros tpub tpriv [= <-] Hk. destruct (SealDataKey_opens key tk tpriv 1 w Hr Hk) as (s & Hs' & Hu).
      rewrite Hrand, Hs in Hs'. injection Hs' as <-. exists sealed. by rewrite lookup_insert_eq.
  - destruct (up_TeeScannerDisabledByServer u w); [|by destruct (up_TeeEnclaveKeyRefusal u w)].
    intros [= <-]. done.
Qed.

Lemma send_upload_Ok entry f teeKeys enc encMeta options w content w' :
  send_upload u entry f teeKeys enc encMeta options w = (Ok content, w') →
  ∃ dir identity resp, up_Upload u enc dir (<["upload_idempotency_key" := identity]> options) w = (Ok (Some resp), w') ∧
    Success resp = true ∧ content = confirmedUploadContent (up_payload_etag u) (Some resp) (PlaintextSHA256 encMeta).
Proof.
  unfold send_upload. destruct (uploadIdentityKey _ _ _ _) as [identity|]; [|done]. cbv zeta.
  set (dir := match before_last slash (uf_remotePath f) with Some d => _ | None => _ end).
  destruct (up_Upload u enc dir _ w) as [[[r|]|err] w2] eqn:Hup; [| |].
  - destruct (Success r) eqn:Hs; [|done]. intros [= <- <-]. by exists dir, identity, r.
  - done.
  - unfold upload_failed. destruct teeKeys; [|done]. destruct (up_TeeSealWentStale _ _ _ _) as [[stale [e|]] w3]; [done|].
    by destruct stale.
Qed.

Lemma opens_for_options priv key options options' enc data :
  (∀ k, k ∈ body_options → k ≠ "tee_sealed_key" → options' !! k = options !! k) →
  opens_for u priv key options enc data → opens_for u priv key options' enc data.
Proof.
  intros Hk ((sealed & Hl & Hu) & meta & json & Hj & Hm & Hd). split.
  - exists sealed. by rewrite Hk by set_solver.
  - exists meta, json. by rewrite Hk by set_solver.
Qed.
Lemma signed_by_options pub options options' enc :
  (∀ k, k ∈ body_options → k ≠ "tee_sealed_key" → options' !! k = options !! k) →
  signed_by pub options enc → signed_by pub options' enc.
Proof.
  intros Hk (He & Hml & sigEd & sigMl & H3 & H4 & Hv).
  split_and!; [by rewrite Hk by set_solver..|]. exists sigEd, sigMl. by rewrite !Hk by set_solver.
Qed.

(** What the writeback processor uploads is what the mount holds, and the
    other side can use it.  When [processUpload] succeeds, it made one accepted
    request whose body decrypts, with the key the request carries sealed for the
    owner and with the metadata it carries, to the content the entry stands for:
    the buffer of the edited file, else the blob the node or its row names, else
    the file of the sync folder.  The request carries signatures of the body that
    verify under the account's signing keys; the same data key sealed for the
    scanner's enclave when its keys were fetched; the token of the file's path;
    and the digest recorded as confirmed is that of this content. *)
Theorem processUpload_delivers entry w content w' pub priv spub :
  keyed_for pub priv spub → processUpload u entry w = (Ok content, w') →
  ∃ data key body dir options w2 resp,
    uploads u w (w_InodeID entry) data ∧
    up_Upload u body dir options w2 = (Ok (Some resp), w') ∧ Success resp = true ∧
    opens_for u priv key options body data ∧ signed_by spub options body ∧
    (∀ tpub tpriv, (up_FetchTeeEnclaveKeySet u (up_meanwhile u w)).1 = Some tpub → keys_ok tpub tpriv →
       seals_key options "tee_sealed_key" tpriv key) ∧
    content = confirmedUploadContent (up_payload_etag u) (Some resp) (sha256_hex data) ∧
    (length body ≤ up_encRoom u (up_meanwhile u w))%nat ∧
    (∀ f nk token, file_to_upload u w (w_InodeID entry) = Ok f → up_NameKey u = Some nk →
       ComputePathToken nk (uf_remotePath f) = Ok token → options !! "e2ee_path_token" = Some (hex_encode token)).
Proof.
  intros Hk. pose proof (proj1 Hk) as Hr. unfold processUpload. case_decide; [done|].
  destruct (file_to_upload u w _) as [f|] eqn:Hf; [|done].
  destruct (plaintext_of u f w) as [src|] eqn:Hsrc; [|done]. cbv zeta.
  destruct (encrypt_upload u f src _) as [[[[enc encMeta] options] key]|] eqn:Henc; [|done].
  destruct (encrypt_upload_spec _ _ _ _ _ _ _ _ _ _ Hk Henc) as (data & Hreads & Hsha & Hopens & Hsigned & Hfits).
  destruct (up_FetchTeeEnclaveKeySet u _) as [teeKeys w1].
  destruct (tee_options u teeKeys key options w1) as [options1|] eqn:Htee; [|done].
  destruct (tee_options_spec _ _ _ _ _ Hr Htee) as [Hsame Hseal].
  intros (dir & identity & resp & Hup & Hs & ->)%send_upload_Ok.
  set (options2 := <[_ := identity]> _) in Hup.
  assert (∀ k, k ∈ body_options → options2 !! k = options1 !! k) as H2.
  { intros k Hin. unfold options2. rewrite lookup_insert_ne; [by apply name_options_ne|].
    intros <-. unfold body_options in Hin. set_solver. }
  assert (∀ k, k ∈ body_options → k ≠ "tee_sealed_key" → options2 !! k = options !! k) as H1
    by (intros; by rewrite H2, Hsame).
  rewrite Hsha. do 7 eexists. split; [by eapply uploads_of_reads|]. split; [exact Hup|]. split; [done|].
  split; [|split; [|split; [|split; [done|split; [done|]]]]].
  - by eapply opens_for_options.
  - by eapply signed_by_options.
  - intros tpub tpriv Ht Hko. destruct (Hseal tpub tpriv Ht Hko) as (sealed & Hl & Hu).
    exists sealed. by rewrite H2 by set_solver.
  - intros f' nk token [= <-] Hnk Htok. unfold options2. rewrite lookup_insert_ne by done.
    by eapply name_options_token.
Qed.
End delivery.

(** ** Witnesses *)

#[local] Existing Instance ex_chunk_size | 0.
#[local] Existing Instance ex_unicode.
#[local] Existing Instance ex_file_chunk | 0.

(** A mount without a sync folder, an account with keys, and a server that
    accepts everything. *)
Definition ex_up_signer : SigningPublicKeySet * SigningPrivateKeySet :=
  GenerateSigningKeyPair (replicate 32 x02) (replicate 40 x03).
Definition ex_uploader : Uploader :=
  mkUploader (Some ex_pub) (Some (replicate 32 x0d)) (Some ex_up_signer.1) (Some ex_up_signer.2) ""
    (λ _, ex_dkey) (λ _, ex_fnonce) (λ n _, (ex_eph, [byte_of_Z (Z.of_nat n)], ex_nonce))
    (λ _, mkTempFaults None 1000 None) (λ _, None) (λ _, 1000%nat) tick
    (λ w, (Some ex_pub, w)) (λ _, false) (λ _, None) (λ _ _ w, (false, None, w))
    (λ m, Ok (String.list_byte_of_string (canonical m))) (λ _, Some "{}") ex_un (λ _, None)
    (λ _ _ _ w, (Ok (Some ex_ok_response), tick w)).

Lemma ex_keyed : keyed_for ex_uploader ex_pub ex_priv ex_up_signer.1.
Proof.
  split; [by split|]. split; [done|]. split; [by split|]. split; [done|].
  exists ex_up_signer.2. split; [done|]. exists (replicate 32 x02), (replicate 40 x03). split; [done|].
  unfold ex_up_signer. apply surjective_pairing.
Qed.

Lemma processUpload_delivers_witness :
  is_ok (processUpload ex_uploader ex_entry ex_world).1 = true ∧
  ∃ data key body options, uploads ex_uploader ex_world 1 data ∧
    opens_for ex_uploader ex_priv key options body data ∧ seals_key options "tee_sealed_key" ex_priv key.
Proof.
  assert (is_ok (processUpload ex_uploader ex_entry ex_world).1 = true) as Hok by (vm_compute; reflexivity).
  split; [exact Hok|].
  destruct (processUpload ex_uploader ex_entry ex_world) as [[content|e] w'] eqn:Hp; [|discriminate Hok].
  destruct (processUpload_delivers ex_uploader ex_entry ex_world content w' ex_pub ex_priv ex_up_signer.1 ex_keyed Hp)
    as (data & key & body & dir & options & w2 & resp & Hu & _ & _ & Ho & _ & Ht & _).
  exists data, key, body, options. split; [exact Hu|]. split; [exact Ho|].
  exact (Ht ex_pub ex_priv eq_refl (proj1 (proj2 (proj2 ex_keyed)))).
Defined.
