(* ===== verification/Watcher.v ===== *)
(** * The watcher of the sync folder

    [internal/mount/syncer/watcher.go]: what an event of the sync folder does.
    The events of [fsnotify] are steps; the watcher's own state is the set of
    debounce timers, the bounded queue its workers read, and the directories it
    watches. *)
From S2P Require Import Prelude GoLib Table ApiErrors Crypto Names CacheDB CacheStore CacheEvict.
From S2P Require Import FileTypes LocalFs VfsNode VfsContent Writeback.
Local Open Scope Z_scope.

Definition watchDebounce : Z := 2 * second.
Definition syncWorkers : nat := 4.
Definition syncQueueSize : nat := 1024.

(** ** Reading the sync folder *)

(** The name of [p] in the directory [dir]. *)
Definition entry_name (dir p : string) : option string :=
  let prefix := if decide (dir = "/") then "/" else dir +:+ "/" in
  if has_prefix prefix p then
    let name := trim_prefix prefix p in
    if decide (name = "") then None else if contains_char slash name then None else Some name
  else None.

Definition name_order (x y : string * fs_entry) : Prop := text_le x.1 y.1.
#[export] Instance name_order_dec : RelDecision name_order.
Proof. unfold name_order. intros x y. apply _. Defined.

(** [os.ReadDir]: the entries of a directory by name. *)
Definition os_ReadDir (fs : LocalFs) (dir : string) : result error (list (string * fs_entry)) :=
  match os_Lstat fs dir with
  | Err e => Err e
  | Ok (FsDir _) =>
      Ok (sql_order_by name_order
            (omap (λ x, name ← entry_name dir x.1; Some (name, x.2)) (map_to_list fs)))
  | Ok _ => Err (ErrText "not a directory")
  end.

Definition is_dir (e : fs_entry) : bool := match e with FsDir _ => true | _ => false end.

(** [info.Size()] and [info.ModTime()]; the size of a directory is not used. *)
Definition info_size (e : fs_entry) : Z := match e with FsFile c _ => blen c | _ => 0 end.
Definition info_mtime (e : fs_entry) : Z := match e with FsFile _ t | FsDir t => t | _ => 0 end.

Definition path_Base (p : string) : string :=
  if decide (p = "") then "." else
  match rev (filter (λ x, x ≠ "") (split_on slash p)) with name :: _ => name | [] => "/" end.

(** ** The watcher *)

(** [fsnotify.Event]: a name and the bits of its operation. *)
Record Event : Type := mkEvent {
  ev_Name : string; ev_Create : bool; ev_Write : bool; ev_Remove : bool; ev_Rename : bool }.

(** What a watcher is made with.  [wt_reread] is what the second pass of
    [PutFile] reads; [wt_env] the randomness and failures of the blob store. *)
Record Watcher : Type := mkWatcher {
  wt_syncDir : string; wt_remotePath : string; wt_evictor : option Z;
  wt_env : World → flush_env;
  wt_reread : string → World → result error bytes;
  wt_add : string → World → option error;   (** [fsWatcher.Add] *)
  wt_marshal : string → string; wt_unmarshal : string → option string }.

(** The timers with their due times, the queue of the workers, the watched
    directories, and whether the watcher was stopped. *)
Record WatchState : Type := mkWatchState {
  ws_debounce : gmap string Z; ws_queue : list string; ws_watched : gset string; ws_stopped : bool }.
#[export] Instance WatchState_eta : Eta WatchState := λ s,
  mkWatchState (ws_debounce s) (ws_queue s) (ws_watched s) (ws_stopped s).
Definition new_watch : WatchState := mkWatchState ∅ [] ∅ false.

Section watcher.
Context `{A : AEAD, SH : Sha256, CS : ChunkSize, U : Unicode}.
Variable wt : Watcher.

Definition wt_enqueue (id : Z) (act path : string) (w : World) : World :=
  call_db (EnqueueWriteback (wt_marshal wt) (wt_unmarshal wt) id act path "" (fe_key (wt_env wt w))
             (Unix (wd_now w))) w.

Definition toRemotePath (localPath : string) : string :=
  match filepath_Rel (wt_syncDir wt) localPath with
  | None => path_Base localPath
  | Some rel =>
      if decide (wt_remotePath wt = "" ∨ wt_remotePath wt = "/") then rel
      else wt_remotePath wt +:+ "/" +:+ rel
  end.

Definition wt_safe (w : World) (p : string) : bool := safeSyncPath (wd_fs w) (wt_syncDir wt) p.

(** ** One file *)

(** [w.evictor.RunIfNeeded()] over the mount's database, store and nodes. *)
Definition run_evictor (w : World) : World :=
  match wt_evictor wt with
  | None => w
  | Some size =>
      let v := wd_vfs w in
      let '(_, sw) := RunIfNeeded (mkEvictor size (Some (evictInUse v))) (v_Cache v) (Some (v_Store v)) in
      let v := v <| v_Cache := sw_db sw |> <| v_Store := default (v_Store v) (sw_store sw) |> in
      w <| wd_vfs := foldl (λ v id, evictClear id v) v (sw_log sw) |>
  end.

(** [w.store.PutFile(localPath)]. *)
Definition put_file (localPath : string) (w : World) : result error string * World :=
  let env := wt_env wt w in
  let first := match os_Lstat (wd_fs w) localPath with
               | Ok (FsFile content _) => Ok content
               | Ok _ => Err (ErrText "is a directory")
               | Err e => Err e
               end in
  let '(r, s) := PutFile first (wt_reread wt localPath w) (fe_nonces env) (fe_tmp env) (fe_now env)
                   (fe_faults env) (v_Store (wd_vfs w)) in
  (r, w <| wd_vfs := (wd_vfs w) <| v_Store := s |> |>).

Definition path_inode (path : string) (w : World) : option Inode :=
  match GetInodeByPath path (wd_db w) with Ok i => Some i | Err _ => None end.

Definition release_to (hash : string) (id : Z) (w : World) : World :=
  let v := wd_vfs w in
  w <| wd_vfs := v <| v_Store := default (v_Store v) (ReleaseBlob (Some (v_Cache v)) (Some (v_Store v)) hash id) |> |>.

(** The row of a file that was stored under [hash]. *)
Definition synced_inode (remotePath name hash : string) (info : fs_entry) (status : SyncStatus)
    (reason : string) : Inode :=
  mkInode 0 remotePath name false (info_size info) (Unix (info_mtime info)) true true false 0 hash "" 0
    "" "" "" 0 status reason.

(** [syncFile] once the content is stored. *)
Definition sync_stored (remotePath name hash : string) (info : fs_entry) (verdict : bool * string)
    (w : World) : World :=
  let '(ok, reason) := verdict in
  let existing := path_inode remotePath w in
  let unchanged := match existing with
                   | Some i => bool_decide (i_ContentHash i = hash ∧ i_SyncStatus i = StatusSynced)
                   | None => false end in
  if unchanged then w else
  let supersededHash := match existing with
                        | Some i => if decide (i_ContentHash i ≠ hash) then i_ContentHash i else ""
                        | None => "" end in
  let status := if (ok : bool) then StatusPending else StatusRejected in
  match run_db (UpsertInode (synced_inode remotePath name hash info status reason)) w with
  | (Err _, w) => w
  | (Ok id, w) =>
      let w := release_to supersededHash id w in
      if ok then wt_enqueue id "upload" remotePath w else w
  end.

Definition syncFile (localPath : string) (w : World) : World :=
  if negb (wt_safe w localPath) then w else
  match os_Lstat (wd_fs w) localPath with
  | Err _ => w
  | Ok info =>
      if is_dir info then w else
      let name := path_Base localPath in
      let remotePath := toRemotePath localPath in
      let verdict := ValidateFile name (info_size info) in
      if negb (wt_safe w localPath) then w else
      match put_file localPath w with
      | (Err _, w) => w
      | (Ok hash, w) => sync_stored remotePath name hash info verdict (run_evictor w)
      end
  end.

(** ** Events *)

Definition scheduleSync (localPath : string) (now : Z) (s : WatchState) : WatchState :=
  s <| ws_debounce := <[localPath := now + watchDebounce]> (ws_debounce s) |>.

Definition watch (dir : string) (s : WatchState) : WatchState := s <| ws_watched := {[dir]} ∪ ws_watched s |>.

(** Deep enough for every directory of the folder. *)
Definition walk_fuel (fs : LocalFs) : nat := S (map_fold (λ p _ n, Nat.max (String.length p) n) 0%nat fs).

(** [addRecursive]: every directory below [dir] that is not ignored; the walk ends
    with the first directory that cannot be watched. *)
Fixpoint addRecursive (fuel : nat) (w : World) (dir : string) (s : WatchState) : option error * WatchState :=
  match fuel with
  | O => (None, s)
  | S fuel =>
      if negb (wt_safe w dir) then (None, s)
      else if shouldIgnore (path_Base dir) || bool_decide (path_Base dir = ".pigcloud") then (None, s)
      else
        match wt_add wt dir w with
        | Some err => (Some err, s)
        | None =>
            let s := watch dir s in
            match os_ReadDir (wd_fs w) dir with
            | Err _ => (None, s)
            | Ok entries =>
                foldl (λ x e, match x with
                              | (Some err, s) => (Some err, s)
                              | (None, s) => if is_dir e.2 then addRecursive fuel w (path_Join dir e.1) s else (None, s)
                              end) (None, s) entries
            end
        end
  end.

Definition dir_inode (remotePath name : string) (now : Z) : Inode :=
  mkInode 0 remotePath name true 0 (Unix now) false false false 0 "" "" 0 "" "" "" 0 StatusPending "".

(** [handleCreate], with [enqueueExistingChildren] in line. *)
Fixpoint handleCreate (fuel : nat) (localPath : string) (x : World * WatchState) : World * WatchState :=
  match fuel with
  | O => x
  | S fuel =>
      let '(w, s) := x in
      if negb (wt_safe w localPath) then (w, s) else
      match os_Lstat (wd_fs w) localPath with
      | Err _ => (w, s)
      | Ok info =>
          if is_dir info then
            let s := match wt_add wt localPath w with Some _ => s | None => watch localPath s end in
            let s := (addRecursive (walk_fuel (wd_fs w)) w localPath s).2 in
            let remotePath := toRemotePath localPath in
            let name := path_Base localPath in
            if negb (ValidateDirName name).1 then (w, s) else
            match path_inode remotePath w with
            | Some _ => (w, s)
            | None =>
                match run_db (UpsertInode (dir_inode remotePath name (wd_now w))) w with
                | (Err _, w) => (w, s)
                | (Ok id, w) =>
                    let w := wt_enqueue id "mkdir" remotePath w in
                    match os_ReadDir (wd_fs w) localPath with
                    | Err _ => (w, s)
                    | Ok entries =>
                        foldl (λ x e,
                          if shouldIgnore e.1 || bool_decide (e.1 = ".pigcloud") then x
                          else if is_dir e.2 then handleCreate fuel (path_Join localPath e.1) x
                          else (x.1, scheduleSync (path_Join localPath e.1) (wd_now x.1) x.2)) (w, s) entries
                    end
                end
            end
          else (w, scheduleSync localPath (wd_now w) s)
      end
  end.

(** [enqueueExistingChildren] of a directory. *)
Definition enqueueExistingChildren (dir : string) (x : World * WatchState) : World * WatchState :=
  match os_ReadDir (wd_fs x.1) dir with
  | Err _ => x
  | Ok entries =>
      foldl (λ x e,
        if shouldIgnore e.1 || bool_decide (e.1 = ".pigcloud") then x
        else if is_dir e.2 then handleCreate (walk_fuel (wd_fs x.1)) (path_Join dir e.1) x
        else (x.1, scheduleSync (path_Join dir e.1) (wd_now x.1) x.2)) x entries
  end.

Definition handleWrite (localPath : string) (x : World * WatchState) : World * WatchState :=
  let '(w, s) := x in
  if negb (wt_safe w localPath) then (w, s) else
  match os_Lstat (wd_fs w) localPath with
  | Ok info => if is_dir info then (w, s) else (w, scheduleSync localPath (wd_now w) s)
  | Err _ => (w, s)
  end.

Definition handleRemove (localPath : string) (w : World) : World :=
  if negb (wt_safe w localPath) then w else
  let remotePath := toRemotePath localPath in
  match path_inode remotePath w with
  | None => w
  | Some existing =>
      if decide (i_SyncStatus existing ≠ StatusSynced ∧ i_SyncStatus existing ≠ StatusConflict) then
        call_db (DeleteInode remotePath) (call_db (DeleteWritebackByInode (i_ID existing)) w)
      else wt_enqueue (i_ID existing) "delete" remotePath w
  end.

Definition handleEvent (event : Event) (x : World * WatchState) : World * WatchState :=
  let localPath := path_Clean (ev_Name event) in
  if shouldIgnore (path_Base localPath) then x else
  match filepath_Rel (wt_syncDir wt) localPath with
  | None => x
  | Some rel =>
      if has_prefix ".pigcloud" rel then x
      else if bool_decide (localPath ∈ sp_paths (wd_suppress x.1)) then x
      else if ev_Create event then handleCreate (walk_fuel (wd_fs x.1)) localPath x
      else if ev_Write event then handleWrite localPath x
      else if ev_Remove event || ev_Rename event then (handleRemove localPath x.1, x.2)
      else x
  end.

(** An overflow of the event queue: everything is looked at again. *)
Definition rescan (x : World * WatchState) : World * WatchState :=
  let s := (addRecursive (walk_fuel (wd_fs x.1)) x.1 (wt_syncDir wt) x.2).2 in
  enqueueExistingChildren (wt_syncDir wt) (x.1, s).

(** ** The watcher's steps

    An event, an overflow, a due timer that hands its path to the queue (which
    blocks while the queue is full), a worker, a timer of the suppressed paths,
    and anything the rest of the mount and the user do. *)
Inductive watch_step : World * WatchState → World * WatchState → Prop :=
| step_event event x : ws_stopped x.2 = false → watch_step x (handleEvent event x)
| step_overflow x : ws_stopped x.2 = false → watch_step x (rescan x)
| step_timer w s p due : ws_debounce s !! p = Some due → due ≤ wd_now w →
    (length (ws_queue s) < syncQueueSize)%nat →
    watch_step (w, s) (w, s <| ws_debounce := delete p (ws_debounce s) |> <| ws_queue := ws_queue s ++ [p] |>)
| step_work w s p rest : ws_queue s = p :: rest → watch_step (w, s) (syncFile p w, s <| ws_queue := rest |>)
| step_other w w' s : wd_now w ≤ wd_now w' → watch_step (w, s) (w', s).

Definition Start (w : World) (s : WatchState) : option error * WatchState :=
  addRecursive (walk_fuel (wd_fs w)) w (wt_syncDir wt) s.

Definition Stop (s : WatchState) : WatchState := s <| ws_debounce := ∅ |> <| ws_stopped := true |>.
End watcher.

(** ** Storing a file *)

Section sync.
Context `{A : AEAD, SH : Sha256, CS : ChunkSize, U : Unicode}.
Variable wt : Watcher.

(** The queue after one upload of [id] was put on it: it replaces the uploads of
    the file still waiting. *)
Definition waiting_upload (id : Z) (e : WritebackEntry) : Prop :=
  w_InodeID e = id ∧ w_Action e = "upload" ∧ w_Status e = "pending".
#[export] Instance waiting_upload_dec id e : Decision (waiting_upload id e).
Proof. unfold waiting_upload. apply _. Defined.
Definition upload_queued (id : Z) (path : string) (w w' : World) : Prop :=
  ∃ e, waiting_upload id e ∧ w_RemotePath e = path ∧
    writeback_queue (wd_db w') = sql_delete (waiting_upload id) (writeback_queue (wd_db w)) ++ [e].

Lemma wt_enqueue_upload id path w :
  db_open w → let w' := wt_enqueue wt id "upload" path w in
  upload_queued id path w w' ∧ inodes (wd_db w') = inodes (wd_db w) ∧ db_open w' ∧ wd_nodes w' = wd_nodes w ∧
  (db_wf (wd_db w) → db_wf (wd_db w')).
Proof.
  intros [Hc Hw]. cbv zeta. split_and!.
  - unfold wt_enqueue, upload_queued. rewrite wd_db_call. unfold EnqueueWriteback. rewrite Hw, Hc. cbn [snd].
    eexists. split; [|split]; [| |cbn [writeback_queue]; f_equal]; done.
  - unfold wt_enqueue. rewrite wd_db_call. unfold EnqueueWriteback. by rewrite Hw, Hc.
  - unfold db_open, wt_enqueue. rewrite wd_db_call. unfold EnqueueWriteback. by rewrite Hw, Hc.
  - unfold wt_enqueue. by rewrite wd_nodes_call.
  - intros Hwf. unfold wt_enqueue. rewrite wd_db_call. by apply wf_EnqueueWriteback.
Qed.

Lemma release_to_frame hash id w :
  wd_db (release_to hash id w) = wd_db w ∧ wd_nodes (release_to hash id w) = wd_nodes w.
Proof. done. Qed.

(** What the row of a stored file says. *)
Definition stored_row (hash : string) (info : fs_entry) (verdict : bool * string) (i : Inode) : Prop :=
  i_Dirty i = true ∧ i_Cached i = true ∧ i_ContentHash i = hash ∧ i_Size i = info_size info ∧
  i_Mtime i = Unix (info_mtime info) ∧ i_IsDir i = false ∧
  i_SyncStatus i = (if (verdict.1 : bool) then StatusPending else StatusRejected) ∧ i_StatusReason i = verdict.2.

Definition unchanged (hash : string) (i : Inode) : Prop :=
  i_ContentHash i = hash ∧ i_SyncStatus i = StatusSynced.

Lemma path_inode_same path w w' : inodes (wd_db w') = inodes (wd_db w) → closed (wd_db w) = false →
  closed (wd_db w') = false → path_inode path w' = path_inode path w.
Proof. intros Hi Hc Hc'. unfold path_inode, GetInodeByPath. by rewrite !query_open, Hi by done. Qed.

Lemma UpsertInode_flags i d : closed d = false →
  closed (UpsertInode i d).2 = false ∧ writebackDisabled (UpsertInode i d).2 = writebackDisabled d ∧
  writeback_queue (UpsertInode i d).2 = writeback_queue d.
Proof. intros Hc. unfold UpsertInode. rewrite Hc. by destruct (sql_first _ _). Qed.

(** The insertion or update of a row, as its path is read. *)
Lemma upsert_path i w :
  db_wf (wd_db w) → db_open w →
  ∃ id w', run_db (UpsertInode i) w = (Ok id, w') ∧ db_wf (wd_db w') ∧ db_open w' ∧ wd_nodes w' = wd_nodes w ∧
    writeback_queue (wd_db w') = writeback_queue (wd_db w) ∧
    match path_inode (i_RemotePath i) w with
    | None => path_inode (i_RemotePath i) w' = Some (i <| i_ID := id |>) ∧ ∀ r, r ∈ inodes (wd_db w) → c_id r < id
    | Some old => id = i_ID old ∧ ∃ i', path_inode (i_RemotePath i) w' = Some i' ∧ i_ID i' = id ∧
        i_Dirty i' = i_Dirty old || i_Dirty i ∧ i_Cached i' = i_Cached i ∧ i_ContentHash i' = i_ContentHash i ∧
        i_Size i' = i_Size i ∧ i_Mtime i' = i_Mtime i ∧ i_IsDir i' = i_IsDir i ∧ i_SyncStatus i' = i_SyncStatus i ∧
        i_StatusReason i' = i_StatusReason i ∧ i_Etag i' = coalesce_text (i_Etag i) (i_Etag old)
    end.
Proof.
  intros Hwf [Hc Hw]. pose proof (UpsertInode_spec i _ Hwf Hc) as Hs. pose proof (wf_UpsertInode _ Hwf i) as Hwf'.
  destruct (UpsertInode_flags i _ Hc) as (Hf1 & Hf2 & Hf3). unfold run_db, with_db. fold (wd_db w).
  destruct (UpsertInode i (wd_db w)) as [res d'] eqn:Hu. cbn [snd] in *. destruct Hs as (id & -> & _ & Hs).
  exists id, (w <| wd_vfs := (wd_vfs w) <| v_Cache := d' |> |>). split; [done|]. split; [done|].
  split; [by split; [|rewrite <- Hw, <- Hf2]|]. split; [done|]. split; [done|].
  unfold path_inode. change (wd_db (w <| wd_vfs := (wd_vfs w) <| v_Cache := d' |> |>)) with d'.
  destruct (GetInodeByPath (i_RemotePath i) (wd_db w)) as [old|e].
  - destruct Hs as [-> Hs]. split; [done|]. rewrite Hs. eexists. split; [reflexivity|]. by split_and!.
  - destruct Hs as [Hlt Hs]. rewrite Hs. by split.
Qed.

Lemma sync_stored_spec path name hash info verdict w :
  db_wf (wd_db w) → db_open w →
  (∀ i, path_inode path w = Some i → ¬ unchanged hash i) →
  let w' := sync_stored wt path name hash info verdict w in
  db_wf (wd_db w') ∧ db_open w' ∧ wd_nodes w' = wd_nodes w ∧
  ∃ i, path_inode path w' = Some i ∧ stored_row hash info verdict i ∧
    match path_inode path w with
    | Some old => i_ID i = i_ID old ∧ i_Etag i = i_Etag old
    | None => ∀ r, r ∈ inodes (wd_db w) → c_id r < i_ID i
    end ∧
    (if verdict.1 then upload_queued (i_ID i) path w w' else writeback_queue (wd_db w') = writeback_queue (wd_db w)).
Proof.
  intros Hwf Ho Hun. unfold sync_stored. destruct verdict as [ok reason].
  assert ((match path_inode path w with
           | Some i => bool_decide (i_ContentHash i = hash ∧ i_SyncStatus i = StatusSynced)
           | None => false end) = false) as ->.
  { destruct (path_inode path w) as [i|] eqn:Hi; [|done]. apply bool_decide_eq_false. by apply Hun. }
  set (sup := match path_inode path w with Some _ => _ | None => _ end). clearbody sup.
  destruct (upsert_path (synced_inode path name hash info (if ok then StatusPending else StatusRejected) reason) w Hwf Ho)
    as (id & w1 & -> & Hwf1 & Ho1 & Hn1 & Hq1 & Hi). cbn [i_RemotePath synced_inode] in Hi.
  assert (∃ i, path_inode path w1 = Some i ∧ i_ID i = id ∧ stored_row hash info (ok, reason) i ∧
    match path_inode path w with
    | Some old => i_ID i = i_ID old ∧ i_Etag i = i_Etag old
    | None => ∀ r, r ∈ inodes (wd_db w) → c_id r < i_ID i
    end) as (i & Hi1 & <- & Hrow & Hold).
  { destruct (path_inode path w) as [old|].
    - destruct Hi as (-> & i' & -> & Hid & Hd & Hc & Hh & Hs & Hm & Hdir & Hst & Hr & He). exists i'.
      split; [done|]. split; [done|]. split; [|split; [done|by rewrite He]].
      split_and!; [by rewrite Hd, orb_true_r|done..].
    - destruct Hi as [-> Hlt]. eexists. split; [reflexivity|]. split; [done|]. split; [by split_and!|done]. }
  destruct (release_to_frame sup (i_ID i) w1) as [Hdb Hno].
  set (w2 := release_to sup (i_ID i) w1) in *. clearbody w2.
  assert (path_inode path w2 = Some i) as Hi2 by (unfold path_inode in *; by rewrite Hdb).
  assert (db_open w2) as Ho2 by (unfold db_open; by rewrite Hdb).
  destruct ok; cbn [fst].
  - destruct (wt_enqueue_upload (i_ID i) path w2 Ho2) as ((e & He & Hp & Hq) & Hin & Ho3 & Hn3 & Hwf3).
    split; [apply Hwf3; by rewrite Hdb|]. split; [done|]. split; [by rewrite Hn3, Hno|]. exists i.
    split; [rewrite (path_inode_same path w2) by (done || apply Ho2 || apply Ho3); done|]. split; [done|]. split; [done|].
    exists e. by rewrite Hq, Hdb, Hq1.
  - split; [by rewrite Hdb|]. split; [done|]. split; [by rewrite Hno|]. exists i. by rewrite Hdb.
Qed.

Lemma path_inode_row path w i :
  db_wf (wd_db w) → closed (wd_db w) = false →
  path_inode path w = Some i ↔ ∃ r, r ∈ inodes (wd_db w) ∧ c_remote_path r = path ∧ i = scanInodeRow r.
Proof.
  intros Hwf Hc. unfold path_inode, GetInodeByPath. rewrite query_open by done.
  pose proof (sql_first_key c_remote_path (inodes (wd_db w)) path) as Hk.
  destruct (sql_first _ _) as [r0|] eqn:Hf; cbn [scan_row].
  - destruct (Hk r0 (wf_paths _ Hwf)) as [[Hin Hp] _]; [done|]. split; [intros [= <-]; by exists r0|].
    intros (r & Hr & Hp' & ->). destruct (Hk r (wf_paths _ Hwf)) as [_ Hr']. specialize (Hr' (conj Hr Hp')).
    by injection Hr' as <-.
  - split; [done|]. intros (r & Hr & Hp & ->). destruct (Hk r (wf_paths _ Hwf)) as [_ Hr']. by specialize (Hr' (conj Hr Hp)).
Qed.

Lemma path_inode_GetInode path w i :
  db_wf (wd_db w) → closed (wd_db w) = false → path_inode path w = Some i → GetInode (i_ID i) (wd_db w) = Ok i.
Proof.
  intros Hwf Hc (r & Hr & _ & ->)%path_inode_row; [|done..]. rewrite GetInode_row by done.
  assert (row_of (i_ID (scanInodeRow r)) (wd_db w) = Some r) as -> by (by apply row_of_elem). done.
Qed.

(** Evicting touches clean rows only, and of a node its cached content only. *)
Lemma evictClear_nodes id v l :
  match v_nodes v !! l with
  | Some nd => ∃ nd', v_nodes (evictClear id v) !! l = Some nd' ∧ n_SyncStatus nd' = n_SyncStatus nd ∧
      n_Etag nd' = n_Etag nd ∧ n_Dirty nd' = n_Dirty nd ∧ n_ID nd' = n_ID nd
  | None => v_nodes (evictClear id v) !! l = None
  end ∧ v_nodesByID (evictClear id v) = v_nodesByID v ∧ v_Cache (evictClear id v) = v_Cache v.
Proof.
  unfold evictClear. destruct (node_by_id id v) as [[l' nd']|]; [|destruct (v_nodes v !! l); by eauto 10].
  unfold with_node, update_node. cbn. destruct (decide (l = l')) as [->|].
  - rewrite lookup_alter_eq. destruct (v_nodes v !! l'); cbn; by eauto 10.
  - rewrite lookup_alter_ne by done. destruct (v_nodes v !! l); by eauto 10.
Qed.

(** The nodes keep their statuses and their places. *)
Definition same_status (w w' : World) : Prop :=
  v_nodesByID (wd_vfs w') = v_nodesByID (wd_vfs w) ∧
  ∀ l nd, wd_nodes w !! l = Some nd → ∃ nd', wd_nodes w' !! l = Some nd' ∧ n_SyncStatus nd' = n_SyncStatus nd ∧
    n_Etag nd' = n_Etag nd ∧ n_Dirty nd' = n_Dirty nd ∧ n_ID nd' = n_ID nd.

Lemma evictClear_all ids v :
  let v' := foldl (λ v id, evictClear id v) v ids in
  v_Cache v' = v_Cache v ∧ v_nodesByID v' = v_nodesByID v ∧
  ∀ l nd, v_nodes v !! l = Some nd → ∃ nd', v_nodes v' !! l = Some nd' ∧ n_SyncStatus nd' = n_SyncStatus nd ∧
    n_Etag nd' = n_Etag nd ∧ n_Dirty nd' = n_Dirty nd ∧ n_ID nd' = n_ID nd.
Proof.
  revert v. induction ids as [|id ids IH]; intros v; cbn [foldl]; [eauto 10|].
  destruct (IH (evictClear id v)) as (Hc & Hb & Hn). cbv zeta in *.
  pose proof (λ l, evictClear_nodes id v l) as He. destruct (He 1%positive) as (_ & Hb' & Hc').
  split; [by rewrite Hc|]. split; [by rewrite Hb|]. intros l nd Hl. destruct (He l) as [Hl' _]. rewrite Hl in Hl'.
  destruct Hl' as (nd1 & Hl1 & ? & ? & ? & ?). destruct (Hn l nd1 Hl1) as (nd2 & Hl2 & ? & ? & ? & ?).
  exists nd2. split; [done|]. split_and!; congruence.
Qed.

Lemma run_evictor_frame w :
  db_wf (wd_db w) → db_open w →
  let w' := run_evictor wt w in
  db_wf (wd_db w') ∧ db_open w' ∧ writeback_queue (wd_db w') = writeback_queue (wd_db w) ∧ same_status w w' ∧
  ∀ path i, path_inode path w = Some i → i_Dirty i = true → path_inode path w' = Some i.
Proof.
  intros Hwf [Hc Hw]. unfold run_evictor. destruct (wt_evictor wt) as [size|]; [|split_and!; [done..| |done]; split; [done|eauto 10]].
  set (e := mkEvictor size _).
  pose proof (RunIfNeeded_db e (wd_db w) (Some (v_Store (wd_vfs w))) Hc (wf_ids _ Hwf)) as Hsw. unfold wd_db in Hsw at 2.
  destruct (RunIfNeeded e _ _) as [res sw]. cbn [snd] in Hsw. destruct Hsw as [Hdb Hlog _ _ _ _]. cbv zeta.
  set (v1 := (wd_vfs w) <| v_Cache := sw_db sw |> <| v_Store := default (v_Store (wd_vfs w)) (sw_store sw) |>).
  destruct (evictClear_all (sw_log sw) v1) as (Hv & Hb & Hn). cbv zeta in *.
  set (w' := w <| wd_vfs := foldl (λ v id, evictClear id v) v1 (sw_log sw) |>).
  assert (wd_db w' = on_inodes (sql_update (λ r, c_id r ∈ sw_log sw) invalidate_row) (wd_db w)) as Hdb'
    by (unfold wd_db at 1; unfold w'; cbn; by rewrite Hv).
  assert (db_wf (wd_db w')) as Hwf' by (rewrite Hdb'; by apply wf_inodes_update).
  split; [done|]. split; [by split; rewrite Hdb'|]. split; [by rewrite Hdb'|]. split; [by split|].
  intros path i (r & Hr & Hp & ->)%path_inode_row Hd; [|done..]. apply path_inode_row; [done|by rewrite Hdb'|].
  exists r. split; [|done]. rewrite Hdb'. apply elem_of_sql_update. exists r. split; [done|]. rewrite decide_False; [done|].
  intros Hid. destruct (Hlog _ Hid) as (r' & (Hr' & (_ & Hcl & _) & _) & Heq).
  assert (row_of (c_id r') (wd_db w) = Some r') as Hr1 by (by apply row_of_elem).
  assert (row_of (c_id r) (wd_db w) = Some r) as Hr2 by (by apply row_of_elem).
  assert (r' = r) as -> by congruence.
  cbn in Hd. congruence.
Qed.

Lemma put_file_frame p w :
  wd_db (put_file wt p w).2 = wd_db w ∧ wd_nodes (put_file wt p w).2 = wd_nodes w ∧
  v_nodesByID (wd_vfs (put_file wt p w).2) = v_nodesByID (wd_vfs w).
Proof. unfold put_file. by destruct (PutFile _ _ _ _ _ _ _). Qed.

Lemma put_file_hash p w content mt hash :
  os_Lstat (wd_fs w) p = Ok (FsFile content mt) → (put_file wt p w).1 = Ok hash → hash = sha256_hex content.
Proof.
  intros Hl. unfold put_file. rewrite Hl. unfold PutFile.
  destruct (putSealed _ _ _ _ _ _) as [[]]; cbn; [by intros [= <-]|done].
Qed.

Lemma syncFile_regular p w content mt :
  wt_safe wt w p = true → os_Lstat (wd_fs w) p = Ok (FsFile content mt) →
  syncFile wt p w =
    match put_file wt p w with
    | (Err _, w) => w
    | (Ok hash, w1) => sync_stored wt (toRemotePath wt p) (path_Base p) hash (FsFile content mt)
                         (ValidateFile (path_Base p) (blen content)) (run_evictor wt w1)
    end.
Proof. intros Hs Hl. unfold syncFile. by rewrite Hs, Hl. Qed.

(** A changed file of the sync folder is tracked.  For a regular file that can
    be reached without a link, the worker stores the content under its digest
    and then leaves the database alone only if the path's row already has this
    content and is synchronised.  Otherwise the path has a row that is dirty and
    cached under the digest, with the file's size and time, pending (or rejected,
    with the reason, if the service would not take such a file); an old row keeps
    its identifier and remote version; and exactly one upload of the file waits
    in the queue, the rest of which is untouched.  When the content cannot be
    stored, nothing changes. *)
Theorem syncFile_tracks p w content mt :
  db_wf (wd_db w) → db_open w → wt_safe wt w p = true → os_Lstat (wd_fs w) p = Ok (FsFile content mt) →
  let path := toRemotePath wt p in
  let verdict := ValidateFile (path_Base p) (blen content) in
  let w' := syncFile wt p w in
  match (put_file wt p w).1 with
  | Err _ => wd_db w' = wd_db w
  | Ok hash => hash = sha256_hex content ∧
      let w1 := run_evictor wt (put_file wt p w).2 in
      (∃ i, path_inode path w1 = Some i ∧ unchanged hash i ∧ w' = w1) ∨
      ∃ i, path_inode path w' = Some i ∧ stored_row hash (FsFile content mt) verdict i ∧
        match path_inode path w1 with
        | Some old => i_ID i = i_ID old ∧ i_Etag i = i_Etag old
        | None => ∀ r, r ∈ inodes (wd_db w1) → c_id r < i_ID i
        end ∧
        (if verdict.1 then upload_queued (i_ID i) path w w' else writeback_queue (wd_db w') = writeback_queue (wd_db w))
  end.
Proof.
  intros Hwf Ho Hs Hl. cbv zeta. rewrite (syncFile_regular _ _ _ _ Hs Hl).
  pose proof (put_file_hash p w content mt) as Hh. destruct (put_file_frame p w) as (Hdb & _).
  destruct (put_file wt p w) as [[hash|err] w0]; cbn [fst snd] in *; [|done]. split; [by apply Hh|].
  assert (db_wf (wd_db w0) ∧ db_open w0) as [Hwf0 Ho0] by (unfold db_open; by rewrite Hdb).
  destruct (run_evictor_frame w0 Hwf0 Ho0) as (Hwf1 & Ho1 & Hq1 & _). cbv zeta in *.
  set (w1 := run_evictor wt w0) in *. set (path := toRemotePath wt p).
  assert ((∃ i, path_inode path w1 = Some i ∧ unchanged hash i) ∨ ∀ i, path_inode path w1 = Some i → ¬ unchanged hash i)
    as [(i & Hi & Hun)|Hun].
  { destruct (path_inode path w1) as [i|]; [|by right]. destruct (decide (i_ContentHash i = hash ∧ i_SyncStatus i = StatusSynced));
      [left; by exists i|right; by intros ? [= <-]]. }
  { left. exists i. split; [done|]. split; [done|]. unfold sync_stored. destruct (ValidateFile _ _).
    rewrite Hi. by rewrite bool_decide_true. }
  right. destruct (sync_stored_spec path (path_Base p) hash (FsFile content mt) (ValidateFile (path_Base p) (blen content))
    w1 Hwf1 Ho1 Hun) as (_ & _ & _ & i & Hi & Hst & Hold & Hq). exists i. split; [done|]. split; [done|]. split; [done|].
  unfold upload_queued in *. by rewrite Hq1, Hdb in Hq.
Qed.
End sync.

(** ** Nothing noted is dropped *)

Section schedule.
Context `{A : AEAD, SH : Sha256, CS : ChunkSize, U : Unicode}.
Variable wt : Watcher.

(** A change of [p] is waiting for a timer or for a worker. *)
Definition noted (p : string) (s : WatchState) : Prop := is_Some (ws_debounce s !! p) ∨ p ∈ ws_queue s.
Definition keeps_noted (s s' : WatchState) : Prop := ∀ p, noted p s → noted p s'.

Lemma keeps_refl s : keeps_noted s s.
Proof. by intros p. Qed.
Lemma keeps_trans s1 s2 s3 : keeps_noted s1 s2 → keeps_noted s2 s3 → keeps_noted s1 s3.
Proof. intros H1 H2 p Hp. auto. Qed.
Lemma keeps_schedule q now s : keeps_noted s (scheduleSync q now s).
Proof.
  intros p [Hd|Hq]; [left|by right]. unfold scheduleSync. cbn. destruct (decide (p = q)) as [->|].
  - rewrite lookup_insert_eq. by eexists.
  - by rewrite lookup_insert_ne.
Qed.
Lemma noted_schedule p now s : noted p (scheduleSync p now s).
Proof. left. unfold scheduleSync. cbn. rewrite lookup_insert_eq. by eexists. Qed.

Lemma keeps_addRecursive fuel w : ∀ dir s, keeps_noted s (addRecursive wt fuel w dir s).2.
Proof.
  induction fuel as [|fuel IH]; intros dir s; cbn [addRecursive]; [apply keeps_refl|].
  destruct (negb _); [apply keeps_refl|]. destruct (_ || _); [apply keeps_refl|].
  destruct (wt_add wt dir w); [apply keeps_refl|]. destruct (os_ReadDir _ _) as [entries|]; [|by intros p].
  assert (keeps_noted s (None : option error, watch dir s).2) as H0 by (by intros p). revert H0.
  generalize (None : option error, watch dir s). induction entries as [|[n e] es IHe]; intros x Hx; [done|].
  cbn [foldl]. apply IHe. destruct x as [[err|] s1]; [done|]. cbn [fst snd] in *. destruct (is_dir e); [|done].
  eapply keeps_trans; [exact Hx|apply IH].
Qed.

Lemma keeps_entries (step : string → World * WatchState → World * WatchState) dir entries x :
  (∀ p y, keeps_noted y.2 (step p y).2) →
  keeps_noted x.2 (foldl (λ x e,
    if shouldIgnore e.1 || bool_decide (e.1 = ".pigcloud") then x
    else if is_dir e.2 then step (path_Join dir e.1) x
    else (x.1, scheduleSync (path_Join dir e.1) (wd_now x.1) x.2)) x entries).2.
Proof.
  intros Hs. revert x. induction entries as [|[n e] es IH]; intros x; [apply keeps_refl|]. cbn [foldl].
  eapply keeps_trans; [|apply IH]. cbn [fst snd]. destruct (_ || _); [apply keeps_refl|].
  destruct (is_dir e); [apply Hs|apply keeps_schedule].
Qed.

Lemma keeps_handleCreate fuel : ∀ p x, keeps_noted x.2 (handleCreate wt fuel p x).2.
Proof.
  induction fuel as [|fuel IH]; intros p [w s]; cbn [handleCreate]; [apply keeps_refl|].
  destruct (negb _); [apply keeps_refl|]. destruct (os_Lstat _ _) as [info|]; [|apply keeps_refl].
  destruct (is_dir info); [|apply keeps_schedule]. cbv zeta.
  set (s1 := (addRecursive wt _ w p _).2).
  assert (keeps_noted s s1) as H1.
  { eapply keeps_trans; [|apply keeps_addRecursive]. destruct (wt_add wt p w); by intros q. }
  destruct (negb _); [exact H1|]. destruct (path_inode _ _); [exact H1|].
  destruct (run_db _ w) as [[id|] w1]; [|exact H1]. destruct (os_ReadDir _ _) as [entries|]; [|exact H1].
  eapply keeps_trans; [exact H1|]. eapply (keeps_entries _ p entries (_, s1)). exact IH.
Qed.

Lemma keeps_children dir x : keeps_noted x.2 (enqueueExistingChildren wt dir x).2.
Proof.
  unfold enqueueExistingChildren. destruct (os_ReadDir _ _) as [entries|]; [|apply keeps_refl].
  apply (keeps_entries (λ p x, handleCreate wt (walk_fuel (wd_fs x.1)) p x)). intros p y. apply keeps_handleCreate.
Qed.

Lemma keeps_event event x : keeps_noted x.2 (handleEvent wt event x).2.
Proof.
  unfold handleEvent. destruct (shouldIgnore _); [apply keeps_refl|]. destruct (filepath_Rel _ _) as [rel|]; [|apply keeps_refl].
  destruct (has_prefix _ _); [apply keeps_refl|]. destruct (bool_decide _); [apply keeps_refl|].
  destruct (ev_Create event); [apply keeps_handleCreate|]. destruct (ev_Write event).
  - destruct x as [w s]. unfold handleWrite. destruct (negb _); [apply keeps_refl|].
    destruct (os_Lstat _ _) as [info|]; [|apply keeps_refl]. destruct (is_dir info); [apply keeps_refl|apply keeps_schedule].
  - destruct (_ || _); apply keeps_refl.
Qed.

(** A change stays noted through every step until a worker takes its path: a full
    queue delays it, and neither other events nor an overflow of the event queue
    lose it. *)
Theorem noted_until_synced x y p :
  watch_step wt x y → noted p x.2 →
  noted p y.2 ∨ ∃ w s rest, x = (w, s) ∧ ws_queue s = p :: rest ∧ y = (syncFile wt p w, s <| ws_queue := rest |>).
Proof.
  destruct 1 as [event x Hs|x Hs|w s q due Hd Hdue Hlen|w s q rest Hq|w w' s Hnow]; intros Hn.
  - left. by apply keeps_event.
  - left. unfold rescan. eapply keeps_children. exact (keeps_addRecursive _ _ _ _ p Hn).
  - left. cbn in *. destruct Hn as [Hn|Hn]; [|right; cbn; apply elem_of_app; by left].
    destruct (decide (p = q)) as [->|]; [right; cbn; apply elem_of_app; right; by left|].
    left. cbn. by rewrite lookup_delete_ne.
  - destruct Hn as [Hn|Hn]; [left; by left|]. cbn in Hn. rewrite Hq in Hn. apply elem_of_cons in Hn as [->|Hn].
    + right. by exists w, s, rest.
    + left. by right.
  - by left.
Qed.
End schedule.

(** ** The fuel of the walks is enough *)

Lemma trim_prefix_app p t : trim_prefix p (p +:+ t) = t.
Proof.
  unfold trim_prefix. assert (has_prefix p (p +:+ t) = true) as ->.
  { unfold has_prefix. induction p as [|a p IH]; [by destruct t|]. 
    change ((if ascii_dec a a then String.prefix p (p +:+ t) else false) = true). by destruct (ascii_dec a a). }
  rewrite length_append. replace (String.length p + String.length t - String.length p)%nat with (String.length t) by lia.
  induction p as [|a p IH]; [apply substring_all|]. exact IH.
Qed.

Section fuel.
Context `{A : AEAD, SH : Sha256, CS : ChunkSize, U : Unicode}.
Variable wt : Watcher.

(** The paths of a file system are clean. *)
Definition fs_clean (fs : LocalFs) : Prop := ∀ k e, fs !! k = Some e → ∃ es, Forall name_ok es ∧ k = abs es.

Lemma walk_fuel_lt fs k e : fs !! k = Some e → (String.length k < walk_fuel fs)%nat.
Proof.
  intros Hk. unfold walk_fuel. apply Nat.lt_succ_r. revert Hk.
  apply (map_fold_weak_ind (λ n m, m !! k = Some e → (String.length k ≤ n)%nat)); [by rewrite lookup_empty|].
  intros j x m r Hj IH. destruct (decide (j = k)) as [->|].
  - rewrite lookup_insert_eq. lia.
  - rewrite lookup_insert_ne by done. intros H%IH. lia.
Qed.

Lemma abs_snoc_split es n : Forall name_ok es → abs (es ++ [n]) = (if decide (abs es = "/") then "/" else abs es +:+ "/") +:+ n.
Proof.
  intros Hes. destruct es as [|x es]; [done|]. rewrite decide_False.
  - unfold abs. rewrite join_snoc by done. by rewrite (append_assoc _ "/" n).
  - intros H. assert (join_with "/" (x :: es) = "") as H' by (by injection H). by apply join_eq_nil in H'.
Qed.

(** The entries of a directory are the paths one name longer. *)
Lemma ReadDir_entry fs es l n e :
  fs_clean fs → Forall name_ok es → os_ReadDir fs (abs es) = Ok l → (n, e) ∈ l →
  name_ok n ∧ fs !! abs (es ++ [n]) = Some e ∧ (String.length (abs es) < String.length (abs (es ++ [n])))%nat.
Proof.
  intros Hfs Hes. unfold os_ReadDir. destruct (os_Lstat fs (abs es)) as [[]|]; try done.
  intros [= <-]. rewrite elem_of_sql_order_by, list_elem_of_omap. intros ([k e'] & Hk & Hn).
  apply elem_of_map_to_list in Hk. cbn [fst snd] in Hn. unfold entry_name in Hn.
  set (prefix := if decide (abs es = "/") then "/" else abs es +:+ "/") in Hn.
  destruct (has_prefix prefix k) eqn:Hp; [|done]. apply has_prefix_app in Hp as [t ->]. rewrite trim_prefix_app in Hn.
  case_decide as Hne; [done|]. destruct (contains_char slash t) eqn:Hs; [done|]. injection Hn as -> ->. unfold prefix in *. clear prefix.
  destruct (Hfs _ _ Hk) as (es' & Hes' & He). rewrite <- (abs_snoc_split es n Hes) in Hk, He.
  assert (Forall (λ x, contains_char slash x = false) (es ++ [n])) as Hns
    by (apply Forall_app; split; [by apply name_ok_no_slash|by constructor]).
  assert (es' = es ++ [n]) as ->.
  { pose proof (f_equal (split_on slash) He) as Hsp. rewrite (split_abs (es ++ [n])) in Hsp by (done || by destruct es).
    destruct es' as [|x es']; [destruct es as [|? [|? ?]]; cbn in Hsp; simplify_eq/=|].
    rewrite split_abs in Hsp by (done || by apply name_ok_no_slash). by injection Hsp as ->. }
  apply Forall_app in Hes' as [_ Hn]. rewrite Forall_singleton in Hn. split; [done|]. split; [done|].
  rewrite (abs_snoc_split es n Hes), length_append. destruct n as [|a n]; [done|].
  case_decide as E0; [rewrite E0|rewrite length_append]; cbn; lia.
Qed.

Lemma foldl_ext_in {X Y} (f g : X → Y → X) l : (∀ x y, y ∈ l → f x y = g x y) → ∀ x, foldl f x l = foldl g x l.
Proof.
  induction l as [|y l IH]; intros H x; [done|]. cbn. rewrite H by left. apply IH. intros. apply H. by right.
Qed.

(** More fuel than [walk_fuel] changes nothing. *)
Lemma addRecursive_fuel w n1 : ∀ n2 es e s,
  fs_clean (wd_fs w) → Forall name_ok es → wd_fs w !! abs es = Some e →
  (walk_fuel (wd_fs w) ≤ n1 + String.length (abs es))%nat → (n1 ≤ n2)%nat →
  addRecursive wt n1 w (abs es) s = addRecursive wt n2 w (abs es) s.
Proof.
  induction n1 as [|n1 IH]; intros n2 es e s Hfs Hes He Hn Hle; [apply walk_fuel_lt in He; lia|].
  destruct n2 as [|n2]; [lia|]. cbn [addRecursive]. destruct (negb _); [done|]. destruct (_ || _); [done|].
  destruct (wt_add wt _ w); [done|]. destruct (os_ReadDir _ _) as [l|] eqn:Hl; [|done].
  apply foldl_ext_in. intros [[err|] s1] [n e'] Hin; [done|]. cbn [fst snd]. destruct (is_dir e'); [|done].
  destruct (ReadDir_entry _ _ _ _ _ Hfs Hes Hl Hin) as (Hok & Hf & Hlt). rewrite path_Join_abs by done.
  eapply IH; [done| |exact Hf|lia|lia]. apply Forall_app. split; [done|by constructor].
Qed.

Lemma foldl_ext_inv {X Y} (P : X → Prop) (f g : X → Y → X) l :
  (∀ x y, y ∈ l → P x → f x y = g x y ∧ P (g x y)) → ∀ x, P x → foldl f x l = foldl g x l.
Proof.
  induction l as [|y l IH]; intros H x Hx; [done|]. cbn. destruct (H x y ltac:(by left) Hx) as [-> Hg].
  apply IH; [|done]. intros. apply H; [by right|done].
Qed.

Lemma foldl_inv {X Y} (P : X → Prop) (f : X → Y → X) l : (∀ x y, P x → P (f x y)) → ∀ x, P x → P (foldl f x l).
Proof. intros H. induction l as [|y l IH]; intros x Hx; cbn; auto. Qed.

(** The watcher writes nothing into the sync folder. *)
Lemma handleCreate_fs n : ∀ p x, wd_fs (handleCreate wt n p x).1 = wd_fs x.1.
Proof.
  induction n as [|n IH]; intros p [w s]; [done|]. cbn [handleCreate]. destruct (negb _); [done|].
  destruct (os_Lstat _ _) as [info|]; [|done]. destruct (is_dir info); [|done]. cbv zeta.
  destruct (negb _); [done|]. destruct (path_inode _ _); [done|].
  destruct (run_db _ w) as [[id|] w1] eqn:Hu;
    (assert (wd_fs w1 = wd_fs w) as H1 by (unfold run_db in Hu; destruct (with_db _ _); by injection Hu as _ <-)); [|done].
  assert (wd_fs (wt_enqueue wt id "mkdir" (toRemotePath wt p) w1) = wd_fs w) as H2
    by (unfold wt_enqueue; by rewrite call_db_eq).
  destruct (os_ReadDir _ _) as [l|]; [|exact H2].
  apply (foldl_inv (λ y : World * WatchState, wd_fs y.1 = wd_fs w)); [|exact H2]. intros y [m e] Hy.
  destruct (_ || _); [done|]. destruct (is_dir _); [by rewrite IH|done].
Qed.

Lemma handleCreate_fuel n1 : ∀ n2 es e x,
  fs_clean (wd_fs x.1) → Forall name_ok es → wd_fs x.1 !! abs es = Some e →
  (walk_fuel (wd_fs x.1) ≤ n1 + String.length (abs es))%nat → (n1 ≤ n2)%nat →
  handleCreate wt n1 (abs es) x = handleCreate wt n2 (abs es) x.
Proof.
  induction n1 as [|n1 IH]; intros n2 es e [w s] Hfs Hes He Hn Hle; cbn [fst] in *; [apply walk_fuel_lt in He; lia|].
  destruct n2 as [|n2]; [lia|]. cbn [handleCreate]. destruct (negb _); [done|].
  destruct (os_Lstat _ _) as [info|]; [|done]. destruct (is_dir info); [|done]. cbv zeta.
  destruct (negb _); [done|]. destruct (path_inode _ _); [done|].
  destruct (run_db _ w) as [[id|] w1] eqn:Hu; [|done].
  assert (wd_fs w1 = wd_fs w) as H1 by (unfold run_db in Hu; destruct (with_db _ _); by injection Hu as _ <-).
  assert (wd_fs (wt_enqueue wt id "mkdir" (toRemotePath wt (abs es)) w1) = wd_fs w) as H2
    by (unfold wt_enqueue; by rewrite call_db_eq).
  rewrite H2. destruct (os_ReadDir _ _) as [l|] eqn:Hl; [|done].
  apply (foldl_ext_inv (λ y : World * WatchState, wd_fs y.1 = wd_fs w)); [|exact H2].
  intros y [m e'] Hin Hy. cbn [fst snd]. destruct (_ || _); [done|]. destruct (is_dir e'); [|done].
  destruct (ReadDir_entry _ _ _ _ _ Hfs Hes Hl Hin) as (Hok & Hf & Hlt). rewrite path_Join_abs by done.
  split; [|by rewrite handleCreate_fs]. eapply IH; rewrite ?Hy; [done| |exact Hf|lia|lia].
  apply Forall_app. split; [done|by constructor].
Qed.
End fuel.

(** A sync folder whose own name is ignored is not watched at all, and starting the
    watcher reports no error. *)
Lemma Start_ignored_root `{A : AEAD, SH : Sha256, CS : ChunkSize, U : Unicode} wt w s :
  shouldIgnore (path_Base (wt_syncDir wt)) = true → Start wt w s = (None, s).
Proof.
  intros H. unfold Start, walk_fuel. cbn [addRecursive]. destruct (negb _); [done|]. by rewrite H.
Qed.

(** ** Witnesses *)

#[local] Existing Instance ex_chunk_size | 0.
#[local] Existing Instance ex_unicode.

(** One file of a sync folder, changed here and on the server. *)
Definition ex_sync_fs : LocalFs := <["/sync" := FsDir 1]> (<["/sync/a.txt" := FsFile [x41; x42] (90 * second)]> ∅).
Definition ex_watcher : Watcher :=
  mkWatcher "/sync" "" (Some (2 ^ 30)) (λ _, ex_env)
    (λ p w, match os_Lstat (wd_fs w) p with Ok (FsFile c _) => Ok c | Ok _ => Err (ErrText "read") | Err e => Err e end)
    (λ _ _, None) ex_mk ex_un.
Definition ex_conflict_row : inode_row :=
  excluded_row 1 (mkInode 0 "a.txt" "a.txt" false 3 80 false true false 0 "" "" 0 "" "" "v1" 0 StatusConflict
                    "remote changed while local edits pending").
Definition ex_conflict_node : Node :=
  (NewFileNode "a.txt" "a.txt" 3 0 None) <| n_ID := 1 |> <| n_Dirty := true |> <| n_Etag := "v1" |>
    <| n_SyncStatus := StatusConflict |>.
Definition ex_conflict_world : World :=
  mkWorld (mkVFS "" (mkDB [ex_conflict_row] 1 [] 0 [] false false) ex_store0 false {[ 1%positive := ex_conflict_node ]}
             {[ 1 := 1%positive ]} true None 0 ∅) ex_sync_fs (100 * second) [] no_suppression.

Lemma ex_conflict_wf : db_wf (wd_db ex_conflict_world).
Proof. split; by apply (bool_decide_unpack _); vm_compute. Qed.

Lemma syncFile_tracks_witness :
  ∃ i, path_inode "a.txt" (syncFile ex_watcher "/sync/a.txt" ex_conflict_world) = Some i ∧ i_SyncStatus i = StatusPending ∧
    upload_queued 1 "a.txt" ex_conflict_world (syncFile ex_watcher "/sync/a.txt" ex_conflict_world).
Proof.
  pose proof (syncFile_tracks ex_watcher "/sync/a.txt" ex_conflict_world [x41; x42] (90 * second) ex_conflict_wf
    (conj eq_refl eq_refl) ltac:(vm_compute; reflexivity) eq_refl) as H. cbv zeta in H.
  assert (is_ok (put_file ex_watcher "/sync/a.txt" ex_conflict_world).1 = true) as Hok by (vm_compute; reflexivity).
  assert (toRemotePath ex_watcher "/sync/a.txt" = "a.txt") as Hp by (vm_compute; reflexivity). rewrite Hp in H.
  destruct (put_file ex_watcher "/sync/a.txt" ex_conflict_world).1 as [hash|e]; [|discriminate Hok].
  destruct H as [_ [(i & Hi & [_ Hs] & _)|(i & Hi & Hst & Hid & Hq)]].
  - exfalso. assert (i_SyncStatus <$> path_inode "a.txt" (run_evictor ex_watcher
      (put_file ex_watcher "/sync/a.txt" ex_conflict_world).2) = Some StatusConflict) as Hc by (vm_compute; reflexivity).
    rewrite Hi in Hc. cbn in Hc. congruence.
  - exists i. split; [exact Hi|]. split; [exact (proj1 (proj2 (proj2 (proj2 (proj2 (proj2 (proj2 Hst)))))))|].
    assert (i_ID <$> path_inode "a.txt" (syncFile ex_watcher "/sync/a.txt" ex_conflict_world) = Some 1) as Hone
      by (vm_compute; reflexivity).
    rewrite Hi in Hone. injection Hone as Hone. rewrite <- Hone at 1. exact Hq.
Defined.
