(* ===== verification/Poller.v ===== *)
(** * The poller

    [internal/mount/syncer/poller.go]: the periodic comparison of the listed
    directories with the server.  One listing is one step of the shared world;
    Go's range over a map is an order given as an argument. *)
From S2P Require Import Prelude GoLib GoFmt Table ApiErrors Crypto Hybrid Names TreeModel CacheDB CacheStore CacheEvict.
From S2P Require Import FileTypes LocalFs VfsNode VfsContent Writeback VfsTree Watcher.
Local Open Scope Z_scope.

(** The collaborators: the mount's, the loader of the node tree, the JSON encoder
    of identifiers, the removal of a local copy, the order of a range over the
    entries, and the time left of the context. *)
Record Poller : Type := mkPoller {
  po_mount : Mount;
  po_loadTree : World → option Tree;
  po_json_ids : list string → option string;
  po_EqualFold : string → string → bool;
  po_localDelete : option (string → World → World);
  po_range : list (string * ListEntry) → list (string * ListEntry);
  po_ctx_err : World → option error }.

(** Under [p.mu]. *)
Record PollState : Type := mkPollState { ps_online : bool; ps_lastPoll : option Z }.
Definition NewPollState : PollState := mkPollState true None.
Definition IsOnline (s : PollState) : bool := ps_online s.
Definition LastPoll (s : PollState) : option Z := ps_lastPoll s.

Definition plaintextSizeOf (entry : ListEntry) : Z * bool :=
  match le_PlaintextSize entry with Some n => (n, true) | None => (0, false) end.

Section poller.
Context `{U : Unicode, BL : Blake2b, A : AEAD, X : X25519, K : MLKEM, HK : Hkdf, SH : Sha256, CS : ChunkSize}.
Variable po : Poller.
Notation m := (po_mount po).

(** [addScope]: the identifiers of the children the tree knows. *)
Definition addScope (cycleTree : option Tree) (options : gmap string string) (remotePath : string)
    : gmap string string :=
  match cycleTree with
  | None => options
  | Some t =>
      let trimmed := trim slash remotePath in
      let scope parentID :=
        match po_json_ids po (TreeModel.n_ID <$> Children parentID t) with
        | Some encoded => <["scope_node_ids" := encoded]> options
        | None => options
        end in
      if decide (trimmed = "") then scope ""
      else match Resolve (po_EqualFold po) trimmed t with
           | Ok (Some node) => if TreeModel.n_IsDir node then scope (TreeModel.n_ID node) else options
           | _ => options
           end
  end.

(** ** One entry *)

Definition poll_remote_changed (existing : Node) (entry : ListEntry) : bool :=
  let '(newSize, haveSize) := plaintextSizeOf entry in
  let sizeChanged := haveSize && bool_decide (newSize ≠ n_Size existing) in
  let mtimeAdvanced := match modified_time m entry with Some t => bool_decide (n_Mtime existing < t) | None => false end in
  let etagChanged := bool_decide (n_Etag existing ≠ le_ETag entry) in
  if decide (n_Etag existing ≠ "" ∧ le_ETag entry ≠ "") then etagChanged
  else sizeChanged || mtimeAdvanced || etagChanged.

Definition locally_dirty (existing : Node) (w : World) : bool :=
  n_Dirty existing || match inode_or_nil (n_ID existing) w with Some i => i_Dirty i | None => false end.

(** An entry that has a node. *)
Definition poll_existing (l : loc) (entry : ListEntry) (w : World) : World :=
  let existing := node_at l w in
  let id := n_ID existing in
  let locallyDirty := locally_dirty existing w in
  let remoteChanged := poll_remote_changed existing entry in
  let conflict := locallyDirty && remoteChanged in
  let w :=
    if conflict then
      if decide (n_SyncStatus existing ≠ StatusConflict) then
        call_db (SetSyncStatus id StatusConflict remote_changed)
          (on_node l (λ nd, nd <| n_SyncStatus := StatusConflict |> <| n_StatusReason := remote_changed |>) w)
      else w
    else if negb locallyDirty && remoteChanged then
      let w := match plaintextSizeOf entry with
               | (newSize, true) => on_node l (λ nd, nd <| n_Size := newSize |>) w
               | _ => w end in
      let supersededHash := n_ContentHash existing in
      let w := on_node l (λ nd, nd <| n_Cached := false |> <| n_ContentHash := "" |>) w in
      let w := call_db (InvalidateCache id) w in
      let w := release_blob supersededHash id w in
      call_db (ClearSyncFailure id FailureDownload) w
    else w in
  let w := match modified_time m entry with
           | Some t => if conflict then w else on_node l (λ nd, nd <| n_Mtime := t |>) w
           | None => w end in
  if conflict then w
  else call_db (SetRemoteVersion id (le_ETag entry)) (on_node l (λ nd, nd <| n_Etag := le_ETag entry |>) w).

Definition polled_node (parent : loc) (name childPath : string) (entry : ListEntry) (w : World) : Node :=
  let node :=
    if decide (le_Type entry = "directory") then NewDirNode name childPath (Some parent) (wd_now w)
    else NewFileNode name childPath (plaintextSizeOf entry).1 (default (wd_now w) (modified_time m entry)) (Some parent) in
  node <| n_Etag := le_ETag entry |>.

Definition polled_inode (node : Node) (parentID : Z) : Inode :=
  mkInode 0 (n_RemotePath node) (n_Name node) (n_IsDir node) (n_Size node) (Unix (n_Mtime node)) false false false 0
    "" "" 0 "" "" (n_Etag node) parentID StatusSynced "".

(** An entry that has none. *)
Definition poll_new (parent : loc) (name : string) (entry : ListEntry) (w : World) : World :=
  let childPath := joinPath (n_RemotePath (node_at parent w)) name in
  let node := polled_node parent name childPath entry w in
  let '(id, w) := upsert_id (polled_inode node (n_ID (node_at parent w))) w in
  let '(l, w) := alloc (node <| n_ID := id |>) w in
  let w := attach_child parent l w in
  if n_IsDir node then (Readdir m l w).2 else w.

Definition poll_entry (parent : loc) (children : gmap string loc) (x : string * ListEntry) (w : World) : World :=
  match children !! x.1 with
  | Some l => poll_existing l x.2 w
  | None => poll_new parent x.1 x.2 w
  end.

(** ** Entries that are gone *)

Definition poll_gone (parent : loc) (x : string * loc) (w : World) : World :=
  let child := node_at x.2 w in
  if locally_dirty child w then w else
  let w := on_vfs (DetachChild parent x.1) w in
  let w := match po_localDelete po with Some f => f (n_RemotePath child) w | None => w end in
  let w := release_blob (n_ContentHash child) (n_ID child) w in
  call_db (DeleteInode (n_RemotePath child)) w.

(** ** One directory and those below it *)

(** The entries by name, the last of a name winning, and whether a name could not
    be opened. *)
Fixpoint remote_entries (entries : list ListEntry) (acc : gmap string ListEntry * bool) : gmap string ListEntry * bool :=
  match entries with
  | [] => acc
  | entry :: rest =>
      let name := decryptName m (le_E2EEDisplayName entry) in
      let acc :=
        if decide (name = "(encrypted)" ∨ (name = "" ∧ le_E2EEDisplayName entry ≠ "")) then (acc.1, true)
        else if decide (name = "") then acc
        else if IsExcludedDir name then acc
        else (<[name := entry]> acc.1, acc.2) in
      remote_entries rest acc
  end.

(** One listing: the entries on success. *)
Definition poll_list (cycleTree : option Tree) (parent : loc) (w : World)
    : result error (gmap string ListEntry * bool) * World :=
  let remotePath := n_RemotePath (node_at parent w) in
  let source := if decide (remotePath = "") then "/" else "/" +:+ remotePath in
  let options : gmap string string := {[ "source" := source ]} in
  let options := Writeback.addPathTokens (m_json_map m) (m_NameKey m) options remotePath in
  let options := addScope cycleTree options remotePath in
  match m_Execute m "ls" options w with
  | (Err err, w) => (Err (ErrWrap ("poll " +:+ source) err), w)
  | (Ok resp, w) =>
      if negb (Success resp) then (Err (ErrText ("poll " +:+ source +:+ ": " +:+ Message resp)), w)
      else match m_entries m (Raw resp) with
           | Err err => (Err (ErrWrap "parse poll response" err), w)
           | Ok entries => (Ok (remote_entries entries (∅, false)), w)
           end
  end.

(** The children against the listing. *)
Definition poll_children (parent : loc) (remote : gmap string ListEntry) (decryptFailed : bool) (w : World) : World :=
  let children := children_of parent (wd_nodes w) in
  let w := foldl (λ w x, poll_entry parent children x w) w (po_range po (map_to_list remote)) in
  if decryptFailed then w
  else foldl (λ w x, poll_gone parent x w) w (m_range m (map_to_list (filter (λ x, remote !! x.1 = None) children))).

Fixpoint pollRecursive (fuel : nat) (cycleTree : option Tree) (parent : loc) (w : World) : option error * World :=
  match fuel with
  | O => (Some out_of_fuel, w)
  | S fuel =>
      match po_ctx_err po w with
      | Some err => (Some err, w)
      | None =>
          if negb (n_Loaded (node_at parent w)) then (None, w) else
          match poll_list cycleTree parent w with
          | (Err err, w) => (Some err, w)
          | (Ok (remote, decryptFailed), w) =>
              let w := poll_children parent remote decryptFailed w in
              foldl (λ x e,
                match x with
                | (Some err, w) => (Some err, w)
                | (None, w) =>
                    match GetChild parent e.1 (wd_nodes w) with
                    | Some child =>
                        if n_IsDir (node_at child w) && n_Loaded (node_at child w)
                        then pollRecursive fuel cycleTree child w else (None, w)
                    | None => (None, w)
                    end
                end) (None, w) (po_range po (map_to_list remote))
          end
      end
  end.

Definition poll (fuel : nat) (x : World * PollState) : World * PollState :=
  let '(w, s) := x in
  let '(err, w) := pollRecursive fuel (po_loadTree po w) (m_Root m) w in
  let s := match err with
           | Some _ => mkPollState false (ps_lastPoll s)
           | None => mkPollState true (Some (wd_now w)) end in
  (on_vfs (λ v, v <| v_Online := ps_online s |>) w, s).
End poller.

(** ** What a poll does to a file that is known *)

Section entry.
Context `{U : Unicode, BL : Blake2b, A : AEAD, X : X25519, K : MLKEM, HK : Hkdf, SH : Sha256, CS : ChunkSize}.
Variable po : Poller.

Lemma wd_db_release_blob hash id w : wd_db (VfsTree.release_blob hash id w) = wd_db w.
Proof. done. Qed.
Lemma wd_nodes_release_blob hash id w : wd_nodes (VfsTree.release_blob hash id w) = wd_nodes w.
Proof. done. Qed.

Lemma wd_nodes_on_node l f w : wd_nodes (on_node l f w) !! l = f <$> (wd_nodes w !! l).
Proof. unfold wd_nodes, on_node, with_node, update_node. cbn. by rewrite lookup_alter_eq. Qed.
Lemma node_at_lookup l w nd : wd_nodes w !! l = Some nd → node_at l w = nd.
Proof. unfold node_at. by intros ->. Qed.

Lemma inode_or_nil_row id w row :
  closed (wd_db w) = false → row_of id (wd_db w) = Some row → inode_or_nil id w = Some (scanInodeRow row).
Proof. intros Hc Hr. unfold inode_or_nil. by rewrite GetInode_row, Hr by done. Qed.

(** Steps that change the node [l], the row [id], and neither the queue nor
    whether the database is open. *)
Record shifts (l : loc) (id : Z) (fn : Node → Node) (fr : inode_row → inode_row) (w w' : World) : Prop := {
  mv_open : closed (wd_db w') = false;
  mv_queue : writeback_queue (wd_db w') = writeback_queue (wd_db w);
  mv_node : wd_nodes w' !! l = fn <$> (wd_nodes w !! l);
  mv_row : row_of id (wd_db w') = fr <$> row_of id (wd_db w) }.

Lemma shifts_refl l id w : closed (wd_db w) = false → shifts l id (λ x, x) (λ x, x) w w.
Proof. intros Hc. split; [done|done|by destruct (wd_nodes w !! l)|by destruct (row_of id (wd_db w))]. Qed.
Lemma shifts_on_node l id fn fr f w w' : shifts l id fn fr w w' → shifts l id (λ x, f (fn x)) fr w (on_node l f w').
Proof. intros [Hc Hq Hn Hr]. split; [done|done| |done]. rewrite wd_nodes_on_node, Hn. by destruct (wd_nodes w !! l). Qed.
Lemma shifts_update l id fn fr f w w' :
  (∀ r, c_id (f r) = c_id r) → shifts l id fn fr w w' → shifts l id fn (λ x, f (fr x)) w (call_db (update_inode id f) w').
Proof.
  intros Hf [Hc Hq Hn Hr]. split; rewrite ?wd_db_call, ?wd_nodes_call; [by rewrite ui_closed| |done|].
  - by rewrite ui_queue.
  - rewrite ui_row, Hr by done. by destruct (row_of id (wd_db w)).
Qed.
Lemma shifts_failure l id fn fr f w w' :
  shifts l id fn fr w w' → shifts l id fn fr w (call_db (exec_ (on_failures f)) w').
Proof.
  intros [Hc Hq Hn Hr]. split; rewrite ?wd_db_call, ?wd_nodes_call; [by rewrite sf_closed|by rewrite sf_queue|done|by rewrite sf_row].
Qed.
Lemma shifts_release l id fn fr hash id' w w' :
  shifts l id fn fr w w' → shifts l id fn fr w (VfsTree.release_blob hash id' w').
Proof. intros [Hc Hq Hn Hr]. by split. Qed.
#[local] Hint Resolve shifts_refl shifts_on_node shifts_update shifts_failure shifts_release : shifts.

(** The outcome for a node and its row, by whether the file is edited here and
    changed there. *)
Definition polled (dirty changed : bool) (entry : ListEntry) (nd nd' : Node) (row row' : inode_row) : Prop :=
  n_Dirty nd' = n_Dirty nd ∧ n_Data nd' = n_Data nd ∧ n_RemotePath nd' = n_RemotePath nd ∧
  c_dirty row' = c_dirty row ∧ c_remote_path row' = c_remote_path row ∧
  match dirty, changed with
  | true, true => n_SyncStatus nd' = StatusConflict ∧ n_Etag nd' = n_Etag nd ∧ n_Mtime nd' = n_Mtime nd ∧
      (if decide (n_SyncStatus nd = StatusConflict) then nd' = nd ∧ row' = row
       else row' = row <| c_sync_status := StatusConflict |> <| c_status_reason := remote_changed |>)
  | true, false => n_ContentHash nd' = n_ContentHash nd ∧ n_Cached nd' = n_Cached nd ∧ n_Etag nd' = le_ETag entry ∧
      n_SyncStatus nd' = n_SyncStatus nd ∧ row' = row <| c_etag := le_ETag entry |>
  | false, true => n_Cached nd' = false ∧ n_ContentHash nd' = "" ∧ n_Etag nd' = le_ETag entry ∧
      row' = invalidate_row row <| c_etag := le_ETag entry |>
  | false, false => n_ContentHash nd' = n_ContentHash nd ∧ n_Cached nd' = n_Cached nd ∧ n_Etag nd' = le_ETag entry ∧
      row' = row <| c_etag := le_ETag entry |>
  end.

(** What a poll does with a known file, whatever was found to have changed. *)
Lemma poll_existing_polled l entry w nd row :
  db_open w → wd_nodes w !! l = Some nd → row_of (n_ID nd) (wd_db w) = Some row →
  let w' := poll_existing po l entry w in
  closed (wd_db w') = false ∧ writeback_queue (wd_db w') = writeback_queue (wd_db w) ∧
  ∃ nd' row', wd_nodes w' !! l = Some nd' ∧ row_of (n_ID nd) (wd_db w') = Some row' ∧
    polled (n_Dirty nd || c_dirty row) (poll_remote_changed po nd entry) entry nd nd' row row'.
Proof.
  intros [Hc _] Hl Hr. cbv zeta.
  enough (∃ fn fr, shifts l (n_ID nd) fn fr w (poll_existing po l entry w) ∧
    polled (n_Dirty nd || c_dirty row) (poll_remote_changed po nd entry) entry nd (fn nd) row (fr row))
    as (fn & fr & [Hc' Hq Hn Hrow] & Hp).
  { split; [done|]. split; [done|]. exists (fn nd), (fr row). by rewrite Hn, Hrow, Hl, Hr. }
  unfold poll_existing, locally_dirty. rewrite (node_at_lookup _ _ _ Hl), (inode_or_nil_row _ _ _ Hc Hr).
  cbn [scanInodeRow i_Dirty]. generalize (poll_remote_changed po nd entry). intros changed.
  unfold InvalidateCache, ClearSyncFailure, SetRemoteVersion, SetSyncStatus.
  destruct (n_Dirty nd || c_dirty row), changed; cbn [andb negb]; cbv zeta.
  - destruct (modified_time _ entry); case_decide as Hst; eexists _, _; (split; [eauto 20 with shifts|]);
      split_and!; try done; destruct (decide (n_SyncStatus nd = StatusConflict)); naive_solver.
  - destruct (modified_time _ entry); eexists _, _; (split; [eauto 20 with shifts|]); by split_and!.
  - destruct (plaintextSizeOf entry) as [n []], (modified_time _ entry); eexists _, _; (split; [eauto 20 with shifts|]);
      by split_and!.
  - destruct (modified_time _ entry); eexists _, _; (split; [eauto 20 with shifts|]); by split_and!.
Qed.

(** A poll compares each known file with the server's entry and never gives up
    an edit.  Whether the remote file changed is told by the versions when both
    are known, else by size, time or version.  An edited file that changed there
    too is put in conflict, once, and keeps the version it is based on; an edited
    file that did not change keeps its content.  A clean file that changed loses
    its cached content, and with every outcome but a conflict the new version is
    recorded.  The writeback queue is not touched. *)
Theorem poll_existing_spec l entry w nd row :
  db_open w → wd_nodes w !! l = Some nd → row_of (n_ID nd) (wd_db w) = Some row →
  let dirty := n_Dirty nd || c_dirty row in
  let changed := poll_remote_changed po nd entry in
  let w' := poll_existing po l entry w in
  (changed = true ↔
     if decide (n_Etag nd ≠ "" ∧ le_ETag entry ≠ "") then n_Etag nd ≠ le_ETag entry
     else (∃ n, le_PlaintextSize entry = Some n ∧ n ≠ n_Size nd) ∨
          (∃ t, modified_time (po_mount po) entry = Some t ∧ n_Mtime nd < t) ∨ n_Etag nd ≠ le_ETag entry) ∧
  writeback_queue (wd_db w') = writeback_queue (wd_db w) ∧
  ∃ nd' row', wd_nodes w' !! l = Some nd' ∧ row_of (n_ID nd) (wd_db w') = Some row' ∧
    polled dirty changed entry nd nd' row row'.
Proof.
  intros Ho Hl Hr. cbv zeta. split; [|apply (poll_existing_polled l entry w nd row Ho Hl Hr)].
  unfold poll_remote_changed, plaintextSizeOf.
    destruct (le_PlaintextSize entry), (modified_time _ entry); cbn [andb orb];
      (case_decide; [by rewrite bool_decide_eq_true|]); rewrite ?orb_true_iff, !bool_decide_eq_true; naive_solver.
Qed.

(** ** Conflicts the queue does not see *)

(** An upload of inode [id] waits, and the next batch will not hold it back. *)
Definition upload_free (id : Z) (w : World) : Prop :=
  ∃ e, e ∈ writeback_queue (wd_db w) ∧ waiting_upload id e ∧ heldByConflict e w = false.

Lemma upload_free_row id path w i :
  db_wf (wd_db w) → closed (wd_db w) = false → path_inode path w = Some i → i_ID i = id →
  i_SyncStatus i ≠ StatusConflict → (∃ e, e ∈ writeback_queue (wd_db w) ∧ waiting_upload id e) → upload_free id w.
Proof.
  intros Hwf Hc Hi Hid Hs (e & Hin & He). exists e. split; [done|]. split; [done|]. destruct He as (Hw & Ha & _).
  unfold heldByConflict. rewrite Ha, Hw, <- Hid, (path_inode_GetInode _ _ _ Hwf Hc Hi).
  rewrite (bool_decide_false (i_SyncStatus i = StatusConflict)) by done. apply andb_false_r.
Qed.

Lemma attach_child_db parent l w : wd_db (attach_child parent l w) = wd_db w.
Proof.
  unfold attach_child, wd_db, on_vfs. cbn. rewrite (proj1 (track_frame l _)). unfold add_child, on_vfs. cbn.
  by destruct (AddChild _ _ _).
Qed.

Lemma poll_new_file parent name entry w :
  le_Type entry ≠ "directory" → db_wf (wd_db w) → db_open w →
  let path := joinPath (n_RemotePath (node_at parent w)) name in
  ∃ w1, wd_db (poll_new po parent name entry w) = wd_db w1 ∧ db_wf (wd_db w1) ∧ db_open w1 ∧
    writeback_queue (wd_db w1) = writeback_queue (wd_db w) ∧
    ∀ old, path_inode path w = Some old → ∃ i, path_inode path w1 = Some i ∧ i_ID i = i_ID old ∧
      i_Dirty i = i_Dirty old ∧ i_SyncStatus i = StatusSynced ∧ i_ContentHash i = "" ∧
      i_Etag i = coalesce_text (le_ETag entry) (i_Etag old).
Proof.
  intros Ht Hwf Ho path. unfold poll_new. fold path. set (node := polled_node po parent name path entry w).
  assert (n_IsDir node = false ∧ n_RemotePath node = path ∧ n_Etag node = le_ETag entry) as (Hd & Hp & He)
    by (unfold node, polled_node; by rewrite decide_False).
  destruct (upsert_path (polled_inode node (n_ID (node_at parent w))) w Hwf Ho)
    as (id & w1 & Hu & Hwf1 & Ho1 & _ & Hq1 & Hi). unfold upsert_id. rewrite Hu. cbv zeta.
  exists w1. rewrite Hd. destruct (alloc (node <| n_ID := id |>) w1) as [l w2] eqn:Ha.
  assert (wd_db w2 = wd_db w1) as Hdb2 by (unfold alloc in Ha; by injection Ha as _ <-).
  rewrite attach_child_db, Hdb2. split; [done|]. split; [done|]. split; [done|]. split; [done|].
  cbn [i_RemotePath polled_inode] in Hi. rewrite Hp in Hi. intros old Hold. rewrite Hold in Hi.
  destruct Hi as (-> & i & Hpi & Hid & Hdi & _ & Hch & _ & _ & _ & Hst & _ & Het). exists i.
  split; [done|]. split; [done|]. split; [by rewrite Hdi, orb_false_r|]. split; [done|]. split; [done|].
  by rewrite Het, <- He.
Qed.

(** A poll that discovers a remote file under the name of a new local file
    hides the collision.  The local file's row is dirty and its upload waits; the
    poll marks the row synchronised with the discovered version, so nothing holds
    the upload back, and the remote file is replaced without a conflict. *)
Theorem poll_hides_collision parent name entry children w old :
  children !! name = None → le_Type entry ≠ "directory" → db_wf (wd_db w) → db_open w →
  let path := joinPath (n_RemotePath (node_at parent w)) name in
  path_inode path w = Some old → i_Dirty old = true →
  (∃ e, e ∈ writeback_queue (wd_db w) ∧ waiting_upload (i_ID old) e) →
  let w' := poll_entry po parent children (name, entry) w in
  upload_free (i_ID old) w' ∧
  ∃ i, path_inode path w' = Some i ∧ i_Dirty i = true ∧ i_SyncStatus i = StatusSynced ∧
    (le_ETag entry ≠ "" → i_Etag i = le_ETag entry).
Proof.
  intros Hch Ht Hwf Ho path Hold Hd Hq. cbv zeta. unfold poll_entry. cbn [fst snd]. rewrite Hch.
  destruct (poll_new_file parent name entry w Ht Hwf Ho) as (w1 & Hdb & Hwf1 & [Hc1 Hw1] & Hq1 & Hi). cbv zeta in Hi. fold path in Hi.
  destruct (Hi old Hold) as (i & Hpi & Hid & Hdi & Hst & _ & Het).
  assert (path_inode path (poll_new po parent name entry w) = Some i) as Hpi' by (unfold path_inode in *; by rewrite Hdb).
  split.
  - eapply upload_free_row; [by rewrite Hdb|by rewrite Hdb|exact Hpi'|done|by rewrite Hst|by rewrite Hdb, Hq1].
  - exists i. split; [done|]. split; [by rewrite Hdi|]. split; [done|]. intros Hne. rewrite Het.
    unfold coalesce_text. by rewrite decide_False.
Qed.

(** C35: Saving a conflicting file again releases its upload, and no poll takes it
    back.  The file's row and node are in conflict; the worker stores the saved
    content, makes the row pending and queues an upload; a poll still sees the
    remote change, but the node already says conflict, so the row stays pending.
    The upload is not held and will replace the remote file. *)
Theorem conflict_released_by_save wt p content mt reason hash l nd old entry w w0 :
  db_wf (wd_db w) → db_open w → wt_safe wt w p = true → os_Lstat (wd_fs w) p = Ok (FsFile content mt) →
  ValidateFile (path_Base p) (blen content) = (true, reason) → put_file wt p w = (Ok hash, w0) →
  path_inode (toRemotePath wt p) w = Some old → i_SyncStatus old = StatusConflict → i_Dirty old = true →
  wd_nodes w !! l = Some nd → n_ID nd = i_ID old → n_SyncStatus nd = StatusConflict →
  n_Etag nd ≠ "" → le_ETag entry ≠ "" → n_Etag nd ≠ le_ETag entry →
  heldByConflict (mkWritebackEntry 0 (i_ID old) "upload" "" "" 0 0 "" "pending") w = true ∧
  let w' := poll_existing po l entry (syncFile wt p w) in
  upload_free (i_ID old) w' ∧
  ∃ i, path_inode (toRemotePath wt p) w' = Some i ∧ i_SyncStatus i = StatusPending ∧ i_ContentHash i = hash ∧ i_Etag i = i_Etag old.
Proof.
  intros Hwf Ho Hs Hl Hv Hput Hold Hconf Hd Hnd Hid Hns He1 He2 Hne. pose proof (proj1 Ho) as Hc. split.
  { unfold heldByConflict. cbn. rewrite (path_inode_GetInode _ _ _ Hwf Hc Hold).
    by rewrite (bool_decide_true (i_SyncStatus old = StatusConflict)). }
  cbv zeta. rewrite (syncFile_regular wt _ _ _ _ Hs Hl), Hput, Hv.
  destruct (put_file_frame wt p w) as (Hdb & Hn & Hb). rewrite Hput in Hdb, Hn, Hb. cbn [snd] in *.
  assert (db_wf (wd_db w0) ∧ db_open w0) as [Hwf0 Ho0] by (unfold db_open; by rewrite Hdb).
  destruct (run_evictor_frame wt w0 Hwf0 Ho0) as (Hwf1 & Ho1 & Hq1 & [Hb1 Hn1] & Hkeep). cbv zeta in *.
  set (w1 := run_evictor wt w0) in *. set (path := toRemotePath wt p) in *.
  assert (path_inode path w1 = Some old) as Hold1 by (apply Hkeep; [unfold path_inode in *; by rewrite Hdb|done]).
  destruct (Hn1 l nd) as (nd1 & Hnd1 & Hst1 & Het1 & _ & Hid1); [by rewrite Hn|].
  destruct (sync_stored_spec wt path (path_Base p) hash (FsFile content mt) (true, reason) w1 Hwf1 Ho1)
    as (Hwf2 & [Hc2 _] & Hn2 & i & Hi & (Hdi & _ & Hch & _ & _ & _ & Hsi & _) & Hident & Hq).
  { rewrite Hold1. intros ? [= <-] [_ Hsy]. congruence. }
  rewrite Hold1 in Hident. destruct Hident as [Hidi Heti]. cbn [fst] in *.
  set (w2 := sync_stored wt path _ hash _ _ w1) in *.
  assert (poll_existing po l entry w2 = w2) as ->.
  { unfold poll_existing, locally_dirty. rewrite (node_at_lookup l w2 nd1) by (by rewrite Hn2).
    unfold inode_or_nil. rewrite Hid1, Hid, <- Hidi, (path_inode_GetInode _ _ _ Hwf2 Hc2 Hi), Hdi, orb_true_r.
    assert (poll_remote_changed po nd1 entry = true) as ->.
    { unfold poll_remote_changed. destruct (plaintextSizeOf entry). rewrite Het1, decide_True by done. by apply bool_decide_eq_true. }
    cbn [andb]. rewrite Hst1, Hns. destruct (modified_time _ entry); by case_decide. }
  split.
  - eapply upload_free_row; [done|done|exact Hi|done|by rewrite Hsi|].
    destruct Hq as (e & He & _ & Hq). exists e. rewrite Hq, <- Hidi. split; [|done]. apply elem_of_app. right. by left.
  - exists i. by rewrite Heti.
Qed.
End entry.

(** ** Witnesses *)

#[local] Existing Instance ex_chunk_size | 0.
#[local] Existing Instance ex_unicode.

Definition ex_poller : Poller :=
  mkPoller (ex_mount true []) (λ _, None) (λ _, None) (λ a b, bool_decide (a = b)) None id (λ _, None).

Lemma poll_existing_spec_witness :
  ∃ nd' row', wd_nodes (poll_existing ex_poller 1 (ex_listed "a.txt" "file" "v2" None) ex_conflict_world) !! 1%positive = Some nd' ∧
    polled true true (ex_listed "a.txt" "file" "v2" None) ex_conflict_node nd' ex_conflict_row row'.
Proof.
  destruct (poll_existing_spec ex_poller 1 (ex_listed "a.txt" "file" "v2" None) ex_conflict_world ex_conflict_node
    ex_conflict_row (conj eq_refl eq_refl) eq_refl eq_refl) as (_ & _ & nd' & row' & Hn & _ & Hp).
  exists nd', row'. split; [exact Hn|]. exact Hp.
Defined.

(** A new local file whose upload waits, and a remote file of the same name. *)
Definition ex_new_file_world : World :=
  mkWorld (mkVFS "" (mkDB [excluded_row 1 (mkInode 0 "b.txt" "b.txt" false 3 80 true true false 0 "c4ca" "" 0 "" "" "" 0 StatusPending "")]
                       1 [mkWritebackEntry 1 1 "upload" "b.txt" "{key" 50 0 "" "pending"] 1 [] false false)
             ex_store0 false {[ 1%positive := (NewRootNode "" 0) <| n_Loaded := true |> ]} ∅ true None 0 ∅) ex_sync_fs (100 * second) []
    no_suppression.

Lemma poll_hides_collision_witness :
  upload_free 1 (poll_entry ex_poller 1 ∅ ("b.txt", ex_listed "b.txt" "file" "v7" (Some 5)) ex_new_file_world).
Proof.
  destruct (poll_hides_collision ex_poller 1 "b.txt" (ex_listed "b.txt" "file" "v7" (Some 5)) ∅ ex_new_file_world
    (mkInode 1 "b.txt" "b.txt" false 3 80 true true false 0 "c4ca" "" 0 "" "" "" 0 StatusPending "")) as [H _];
    [reflexivity|discriminate| |by split|reflexivity|reflexivity| |exact H].
  - split; by apply (bool_decide_unpack _); vm_compute.
  - eexists. split; [left; reflexivity|]. by split_and!.
Defined.

Lemma conflict_released_by_save_witness :
  heldByConflict (mkWritebackEntry 0 1 "upload" "" "" 0 0 "" "pending") ex_conflict_world = true ∧
  upload_free 1 (poll_existing ex_poller 1 (ex_listed "a.txt" "file" "v2" None)
                   (syncFile ex_watcher "/sync/a.txt" ex_conflict_world)).
Proof.
  assert (is_ok (put_file ex_watcher "/sync/a.txt" ex_conflict_world).1 = true) as Hok by (vm_compute; reflexivity).
  destruct (put_file ex_watcher "/sync/a.txt" ex_conflict_world) as [[hash|e] w0] eqn:Hput; [|discriminate Hok].
  destruct (conflict_released_by_save ex_poller ex_watcher "/sync/a.txt" [x41; x42] (90 * second) "" hash 1 ex_conflict_node
    (scanInodeRow ex_conflict_row) (ex_listed "a.txt" "file" "v2" None) ex_conflict_world w0) as [H1 [H2 _]];
    [exact ex_conflict_wf|by split|vm_compute; reflexivity|vm_compute; reflexivity|vm_compute; reflexivity|exact Hput
    |vm_compute; reflexivity|reflexivity|reflexivity|reflexivity|reflexivity|reflexivity|discriminate|discriminate
    |discriminate|by split].
Defined.
