(* ===== verification/Downloader.v ===== *)
(** * The downloader of the sync folder

    [internal/mount/syncer/downloader.go] and [downloader_local.go]: which remote
    files are fetched, when a local file may be replaced, what a finished
    download records, the first synchronisation, and the removal of local copies.
    A dispatched download runs where it is dispatched; what the user, the server
    and the other goroutines do meanwhile is the effect of [dl_fetchFile] on the
    world.  A link is never followed: [os.Stat] of a link sees the link. *)
From S2P Require Import Prelude GoLib GoFmt Table ApiErrors Crypto Hybrid Names CacheDB CacheStore CacheEvict.
From S2P Require Import FileTypes LocalFs VfsNode VfsContent Writeback VfsTree Watcher Poller.
Local Open Scope Z_scope.

Definition MaxInMemoryDownloadSize : Z := 600 * 1024 * 1024.

(** What a fetch delivers: the plaintext and the fields of the answer that are
    kept. *)
Record Fetched : Type := mkFetched { ft_plaintext : bytes; ft_SealedKey : string; ft_EncryptionMeta : string }.

(** The failures of publishing a file: its directory, the temporary file, the
    rename and the times. *)
Record publish_faults : Type := mkPublishFaults {
  pf_mkdir : option error; pf_temp : option error; pf_rename : option error; pf_chtimes : bool }.

(** [dl_SameFile before after p] is [os.SameFile] of two looks at [p]. *)
Record Downloader : Type := mkDownloader {
  dl_mount : Mount; dl_syncDir : string; dl_remotePath : string; dl_hasStore : bool; dl_activity : bool;
  dl_fetchFile : string → World → result error Fetched * World;
  dl_SameFile : LocalFs → LocalFs → string → bool;
  dl_faults : World → publish_faults;
  dl_ctx_err : World → option error;
  dl_Error : error → string }.

(** ** Suppressed paths *)

(** [suppress.Store(p, true)], and [time.AfterFunc(d, ... Delete(p))]. *)
Definition suppress_store (p : string) (w : World) : World :=
  w <| wd_suppress := mkSuppression ({[p]} ∪ sp_paths (wd_suppress w)) (sp_timers (wd_suppress w)) |>.
Definition suppress_after (p : string) (d : Z) (w : World) : World :=
  w <| wd_suppress := mkSuppression (sp_paths (wd_suppress w)) (sp_timers (wd_suppress w) ++ [(wd_now w + d, p)]) |>.
Definition SuppressPath (p : string) (d : Z) (w : World) : World := suppress_after p d (suppress_store p w).
(** The timers that are due run. *)
Definition run_timers (w : World) : World :=
  let s := wd_suppress w in
  w <| wd_suppress := mkSuppression
         (foldl (λ ps t, if decide (t.1 ≤ wd_now w) then ps ∖ {[t.2]} else ps) (sp_paths s) (sp_timers s))
         (filter (λ t, ¬ t.1 ≤ wd_now w) (sp_timers s)) |>.

(** ** The local file system *)

(** [os.MkdirAll]: the missing directories on the way to a clean absolute path. *)
Fixpoint mkdir_all (fs : LocalFs) (now : Z) (current : string) (parts : list string) : result error LocalFs :=
  match parts with
  | [] => Ok fs
  | part :: rest =>
      let current := path_Join current part in
      match fs !! current with
      | None => mkdir_all (<[current := FsDir now]> fs) now current rest
      | Some (FsDir _) => mkdir_all fs now current rest
      | Some _ => Err (ErrText "not a directory")
      end
  end.
Definition os_MkdirAll (fs : LocalFs) (now : Z) (p : string) : result error LocalFs :=
  mkdir_all fs now "/" (path_elems p).

(** [os.Rename]: an entry moves with everything below it, over what is at the
    target, but not into itself nor where the target cannot be looked at. *)
Definition moved_key (src dst k : string) : string :=
  if decide (k = src) then dst else if has_prefix (src +:+ "/") k then dst +:+ trim_prefix src k else k.
Definition os_Rename (fs : LocalFs) (src dst : string) : result error LocalFs :=
  match os_Lstat fs src with
  | Err e => Err e
  | Ok _ =>
      if has_prefix (src +:+ "/") dst then Err (ErrText "invalid argument")
      else if match fs !! dst with Some FsDenied => true | _ => false end then Err (ErrSentinel FsErrPermission) else
      let stays x := moved_key src dst x = x in
      Ok (map_fold (λ k e m, if decide (stays k) then m else <[moved_key src dst k := e]> m)
            (filter (λ x, stays x.1) fs) fs)
  end.

(** [filepath.Join] of several elements. *)
Definition filepath_Join (l : list string) : string :=
  match filter (λ x, x ≠ "") l with [] => "" | l => path_Clean (join_with "/" l) end.

(** ** The state of a local file *)

Record localDownloadState : Type := mkLocalState { ls_info : option fs_entry; ls_hash : string }.

Section local.
Context `{SH : Sha256}.

Definition readLocalDownloadState (fs : LocalFs) (p : string) : result error localDownloadState :=
  match os_Lstat fs p with
  | Err e => if IsNotExist e then Ok (mkLocalState None "") else Err e
  | Ok (FsFile content mtime) => Ok (mkLocalState (Some (FsFile content mtime)) (sha256_hex content))
  | Ok _ => Err (ErrText "local target is not a regular file")
  end.

Definition sameLocalDownloadState (same : bool) (before after : localDownloadState) : bool :=
  match ls_info before, ls_info after with
  | Some b, Some a => same && bool_decide (ls_hash before = ls_hash after) &&
      bool_decide (info_mtime b = info_mtime a) && bool_decide (info_size b = info_size a)
  | None, None => true
  | _, _ => false
  end.
End local.

Definition differs_from_baseline : string := "local content differs from the synchronized baseline".
Definition pending_changes : string := "local file cannot be replaced while local changes are pending".
Definition folder_changed : string := "local folder changed while remote content was downloading".
Definition file_changed : string := "local file changed while remote content was downloading".
Definition no_common_baseline : string :=
  "local and remote files share a name without a synchronized content baseline".
Definition unverified : string := "local file could not be verified before downloading".
Definition both_differ : string := "local and remote content both differ from the synchronized baseline".

Section downloader.
Context `{U : Unicode, BL : Blake2b, A : AEAD, X : X25519, K : MLKEM, HK : Hkdf, SH : Sha256, CS : ChunkSize}.
Variable d : Downloader.
Notation m := (dl_mount d).

(** ** Paths *)

Definition relative (remotePath : string) : string :=
  if decide (dl_remotePath d ≠ "" ∧ dl_remotePath d ≠ "/") then trim_prefix (dl_remotePath d +:+ "/") remotePath
  else remotePath.
Definition toLocalPath (remotePath : string) : string := path_Join (dl_syncDir d) (relative remotePath).
Definition localPathWithin (w : World) (remotePath : string) : option string :=
  let p := toLocalPath remotePath in
  if safeSyncPath (wd_fs w) (dl_syncDir d) p then Some p else None.
Definition LocalPath := localPathWithin.
Definition pathToRemote (localPath : string) : string :=
  match filepath_Rel (dl_syncDir d) localPath with
  | None => path_Base localPath
  | Some rel =>
      if decide (rel = ".") then dl_remotePath d
      else if decide (dl_remotePath d = "" ∨ dl_remotePath d = "/") then rel
      else dl_remotePath d +:+ "/" +:+ rel
  end.

(** ** Rows *)

Definition inodeDirty (id : Z) (w : World) : bool :=
  if decide (id = 0) then false
  else match GetInode id (wd_db w) with Ok i => i_Dirty i | Err _ => false end.

Definition localBaseline (id : Z) (w : World) : string :=
  match LocalContentState id (wd_db w) with Ok (_, baseline, _) => baseline | Err _ => "" end.

Definition markLocalConflict (l : loc) (reason : string) (w : World) : error * World :=
  let id := n_ID (node_at l w) in
  match run_db (MarkLocalConflict id reason) w with
  | (Err err, w) => (err, w)
  | (Ok _, w) =>
      let w := on_node l (λ nd, nd <| n_Dirty := true |> <| n_Cached := false |> <| n_SyncStatus := StatusConflict |>
                                   <| n_StatusReason := reason |>) w in
      (ErrSentinel ErrDownloadLocalChanged, call_db (ClearSyncFailure id FailureDownload) w)
  end.

Definition enqueueLocalUpload (l : loc) (localPath : string) (info : fs_entry) (w : World) : World :=
  let node := node_at l w in
  let '(ok, reason) := ValidateFile (path_Base localPath) (info_size info) in
  let status := if ok then StatusPending else StatusRejected in
  let parentID := match n_Parent node with Some p => n_ID (node_at p w) | None => 0 end in
  let w := on_node l (λ nd, nd <| n_Dirty := true |> <| n_Cached := false |> <| n_Size := info_size info |>) w in
  let inode := mkInode 0 (n_RemotePath node) (n_Name node) false (info_size info) (Unix (info_mtime info)) false true false
                 0 "" "" 0 "" "" "" parentID status reason in
  match run_db (UpsertInode inode) w with
  | (Err _, w) => w
  | (Ok id, w) =>
      let w := set_id l id w in
      let w := call_db (SetLocalContent id "" 0) w in
      if ok then enqueue_wb m id "upload" (n_RemotePath node) w else w
  end.

(** The local file may not be replaced; [true] when it was dealt with. *)
Definition protectLocalCollision (l : loc) (localPath : string) (info : fs_entry) (w : World) : bool * World :=
  let node := node_at l w in
  let id := n_ID node in
  if inodeDirty id w then (true, w) else
  let baseline := localBaseline id w in
  if decide (baseline = "") then (true, (markLocalConflict l no_common_baseline w).2) else
  match hashLocalFile (wd_fs w) localPath with
  | Err _ => (true, (markLocalConflict l unverified w).2)
  | Ok hash =>
      if decide (hash ≠ baseline) then
        let unchanged := match LocalContentState id (wd_db w) with
                         | Ok (_, _, synchronizedEtag) => bool_decide (n_Etag node ≠ "" ∧ synchronizedEtag = n_Etag node)
                         | Err _ => false end in
        (true, if unchanged then enqueueLocalUpload l localPath info w else (markLocalConflict l both_differ w).2)
      else (false, w)
  end.

Definition localCopyMatches (id : Z) (localPath : string) (info : fs_entry) (remoteSize : Z) (remoteEtag : string)
    (w : World) : bool :=
  if decide (info_size info ≠ remoteSize) then false
  else if decide (id = 0 ∨ remoteEtag = "") then false
  else match GetInode id (wd_db w) with
       | Err _ => false
       | Ok inode =>
           if decide (i_LocalHash inode = "") then false
           else match LocalContentState id (wd_db w) with
                | Err _ => false
                | Ok (_, _, synchronizedEtag) =>
                    if decide (synchronizedEtag ≠ remoteEtag) then false
                    else match hashLocalFile (wd_fs w) localPath with
                         | Err _ => false
                         | Ok sum => bool_decide (sum = i_LocalHash inode)
                         end
                end
       end.

(** ** One download *)

Definition commitDownload (id size : Z) (plaintextHash : string) (localMtime : Z) (remoteEtag : option string) (w : World) : World :=
  let superseded := match GetInode id (wd_db w) with Ok i => i_ContentHash i | Err _ => "" end in
  let w := call_db (MarkCached id "" (Unix (wd_now w))) w in
  let w := call_db (SetInodeSize id size) w in
  let w := call_db (match remoteEtag with
                    | Some tag => SetLocalContentForVersion id plaintextHash localMtime tag
                    | None => SetLocalContent id plaintextHash localMtime end) w in
  let w := call_db (SetSyncStatus id StatusSynced "") w in
  if dl_hasStore d then VfsTree.release_blob superseded id w else w.

(** The guard between the temporary file and the rename. *)
Definition validateDownloadPublication (l : loc) (localPath : string) (fs0 : LocalFs) (before : localDownloadState)
    (remoteEtag : string) (w : World) : option error * World :=
  let node := node_at l w in
  if decide (n_Etag node ≠ remoteEtag) then (Some (ErrSentinel ErrDownloadRemoteChanged), w)
  else if decide (localPathWithin w (n_RemotePath node) ≠ Some localPath) then
    let '(e, w) := markLocalConflict l folder_changed w in (Some e, w)
  else
    let ok := match readLocalDownloadState (wd_fs w) localPath with
              | Err _ => false
              | Ok after => sameLocalDownloadState (dl_SameFile d fs0 (wd_fs w) localPath) before after &&
                            negb (inodeDirty (n_ID node) w)
              end in
    if ok then (None, w) else let '(e, w) := markLocalConflict l file_changed w in (Some e, w).

(** [WriteFileAtomicGuarded]: the temporary file lives in the same directory under
    a name the walks ignore, and is gone when the call returns. *)
Definition WriteFileAtomicGuarded (faults : publish_faults) (path : string) (data : bytes)
    (guard : World → option error * World) (w : World) : option error * World :=
  match pf_temp faults with
  | Some e => (Some e, w)
  | None =>
      match guard w with
      | (Some e, w) => (Some e, w)
      | (None, w) =>
          match pf_rename faults with
          | Some e => (Some e, w)
          | None => (None, w <| wd_fs := <[path := FsFile data (wd_now w)]> (wd_fs w) |>)
          end
      end
  end.

Definition os_Chtimes (ok : bool) (p : string) (mtime : Z) (w : World) : World :=
  match wd_fs w !! p with
  | Some (FsFile c _) => if ok then w <| wd_fs := <[p := FsFile c mtime]> (wd_fs w) |> else w
  | _ => w
  end.

(** From the fetched bytes to the recorded file. *)
Definition publish (l : loc) (localPath remotePath : string) (fs0 : LocalFs) (before : localDownloadState)
    (remoteEtag : string) (mtime : Z) (f : Fetched) (w : World) : option error * World :=
  let faults := dl_faults d w in
  let plaintext := ft_plaintext f in
  match pf_mkdir faults with
  | Some e => (Some (ErrWrap "create parent dir" e), w)
  | None =>
      match os_MkdirAll (wd_fs w) (wd_now w) (path_Dir localPath) with
      | Err e => (Some (ErrWrap "create parent dir" e), w)
      | Ok fs =>
          match WriteFileAtomicGuarded faults localPath plaintext
                  (validateDownloadPublication l localPath fs0 before remoteEtag) (w <| wd_fs := fs |>) with
          | (Some e, w) => (Some (ErrWrap ("commit " +:+ localPath) e), w)
          | (None, w) =>
              let w := os_Chtimes (pf_chtimes faults) localPath mtime w in
              let remoteChanged := bool_decide (n_Etag (node_at l w) ≠ remoteEtag) in
              let w := on_node l (λ nd, nd <| n_Cached := negb remoteChanged |> <| n_SealedKey := ft_SealedKey f |>
                                           <| n_EncMeta := ft_EncryptionMeta f |> <| n_Size := blen plaintext |>) w in
              let localMtime := match os_Stat_mtime (wd_fs w) localPath with Some t => Unix t | None => 0 end in
              let id := n_ID (node_at l w) in
              let w := commitDownload id (blen plaintext) (sha256_hex plaintext) localMtime (Some remoteEtag) w in
              if remoteChanged then (Some (ErrSentinel ErrDownloadRemoteChanged), call_db (InvalidateCache id) w)
              else (None, w)
          end
      end
  end.

Definition report (remotePath : string) (gotBytes : Z) (r : option error * World) : option error * World :=
  (r.1, if dl_activity d then r.2 <| wd_activity := wd_activity r.2 ++ [(remotePath, "download", gotBytes, r.1)] |> else r.2).

Definition conflict (r : error * World) : option error * World := (Some r.1, r.2).

Definition downloadFile (l : loc) (w : World) : option error * World :=
  let node := node_at l w in
  let remotePath := n_RemotePath node in
  let size := n_Size node in
  let remoteEtag := n_Etag node in
  match localPathWithin w remotePath with
  | None => (Some (ErrText ("refusing unsafe local path for " +:+ remotePath)), w)
  | Some localPath =>
      let fs0 := wd_fs w in
      match readLocalDownloadState fs0 localPath with
      | Err _ => conflict (markLocalConflict l pending_changes w)
      | Ok before =>
          if inodeDirty (n_ID node) w then conflict (markLocalConflict l pending_changes w)
          else if decide (ls_info before ≠ None ∧
                 (localBaseline (n_ID node) w = "" ∨ ls_hash before ≠ localBaseline (n_ID node) w)) then
            conflict (markLocalConflict l differs_from_baseline w)
          else if decide (MaxInMemoryDownloadSize < size) then
            report remotePath 0 (Some (Permanent (ErrText ("download " +:+ remotePath +:+ ": " +:+ fmt_d size +:+
              " bytes exceeds the 600 MB in-memory limit"))), w)
          else
            match dl_fetchFile d remotePath w with
            | (Err err, w) => report remotePath 0 (Some err, w)
            | (Ok f, w) =>
                let gotBytes := blen (ft_plaintext f) in
                if decide (localPathWithin w remotePath ≠ Some localPath) then
                  report remotePath gotBytes (conflict (markLocalConflict l folder_changed w))
                else
                  let '(r, w) := publish l localPath remotePath fs0 before remoteEtag (n_Mtime node) f
                                   (suppress_store localPath w) in
                  report remotePath gotBytes (r, suppress_after localPath (3 * second) w)
            end
      end
  end.

(** ** Failures and retries *)

Definition downloadDue (id : Z) (w : World) : bool :=
  if decide (id = 0) then true
  else match GetSyncFailure id FailureDownload (wd_db w) with
       | Ok (Some f) => if f_Permanent f then false else bool_decide (f_NextRetryAt f ≤ Unix (wd_now w))
       | _ => true
       end.

Definition recordDownloadFailure (l : loc) (err : error) (w : World) : World :=
  let id := n_ID (node_at l w) in
  if decide (id = 0 ∨ errors_Is ContextCanceled err = true ∨ errors_Is ErrDownloadLocalChanged err = true ∨
             errors_Is ErrDownloadRemoteChanged err = true) then w
  else
    let perm := IsPermanent err in
    let attempts := match GetSyncFailure id FailureDownload (wd_db w) with
                    | Ok (Some prev) => f_Attempts prev + 1 | _ => 1 end in
    let w := if perm then call_db (SetSyncStatus id StatusFailed (dl_Error d err)) w else w in
    let next := if perm then 0 else Unix (wd_now w + TransferBackoff attempts) in
    call_db (RecordSyncFailure (mkSyncFailure id FailureDownload perm attempts next (dl_Error d err))) w.

(** A dispatched download and the callback of its end; nothing once the context
    is done. *)
Definition dispatchDownload (l : loc) (w : World) : World :=
  match dl_ctx_err d w with
  | Some _ => w
  | None =>
      match downloadFile l w with
      | (Some err, w) => recordDownloadFailure l err w
      | (None, w) => call_db (ClearSyncFailure (n_ID (node_at l w)) FailureDownload) w
      end
  end.

(** ** The periodic walk *)

(** What the walk does with a file: [true] when a download is to be dispatched. *)
Definition check_file (l : loc) (w : World) : bool * World :=
  let node := node_at l w in
  let id := n_ID node in
  let needsDownload := negb (n_Cached node) && negb (n_Dirty node) && negb (inodeDirty id w) in
  if negb needsDownload then (false, w) else
  let localPath := toLocalPath (n_RemotePath node) in
  let '(stop, w) :=
    match os_Lstat (wd_fs w) localPath with
    | Err _ => (false, w)
    | Ok info =>
        if localCopyMatches id localPath info (n_Size node) (n_Etag node) w then
          (true, call_db (SetSyncStatus id StatusSynced "") (call_db (ClearSyncFailure id FailureDownload)
                   (on_node l (λ nd, nd <| n_Cached := true |>) w)))
        else protectLocalCollision l localPath info w
    end in
  if stop then (false, w) else (downloadDue id w, w).

(** The order of the children of a directory is Go's order of a map. *)
Definition dl_children (l : loc) (w : World) : list loc := (m_range m (map_to_list (children_of l (wd_nodes w)))).*2.

Fixpoint walkForDownloads (fuel : nat) (l : loc) (w : World) : World :=
  match fuel with
  | O => w
  | S fuel =>
      match dl_ctx_err d w with
      | Some _ => w
      | None =>
          if negb (n_IsDir (node_at l w)) then
            let '(go, w) := check_file l w in if go then dispatchDownload l w else w
          else if negb (n_Loaded (node_at l w)) then w
          else foldl (λ w c, walkForDownloads fuel c w) w (dl_children l w)
      end
  end.
Definition downloadPending (fuel : nat) (w : World) : World := walkForDownloads fuel (m_Root m) w.

(** ** The first synchronisation *)

Definition cleanup_row (i : Inode) (w : World) : World :=
  call_db (DeleteInode (i_RemotePath i)) (call_db (DeleteSyncFailures (i_ID i))
    (call_db (DeleteWritebackByInode (i_ID i)) w)).

Definition cleanup_issue (x : Z * World) (i : Inode) : Z * World :=
  let '(cleaned, w) := x in
  if decide (i_RemotePath i = "") then (cleaned + 1, cleanup_row i w)
  else
    let localExists := match os_Lstat (wd_fs w) (toLocalPath (i_RemotePath i)) with Ok _ => true | Err _ => false end in
    match i_SyncStatus i with
    | StatusFailed | StatusRejected => if localExists then (cleaned, w) else (cleaned + 1, cleanup_row i w)
    | _ => (cleaned, w)
    end.

Definition cleanupStaleEntries (w : World) : Z * World :=
  let w := w <| wd_vfs := (wd_vfs w) <| v_Cache := (DeleteFailedWritebacks (wd_db w)).2 |> |> in
  match ListIssues (wd_db w) with
  | Err _ => (0, w)
  | Ok issues => foldl cleanup_issue (0, w) issues
  end.

Fixpoint populateRemoteTree (fuel : nat) (parent : loc) (w : World) : option error * World :=
  match fuel with
  | O => (Some out_of_fuel, w)
  | S fuel =>
      match dl_ctx_err d w with
      | Some err => (Some err, w)
      | None =>
          match Readdir m parent w with
          | (Err err, w) => (Some err, w)
          | (Ok _, w) =>
              foldl (λ x c, match x with
                            | (Some err, w) => (Some err, w)
                            | (None, w) => if n_IsDir (node_at c w) then populateRemoteTree fuel c w else (None, w)
                            end) (None, w) (dl_children parent w)
          end
      end
  end.

(** One file of the first walk; the counts of downloaded and skipped files. *)
Definition sync_file (l : loc) (x : Z * Z * World) : Z * Z * World :=
  let '(downloaded, skipped, w) := x in
  let node := node_at l w in
  let id := n_ID node in
  let localPath := toLocalPath (n_RemotePath node) in
  let dispatch w :=
    match dl_ctx_err d w with
    | Some _ => (downloaded, skipped, w)
    | None =>
        match downloadFile l w with
        | (Some err, w) => (downloaded, skipped, recordDownloadFailure l err w)
        | (None, w) => (downloaded + 1, skipped, call_db (ClearSyncFailure (n_ID (node_at l w)) FailureDownload) w)
        end
    end in
  match os_Lstat (wd_fs w) localPath with
  | Err _ => dispatch w
  | Ok info =>
      if inodeDirty id w then
        (downloaded, skipped + 1,
         if decide (localBaseline id w = "") then (markLocalConflict l no_common_baseline w).2 else w)
      else if localCopyMatches id localPath info (n_Size node) (n_Etag node) w then
        (downloaded, skipped + 1, call_db (ClearSyncFailure id FailureDownload) (call_db (SetSyncStatus id StatusSynced "")
           (on_node l (λ nd, nd <| n_Cached := true |>) w)))
      else
        let '(stop, w) := protectLocalCollision l localPath info w in
        if stop then (downloaded, skipped + 1, w) else dispatch w
  end.

Definition make_dir (p : string) (w : World) : World :=
  suppress_after p (3 * second)
    (let w := suppress_store p w in
     match pf_mkdir (dl_faults d w), os_MkdirAll (wd_fs w) (wd_now w) p with
     | None, Ok fs => w <| wd_fs := fs |>
     | _, _ => w
     end).

Fixpoint walkAndSync (fuel : nat) (l : loc) (x : Z * Z * World) : option error * (Z * Z * World) :=
  match fuel with
  | O => (Some out_of_fuel, x)
  | S fuel =>
      match dl_ctx_err d x.2 with
      | Some err => (Some err, x)
      | None =>
          let node := node_at l x.2 in
          if n_IsDir node then
            let dir := if decide (l = m_Root m) then Some x.2
                       else match localPathWithin x.2 (n_RemotePath node) with
                            | None => None
                            | Some localDir => Some (make_dir localDir x.2)
                            end in
            match dir with
            | None => (None, x)
            | Some w =>
                foldl (λ y c, match y with
                              | (Some err, x) => (Some err, x)
                              | (None, x) => walkAndSync fuel c x
                              end) (None, (x.1, w)) (dl_children l w)
            end
          else (None, sync_file l x)
      end
  end.

(** ** Local files the database does not know *)

Definition found_inode (remotePath name : string) (isDir : bool) (size mtime : Z) (dirty : bool) (status : SyncStatus)
    (reason : string) : Inode :=
  mkInode 0 remotePath name isDir size mtime false dirty false 0 "" "" 0 "" "" "" 0 status reason.

(** [queueWriteback]: whether the entry was queued. *)
Definition queueWriteback (id : Z) (act remotePath : string) (w : World) : bool * World :=
  match run_db (EnqueueWriteback (m_marshal m) (m_unmarshal m) id act remotePath "" (m_newKey m w) (Unix (wd_now w))) w with
  | (Ok _, w) => (true, w)
  | (Err _, w) => (false, w)
  end.

(** One entry of the walk: [filepath.SkipDir], how many were queued, the world. *)
Definition scan_entry (path name : string) (e : fs_entry) (w : World) : bool * Z * World :=
  if negb (safeSyncPath (wd_fs w) (dl_syncDir d) path) then (is_dir e, 0, w)
  else if shouldIgnore name || bool_decide (name = ".pigcloud") then (is_dir e, 0, w)
  else
    let remotePath := pathToRemote path in
    if decide (remotePath = "" ∨ remotePath = dl_remotePath d) then (false, 0, w) else
    match path_inode remotePath w with
    | Some _ => (false, 0, w)
    | None =>
        if is_dir e then
          match run_db (UpsertInode (found_inode remotePath name true 0 (Unix (wd_now w)) false StatusPending "")) w with
          | (Err _, w) => (false, 0, w)
          | (Ok id, w) => let '(q, w) := queueWriteback id "mkdir" remotePath w in (false, if q then 1 else 0, w)
          end
        else
          match os_Lstat (wd_fs w) path with
          | Err _ => (false, 0, w)
          | Ok info =>
              let '(ok, reason) := ValidateFile name (info_size info) in
              let status := if ok then StatusPending else StatusRejected in
              match run_db (UpsertInode (found_inode remotePath name false (info_size info) (Unix (info_mtime info)) true status reason)) w with
              | (Err _, w) => (false, 0, w)
              | (Ok id, w) =>
                  if ok then let '(q, w) := queueWriteback id "upload" remotePath w in (false, if q then 1 else 0, w)
                  else (false, 0, w)
              end
          end
    end.

Fixpoint scan_walk (fuel : nat) (path name : string) (e : fs_entry) (x : Z * World) : Z * World :=
  match fuel with
  | O => x
  | S fuel =>
      let '(skip, q, w) := scan_entry path name e x.2 in
      let x := (x.1 + q, w) in
      if is_dir e && negb skip then
        match os_ReadDir (wd_fs w) path with
        | Err _ => x
        | Ok entries => foldl (λ x c, scan_walk fuel (path_Join path c.1) c.1 c.2 x) x entries
        end
      else x
  end.

Definition scanLocalNewFiles (w : World) : Z * World :=
  match os_Lstat (wd_fs w) (dl_syncDir d) with
  | Err _ => (0, w)
  | Ok e => scan_walk (walk_fuel (wd_fs w)) (dl_syncDir d) (path_Base (dl_syncDir d)) e (0, w)
  end.

Definition InitialSync (fuel : nat) (w : World) : option error * World :=
  let '(_, w) := cleanupStaleEntries w in
  match populateRemoteTree fuel (m_Root m) w with
  | (Some err, w) => (Some (ErrWrap "initial sync: populate remote tree" err), w)
  | (None, w) =>
      match walkAndSync fuel (m_Root m) (0, 0, w) with
      | (Some err, x) => (Some err, x.2)
      | (None, x) => (None, (scanLocalNewFiles x.2).2)
      end
  end.

(** ** Removing a local copy *)

(** The first free name: [path], [path.1], [path.2], ... *)
Fixpoint free_name (fuel : nat) (fs : LocalFs) (path dst : string) (i : Z) : option string :=
  match os_Lstat fs dst with
  | Err _ => Some dst
  | Ok _ => match fuel with
            | O => None
            | S fuel => free_name fuel fs path (path +:+ "." +:+ fmt_d i) (i + 1)
            end
  end.

Definition RemoveLocal (remotePath : string) (w : World) : World :=
  match localPathWithin w remotePath with
  | None => w
  | Some localPath =>
      match os_Lstat (wd_fs w) localPath with
      | Err _ => w
      | Ok fi =>
          let delBytes := info_size fi in
          let trashPath := filepath_Join [dl_syncDir d; ".pigcloud"; "trash"; relative remotePath] in
          let w := SuppressPath localPath (3 * second) w in
          match pf_mkdir (dl_faults d w), os_MkdirAll (wd_fs w) (wd_now w) (path_Dir trashPath) with
          | None, Ok fs =>
              let w := w <| wd_fs := fs |> in
              match free_name (S (size fs)) fs trashPath trashPath 1 with
              | None => w
              | Some dst =>
                  match pf_rename (dl_faults d w), os_Rename fs localPath dst with
                  | None, Ok fs =>
                      let w := w <| wd_fs := fs |> in
                      if dl_activity d then w <| wd_activity := wd_activity w ++ [(remotePath, "delete", delBytes, None)] |> else w
                  | _, _ => w
                  end
              end
          | _, _ => w
          end
      end
  end.
End downloader.

(** ** What a download replaces *)

Lemma mkdir_all_keeps now parts : ∀ fs current fs',
  mkdir_all fs now current parts = Ok fs' →
  ∀ k, fs' !! k = fs !! k ∨ (fs !! k = None ∧ fs' !! k = Some (FsDir now)).
Proof.
  induction parts as [|p ps IH]; intros fs current fs'; cbn [mkdir_all]; [intros [= <-]; by left|].
  destruct (fs !! path_Join current p) as [[]|] eqn:Hp; [done|apply IH|done|done|].
  intros H k. destruct (IH _ _ _ H k) as [->|[Hn ->]].
  - destruct (decide (k = path_Join current p)) as [->|].
    + rewrite lookup_insert_eq. by right.
    + rewrite lookup_insert_ne by done. by left.
  - destruct (decide (k = path_Join current p)) as [->|]; [by rewrite lookup_insert_eq in Hn|].
    rewrite lookup_insert_ne in Hn by done. by right.
Qed.

Lemma os_Lstat_file fs p c t : os_Lstat fs p = Ok (FsFile c t) ↔ fs !! p = Some (FsFile c t).
Proof. unfold os_Lstat. destruct (fs !! p) as [[]|]; split; congruence. Qed.

Section replace.
Context `{U : Unicode, BL : Blake2b, A : AEAD, X : X25519, K : MLKEM, HK : Hkdf, SH : Sha256, CS : ChunkSize}.
Variable d : Downloader.

Lemma read_state_Ok fs p st :
  readLocalDownloadState fs p = Ok st →
  (ls_info st = None ∧ fs !! p = None) ∨
  ∃ c t, ls_info st = Some (FsFile c t) ∧ ls_hash st = sha256_hex c ∧ fs !! p = Some (FsFile c t).
Proof.
  unfold readLocalDownloadState, os_Lstat. destruct (fs !! p) as [[]|]; cbn; try done; [by intros [= <-]; eauto 10|].
  destruct (under_file fs p); cbn; [done|]. intros [= <-]. by left.
Qed.

Lemma wd_fs_conflict l reason w : wd_fs (markLocalConflict l reason w).2 = wd_fs w.
Proof.
  unfold markLocalConflict. destruct (run_db _ w) as [[[]|] w1] eqn:Hr;
    assert (wd_fs w1 = wd_fs w) as H by (unfold run_db in Hr; destruct (with_db _ _); by injection Hr as _ <-);
    [by rewrite call_db_eq|done].
Qed.

Lemma wd_fs_call {T} (op : DB → result error T * DB) w : wd_fs (call_db op w) = wd_fs w.
Proof. by rewrite call_db_eq. Qed.

(** Database and node updates leave the sync folder alone. *)
Lemma wd_fs_commit id size h t tag w : wd_fs (commitDownload d id size h t tag w) = wd_fs w.
Proof. unfold commitDownload. rewrite !call_db_eq. by destruct (dl_hasStore d). Qed.

Lemma guard_Ok l p fs0 before tag w w' :
  validateDownloadPublication d l p fs0 before tag w = (None, w') →
  w' = w ∧ n_Etag (node_at l w) = tag ∧ localPathWithin d w (n_RemotePath (node_at l w)) = Some p ∧
  inodeDirty (n_ID (node_at l w)) w = false ∧
  ∃ after, readLocalDownloadState (wd_fs w) p = Ok after ∧ sameLocalDownloadState (dl_SameFile d fs0 (wd_fs w) p) before after = true.
Proof.
  unfold validateDownloadPublication. case_decide as He; [done|]. case_decide as Hp.
  { destruct (markLocalConflict _ _ _); done. }
  destruct (readLocalDownloadState _ _) as [after|] eqn:Hr; [|by destruct (markLocalConflict _ _ _)].
  destruct (_ && _) eqn:Hb; [|by destruct (markLocalConflict _ _ _)]. intros [= <-].
  apply andb_true_iff in Hb as [Hs Hd%negb_true_iff]. eauto 10.
Qed.

Lemma guard_fs l p fs0 before tag w : wd_fs (validateDownloadPublication d l p fs0 before tag w).2 = wd_fs w.
Proof.
  pose proof (wd_fs_conflict l folder_changed w) as H1. pose proof (wd_fs_conflict l file_changed w) as H2.
  unfold validateDownloadPublication. case_decide; [done|]. case_decide; [by destruct (markLocalConflict l folder_changed w)|].
  cbv zeta. match goal with |- context [if ?b then _ else _] => destruct b end; [done|]. by destruct (markLocalConflict l file_changed w).
Qed.

(** The file under a path, after [publish], against the sync folder before it. *)
Definition published (p : string) (data : bytes) (before : localDownloadState) (fs fs' : LocalFs) : Prop :=
  ∀ k e, fs !! k = Some e →
    fs' !! k = Some e ∨
    (k = p ∧ (∃ c t, e = FsFile c t ∧ ls_info before ≠ None ∧ ls_hash before = sha256_hex c) ∧
     ∃ t', fs' !! k = Some (FsFile data t')).

Lemma publish_fs l p path fs0 before tag mtime f w r w' :
  publish d l p path fs0 before tag mtime f w = (r, w') →
  published p (ft_plaintext f) before (wd_fs w) (wd_fs w') ∧
  (r = None → ∃ t, wd_fs w' !! p = Some (FsFile (ft_plaintext f) t)).
Proof.
  unfold publish. destruct (pf_mkdir _); [intros [= <- <-]; split; [by left|done]|].
  destruct (os_MkdirAll _ _ _) as [fs|] eqn:Hmk; [|intros [= <- <-]; split; [by left|done]].
  pose proof (mkdir_all_keeps _ _ _ _ _ Hmk) as Hk.
  assert (∀ k e, wd_fs w !! k = Some e → fs !! k = Some e) as Hk' by (intros k e He; destruct (Hk k) as [->|[? _]]; congruence).
  unfold WriteFileAtomicGuarded. destruct (pf_temp _); [intros [= <- <-]; split; [intros k x Hx; left; by apply Hk'|done]|].
  pose proof (guard_fs l p fs0 before tag (w <| wd_fs := fs |>)) as Hgf.
  destruct (validateDownloadPublication _ _ _ _ _ _ _) as [[e|] w1] eqn:Hg; cbn [snd] in Hgf.
  { intros [= <- <-]. rewrite Hgf. split; [intros k x Hx; left; by apply Hk'|done]. }
  destruct (pf_rename _); [intros [= <- <-]; rewrite Hgf; split; [intros k x Hx; left; by apply Hk'|done]|].
  apply guard_Ok in Hg as (-> & _ & _ & _ & after & Hread & Hsame).
  set (w2 := os_Chtimes _ _ _ _).
  assert (∃ t, wd_fs w2 = <[p := FsFile (ft_plaintext f) t]> fs) as (t & Hw2).
  { unfold w2, os_Chtimes. cbn [wd_fs]. 
    change (wd_fs (_ <| wd_fs := ?x |>)) with x. rewrite lookup_insert_eq. destruct (pf_chtimes _); [|by eexists].
    eexists. cbn. by rewrite insert_insert_eq. }
  clearbody w2. cbv zeta. intros H.
  assert (wd_fs w' = wd_fs w2) as Hfs.
  { destruct (bool_decide _); injection H as _ <-; by rewrite ?wd_fs_call, wd_fs_commit. }
  rewrite Hfs, Hw2. split; [|intros _; exists t; by rewrite lookup_insert_eq].
  intros k e He. destruct (decide (k = p)) as [->|]; [|left; rewrite lookup_insert_ne by done; by apply Hk'].
  right. split; [done|]. split; [|exists t; by rewrite lookup_insert_eq]. apply Hk' in He.
  apply read_state_Ok in Hread as [[_ Hn]|(c & t' & Hi & Hh & Hf)]; change (wd_fs (w <| wd_fs := fs |>)) with fs in *; [congruence|].
  exists c, t'. split; [congruence|]. unfold sameLocalDownloadState in Hsame. rewrite Hi in Hsame.
  destruct (ls_info before); [|done]. apply andb_true_iff in Hsame as [[[_ Hs%bool_decide_eq_true]%andb_true_iff _]%andb_true_iff _].
  split; [done|]. by rewrite Hs, Hh.
Qed.

Lemma report_frame p n r : (report d p n r).1 = r.1 ∧ wd_fs (report d p n r).2 = wd_fs r.2 ∧
  wd_db (report d p n r).2 = wd_db r.2 ∧ wd_nodes (report d p n r).2 = wd_nodes r.2.
Proof. unfold report. by destruct (dl_activity d). Qed.

(** The two ways through [downloadFile]: nothing is fetched, or what was fetched is
    published unless the path changed. *)
Lemma downloadFile_cases l w r w' :
  downloadFile d l w = (r, w') →
  let node := node_at l w in
  (r ≠ None ∧ wd_fs w' = wd_fs w) ∨
  ∃ p before w1, localPathWithin d w (n_RemotePath node) = Some p ∧ readLocalDownloadState (wd_fs w) p = Ok before ∧
    inodeDirty (n_ID node) w = false ∧
    (ls_info before ≠ None → localBaseline (n_ID node) w ≠ "" ∧ ls_hash before = localBaseline (n_ID node) w) ∧
    w1 = (dl_fetchFile d (n_RemotePath node) w).2 ∧
    ((r ≠ None ∧ wd_fs w' = wd_fs w1) ∨
     ∃ f w2, dl_fetchFile d (n_RemotePath node) w = (Ok f, w1) ∧
       publish d l p (n_RemotePath node) (wd_fs w) before (n_Etag node) (n_Mtime node) f (suppress_store p w1) = (r, w2) ∧
       wd_fs w' = wd_fs w2 ∧ wd_db w' = wd_db w2 ∧ wd_nodes w' = wd_nodes w2).
Proof.
  unfold downloadFile. cbv zeta. destruct (localPathWithin _ _ _) as [p|]; [|intros [= <- <-]; left; by split].
  assert (∀ reason, (conflict (markLocalConflict l reason w)).1 ≠ None ∧ wd_fs (conflict (markLocalConflict l reason w)).2 = wd_fs w)
    as Hconf by (intros; split; [done|apply wd_fs_conflict]).
  destruct (readLocalDownloadState _ _) as [before|] eqn:Hbef; [|intros H; left; specialize (Hconf pending_changes); by rewrite H in Hconf].
  destruct (inodeDirty _ _) eqn:Hd; [intros H; left; specialize (Hconf pending_changes); by rewrite H in Hconf|].
  destruct (decide (ls_info before ≠ None ∧ _)) as [Hb|Hb];
    [intros H; left; specialize (Hconf differs_from_baseline); by rewrite H in Hconf|].
  destruct (decide (MaxInMemoryDownloadSize < _)).
  { intros H. left. match type of H with report _ ?q ?n ?x = _ => pose proof (report_frame q n x) as (H1 & H2 & _) end.
    rewrite H in H1, H2. cbn in H1, H2. by rewrite H1. }
  intros H. right. exists p, before, (dl_fetchFile d (n_RemotePath (node_at l w)) w).2. split; [done|]. split; [done|]. split; [done|].
  split; [intros Hi; destruct (decide (localBaseline (n_ID (node_at l w)) w = "")); [naive_solver|];
    destruct (decide (ls_hash before = localBaseline (n_ID (node_at l w)) w)); naive_solver|].
  split; [done|]. destruct (dl_fetchFile _ _ _) as [[f|err] w1]; cbn [snd].
  2: { left. match type of H with report _ ?q ?n ?x = _ => pose proof (report_frame q n x) as (H1 & H2 & _) end.
       rewrite H in H1, H2. cbn in H1, H2. by rewrite H1. }
  destruct (decide (localPathWithin _ _ _ ≠ Some p)).
  { left. match type of H with report _ ?q ?n ?x = _ => pose proof (report_frame q n x) as (H1 & H2 & _) end.
    rewrite H in H1, H2. cbn [fst snd conflict] in H1, H2. rewrite wd_fs_conflict in H2. by rewrite H1. }
  right. destruct (publish _ _ _ _ _ _ _ _ _ _) as [r2 w2] eqn:Hpub. exists f, w2. split; [done|].
  match type of H with report _ ?q ?n ?x = _ => pose proof (report_frame q n x) as (H1 & H2 & H3 & H4) end.
  rewrite H in H1, H2, H3, H4. cbn in H1, H2, H3, H4. by subst r2.
Qed.

(** C4: A download never destroys local work.  Whatever the user, the server and
    the other goroutines do while the content is fetched, afterwards every entry
    of the sync folder is as it was, except that the downloaded file may have
    replaced a regular file at its own path whose content then was exactly the
    synchronised baseline.  When nothing was fetched, nothing changed. *)
Theorem downloadFile_replaces l w r w' :
  downloadFile d l w = (r, w') →
  let node := node_at l w in
  let wf := (dl_fetchFile d (n_RemotePath node) w).2 in
  (r ≠ None ∧ wd_fs w' = wd_fs w) ∨
  ∀ k e, wd_fs wf !! k = Some e →
    wd_fs w' !! k = Some e ∨
    localPathWithin d w (n_RemotePath node) = Some k ∧
    (∃ c t, e = FsFile c t ∧ sha256_hex c = localBaseline (n_ID node) w ∧ localBaseline (n_ID node) w ≠ "") ∧
    ∃ f t', dl_fetchFile d (n_RemotePath node) w = (Ok f, wf) ∧ wd_fs w' !! k = Some (FsFile (ft_plaintext f) t').
Proof.
  intros H. cbv zeta. destruct (downloadFile_cases _ _ _ _ H) as [?|(p & before & w1 & Hp & _ & _ & Hb & -> & Hc)]; [by left|].
  right. intros k e He. destruct Hc as [[_ ->]|(f & w2 & Hf & Hpub & Hfs & _)]; [by left|].
  destruct (publish_fs _ _ _ _ _ _ _ _ _ _ _ Hpub) as [Hkeep _]. rewrite Hfs.
  destruct (Hkeep k e He) as [?|(-> & (c & t & -> & Hi & Hh) & t' & Ht)]; [by left|right].
  split; [done|]. destruct (Hb Hi) as [Hne Heq]. split; [exists c, t; by rewrite <- Hh, Heq|].
  exists f, t'. split; [|done]. rewrite Hf. done.
Qed.
End replace.

Section records.
Context `{U : Unicode, BL : Blake2b, A : AEAD, X : X25519, K : MLKEM, HK : Hkdf, SH : Sha256, CS : ChunkSize}.
Context `{SL : !Sha256Laws SH}.
Variable d : Downloader.

(** What a finished download leaves in the row. *)
Definition downloaded_row (now size mtime : Z) (hash tag : string) (row : inode_row) : inode_row :=
  row <| c_cached := true |> <| c_content_hash := "" |> <| c_last_access := now |> <| c_size := size |>
    <| c_local_hash := hash |> <| c_download_baseline_hash := hash |> <| c_local_mtime := mtime |>
    <| c_local_remote_etag := tag |> <| c_sync_status := StatusSynced |> <| c_status_reason := "" |>.

Lemma commit_shifts l id size h t tag w :
  closed (wd_db w) = false →
  shifts l id (λ nd, nd) (downloaded_row (Unix (wd_now w)) size t h tag) w (commitDownload d id size h t (Some tag) w).
Proof.
  intros Hc. unfold commitDownload. cbv zeta.
  assert (∀ w', shifts l id (λ nd, nd) (downloaded_row (Unix (wd_now w)) size t h tag) w w' →
    shifts l id (λ nd, nd) (downloaded_row (Unix (wd_now w)) size t h tag) w
      (if dl_hasStore d then VfsTree.release_blob match GetInode id (wd_db w) with Ok i => i_ContentHash i | Err _ => "" end id w' else w')) as Hrel.
  { intros. destruct (dl_hasStore d); [by apply shifts_release|done]. }
  apply Hrel. unfold MarkCached, SetInodeSize, SetLocalContentForVersion, SetSyncStatus.
  pose (f1 := λ r : inode_row, r <| c_cached := true |> <| c_content_hash := "" |> <| c_last_access := Unix (wd_now w) |>).
  pose (f2 := λ r : inode_row, r <| c_size := size |>).
  pose (f3 := λ r : inode_row, r <| c_local_hash := h |> <| c_download_baseline_hash := h |> <| c_local_mtime := t |>
    <| c_local_remote_etag := tag |>).
  pose (f4 := λ r : inode_row, r <| c_sync_status := StatusSynced |> <| c_status_reason := "" |>).
  pose (up := λ f fn fr w', shifts_update l id fn fr f w w').
  exact (up f4 _ _ _ (λ _, eq_refl) (up f3 _ _ _ (λ _, eq_refl) (up f2 _ _ _ (λ _, eq_refl)
    (up f1 _ _ _ (λ _, eq_refl) (shifts_refl l id w Hc))))).
Qed.

Lemma shifts_stats l id fn fr w w1 w' : wd_db w1 = wd_db w → wd_nodes w1 = wd_nodes w → shifts l id fn fr w1 w' → shifts l id fn fr w w'.
Proof. intros H1 H2 [? ? ? ?]. split; congruence. Qed.

Lemma os_Chtimes_frame ok p t w : wd_db (os_Chtimes ok p t w) = wd_db w ∧ wd_nodes (os_Chtimes ok p t w) = wd_nodes w ∧
  wd_now (os_Chtimes ok p t w) = wd_now w.
Proof. unfold os_Chtimes. destruct (wd_fs w !! p) as [[]|]; by destruct ok. Qed.

(** A publication that succeeds: the file, the node and the row. *)
Lemma publish_records l p path fs0 before tag mtime f w w' nd row :
  publish d l p path fs0 before tag mtime f w = (None, w') →
  closed (wd_db w) = false → wd_nodes w !! l = Some nd → row_of (n_ID nd) (wd_db w) = Some row →
  n_Etag nd = tag ∧ (∃ t, wd_fs w' !! p = Some (FsFile (ft_plaintext f) t)) ∧
  closed (wd_db w') = false ∧
  wd_nodes w' !! l = Some (nd <| n_Cached := true |> <| n_SealedKey := ft_SealedKey f |>
    <| n_EncMeta := ft_EncryptionMeta f |> <| n_Size := blen (ft_plaintext f) |>) ∧
  ∃ t, row_of (n_ID nd) (wd_db w') =
    Some (downloaded_row (Unix (wd_now w)) (blen (ft_plaintext f)) t (sha256_hex (ft_plaintext f)) tag row).
Proof.
  intros H Hc Hl Hr. pose proof (proj2 (publish_fs _ _ _ _ _ _ _ _ _ _ _ _ H) eq_refl) as Hfile.
  unfold publish in H. destruct (pf_mkdir _); [done|]. destruct (os_MkdirAll _ _ _) as [fs|]; [|done].
  unfold WriteFileAtomicGuarded in H. destruct (pf_temp _); [done|].
  destruct (validateDownloadPublication _ _ _ _ _ _ _) as [[e|] w1] eqn:Hg; [done|].
  destruct (pf_rename _); [done|]. apply guard_Ok in Hg as (-> & Htag & _).
  match type of H with context [os_Chtimes ?ok p mtime ?w0] =>
    destruct (os_Chtimes_frame ok p mtime w0) as (H2d & H2n & H2t); set (w2 := os_Chtimes ok p mtime w0) in H, H2d, H2n, H2t end.
  clearbody w2. change (wd_db w2 = wd_db w) in H2d. change (wd_nodes w2 = wd_nodes w) in H2n. change (wd_now w2 = wd_now w) in H2t.
  assert (node_at l w2 = nd) as Hnd by (apply node_at_lookup; by rewrite H2n).
  change (node_at l (w <| wd_fs := fs |>)) with (node_at l w) in Htag. rewrite (node_at_lookup _ _ _ Hl) in Htag.
  cbv zeta in H. rewrite Hnd, bool_decide_eq_false_2 in H by naive_solver.
  set (w3 := on_node l _ w2) in H. injection H as <-.
  assert (n_ID (node_at l w3) = n_ID nd) as Hid.
  { unfold w3, node_at. rewrite wd_nodes_on_node, H2n, Hl. done. }
  rewrite Hid. match goal with |- context [commitDownload d _ ?sz ?h ?t (Some tag) w3] =>
    destruct (commit_shifts l (n_ID nd) sz h t tag w3) as [S1 _ S3 S4]; [by change (wd_db w3) with (wd_db w2); rewrite H2d|] end.
  split; [done|]. rewrite Hid in Hfile. split; [exact Hfile|]. split; [exact S1|].
  split; [rewrite S3; unfold w3; rewrite wd_nodes_on_node, H2n, Hl; done|].
  rewrite S4. change (wd_db w3) with (wd_db w2). change (wd_now w3) with (wd_now w2). rewrite H2d, H2t, Hr. by eexists.
Qed.

(** A download that succeeds leaves the fetched plaintext in the file and records
    it: the node and the row are cached, synchronised, of the plaintext's size, with
    its SHA-256 as local content and baseline, at the version the node had when the
    fetch began, and that still is the node's version.  The local copy then counts
    as matching, so the next start of the client does not fetch the file again. *)
Theorem downloadFile_records l w w' nd row :
  downloadFile d l w = (None, w') →
  let path := n_RemotePath (node_at l w) in
  let wf := (dl_fetchFile d path w).2 in
  closed (wd_db wf) = false → wd_nodes wf !! l = Some nd → row_of (n_ID nd) (wd_db wf) = Some row →
  ∃ p f t t', localPathWithin d w path = Some p ∧ dl_fetchFile d path w = (Ok f, wf) ∧
    n_Etag nd = n_Etag (node_at l w) ∧
    wd_fs w' !! p = Some (FsFile (ft_plaintext f) t) ∧
    wd_nodes w' !! l = Some (nd <| n_Cached := true |> <| n_SealedKey := ft_SealedKey f |>
      <| n_EncMeta := ft_EncryptionMeta f |> <| n_Size := blen (ft_plaintext f) |>) ∧
    row_of (n_ID nd) (wd_db w') =
      Some (downloaded_row (Unix (wd_now wf)) (blen (ft_plaintext f)) t' (sha256_hex (ft_plaintext f)) (n_Etag nd) row) ∧
    (n_ID nd ≠ 0 → n_Etag nd ≠ "" →
     localCopyMatches (n_ID nd) p (FsFile (ft_plaintext f) t) (n_Size (node_at l w')) (n_Etag (node_at l w')) w' = true).
Proof.
  intros H. cbv zeta. intros Hc Hl Hr.
  destruct (downloadFile_cases _ _ _ _ _ H) as [[? _]|(p & before & w1 & Hp & _ & _ & _ & -> & Hcase)]; [done|].
  destruct Hcase as [[? _]|(f & w2 & Hf & Hpub & Hfs & Hdb & Hns)]; [done|].
  destruct (publish_records _ _ _ _ _ _ _ _ _ _ nd row Hpub Hc Hl Hr) as (Htag & (t & Hfile) & Hc2 & Hn2 & t' & Hr2).
  exists p, f, t, t'. rewrite Hfs, Hns, Hdb, Htag. repeat (split; [done|]). intros Hid Hne.
  assert (n_Size (node_at l w') = blen (ft_plaintext f) ∧ n_Etag (node_at l w') = n_Etag nd) as [-> ->].
  { rewrite (node_at_lookup l w' _ ltac:(rewrite Hns; exact Hn2)). done. }
  unfold localCopyMatches. rewrite Hdb. rewrite decide_False by (intros Hx; apply Hx; done).
  rewrite decide_False by (by rewrite Htag; intros []). 
  rewrite GetInode_row, Hr2 by done. cbn [scan_row]. unfold LocalContentState. rewrite query_open by done.
  unfold row_of in Hr2. rewrite Hr2. cbn -[decide sha256_hex].
  rewrite decide_False by (intros Hx; by pose proof (sha256_hex_length (ft_plaintext f)) as Hlen; rewrite Hx in Hlen).
  rewrite decide_False by (rewrite Htag; intros Hx; by apply Hx).
  unfold hashLocalFile. rewrite (proj2 (os_Lstat_file (wd_fs w') p (ft_plaintext f) t)) by (by rewrite Hfs).
  by apply bool_decide_eq_true.
Qed.
End records.

(** ** A removed local copy is kept in the trash *)

(** Every directory on the way to an entry exists. *)
Definition parents_exist (fs : LocalFs) : Prop :=
  ∀ p t, p ≠ "" → is_Some (fs !! (p +:+ "/" +:+ t)) → is_Some (fs !! p).

Lemma split_slash_app s1 s2 : split_on slash (s1 +:+ "/" +:+ s2) = split_on slash s1 ++ split_on slash s2.
Proof.
  change ("/" +:+ s2) with (String.String slash s2). induction s1 as [|a s1 IH]; [done|].
  change (String.String a s1 +:+ String.String slash s2) with (String.String a (s1 +:+ String.String slash s2)).
  cbn [split_on]. rewrite IH. destruct (split_on slash s1) eqn:Hs; [by destruct (split_on_nonempty slash s1)|].
  by destruct (decide (a = slash)).
Qed.

Lemma abs_cons x es : abs (x :: es) = join_with "/" ("" :: x :: es).
Proof. done. Qed.

(** A path above a clean path. *)
Lemma above_abs p t es : Forall name_ok es → p ≠ "" → p +:+ "/" +:+ t = abs es →
  ∃ es1 es2, es = es1 ++ es2 ∧ es1 ≠ [] ∧ es2 ≠ [] ∧ p = abs es1.
Proof.
  intros Hes Hp He. pose proof (f_equal (split_on slash) He) as Hs. rewrite split_slash_app in Hs.
  pose proof (join_split slash p) as Hj. pose proof (split_on_nonempty slash p) as Hne.
  destruct es as [|x es].
  { destruct p as [|a p]; [done|]. injection He as _ He. by destruct p. }
  rewrite (split_abs (x :: es)) in Hs by (done || by apply name_ok_no_slash).
  destruct (split_on slash p) as [|y es1]; [done|]. injection Hs as -> Hs.
  exists es1, (split_on slash t). split; [done|]. destruct es1 as [|z es1]; [done|].
  split; [done|]. split; [apply split_on_nonempty|]. by rewrite abs_cons, <- Hj.
Qed.

Lemma abs_app es1 es2 : es1 ≠ [] → es2 ≠ [] → ∃ t, abs (es1 ++ es2) = abs es1 +:+ "/" +:+ t.
Proof.
  intros H1 H2. exists (join_with "/" es2). unfold abs.
  change (String.String slash (join_with "/" es1) +:+ "/" +:+ join_with "/" es2)
    with (String.String slash (join_with "/" es1 +:+ "/" +:+ join_with "/" es2)). f_equal.
  induction es1 as [|x es1 IH]; [done|]. destruct es1 as [|y es1]; [by destruct es2|].
  change (join_with "/" ((x :: y :: es1) ++ es2)) with (x +:+ "/" +:+ join_with "/" ((y :: es1) ++ es2)).
  rewrite IH by done. change (join_with "/" (x :: y :: es1)) with (x +:+ "/" +:+ join_with "/" (y :: es1)).
  by rewrite !append_assoc.
Qed.

Lemma mkdir_all_parents now parts : ∀ fs es fs', Forall name_ok es → Forall name_ok parts →
  (es = [] ∨ is_Some (fs !! abs es)) → parents_exist fs → mkdir_all fs now (abs es) parts = Ok fs' → parents_exist fs'.
Proof.
  induction parts as [|x parts IH]; intros fs es fs' Hes Hps Hcur Hfs; cbn [mkdir_all]; [by intros [= <-]|].
  apply Forall_cons in Hps as [Hx Hps]. rewrite path_Join_abs by done.
  assert (Forall name_ok (es ++ [x])) as Hes' by (apply Forall_app; split; [done|by apply Forall_singleton]).
  destruct (fs !! abs (es ++ [x])) as [[]|] eqn:Hl; try done.
  - apply IH; [done|done|right; by rewrite Hl|done].
  - apply IH; [done|done|right; by rewrite lookup_insert_eq|]. intros p t Hp Hk.
    destruct (decide (p = abs (es ++ [x]))) as [->|Hne]; [by rewrite lookup_insert_eq|]. rewrite lookup_insert_ne by done.
    destruct (decide (p +:+ "/" +:+ t = abs (es ++ [x]))) as [He|Hne']; [|rewrite lookup_insert_ne in Hk by done; by eapply Hfs].
    destruct (above_abs _ _ _ Hes' Hp He) as (es1 & es2 & Heq & H1 & H2 & ->).
    destruct es2 as [|z es2 _] using rev_ind; [done|]. rewrite app_assoc in Heq. apply app_inj_tail in Heq as [-> _].
    destruct Hcur as [Hnil|Hcur]; [by destruct es1|]. destruct es2 as [|z' es2]; [by rewrite app_nil_r in Hcur|].
    destruct (abs_app es1 (z' :: es2)) as [t' Ht']; [done|done|]. rewrite Ht' in Hcur. by apply (Hfs _ t').
Qed.

Lemma MkdirAll_parents fs now p fs' : is_rooted p = true → parents_exist fs →
  os_MkdirAll fs now (path_Dir p) = Ok fs' → parents_exist fs'.
Proof.
  intros Hp Hfs. unfold os_MkdirAll, path_Dir.
  destruct (clean_rooted (match removelast (split_on slash p) with [] => "" | l => join_with "/" l +:+ "/" end)) as (es & Hes & ->).
  { destruct p as [|a p]; [done|]. apply bool_decide_eq_true in Hp as ->. rewrite split_slash.
    pose proof (split_on_nonempty slash p). destruct (split_on slash p) as [|x l]; [done|].
    change (removelast ("" :: x :: l)) with ("" :: removelast (x :: l)). by destruct (removelast (x :: l)). }
  rewrite path_elems_abs by done. by apply (mkdir_all_parents now es fs []); [|done|left|].
Qed.

(** [free_name] returns a path that cannot be looked at, and gives up only when all
    it tried exist. *)
Lemma free_name_Some path : ∀ fuel fs dst i r, free_name fuel fs path dst i = Some r →
  (∃ err, os_Lstat fs r = Err err) ∧ (r = dst ∨ ∃ j, i ≤ j ∧ r = path +:+ "." +:+ fmt_d j).
Proof.
  induction fuel as [|fuel IH]; intros fs dst i r; cbn [free_name].
  - destruct (os_Lstat fs dst) eqn:Hl; [done|]. intros [= <-]. split; [by eexists|by left].
  - destruct (os_Lstat fs dst) eqn:Hl; [|intros [= <-]; split; [by eexists|by left]].
    intros [Hr [->|(j & Hj & ->)]]%IH; (split; [done|right]); [by exists i|exists j]. split; [lia|done].
Qed.

Lemma free_name_None path fs : ∀ fuel dst i, free_name fuel fs path dst i = None →
  ∀ j, i ≤ j < i + Z.of_nat fuel → is_Some (fs !! (path +:+ "." +:+ fmt_d j)).
Proof.
  assert (∀ p e, os_Lstat fs p = Ok e → is_Some (fs !! p)) as Hsome
    by (intros p e; unfold os_Lstat; destruct (fs !! p); [by eexists|done]).
  induction fuel as [|fuel IH]; intros dst i; cbn [free_name]; [lia|].
  destruct (os_Lstat fs dst) as [e|] eqn:Hl; [|done]. intros H j Hj.
  destruct (decide (j = i)) as [->|]; [|apply (IH _ _ H); lia].
  destruct fuel as [|fuel]; cbn [free_name] in H; destruct (os_Lstat fs (path +:+ "." +:+ fmt_d i)) eqn:Hi; by eauto.
Qed.

(** The search for a free name in the trash ends. *)
Lemma free_name_ends fs path dst i : is_Some (free_name (S (size fs)) fs path dst i).
Proof.
  destruct (free_name _ _ _ _ _) as [r|] eqn:Hf; [by eexists|exfalso].
  pose proof (free_name_None _ _ _ _ _ Hf) as Hall.
  set (l := (λ j, path +:+ "." +:+ fmt_d j) <$> seqZ i (Z.of_nat (S (size fs)))).
  assert (NoDup l) as Hnd.
  { apply NoDup_fmap_2; [|apply NoDup_seqZ]. intros j k Hjk. apply (inj (String.append path)) in Hjk.
    apply (inj (String.append ".")) in Hjk. by apply (inj fmt_d) in Hjk. }
  assert (list_to_set l ⊆@{gset string} dom fs) as Hsub.
  { intros x Hx. apply elem_of_list_to_set, list_elem_of_fmap in Hx as (j & -> & Hj%elem_of_seqZ).
    apply elem_of_dom, Hall. lia. }
  apply subseteq_size in Hsub. rewrite size_list_to_set, size_dom in Hsub by done.
  unfold l in Hsub. rewrite length_fmap, length_seqZ in Hsub. lia.
Qed.

Lemma append_nil_r s : s +:+ "" = s.
Proof. induction s as [|a s IH]; [done|]. by change (String.String a (s +:+ "") = String.String a s); rewrite IH. Qed.

(** A rename to a free place keeps every entry. *)
Section rename.
Context (fs : LocalFs) (src dst : string).
Hypothesis Hfs : parents_exist fs.
Hypothesis Hdst : fs !! dst = None.
Hypothesis Hne : dst ≠ "".

Lemma moved_key_cases k :
  (∃ t, k = src +:+ t ∧ (t = "" ∨ ∃ t', t = "/" +:+ t') ∧ moved_key src dst k = dst +:+ t) ∨ moved_key src dst k = k.
Proof using Type.
  unfold moved_key. destruct (decide (k = src)) as [->|]; [left; exists ""; rewrite !append_nil_r; eauto|].
  destruct (has_prefix (src +:+ "/") k) eqn:Hp; [|by right]. left. apply has_prefix_app in Hp as [t ->].
  rewrite append_assoc, trim_prefix_app. exists ("/" +:+ t). eauto.
Qed.

(** Nothing is at or below the free place. *)
Lemma nothing_below t : t = "" ∨ (∃ t', t = "/" +:+ t') → fs !! (dst +:+ t) = None.
Proof using Hfs Hdst Hne.
  intros [->|[t' ->]]; [by rewrite append_nil_r|]. destruct (fs !! (dst +:+ "/" +:+ t')) as [e|] eqn:Hl; [|done].
  destruct (Hfs dst t' Hne) as [e' He']; [exists e; exact Hl|congruence].
Qed.

Lemma moved_key_inj k1 k2 : is_Some (fs !! k1) → is_Some (fs !! k2) →
  moved_key src dst k1 = moved_key src dst k2 → k1 = k2.
Proof using Hfs Hdst Hne.
  intros [e1 H1] [e2 H2].
  destruct (moved_key_cases k1) as [(t1 & -> & Ht1 & ->)| ->], (moved_key_cases k2) as [(t2 & -> & Ht2 & ->)| ->]; [|..|done].
  - intros Ht%(inj (String.append dst)). by rewrite Ht.
  - intros <-. by rewrite (nothing_below _ Ht1) in H2.
  - intros ->. by rewrite (nothing_below _ Ht2) in H1.
Qed.

Lemma os_Rename_spec fs' : os_Rename fs src dst = Ok fs' → is_Some (fs !! src) ∧
  ∀ k e, fs' !! k = Some e ↔ ∃ k0, fs !! k0 = Some e ∧ moved_key src dst k0 = k.
Proof using Hfs Hdst Hne.
  unfold os_Rename. destruct (os_Lstat fs src) as [e0|] eqn:Hs; [|done]. rewrite Hdst.
  destruct (has_prefix _ _); [done|]. intros [= <-].
  split; [unfold os_Lstat in Hs; destruct (fs !! src); [by eexists|done]|].
  assert (∀ k, is_Some (fs !! k) → ∀ k', is_Some (fs !! k') → moved_key src dst k = moved_key src dst k' → k = k') as Hinj
    by (intros; by apply moved_key_inj).
  set (P := λ (r m : LocalFs), m ⊆ fs → ∀ k e, r !! k = Some e ↔
    ∃ k0, fs !! k0 = Some e ∧ (is_Some (m !! k0) ∨ moved_key src dst k0 = k0) ∧ moved_key src dst k0 = k).
  match goal with |- context [map_fold ?f ?b fs] => enough (P (map_fold f b fs) fs) as H end.
  { intros k e. rewrite (H (reflexivity fs)).
    split; [intros (k0 & ? & _ & ?); eauto|intros (k0 & Hk0 & ?); exists k0; rewrite Hk0; eauto]. }
  apply (map_fold_weak_ind P); unfold P.
  - intros _ k e. rewrite map_lookup_filter_Some. cbn [fst]. split.
    + intros [Hk Hs0]. exists k. eauto.
    + intros (k0 & Hk & [[? H0]|Hs0] & He); [by rewrite lookup_empty in H0|]. rewrite Hs0 in He. by subst.
  - intros j x m r Hj IH Hsub k e.
    assert (fs !! j = Some x ∧ m ⊆ fs) as [Hjx Hm].
    { split; [eapply lookup_weaken; [|exact Hsub]; by rewrite lookup_insert_eq|]. etrans; [|exact Hsub]. by apply insert_subseteq. }
    specialize (IH Hm). destruct (decide (moved_key src dst j = j)) as [Hst|Hmv].
    + rewrite IH. split; intros (k0 & Hk & Hor & He); exists k0; (split; [done|]); (split; [|done]).
      * destruct Hor as [Hor|]; [left|by right]. destruct (decide (k0 = j)) as [->|]; [by rewrite lookup_insert_eq|by rewrite lookup_insert_ne].
      * destruct (decide (k0 = j)) as [->|]; [by right|]. by rewrite lookup_insert_ne in Hor.
    + destruct (decide (k = moved_key src dst j)) as [->|Hk].
      * rewrite lookup_insert_eq. split; [intros [= <-]; exists j; rewrite lookup_insert_eq; eauto|].
        intros (k0 & Hk0 & _ & He). apply Hinj in He as ->; [congruence|by rewrite Hk0|by rewrite Hjx].
      * rewrite lookup_insert_ne, IH by done. split; intros (k0 & Hk0 & Hor & He); exists k0; (split; [done|]); (split; [|done]);
          (assert (k0 ≠ j) by congruence); by rewrite lookup_insert_ne in *.
Qed.
Lemma os_Rename_gone fs' : os_Rename fs src dst = Ok fs' → fs' !! src = None.
Proof using Hfs Hdst Hne.
  intros Hren. destruct (os_Rename_spec fs' Hren) as [Hsrc Hspec].
  destruct (fs' !! src) as [e|] eqn:Hfp; [exfalso|done]. apply Hspec in Hfp as (k0 & Hk0 & Hmv).
  destruct (moved_key_cases k0) as [(t & -> & Ht & Hk)|Hk]; rewrite Hk in Hmv.
  - rewrite <- Hmv, nothing_below in Hsrc by done. by destruct Hsrc.
  - subst k0. unfold moved_key in Hk. rewrite decide_True in Hk by done. rewrite <- Hk in Hk0. congruence.
Qed.
End rename.

Section removes.
Context `{U : Unicode, BL : Blake2b, A : AEAD, X : X25519, K : MLKEM, HK : Hkdf, SH : Sha256, CS : ChunkSize}.
Variable d : Downloader.

Definition trash_path (remotePath : string) : string :=
  filepath_Join [dl_syncDir d; ".pigcloud"; "trash"; relative d remotePath].

Lemma trash_path_rooted remotePath : is_rooted (dl_syncDir d) = true → is_rooted (trash_path remotePath) = true.
Proof.
  intros Hr. unfold trash_path, filepath_Join. destruct (dl_syncDir d) as [|a s] eqn:Hd; [done|].
  rewrite filter_cons_True by done. set (l := filter _ _). 
  destruct (clean_rooted (join_with "/" (String.String a s :: l))) as (es & _ & ->); [|done].
  by destruct l.
Qed.

End removes.

Section retries.
Context `{U : Unicode, BL : Blake2b, A : AEAD, X : X25519, K : MLKEM, HK : Hkdf, SH : Sha256, CS : ChunkSize}.
Variable d : Downloader.

(** Failures that say nothing about the file: the client stops, or someone else
    changed it. *)
Definition passing_failure (err : error) : bool :=
  errors_Is ContextCanceled err || errors_Is ErrDownloadLocalChanged err || errors_Is ErrDownloadRemoteChanged err.

Definition next_attempt (id : Z) (w : World) : Z :=
  match GetSyncFailure id FailureDownload (wd_db w) with Ok (Some prev) => f_Attempts prev + 1 | _ => 1 end.

(** After a failed download the file is not tried again before the backoff of
    the number of its failures so far is over, and never again by itself when the
    failure is permanent, which also shows in the file's status.  A cancelled
    download and one that lost against a local or remote change are not counted. *)
Theorem recordDownloadFailure_waits l err w t :
  db_wf (wd_db w) → closed (wd_db w) = false → n_ID (node_at l w) ≠ 0 →
  let id := n_ID (node_at l w) in
  let w' := recordDownloadFailure d l err w in
  if passing_failure err then w' = w
  else downloadDue id (w' <| wd_now := t |>) =
         negb (IsPermanent err) && bool_decide (Unix (wd_now w + TransferBackoff (next_attempt id w)) ≤ Unix t) ∧
       next_attempt id w' = next_attempt id w + 1 ∧
       row_of id (wd_db w') = (λ r, if IsPermanent err then r <| c_sync_status := StatusFailed |> <| c_status_reason := dl_Error d err |> else r)
                                <$> row_of id (wd_db w).
Proof.
  intros Hwf Hc Hid. cbv zeta. unfold recordDownloadFailure, passing_failure. cbv zeta.
  destruct (errors_Is ContextCanceled err) eqn:H1, (errors_Is ErrDownloadLocalChanged err) eqn:H2,
    (errors_Is ErrDownloadRemoteChanged err) eqn:H3; cbn [orb]; try (by rewrite decide_True by auto 6).
  rewrite decide_False by naive_solver. set (id := n_ID (node_at l w)) in *. fold (next_attempt id w).
  set (w1 := if IsPermanent err then _ else w).
  assert (db_wf (wd_db w1) ∧ closed (wd_db w1) = false ∧ row_of id (wd_db w1) =
    (λ r, if IsPermanent err then r <| c_sync_status := StatusFailed |> <| c_status_reason := dl_Error d err |> else r)
      <$> row_of id (wd_db w)) as (Hwf1 & Hc1 & Hr1).
  { unfold w1. destruct (IsPermanent err); [|by destruct (row_of id (wd_db w))]. rewrite wd_db_call. unfold SetSyncStatus.
    rewrite ui_closed, ui_row by done. split; [|done]. unfold update_inode, exec_. by apply wf_exec, wf_inodes_update. }
  set (f := mkSyncFailure id FailureDownload _ _ _ _).
  assert (GetSyncFailure id FailureDownload (wd_db (call_db (RecordSyncFailure f) w1)) = Ok (Some f)) as Hget.
  { rewrite wd_db_call, GetSyncFailure_Record by done. by rewrite decide_True. }
  split; [|split].
  - unfold downloadDue. rewrite decide_False by done.
    change (wd_db (_ <| wd_now := t |>)) with (wd_db (call_db (RecordSyncFailure f) w1)). rewrite Hget.
    unfold f. cbn [f_Permanent f_NextRetryAt]. by destruct (IsPermanent err).
  - unfold next_attempt at 1. by rewrite Hget.
  - rewrite wd_db_call. unfold RecordSyncFailure. by rewrite sf_row.
Qed.
End retries.

(** ** Witnesses *)

#[local] Existing Instance ex_chunk_size | 0.
#[local] Existing Instance ex_unicode.

(** A synchronised file whose next version the server has; the user saves another
    file while it is fetched. *)
Definition ex_baseline : string := sha256_hex [x41; x42].
Definition ex_synced_row : inode_row :=
  (excluded_row 1 (mkInode 0 "a.txt" "a.txt" false 2 80 false false false 0 "" ex_baseline 80 "" "" "v2" 0 StatusSynced ""))
    <| c_download_baseline_hash := ex_baseline |> <| c_local_remote_etag := "v1" |>.
Definition ex_synced_node : Node :=
  (NewFileNode "a.txt" "a.txt" 2 0 None) <| n_ID := 1 |> <| n_Etag := "v2" |> <| n_Mtime := 95 * second |>.
Definition ex_synced_world : World :=
  mkWorld (mkVFS "" (mkDB [ex_synced_row] 1 [] 0 [] false false) ex_store0 false {[ 1%positive := ex_synced_node ]}
             {[ 1 := 1%positive ]} true None 0 ∅) ex_sync_fs (100 * second) [] no_suppression.
Definition ex_saved : World → World := λ w, w <| wd_fs := <["/sync/b.txt" := FsFile [x44] (99 * second)]> (wd_fs w) |>.
Definition ex_downloader (fetched : result error Fetched) : Downloader :=
  mkDownloader (ex_mount true []) "/sync" "" true true (λ _ w, (fetched, ex_saved w))
    (λ fs0 fs p, bool_decide (is_Some (fs0 !! p) ∧ is_Some (fs !! p)))
    (λ _, mkPublishFaults None None None true) (λ _, None) (λ e, match e with ErrText s => s | _ => "error" end).
Definition ex_dl : Downloader := ex_downloader (Ok (mkFetched [x43] "sealed" "meta")).

Lemma downloadFile_replaces_witness :
  wd_fs (downloadFile ex_dl 1 ex_synced_world).2 !! "/sync/b.txt" = Some (FsFile [x44] (99 * second)) ∧
  wd_fs (downloadFile ex_dl 1 ex_synced_world).2 !! "/sync/a.txt" = Some (FsFile [x43] (95 * second)).
Proof.
  split; [|vm_compute; reflexivity].
  destruct (downloadFile ex_dl 1 ex_synced_world) as [r w'] eqn:Hrun.
  destruct (downloadFile_replaces ex_dl 1 ex_synced_world r w' Hrun) as [[Hr _]|H].
  - exfalso. apply Hr. change r with (r, w').1. rewrite <- Hrun. vm_compute. reflexivity.
  - destruct (H "/sync/b.txt" (FsFile [x44] (99 * second)) ltac:(vm_compute; reflexivity)) as [Hk|[Hp _]]; [exact Hk|].
    exfalso. vm_compute in Hp. discriminate.
Defined.

Lemma downloadFile_records_witness :
  localCopyMatches 1 "/sync/a.txt" (FsFile [x43] (95 * second)) 1 "v2" (downloadFile ex_dl 1 ex_synced_world).2 = true.
Proof.
  destruct (downloadFile ex_dl 1 ex_synced_world) as [r w'] eqn:Hrun.
  assert (r = None ∧ wd_fs w' !! "/sync/a.txt" = Some (FsFile [x43] (95 * second))) as [-> Hfs].
  { change r with (r, w').1. change (wd_fs w') with (wd_fs (r, w').2). rewrite <- Hrun. split; vm_compute; reflexivity. }
  destruct (downloadFile_records ex_dl 1 ex_synced_world w' ex_synced_node ex_synced_row Hrun eq_refl eq_refl eq_refl)
    as (p & f & t & t' & Hp & Hf & _ & Hfile & Hn & _ & Hm).
  assert (p = "/sync/a.txt") as -> by (vm_compute in Hp; congruence).
  assert (f = mkFetched [x43] "sealed" "meta") as -> by (injection Hf as <-; reflexivity).
  rewrite (node_at_lookup _ _ _ Hn) in Hm. rewrite Hfs in Hfile. injection Hfile as <-.
  exact (Hm ltac:(discriminate) ltac:(discriminate)).
Defined.

Lemma ex_sync_parents : parents_exist ex_sync_fs.
Proof.
  assert (∀ x, x ∈ ["sync"; "a.txt"] → name_ok x) as Hok.
  { intros x Hx. rewrite !elem_of_cons, elem_of_nil in Hx. by destruct Hx as [->|[->|[]]]. }
  intros p t Hp [e He]. unfold ex_sync_fs in He.
  apply lookup_insert_Some in He as [[He _]|[_ He]]; [|apply lookup_insert_Some in He as [[He _]|[_ He]]; [|by rewrite lookup_empty in He]].
  - destruct (above_abs p t ["sync"]) as (es1 & es2 & Hes & H1 & H2 & _); [|done|done|].
    + rewrite Forall_singleton. apply Hok. by left.
    + by destruct es1 as [|? [|? ?]], es2.
  - destruct (above_abs p t ["sync"; "a.txt"]) as (es1 & es2 & Hes & H1 & H2 & ->); [|done|done|].
    + rewrite !Forall_cons, Forall_nil. split_and!; [apply Hok; by left|apply Hok; right; by left|done].
    + assert (es1 = ["sync"]) as -> by (destruct es1 as [|? [|? [|? ?]]], es2; naive_solver). by eexists.
Qed.


Lemma recordDownloadFailure_waits_witness :
  downloadDue 1 ((recordDownloadFailure ex_dl 1 (ErrText "refused") ex_synced_world) <| wd_now := 101 * second |>) = false.
Proof.
  destruct (recordDownloadFailure_waits ex_dl 1 (ErrText "refused") ex_synced_world (101 * second)) as [H _].
  - split; by apply (bool_decide_unpack _); vm_compute.
  - reflexivity.
  - discriminate.
  - transitivity (negb (IsPermanent (ErrText "refused")) && bool_decide (Unix (wd_now ex_synced_world +
      TransferBackoff (next_attempt 1 ex_synced_world)) ≤ Unix (101 * second))); [exact H|vm_compute; reflexivity].
Defined.
