(* ===== verification/Daemon.v ===== *)
(** * The mount daemons

    [internal/mount/daemon]: the requests of the command line ([ipc_server.go]),
    the gate that keeps changes out of a shutdown, the activity ring, and what the
    daemon of a virtual mount ([daemon.go]) and the one of a sync folder
    ([sync_daemon.go]) do for [retry], [resolve], [files], [conflicts] and
    [status]. *)
From S2P Require Import Prelude GoLib GoFmt Table ApiErrors Crypto Hybrid Names CacheDB CacheStore CacheEvict.
From S2P Require Import FileTypes LocalFs VfsNode VfsContent Writeback VfsTree Watcher Poller Downloader.
Local Open Scope Z_scope.

(** ** Activity *)

(** A record for every transfer, the last hundred of them. *)
Record ActivityEvent : Type := mkActivityEvent {
  ae_Path : string; ae_Direction : string; ae_Bytes : Z; ae_Timestamp : Z; ae_Error : string }.
Definition no_event : ActivityEvent := mkActivityEvent "" "" 0 0 "".

Definition activityRingSize : nat := 100.

(** The array, the next place to write, how many are in use. *)
Record activityRing : Type := mkRing { ar_buf : list ActivityEvent; ar_next : nat; ar_count : nat }.
Definition empty_ring : activityRing := mkRing (replicate activityRingSize no_event) 0 0.

Definition ring_add (ev : ActivityEvent) (r : activityRing) : activityRing :=
  mkRing (<[ar_next r := ev]> (ar_buf r)) ((ar_next r + 1) mod activityRingSize)
    (if decide (ar_count r < activityRingSize)%nat then ar_count r + 1 else ar_count r).

(** Newest first; Go's [%] truncates, hence the second one. *)
Definition ring_index (next i : nat) : Z :=
  Z.rem (Z.rem (Z.of_nat next - 1 - Z.of_nat i) (Z.of_nat activityRingSize) + Z.of_nat activityRingSize) (Z.of_nat activityRingSize).
Definition snapshot (r : activityRing) : list ActivityEvent :=
  (λ i, default no_event (ar_buf r !! Z.to_nat (ring_index (ar_next r) i))) <$> seq 0 (ar_count r).

(** ** The gate *)

Record mutationGate : Type := mkGate { g_closed : bool; g_wg : nat }.
Definition open_gate : mutationGate := mkGate false 0.
Definition gate_begin (g : mutationGate) : bool * mutationGate :=
  if g_closed g then (false, g) else (true, mkGate false (g_wg g + 1)).
Definition gate_end (g : mutationGate) : mutationGate := mkGate (g_closed g) (g_wg g - 1).
Definition gate_close (g : mutationGate) : mutationGate := mkGate true (g_wg g).
(** [run] calls its function under the gate's lock. *)
Definition gate_run {S} (fn : S → S) (g : mutationGate) (s : S) : bool * S :=
  if g_closed g then (false, s) else (true, fn s).

(** ** Requests *)

Record DaemonRequest : Type := mkRequest { rq_Token : string; rq_Action : string; rq_Path : string; rq_Choice : string }.
Record FileEntry : Type := mkFileEntry {
  fe_Path : string; fe_Status : string; fe_Dirty : bool; fe_Size : Z; fe_Pinned : bool; fe_Reason : string }.

Record DaemonResponse : Type := mkResponse {
  rs_OK : bool; rs_Error : string; rs_Online : bool; rs_MountPoint : string; rs_RemotePath : string;
  rs_Mode : string; rs_SyncDir : string; rs_CacheUsed : Z; rs_CacheMax : Z; rs_PendingCount : Z;
  rs_FailedCount : Z; rs_DeferredCount : Z; rs_NextDueSeconds : Z; rs_Retried : Z; rs_FailedDownloadCount : Z;
  rs_LastPoll : string; rs_Uptime : string; rs_Cleaned : Z; rs_Files : list FileEntry; rs_Activity : list ActivityEvent }.
#[export] Instance DaemonResponse_eta : Eta DaemonResponse := λ r,
  mkResponse (rs_OK r) (rs_Error r) (rs_Online r) (rs_MountPoint r) (rs_RemotePath r) (rs_Mode r) (rs_SyncDir r)
    (rs_CacheUsed r) (rs_CacheMax r) (rs_PendingCount r) (rs_FailedCount r) (rs_DeferredCount r) (rs_NextDueSeconds r)
    (rs_Retried r) (rs_FailedDownloadCount r) (rs_LastPoll r) (rs_Uptime r) (rs_Cleaned r) (rs_Files r) (rs_Activity r).
Definition empty_response : DaemonResponse := mkResponse false "" false "" "" "" "" 0 0 0 0 0 0 0 0 "" "" 0 [] [].
Definition resp_ok : DaemonResponse := empty_response <| rs_OK := true |>.
Definition resp_error (text : string) : DaemonResponse := empty_response <| rs_Error := text |>.

Definition isMutatingIPC (action : string) : bool :=
  bool_decide (action ∈ ["pin"; "unpin"; "flush"; "clean"; "resolve"; "retry"]).

Definition FlushBudget : Z := 30 * second.

(** What a daemon offers to the server of requests. *)
Record ipcHost : Type := mkHost {
  ih_token : string;
  ih_handleStatus : World → DaemonResponse * World;
  ih_setPinned : string → bool → World → World;
  ih_flushWriteback : Z → World → result error FlushResult * World;
  ih_cleanRejected : World → result error Z * World;
  ih_retryFailed : string → World → result error Z * World;
  ih_handleExtra : DaemonRequest → World → option (DaemonResponse * World);
  ih_Error : error → string }.

(** The answer, whether a shutdown was started, the world. *)
Definition dispatch (h : ipcHost) (req : DaemonRequest) (w : World) : DaemonResponse * bool * World :=
  let action := rq_Action req in
  if decide (action = "ping") then (resp_ok, false, w)
  else if decide (action = "status") then let '(resp, w) := ih_handleStatus h w in (resp, false, w)
  else if decide (action = "shutdown") then (resp_ok, true, w)
  else if decide (action = "pin" ∨ action = "unpin") then
    (resp_ok, false,
     if decide (rq_Path req ≠ "") then ih_setPinned h (rq_Path req) (bool_decide (action = "pin")) w else w)
  else if decide (action = "flush") then
    match ih_flushWriteback h FlushBudget w with
    | (Err err, w) => (resp_error (ih_Error h err), false, w)
    | (Ok res, w) => (resp_ok <| rs_PendingCount := Flushed res |> <| rs_DeferredCount := Deferred res |>
                        <| rs_NextDueSeconds := NextDue res / second |>, false, w)
    end
  else if decide (action = "clean") then
    match ih_cleanRejected h w with
    | (Err err, w) => (resp_error (ih_Error h err), false, w)
    | (Ok count, w) => (resp_ok <| rs_Cleaned := count |>, false, w)
    end
  else if decide (action = "retry") then
    match ih_retryFailed h (rq_Path req) w with
    | (Err err, w) => (resp_error (ih_Error h err), false, w)
    | (Ok count, w) => (resp_ok <| rs_Retried := count |>, false, w)
    end
  else match ih_handleExtra h req w with
       | Some (resp, w) => (resp, false, w)
       | None => (resp_error "unknown action", false, w)
       end.

(** One connection; [None] is a request that does not decode. *)
Definition handleIPCConn (h : ipcHost) (req : option DaemonRequest) (g : mutationGate) (w : World)
    : DaemonResponse * bool * mutationGate * World :=
  match req with
  | None => (resp_error "invalid request", false, g, w)
  | Some req =>
      if decide (rq_Token req ≠ ih_token h) then (resp_error "unauthorized", false, g, w)
      else if isMutatingIPC (rq_Action req) then
        match gate_begin g with
        | (false, g) => (resp_error "shutting down", false, g, w)
        | (true, g) => let '(resp, stop, w) := dispatch h req w in (resp, stop, gate_end g, w)
        end
      else let '(resp, stop, w) := dispatch h req w in (resp, stop, g, w)
  end.

(** ** What both daemons share *)

(** The text of a status. *)
Definition status_text (s : SyncStatus) : string :=
  match s with
  | StatusSynced => "synced" | StatusPending => "pending" | StatusRejected => "rejected"
  | StatusFailed => "failed" | StatusConflict => "conflict" | StatusOffline => "offline"
  end.

Definition deferredQueue (now : Z) (db : DB) : Z * Z :=
  let horizon := Unix now + 1 in
  match DeferredWritebackCount horizon db with
  | Err _ => (0, 0)
  | Ok (count, next) => if decide (count = 0%nat ∨ next ≤ horizon) then (Z.of_nat count, 0) else (Z.of_nat count, next - horizon)
  end.

Definition fileEntryFromInode (i : Inode) : FileEntry :=
  mkFileEntry (i_RemotePath i) (status_text (i_SyncStatus i)) (i_Dirty i) (i_Size i) (i_Pinned i) (i_StatusReason i).
Definition buildFileEntries (db : DB) : result error (list FileEntry) :=
  match AllInodes db with Err err => Err err | Ok inodes => Ok (fileEntryFromInode <$> inodes) end.
Definition buildConflictEntries (db : DB) : result error (list FileEntry) :=
  match ListIssues db with
  | Err err => Err err
  | Ok issues => Ok (fileEntryFromInode <$> filter (λ i, i_SyncStatus i = StatusConflict) issues)
  end.

(** [strings.TrimSuffix] of a suffix the text has. *)
Definition strip_last (suffix s : string) : string := String.substring 0 (String.length s - String.length suffix) s.
Definition conflictCopyPath (stamp path : string) : string :=
  let base := path_Base path in
  let ext := filepath_Ext base in
  path_Join (path_Dir path) (strip_last ext base +:+ " (conflict " +:+ stamp +:+ ")" +:+ ext).

(** [os.Remove]. *)
Definition os_Remove (fs : LocalFs) (p : string) : result error LocalFs :=
  match os_Lstat fs p with
  | Err e => Err e
  | Ok (FsDir _) => if decide (map_Exists (λ k _, has_prefix (p +:+ "/") k = true) fs)
                    then Err (ErrText "directory not empty") else Ok (delete p fs)
  | Ok _ => Ok (delete p fs)
  end.

(** ** The daemons *)

Definition ModeSync : string := "sync".
Definition ModeVirtual : string := "virtual".

(** The pointers of the structs and what they read of the world: the writeback's
    [FlushAll], the poller's state, the clock's texts, the failures of moving and
    removing a file. *)
Record Daemon : Type := mkDaemon {
  dm_downloader : Downloader;
  dm_FlushAll : Z → World → result error FlushResult * World;
  dm_poller : World → PollState;
  dm_mountPoint : string; dm_remotePath : string; dm_cacheMax : Z; dm_startedAt : Z; dm_token : string;
  dm_stamp : Z → string; dm_Round : Z → string;
  dm_fs_error : World → option error;
  dm_activity : World → activityRing;
  dm_Error : error → string }.

Section daemon.
Context `{U : Unicode, BL : Blake2b, A : AEAD, X : X25519, K : MLKEM, HK : Hkdf, SH : Sha256, CS : ChunkSize}.
Variable dm : Daemon.
Notation m := (dl_mount (dm_downloader dm)).

(** [retryFailed] of the daemon of a virtual mount. *)
Definition virtual_retry_one (w : World) (i : Inode) : World :=
  with_inode_node (i_ID i) (λ nd, nd <| n_SyncStatus := StatusPending |> <| n_StatusReason := "" |>)
    (call_db (SetSyncStatus (i_ID i) StatusPending "") w).
Definition virtual_retryFailed (remotePath : string) (w : World) : result error Z * World :=
  match run_db (ClearFailedTransfers (trim_prefix "/" remotePath)) w with
  | (Err err, w) => (Err err, w)
  | (Ok cleared, w) => (Ok (Z.of_nat (length cleared)), foldl virtual_retry_one w cleared)
  end.

(** [retryFailed] of the daemon of a sync folder. *)
Definition sync_retry_one (w : World) (i : Inode) : World :=
  if i_Dirty i then
    with_inode_node (i_ID i) (λ nd, nd <| n_SyncStatus := StatusPending |> <| n_StatusReason := "" |> <| n_Dirty := true |>)
      (enqueue_wb m (i_ID i) "upload" (i_RemotePath i) (call_db (SetSyncStatus (i_ID i) StatusPending "") w))
  else
    with_inode_node (i_ID i) (λ nd, nd <| n_SyncStatus := StatusSynced |> <| n_StatusReason := "" |> <| n_Cached := false |>)
      (call_db (SetSyncStatus (i_ID i) StatusSynced "") w).
Definition retryFailed (remotePath : string) (w : World) : result error Z * World :=
  match run_db (ClearFailedTransfers (trim_prefix "/" remotePath)) w with
  | (Err err, w) => (Err err, w)
  | (Ok cleared, w) => (Ok (Z.of_nat (length cleared)), foldl sync_retry_one w cleared)
  end.

(** [setNode] of [resolveConflict]. *)
Definition setNode (status : SyncStatus) (dirty : bool) (nd : Node) : Node :=
  let nd := nd <| n_SyncStatus := status |> <| n_StatusReason := "" |> <| n_Dirty := dirty |> in
  if dirty then nd else nd <| n_Cached := false |> <| n_ContentHash := "" |> <| n_Data := None |>.

(** What discarding and copying share once the local file is out of the way. *)
Definition forget_local (i : Inode) (w : World) : World :=
  let id := i_ID i in
  let w := call_db (DeleteWritebackByInode id) w in
  let w := call_db (MarkSynced id "") w in
  let w := call_db (InvalidateCache id) w in
  let w := VfsTree.release_blob (i_ContentHash i) id w in
  with_inode_node id (setNode StatusSynced false) w.

Definition discardLocal (remotePath : string) (i : Inode) (w : World) : option error * World :=
  match localPathWithin (dm_downloader dm) w remotePath with
  | None => (Some (ErrText ("unsafe path: " +:+ remotePath)), w)
  | Some localPath =>
      let w := SuppressPath localPath (5 * second) w in
      match match dm_fs_error dm w with Some err => Err err | None => os_Remove (wd_fs w) localPath end with
      | Ok fs => (None, forget_local i (w <| wd_fs := fs |>))
      | Err err => if IsNotExist err then (None, forget_local i w) else (Some err, w)
      end
  end.

Definition keepBoth (remotePath : string) (i : Inode) (w : World) : option error * World :=
  match localPathWithin (dm_downloader dm) w remotePath with
  | None => (Some (ErrText ("unsafe path: " +:+ remotePath)), w)
  | Some localPath =>
      let w := SuppressPath localPath (5 * second) w in
      match match dm_fs_error dm w with
            | Some err => Err err
            | None => os_Rename (wd_fs w) localPath (conflictCopyPath (dm_stamp dm (wd_now w)) localPath)
            end with
      | Err err => (Some err, w)
      | Ok fs => (None, forget_local i (w <| wd_fs := fs |>))
      end
  end.

Definition keepLocal (remotePath : string) (i : Inode) (w : World) : option error * World :=
  let id := i_ID i in
  if WritebackDisabled (wd_db w) then (Some (ErrSentinel ErrReadOnlyMount), w) else
  let w := call_db (DeleteWritebackByInode id) w in
  let w := call_db (MarkDirty id) w in
  match run_db (EnqueueWriteback (m_marshal m) (m_unmarshal m) id "upload" remotePath "" (m_newKey m w) (Unix (wd_now w))) w with
  | (Err err, w) => (Some err, w)
  | (Ok _, w) => (None, with_inode_node id (setNode StatusPending true) w)
  end.

Definition resolveConflict (remotePath choice : string) (w : World) : option error * World :=
  match GetInodeByPath remotePath (wd_db w) with
  | Err _ => (Some (ErrText ("no such path: " +:+ remotePath)), w)
  | Ok inode =>
      if decide (i_SyncStatus inode ≠ StatusConflict) then
        (Some (ErrText (remotePath +:+ " is not in conflict (status: " +:+ status_text (i_SyncStatus inode) +:+ ")")), w)
      else if decide (choice = "local") then keepLocal remotePath inode w
      else if decide (choice = "remote") then discardLocal remotePath inode w
      else if decide (choice = "both") then keepBoth remotePath inode w
      else (Some (ErrText ("unknown choice " +:+ choice +:+ " (want local, remote, or both)")), w)
  end.

Definition handleFiles (w : World) : DaemonResponse :=
  match buildFileEntries (wd_db w) with
  | Err err => resp_error (dm_Error dm err)
  | Ok entries => resp_ok <| rs_Files := entries |>
  end.
Definition handleConflicts (w : World) : DaemonResponse :=
  match buildConflictEntries (wd_db w) with
  | Err err => resp_error (dm_Error dm err)
  | Ok entries => resp_ok <| rs_Files := entries |>
  end.

Definition handleExtra (req : DaemonRequest) (w : World) : option (DaemonResponse * World) :=
  if decide (rq_Action req = "resolve") then
    match resolveConflict (rq_Path req) (rq_Choice req) w with
    | (Some err, w) => Some (resp_error (dm_Error dm err), w)
    | (None, w) => Some (resp_ok, w)
    end
  else if decide (rq_Action req = "files") then Some (handleFiles w, w)
  else if decide (rq_Action req = "conflicts") then Some (handleConflicts w, w)
  else if decide (rq_Action req = "activity") then Some (resp_ok <| rs_Activity := snapshot (dm_activity dm w) |>, w)
  else None.

Definition lastPollStr (now : Z) (p : PollState) : string :=
  match LastPoll p with None => "" | Some t => fmt_d ((now - t) / second) +:+ "s ago" end.
Definition count_or_zero (r : result error nat) : Z := match r with Ok n => Z.of_nat n | Err _ => 0 end.

Definition handleStatus (sync : bool) (w : World) : DaemonResponse * World :=
  let '(cacheUsed, store) := CacheBytes (Some (wd_db w)) (Some (v_Store (wd_vfs w))) in
  let w := w <| wd_vfs := (wd_vfs w) <| v_Store := default (v_Store (wd_vfs w)) store |> |> in
  let d := wd_db w in
  let '(deferred, nextDue) := deferredQueue (wd_now w) d in
  let resp := resp_ok
    <| rs_Online := IsOnline (dm_poller dm w) |> <| rs_MountPoint := dm_mountPoint dm |>
    <| rs_CacheUsed := cacheUsed |> <| rs_CacheMax := dm_cacheMax dm |>
    <| rs_PendingCount := count_or_zero (PendingWritebackCount d) |> <| rs_FailedCount := count_or_zero (FailedWritebackCount d) |>
    <| rs_DeferredCount := deferred |> <| rs_NextDueSeconds := nextDue |>
    <| rs_LastPoll := lastPollStr (wd_now w) (dm_poller dm w) |> <| rs_Uptime := dm_Round dm (wd_now w - dm_startedAt dm) |> in
  (if sync then resp <| rs_RemotePath := "/" +:+ dm_remotePath dm |> <| rs_Mode := ModeSync |> <| rs_SyncDir := dl_syncDir (dm_downloader dm) |>
                     <| rs_FailedDownloadCount := count_or_zero (FailedDownloadCount d) |>
   else resp <| rs_RemotePath := "/" +:+ trim_prefix "/" (dm_remotePath dm) |> <| rs_Mode := ModeVirtual |>, w).

Definition setPinned (remotePath : string) (pinned : bool) (w : World) : World := call_db (SetPinned remotePath pinned) w.

Definition sync_host : ipcHost :=
  mkHost (dm_token dm) (handleStatus true) setPinned (dm_FlushAll dm) (CleanRejected m) retryFailed handleExtra (dm_Error dm).
Definition virtual_host : ipcHost :=
  mkHost (dm_token dm) (handleStatus false) setPinned (dm_FlushAll dm) (CleanRejected m) virtual_retryFailed (λ _ _, None) (dm_Error dm).
End daemon.

(** ** The activity ring *)

Definition ring_of (evs : list ActivityEvent) : activityRing := foldl (λ r e, ring_add e r) empty_ring evs.

(** The place of event [j] is [j mod 100]. *)
Record ring_inv (evs : list ActivityEvent) (r : activityRing) : Prop := {
  ri_length : length (ar_buf r) = activityRingSize;
  ri_next : ar_next r = (length evs mod activityRingSize)%nat;
  ri_count : ar_count r = (length evs `min` activityRingSize)%nat;
  ri_events : ∀ j, (j < length evs)%nat → (length evs ≤ j + activityRingSize)%nat →
    ar_buf r !! (j mod activityRingSize)%nat = evs !! j }.

Lemma mod_window_ne (n j k : nat) : (k ≠ 0)%nat → (j < n)%nat → (n < j + k)%nat → (j mod k ≠ n mod k)%nat.
Proof.
  intros Hk Hj Hn H. pose proof (Nat.div_mod j k Hk). pose proof (Nat.div_mod n k Hk). rewrite H in *.
  assert (j / k < n / k ∨ j / k = n / k ∨ n / k < j / k)%nat as [|[|]] by lia; nia.
Qed.

Lemma ring_inv_add evs r e : ring_inv evs r → ring_inv (evs ++ [e]) (ring_add e r).
Proof.
  intros [Hl Hn Hc He].
  assert (length evs mod activityRingSize < activityRingSize)%nat as Hlt by (apply Nat.mod_upper_bound; done).
  split; cbn [ring_add ar_buf ar_next ar_count]; rewrite ?length_insert, ?length_app; cbn [length].
  - done.
  - rewrite Hn. by rewrite Nat.Div0.add_mod_idemp_l.
  - rewrite Hc. case_decide; lia.
  - intros j Hj Hw. destruct (decide (j = length evs)) as [->|Hne].
    + rewrite Hn, list_lookup_insert_eq by lia. by rewrite list_lookup_middle.
    + rewrite Hn, list_lookup_insert_ne by (apply not_eq_sym, mod_window_ne; [done|lia..]).
      rewrite He by lia. by rewrite lookup_app_l by lia.
Qed.

Lemma ring_of_inv evs : ring_inv evs (ring_of evs).
Proof.
  unfold ring_of. induction evs as [|e evs IH] using rev_ind; [split; [apply length_replicate|done|done|intros j Hj; cbn in Hj; lia]|].
  rewrite foldl_app. by apply ring_inv_add.
Qed.

Lemma ring_index_spec n i : (i < n)%nat → (i < activityRingSize)%nat →
  Z.to_nat (ring_index (n mod activityRingSize) i) = ((n - 1 - i) mod activityRingSize)%nat.
Proof.
  intros Hi Hs. unfold ring_index. set (s := activityRingSize) in *.
  assert (s ≠ 0)%nat as Hs0 by done. clearbody s.
  pose proof (Nat.mod_upper_bound n s Hs0) as Hm. pose proof (Nat.div_mod n s Hs0) as Hd.
  set (k := (n mod s)%nat) in *. clearbody k.
  destruct (decide (i < k)%nat) as [Hik|Hik].
  - assert (((n - 1 - i) mod s)%nat = (k - 1 - i)%nat) as ->.
    { symmetry. apply (Nat.mod_unique _ _ (n / s)); lia. }
    rewrite (Z.rem_small (Z.of_nat k - 1 - Z.of_nat i)) by lia.
    rewrite <- (Z.rem_unique (Z.of_nat k - 1 - Z.of_nat i + Z.of_nat s) (Z.of_nat s) 1 (Z.of_nat k - 1 - Z.of_nat i)); lia.
  - assert (((n - 1 - i) mod s)%nat = (s + k - 1 - i)%nat) as ->.
    { assert (1 ≤ n / s)%nat by (destruct (n / s)%nat; lia). symmetry. apply (Nat.mod_unique _ _ (n / s - 1)%nat); nia. }
    destruct (decide (Z.of_nat i + 1 - Z.of_nat k = Z.of_nat s)) as [He|He].
    { assert (Z.of_nat k - 1 - Z.of_nat i = - Z.of_nat s) as -> by lia. rewrite Z.rem_opp_l, Z.rem_same, Z.add_0_l, Z.rem_same by lia. lia. }
    replace (Z.of_nat k - 1 - Z.of_nat i) with (- (Z.of_nat i + 1 - Z.of_nat k)) by lia.
    rewrite Z.rem_opp_l, (Z.rem_small (Z.of_nat i + 1 - Z.of_nat k)) by lia. rewrite Z.rem_small by lia. lia.
Qed.

(** The activity of a daemon is the history of its transfers: after any sequence
    of events the ring shows the last hundred of them, newest first. *)
Theorem snapshot_last evs : snapshot (ring_of evs) = take activityRingSize (reverse evs).
Proof.
  destruct (ring_of_inv evs) as [Hl Hn Hc He]. apply list_eq. intros i. unfold snapshot.
  rewrite list_lookup_fmap, Hc. destruct (decide (i < length evs `min` activityRingSize)%nat) as [Hi|Hi].
  - rewrite lookup_seq_lt by done. cbn [fmap option_fmap option_map]. rewrite Nat.add_0_l, Hn, ring_index_spec by lia.
    rewrite He by lia. rewrite lookup_take_lt by lia. rewrite reverse_lookup by lia.
    assert (length evs - 1 - i = length evs - S i)%nat as -> by lia.
    destruct (lookup_lt_is_Some_2 evs (length evs - S i)) as [x Hx]; [lia|]. by rewrite Hx.
  - rewrite lookup_seq_ge by lia. rewrite lookup_ge_None_2; [done|]. rewrite length_take, length_reverse. lia.
Qed.

(** ** Requests at the gate *)

Section requests.
Context `{U : Unicode, BL : Blake2b, A : AEAD, X : X25519, K : MLKEM, HK : Hkdf, SH : Sha256, CS : ChunkSize}.
Variable dm : Daemon.

(** Requests that are answered: well-formed, with the daemon's token, and not
    changing anything once the gate is closed. *)
Definition admitted (token : string) (req : option DaemonRequest) (g : mutationGate) : Prop :=
  ∃ r, req = Some r ∧ rq_Token r = token ∧ (isMutatingIPC (rq_Action r) = true → g_closed g = false).

Definition same_mount (w w' : World) : Prop := wd_db w' = wd_db w ∧ wd_nodes w' = wd_nodes w ∧ wd_fs w' = wd_fs w.

Definition host (sync : bool) : ipcHost := if sync then sync_host dm else virtual_host dm.

Lemma handleStatus_same sync w : same_mount w (handleStatus dm sync w).2.
Proof.
  unfold handleStatus. destruct (CacheBytes _ _) as [used store]. cbv zeta. destruct (deferredQueue _ _). by split_and!.
Qed.

Lemma dispatch_same sync req w resp stop w' :
  isMutatingIPC (rq_Action req) = false → dispatch (host sync) req w = (resp, stop, w') →
  same_mount w w' ∧ (stop = true → rq_Action req = "shutdown").
Proof.
  unfold isMutatingIPC. intros Hmut%bool_decide_eq_false H. rewrite !elem_of_cons, elem_of_nil in Hmut.
  unfold dispatch in H. cbv zeta in H.
  destruct (decide (rq_Action req = "ping")); [by injection H as <- <- <-|].
  destruct (decide (rq_Action req = "status")).
  { assert (ih_handleStatus (host sync) = handleStatus dm sync) as Hs by (by destruct sync). rewrite Hs in H.
    pose proof (handleStatus_same sync w) as Hw. destruct (handleStatus dm sync w). injection H as <- <- <-. by split. }
  destruct (decide (rq_Action req = "shutdown")); [by injection H as <- <- <-|].
  do 4 (rewrite decide_False in H by tauto).
  destruct sync; [|by injection H as <- <- <-].
  change (ih_handleExtra (host true) req w) with (handleExtra dm req w) in H.
  unfold handleExtra in H. rewrite (decide_False (P := rq_Action req = "resolve")) in H by tauto.
  repeat (case_decide; [by injection H as <- <- <-|]). by injection H as <- <- <-.
Qed.

(** A request is answered only with the daemon's token, and one that changes
    something only while the gate is open; any other is refused and changes nothing.
    A request that does not change anything leaves the database, the tree and the
    sync folder alone, and only [shutdown] shuts the daemon down.  The gate is left
    as it was found. *)
Theorem handleIPCConn_guarded sync req g w :
  match handleIPCConn (host sync) req g w with
  | (resp, stop, g', w') =>
      g' = g ∧ (¬ admitted (dm_token dm) req g → rs_OK resp = false ∧ stop = false ∧ w' = w) ∧
      (∀ r, req = Some r → isMutatingIPC (rq_Action r) = false →
       same_mount w w' ∧ (stop = true → rq_Action r = "shutdown"))
  end.
Proof.
  assert (ih_token (host sync) = dm_token dm) as Ht by (by destruct sync).
  unfold handleIPCConn. destruct req as [r|]; [|by split_and!]. rewrite Ht.
  destruct (decide (rq_Token r ≠ dm_token dm)) as [Hne|Heq].
  { split_and!; [done|done|]. intros r' [= <-] _. by split_and!. }
  destruct (isMutatingIPC (rq_Action r)) eqn:Hm.
  - unfold gate_begin. destruct (g_closed g) eqn:Hg; [split_and!; [done|done|]; intros r' [= <-]; by rewrite Hm|].
    destruct (dispatch _ _ _) as [[resp stop] w']. split; [destruct g as [c n]; cbn in *; subst c; unfold gate_end; cbn; f_equal; lia|].
    split; [|intros r' [= <-]; by rewrite Hm]. intros Hna. exfalso. apply Hna. exists r. split_and!; [done|by apply dec_stable|done].
  - destruct (dispatch _ _ _) as [[resp stop] w'] eqn:Hd. split; [done|]. split.
    + intros Hna. exfalso. apply Hna. exists r. split_and!; [done|by apply dec_stable|by rewrite Hm].
    + intros r' [= <-] _. by eapply dispatch_same.
Qed.
End requests.

(** ** Shutting down *)

(** A daemon with its handlers of changes in flight.  [shutdown] closes the gate,
    waits for the handlers or for its deadline, and tears the services down. *)
Inductive phase : Type := Serving | Closing | Drained | Stopped.
Record ServeState : Type := mkServed {
  sv_gate : mutationGate; sv_handlers : list DaemonRequest; sv_services : bool; sv_phase : phase; sv_forced : bool }.
#[export] Instance ServeState_eta : Eta ServeState := λ s,
  mkServed (sv_gate s) (sv_handlers s) (sv_services s) (sv_phase s) (sv_forced s).
Definition serving : ServeState := mkServed open_gate [] false Serving false.

Inductive serve_step : ServeState → ServeState → Prop :=
| step_enter s req g :
    isMutatingIPC (rq_Action req) = true → gate_begin (sv_gate s) = (true, g) →
    serve_step s (s <| sv_gate := g |> <| sv_handlers := req :: sv_handlers s |>)
| step_leave s h1 req h2 :
    sv_handlers s = h1 ++ req :: h2 →
    serve_step s (s <| sv_gate := gate_end (sv_gate s) |> <| sv_handlers := h1 ++ h2 |>)
| step_start s s' :
    gate_run (λ s, s <| sv_services := true |>) (sv_gate s) s = (true, s') → serve_step s s'
| step_close s :
    sv_phase s = Serving → serve_step s (s <| sv_gate := gate_close (sv_gate s) |> <| sv_phase := Closing |>)
| step_drain s :
    sv_phase s = Closing → g_wg (sv_gate s) = 0%nat → serve_step s (s <| sv_phase := Drained |>)
| step_deadline s :
    sv_phase s = Closing → serve_step s (s <| sv_phase := Drained |> <| sv_forced := true |>)
| step_teardown s :
    sv_phase s = Drained → serve_step s (s <| sv_phase := Stopped |> <| sv_services := false |>).

Record serve_inv (s : ServeState) : Prop := {
  si_wg : g_wg (sv_gate s) = length (sv_handlers s);
  si_closed : sv_phase s ≠ Serving → g_closed (sv_gate s) = true;
  si_drained : sv_phase s = Drained ∨ sv_phase s = Stopped → sv_forced s = false → sv_handlers s = [];
  si_stopped : sv_phase s = Stopped → sv_services s = false }.

Lemma serve_inv_step s s' : serve_step s s' → serve_inv s → serve_inv s'.
Proof.
  intros Hstep [Hw Hc Hd Ht]. destruct Hstep as [s req g _ Hg|s h1 req h2 Hh|s s' Hr|s Hp|s Hp H0|s Hp|s Hp].
  - unfold gate_begin in Hg. destruct (g_closed (sv_gate s)) eqn:Ho; [done|]. injection Hg as <-.
    assert (sv_phase s = Serving) as Hp by (destruct (sv_phase s); [done|discriminate Hc; done..]).
    split; cbn; rewrite ?Hp; [rewrite Hw; lia|done|by intros []|done].
  - rewrite Hh, length_app in Hw. cbn [length] in Hw. split; cbn; [rewrite Hw, length_app; lia|done| |done].
    intros H1 H2. specialize (Hd H1 H2). rewrite Hh in Hd. by destruct h1.
  - unfold gate_run in Hr. destruct (g_closed (sv_gate s)) eqn:Ho; [done|]. injection Hr as <-.
    assert (sv_phase s = Serving) as Hp by (destruct (sv_phase s); [done|discriminate Hc; done..]).
    split; cbn; rewrite ?Hp; [done|done|by intros []|done].
  - split; cbn; naive_solver.
  - split; cbn; [done|intros _; apply Hc; by rewrite Hp| |done]. intros _ _. rewrite H0 in Hw. by destruct (sv_handlers s).
  - split; cbn; [done|intros _; apply Hc; by rewrite Hp|done|done].
  - split; cbn; [done|intros _; apply Hc; by rewrite Hp|intros _; apply Hd; by left|done].
Qed.

(** C27: The teardown of a daemon runs alone.  Unless the wait for the handlers ended
    by its deadline, no handler of a change is in flight once the services are torn
    down; none can enter and no service can start from then on, whatever requests
    arrive; and the services that were started are stopped. *)
Theorem teardown_alone s :
  rtc serve_step serving s → sv_phase s = Drained ∨ sv_phase s = Stopped → sv_forced s = false →
  sv_handlers s = [] ∧ (sv_phase s = Stopped → sv_services s = false) ∧
  ∀ s', rtc serve_step s s' → sv_handlers s' = [] ∧ (sv_phase s = Stopped → sv_services s' = false).
Proof.
  intros Hr Hp Hf. assert (serve_inv s) as Hinv.
  { clear Hp Hf. assert (serve_inv serving) as H0 by (by split; naive_solver).
    revert H0. induction Hr as [|x y z Hxy _ IH]; [done|]. intros H0. apply IH. by apply (serve_inv_step x). }
  split; [by apply Hinv|]. split; [apply Hinv|]. intros s' Hs'.
  assert ((sv_phase s' = Drained ∨ sv_phase s' = Stopped) ∧ sv_forced s' = false ∧ serve_inv s' ∧
    (sv_phase s = Stopped → sv_phase s' = Stopped)) as (Hp' & Hf' & Hinv' & Hst).
  { induction Hs' as [|x y z Hxy _ IH]; [done|].
    assert (serve_inv y) as Hy by (by apply (serve_inv_step x)).
    assert ((sv_phase y = Drained ∨ sv_phase y = Stopped) ∧ sv_forced y = false ∧ (sv_phase x = Stopped → sv_phase y = Stopped))
      as (H1 & H2 & H3).
    { pose proof (si_closed _ Hinv) as Hcl. 
      destruct Hxy as [x req g _ Hg|x h1 req h2 Hh|x y Hg|x Hq|x Hq H0|x Hq|x Hq]; cbn in *;
        try (by destruct Hp; congruence); try (by split_and!; auto).
      unfold gate_run in Hg. rewrite Hcl in Hg by (by destruct Hp as [->| ->]). done. }
    destruct (IH ltac:(by eapply rtc_r) H1 H2 Hy) as (I1 & I2 & I3 & I4). split_and!; auto. }
  split; [by apply Hinv'|]. intros H. apply Hinv'. auto.
Qed.

(** ** Retrying what gave up *)

Section retry.
Context `{U : Unicode, BL : Blake2b, A : AEAD, X : X25519, K : MLKEM, HK : Hkdf, SH : Sha256, CS : ChunkSize}.
Variable dm : Daemon.
Notation m := (dl_mount (dm_downloader dm)).

Lemma row_of_SetSyncStatus id i status reason w :
  closed (wd_db w) = false →
  row_of id (wd_db (call_db (SetSyncStatus i status reason) w)) =
    (if decide (id = i) then λ r, r <| c_sync_status := status |> <| c_status_reason := reason |> else λ r, r)
      <$> row_of id (wd_db w).
Proof. intros Hc. rewrite wd_db_call. unfold SetSyncStatus. rewrite update_inode_open by done. by apply row_of_update. Qed.

Lemma SetSyncStatus_frame i status reason w :
  db_open w → let w' := call_db (SetSyncStatus i status reason) w in
  db_open w' ∧ writeback_queue (wd_db w') = writeback_queue (wd_db w).
Proof.
  intros [Hc Hw]. unfold db_open. cbv zeta. rewrite !wd_db_call. unfold SetSyncStatus.
  by rewrite ui_closed, ui_disabled, ui_queue.
Qed.

Lemma enqueue_wb_upload id path w :
  db_open w → let w' := enqueue_wb m id "upload" path w in
  upload_queued id path w w' ∧ db_open w' ∧ (∀ k, row_of k (wd_db w') = row_of k (wd_db w)).
Proof.
  intros [Hc Hw]. cbv zeta. unfold enqueue_wb, upload_queued, db_open, row_of. rewrite wd_db_call. unfold EnqueueWriteback.
  rewrite Hw, Hc. cbn [snd]. split; [|by split_and!]. eexists. split; [|split]; [| |cbn [writeback_queue]; f_equal]; done.
Qed.

(** The edit of the row [id] is still there; once [retried], it is pending and [Q]
    holds of the queue. *)
Definition edit_kept (id : Z) (Q : list WritebackEntry → Prop) (retried : bool) (w : World) : Prop :=
  db_open w ∧ ∃ r, row_of id (wd_db w) = Some r ∧ c_dirty r = true ∧
    (retried = true → c_sync_status r = StatusPending ∧ Q (writeback_queue (wd_db w))).

Lemma edit_kept_status id Q i status b w :
  edit_kept id Q b w → (i = id → status = StatusPending) →
  (i = id → b = false → Q (writeback_queue (wd_db w))) →
  edit_kept id Q (b || bool_decide (i = id)) (call_db (SetSyncStatus i status "") w).
Proof.
  intros (Ho & r & Hr & Hd & Hb) Hs HQ. destruct (SetSyncStatus_frame i status "" w Ho) as [Ho' Hq]. split; [done|].
  rewrite row_of_SetSyncStatus, Hr by apply Ho. rewrite Hq. destruct (decide (id = i)) as [->|Hne].
  - eexists. split; [reflexivity|]. split; [done|]. intros _. split; [by apply Hs|]. destruct b; [by apply Hb|by apply HQ].
  - eexists. split; [reflexivity|]. split; [done|]. rewrite bool_decide_eq_false_2, orb_false_r by done. done.
Qed.

Lemma edit_kept_db id Q b w w' : wd_db w' = wd_db w → edit_kept id Q b w → edit_kept id Q b w'.
Proof. intros H. unfold edit_kept, db_open. by rewrite H. Qed.

Definition none_for (id : Z) (q : list WritebackEntry) : Prop := ∀ e, e ∈ q → w_InodeID e ≠ id.
Definition waits_for (id : Z) (path : string) (q : list WritebackEntry) : Prop :=
  ∃ e, e ∈ q ∧ waiting_upload id e ∧ w_RemotePath e = path.

Lemma retried_cons id i cleared :
  bool_decide (id ∈ (i_ID <$> (i :: cleared))) = bool_decide (i_ID i = id) || bool_decide (id ∈ (i_ID <$> cleared)).
Proof.
  rewrite fmap_cons. destruct (decide (i_ID i = id)) as [<-|Hne].
  - rewrite bool_decide_eq_true_2 by (by left). by rewrite (bool_decide_eq_true_2 (i_ID i = i_ID i)).
  - rewrite (bool_decide_eq_false_2 (i_ID i = id)) by done. apply bool_decide_ext. rewrite elem_of_cons. naive_solver.
Qed.

Lemma virtual_retry_fold id cleared : ∀ b w,
  none_for id (writeback_queue (wd_db w)) → edit_kept id (none_for id) b w →
  edit_kept id (none_for id) (b || bool_decide (id ∈ (i_ID <$> cleared))) (foldl virtual_retry_one w cleared) ∧
  writeback_queue (wd_db (foldl virtual_retry_one w cleared)) = writeback_queue (wd_db w).
Proof.
  induction cleared as [|i cleared IH]; intros b w Hn Hk; cbn [foldl].
  { rewrite bool_decide_eq_false_2, orb_false_r by apply not_elem_of_nil. done. }
  assert (wd_db (virtual_retry_one w i) = wd_db (call_db (SetSyncStatus (i_ID i) StatusPending "") w)) as Hdb
    by (unfold virtual_retry_one; by rewrite wd_db_inode).
  destruct (SetSyncStatus_frame (i_ID i) StatusPending "" w (proj1 Hk)) as [_ Hq].
  destruct (IH (b || bool_decide (i_ID i = id)) (virtual_retry_one w i)) as [H1 H2].
  - by rewrite Hdb, Hq.
  - eapply edit_kept_db; [exact Hdb|]. by apply edit_kept_status.
  - rewrite H2, Hdb. split; [|done]. by rewrite retried_cons, orb_assoc.
Qed.

Lemma sync_retry_one_kept id path i b w :
  (i_ID i = id → i_Dirty i = true ∧ i_RemotePath i = path) →
  edit_kept id (waits_for id path) b w → edit_kept id (waits_for id path) (b || bool_decide (i_ID i = id)) (sync_retry_one dm w i).
Proof.
  intros Hi (Ho & r & Hr & Hd & Hb).
  unfold sync_retry_one. set (st := if i_Dirty i then StatusPending else StatusSynced).
  set (w1 := call_db (SetSyncStatus (i_ID i) st "") w).
  destruct (SetSyncStatus_frame (i_ID i) st "" w Ho) as [Ho1 Hq1]. fold w1 in Ho1, Hq1.
  pose proof (row_of_SetSyncStatus id (i_ID i) st "" w (proj1 Ho)) as Hr1. fold w1 in Hr1. rewrite Hr in Hr1. cbn [fmap option_fmap option_map] in Hr1.
  destruct (i_Dirty i) eqn:Hdi.
  - destruct (enqueue_wb_upload (i_ID i) (i_RemotePath i) w1 Ho1) as ((e & He & Hp & Hq) & Ho2 & Hrow).
    change (call_db (SetSyncStatus (i_ID i) StatusPending "") w) with w1. eapply edit_kept_db; [by rewrite wd_db_inode|]. split; [done|]. rewrite Hrow, Hr1. eexists. split; [reflexivity|].
    destruct (decide (id = i_ID i)) as [->|Hne].
    + split; [done|]. intros _. split; [done|]. exists e. rewrite Hq, elem_of_app, list_elem_of_singleton.
      split; [by right|]. split; [done|]. rewrite Hp. by apply Hi.
    + split; [done|]. rewrite bool_decide_eq_false_2, orb_false_r by done. intros Hbt. destruct (Hb Hbt) as [Hs (e' & He' & Hw' & Hp')].
      split; [done|]. exists e'. rewrite Hq, elem_of_app, elem_of_sql_delete, Hq1. split; [left|done].
      split; [|done]. intros (Hid & _). destruct Hw' as (Hid' & _). congruence.
  - change (call_db (SetSyncStatus (i_ID i) StatusSynced "") w) with w1. eapply edit_kept_db; [by rewrite wd_db_inode|].
    assert (i_ID i ≠ id) as Hne by (intros [Hf _]%Hi; done).
    split; [done|]. exists r. rewrite Hr1, decide_False, bool_decide_eq_false_2, orb_false_r, Hq1 by done. done.
Qed.

Lemma sync_retry_fold id path cleared : ∀ b w,
  (∀ i, i ∈ cleared → i_ID i = id → i_Dirty i = true ∧ i_RemotePath i = path) →
  edit_kept id (waits_for id path) b w →
  edit_kept id (waits_for id path) (b || bool_decide (id ∈ (i_ID <$> cleared))) (foldl (sync_retry_one dm) w cleared).
Proof.
  induction cleared as [|i cleared IH]; intros b w Hi Hk; cbn [foldl].
  { by rewrite bool_decide_eq_false_2, orb_false_r by apply not_elem_of_nil. }
  rewrite retried_cons, orb_assoc. apply IH; [intros j Hj; apply Hi; by right|]. apply sync_retry_one_kept; [apply Hi; by left|done].
Qed.

(** What [retry] does to an upload that was given up depends on the daemon.  In a
    sync folder the failed entry is replaced by a pending one.  In a virtual mount
    the failed entry is deleted and nothing takes its place: the file is dirty and
    shown as pending, the request counts it as retried, and no entry will ever
    upload it. *)
Theorem retry_by_daemon remotePath w r :
  db_wf (wd_db w) → db_open w → kinds_ok (wd_db w) → r ∈ inodes (wd_db w) →
  c_dirty r = true → c_sync_status r = StatusFailed →
  trim_prefix "/" remotePath = "" ∨ trim_prefix "/" remotePath = c_remote_path r →
  (∀ e, e ∈ writeback_queue (wd_db w) → w_InodeID e = c_id r → w_Action e = "upload" ∧ w_Status e = "failed") →
  (∃ n w', virtual_retryFailed remotePath w = (Ok n, w') ∧ 0 < n ∧ none_for (c_id r) (writeback_queue (wd_db w')) ∧
     ∃ r', row_of (c_id r) (wd_db w') = Some r' ∧ c_dirty r' = true ∧ c_sync_status r' = StatusPending) ∧
  (∃ n w', retryFailed dm remotePath w = (Ok n, w') ∧ 0 < n ∧
     waits_for (c_id r) (c_remote_path r) (writeback_queue (wd_db w')) ∧
     ∃ r', row_of (c_id r) (wd_db w') = Some r' ∧ c_dirty r' = true ∧ c_sync_status r' = StatusPending).
Proof.
  intros Hwf Ho Hk Hr Hd Hs Hp Hq.
  destruct (ClearFailedTransfers_spec (trim_prefix "/" remotePath) (wd_db w) (proj1 Ho) Hwf Hk) as (cleared & Hc & Hin).
  assert (run_db (ClearFailedTransfers (trim_prefix "/" remotePath)) w =
    (Ok cleared, w <| wd_vfs := (wd_vfs w) <| v_Cache := clear_ids (i_ID <$> cleared) (wd_db w) |> |>)) as Hrun.
  { unfold run_db, with_db. fold (wd_db w). by rewrite Hc. }
  set (w1 := w <| wd_vfs := _ |>) in Hrun.
  assert (scanInodeRow r ∈ cleared) as Hcl.
  { apply Hin. exists r. split_and!; [done|done|naive_solver|by left|]. unfold clearable. cbn. rewrite Hs. by intros []. }
  assert (c_id r ∈ (i_ID <$> cleared)) as Hid by (apply list_elem_of_fmap; by exists (scanInodeRow r)).
  assert (0 < Z.of_nat (length cleared)) as Hlen by (destruct cleared; [by apply elem_of_nil in Hcl|cbn; lia]).
  assert (∀ Q, edit_kept (c_id r) Q false w1) as Hkept.
  { intros Q. split; [exact Ho|]. exists r. split; [|done]. change (row_of (c_id r) (wd_db w) = Some r). by apply row_of_elem. }
  unfold virtual_retryFailed, retryFailed. rewrite Hrun. split; eexists _, _; (split; [reflexivity|]); (split; [done|]).
  - destruct (virtual_retry_fold (c_id r) cleared false w1) as [(_ & r' & Hr' & Hd' & Hst) _]; [|by apply Hkept|].
    + intros e [Hne He]%elem_of_sql_delete He'. apply Hne. rewrite He'. split; [done|]. by apply Hq.
    + rewrite bool_decide_eq_true_2 in Hst by done. destruct (Hst eq_refl) as [Hst1 Hst2]. eauto 10.
  - destruct (sync_retry_fold (c_id r) (c_remote_path r) cleared false w1) as (_ & r' & Hr' & Hd' & Hst); [|by apply Hkept|].
    + intros i (r0 & Hr0 & -> & _)%Hin Hi. assert (r0 = r) as -> by (apply (keyed_eq c_id (inodes (wd_db w))); [apply Hwf|done..]). done.
    + rewrite bool_decide_eq_true_2 in Hst by done. destruct (Hst eq_refl) as [Hst1 Hst2]. eauto 10.
Qed.
End retry.

(** ** Settling a conflict *)

Section resolve.
Context `{U : Unicode, BL : Blake2b, A : AEAD, X : X25519, K : MLKEM, HK : Hkdf, SH : Sha256, CS : ChunkSize}.
Variable dm : Daemon.
Notation m := (dl_mount (dm_downloader dm)).
Notation d := (dm_downloader dm).

(** The row of a file whose local version was given up: the last local content is
    the baseline of the next download. *)
Definition forgotten_row (row : inode_row) : inode_row :=
  invalidate_row (row <| c_dirty := false |> <| c_sync_status := StatusSynced |> <| c_status_reason := "" |> <| c_etag := "" |>).

Lemma q_row_del id P `{∀ e, Decision (P e)} w :
  row_of id (wd_db (call_db (delete_queue P) w)) = row_of id (wd_db w) ∧ closed (wd_db (call_db (delete_queue P) w)) = closed (wd_db w) ∧
  wd_nodes (call_db (delete_queue P) w) = wd_nodes w.
Proof. rewrite wd_db_call, wd_nodes_call. unfold delete_queue. by rewrite q_row, q_closed. Qed.

Lemma NodeByID_call {T} (op : DB → result error T * DB) id w : NodeByID id (wd_vfs (call_db op w)) = NodeByID id (wd_vfs w).
Proof. by rewrite call_db_eq. Qed.

Lemma forget_local_spec i w l nd row :
  closed (wd_db w) = false → NodeByID (i_ID i) (wd_vfs w) = Some l → wd_nodes w !! l = Some nd →
  row_of (i_ID i) (wd_db w) = Some row →
  let w' := forget_local i w in
  wd_fs w' = wd_fs w ∧ closed (wd_db w') = false ∧ wd_nodes w' !! l = Some (setNode StatusSynced false nd) ∧
  row_of (i_ID i) (wd_db w') = Some (forgotten_row row) ∧ none_for (i_ID i) (writeback_queue (wd_db w')).
Proof.
  intros Hc Hix Hl Hr. cbv zeta. unfold forget_local. cbv zeta. set (id := i_ID i) in *.
  set (w1 := call_db (DeleteWritebackByInode id) w).
  assert (row_of id (wd_db w1) = row_of id (wd_db w) ∧ closed (wd_db w1) = closed (wd_db w) ∧ wd_nodes w1 = wd_nodes w)
    as (Hr1 & Hc1 & Hn1) by apply (q_row_del id (λ e, w_InodeID e = id)). rewrite Hc in Hc1.
  assert (none_for id (writeback_queue (wd_db w1))) as Hq1.
  { unfold w1. rewrite wd_db_call. unfold DeleteWritebackByInode, delete_queue, exec_. rewrite exec_open by done.
    intros e [Hne _]%elem_of_sql_delete. done. }
  pose (f1 := λ r : inode_row, r <| c_dirty := false |> <| c_sync_status := StatusSynced |> <| c_status_reason := "" |> <| c_etag := "" |>).
  pose proof (shifts_update l id _ _ invalidate_row _ _ (λ _, eq_refl)
    (shifts_update l id _ _ f1 _ _ (λ _, eq_refl) (shifts_refl l id w1 Hc1))) as [S1 S2 S3 S4].
  set (w2 := call_db (update_inode id invalidate_row) (call_db (update_inode id f1) w1)) in *.
  set (w3 := VfsTree.release_blob (i_ContentHash i) id w2).
  change (call_db (InvalidateCache id) (call_db (MarkSynced id "") w1)) with w2. fold w3.
  assert (NodeByID id (wd_vfs w3) = Some l) as Hix3 by (change (NodeByID id (wd_vfs w2) = Some l); unfold w2, w1; by rewrite !NodeByID_call).
  unfold with_inode_node. rewrite Hix3. change (wd_fs (on_node _ _ w3)) with (wd_fs w2). change (wd_db (on_node _ _ w3)) with (wd_db w2).
  split; [unfold w2, w1; by rewrite !wd_fs_call|]. split; [exact S1|]. split; [|split; [|by rewrite S2]].
  - rewrite wd_nodes_on_node. change (wd_nodes w3) with (wd_nodes w2). by rewrite S3, Hn1, Hl.
  - by rewrite S4, Hr1, Hr.
Qed.

Lemma path_Clean_ne p : path_Clean p ≠ "".
Proof. unfold path_Clean. destruct (is_rooted p); [done|]. by case_decide. Qed.

Lemma conflictCopyPath_ne stamp path : conflictCopyPath stamp path ≠ "".
Proof.
  unfold conflictCopyPath, path_Join. set (name := _ +:+ _). assert (name ≠ "") as Hn.
  { unfold name. by destruct (strip_last _ _). }
  destruct (decide (path_Dir path = "")) as [->|].
  - rewrite filter_cons_False, filter_cons_True by (done || naive_solver). apply path_Clean_ne.
  - rewrite !filter_cons_True by done. apply path_Clean_ne.
Qed.

(** The place of the conflict copy of [remotePath] made now. *)
Definition copy_path (remotePath : string) (w : World) : string := conflictCopyPath (dm_stamp dm (wd_now w)) (toLocalPath d remotePath).

Lemma path_within w remotePath p : localPathWithin d w remotePath = Some p → p = toLocalPath d remotePath.
Proof. unfold localPathWithin. by destruct (safeSyncPath _ _ _); intros [= <-]. Qed.

(** The failures of the system calls are other than a missing file. *)
Hypothesis fs_errors : ∀ w err, dm_fs_error dm w = Some err → IsNotExist err = false.

(** What [resolve] with [remote] or [both] does when it succeeds. *)
Lemma resolve_given_up remotePath choice w w' i :
  choice = "remote" ∨ choice = "both" → GetInodeByPath remotePath (wd_db w) = Ok i →
  resolveConflict dm remotePath choice w = (None, w') →
  ∃ w1, w' = forget_local i w1 ∧ wd_vfs w1 = wd_vfs w ∧
    if decide (choice = "remote") then wd_fs w1 = delete (toLocalPath d remotePath) (wd_fs w)
    else os_Rename (wd_fs w) (toLocalPath d remotePath) (copy_path remotePath w) = Ok (wd_fs w1).
Proof using fs_errors.
  intros Hch Hi. unfold resolveConflict. rewrite Hi. case_decide; [done|].
  destruct Hch as [->| ->].
  - rewrite (decide_False (P := "remote" = "local")), !(decide_True (P := "remote" = "remote")) by done.
    unfold discardLocal. destruct (localPathWithin d w remotePath) as [p|] eqn:Hp; [|done]. apply path_within in Hp as ->. cbv zeta.
    destruct (dm_fs_error dm _) as [err|] eqn:Hio; [by rewrite (fs_errors _ _ Hio)|].
    unfold os_Remove. change (wd_fs (SuppressPath (toLocalPath d remotePath) (5 * second) w)) with (wd_fs w).
    destruct (os_Lstat _ _) as [e|err] eqn:Hl.
    + intros Hw. exists ((SuppressPath (toLocalPath d remotePath) (5 * second) w) <| wd_fs := delete (toLocalPath d remotePath) (wd_fs w) |>).
      split; [|done]. destruct e; try case_decide; cbv beta iota in Hw; try (by injection Hw as <-). done.
    + destruct (IsNotExist err) eqn:He; [|done]. intros [= <-]. eexists. split; [reflexivity|]. split; [done|].
      symmetry. apply delete_id. change (wd_fs w !! toLocalPath d remotePath = None). unfold os_Lstat in Hl. destruct (wd_fs w !! _) as [[]|]; try done.
      injection Hl as <-. by apply bool_decide_eq_true in He.
  - rewrite (decide_False (P := "both" = "local")), !(decide_False (P := "both" = "remote")), (decide_True (P := "both" = "both")) by done.
    unfold keepBoth. destruct (localPathWithin d w remotePath) as [p|] eqn:Hp; [|done]. apply path_within in Hp as ->. cbv zeta.
    destruct (dm_fs_error dm _) as [err|]; [done|].
    change (wd_fs (SuppressPath (toLocalPath d remotePath) (5 * second) w)) with (wd_fs w).
    change (wd_now (SuppressPath (toLocalPath d remotePath) (5 * second) w)) with (wd_now w).
    fold (copy_path remotePath w). destruct (os_Rename _ _ _) as [fs|]; [|done]. intros [= <-].
    eexists. split; [reflexivity|]. by split.
Qed.

(** A file that is neither cached nor edited and has no local copy is downloaded when due. *)
Lemma check_file_missing dl l w nd :
  wd_nodes w !! l = Some nd → n_Cached nd = false → n_Dirty nd = false → inodeDirty (n_ID nd) w = false →
  wd_fs w !! toLocalPath dl (n_RemotePath nd) = None → check_file dl l w = (downloadDue (n_ID nd) w, w).
Proof using Type.
  intros Hl Hc Hd Hi Hp. unfold check_file. cbv zeta. rewrite (node_at_lookup _ _ _ Hl), Hc, Hd, Hi. cbn [negb andb].
  unfold os_Lstat. by rewrite Hp.
Qed.

(** A conflict settled for the remote version, or for both, leads to its download.
    The local file is removed, or with both kept under the name of a conflict copy
    and every other entry in its place; no upload of the file waits any more, its
    node and row are clean with nothing cached, and the next walk of the downloader
    dispatches it as soon as it is due. *)
Theorem resolve_refetches remotePath choice w w' i l nd row :
  choice = "remote" ∨ choice = "both" → closed (wd_db w) = false →
  GetInodeByPath remotePath (wd_db w) = Ok i → row_of (i_ID i) (wd_db w) = Some row →
  NodeByID (i_ID i) (wd_vfs w) = Some l → wd_nodes w !! l = Some nd → n_ID nd = i_ID i → n_RemotePath nd = remotePath →
  (choice = "both" → parents_exist (wd_fs w) ∧ wd_fs w !! copy_path remotePath w = None) →
  resolveConflict dm remotePath choice w = (None, w') →
  let p := toLocalPath d remotePath in
  none_for (i_ID i) (writeback_queue (wd_db w')) ∧
  wd_nodes w' !! l = Some (setNode StatusSynced false nd) ∧ row_of (i_ID i) (wd_db w') = Some (forgotten_row row) ∧
  wd_fs w' !! p = None ∧
  (choice = "remote" → ∀ k, k ≠ p → wd_fs w' !! k = wd_fs w !! k) ∧
  (choice = "both" → ∀ k e, wd_fs w !! k = Some e → wd_fs w' !! moved_key p (copy_path remotePath w) k = Some e) ∧
  check_file d l w' = (downloadDue (i_ID i) w', w').
Proof using fs_errors.
  intros Hch Hc Hi Hr Hix Hl Hid Hpath Hcopy Hrun. cbv zeta.
  destruct (resolve_given_up _ _ _ _ _ Hch Hi Hrun) as (w1 & -> & Hv & Hfs).
  destruct (forget_local_spec i w1 l nd row) as (Hf & Hc' & Hn' & Hr' & Hq); [by unfold wd_db; rewrite Hv|by rewrite Hv
    |by unfold wd_nodes; rewrite Hv|by unfold wd_db; rewrite Hv|]. cbv zeta in *. set (w' := forget_local i w1) in *.
  assert (wd_fs w' !! toLocalPath d remotePath = None ∧
    (choice = "remote" → ∀ k, k ≠ toLocalPath d remotePath → wd_fs w' !! k = wd_fs w !! k) ∧
    (choice = "both" → ∀ k e, wd_fs w !! k = Some e →
     wd_fs w' !! moved_key (toLocalPath d remotePath) (copy_path remotePath w) k = Some e)) as (Hgone & Hrem & Hboth).
  { rewrite Hf. destruct (decide (choice = "remote")) as [->|Hne].
    - rewrite Hfs, lookup_delete_eq. split; [done|]. split; [|done]. intros _ k Hk. by rewrite lookup_delete_ne.
    - destruct Hch as [Hch| ->]; [done|]. destruct (Hcopy eq_refl) as [Hpar Hfree].
      pose proof (conflictCopyPath_ne (dm_stamp dm (wd_now w)) (toLocalPath d remotePath)) as Hnn.
      split; [by eapply os_Rename_gone|]. split; [done|]. intros _ k e He.
      destruct (os_Rename_spec _ _ _ Hpar Hfree Hnn _ Hfs) as [_ Hspec]. apply Hspec. by exists k. }
  do 6 (split; [done|]).
  assert (inodeDirty (i_ID i) w' = false) as Hdirty.
  { unfold inodeDirty. rewrite GetInode_row, Hr' by done. by destruct (decide (i_ID i = 0)). }
  rewrite <- Hid. apply (check_file_missing d l w' (setNode StatusSynced false nd)); [done|done|done|..].
  - change (n_ID (setNode StatusSynced false nd)) with (n_ID nd). by rewrite Hid.
  - change (n_RemotePath (setNode StatusSynced false nd)) with (n_RemotePath nd). by rewrite Hpath.
Qed.
End resolve.

(** ** A settled conflict that comes back *)

Section undone.
Context `{U : Unicode, BL : Blake2b, A : AEAD, X : X25519, K : MLKEM, HK : Hkdf, SH : Sha256, CS : ChunkSize}.
Variables (dm : Daemon) (po : Poller).

(** What [resolve] with [local] leaves when it succeeds. *)
Lemma resolve_kept_local remotePath w w1 i l nd row :
  closed (wd_db w) = false → GetInodeByPath remotePath (wd_db w) = Ok i → row_of (i_ID i) (wd_db w) = Some row →
  NodeByID (i_ID i) (wd_vfs w) = Some l → wd_nodes w !! l = Some nd →
  resolveConflict dm remotePath "local" w = (None, w1) →
  db_open w1 ∧ wd_nodes w1 !! l = Some (setNode StatusPending true nd) ∧
  row_of (i_ID i) (wd_db w1) = Some (row <| c_dirty := true |> <| c_sync_status := StatusPending |>) ∧
  ∃ e, e ∈ writeback_queue (wd_db w1) ∧ waiting_upload (i_ID i) e.
Proof.
  intros Hc Hi Hr Hix Hl. unfold resolveConflict. rewrite Hi. case_decide; [done|].
  rewrite (decide_True (P := "local" = "local")) by done. unfold keepLocal, WritebackDisabled.
  destruct (writebackDisabled (wd_db w)) eqn:Hw; [done|]. cbv zeta. set (id := i_ID i) in *.
  set (w0 := call_db (MarkDirty id) (call_db (DeleteWritebackByInode id) w)).
  assert (closed (wd_db w0) = false ∧ writebackDisabled (wd_db w0) = false ∧ wd_nodes w0 = wd_nodes w ∧
    NodeByID id (wd_vfs w0) = Some l ∧
    row_of id (wd_db w0) = Some (row <| c_dirty := true |> <| c_sync_status := StatusPending |>)) as (Hc0 & Hw0 & Hn0 & Hix0 & Hr0).
  { unfold w0. rewrite !NodeByID_call, !wd_nodes_call, !wd_db_call. unfold MarkDirty, DeleteWritebackByInode, delete_queue.
    rewrite ui_closed, ui_disabled, q_closed, q_disabled, ui_row, q_row, Hr by (done || by rewrite q_closed). by split_and!. }
  destruct (run_db _ w0) as [r w2] eqn:Hrun. unfold run_db, with_db, EnqueueWriteback in Hrun.
  fold (wd_db w0) in Hrun. rewrite Hw0, Hc0 in Hrun. injection Hrun as <- <-. intros [= <-].
  unfold with_inode_node. cbn [wd_vfs]. change (NodeByID id _) with (NodeByID id (wd_vfs w0)). rewrite Hix0.
  set (w2 := w0 <| wd_vfs := _ |>). rewrite wd_nodes_on_node. change (wd_nodes w2) with (wd_nodes w0). rewrite Hn0, Hl.
  change (wd_db (on_node _ _ w2)) with (wd_db w2). split; [by split|]. split; [done|]. split; [exact Hr0|].
  eexists. split; [apply elem_of_app; right; by left|]. done.
Qed.

(** Keeping the local version of a conflict does not last until it is uploaded.
    Resolving makes the row pending and queues an upload that no batch holds back,
    but the node keeps the version the edit was based on, so the next poll finds the
    same remote version again, puts the file back in conflict and every upload of it
    is held: unless the upload finished before that poll, the choice is undone. *)
Theorem resolve_local_undone remotePath w w1 i l nd row entry :
  closed (wd_db w) = false → GetInodeByPath remotePath (wd_db w) = Ok i → row_of (i_ID i) (wd_db w) = Some row →
  NodeByID (i_ID i) (wd_vfs w) = Some l → wd_nodes w !! l = Some nd → n_ID nd = i_ID i →
  resolveConflict dm remotePath "local" w = (None, w1) →
  n_Etag nd ≠ "" → le_ETag entry ≠ "" → n_Etag nd ≠ le_ETag entry →
  upload_free (i_ID i) w1 ∧
  ∀ e, w_InodeID e = i_ID i → w_Action e = "upload" → heldByConflict e (poll_existing po l entry w1) = true.
Proof.
  intros Hc Hi Hr Hix Hl Hid Hrun He1 He2 Hne.
  destruct (resolve_kept_local _ _ _ _ _ _ _ Hc Hi Hr Hix Hl Hrun) as (Ho & Hn1 & Hr1 & e0 & Hq & Hw0).
  set (nd1 := setNode StatusPending true nd) in *. set (row1 := row <| c_dirty := true |> <| c_sync_status := StatusPending |>) in *. split.
  - exists e0. split; [done|]. split; [done|]. destruct Hw0 as (Hw & Ha & _). unfold heldByConflict. rewrite Hw.
    rewrite GetInode_row, Hr1 by apply Ho. apply andb_false_r.
  - intros e Hei Hea. assert (n_ID nd1 = i_ID i) as Hid1 by exact Hid. rewrite <- Hid1 in Hr1.
    destruct (poll_existing_polled po l entry w1 nd1 row1 Ho Hn1 Hr1) as (Hc' & _ & nd' & row' & _ & Hr' & Hp).
    assert (poll_remote_changed po nd1 entry = true) as Hch.
    { unfold poll_remote_changed. change (n_Etag nd1) with (n_Etag nd). destruct (plaintextSizeOf entry).
      rewrite decide_True by done. by apply bool_decide_eq_true. }
    rewrite Hch in Hp. destruct Hp as (_ & _ & _ & _ & _ & _ & _ & _ & Hp).
    rewrite decide_False in Hp by done. subst row'. rewrite Hid1 in Hr'.
    unfold heldByConflict. rewrite Hea, Hei, GetInode_row, Hr' by done. done.
Qed.
End undone.

(** ** Witnesses *)

#[local] Existing Instance ex_chunk_size | 0.
#[local] Existing Instance ex_unicode.

Definition ex_daemon : Daemon :=
  mkDaemon ex_dl (λ _ w, (Ok (mkFlushResult 0 0 0), w)) (λ _, NewPollState) "/mnt" "" (2 ^ 30) 0 "token"
    (λ _, "2025-01-02 030405") (λ _, "1m0s") (λ _, None) (λ _, empty_ring) (λ e, match e with ErrText s => s | _ => "error" end).

Definition ex_pin : DaemonRequest := mkRequest "token" "pin" "a.txt" "".
Definition ex_down : ServeState := mkServed (mkGate true 0) [] false Stopped false.

Lemma teardown_alone_witness : rtc serve_step serving ex_down ∧ sv_handlers ex_down = [].
Proof.
  assert (rtc serve_step serving ex_down) as Hr.
  { eapply rtc_l; [exact (step_enter serving ex_pin _ eq_refl eq_refl)|].
    eapply rtc_l; [eapply step_start; reflexivity|].
    eapply rtc_l; [eapply step_close; reflexivity|].
    eapply rtc_l; [eapply (step_leave _ [] ex_pin []); reflexivity|].
    eapply rtc_l; [eapply step_drain; reflexivity|].
    eapply rtc_l; [eapply step_teardown; reflexivity|]. apply rtc_refl. }
  destruct (teardown_alone _ Hr (or_intror eq_refl) eq_refl) as (_ & _ & H).
  split; [exact Hr|]. exact (proj1 (H _ (rtc_refl _ _))).
Defined.

(** An edited file whose upload was given up. *)
Definition ex_failed_row : inode_row :=
  excluded_row 1 (mkInode 0 "a.txt" "a.txt" false 3 80 false true false 0 "" "" 0 "" "" "v1" 0 StatusFailed "over quota").
Definition ex_failed_world : World :=
  mkWorld (mkVFS "" (mkDB [ex_failed_row] 1 [mkWritebackEntry 1 1 "upload" "a.txt" "{key" 50 3 "over quota" "failed"] 1 [] false false)
             ex_store0 false {[ 1%positive := ex_conflict_node ]} {[ 1 := 1%positive ]} true None 0 ∅)
    ex_sync_fs (100 * second) [] no_suppression.

Lemma retry_by_daemon_witness :
  none_for 1 (writeback_queue (wd_db (virtual_retryFailed "" ex_failed_world).2)) ∧
  waits_for 1 "a.txt" (writeback_queue (wd_db (retryFailed ex_daemon "" ex_failed_world).2)).
Proof.
  destruct (retry_by_daemon ex_daemon "" ex_failed_world ex_failed_row) as [(n & w1 & H1 & _ & Hn & _) (n' & w2 & H2 & _ & Hw & _)].
  - split; by apply (bool_decide_unpack _); vm_compute.
  - by split.
  - intros f Hf. by apply elem_of_nil in Hf.
  - by left.
  - reflexivity.
  - reflexivity.
  - by left.
  - intros e He _. apply list_elem_of_singleton in He as ->. by split.
  - rewrite H1, H2. split; [exact Hn|exact Hw].
Defined.

Lemma resolve_refetches_witness :
  let w' := (resolveConflict ex_daemon "a.txt" "both" ex_conflict_world).2 in
  wd_fs w' !! "/sync/a (conflict 2025-01-02 030405).txt" = Some (FsFile [x41; x42] (90 * second)) ∧
  (check_file ex_dl 1 w').1 = true.
Proof.
  cbv zeta. destruct (resolveConflict ex_daemon "a.txt" "both" ex_conflict_world) as [r w'] eqn:Hrun.
  assert (r = None) as -> by (change r with (r, w').1; rewrite <- Hrun; vm_compute; reflexivity).
  destruct (resolve_refetches ex_daemon ltac:(done) "a.txt" "both" ex_conflict_world w' (scanInodeRow ex_conflict_row) 1%positive
    ex_conflict_node ex_conflict_row) as (_ & _ & _ & _ & _ & Hboth & Hcheck);
    [by right|reflexivity|vm_compute; reflexivity|reflexivity|reflexivity|reflexivity|reflexivity|reflexivity| |exact Hrun|].
  - intros _. split; [exact ex_sync_parents|vm_compute; reflexivity].
  - split.
    + exact (Hboth eq_refl "/sync/a.txt" (FsFile [x41; x42] (90 * second)) ltac:(vm_compute; reflexivity)).
    + cbn [snd]. change (dm_downloader ex_daemon) with ex_dl in Hcheck. rewrite Hcheck. cbn [fst].
      change w' with (@None error, w').2. rewrite <- Hrun. vm_compute. reflexivity.
Defined.

Lemma resolve_local_undone_witness :
  let w1 := (resolveConflict ex_daemon "a.txt" "local" ex_conflict_world).2 in
  upload_free 1 w1 ∧ heldByConflict (mkWritebackEntry 1 1 "upload" "a.txt" "{key" 100 0 "" "pending")
                       (poll_existing ex_poller 1 (ex_listed "a.txt" "file" "v2" None) w1) = true.
Proof.
  cbv zeta. destruct (resolveConflict ex_daemon "a.txt" "local" ex_conflict_world) as [r w1] eqn:Hrun.
  assert (r = None) as -> by (change r with (r, w1).1; rewrite <- Hrun; vm_compute; reflexivity).
  destruct (resolve_local_undone ex_daemon ex_poller "a.txt" ex_conflict_world w1 (scanInodeRow ex_conflict_row) 1%positive
    ex_conflict_node ex_conflict_row (ex_listed "a.txt" "file" "v2" None)) as [H1 H2];
    [reflexivity|vm_compute; reflexivity|reflexivity|reflexivity|reflexivity|reflexivity|exact Hrun|discriminate|discriminate|discriminate|].
  split; [exact H1|]. exact (H2 (mkWritebackEntry 1 1 "upload" "a.txt" "{key" 100 0 "" "pending") eq_refl eq_refl).
Defined.
