(* ===== verification/ApiClient.v ===== *)
(** * The HTTP client

    [internal/api/client.go]: the requests the client sends and how it reads the
    answers, the retries, the guard that cuts a transfer that stands still,
    uploads in one body, downloads to memory and to a file, and the probe of the
    attestation.  The transport, the clock's waits and the JSON decoders are
    arguments. *)
From S2P Require Import Prelude GoLib GoFmt ApiErrors Crypto FileCrypt Names CacheDB CacheStore LocalFs VfsNode VfsContent Writeback TeePin VerifyDownload.
Local Open Scope Z_scope.

(** ** The stall guard *)

Definition TransferStallTimeout : Z := 2 * minute.

(** What the guard of a transfer sees: a read that starts, one that failed or
    reached the end, time that passes, the end of the request. *)
Inductive guard_event : Type := Arm | Pause | Elapse (d : Z) | Stop.

(** [timer] is the time left while it runs. *)
Record stallGuard : Type := mkStallGuard { sg_timer : option Z; sg_fired : bool; sg_done : bool }.
Definition newStallGuard : stallGuard := mkStallGuard None false false.

Definition trip (g : stallGuard) : stallGuard :=
  if sg_done g then g else mkStallGuard (sg_timer g) true (sg_done g).
Definition arm (g : stallGuard) : stallGuard :=
  if sg_done g then g else mkStallGuard (Some TransferStallTimeout) (sg_fired g) (sg_done g).
Definition pause (g : stallGuard) : stallGuard := mkStallGuard None (sg_fired g) (sg_done g).
Definition stop (g : stallGuard) : stallGuard := mkStallGuard None (sg_fired g) true.

(** The timer of the runtime: it fires once when its time is up. *)
Definition elapse (d : Z) (g : stallGuard) : stallGuard :=
  match sg_timer g with
  | Some rest =>
      if decide (rest ≤ d) then trip (mkStallGuard None (sg_fired g) (sg_done g))
      else mkStallGuard (Some (rest - d)) (sg_fired g) (sg_done g)
  | None => g
  end.

Definition guard_step (g : stallGuard) (e : guard_event) : stallGuard :=
  match e with Arm => arm g | Pause => pause g | Elapse d => elapse d g | Stop => stop g end.
Definition tripped (events : list guard_event) : bool :=
  sg_fired (foldl guard_step newStallGuard events).

Definition classify (events : list guard_event) (err : error) : error :=
  if tripped events then
    ErrRequest KindTransient 0 0 (ErrText "transfer stalled: no bytes moved for 2m0s")
  else err.

(** ** Requests and answers *)

Definition ResponseSizeLimit : Z := 10 * 1024 * 1024.
Definition MaxInMemoryDownloadSize : Z := 600 * 1024 * 1024.
Definition DownloadBufferSize : nat := 32 * 1024.

(** The body of a request: bytes, or a multipart form of fields and a file part. *)
Inductive payload : Type :=
| RawBody (body : source)
| FormBody (fields : gmap string string) (file : option bytes).

Record request : Type := mkRequest {
  rq_Method : string; rq_URL : string; rq_Header : gmap string string; rq_Body : payload; rq_ContentLength : Z }.

(** An answer; the header [Retry-After] as [strconv.Atoi] reads it. *)
Record http_response : Type := mkHttpResponse {
  h_StatusCode : Z; h_RetryAfter : option Z; h_ContentType : string; h_CliMetadata : string;
  h_ContentLength : Z; h_Body : source }.

(** One exchange, with what its guard saw until the body was read. *)
Record exchange : Type := mkExchange { x_events : list guard_event; x_result : result error http_response }.

(** What a client works with.  [cl_after] is the [select] on a timer and the
    context: the context's error when it ends first. *)
Record Client (W : Type) : Type := mkClient {
  cl_endpoint : string; cl_apiKey : string; cl_Version : string; cl_Language : string;
  cl_waitOutScanBudget : bool; cl_parkScanBudget : bool;
  cl_url_error : string → option error;
  cl_Do : request → W → exchange * W;
  cl_after : Z → W → option error * W;
  cl_ctxErr : W → option error;
  cl_condense : bytes → string;   (** the text of an answer that is not JSON *)
  cl_json_CLIRequest : string → gmap string string → result error bytes;
  cl_json_Response : bytes → result error Response;
  cl_json_DownloadPayload : bytes → option DownloadResult;
  cl_json_rename : bytes → string → string → option bytes;
  cl_json_failure : bytes → option (string * string);
  cl_json_Attestation : bytes → result error (TeeAttestationResponse * bool * Z) }.
Arguments mkClient {W}.
Arguments cl_endpoint {W}.
Arguments cl_apiKey {W}.
Arguments cl_Version {W}.
Arguments cl_Language {W}.
Arguments cl_waitOutScanBudget {W}.
Arguments cl_parkScanBudget {W}.
Arguments cl_url_error {W}.
Arguments cl_Do {W}.
Arguments cl_after {W}.
Arguments cl_ctxErr {W}.
Arguments cl_condense {W}.
Arguments cl_json_CLIRequest {W}.
Arguments cl_json_Response {W}.
Arguments cl_json_DownloadPayload {W}.
Arguments cl_json_rename {W}.
Arguments cl_json_failure {W}.
Arguments cl_json_Attestation {W}.

(** The file system in the state around the client. *)
Class HasFs (W : Type) : Type := { get_fs : W → LocalFs; set_fs : LocalFs → W → W }.
Class HasFsLaws {W} (HF : HasFs W) : Prop := { get_set_fs fs w : get_fs (set_fs fs w) = fs }.
#[export] Instance World_fs : HasFs World := { get_fs := wd_fs; set_fs fs w := w <| wd_fs := fs |> }.
#[export] Instance World_fs_laws : HasFsLaws World_fs.
Proof. done. Qed.

(** [io.ReadAll] of an [io.LimitReader]: a reader cut at its limit ends there. *)
Definition ReadAll_limit (n : Z) (body : source) : result error bytes :=
  if decide (Z.of_nat (length (remaining body)) < n) then
    match read_error body with Some e => Err e | None => Ok (remaining body) end
  else Ok (take (Z.to_nat n) (remaining body)).

Definition statusErrorOf (resp : http_response) (err : error) : error :=
  statusError (h_StatusCode resp) (h_RetryAfter resp) err.

(** The names of an upload on the wire and of the stored file. *)
Definition uploadWireName `{Unicode} (name : string) : string :=
  match reverse (split_on "."%char name) with
  | ext :: (_ :: _) as front =>
      if decide (join_with "." (reverse front) = "") then "f" else "f" ^^ strings_ToLower ("." ^^ ext)
  | _ => "f"
  end.
Definition joinRemotePath (dir name : string) : string :=
  let trimmed := trim_right slash dir in
  if decide (trimmed = "") then "/" ^^ name else trimmed ^^ "/" ^^ name.

(** [NewUploadIdempotencyKey]: the random bytes, [None] when none could be read. *)
Definition NewUploadIdempotencyKey (random : option bytes) (now : Z) : string :=
  match random with
  | None => "ul-" ^^ fmt_d now
  | Some b =>
      let set i mask bits l := alter (λ x, byte_of_Z (Z.lor (Z.land (Z_of_byte x) mask) bits)) i l in
      let b := set 8%nat 63 128 (set 6%nat 15 64 b) in
      let part i j := hex_encode (take (j - i) (drop i b)) in
      part 0%nat 4%nat ^^ "-" ^^ part 4%nat 6%nat ^^ "-" ^^ part 6%nat 8%nat ^^ "-" ^^ part 8%nat 10%nat
        ^^ "-" ^^ part 10%nat 16%nat
  end.

(** An option that is absent reads as [""]. *)
Definition opt (name : string) (options : gmap string string) : string := default "" (options !! name).

(** The options of an upload from the caller's. *)
Definition upload_options (base remotePath newKey : string) (e2eeOpts : gmap string string) : gmap string string :=
  let options : gmap string string := <["source" := base]> {["target" := remotePath]} in
  let options := match e2eeOpts !! "_original_name" with Some name => <["source" := name]> options | None => options end in
  let options := delete "_original_name" e2eeOpts ∪ options in
  if decide (opt "upload_idempotency_key" options = "") then <["upload_idempotency_key" := newKey]> options else options.

Section client.
Context `{U : Unicode} {W : Type} `{HF : !HasFs W}.
Variable c : Client W.

Definition setCommonHeaders (h : gmap string string) : gmap string string :=
  <["X-Cli-Lang" := cl_Language c]> (<["X-Cli-Client" := "pigcloud-cli/" ^^ cl_Version c]>
    (<["X-Api-Key" := cl_apiKey c]> h)).
Definition actionEndpoint (action : string) : string :=
  if contains_char "?"%char (cl_endpoint c) then cl_endpoint c ^^ "&action=" ^^ action
  else cl_endpoint c ^^ "?action=" ^^ action.
Definition getCliEndpoint : string := actionEndpoint "cli".

(** [withRetry] from the delays that are left. *)
Fixpoint retry_from {T} (delays : list Z) (fn : W → (result error T * Z) * W) (w : W)
    : result error T * W :=
  let '((r, statusCode), w) := fn w in
  match r with
  | Ok result => (Ok result, w)
  | Err err =>
      match delays with
      | [] => (Err err, w)
      | d :: delays =>
          if isTransient err statusCode then
            let '(ended, w) := cl_after c d w in
            match ended with Some e => (Err e, w) | None => retry_from delays fn w end
          else (Err err, w)
      end
  end.
Definition withRetry {T} := @retry_from T retryDelays.

(** Building and sending a request.  The guard of a transfer classifies the
    failure; an unguarded one passes no events. *)
Definition send (guarded : bool) (rq : request) (w : W)
    : (result error http_response * list guard_event) * W :=
  match cl_url_error c (rq_URL rq) with
  | Some e => ((Err (ErrWrap "failed to create request" e), []), w)
  | None =>
      let '(x, w) := cl_Do c rq w in
      let events := if guarded then x_events x else [] in
      match x_result x with
      | Err e => ((Err (classify events (ErrWrap "request failed" e)), events), w)
      | Ok resp => ((Ok resp, events), w)
      end
  end.

(** ** Commands *)

Definition with_status (status : Z) (raw : bytes) (r : Response) : Response :=
  mkResponse (Success r) (MessageKey r) (Message r) (ErrorCode r) (Cwd r) status raw.

Definition empty_response (status : Z) : error :=
  ErrText ("empty response from server (status " ^^ fmt_d status ^^ ")").
Definition parse_failed (status : Z) (e : error) : error :=
  ErrWrap ("failed to parse response (status " ^^ fmt_d status ^^ ")") e.

Definition execute_once (jsonBody : bytes) (w : W) : (result error Response * Z) * W :=
  let rq := mkRequest "POST" getCliEndpoint (setCommonHeaders {["Content-Type" := "application/json"]})
              (RawBody (mkSource jsonBody None)) (Z.of_nat (length jsonBody)) in
  let '((r, _), w) := send false rq w in
  match r with
  | Err e => ((Err e, 0), w)
  | Ok resp =>
      let status := h_StatusCode resp in
      match ReadAll_limit ResponseSizeLimit (h_Body resp) with
      | Err e => ((Err (ErrWrap "failed to read response" e), status), w)
      | Ok [] => ((Err (empty_response status), status), w)
      | Ok respBody =>
          match cl_json_Response c respBody with
          | Err e => ((Err (parse_failed status e), status), w)
          | Ok apiResp => ((Ok (with_status status respBody apiResp), status), w)
          end
      end
  end.

Definition Execute (command : string) (options : gmap string string) (w : W) : result error Response * W :=
  match cl_json_CLIRequest c command options with
  | Err e => (Err (ErrWrap "failed to marshal request" e), w)
  | Ok jsonBody => withRetry (execute_once jsonBody) w
  end.

(** [postAction]: the body comes with the error of a refusal. *)
Definition postAction (action : string) (body : bytes) (w : W) : (option bytes * option error) * W :=
  let url := actionEndpoint action in
  match cl_url_error c url with
  | Some e => ((None, Some e), w)
  | None =>
      let rq := mkRequest "POST" url (setCommonHeaders {["Content-Type" := "application/json"]})
                  (RawBody (mkSource body None)) (Z.of_nat (length body)) in
      let '(x, w) := cl_Do c rq w in
      match x_result x with
      | Err e => ((None, Some e), w)
      | Ok resp =>
          match ReadAll_limit ResponseSizeLimit (h_Body resp) with
          | Err e => ((None, Some e), w)
          | Ok respBody =>
              if decide (400 ≤ h_StatusCode resp) then
                ((Some respBody, Some (ErrText ("action " ^^ action ^^ " returned " ^^ fmt_d (h_StatusCode resp) ^^ ": "
                    ^^ String.string_of_list_byte respBody))), w)
              else ((Some respBody, None), w)
          end
      end
  end.

(** ** Uploads in one body *)

Definition rejectionError (status : Z) (body : bytes) : error := ErrProxyRejection status (cl_condense c body).

Definition read_upload_answer (events : list guard_event) (resp : http_response) : result error Response * Z :=
  let status := h_StatusCode resp in
  match ReadAll_limit ResponseSizeLimit (h_Body resp) with
  | Err e => (Err (classify events (ErrWrap "failed to read response" e)), status)
  | Ok [] =>
      if decide (status ≠ StatusOK) then (Err (statusErrorOf resp (rejectionError status [])), status)
      else (Err (empty_response status), status)
  | Ok respBody =>
      match cl_json_Response c respBody with
      | Err e =>
          if decide (status ≠ StatusOK) then (Err (statusErrorOf resp (rejectionError status respBody)), status)
          else (Err (parse_failed status e), status)
      | Ok apiResp =>
          if decide (status ≠ StatusOK ∧ Success apiResp = false) then
            let msg := if decide (Message apiResp = "") then "upload failed with status " ^^ fmt_d status
                       else Message apiResp in
            (Err (statusErrorOf resp (ErrAPI (ErrorCode apiResp) msg)), status)
          else (Ok (with_status status respBody apiResp), status)
      end
  end.

(** One attempt: the file is opened again each time. *)
Definition upload_once (open : W → result error source) (metadataB64 : string) (w : W)
    : (result error Response * Z) * W :=
  match open w with
  | Err e => ((Err (ErrWrap "failed to open file" e), 0), w)
  | Ok file =>
      let fileSize := Z.of_nat (length (remaining file)) in
      let h := <["X-CLI-Metadata" := metadataB64]> (setCommonHeaders
                 (<["Content-Length" := fmt_d fileSize]> {["Content-Type" := "application/octet-stream"]})) in
      let '((r, events), w) := send true (mkRequest "POST" getCliEndpoint h (RawBody file) fileSize) w in
      match r with
      | Err e => ((Err e, 0), w)
      | Ok resp => (read_upload_answer events resp, w)
      end
  end.

Definition wire_options (options : gmap string string) : gmap string string :=
  if decide (opt "sealed_key" options ≠ "") then <["source" := uploadWireName (opt "source" options)]> options
  else options.

(** The receipt of an upload under its wire name says the real one. *)
Definition rename_receipt (options : gmap string string) (resp : Response) : Response :=
  if decide (opt "sealed_key" options ≠ "" ∧ Success resp = true ∧ Raw resp ≠ []) then
    let realName := opt "source" options in
    match cl_json_rename c (Raw resp) realName (joinRemotePath (opt "target" options) realName) with
    | Some raw => with_status (StatusCode resp) raw resp
    | None => resp
    end
  else resp.

Definition uploadWholeBody (open : W → result error source) (options : gmap string string) (w : W)
    : result error Response * W :=
  match cl_json_CLIRequest c "ul" (wire_options options) with
  | Err e => (Err (ErrWrap "failed to marshal metadata" e), w)
  | Ok metadataJSON =>
      let '(r, w) := withRetry (upload_once open (base64_encode metadataJSON)) w in
      (resp ← r; Ok (rename_receipt options resp), w)
  end.

(** ** Downloads *)

Definition no_metadata : DownloadResult := mkDownloadResult false "" "" "" "" "" "" "" "" "" "" "".
Definition parseDownloadMetadata (metaHeader : string) : DownloadResult :=
  if decide (metaHeader = "") then no_metadata
  else match base64_decode metaHeader with
       | None => no_metadata
       | Some metaBytes => default no_metadata (cl_json_DownloadPayload c metaBytes)
       end.

Definition download_failed (status : Z) : string := "download failed with status " ^^ fmt_d status.
Definition downloadRejection (resp : http_response) (body : bytes) : error :=
  match body with
  | [] => statusErrorOf resp (ErrText (download_failed (h_StatusCode resp)))
  | _ =>
      match cl_json_Response c body with
      | Ok apiResp =>
          let message := if decide (Message apiResp = "") then download_failed (h_StatusCode resp) else Message apiResp in
          statusErrorOf resp (ErrAPI (ErrorCode apiResp) message)
      | Err _ => statusErrorOf resp (rejectionError (h_StatusCode resp) body)
      end
  end.

(** [strings.Contains]. *)
Fixpoint contains (sub s : string) : bool :=
  has_prefix sub s || match s with "" => false | String.String _ s => contains sub s end.

(** What [io.ReadAll] read, its error dropped. *)
Definition read_some (n : Z) (body : source) : bytes :=
  match ReadAll_limit n body with Ok b => b | Err _ => remaining body end.

(** A sink takes the body, and says what it made of it. *)
Definition stream_once {T} (jsonBody : bytes) (sink : source → W → (result error T * Z) * W) (w : W)
    : (result error (DownloadResult * T) * Z) * W :=
  let h := <["Accept" := "application/octet-stream"]> (setCommonHeaders {["Content-Type" := "application/json"]}) in
  let rq := mkRequest "POST" getCliEndpoint h (RawBody (mkSource jsonBody None)) (Z.of_nat (length jsonBody)) in
  let '((r, events), w) := send true rq w in
  match r with
  | Err e => ((Err e, 0), w)
  | Ok resp =>
      let status := h_StatusCode resp in
      if decide (status ≠ StatusOK ∨ contains "application/json" (h_ContentType resp) = true) then
        let respBody := read_some ResponseSizeLimit (h_Body resp) in
        ((Err (classify events (downloadRejection resp respBody)), status), w)
      else
        let result := parseDownloadMetadata (h_CliMetadata resp) in
        let '((sunk, status), w) := sink (h_Body resp) w in
        match sunk with
        | Err e => ((Err (classify events e), status), w)
        | Ok data => ((Ok (result, data), StatusOK), w)
        end
  end.

Definition streamDownload {T} (jsonBody : bytes) (sink : source → W → (result error T * Z) * W)
    : W → result error (DownloadResult * T) * W := withRetry (stream_once jsonBody sink).

Definition downloadRequestBody (command remotePath : string) (extraOpts : gmap string string) : result error bytes :=
  match cl_json_CLIRequest c command (extraOpts ∪ {["source" := remotePath]}) with
  | Err e => Err (ErrWrap "failed to marshal request" e)
  | Ok jsonBody => Ok jsonBody
  end.

Definition memory_sink (body : source) (w : W) : (result error bytes * Z) * W :=
  match ReadAll_limit (MaxInMemoryDownloadSize + 1) body with
  | Err e => ((Err (ErrWrap "failed to read response body" e), 0), w)
  | Ok got =>
      if decide (MaxInMemoryDownloadSize < Z.of_nat (length got)) then
        ((Err (ErrWrap "file exceeds 600 MB in-memory download limit" (ErrSentinel ErrInMemoryDownloadTooLarge)), StatusOK), w)
      else ((Ok got, StatusOK), w)
  end.

Definition DownloadToMemory (remotePath : string) (extraOpts : gmap string string) (w : W)
    : result error (bytes * DownloadResult) * W :=
  match downloadRequestBody "dl" remotePath extraOpts with
  | Err e => (Err e, w)
  | Ok jsonBody =>
      let '(r, w) := streamDownload jsonBody memory_sink w in
      ('(result, data) ← r; Ok (data, result), w)
  end.

(** ** Downloads to a file *)

(** The failures of the temporary file. *)
Record sink_faults : Type := mkSinkFaults {
  sf_create : option error; sf_room : nat; sf_close : option error; sf_rename : option error }.

(** The loop: the context is looked at before each read. *)
Fixpoint sink_loop (fuel : nat) (body : source) (tmp : outfile) (w : W) : option error * outfile :=
  match fuel with
  | O => (Some out_of_fuel, tmp)
  | S fuel =>
      match cl_ctxErr c w with
      | Some e => (Some (ErrWrap "download cancelled" e), tmp)
      | None =>
          let chunk := take DownloadBufferSize (remaining body) in
          match chunk with
          | [] =>
              match read_error body with
              | Some e => (Some (ErrWrap "failed to read response" e), tmp)
              | None => (None, tmp)
              end
          | _ =>
              let '(ok, tmp) := out_write chunk tmp in
              if ok then sink_loop fuel (mkSource (drop DownloadBufferSize (remaining body)) (read_error body)) tmp w
              else (Some (ErrWrap "failed to write file" (ErrText "short write")), tmp)
          end
      end
  end.

(** The temporary file beside the target; it is removed when the sink returns. *)
Definition fileSink (faults : sink_faults) (localPath : string) (mtime : Z) (body : source) (w : W)
    : (result error unit * Z) * W :=
  match sf_create faults with
  | Some e => ((Err (ErrWrap "failed to create temp file" e), 0), w)
  | None =>
      let '(err, tmp) := sink_loop (S (length (remaining body))) body (mkOut [] (sf_room faults)) w in
      match err with
      | Some e => ((Err e, 0), w)
      | None =>
          match sf_close faults with
          | Some e => ((Err (ErrWrap "failed to finalize download" e), 0), w)
          | None =>
              match sf_rename faults with
              | Some e => ((Err (ErrWrap "failed to move downloaded file" e), 0), w)
              | None => ((Ok tt, StatusOK), set_fs (<[localPath := FsFile (written tmp) mtime]> (get_fs w)) w)
              end
          end
      end
  end.

Definition Download (faults : sink_faults) (mtime : Z) (remotePath localPath : string)
    (extraOpts : gmap string string) (w : W) : result error DownloadResult * W :=
  match downloadRequestBody "dl" remotePath extraOpts with
  | Err e => (Err e, w)
  | Ok jsonBody =>
      let '(r, w) := streamDownload jsonBody (fileSink faults localPath mtime) w in
      ('(result, _) ← r; Ok result, w)
  end.
Definition DownloadCommand (faults : sink_faults) (mtime : Z) (command : string) (options : gmap string string)
    (localPath : string) (w : W) : result error DownloadResult * W :=
  match cl_json_CLIRequest c command options with
  | Err e => (Err (ErrWrap "failed to marshal request" e), w)
  | Ok jsonBody =>
      let '(r, w) := streamDownload jsonBody (fileSink faults localPath mtime) w in
      ('(result, _) ← r; Ok result, w)
  end.

(** ** The attestation probe *)

Definition TeeAttestationRetryDelays : list Z := [1 * second; 2 * second; 4 * second].
Definition maxTeeAttestationWait : Z := 30 * second.

(** The text a refusal carries, when it reads like a code. *)
Definition attestationFailureDetail (body : bytes) : string :=
  match cl_json_failure c body with
  | None => ""
  | Some (err, errorCode) =>
      let code := if decide (errorCode = "") then err else errorCode in
      if decide (code = "" ∨ (64 < String.length code)%nat ∨
                 existsb (λ a, contains_char a code) [" "; "010"; "013"; "009"]%char = true) then ""
      else " (" ^^ code ^^ ")"
  end.

Definition fetchTeeAttestationOnce (w : W) : result error TeeAttestationResponse * W :=
  let url := actionEndpoint "tee-attestation" in
  match cl_url_error c url with
  | Some e => (Err e, w)
  | None =>
      let '(x, w) := cl_Do c (mkRequest "GET" url (setCommonHeaders ∅) (RawBody (mkSource [] None)) 0) w in
      (match x_result x with
       | Err e =>
           if transportRetryable e then Err (ErrRequest KindTransient 0 0 (ErrWrap "tee attestation request failed" e))
           else Err e
       | Ok resp =>
           let status := h_StatusCode resp in
           match ReadAll_limit ResponseSizeLimit (h_Body resp) with
           | Err e => Err (ErrRequest KindTransient status 0 (ErrWrap "tee attestation read failed" e))
           | Ok body =>
               if decide (status < 200 ∨ 299 < status) then
                 Err (statusErrorOf resp (ErrText ("tee_attestation_unanswered: the server answered the attestation probe with HTTP "
                   ^^ fmt_d status ^^ attestationFailureDetail body)))
               else match cl_json_Attestation c body with
               | Err e => Err (ErrRequest KindTransient status 0
                   (ErrWrap "tee_attestation_unanswered: the attestation reply is not JSON" e))
               | Ok (result, busy, retryAfterMs) =>
                   if decide (ta_Success result = false) then
                     Err (ErrRequest KindTransient status 0 (ErrText
                       ("tee_attestation_unanswered: the server did not answer the attestation probe" ^^ attestationFailureDetail body)))
                   else if decide (ta_Available result = true ∧ busy = true) then
                     Err (ErrRequest KindTransient status (wrap64 (Z.max retryAfterMs 0 * millisecond))
                       (ErrText "tee_attestation_unanswered: the scanner shed the attestation probe as busy"))
                   else Ok result
               end
           end
       end, w)
  end.

Fixpoint attestation_from (delays : list Z) (w : W) : result error TeeAttestationResponse * W :=
  let '(r, w) := fetchTeeAttestationOnce w in
  match r with
  | Ok result => (Ok result, w)
  | Err err =>
      match delays with
      | [] => (Err err, w)
      | d :: delays =>
          if (IsTransient err || IsRateLimited err) && negb (isSome (cl_ctxErr c w)) then
            let delay := Z.max d (Z.min (RetryAfterHint err) maxTeeAttestationWait) in
            let '(ended, w) := cl_after c delay w in
            match ended with Some e => (Err e, w) | None => attestation_from delays w end
          else (Err err, w)
      end
  end.
Definition FetchTeeAttestation : W → result error TeeAttestationResponse * W :=
  attestation_from TeeAttestationRetryDelays.
End client.

(** ** When the guard fires *)

Definition is_elapse (e : guard_event) : Prop := match e with Elapse _ => True | _ => False end.
Definition elapsed (e : guard_event) : Z := match e with Elapse d => d | _ => 0 end.
Definition total_elapsed (l : list guard_event) : Z := foldr (λ e s, elapsed e + s) 0 l.

Lemma total_elapsed_app l k : total_elapsed (l ++ k) = total_elapsed l + total_elapsed k.
Proof. induction l as [|e l IH]; simpl; [done|]. rewrite IH. lia. Qed.

(** A transfer that stood still: after a read started nothing happened for the
    timeout, and the request had not ended. *)
Definition stood_still (events : list guard_event) : Prop :=
  ∃ pre still post, events = pre ++ Arm :: still ++ post ∧ Stop ∉ pre ∧ Forall is_elapse still ∧
    TransferStallTimeout ≤ total_elapsed still.

(** What the guard knows of the events so far. *)
Record guard_knows (events : list guard_event) (g : stallGuard) : Prop := {
  gk_fired : sg_fired g = true → stood_still events;
  gk_timer t : sg_timer g = Some t → sg_done g = false ∧ ∃ pre still, events = pre ++ Arm :: still ∧ Stop ∉ pre ∧
      Forall is_elapse still ∧ t = TransferStallTimeout - total_elapsed still;
  gk_done : sg_done g = false → Stop ∉ events }.

Lemma stood_still_app l k : stood_still l → stood_still (l ++ k).
Proof.
  intros (pre & still & post & -> & H). exists pre, still, (post ++ k). split; [|done].
  rewrite <- app_assoc. cbn [app]. by rewrite <- app_assoc.
Qed.

Lemma not_stop_app l e : Stop ∉ l → e ≠ Stop → Stop ∉ l ++ [e].
Proof. intros H1 H2. rewrite elem_of_app, list_elem_of_singleton. naive_solver. Qed.

Lemma guard_step_knows events g e : guard_knows events g → guard_knows (events ++ [e]) (guard_step g e).
Proof.
  intros [Hf Ht Hd]. pose proof (λ H, stood_still_app events [e] (Hf H)) as Hf'. destruct g as [tm f dn].
  cbn [sg_timer sg_fired sg_done] in *. destruct e as [| |d|]; cbn [guard_step].
  - unfold arm. cbn [sg_done sg_fired sg_timer]. destruct dn.
    + split; [done| |done]. intros t Htm. by destruct (Ht t Htm) as [? _].
    + split; cbn [sg_timer sg_fired sg_done]; [done| |by intros _; apply not_stop_app; auto].
      intros t [= <-]. split; [done|]. exists events, []. split_and!; [done|auto|constructor|simpl; lia].
  - split; cbn [pause sg_timer sg_fired sg_done]; [done|done|]. intros; by apply not_stop_app; auto.
  - unfold elapse. cbn [sg_timer sg_fired sg_done]. destruct tm as [rest|].
    + destruct (Ht rest eq_refl) as (-> & pre & still & -> & Hp & Hs & ->).
      assert (Forall is_elapse (still ++ [Elapse d])) as Hs' by (apply Forall_app; split; [done|by repeat constructor]).
      assert (total_elapsed (still ++ [Elapse d]) = total_elapsed still + d) as Htot
        by (rewrite total_elapsed_app; simpl; lia).
      rewrite <- app_assoc in *. cbn [app] in *. case_decide as Hle.
      * split; cbn; [|done|by intros _; rewrite app_comm_cons, app_assoc; apply not_stop_app; auto].
        intros _. exists pre, (still ++ [Elapse d]), []. rewrite app_nil_r. split_and!; [done..|lia].
      * split; cbn; [done| |by intros _; rewrite app_comm_cons, app_assoc; apply not_stop_app; auto].
        intros t [= <-]. split; [done|]. exists pre, (still ++ [Elapse d]). split_and!; [done..|lia].
    + split; cbn [sg_timer sg_fired sg_done]; [done|done|]. intros; by apply not_stop_app; auto.
  - split; cbn [stop sg_timer sg_fired sg_done]; done.
Qed.

Lemma guard_run_knows events : guard_knows events (foldl guard_step newStallGuard events).
Proof.
  induction events as [|e events IH] using rev_ind.
  - split; cbn; [done|done|]. intros _. apply not_elem_of_nil.
  - rewrite foldl_app. cbn [foldl]. by apply guard_step_knows.
Qed.

Lemma fired_stays events : ∀ g, sg_fired g = true → sg_fired (foldl guard_step g events) = true.
Proof.
  induction events as [|e events IH]; intros g Hg; [done|]. cbn [foldl]. apply IH.
  destruct e; cbn [guard_step]; unfold arm, elapse, trip; [by destruct (sg_done g)|done| |done].
  destruct (sg_timer g); [|done]. case_decide; [|done]. cbn. by destruct (sg_done g).
Qed.

Lemma runs_out still : ∀ t f, Forall is_elapse still → t ≤ total_elapsed still → 0 < t →
  sg_fired (foldl guard_step (mkStallGuard (Some t) f false) still) = true.
Proof.
  induction still as [|e still IH]; intros t f Hs Hle Ht; [change (t ≤ 0) in Hle; lia|].
  apply Forall_cons in Hs as [He Hs]. destruct e as [| |d|]; try done. cbn [foldl guard_step].
  unfold elapse. cbn [sg_timer]. change (t ≤ d + total_elapsed still) in Hle. case_decide.
  - apply fired_stays. done.
  - apply IH; [done|lia|lia].
Qed.

Lemma done_events events : ∀ g, sg_done g = false → Stop ∉ events → sg_done (foldl guard_step g events) = false.
Proof.
  induction events as [|e events IH]; intros g Hg He; [done|]. cbn [foldl].
  apply not_elem_of_cons in He as [Hne He]. apply IH; [|done].
  destruct e; cbn [guard_step]; unfold arm, elapse, trip; [by rewrite Hg|done| |done].
  destruct (sg_timer g); [|done]. case_decide; [|done]. cbn. by rewrite Hg.
Qed.

(** The guard of a transfer calls it stalled exactly when, after a read
    started, two minutes passed in which no read started, ended or failed, while
    the request was running; a transfer whose reads keep returning within the
    timeout is never cut, and a request that ended is not called stalled
    later. *)
Theorem tripped_iff events : tripped events = true ↔ stood_still events.
Proof.
  split; [apply (gk_fired _ _ (guard_run_knows events))|].
  intros (pre & still & post & -> & Hp & Hs & Hle). unfold tripped. rewrite foldl_app. cbn [foldl].
  rewrite foldl_app. apply fired_stays. set (g := foldl guard_step newStallGuard pre).
  assert (sg_done g = false) as Hd by (by apply done_events). cbn [guard_step]. unfold arm. rewrite Hd.
  by apply runs_out.
Qed.

(** ** What a retried request leaves *)

Section retries.
Context `{U : Unicode} {W : Type} `{HF : !HasFs W}.
Variable c : Client W.

(** Rule for a retried call: what every failed attempt and every wait preserves
    holds before the attempt whose result is returned. *)
Lemma retry_from_rule {T} (P : W → Prop) (fn : W → (result error T * Z) * W) ds w r w' :
  (∀ w e st w', P w → fn w = ((Err e, st), w') → P w') → (∀ d w, P w → P (cl_after c d w).2) → P w →
  retry_from c ds fn w = (r, w') →
  match r with Ok a => ∃ w0 st, P w0 ∧ fn w0 = ((Ok a, st), w') | Err _ => P w' end.
Proof.
  intros Hfn Hafter. revert w. induction ds as [|d ds IH]; intros w Hw; cbn [retry_from];
    destruct (fn w) as [[[a|e] st] w1] eqn:Hf.
  - intros [= <- <-]. by exists w, st.
  - intros [= <- <-]. by eapply Hfn.
  - intros [= <- <-]. by exists w, st.
  - pose proof (Hfn _ _ _ _ Hw Hf) as Hw1.
    destruct (isTransient e st); [|by intros [= <- <-]]. pose proof (Hafter d w1 Hw1) as Hw2.
    destruct (cl_after c d w1) as [[e2|] w2]; [by intros [= <- <-]|by apply IH].
Qed.

(** The attempts of a call, in order, with the delay before each. *)
Inductive attempts {T} (fn : W → (result error T * Z) * W) : list Z → W → result error T → W → Prop :=
| att_last w r st w' : fn w = ((r, st), w') → attempts fn [] w r w'
| att_again w e st w1 d w2 ds r w' : fn w = ((Err e, st), w1) → isTransient e st = true →
    cl_after c d w1 = (None, w2) → attempts fn ds w2 r w' → attempts fn (d :: ds) w r w'
| att_cancelled w e st w1 d e' w2 : fn w = ((Err e, st), w1) → isTransient e st = true →
    cl_after c d w1 = (Some e', w2) → attempts fn [d] w (Err e') w2.

Lemma retry_from_attempts {T} (fn : W → (result error T * Z) * W) ds w r w' :
  retry_from c ds fn w = (r, w') → ∃ l, l `prefix_of` ds ∧ attempts fn l w r w'.
Proof.
  revert w. induction ds as [|d ds IH]; intros w; cbn [retry_from]; destruct (fn w) as [[[a|e] st] w1] eqn:Hf.
  - intros [= <- <-]. exists []. split; [apply prefix_nil|by econstructor].
  - intros [= <- <-]. exists []. split; [done|by econstructor].
  - intros [= <- <-]. exists []. split; [apply prefix_nil|by econstructor].
  - destruct (isTransient e st) eqn:Ht; [|intros [= <- <-]; exists []; split; [apply prefix_nil|by econstructor]].
    destruct (cl_after c d w1) as [[e2|] w2] eqn:Ha.
    + intros [= <- <-]. exists [d]. split; [apply prefix_cons, prefix_nil|by eapply att_cancelled].
    + intros (l & Hl & Hat)%IH. exists (d :: l). split; [by apply prefix_cons|by eapply att_again].
Qed.

(** ** A download to a file *)

Lemma sink_loop_spec fuel : ∀ body tmp w err tmp',
  (length (remaining body) < fuel)%nat → sink_loop c fuel body tmp w = (err, tmp') →
  match err with
  | None => written tmp' = written tmp ++ remaining body ∧ read_error body = None
  | Some e => e ≠ out_of_fuel
  end.
Proof.
  induction fuel as [|fuel IH]; intros body tmp w err tmp' Hf; [lia|]. cbn [sink_loop].
  destruct (cl_ctxErr c w); [by intros [= <- <-]|].
  destruct (remaining body) as [|b bs] eqn:Hb.
  - cbn [take]. destruct (read_error body) eqn:Hr; intros [= <- <-]; [done|]. by rewrite app_nil_r.
  - assert (∃ x l, take DownloadBufferSize (b :: bs) = x :: l) as (x & l & Hch).
    { unfold DownloadBufferSize. by exists b, (take (32 * 1024 - 1) bs). }
    rewrite Hch. destruct (out_write (x :: l) tmp) as [ok tmp1] eqn:Hw. destruct ok; [|by intros [= <- <-]].
    intros H%IH; [|cbn [remaining]; rewrite length_drop; unfold DownloadBufferSize; cbn [length] in *; lia].
    destruct err; [done|]. cbn [remaining read_error] in H. destruct H as [-> ->]. split; [|done].
    unfold out_write in Hw. case_decide; [|done]. injection Hw as <-. cbn [written].
    by rewrite <- Hch, <- app_assoc, take_drop.
Qed.

Lemma fileSink_spec faults p mtime body w r st w' :
  fileSink c faults p mtime body w = ((r, st), w') →
  match r with
  | Ok _ => read_error body = None ∧ w' = set_fs (<[p := FsFile (remaining body) mtime]> (get_fs w)) w
  | Err _ => w' = w
  end.
Proof.
  unfold fileSink. destruct (sf_create faults); [by intros [= <- <- <-]|].
  destruct (sink_loop _ _ _ _ _) as [[e|] tmp] eqn:Hl; [by intros [= <- <- <-]|].
  apply sink_loop_spec in Hl as [Hw Hr]; [|lia].
  destruct (sf_close faults); [by intros [= <- <- <-]|]. destruct (sf_rename faults); [by intros [= <- <- <-]|].
  intros [= <- <- <-]. by rewrite Hw.
Qed.

(** An answer that carries a file. *)
Definition file_answer (resp : http_response) : Prop :=
  h_StatusCode resp = StatusOK ∧ contains "application/json" (h_ContentType resp) = false.

Lemma send_Ok guarded rq w resp ev w' :
  send c guarded rq w = ((Ok resp, ev), w') → ∃ x, cl_Do c rq w = (x, w') ∧ x_result x = Ok resp.
Proof.
  unfold send. destruct (cl_url_error c _); [done|]. destruct (cl_Do c rq w) as [x w1].
  destruct (x_result x) eqn:Hx; [|done]. intros [= <- <- <-]. by exists x.
Qed.

Lemma send_state guarded rq w : (send c guarded rq w).2 = w ∨ (send c guarded rq w).2 = (cl_Do c rq w).2.
Proof.
  unfold send. destruct (cl_url_error c _); [by left|]. right. destruct (cl_Do c rq w) as [x w1].
  by destruct (x_result x).
Qed.

(** The request of a download. *)
Definition download_request (jsonBody : bytes) : request :=
  mkRequest "POST" (getCliEndpoint c)
    (<["Accept" := "application/octet-stream"]> (setCommonHeaders c {["Content-Type" := "application/json"]}))
    (RawBody (mkSource jsonBody None)) (Z.of_nat (length jsonBody)).

Lemma stream_once_cases {T} body (sink : source → W → (result error T * Z) * W) w r st w' :
  stream_once c body sink w = ((r, st), w') →
  (∃ resp x w1 t st1, cl_Do c (download_request body) w = (x, w1) ∧ x_result x = Ok resp ∧ file_answer resp ∧
     sink (h_Body resp) w1 = ((Ok t, st1), w') ∧ r = Ok (parseDownloadMetadata c (h_CliMetadata resp), t)) ∨
  (is_ok r = false ∧ (w' = w ∨ w' = (cl_Do c (download_request body) w).2 ∨
     ∃ resp e st1, sink (h_Body resp) (cl_Do c (download_request body) w).2 = ((Err e, st1), w'))).
Proof.
  unfold stream_once. fold (download_request body). pose proof (send_state true (download_request body) w) as Hst.
  destruct (send _ _ _ _) as [[[resp|e] ev] w1] eqn:Hs; cbn [snd] in Hst.
  - apply send_Ok in Hs as (x & Hx & Hr). case_decide as Hj.
    + intros [= <- <- <-]. right. split; [done|]. naive_solver.
    + destruct (sink (h_Body resp) w1) as [[[t|e] st1] w2] eqn:Hk; intros [= <- <- <-].
      * left. exists resp, x, w1, t, st1. split_and!; try done.
        split; [apply dec_stable; naive_solver|]. destruct (contains _ _) eqn:Hc; [|done]. naive_solver.
      * right. split; [done|]. right. right. exists resp, e, st1. by rewrite Hx.
  - intros [= <- <- <-]. right. split; [done|]. naive_solver.
Qed.

Context `{HFL : !HasFsLaws HF}.

(** C14: A download to a file is whole or leaves no trace.  Whatever the network
    does, [Download] and [DownloadCommand] (through [streamDownload] and the file
    sink) either fail and change no local file, or put at the target, and
    nowhere else, the complete body of one answer with status 200 that is not
    JSON, and return the metadata of that same answer: a body that breaks off, a
    disk that fills up, a cancelled context or a failed rename never shows. *)
Theorem Download_whole faults mtime jsonBody localPath w r w' :
  (∀ rq w, get_fs (cl_Do c rq w).2 = get_fs w) → (∀ d w, get_fs (cl_after c d w).2 = get_fs w) →
  streamDownload c jsonBody (fileSink c faults localPath mtime) w = (r, w') →
  match r with
  | Err _ => get_fs w' = get_fs w
  | Ok (metadata, _) => ∃ w0 x resp, (cl_Do c (download_request jsonBody) w0).1 = x ∧ x_result x = Ok resp ∧
      file_answer resp ∧ read_error (h_Body resp) = None ∧
      metadata = parseDownloadMetadata c (h_CliMetadata resp) ∧
      get_fs w' = <[localPath := FsFile (remaining (h_Body resp)) mtime]> (get_fs w)
  end.
Proof using HFL.
  intros Hdo Haf. unfold streamDownload, withRetry. intros H.
  apply (retry_from_rule (λ v, get_fs v = get_fs w)) in H; [|  | |done].
  - destruct r as [[md t]|e]; [|done]. destruct H as (w0 & st & Hw0 & H).
    apply stream_once_cases in H as [(resp & x & w1 & t1 & st1 & Hx & Hr & Hfile & Hk & [= -> ->])|[H _]]; [|done].
    apply fileSink_spec in Hk as [Hre ->]. exists w0, x, resp. rewrite Hx. split_and!; try done.
    rewrite get_set_fs, <- Hw0, <- (Hdo (download_request jsonBody) w0). by rewrite Hx.
  - intros v e st v' Hv Hf. apply stream_once_cases in Hf as [(? & ? & ? & ? & ? & _ & _ & _ & _ & ?)|[_ Hf]]; [done|].
    rewrite <- Hv. destruct Hf as [->|[->|(resp & e' & st1 & ->%fileSink_spec)]]; [done|apply Hdo|apply Hdo].
  - intros d v Hv. by rewrite Haf.
Qed.

(** The rule for a download to memory: its requests are all the same, and what it
    returns is one whole answer. *)
Lemma DownloadToMemory_rule (P : W → Prop) remotePath opts w r w' :
  (∀ jsonBody w, P w → P (cl_Do c (download_request jsonBody) w).2) → (∀ d w, P w → P (cl_after c d w).2) → P w →
  DownloadToMemory c remotePath opts w = (r, w') →
  match r with
  | Err _ => P w'
  | Ok (data, metadata) =>
      ∃ jsonBody w0 resp x, downloadRequestBody c "dl" remotePath opts = Ok jsonBody ∧ P w0 ∧
        cl_Do c (download_request jsonBody) w0 = (x, w') ∧ x_result x = Ok resp ∧ file_answer resp ∧
        h_Body resp = mkSource data None ∧ metadata = parseDownloadMetadata c (h_CliMetadata resp)
  end.
Proof.
  intros Hdo Haf Hw. unfold DownloadToMemory. destruct (downloadRequestBody _ _ _ _) as [body|]; [|by intros [= <- <-]].
  destruct (streamDownload _ _ _ _) as [r1 w1] eqn:Hs. intros [= <- <-].
  unfold streamDownload, withRetry in Hs. apply (retry_from_rule P) in Hs; [|  |done|done].
  - destruct r1 as [[md t]|]; [|done]. destruct Hs as (w0 & st & Hw0 & H). simpl.
    apply stream_once_cases in H as [(resp & x & w2 & t1 & st1 & Hx & Hr & Hfile & Hk & [= -> ->])|[H _]]; [|done].
    exists body, w0, resp, x. unfold memory_sink in Hk. destruct (ReadAll_limit _ _) as [got|] eqn:Hg; [|done].
    case_decide as Hlim; [done|]. injection Hk as <- _ <-. split_and!; try done.
    unfold ReadAll_limit in Hg. case_decide.
    + destruct (h_Body resp) as [b re]. cbn in *. by destruct re; simplify_eq.
    + injection Hg as <-. rewrite length_take in Hlim. unfold MaxInMemoryDownloadSize in *. lia.
  - intros v e st v' Hv Hf. apply stream_once_cases in Hf as [(? & ? & ? & ? & ? & _ & _ & _ & _ & ?)|[_ Hf]]; [done|].
    destruct Hf as [->|[->|(resp & e' & st1 & Hk)]]; [done|by apply Hdo|].
    assert (v' = (cl_Do c (download_request body) v).2) as ->; [|by apply Hdo].
    unfold memory_sink in Hk. destruct (ReadAll_limit _ _); [|by injection Hk]. case_decide; by injection Hk.
Qed.
End retries.

(** ** An upload in one body *)

Section upload.
Context `{U : Unicode} {W : Type} `{HF : !HasFs W}.
Variable c : Client W.

(** The request of an upload. *)
Definition upload_request (metadataJSON : bytes) (file : source) : request :=
  let fileSize := Z.of_nat (length (remaining file)) in
  mkRequest "POST" (getCliEndpoint c)
    (<["X-CLI-Metadata" := base64_encode metadataJSON]> (setCommonHeaders c
      (<["Content-Length" := fmt_d fileSize]> {["Content-Type" := "application/octet-stream"]}))) (RawBody file) fileSize.

Lemma upload_once_Ok open json w r st w' :
  upload_once c open (base64_encode json) w = ((Ok r, st), w') →
  ∃ file x resp body apiResp, open w = Ok file ∧ cl_Do c (upload_request json file) w = (x, w') ∧ x_result x = Ok resp ∧
    ReadAll_limit ResponseSizeLimit (h_Body resp) = Ok body ∧ cl_json_Response c body = Ok apiResp ∧
    (h_StatusCode resp = StatusOK ∨ Success apiResp = true) ∧ r = with_status (h_StatusCode resp) body apiResp.
Proof.
  unfold upload_once. destruct (open w) as [file|]; [|done]. cbv zeta. fold (upload_request json file).
  destruct (send _ _ _ _) as [[[resp|e] ev] w1] eqn:Hs; [|done].
  apply send_Ok in Hs as (x & Hx & Hr). intros [= Ha <-]. unfold read_upload_answer in Ha.
  exists file, x, resp. destruct (ReadAll_limit _ _) as [[|b bs]|]; [by case_decide| |done].
  destruct (cl_json_Response c (b :: bs)) as [api|] eqn:Hj; [|by case_decide].
  case_decide as Hd; [done|]. injection Ha as <- _. exists (b :: bs), api. split_and!; try done.
  destruct (decide (h_StatusCode resp = StatusOK)); [by left|]. right. destruct (Success api); [done|]. naive_solver.
Qed.

Lemma upload_once_Err open json w e st w' :
  upload_once c open (base64_encode json) w = ((Err e, st), w') →
  w' = w ∨ ∃ file, open w = Ok file ∧ w' = (cl_Do c (upload_request json file) w).2.
Proof.
  unfold upload_once. destruct (open w) as [file|]; [|intros [= _ _ <-]; by left]. cbv zeta. fold (upload_request json file).
  pose proof (send_state c true (upload_request json file) w) as Hst.
  destruct (send _ _ _ _) as [[[resp|e1] ev] w1] eqn:Hs; intros [= _ <-]; cbn [snd] in Hst;
    (destruct Hst as [->| ->]; [by left|by right; exists file]).
Qed.

(** Every request an upload sends is the same: the whole file, and the options
    the upload started with. *)
Lemma uploadWholeBody_rule (P : W → Prop) open options w r w' :
  (∀ w file json, P w → open w = Ok file → cl_json_CLIRequest c "ul" (wire_options options) = Ok json →
     P (cl_Do c (upload_request json file) w).2) →
  (∀ d w, P w → P (cl_after c d w).2) → P w →
  uploadWholeBody c open options w = (r, w') →
  match r with
  | Err _ => P w'
  | Ok resp => ∃ json w0 file x hr body api, cl_json_CLIRequest c "ul" (wire_options options) = Ok json ∧ P w0 ∧
      open w0 = Ok file ∧ cl_Do c (upload_request json file) w0 = (x, w') ∧ x_result x = Ok hr ∧
      ReadAll_limit ResponseSizeLimit (h_Body hr) = Ok body ∧ cl_json_Response c body = Ok api ∧
      resp = rename_receipt c options (with_status (h_StatusCode hr) body api)
  end.
Proof.
  intros Hdo Haf Hw. unfold uploadWholeBody. destruct (cl_json_CLIRequest _ _ _) as [json|] eqn:Hj; [|by intros [= <- <-]].
  destruct (withRetry _ _ _) as [r1 w1] eqn:Hr. intros [= <- <-]. unfold withRetry in Hr.
  apply (retry_from_rule c P) in Hr; [|  |done|done].
  - destruct r1 as [resp|e]; [|done]. destruct Hr as (w0 & st & Hw0 & H). simpl.
    apply upload_once_Ok in H as (file & x & hr & body & api & Ho & Hx & Hr & Hb & Ha & _ & ->).
    by exists json, w0, file, x, hr, body, api.
  - intros v e st v' Hv [->|(file & Ho & ->)]%upload_once_Err; [done|by eapply Hdo].
Qed.
End upload.

(** ** Examples *)

(** A client whose state is the files and the number of requests made: the first
    answer breaks off, later ones carry a file. *)
Definition ex_state : Type := LocalFs * nat.
#[export] Instance ex_state_fs : HasFs ex_state := { get_fs w := w.1; set_fs fs w := (fs, w.2) }.
#[export] Instance ex_state_fs_laws : HasFsLaws ex_state_fs.
Proof. split. done. Qed.

Definition ex_answer (body : source) : http_response := mkHttpResponse 200 None "application/octet-stream" "" 3 body.
Definition ex_do (rq : request) (w : ex_state) : exchange * ex_state :=
  let body := if decide (w.2 = O) then mkSource [x01; x02] (Some (ErrSentinel IoErrUnexpectedEOF))
              else mkSource [x01; x02; x03] None in
  (mkExchange [Arm; Elapse second; Pause] (Ok (ex_answer body)), (w.1, S w.2)).
Definition ex_client : Client ex_state :=
  mkClient "https://cloud.example/api" "key" "1.0" "en" false false (λ _, None) ex_do (λ _ w, (None, w)) (λ _, None)
    (λ _, "") (λ _ _, Ok []) (λ _, Err (ErrText "json")) (λ _, None) (λ _ _ _, None) (λ _, None) (λ _, Err (ErrText "json")).
Definition ex_sink : sink_faults := mkSinkFaults None 100 None None.
Definition ex_old : LocalFs := {["/d/a.bin" := FsFile [x09] 0]}.

Lemma Download_whole_witness :
  get_fs (streamDownload ex_client [] (fileSink ex_client ex_sink "/d/a.bin" 7) (ex_old, O)).2 =
    <["/d/a.bin" := FsFile [x01; x02; x03] 7]> ex_old.
Proof.
  destruct (streamDownload ex_client [] (fileSink ex_client ex_sink "/d/a.bin" 7) (ex_old, O)) as [r w'] eqn:Hrun.
  pose proof (Download_whole ex_client ex_sink 7 [] "/d/a.bin" (ex_old, O) r w' (λ _ _, eq_refl) (λ _ _, eq_refl) Hrun) as H.
  assert (r = Ok (no_metadata, tt)) as -> by (change r with (r, w').1; rewrite <- Hrun; vm_compute; reflexivity).
  destruct H as (w0 & x & resp & <- & Hx & _ & Hr & _ & Hfs). cbn [snd]. rewrite Hfs.
  vm_compute in Hx. injection Hx as <-. destruct w0 as [f [|n]]; [discriminate Hr|reflexivity].
Defined.
