(* ===== verification/ChunkedUpload.v ===== *)
(** * Uploads in chunks

    [internal/api/upload_chunked.go] and [Upload] of [internal/api/client.go]: a
    file too large for one request goes up in chunks over an upload session, and
    a last request asks the server to put it together; that request is repeated
    while the server scans the file.  The session's transport, its cookies and
    the clock are arguments. *)
From S2P Require Import Prelude GoLib GoFmt ApiErrors Crypto FileCrypt Names CacheStore LocalFs Writeback ApiClient.
Local Open Scope Z_scope.

(** A session: its token, and the cookie jar of its client. *)
Record webUploadSession : Type := mkUploadSession { us_jar : nat; us_csrf : string }.

Definition chunkUploadRetries : nat := 3.
Definition scanPendingMaxWait : Z := 15 * minute.
Definition scanPendingDefaultWait : Z := 2 * second.
Definition scanBudgetMaxWaits : nat := 2.
Definition uploadSingleBodyMaxBytes : Z := 90 * 1024 * 1024.
Definition uploadChunkSize : Z := 16 * 1024 * 1024.

Record webUploadResult : Type := mkUploadResult {
  wr_Success : bool; wr_Error : string; wr_ErrorCode : string; wr_NodeID : string; wr_ETag : string;
  wr_Storage : Z * Z * string; wr_RetryAfterMs : Z }.

(** What the upload session adds to a client, and the two sizes, which are
    variables of the package. *)
Record Uploads (W : Type) : Type := mkUploads {
  ch_session_Do : webUploadSession → request → W → exchange * W;
  ch_now : W → Z;
  ch_random : W → option bytes;
  ch_json_session : bytes → option (bool * string);
  ch_json_result : bytes → option webUploadResult;
  ch_json_receipt : string → string → Z → webUploadResult → option string → result error bytes;
  ch_form_length : gmap string string → option bytes → Z;
  ch_maxBytes : Z; ch_chunkSize : Z }.
Arguments mkUploads {W}.
Arguments ch_session_Do {W}.
Arguments ch_now {W}.
Arguments ch_random {W}.
Arguments ch_json_session {W}.
Arguments ch_json_result {W}.
Arguments ch_json_receipt {W}.
Arguments ch_form_length {W}.
Arguments ch_maxBytes {W}.
Arguments ch_chunkSize {W}.

(** The session a client keeps, the number of cookie jars it has made, and the
    world around it. *)
Record ClientState (W : Type) : Type := mkClientState {
  cs_session : option webUploadSession; cs_jars : nat; cs_world : W }.
Arguments mkClientState {W}.
Arguments cs_session {W}.
Arguments cs_jars {W}.
Arguments cs_world {W}.

(** ** Which errors are waited for *)

Definition scannerShedWait (err : error) : option Z :=
  if decide (errors_As asAPIError err = Some "scanner_busy") then
    let wait := RetryAfterHint err in
    Some (if decide (0 < wait) then wait else scanPendingDefaultWait)
  else None.

Definition scanPendingWait (resp : http_response) (result : webUploadResult) : Z :=
  if decide (0 < wr_RetryAfterMs result) then wrap64 (wr_RetryAfterMs result * millisecond)
  else
    let wait := retryAfterHeader (h_RetryAfter resp) in
    if decide (0 < wait) then wait else scanPendingDefaultWait.

Definition permanentUploadCodes (code : string) : bool := bool_decide (code = "duplicate").
Definition uploadRejectionKind (status : Z) (errorCode : string) : ErrorKind :=
  if decide (status ≠ StatusOK) then classifyStatus status
  else if permanentUploadCodes errorCode then KindPermanent else KindTransient.

Definition bodyRejection (err : error) : bool :=
  match errors_As asRequestError err with
  | Some r => bool_decide (re_StatusCode r = StatusOK)
  | None => false
  end.

(** The wait before attempt [attempt + 2], [None] when the error is final. *)
Definition upload_wait (attempt : nat) (err : error) : option Z :=
  match scannerShedWait err, ScanBudgetWait err with
  | Some _, _ | _, Some _ => None
  | None, None =>
      if IsRateLimited err then Some (RateLimitDelay (Z.of_nat attempt) (RetryAfterHint err))
      else if bodyRejection err then None
      else if IsTransient err || transportRetryable err then retryDelays !! Nat.min attempt (length retryDelays - 1)
      else None
  end.

Definition same_name_message : string :=
  "a file with that name already exists, and --force cannot create a same-name copy for files this large. Re-run without --force to store this upload as a new version, or rename the file first.".
Definition duplicateUnderForce (err : error) (options : gmap string string) : error :=
  if decide (opt "force" options ≠ "true") then err
  else if decide (errors_As asAPIError err ≠ Some "duplicate") then err
  else
    let replaced := ErrAPI "duplicate" same_name_message in
    match errors_As asRequestError err with
    | Some r => ErrRequest (re_Kind r) (re_StatusCode r) (re_RetryAfter r) replaced
    | None => replaced
    end.

(** The form fields the options of an upload become. *)
Definition webUploadFields : list (string * string) :=
  [("sealed_key", "e2ee_sealed_key"); ("encryption_meta", "e2ee_encryption_meta");
   ("tee_sealed_key", "e2ee_tee_sealed_key"); ("plaintext_hmac", "e2ee_plaintext_hmac");
   ("e2ee_display_name", "e2ee_display_name"); ("e2ee_path_token", "e2ee_path_token");
   ("path_tokens", "path_tokens"); ("path_tokens_legacy", "path_tokens_legacy");
   ("signature_ed25519", "signature_ed25519"); ("signature_mldsa", "signature_mldsa");
   ("signing_pk_ed25519", "signing_pk_ed25519"); ("signing_pk_mldsa", "signing_pk_mldsa");
   ("source_mtime", "source_mtime"); ("captured_at", "captured_at");
   ("upload_idempotency_key", "upload_idempotency_key")].

(** The option goes into its field unless it is empty. *)
Definition put_field (options : gmap string string) (fields : gmap string string) (f : string * string)
    : gmap string string :=
  if decide (opt f.1 options ≠ "") then <[f.2 := opt f.1 options]> fields else fields.

Definition UploadIsChunked (maxBytes size : Z) : bool := bool_decide (maxBytes < size).

(** [newChunkSessionID] from the random bytes. *)
Definition newChunkSessionID (random : option bytes) : result error string :=
  match random with
  | Some b => Ok ("cli-" ^^ hex_encode b)
  | None => Err (ErrText "failed to mint chunk upload id")
  end.

Record uploadChunkRequest : Type := mkChunkRequest {
  pt_remotePath : string; pt_chunkID : string; pt_index : Z; pt_totalChunks : Z; pt_offset : Z; pt_length : Z;
  pt_totalSize : Z; pt_options : gmap string string }.

Section chunked.
Context `{U : Unicode} {W : Type} `{HF : !HasFs W}.
Variable c : Client W.
Variable h : Uploads W.

(** ** The session *)

(** [uploadSession]: a new session has a new jar. *)
Definition uploadSession (refresh : bool) (st : ClientState W) : result error webUploadSession * ClientState W :=
  match cs_session st, refresh with
  | Some s, false => (Ok s, st)
  | _, _ =>
      let jar := cs_jars st in
      let url := actionEndpoint c "auth-csrf" in
      match cl_url_error c url with
      | Some e => (Err (ErrWrap "failed to create request" e), mkClientState (cs_session st) (S jar) (cs_world st))
      | None =>
          let '(x, w) := ch_session_Do h (mkUploadSession jar "")
                           (mkRequest "GET" url (setCommonHeaders c ∅) (RawBody (mkSource [] None)) 0) (cs_world st) in
          let keep r := (r, mkClientState (cs_session st) (S jar) w) in
          match x_result x with
          | Err e => keep (Err (ErrWrap "failed to open an upload session" e))
          | Ok resp =>
              match ReadAll_limit ResponseSizeLimit (h_Body resp) with
              | Err e => keep (Err (ErrWrap "failed to read response" e))
              | Ok body =>
                  match ch_json_session h body with
                  | None => keep (Err (statusErrorOf resp (rejectionError c (h_StatusCode resp) body)))
                  | Some (success, csrf) =>
                      if decide (success = false ∨ csrf = "") then
                        keep (Err (statusErrorOf resp (ErrText ("server issued no upload token (status "
                          ^^ fmt_d (h_StatusCode resp) ^^ ")"))))
                      else
                        let s := mkUploadSession jar csrf in (Ok s, mkClientState (Some s) (S jar) w)
                  end
              end
          end
      end
  end.

(** ** One form *)

Definition form_request (fields : gmap string string) (file : option bytes) : request :=
  mkRequest "POST" (cl_endpoint c) (setCommonHeaders c {["Content-Type" := "multipart/form-data"]})
    (FormBody fields file) (ch_form_length h fields file).

Definition read_form_answer (events : list guard_event) (resp : http_response) : result error webUploadResult * Z :=
  let status := h_StatusCode resp in
  match ReadAll_limit ResponseSizeLimit (h_Body resp) with
  | Err e => (Err (classify events (ErrWrap "failed to read response" e)), status)
  | Ok [] => (Err (statusErrorOf resp (empty_response status)), status)
  | Ok respBody =>
      match ch_json_result h respBody with
      | None => (Err (statusErrorOf resp (rejectionError c status respBody)), status)
      | Some result =>
          if decide (status = StatusAccepted ∧ wr_ErrorCode result = "scan_pending") then
            (Err (ErrScanPending (scanPendingWait resp result)), status)
          else if wr_Success result then (Ok result, status)
          else
            let message := if decide (wr_Error result = "") then "upload rejected with status " ^^ fmt_d status
                           else wr_Error result in
            (Err (ErrRequest (uploadRejectionKind status (wr_ErrorCode result)) status
                    (retryAfterHeader (h_RetryAfter resp)) (ErrAPI (wr_ErrorCode result) message)), status)
      end
  end.

Definition postUploadForm (session : webUploadSession) (fields : gmap string string) (file : option bytes) (w : W)
    : (result error webUploadResult * Z) * W :=
  match cl_url_error c (cl_endpoint c) with
  | Some e => ((Err (ErrWrap "failed to create request" e), 0), w)
  | None =>
      let '(x, w) := ch_session_Do h session (form_request fields file) w in
      match x_result x with
      | Err e => ((Err (classify (x_events x) (ErrWrap "request failed" e)), 0), w)
      | Ok resp => (read_form_answer (x_events x) resp, w)
      end
  end.

(** ** Chunks *)

(** [io.CopyN] after a seek: a file that is too short ends it with [io.EOF]. *)
Definition read_chunk (open : W → result error source) (offset length : Z) (w : W) : result error bytes :=
  match open w with
  | Err e => Err (ErrWrap "failed to open file" e)
  | Ok file =>
      let rest := drop (Z.to_nat offset) (remaining file) in
      if decide (length ≤ Z.of_nat (List.length rest)) then Ok (take (Z.to_nat length) rest)
      else Err (ErrWrap "failed to read chunk" (default (ErrSentinel IoEOF) (read_error file)))
  end.

Definition chunk_fields (session : webUploadSession) (part : uploadChunkRequest) : gmap string string :=
  let options := pt_options part in
  let originalName := if decide (opt "sealed_key" options ≠ "") then uploadWireName (opt "source" options)
                      else opt "source" options in
  let fields : gmap string string := list_to_map
    [("action", "upload"); ("csrf_token", us_csrf session); ("path", pt_remotePath part);
     ("chunkUploadId", pt_chunkID part); ("chunkIndex", fmt_d (pt_index part));
     ("totalChunks", fmt_d (pt_totalChunks part)); ("originalName", originalName);
     ("totalSize", fmt_d (pt_totalSize part)); ("chunkSize", fmt_d (pt_length part))] in
  foldl (λ fs name, put_field options fs (name, name)) fields ["path_tokens"; "path_tokens_legacy"].

Definition putUploadChunk (open : W → result error source) (session : webUploadSession) (part : uploadChunkRequest)
    (w : W) : (result error webUploadResult * Z) * W :=
  match read_chunk open (pt_offset part) (pt_length part) w with
  | Err e => ((Err e, 0), w)
  | Ok data => postUploadForm session (chunk_fields session part) (Some data) w
  end.

(** [withUploadRetryStatus], with the retries that are left. *)
Fixpoint upload_retry (retries : nat) (fn : W → (result error webUploadResult * Z) * W) (w : W)
    : (result error webUploadResult * Z) * W :=
  let '((r, status), w) := fn w in
  match r with
  | Ok result => ((Ok result, status), w)
  | Err err =>
      match retries with
      | O => ((Err err, status), w)
      | S retries =>
          match upload_wait (chunkUploadRetries - 2 - retries) err with
          | None => ((Err err, status), w)
          | Some wait =>
              let '(ended, w) := cl_after c wait w in
              match ended with
              | Some e => ((Err e, status), w)
              | None => upload_retry retries fn w
              end
          end
      end
  end.
Definition withUploadRetryStatus := upload_retry (chunkUploadRetries - 1).
Definition withUploadRetry (fn : W → (result error webUploadResult * Z) * W) (w : W)
    : result error webUploadResult * W :=
  let '((r, _), w) := withUploadRetryStatus fn w in (r, w).

(** ** The last request *)

Definition final_fields (session : webUploadSession) (remotePath chunkID : string) (totalChunks size : Z)
    (options : gmap string string) : gmap string string :=
  let name := opt "source" options in
  let wireName := if decide (opt "sealed_key" options ≠ "") then uploadWireName name else name in
  let fields : gmap string string := list_to_map
    [("action", "upload"); ("csrf_token", us_csrf session); ("path", remotePath); ("chunkUploadId", chunkID);
     ("finalize", "1"); ("totalChunks", fmt_d totalChunks); ("originalName", wireName); ("totalSize", fmt_d size);
     ("conflict_strategy", if decide (opt "force" options = "true") then "block" else "replace")] in
  foldl (put_field options) fields webUploadFields.

(** Whether the answer is waited out: the wait, the time it adds to the deadline,
    and the number of waits for the scan budget. *)
Definition finalize_wait (err : error) (budgetWaits : nat) : option (Z * Z * nat) :=
  match errors_As asScanPending err with
  | Some wait => Some (wait, 0, budgetWaits)
  | None =>
      match ScanBudgetWait err with
      | Some budget =>
          if decide (cl_parkScanBudget c = false ∧ (budgetWaits < scanBudgetMaxWaits)%nat ∧
                     (cl_waitOutScanBudget c = true ∨ budget ≤ scanPendingMaxWait))
          then Some (budget, budget, S budgetWaits)
          else (λ wait, (wait, 0, budgetWaits)) <$> scannerShedWait err
      | None => (λ wait, (wait, 0, budgetWaits)) <$> scannerShedWait err
      end
  end.

Inductive finalized : Type := Finished (r : result error webUploadResult) (status : Z) | Cancelled (e : error).

(** The loop of [finalizeChunkedUpload]; [None] when the fuel ran out. *)
Fixpoint finalize_loop (fuel : nat) (post : W → (result error webUploadResult * Z) * W) (deadline : Z)
    (budgetWaits : nat) (w : W) : option (finalized * W) :=
  match fuel with
  | O => None
  | S fuel =>
      let '((r, status), w) := withUploadRetryStatus post w in
      match r with
      | Ok result => Some (Finished (Ok result) status, w)
      | Err err =>
          match finalize_wait err budgetWaits with
          | None => Some (Finished (Err err) status, w)
          | Some (wait, more, budgetWaits) =>
              let deadline := deadline + more in
              if decide (deadline < ch_now h w) then
                Some (Finished (Err (ErrRequest KindTransient status 0
                  (ErrText "security scan did not finish within 15m0s"))) status, w)
              else
                let '(ended, w) := cl_after c wait w in
                match ended with
                | Some e => Some (Cancelled e, w)
                | None => finalize_loop fuel post deadline budgetWaits w
                end
          end
      end
  end.

(** The tag of the receipt: a digest in hexadecimal. *)
Definition receipt_etag (result : webUploadResult) : option string :=
  match hex_decode (wr_ETag result) with
  | Some stamp => if decide (length stamp = 32%nat) then Some (wr_ETag result) else None
  | None => None
  end.

Definition finalizeChunkedUpload (fuel : nat) (session : webUploadSession) (remotePath chunkID : string)
    (totalChunks size : Z) (options : gmap string string) (w : W) : option (result error Response * W) :=
  let fields := final_fields session remotePath chunkID totalChunks size options in
  match finalize_loop fuel (postUploadForm session fields None) (ch_now h w + scanPendingMaxWait) 0 w with
  | None => None
  | Some (Cancelled e, w) => Some (Err e, w)
  | Some (Finished (Err e) _, w) => Some (Err (duplicateUnderForce e options), w)
  | Some (Finished (Ok result) status, w) =>
      let storedName := opt "source" options in
      match ch_json_receipt h (joinRemotePath remotePath storedName) storedName size result (receipt_etag result) with
      | Err e => Some (Err (ErrWrap "failed to render upload result" e), w)
      | Ok raw => Some (Ok (mkResponse true "" "" "" "" status raw), w)
      end
  end.

(** ** The whole file *)

(** Chunk [index] of the file. *)
Definition chunk_part (remotePath chunkID : string) (totalChunks size : Z) (options : gmap string string) (index : Z)
    : uploadChunkRequest :=
  let chunkSize := Z.max (ch_chunkSize h) 1 in
  let offset := index * chunkSize in
  mkChunkRequest remotePath chunkID index totalChunks offset (Z.min chunkSize (size - offset)) size options.

Fixpoint chunks_loop (open : W → result error source) (part : Z → uploadChunkRequest) (totalChunks : Z)
    (indexes : list Z) (session : webUploadSession) (st : ClientState W)
    : result error webUploadSession * ClientState W :=
  match indexes with
  | [] => (Ok session, st)
  | index :: indexes =>
      let '(r, w) := withUploadRetry (putUploadChunk open session (part index)) (cs_world st) in
      let st := mkClientState (cs_session st) (cs_jars st) w in
      let '(retried, st) :=
        match r with
        | Err e =>
            if decide (index = 0 ∧ IsPermanentRequest e = true) then
              let '(s, st) := uploadSession true st in
              match s with
              | Err e => (Err e, st)
              | Ok s =>
                  let '(r, w) := withUploadRetry (putUploadChunk open s (part index)) (cs_world st) in
                  (Ok (s, r), mkClientState (cs_session st) (cs_jars st) w)
              end
            else (Ok (session, Err e), st)
        | Ok a => (Ok (session, Ok a), st)
        end in
      match retried with
      | Err e => (Err e, st)
      | Ok (_, Err e) => (Err (ErrWrap ("chunk " ^^ fmt_d (index + 1) ^^ "/" ^^ fmt_d totalChunks) e), st)
      | Ok (session, Ok _) => chunks_loop open part totalChunks indexes session st
      end
  end.

Definition total_chunks (size : Z) : Z :=
  let chunkSize := Z.max (ch_chunkSize h) 1 in
  Z.max (wrap64 (size + chunkSize - 1) `quot` chunkSize) 1.

Definition uploadChunked (fuel : nat) (open : W → result error source) (remotePath : string) (size : Z)
    (options : gmap string string) (st : ClientState W) : option (result error Response * ClientState W) :=
  let '(s, st) := uploadSession false st in
  match s with
  | Err e => Some (Err e, st)
  | Ok session =>
      match newChunkSessionID (ch_random h (cs_world st)) with
      | Err e => Some (Err e, st)
      | Ok chunkID =>
          let totalChunks := total_chunks size in
          let '(r, st) := chunks_loop open (chunk_part remotePath chunkID totalChunks size options) totalChunks
                            (seqZ 0 totalChunks) session st in
          match r with
          | Err e => Some (Err e, st)
          | Ok session =>
              match finalizeChunkedUpload fuel session remotePath chunkID totalChunks size options (cs_world st) with
              | None => None
              | Some (r, w) => Some (r, mkClientState (cs_session st) (cs_jars st) w)
              end
          end
      end
  end.

(** [Upload]: the size is that of the file when the upload starts. *)
Definition Upload (fuel : nat) (open : W → result error source) (stat : W → result error Z) (base remotePath : string)
    (e2eeOpts : gmap string string) (st : ClientState W) : option (result error Response * ClientState W) :=
  let w := cs_world st in
  let options := upload_options base remotePath (NewUploadIdempotencyKey (ch_random h w) (ch_now h w)) e2eeOpts in
  match stat w with
  | Err e => Some (Err (ErrWrap "failed to stat file" e), st)
  | Ok size =>
      if UploadIsChunked (ch_maxBytes h) size then uploadChunked fuel open remotePath size options st
      else
        let '(r, w) := uploadWholeBody c open options w in
        let st := mkClientState (cs_session st) (cs_jars st) w in
        match r with
        | Err e => if bodyTooLarge e then uploadChunked fuel open remotePath size options st else Some (Err e, st)
        | Ok resp => Some (Ok resp, st)
        end
  end.
End chunked.

(** ** Retries of a form *)

Section rules.
Context `{U : Unicode} {W : Type}.
Variable c : Client W.
Variable h : Uploads W.

Lemma upload_retry_rule (P : W → Prop) fn n w r st w' :
  (∀ w e st w', P w → fn w = ((Err e, st), w') → P w') → (∀ d w, P w → P (cl_after c d w).2) → P w →
  upload_retry c n fn w = ((r, st), w') →
  match r with Ok a => ∃ w0, P w0 ∧ fn w0 = ((Ok a, st), w') | Err _ => P w' end.
Proof using Type.
  intros Hfn Haf. revert w. induction n as [|n IH]; intros w Hw; cbn [upload_retry];
    destruct (fn w) as [[[a|e] s] w1] eqn:Hf.
  - intros [= <- <- <-]. by exists w.
  - intros [= <- <- <-]. by eapply Hfn.
  - intros [= <- <- <-]. by exists w.
  - pose proof (Hfn _ _ _ _ Hw Hf) as Hw1. destruct (upload_wait _ e) as [d|]; [|by intros [= <- <- <-]].
    pose proof (Haf d w1 Hw1) as Hw2. destruct (cl_after c d w1) as [[e2|] w2]; [by intros [= <- <- <-]|by apply IH].
Qed.

Lemma withUploadRetry_rule (P : W → Prop) fn w r w' :
  (∀ w e st w', P w → fn w = ((Err e, st), w') → P w') → (∀ d w, P w → P (cl_after c d w).2) → P w →
  withUploadRetry c fn w = (r, w') →
  match r with Ok a => ∃ w0 st, P w0 ∧ fn w0 = ((Ok a, st), w') | Err _ => P w' end.
Proof using Type.
  intros Hfn Haf Hw. unfold withUploadRetry. destruct (withUploadRetryStatus c fn w) as [[r1 st] w1] eqn:Hr.
  intros [= <- <-]. apply (upload_retry_rule P) in Hr; [|done..]. destruct r1; [|done].
  destruct Hr as (w0 & ? & ?). by exists w0, st.
Qed.

(** Where the error of a retried form comes from: an attempt, or the context. *)
Lemma upload_retry_err fn n w e st w' :
  upload_retry c n fn w = ((Err e, st), w') →
  (∃ w0 st0, (fn w0).1 = (Err e, st0)) ∨ (∃ d w0, (cl_after c d w0).1 = Some e).
Proof using Type.
  revert w. induction n as [|n IH]; intros w; cbn [upload_retry]; destruct (fn w) as [[[a|e1] s] w1] eqn:Hf; try done.
  - intros [= <- <- <-]. left. exists w, s. by rewrite Hf.
  - destruct (upload_wait _ e1) as [d|]; [|intros [= <- <- <-]; left; exists w, s; by rewrite Hf].
    destruct (cl_after c d w1) as [[e2|] w2] eqn:Ha; [|apply IH].
    intros [= <- <- <-]. right. exists d, w1. by rewrite Ha.
Qed.

(** The result of the loop is that of one attempt. *)
Lemma finalize_loop_rule (P : W → Prop) post fuel : ∀ deadline n w r w',
  (∀ w e st w', P w → post w = ((Err e, st), w') → P w') → (∀ d w, P w → P (cl_after c d w).2) → P w →
  finalize_loop c h fuel post deadline n w = Some (r, w') →
  match r with Finished (Ok a) st => ∃ w0, P w0 ∧ post w0 = ((Ok a, st), w') | _ => P w' end.
Proof using Type.
  induction fuel as [|fuel IH]; intros deadline n w r w' Hp Haf Hw; cbn [finalize_loop]; [done|].
  destruct (withUploadRetryStatus c post w) as [[r1 st] w1] eqn:Hr.
  apply (upload_retry_rule P) in Hr; [|done..]. destruct r1 as [a|e]; [by intros [= <- <-]|].
  destruct (finalize_wait c e n) as [[[wait more] n']|]; [|by intros [= <- <-]]. case_decide; [by intros [= <- <-]|].
  pose proof (Haf wait w1 Hr) as Hw2. destruct (cl_after c wait w1) as [[e2|] w2]; [by intros [= <- <-]|by apply IH].
Qed.
End rules.

(** ** The server can put the file together *)

(** Part [i] of a file cut into pieces of [n] bytes. *)
Definition slice (n : Z) (content : bytes) (i : Z) : bytes :=
  take (Z.to_nat (Z.min n (Z.of_nat (length content) - i * n))) (drop (Z.to_nat (i * n)) content).

Lemma slice_eq n content i : 0 < n → 0 ≤ i → slice n content i = take (Z.to_nat n) (drop (Z.to_nat (i * n)) content).
Proof.
  intros Hn Hi. unfold slice. assert (0 ≤ i * n) by nia.
  destruct (decide (n ≤ Z.of_nat (length content) - i * n)); [by rewrite Z.min_l by lia|].
  rewrite Z.min_r by lia. rewrite (take_ge (drop _ _)), take_ge; [done|rewrite length_drop; lia|rewrite length_drop; lia].
Qed.

Lemma concat_slices_take n content (k : nat) : 0 < n →
  concat (slice n content <$> seqZ 0 (Z.of_nat k)) = take (Z.to_nat (Z.of_nat k * n)) content.
Proof.
  intros Hn. induction k as [|k IH]; [done|]. rewrite seqZ_S, fmap_app, concat_app, IH.
  cbn [fmap list_fmap concat]. rewrite app_nil_r, Z.add_0_l, slice_eq by lia.
  replace (Z.to_nat (Z.of_nat (S k) * n)) with (Z.to_nat (Z.of_nat k * n) + Z.to_nat n)%nat by nia.
  apply take_take_drop.
Qed.

Section reassembly.
Context `{U : Unicode} {W : Type}.
Variable c : Client W.
Variable h : Uploads W.
(** The parts a server holds, by upload and index. *)
Variable stored : W → gmap (string * string) bytes.

Definition part_key (fields : gmap string string) : string * string :=
  (opt "chunkUploadId" fields, opt "chunkIndex" fields).

(** The answer of an exchange says the form was taken. *)
Definition taken (x : exchange) : bool :=
  match x_result x with Ok resp => is_ok (read_form_answer c h (x_events x) resp).1 | Err _ => false end.

(** A server that stores a part it is sent, certainly when it says so, and
    whose other requests leave the parts alone.  A part may also be stored when
    the answer is lost. *)
Record keeps_parts : Prop := {
  kp_put s fields data w : let w' := (ch_session_Do h s (form_request c h fields (Some data)) w).2 in
    stored w' = stored w ∨ stored w' = <[part_key fields := data]> (stored w);
  kp_taken s fields data w : let '(x, w') := ch_session_Do h s (form_request c h fields (Some data)) w in
    taken x = true → stored w' = <[part_key fields := data]> (stored w);
  kp_other s rq w : (∀ fields data, rq_Body rq ≠ FormBody fields (Some data)) →
    stored (ch_session_Do h s rq w).2 = stored w;
  kp_after d w : stored (cl_after c d w).2 = stored w }.

Hypothesis Hserver : keeps_parts.
Variable content : bytes.
Variable open : W → result error source.
Hypothesis Hopen : ∀ w, open w = Ok (mkSource content None).
Hypothesis Hsize : Z.of_nat (length content) + Z.max (ch_chunkSize h) 1 ≤ 2 ^ 63.

Abbreviation size := (Z.of_nat (length content)).
Abbreviation chunk := (slice (Z.max (ch_chunkSize h) 1) content).

Lemma total_chunks_eq : total_chunks h size = Z.max ((size + Z.max (ch_chunkSize h) 1 - 1) `div` Z.max (ch_chunkSize h) 1) 1.
Proof using Hsize.
  unfold total_chunks. cbv zeta. rewrite wrap64_id by (unfold int64_ok; lia). by rewrite Z.quot_div_nonneg by lia.
Qed.

(** The chunks are the file. *)
Lemma concat_chunks : concat (chunk <$> seqZ 0 (total_chunks h size)) = content.
Proof using Hsize.
  set (n := Z.max (ch_chunkSize h) 1). assert (0 < n) by lia.
  assert (0 ≤ total_chunks h size) as Ht by (rewrite total_chunks_eq; lia).
  rewrite <- (Z2Nat.id (total_chunks h size)) by done. rewrite concat_slices_take by done.
  rewrite Z2Nat.id, total_chunks_eq by done. fold n. apply take_ge.
  pose proof (Z.mul_succ_div_gt (size + n - 1) n). nia.
Qed.

(** The server holds the first [n] chunks. *)
Definition holds (chunkID : string) (n : Z) (w : W) : Prop :=
  ∀ i, 0 ≤ i < n → stored w !! (chunkID, fmt_d i) = Some (chunk i).

Lemma holds_stored chunkID n w w' : stored w' = stored w → holds chunkID n w → holds chunkID n w'.
Proof using Type. intros He H i Hi. rewrite He. by apply H. Qed.

Lemma holds_put chunkID n w w' data :
  stored w' = <[(chunkID, fmt_d n) := data]> (stored w) → holds chunkID n w → holds chunkID n w'.
Proof using Type.
  intros He H i Hi. rewrite He, lookup_insert_ne; [by apply H|]. intros [= Hn%(inj fmt_d)]. lia.
Qed.

Lemma uploadSession_stored refresh st : stored (cs_world (uploadSession c h refresh st).2) = stored (cs_world st).
Proof using Hserver.
  unfold uploadSession. destruct (cs_session st), refresh; try done;
    (destruct (cl_url_error c _); [done|]; match goal with |- context [ch_session_Do h ?s ?rq ?w] =>
       pose proof (kp_other Hserver s rq w) as Hk; destruct (ch_session_Do h s rq w) as [x w1] end;
     assert (stored w1 = stored (cs_world st)) as <- by (by apply Hk);
     destruct (x_result x); [|done]; destruct (ReadAll_limit _ _); [|done];
     destruct (ch_json_session h _) as [[success csrf]|]; [|done]; by case_decide).
Qed.

Section one.
Variables (remotePath chunkID : string) (options : gmap string string).
Abbreviation part := (chunk_part h remotePath chunkID (total_chunks h size) size options).

Lemma chunk_fields_key s i : part_key (chunk_fields s (part i)) = (chunkID, fmt_d i).
Proof using Type.
  unfold part_key, chunk_fields, opt. cbn [foldl]. unfold put_field. cbn [fst snd].
  by do 2 case_decide; rewrite ?lookup_insert_ne by done.
Qed.

Lemma read_chunk_eq i w : 0 ≤ i < total_chunks h size →
  read_chunk open (pt_offset (part i)) (pt_length (part i)) w = Ok (chunk i).
Proof using Hopen Hsize.
  intros Hi. unfold read_chunk. rewrite Hopen. cbn [remaining pt_offset pt_length chunk_part].
  rewrite decide_True; [done|]. rewrite length_drop. rewrite total_chunks_eq in Hi.
  set (n := Z.max (ch_chunkSize h) 1) in *.
  assert (0 < n) by lia. pose proof (Z.mul_div_le (size + n - 1) n ltac:(lia)).
  destruct (decide (i = 0)) as [->|]; [lia|]. nia.
Qed.

Lemma putUploadChunk_holds s i w r st w' : 0 ≤ i < total_chunks h size →
  holds chunkID i w → putUploadChunk c h open s (part i) w = ((r, st), w') →
  match r with Ok _ => holds chunkID (i + 1) w' | Err _ => holds chunkID i w' end.
Proof using Hserver Hopen Hsize.
  intros Hi Hw. unfold putUploadChunk. rewrite read_chunk_eq by done. unfold postUploadForm.
  destruct (cl_url_error c _); [by intros [= <- <- <-]|].
  pose proof (kp_put Hserver s (chunk_fields s (part i)) (chunk i) w) as Hput.
  pose proof (kp_taken Hserver s (chunk_fields s (part i)) (chunk i) w) as Htak. rewrite chunk_fields_key in Hput, Htak.
  destruct (ch_session_Do h s _ w) as [x w1]. cbv zeta in Hput. cbn [snd] in Hput. intros Hr.
  assert (holds chunkID i w1) as Hw1.
  { destruct Hput as [Hp|Hp]; [by eapply holds_stored|by eapply holds_put]. }
  unfold taken in Htak. destruct (x_result x) as [resp|e]; [|by injection Hr as <- <- <-].
  destruct (read_form_answer c h (x_events x) resp) as [[a|e] st1]; injection Hr as <- <- <-; [|done].
  intros j Hj. rewrite (Htak eq_refl). destruct (decide (j = i)) as [->|]; [by rewrite lookup_insert_eq|].
  rewrite lookup_insert_ne by (intros [= ?%(inj fmt_d)]; lia). apply Hw. lia.
Qed.

Lemma put_retried_holds s i w r w' : 0 ≤ i < total_chunks h size →
  holds chunkID i w → withUploadRetry c (putUploadChunk c h open s (part i)) w = (r, w') →
  match r with Ok _ => holds chunkID (i + 1) w' | Err _ => holds chunkID i w' end.
Proof using Hserver Hopen Hsize.
  intros Hi Hw H. apply (withUploadRetry_rule c (holds chunkID i)) in H; [| | |done].
  - destruct r; [|done]. destruct H as (w0 & st & Hw0 & H). by apply putUploadChunk_holds in H.
  - intros v e st v' Hv Hf. by apply putUploadChunk_holds in Hf.
  - intros d v. apply holds_stored, (kp_after Hserver).
Qed.

Lemma chunks_loop_holds (m : nat) : ∀ i s st s' st', 0 ≤ i → i + Z.of_nat m = total_chunks h size →
  holds chunkID i (cs_world st) →
  chunks_loop c h open part (total_chunks h size) (seqZ i (Z.of_nat m)) s st = (Ok s', st') →
  holds chunkID (total_chunks h size) (cs_world st').
Proof using Hserver Hopen Hsize.
  induction m as [|m IH]; intros i s st s' st' Hi Hm Hst.
  { cbn [seqZ chunks_loop]. intros [= _ <-]. by replace (total_chunks h size) with i by lia. }
  rewrite seqZ_cons by lia. replace (Z.pred (Z.of_nat (S m))) with (Z.of_nat m) by lia. cbn [chunks_loop].
  destruct (withUploadRetry _ _ _) as [r w] eqn:Hr. apply put_retried_holds in Hr; [|lia|done].
  destruct r as [a|e]; [by apply IH; [lia|lia|replace (Z.succ i) with (i + 1) by lia]|].
  case_decide; [|done]. pose proof (uploadSession_stored true (mkClientState (cs_session st) (cs_jars st) w)) as Hss.
  destruct (uploadSession c h true _) as [[s2|e2] st2]; [|done]. cbn [cs_world snd] in Hss.
  destruct (withUploadRetry _ _ (cs_world st2)) as [r2 w2] eqn:Hr2.
  apply put_retried_holds in Hr2; [|lia|by eapply holds_stored].
  destruct r2; [|done]. by apply IH; [lia|lia|replace (Z.succ i) with (i + 1) by lia].
Qed.
End one.

(** A chunked upload that succeeds closed it over every chunk. *)
Lemma uploadChunked_holds fuel remotePath options st resp st' :
  uploadChunked c h fuel open remotePath size options st = Some (Ok resp, st') →
  ∃ session chunkID w0 result status parts,
    holds chunkID (total_chunks h size) w0 ∧
    parts = (chunk <$> seqZ 0 (total_chunks h size)) ∧ concat parts = content ∧
    Forall (λ p, Z.of_nat (length p) ≤ Z.max (ch_chunkSize h) 1) parts ∧
    postUploadForm c h session (final_fields session remotePath chunkID (total_chunks h size) size options) None w0
      = ((Ok result, status), cs_world st') ∧
    ch_json_receipt h (joinRemotePath remotePath (opt "source" options)) (opt "source" options) size result
      (receipt_etag result) = Ok (Raw resp).
Proof using Hserver Hopen Hsize.
  unfold uploadChunked. destruct (uploadSession c h false st) as [[s0|] st0]; [|done].
  destruct (newChunkSessionID _) as [chunkID|]; [|done]. cbv zeta.
  destruct (chunks_loop _ _ _ _ _ _ _ st0) as [[s1|] st1] eqn:Hl; [|done].
  assert (0 ≤ total_chunks h size) as Ht by (rewrite total_chunks_eq; lia).
  rewrite <- (Z2Nat.id (total_chunks h size)) in Hl at 3 by done.
  apply (chunks_loop_holds remotePath chunkID options) in Hl; [|lia|lia|intros i Hi; lia].
  unfold finalizeChunkedUpload. cbv zeta.
  destruct (finalize_loop _ _ _ _ _ _ _) as [[r w]|] eqn:Hf; [|done].
  apply (finalize_loop_rule c h (holds chunkID (total_chunks h size))) in Hf; [| | |done].
  - destruct r as [[result|e] status|e]; [|done..]. destruct Hf as (w0 & Hw0 & Hpost).
    destruct (ch_json_receipt _ _ _ _ _ _) as [raw|] eqn:Hrec; [|done]. intros [= <- <-].
    exists s1, chunkID, w0, result, status, (chunk <$> seqZ 0 (total_chunks h size)). split_and!; try done.
    + by apply concat_chunks.
    + apply Forall_fmap, Forall_forall. intros i _. simpl. unfold slice. rewrite length_take. lia.
  - intros v e st2 v' Hv. unfold postUploadForm. destruct (cl_url_error c _); [by intros [= _ _ <-]|].
    match goal with |- context [ch_session_Do h ?s ?rq v] => pose proof (kp_other Hserver s rq v ltac:(by intros)) as Hk;
      destruct (ch_session_Do h s rq v) as [x v1] end. intros Hr.
    assert (v1 = v') as <- by (by destruct (x_result x); injection Hr). by eapply holds_stored.
  - intros d v. apply holds_stored, (kp_after Hserver).
Qed.

(** C9: An upload in chunks arrives whole.  Against any server that stores the
    parts it acknowledges (and possibly some whose answer was lost), whatever
    fails and is retried in between, a chunked upload of a file that succeeds has
    had its closing request accepted when the server holds, under the upload's id,
    every chunk from 0 to the number that request states, and the chunks in that
    order are the file, each at most one chunk size long.  The receipt names the
    size and the target. *)
Theorem uploadChunked_reassembles fuel remotePath options st resp st' :
  uploadChunked c h fuel open remotePath size options st = Some (Ok resp, st') →
  ∃ session chunkID w0 result status parts,
    holds chunkID (total_chunks h size) w0 ∧
    parts = (chunk <$> seqZ 0 (total_chunks h size)) ∧ concat parts = content ∧
    Forall (λ p, Z.of_nat (length p) ≤ Z.max (ch_chunkSize h) 1) parts ∧
    postUploadForm c h session (final_fields session remotePath chunkID (total_chunks h size) size options) None w0
      = ((Ok result, status), cs_world st') ∧
    ch_json_receipt h (joinRemotePath remotePath (opt "source" options)) (opt "source" options) size result
      (receipt_etag result) = Ok (Raw resp).
Proof using Hserver Hopen Hsize. apply uploadChunked_holds. Qed.
End reassembly.

(** ** The loop over the scan ends *)

Section returns.
Context `{U : Unicode} {W : Type}.
Variable c : Client W.
Variable h : Uploads W.

(** A request takes time, a wait that is not cut short takes its time, the
    clock does not go back, the context ends with one of its two errors, and a
    URL is not refused with an error of the client. *)
Record clock_ok : Prop := {
  ck_do s rq w : ch_now h w < ch_now h (ch_session_Do h s rq w).2;
  ck_after d w : ch_now h w + Z.max 0 d ≤ ch_now h (cl_after c d w).2 ∨ (cl_after c d w).1 ≠ None;
  ck_mono d w : ch_now h w ≤ ch_now h (cl_after c d w).2;
  ck_ended d w e : (cl_after c d w).1 = Some e → e = ErrSentinel ContextCanceled ∨ e = ErrSentinel ContextDeadlineExceeded;
  ck_url url e : cl_url_error c url = Some e → errors_As asScanPending e = None }.

Hypothesis Hclock : clock_ok.

Section post.
Variables (s : webUploadSession) (fields : gmap string string).
Abbreviation post := (postUploadForm c h s fields None).

Lemma scannerShedWait_pos e d : scannerShedWait e = Some d → 0 < d.
Proof using Type. unfold scannerShedWait. case_decide; [|done]. cbv zeta. intros [= <-]. case_decide; [done|by vm_compute]. Qed.

(** What a wait does to the deadline and the budget of waits; only the wait that
    a pending answer asks for may be none. *)
Lemma finalize_wait_spec e n d more n' : (n ≤ scanBudgetMaxWaits)%nat → finalize_wait c e n = Some (d, more, n') →
  (0 < d ∨ errors_As asScanPending e ≠ None) ∧ (n' ≤ scanBudgetMaxWaits)%nat ∧
  more - Z.of_nat (n' - n) * MaxScanBudgetDelay ≤ 0 ∧ (n ≤ n')%nat.
Proof using Type.
  intros Hn. unfold finalize_wait. destruct (errors_As asScanPending e) as [p|].
  { intros [= <- <- <-]. split_and!; [by right|done|lia|done]. }
  assert (∀ d0, (λ wait, (wait, 0, n)) <$> scannerShedWait e = Some d0 → d0 = (d, more, n') →
    (0 < d ∨ @None Z ≠ None) ∧ (n' ≤ scanBudgetMaxWaits)%nat ∧ more - Z.of_nat (n' - n) * MaxScanBudgetDelay ≤ 0 ∧ (n ≤ n')%nat) as Hshed.
  { intros d0. destruct (scannerShedWait e) as [k|] eqn:Hk; [|done]. intros [= <-] [= <- <- <-].
    apply scannerShedWait_pos in Hk. split_and!; [by left|done|lia|done]. }
  destruct (ScanBudgetWait e) as [b|] eqn:Hb; [|intros; by eapply Hshed].
  case_decide as Hd; [|intros; by eapply Hshed]. intros [= <- <- <-].
  apply ScanBudgetWait_bounds in Hb. destruct Hd as (_ & Hn2 & _).
  replace (S n - n)%nat with 1%nat by lia. split_and!; [left|..]; lia.
Qed.

(** An attempt takes time, unless it does not get as far as a request; then its
    error is not a pending answer. *)
Definition unsent : Prop := cl_url_error c (cl_endpoint c) ≠ None.
Lemma now_after_post w : ch_now h w ≤ ch_now h (post w).2 ∧ (unsent ∨ ch_now h w < ch_now h (post w).2).
Proof using Hclock.
  unfold postUploadForm, unsent. destruct (cl_url_error c _) as [e0|]; [split; [done|by left]|].
  pose proof (ck_do Hclock s (form_request c h fields None) w) as Hd. destruct (ch_session_Do h s _ w) as [x w1].
  cbn [snd] in Hd. destruct (x_result x); cbn [snd]; (split; [lia|by right]).
Qed.
Lemma unsent_not_pending w e st : unsent → (post w).1 = (Err e, st) → errors_As asScanPending e = None.
Proof using Hclock.
  unfold unsent, postUploadForm. destruct (cl_url_error c _) as [e0|] eqn:Hu; [|done]. intros _ [= <- <-].
  exact (ck_url Hclock _ _ Hu).
Qed.

Lemma upload_retry_now n : ∀ w, ch_now h w ≤ ch_now h (upload_retry c n post w).2 ∧
  (unsent ∨ ch_now h w < ch_now h (upload_retry c n post w).2).
Proof using Hclock.
  induction n as [|n IH]; intros w; cbn [upload_retry]; pose proof (now_after_post w) as Hp;
    destruct (post w) as [[[a|e] st] w1]; try done. cbn [snd] in *.
  destruct (upload_wait _ e) as [d|]; [|done]. pose proof (ck_mono Hclock d w1) as Ha.
  destruct (cl_after c d w1) as [[e2|] w2]; cbn [snd] in *; [|specialize (IH w2)]; (split; [lia|]); (destruct (proj2 Hp); [by left|right; lia]).
Qed.

(** A round that is to be repeated takes time: that of its request, or that of
    its wait. *)
Lemma round_takes_time n w e st w1 d more k k' : upload_retry c n post w = ((Err e, st), w1) → (k ≤ scanBudgetMaxWaits)%nat →
  finalize_wait c e k = Some (d, more, k') → ch_now h w < ch_now h w1 + Z.max 0 d.
Proof using Hclock.
  intros Hr Hk Hf. pose proof (upload_retry_now n w) as [Hle Hlt]. rewrite Hr in Hle, Hlt. cbn [snd] in *.
  destruct Hlt as [Hu|]; [|lia]. apply finalize_wait_spec in Hf as [[Hd|Hd] _]; [lia| |done]. exfalso. apply Hd.
  destruct (upload_retry_err _ _ _ _ _ _ _ Hr) as [(w0 & st0 & Hp)|(d0 & w0 & He)]; [by eapply unsent_not_pending|].
  by destruct (ck_ended Hclock _ _ _ He) as [->| ->].
Qed.

(** The time that can still pass before the loop gives up. *)
Definition time_left (deadline : Z) (n : nat) (w : W) : Z :=
  deadline + Z.of_nat (scanBudgetMaxWaits - n) * MaxScanBudgetDelay - ch_now h w.

Lemma finalize_loop_returns fuel : ∀ deadline n w, (n ≤ scanBudgetMaxWaits)%nat →
  Z.max (-1) (time_left deadline n w) + 1 < Z.of_nat fuel →
  is_Some (finalize_loop c h fuel post deadline n w).
Proof using Hclock.
  induction fuel as [|fuel IH]; intros deadline n w Hn Hfuel; [lia|]. cbn [finalize_loop].
  unfold withUploadRetryStatus. pose proof (upload_retry_now (chunkUploadRetries - 1) w) as [Hnow _].
  destruct (upload_retry c _ post w) as [[[a|e] st] w1] eqn:Hr; [by eexists|]. cbn [snd] in Hnow.
  destruct (finalize_wait c e n) as [[[d more] n']|] eqn:Hf; [|by eexists].
  pose proof (round_takes_time _ _ _ _ _ _ _ _ _ Hr Hn Hf) as Htime.
  apply finalize_wait_spec in Hf as (_ & Hn' & Hmore & Hle); [|done].
  case_decide as Hdl; [by eexists|]. pose proof (ck_after Hclock d w1) as Ha.
  destruct (cl_after c d w1) as [[e2|] w2]; [by eexists|]. cbn [fst snd] in Ha.
  destruct Ha as [Ha|]; [|done]. apply IH; [done|]. revert Hfuel Hmore. unfold time_left.
  change MaxScanBudgetDelay with 3600000000000. lia.
Qed.

(** The times that the answers of the server decide: of one round with its
    retries, and of the wait it calls for. *)
Definition paced (round wait : Z) : Prop := ∀ w,
  let '((r, _), w1) := withUploadRetryStatus c post w in
  ch_now h w1 ≤ ch_now h w + round ∧
  match r with
  | Err e => ∀ n d more n', finalize_wait c e n = Some (d, more, n') → ch_now h (cl_after c d w1).2 ≤ ch_now h w1 + wait
  | Ok _ => True
  end.

Lemma finalize_loop_time round wait fuel : 0 ≤ wait → paced round wait → ∀ deadline n w r w', (n ≤ scanBudgetMaxWaits)%nat →
  finalize_loop c h fuel post deadline n w = Some (r, w') →
  ch_now h w' ≤ Z.max (ch_now h w) (deadline + Z.of_nat (scanBudgetMaxWaits - n) * MaxScanBudgetDelay + wait) + round.
Proof using Hclock.
  intros Hw0 Hpace. induction fuel as [|fuel IH]; intros deadline n w r w' Hn; cbn [finalize_loop]; [done|].
  pose proof (Hpace w) as Hp. pose proof (proj1 (upload_retry_now (chunkUploadRetries - 1) w)) as Hnow.
  unfold withUploadRetryStatus in *. destruct (upload_retry c _ post w) as [[[a|e] st] w1]; destruct Hp as [Hround Hwait];
    (assert (0 ≤ round) as Hr0 by (cbn [snd] in Hnow; lia)); [intros [= _ <-]; lia|]. destruct (finalize_wait c e n) as [[[d more] n']|] eqn:Hf; [|intros [= _ <-]; lia].
  specialize (Hwait _ _ _ _ Hf). apply finalize_wait_spec in Hf as (_ & Hn' & Hmore & Hle); [|done].
  assert (deadline + more + Z.of_nat (scanBudgetMaxWaits - n') * MaxScanBudgetDelay ≤
          deadline + Z.of_nat (scanBudgetMaxWaits - n) * MaxScanBudgetDelay) as Hdl.
  { replace (Z.of_nat (scanBudgetMaxWaits - n)) with (Z.of_nat (scanBudgetMaxWaits - n') + Z.of_nat (n' - n)) by lia. lia. }
  assert (0 ≤ Z.of_nat (scanBudgetMaxWaits - n') * MaxScanBudgetDelay) as Hpos by (by apply Z.mul_nonneg_nonneg; [lia|vm_compute]).
  case_decide; [intros [= _ <-]; lia|]. destruct (cl_after c d w1) as [[e2|] w2]; cbn [snd] in Hwait; [intros [= _ <-]; lia|].
  intros H2. apply IH in H2; [lia|done].
Qed.
End post.

(** C30: Closing a chunked upload ends, whatever the server answers.  However
    long it says that its scan is running (by a hint of any size, one that wraps
    to no wait included), that it is busy, or that the scan budget is spent, the
    loop of [finalizeChunkedUpload] returns, given that a request takes time.  It
    begins no wait once fifteen minutes and at most two waits for the budget, of
    at most an hour each, have passed: if a request with its retries takes at
    most [round] and a wait that is called for at most [wait], it is back after
    that time, one wait and one round. *)
Theorem finalizeChunkedUpload_returns fuel s remotePath chunkID totalChunks total options w :
  scanPendingMaxWait + 2 * MaxScanBudgetDelay + 1 < Z.of_nat fuel →
  ∃ r w', finalizeChunkedUpload c h fuel s remotePath chunkID totalChunks total options w = Some (r, w') ∧
    ∀ round wait, 0 ≤ wait → paced s (final_fields s remotePath chunkID totalChunks total options) round wait →
      ch_now h w' ≤ ch_now h w + scanPendingMaxWait + 2 * MaxScanBudgetDelay + wait + round.
Proof using Hclock.
  intros Hfuel. unfold finalizeChunkedUpload. cbv zeta. set (fields := final_fields s remotePath chunkID totalChunks total options).
  destruct (finalize_loop_returns s fields fuel (ch_now h w + scanPendingMaxWait) 0 w) as [[r w'] Hl].
  { unfold scanBudgetMaxWaits. lia. }
  { unfold time_left. change (Z.of_nat (scanBudgetMaxWaits - 0)) with 2.
    change scanPendingMaxWait with 900000000000 in *. change MaxScanBudgetDelay with 3600000000000 in *. lia. }
  assert (∀ round wait, 0 ≤ wait → paced s fields round wait →
    ch_now h w' ≤ ch_now h w + scanPendingMaxWait + 2 * MaxScanBudgetDelay + wait + round) as Ht.
  { intros round wait Hw Hp. apply (finalize_loop_time s fields round wait) in Hl; [|done|done|unfold scanBudgetMaxWaits; lia].
    revert Hl. change (Z.of_nat (scanBudgetMaxWaits - 0)) with 2. change scanPendingMaxWait with 900000000000.
    change MaxScanBudgetDelay with 3600000000000. lia. }
  rewrite Hl. destruct r as [[a|e] st|e]; [destruct (ch_json_receipt _ _ _ _ _ _)|..]; by do 2 eexists.
Qed.
End returns.

(** ** Examples *)

(** A server with a clock, the parts it was sent and the number of requests: the
    answer to its third request is lost, and it scans for twenty seconds. *)
Record ex_server : Type := mkExServer { xs_now : Z; xs_parts : gmap (string * string) bytes; xs_count : nat }.

Definition ex_reply (status : Z) (body : bytes) : exchange :=
  mkExchange [] (Ok (mkHttpResponse status None "application/json" "" 1 (mkSource body None))).
Definition ex_session_do (s : webUploadSession) (rq : request) (w : ex_server) : exchange * ex_server :=
  let served parts := mkExServer (xs_now w + second) parts (S (xs_count w)) in
  match rq_Body rq with
  | FormBody fields (Some data) =>
      let w' := served (<[part_key fields := data]> (xs_parts w)) in
      if decide (xs_count w = 2%nat) then (mkExchange [] (Err (ErrSentinel IoEOF)), w') else (ex_reply 200 [x01], w')
  | FormBody _ None =>
      let w' := served (xs_parts w) in
      if decide (xs_now w < 20 * second) then (ex_reply 202 [x02], w') else (ex_reply 200 [x01], w')
  | RawBody _ => (ex_reply 200 [x03], served (xs_parts w))
  end.
Definition ex_wait (d : Z) (w : ex_server) : option error * ex_server :=
  (None, mkExServer (xs_now w + Z.max 0 d) (xs_parts w) (xs_count w)).
Definition ex_results (body : bytes) : option webUploadResult :=
  if decide (body = [x01]) then Some (mkUploadResult true "" "" "node" "" (1, 2, "") 0)
  else Some (mkUploadResult false "scanning" "scan_pending" "" "" (0, 0, "") 500).

Definition ex_up_client : Client ex_server :=
  mkClient "https://cloud.example/api" "key" "1.0" "en" false false (λ _, None) (ex_session_do (mkUploadSession 0 ""))
    ex_wait (λ _, None) (λ _, "") (λ _ _, Ok []) (λ _, Err (ErrText "json")) (λ _, None) (λ _ _ _, None) (λ _, None)
    (λ _, Err (ErrText "json")).
Definition ex_uploads : Uploads ex_server :=
  mkUploads ex_session_do xs_now (λ _, Some [x0a; x0b]) (λ _, Some (true, "csrf")) ex_results
    (λ _ _ _ _ _, Ok [x07]) (λ _ _, 0) 3 2.
Definition ex_content : bytes := [x01; x02; x03; x04; x05].
Definition ex_open (w : ex_server) : result error source := Ok (mkSource ex_content None).
Definition ex_fresh : ClientState ex_server := mkClientState None 0 (mkExServer 0 ∅ 0).

Lemma ex_keeps_parts : keeps_parts ex_up_client ex_uploads xs_parts.
Proof.
  split.
  - intros s fields data w. right. cbv zeta. cbn [ch_session_Do ex_uploads].
    unfold ex_session_do. cbn [form_request rq_Body]. by case_decide.
  - intros s fields data w. cbn [ch_session_Do ex_uploads].
    unfold ex_session_do. cbn [form_request rq_Body]. by case_decide.
  - intros s rq w H. simpl. unfold ex_session_do. destruct (rq_Body rq) as [b|f [d|]]; [done| |by case_decide].
    by destruct (H f d).
  - done.
Qed.

Lemma ex_request_time s rq w : xs_now (ex_session_do s rq w).2 = xs_now w + second.
Proof. unfold ex_session_do. destruct (rq_Body rq) as [b|f [d|]]; [done|case_decide..]; done. Qed.
Lemma ex_clock_ok : clock_ok ex_up_client ex_uploads.
Proof.
  split; try done.
  - intros s rq w. simpl. rewrite ex_request_time. unfold second. lia.
  - intros d w. by left.
  - intros d w. simpl. lia.
Qed.

#[local] Instance ex_plain_unicode : Unicode := { norm_NFC := id; cases_Lower := id; strings_ToLower := id }.

Lemma uploadChunked_reassembles_witness :
  ∃ chunkID w, holds ex_uploads xs_parts ex_content chunkID 3 w ∧
    concat (slice 2 ex_content <$> seqZ 0 3) = [x01; x02; x03; x04; x05].
Proof.
  destruct (uploadChunked ex_up_client ex_uploads 40 ex_open "/d" 5 {["source" := "a.bin"]} ex_fresh) as [[r st']|] eqn:Hrun;
    [|exfalso; revert Hrun; vm_compute; discriminate].
  assert (r = Ok (mkResponse true "" "" "" "" 200 [x07])) as ->.
  { assert (fst <$> uploadChunked ex_up_client ex_uploads 40 ex_open "/d" 5 {["source" := "a.bin"]} ex_fresh =
      Some (Ok (mkResponse true "" "" "" "" 200 [x07]))) as H by (vm_compute; reflexivity).
    rewrite Hrun in H. by injection H. }
  destruct (uploadChunked_reassembles ex_up_client ex_uploads xs_parts ex_keeps_parts ex_content ex_open
    (λ _, eq_refl) ltac:(vm_compute; discriminate) 40 "/d" {["source" := "a.bin"]} ex_fresh _ st' Hrun)
    as (s & chunkID & w0 & result & status & parts & Hh & -> & Hc & _).
  exists chunkID, w0. split; [exact Hh|exact Hc].
Defined.

Lemma ex_paced s fields : paced ex_up_client ex_uploads s fields second second.
Proof.
  intros w. unfold withUploadRetryStatus. change (chunkUploadRetries - 1)%nat with 2%nat. cbn [upload_retry].
  unfold postUploadForm. cbn [cl_url_error ex_up_client ch_session_Do ex_uploads form_request rq_Body ex_session_do].
  destruct (decide (xs_now w < 20 * second)); cbn [x_result x_events ex_reply fst snd];
    match goal with |- context [read_form_answer ?c ?h ?e ?r] =>
      let v := eval vm_compute in (read_form_answer c h e r) in change (read_form_answer c h e r) with v end; cbn iota beta.
  - match goal with |- context [upload_wait ?n ?e] =>
      let v := eval vm_compute in (upload_wait n e) in change (upload_wait n e) with v end. cbn iota beta.
    split; [cbn; lia|]. intros n d more n' Hf. unfold finalize_wait in Hf. cbn in Hf. injection Hf as <- <- <-. cbn. unfold second. lia.
  - split; [cbn; lia|done].
Qed.

Lemma finalizeChunkedUpload_returns_witness :
  ∃ r w, finalizeChunkedUpload ex_up_client ex_uploads (Z.to_nat (3 * hour)) (mkUploadSession 0 "csrf") "/d" "cli-0a" 3 5
    {["source" := "a.bin"]} (mkExServer 0 ∅ 0) = Some (r, w) ∧
    xs_now w ≤ scanPendingMaxWait + 2 * MaxScanBudgetDelay + 2 * second.
Proof.
  destruct (finalizeChunkedUpload_returns ex_up_client ex_uploads ex_clock_ok (Z.to_nat (3 * hour)) (mkUploadSession 0 "csrf")
    "/d" "cli-0a" 3 5 {["source" := "a.bin"]} (mkExServer 0 ∅ 0)) as (r & w & H & Ht).
  - rewrite Z2Nat.id; [reflexivity|discriminate].
  - exists r, w. split; [exact H|]. exact (Ht second second ltac:(discriminate) (ex_paced _ _)).
Defined.
