(* ===== verification/Fetch.v ===== *)
(** * Fetching a file

    [internal/mount/transfer/fetch.go]: a file of the account is downloaded to
    memory, its key unsealed, its signatures verified and its bytes decrypted.
    With the upload of [processUpload] and the client of [internal/api], in one
    request or in chunks, this closes the circle: what goes up comes down. *)
From S2P Require Import Prelude GoLib GoFmt Table ApiErrors Crypto Hybrid Sign FileCrypt Names CacheDB CacheStore CacheEvict.
From S2P Require Import FileTypes LocalFs PinStore TeePin VerifyDownload VfsNode VfsContent Writeback VfsTree Upload ApiClient ChunkedUpload.
Local Open Scope Z_scope.

Definition downloadAttempts : nat := 4.

Record Keys : Type := mkKeys {
  k_NameKey : option bytes; k_PrivateKey : option PrivateKeySet; k_SigningKey : option SigningPrivateKeySet }.

(** A fetcher: its client and keys, the JSON of the options and of the metadata,
    the answers verification asks the server for, and the text of a pin error. *)
Record Fetcher (W : Type) : Type := mkFetcher {
  ft_Client : Client W; ft_Keys : Keys;
  ft_json_map : gmap string string → option string;
  ft_json_meta : bytes → result error EncryptionMetadata;
  ft_answers : W → Answers;
  ft_PeerPinError : PeerPinReason → string → string }.
Arguments mkFetcher {W}.
Arguments ft_Client {W}.
Arguments ft_Keys {W}.
Arguments ft_json_map {W}.
Arguments ft_json_meta {W}.
Arguments ft_answers {W}.
Arguments ft_PeerPinError {W}.

(** [RequireEncryptedDownload] of [internal/e2ee/plaintext_guard.go]. *)
Definition RequireEncryptedDownload (dlResult : option DownloadResult) : result error unit :=
  match dlResult with
  | None => Err (ErrText "download_metadata_missing")
  | Some dl => ensure (d_E2EE dl = true) "plaintext_response"
  end.

Definition IsTeeAttestationUnavailable (e : verify_error) : bool :=
  match e with
  | PeerPinError _ _ => false
  | VerifyError e => isSome (errors_As (λ e, if decide (e = ErrTeeAttestationUnavailable) then Some tt else None) e)
  end.

Definition no_encryption_meta : EncryptionMetadata := mkEncryptionMetadata 0 [] 0 0 "" 0 "".

Section fetch.
Context `{U : Unicode, BL : Blake2b, A : AEAD, X : X25519, K : MLKEM, HK : Hkdf, SH : Sha256, SS : Sha256Sum,
  HM : Hmac, E : Ed25519, M : MLDSA, ET : ErrorText, FC : FileChunkSize} {W : Type}.
Variable f : Fetcher W.

Definition pin_error (e : verify_error) : error :=
  match e with PeerPinError reason peer => ErrText (ft_PeerPinError f reason peer) | VerifyError e => e end.

Definition ClassifyVerifyError (remotePath : string) (e : verify_error) : error :=
  let wrapped := ErrWrap ("verify " ^^ remotePath) (pin_error e) in
  if IsPeerPinFailure e || IsTeeAttestationUnavailable e then wrapped else Permanent wrapped.

Definition download_error (remotePath : string) (err : error) : error := ErrWrap ("download " ^^ remotePath) err.

(** The options of the request: the tokens of the path and of its ancestors. *)
Definition fetch_options (remotePath : string) : gmap string string :=
  AddPathTokenOptions (ft_json_map f) ∅ (default [] (k_NameKey (ft_Keys f))) (PathTokenPaths remotePath PathTokenSelfAndAncestors).

(** The attempts; [None] when all of them were rate limited. *)
Fixpoint fetch_attempts (attempts : nat) (remotePath : string) (w : W)
    : result error (option (bytes * DownloadResult)) * W :=
  match attempts with
  | O => (Ok None, w)
  | S attempts =>
      let '(r, w) := DownloadToMemory (ft_Client f) ("/" ^^ remotePath) (fetch_options remotePath) w in
      match r with
      | Ok got => (Ok (Some got), w)
      | Err err =>
          if IsRateLimited err then
            let hint := RetryAfterHint err in
            if RateLimitExceedsInlineWait hint then (Err (download_error remotePath err), w)
            else
              let attempt := Z.of_nat (downloadAttempts - S attempts) in
              let '(ended, w) := cl_after (ft_Client f) (RateLimitDelay attempt hint) w in
              match ended with Some e => (Err e, w) | None => fetch_attempts attempts remotePath w end
          else if errors_Is ErrInMemoryDownloadTooLarge err then (Err (Permanent (download_error remotePath err)), w)
          else (Err (download_error remotePath err), w)
      end
  end.

(** What is done with the bytes and the metadata of a download. *)
Definition open_download (remotePath : string) (encryptedData : bytes) (dlResult : DownloadResult) (a : Answers)
    (t : Trust) : result error bytes * Trust :=
  match RequireEncryptedDownload (Some dlResult) with
  | Err e => (Err (Permanent (download_error remotePath e)), t)
  | Ok _ =>
      if decide (d_SealedKey dlResult = "") then (Err (Permanent (download_error remotePath (ErrText "sealed key missing"))), t)
      else match base64_decode (d_SealedKey dlResult) with
      | None => (Err (ErrWrap "decode sealed key" (ErrText "illegal base64 data")), t)
      | Some sealedKeyBytes =>
          match UnsealDataKey sealedKeyBytes (k_PrivateKey (ft_Keys f)) with
          | Err e => (Err (Permanent (ErrWrap "unseal data key" e)), t)
          | Ok dataKey =>
              let encMeta :=
                if decide (d_EncryptionMeta dlResult = "") then Ok no_encryption_meta
                else match base64_decode (d_EncryptionMeta dlResult) with
                     | None => Err (ErrWrap "decode encryption meta" (ErrText "illegal base64 data"))
                     | Some metaBytes =>
                         match ft_json_meta f metaBytes with
                         | Err e => Err (ErrWrap "parse encryption meta" e)
                         | Ok m => Ok m
                         end
                     end in
              match encMeta with
              | Err e => (Err e, t)
              | Ok encMeta =>
                  let '(verified, t) := VerifyDownloadIntegrityWithSigningKey a (Ok encryptedData) (Some dlResult)
                                          (k_SigningKey (ft_Keys f)) t in
                  match verified with
                  | Err e => (Err (ClassifyVerifyError remotePath e), t)
                  | Ok _ =>
                      match DecryptBytes encryptedData dataKey encMeta with
                      | Err e => (Err (Permanent (ErrWrap ("decrypt " ^^ remotePath) e)), t)
                      | Ok plaintext => (Ok plaintext, t)
                      end
                  end
              end
          end
      end
  end.

Definition Fetch (remotePath : string) (w : W) (t : Trust) : result error (bytes * DownloadResult) * W * Trust :=
  let '(r, w) := fetch_attempts downloadAttempts remotePath w in
  match r with
  | Err e => (Err e, w, t)
  | Ok None => (Err (ErrText ("download " ^^ remotePath ^^ ": exhausted retries")), w, t)
  | Ok (Some (encryptedData, dlResult)) =>
      let '(plaintext, t) := open_download remotePath encryptedData dlResult (ft_answers f w) t in
      (plaintext ← plaintext; Ok (plaintext, dlResult), w, t)
  end.
End fetch.

(** ** Own files open *)

Section own.
Context `{U : Unicode, BL : Blake2b, A : AEAD, AL : !AEADLaws A, X : X25519, XL : !X25519Laws X, K : MLKEM, KL : !MLKEMLaws K,
  HK : Hkdf, HL : !HkdfLaws HK, SH : Sha256, SS : Sha256Sum, SSL : !Sha256SumLaws SH SS, HM : Hmac, HML : !HmacLaws HM,
  E : Ed25519, EL : !Ed25519Laws E, M : MLDSA, ML : !MLDSALaws M, ET : ErrorText, CS : CacheStore.ChunkSize, FC : FileChunkSize}.

(** What a server that kept the options of an upload says about the file. *)
Definition served_as (options : gmap string string) (dl : DownloadResult) : Prop :=
  d_E2EE dl = true ∧ d_SealedKey dl = opt "sealed_key" options ∧ d_EncryptionMeta dl = opt "encryption_meta" options ∧
  d_SignatureEd25519 dl = opt "signature_ed25519" options ∧ d_SignatureMldsa dl = opt "signature_mldsa" options ∧
  d_SigningPkEd25519 dl = opt "signing_pk_ed25519" options ∧ d_SigningPkMldsa dl = opt "signing_pk_mldsa" options.

Lemma base64_nonempty l : l ≠ [] → base64_encode l ≠ "".
Proof.
  intros Hl He. apply (f_equal base64_decode) in He. rewrite base64_decode_encode in He. by injection He.
Qed.

Lemma nonempty_length {B} (l : list B) n : length l = S n → l ≠ [].
Proof. by destruct l. Qed.

Lemma decodeB64Required_encode l label : l ≠ [] → decodeB64Required (base64_encode l) label = Ok l.
Proof.
  intros Hl. unfold decodeB64Required. rewrite decide_False by (by apply base64_nonempty). by rewrite base64_decode_encode.
Qed.

(** The own signature of a file verifies, whatever is pinned. *)
Lemma own_signature_verifies a options body dl pub priv t :
  generated_keys pub priv → signed_by pub options body → served_as options dl →
  ∃ t', VerifyDownloadIntegrityWithSigningKey a (Ok body) (Some dl) (Some priv) t = (Ok tt, t').
Proof using EL ML SSL.
  intros Hg (Hpe & Hpm & sigEd & sigMl & Hse & Hsm & Hv) (_ & _ & _ & Hde & Hdm & Hdpe & Hdpm).
  destruct (generated_sizes _ _ Hg) as ([Hlen _] & Hle & Hlm & Hpub).
  apply verifySignaturePair_Ok in Hv as Hsizes. destruct Hsizes as (Hls & Hlms & _).
  unfold opt in *. rewrite Hse in Hde. rewrite Hsm in Hdm. rewrite Hpe in Hdpe. rewrite Hpm in Hdpm.
  cbn [default from_option id] in *.
  unfold VerifyDownloadIntegrityWithSigningKey, deriveSigningPubs, deriveSigningEdPub.
  rewrite (decide_True (P := length (ssk_Ed25519 priv) = Ed25519SKSize)) by done. rewrite <- Hpub.
  unfold verifyDownloadIntegrity. rewrite Hde, Hdm.
  rewrite decide_True by (left; apply base64_nonempty; by eapply nonempty_length).
  unfold verifyOwnerSigsReader. rewrite Hde, Hdm, Hdpe, Hdpm. unfold decode_sigs.
  rewrite !decodeB64Required_encode by (eapply nonempty_length; eassumption).
  rewrite !bind_Ok, ensure_True by done. cbv beta. unfold check_signer. cbn [ds_pkEd ds_sigEd ds_sigMl ds_pkMl].
  rewrite decide_True by done. cbv zeta. rewrite decide_False by naive_solver.
  assert (copy_array Ed25519PKSize (spk_Ed25519 pub) = spk_Ed25519 pub) as -> by (by apply resize_all_alt).
  destruct pub as [pe pm]. cbn [spk_Ed25519 spk_Mldsa] in *. rewrite Hv. by eexists.
Qed.

(** A file uploaded by this account, with the options its upload carried, opens
    to its content. *)
Lemma own_file_opens {W} (f : Fetcher W) u remotePath a options body key data dl pub priv spub spriv t :
  k_PrivateKey (ft_Keys f) = Some priv → k_SigningKey (ft_Keys f) = Some spriv → generated_keys spub spriv → keys_ok pub priv →
  (∀ m json, up_meta_json u m = Ok json → json ≠ [] ∧ ft_json_meta f json = Ok m) →
  opens_for u priv key options body data → signed_by spub options body → served_as options dl →
  (open_download f remotePath body dl a t).1 = Ok data.
Proof using AL EL ML SSL XL KL HL HML.
  intros Hpriv Hspriv Hg Hkeys Hjson ((sealed & Hsk & Hun) & meta & json & Hj & Hm & Hdec) Hsigned Hserved.
  destruct (own_signature_verifies a options body dl spub spriv t Hg Hsigned Hserved) as [t' Hver].
  destruct Hserved as (He & Hds & Hdm & _). unfold opt in *. rewrite Hsk in Hds. rewrite Hm in Hdm.
  cbn [default from_option id] in *.
  assert (sealed ≠ []) as Hne.
  { intros ->. destruct (UnsealDataKey [] (Some priv)) eqn:Hu; [|done]. unfold UnsealDataKey, HybridUnseal in Hu.
    unfold ensure in Hu. by destruct (decide (length (sk_Kyber priv) = KyberSeedSize)). }
  destruct (Hjson _ _ Hj) as [Hjne Hback].
  unfold open_download, RequireEncryptedDownload, ensure. rewrite decide_True by done.
  rewrite Hds, decide_False by (by apply base64_nonempty). rewrite base64_decode_encode, Hpriv, Hun, Hdm.
  rewrite decide_False by (by apply base64_nonempty). rewrite base64_decode_encode, Hback, Hspriv, Hver.
  unfold DecryptBytes. by rewrite Hdec.
Qed.
End own.

(** ** What goes up comes down *)

(** [client.Upload] as the writeback processor calls it: the encrypted temporary
    file is named [base]; [session] is the upload session the client holds by
    then and the number of cookie jars it has made. *)
Definition client_upload `{Unicode} (c : Client World) (h : Uploads World) (session : World → option webUploadSession * nat)
    (fuel : nat) (base : string) (body : bytes) (dir : string) (options : gmap string string) (w : World)
    : result error (option Response) * World :=
  let st := mkClientState (session w).1 (session w).2 w in
  match ChunkedUpload.Upload c h fuel (λ _, Ok (mkSource body None)) (λ _, Ok (Z.of_nat (length body))) base dir options st with
  | Some (r, st) => (resp ← r; Ok (Some resp), cs_world st)
  | None => (Err out_of_fuel, w)
  end.

(** The options a chunked upload's closing form carries. *)
Definition options_from (fs : list (string * string)) (fields : gmap string string) : gmap string string :=
  list_to_map (omap (λ f, (f.1,.) <$> fields !! f.2) fs).
Definition form_options : gmap string string → gmap string string := options_from webUploadFields.

(** A server that keeps what it accepts.  [shelf] is what it holds: under the
    token of a path, a body and the options of its upload.  An accepted upload is
    put on the shelf under its token, in one request or, from the parts, by the
    closing form of a chunked one; downloads and waits leave the shelf alone.  A
    download names its file by the token its options give for its source; a file
    the server answers with, unless the answer breaks off, is the one on the shelf
    under that token, with the options of its upload. *)
Record honest_server (c : Client World) (h : Uploads World) (json_map : gmap string string → option string)
    (shelf : World → string → option (bytes * gmap string string)) (stored : World → gmap (string * string) bytes) : Prop := {
  hs_parts : keeps_parts c h stored;
  hs_upload w x w' resp raw api json body options :
    cl_json_CLIRequest c "ul" options = Ok json → cl_Do c (upload_request c json (mkSource body None)) w = (x, w') →
    x_result x = Ok resp → ReadAll_limit ResponseSizeLimit (h_Body resp) = Ok raw → cl_json_Response c raw = Ok api →
    Success api = true → shelf w' (opt "e2ee_path_token" options) = Some (body, options);
  hs_close s fields w x w' chunkID n part :
    ch_session_Do h s (form_request c h fields None) w = (x, w') → taken c h x = true →
    opt "finalize" fields = "1" → opt "chunkUploadId" fields = chunkID → opt "totalChunks" fields = fmt_d n →
    (∀ i, 0 ≤ i < n → stored w !! (chunkID, fmt_d i) = Some (part i)) →
    shelf w' (opt "e2ee_path_token" fields) = Some (concat (part <$> seqZ 0 n), form_options fields);
  hs_request jsonBody w token : shelf (cl_Do c (download_request c jsonBody) w).2 token = shelf w token;
  hs_after d w token : shelf (cl_after c d w).2 token = shelf w token;
  hs_download options json tokens path token body up w x w' resp data :
    cl_json_CLIRequest c "dl" options = Ok json → opt "source" options = "/" ^^ path →
    json_map tokens = Some (opt "path_tokens" options) → tokens !! path = Some token → shelf w token = Some (body, up) →
    cl_Do c (download_request c json) w = (x, w') → x_result x = Ok resp → file_answer resp →
    h_Body resp = mkSource data None → data = body ∧ served_as up (parseDownloadMetadata c (h_CliMetadata resp)) }.

(** A path as the tree has it: without a leading slash and without backslashes. *)
Definition tree_path (p : string) : Prop := trim_left slash (replace_all backslash slash p) = p ∧ p ≠ "".

Section options.
Context `{U : Unicode}.

(** *** The options of the request *)

Definition kept_options : list string := "e2ee_path_token" :: body_options.

(** The client adds what it needs and leaves the options of the body alone. *)
Lemma upload_options_ne base dir newKey options k : k ∈ kept_options →
  upload_options base dir newKey options !! k = options !! k.
Proof.
  intros Hk. assert (k ≠ "source" ∧ k ≠ "target" ∧ k ≠ "_original_name" ∧ k ≠ "upload_idempotency_key") as (?&?&?&?).
  { unfold kept_options, body_options in Hk. rewrite !elem_of_cons, elem_of_nil in Hk. naive_solver. }
  unfold upload_options. cbv zeta.
  set (o := match options !! "_original_name" with Some name => _ | None => _ end).
  assert (o !! k = None) as Ho.
  { subst o. destruct (options !! "_original_name"); rewrite ?lookup_insert_ne by congruence;
      by rewrite lookup_singleton_ne by congruence. }
  assert ((delete "_original_name" options ∪ o) !! k = options !! k) as Hu.
  { rewrite lookup_union, lookup_delete_ne, Ho by congruence. by destruct (options !! k). }
  case_decide; [by rewrite lookup_insert_ne by congruence|done].
Qed.
Lemma wire_options_ne options k : k ∈ kept_options → wire_options options !! k = options !! k.
Proof.
  intros Hk. unfold wire_options. case_decide; [|done]. apply lookup_insert_ne.
  intros <-. unfold kept_options, body_options in Hk. set_solver.
Qed.

(** The closing form says what the options say. *)
Lemma put_fields_opt options fs : NoDup fs.*2 → ∀ fields k fld, (k, fld) ∈ fs → fields !! fld = None →
  opt fld (foldl (put_field options) fields fs) = opt k options ∧
  (opt k options = "" → foldl (put_field options) fields fs !! fld = None).
Proof.
  assert (∀ fs fields fld, fld ∉ fs.*2 → foldl (put_field options) fields fs !! fld = fields !! fld) as Hout.
  { clear fs. induction fs as [|[k' fld'] fs IH]; intros fields fld Hn; [done|]. cbn [foldl].
    rewrite fmap_cons in Hn. apply not_elem_of_cons in Hn as [Hne Hn]. rewrite IH by done. unfold put_field. cbn [fst snd] in *.
    case_decide; [by rewrite lookup_insert_ne by congruence|done]. }
  induction fs as [|[k' fld'] fs IH]; intros Hnd fields k fld Hin Hf; [by apply elem_of_nil in Hin|].
  rewrite fmap_cons in Hnd. apply NoDup_cons in Hnd as [Hn Hnd]. cbn [foldl].
  apply elem_of_cons in Hin as [[= -> ->]|Hin].
  - cbn [snd] in Hn. unfold opt at 1 3. rewrite !Hout by done. unfold put_field. cbn [fst snd]. case_decide as Hd.
    + rewrite lookup_insert_eq. by split.
    + rewrite Hf. by split.
  - apply IH; [done|done|]. unfold put_field. cbn [fst snd]. case_decide; [|done]. rewrite lookup_insert_ne; [done|].
    intros ->. apply Hn. apply list_elem_of_fmap. by exists (k, fld).
Qed.

Lemma options_from_ne fs fields k : k ∉ fs.*1 → options_from fs fields !! k = None.
Proof.
  induction fs as [|[k' fld'] fs IH]; intros Hn; [done|]. rewrite fmap_cons in Hn. apply not_elem_of_cons in Hn as [Hne Hn].
  unfold options_from. simpl. destruct (fields !! fld'); simpl; [rewrite lookup_insert_ne by done|]; by apply IH.
Qed.
Lemma options_from_eq fs fields k fld : NoDup fs.*1 → (k, fld) ∈ fs → options_from fs fields !! k = fields !! fld.
Proof.
  induction fs as [|[k' fld'] fs IH]; intros Hnd Hin; [by apply elem_of_nil in Hin|].
  rewrite fmap_cons in Hnd. apply NoDup_cons in Hnd as [Hn Hnd]. cbn [fst] in Hn. apply elem_of_cons in Hin as [[= -> ->]|Hin].
  - unfold options_from. simpl. destruct (fields !! fld') eqn:Hf; simpl; [by rewrite lookup_insert_eq|].
    by apply (options_from_ne fs fields).
  - assert (k ≠ k') as Hne by (intros ->; apply Hn, list_elem_of_fmap; by exists (k', fld)).
    unfold options_from. simpl. destruct (fields !! fld'); simpl; [rewrite lookup_insert_ne by done|]; by apply IH.
Qed.

(** The other fields of the closing form are its own. *)
Lemma final_other options fields fld : fld ∉ webUploadFields.*2 →
  foldl (put_field options) fields webUploadFields !! fld = fields !! fld.
Proof.
  generalize webUploadFields. intros fs. revert fields.
  induction fs as [|[k' fld'] fs IH]; intros fields Hn; [done|]. cbn [foldl].
  rewrite fmap_cons in Hn. apply not_elem_of_cons in Hn as [Hne Hn]. rewrite IH by done. unfold put_field. cbn [fst snd] in *.
  case_decide; [by rewrite lookup_insert_ne by congruence|done].
Qed.

(** What the server makes of the closing form is what the upload's options say. *)
Lemma form_options_final s dir id n size options k fld : (k, fld) ∈ webUploadFields →
  opt k (form_options (final_fields s dir id n size options)) = opt k options.
Proof.
  intros Hin. unfold opt at 1, form_options. rewrite (options_from_eq _ _ k fld); [|by apply (bool_decide_unpack _); vm_compute|done].
  assert (NoDup webUploadFields.*2) as Hnd by (by apply (bool_decide_unpack _); vm_compute).
  unfold final_fields. cbv zeta. apply (put_fields_opt options webUploadFields Hnd _ k fld Hin).
  revert Hin. unfold webUploadFields. rewrite !elem_of_cons, elem_of_nil.
  intros Hin. repeat (destruct Hin as [[= -> ->]|Hin]; [reflexivity|]). done.
Qed.

Lemma served_as_same held options dl : (∀ k, k ∈ kept_options → opt k held = opt k options) →
  served_as held dl → served_as options dl.
Proof.
  intros Hk (He & H1 & H2 & H3 & H4 & H5 & H6).
  split; [done|]. rewrite H1, H2, H3, H4, H5, H6.
  split_and!; apply Hk; unfold kept_options, body_options; rewrite !elem_of_cons; tauto.
Qed.
End options.

Section kept_keys.
Context `{A : AEAD, X : X25519, K : MLKEM, HK : Hkdf}.
(** An option that says the same seals the same key. *)
Lemma seals_key_kept options held name priv key : opt name held = opt name options →
  seals_key options name priv key → seals_key held name priv key.
Proof.
  intros Hsame (sealed & Hl & Hu). exists sealed. split; [|done]. unfold opt in Hsame. rewrite Hl in Hsame.
  cbn [default from_option id] in Hsame. destruct (held !! name) as [v|]; cbn [default from_option id] in Hsame; [by subst|].
  exfalso. symmetry in Hsame. revert Hsame. apply base64_nonempty. intros ->.
  unfold UnsealDataKey, HybridUnseal in Hu. unfold ensure in Hu. by destruct (decide (length (sk_Kyber priv) = KyberSeedSize)).
Qed.
End kept_keys.

Section roundtrip.
Context `{U : Unicode, BL : Blake2b, A : AEAD, AL : !AEADLaws A, X : X25519, XL : !X25519Laws X, K : MLKEM, KL : !MLKEMLaws K,
  HK : Hkdf, HL : !HkdfLaws HK, SH : Sha256, SS : Sha256Sum, SSL : !Sha256SumLaws SH SS, HM : Hmac, HML : !HmacLaws HM,
  E : Ed25519, EL : !Ed25519Laws E, M : MLDSA, ML : !MLDSALaws M, ET : ErrorText, CS : CacheStore.ChunkSize, FC : FileChunkSize}.
Variables (u : Uploader) (f : Fetcher World) (h : Uploads World) (session : World → option webUploadSession * nat)
  (fuel : nat) (base : string).
Abbreviation c := (ft_Client f).

(** *** What the server holds after an upload *)

Context (shelf : World → string → option (bytes * gmap string string)) (stored : World → gmap (string * string) bytes).
Hypothesis Hs : honest_server c h (ft_json_map f) shelf stored.

(** A form that is accepted was taken. *)
Lemma post_taken s fields w result status w' :
  postUploadForm c h s fields None w = ((Ok result, status), w') →
  ∃ x, ch_session_Do h s (form_request c h fields None) w = (x, w') ∧ taken c h x = true.
Proof using Type.
  unfold postUploadForm. destruct (cl_url_error c _); [done|]. destruct (ch_session_Do h s _ w) as [x w1].
  destruct (x_result x) as [resp|e] eqn:Hx; [|done]. intros [= Hr <-]. exists x. split; [done|].
  unfold taken. by rewrite Hx, Hr.
Qed.

(** The shelf has the upload under its token, with options that say the same. *)
Definition shelved (body : bytes) (options : gmap string string) (w : World) : Prop :=
  ∃ held, shelf w (opt "e2ee_path_token" options) = Some (body, held) ∧
    ∀ k, k ∈ kept_options → opt k held = opt k options.

Lemma shelved_chunked body dir options st resp st' :
  Z.of_nat (length body) + Z.max (ch_chunkSize h) 1 ≤ 2 ^ 63 →
  uploadChunked c h fuel (λ _, Ok (mkSource body None)) dir (Z.of_nat (length body)) options st = Some (Ok resp, st') →
  shelved body options (cs_world st').
Proof using Hs.
  intros Hsize Hrun.
  destruct (uploadChunked_holds c h stored (hs_parts _ _ _ _ _ Hs) body _ (λ _, eq_refl) Hsize fuel dir options st resp st' Hrun)
    as (s & id & w0 & result & status & parts & Hh & -> & Hcat & _ & Hpost & _).
  apply post_taken in Hpost as (x & Hx & Htk). set (n := total_chunks h (Z.of_nat (length body))) in *.
  set (fields := final_fields s dir id n (Z.of_nat (length body)) options) in *.
  assert (∀ k fld, (k, fld) ∈ webUploadFields → opt k (form_options fields) = opt k options) as Hk
    by (intros k fld; apply form_options_final).
  assert (opt "e2ee_path_token" fields = opt "e2ee_path_token" options) as Htok.
  { rewrite <- (Hk _ "e2ee_path_token") by (by apply (bool_decide_unpack _); vm_compute). unfold opt, form_options.
    by rewrite (options_from_eq _ _ _ "e2ee_path_token") by (by apply (bool_decide_unpack _); vm_compute). }
  exists (form_options fields). split.
  - rewrite <- Htok, <- Hcat. eapply (hs_close _ _ _ _ _ Hs); [exact Hx|exact Htk| | | |exact Hh].
    all: unfold opt, fields, final_fields; cbv zeta; rewrite final_other by (by apply (bool_decide_unpack _); vm_compute);
      reflexivity.
  - intros k Hin. assert (Forall (λ k, k ∈ webUploadFields.*1) kept_options) as Hall
      by (by apply (bool_decide_unpack _); vm_compute).
    rewrite Forall_forall in Hall. apply Hall, list_elem_of_fmap in Hin as ([k' fld] & -> & Hf). by apply (Hk k' fld).
Qed.

Lemma client_upload_shelved dir options body w resp w1 :
  Z.of_nat (length body) + Z.max (ch_chunkSize h) 1 ≤ 2 ^ 63 →
  client_upload c h session fuel base body dir options w = (Ok (Some resp), w1) → Success resp = true →
  shelved body options w1.
Proof using Hs.
  intros Hsize. unfold client_upload. destruct (ChunkedUpload.Upload _ _ _ _ _ _ _ _ _) as [[r st']|] eqn:Hrun; [|done].
  destruct r as [resp0|]; [|done]. simpl. intros [= -> <-] Hok. unfold ChunkedUpload.Upload in Hrun. cbv zeta in Hrun.
  set (opts := upload_options base dir _ options) in Hrun.
  assert (∀ k, k ∈ kept_options → opt k opts = opt k options) as Ho
    by (intros k Hk; unfold opt, opts; by rewrite upload_options_ne).
  assert (∀ w, shelved body opts w → shelved body options w) as Hmove.
  { intros v (held & Hh & Hk). exists held. rewrite <- Ho by (by left). split; [done|]. intros k Hin. by rewrite Hk, Ho. }
  destruct (UploadIsChunked _ _); [by eapply Hmove, shelved_chunked|].
  destruct (uploadWholeBody _ _ _ _) as [r w2] eqn:Hr. destruct r as [resp1|e].
  - injection Hrun as -> <-. apply (uploadWholeBody_rule c (λ _, True)) in Hr; [|done..].
    destruct Hr as (json & w0 & file & x & hr & raw & api & Hj & _ & [= <-] & Hx & Hres & Hraw & Hapi & ->).
    apply Hmove. exists (wire_options opts). assert (∀ k, k ∈ kept_options → opt k (wire_options opts) = opt k opts) as Hw
      by (intros k Hk; unfold opt; by rewrite wire_options_ne).
    split; [|exact Hw]. rewrite <- (Hw "e2ee_path_token") by (by left). cbn [cs_world].
    eapply (hs_upload _ _ _ _ _ Hs); [exact Hj|exact Hx|exact Hres|exact Hraw|exact Hapi|].
    revert Hok. unfold rename_receipt. case_decide; [|done]. by destruct (cl_json_rename _ _ _ _).
  - destruct (bodyTooLarge e); [|done]. by eapply Hmove, shelved_chunked.
Qed.

(** *** What a download of the path brings *)

(** The options of the request give the token of the path. *)
Lemma fetch_options_token remotePath nk token :
  k_NameKey (ft_Keys f) = Some nk → nk ≠ [] → tree_path remotePath → ComputePathToken nk remotePath = Ok token →
  opt "path_tokens" (fetch_options f remotePath) ≠ "" →
  ∃ tokens, ft_json_map f tokens = Some (opt "path_tokens" (fetch_options f remotePath)) ∧
    tokens !! remotePath = Some (hex_encode token).
Proof using Type.
  intros Hnk Hne [Hshape Hp] Htok. unfold fetch_options. rewrite Hnk. cbn [default from_option id].
  unfold AddPathTokenOptions, PathTokenOptionJSON. unfold PathTokenPaths. rewrite Hshape, (decide_False (P := remotePath = "")) by done.
  set (paths := remotePath :: _). rewrite decide_False.
  2: { intros [H|H]; [by destruct nk|done]. }
  pose proof (token_maps_lookup nk remotePath token paths ∅ ∅ Hp Htok (or_introl (list_elem_of_here _ _))) as Hl.
  destruct (token_maps nk paths ∅ ∅) as [canonical legacy]. cbn [fst] in Hl. cbv zeta.
  assert (∀ o : gmap string string, opt "path_tokens" (if decide (marshalHexTokenMap (ft_json_map f) legacy ≠ "")
    then <["path_tokens_legacy" := marshalHexTokenMap (ft_json_map f) legacy]> o else o) = opt "path_tokens" o) as ->.
  { intros o. unfold opt. case_decide; [by rewrite lookup_insert_ne|done]. }
  case_decide as Hj; [|done]. unfold opt. rewrite lookup_insert_eq. cbn [default from_option id]. intros _.
  exists canonical. split; [|done]. unfold marshalHexTokenMap in *. destruct (decide (canonical = ∅)); [done|].
  by destruct (ft_json_map f canonical).
Qed.

Lemma fetch_options_only remotePath k : k ≠ "path_tokens" → k ≠ "path_tokens_legacy" →
  fetch_options f remotePath !! k = None.
Proof using Type.
  intros H1 H2. unfold fetch_options, AddPathTokenOptions. destruct (PathTokenOptionJSON _ _ _) as [a b].
  do 2 case_decide; by rewrite ?lookup_insert_ne by congruence.
Qed.

(** The attempts end with the file on the shelf, or without one. *)
Lemma fetch_attempts_held body held n remotePath nk token : ∀ w r w',
  k_NameKey (ft_Keys f) = Some nk → nk ≠ [] → tree_path remotePath → ComputePathToken nk remotePath = Ok token →
  opt "path_tokens" (fetch_options f remotePath) ≠ "" →
  shelf w (hex_encode token) = Some (body, held) → fetch_attempts f n remotePath w = (r, w') →
  match r with Ok (Some (data, dl)) => data = body ∧ served_as held dl | _ => True end.
Proof using Hs.
  induction n as [|n IH]; intros w r w' Hnk Hne Hp Htok Hopt Hw; cbn [fetch_attempts]; [by intros [= <- <-]|].
  destruct (DownloadToMemory _ _ _ _) as [r1 w1] eqn:Hd.
  apply (DownloadToMemory_rule c (λ v, shelf v (hex_encode token) = Some (body, held))) in Hd;
    [|intros jb v; by rewrite (hs_request _ _ _ _ _ Hs)|intros d v; by rewrite (hs_after _ _ _ _ _ Hs)|done].
  destruct r1 as [[data dl]|e].
  - intros [= <- <-]. destruct Hd as (jb & w0 & resp & x & Hjb & Hw0 & Hx & Hr & Hfile & Hb & ->).
    destruct (fetch_options_token remotePath nk token Hnk Hne Hp Htok Hopt) as (tokens & Hjm & Hl).
    unfold downloadRequestBody in Hjb. destruct (cl_json_CLIRequest _ _ _) as [json|] eqn:Hj; [|done]. injection Hjb as <-.
    eapply (hs_download _ _ _ _ _ Hs); [exact Hj| | |exact Hl|exact Hw0|exact Hx|exact Hr|exact Hfile|exact Hb].
    + unfold opt. rewrite lookup_union_r; [done|]. apply fetch_options_only; done.
    + rewrite Hjm. unfold opt. by rewrite lookup_union_l by done.
  - rename Hd into Hw1.
    destruct (IsRateLimited e); [|by destruct (errors_Is _ _); intros [= <- <-]]. cbv zeta.
    destruct (RateLimitExceedsInlineWait _); [by intros [= <- <-]|].
    match goal with |- context [cl_after c ?d w1] => pose proof (hs_after _ _ _ _ _ Hs d w1 (hex_encode token)) as Hw2;
      destruct (cl_after c d w1) as [[e2|] w2] end; [by intros [= <- <-]|].
    apply IH; try done. cbn [snd] in Hw2. by rewrite Hw2.
Qed.

(** C1: What goes up comes down.  Take an account with its keys, a mount that
    uploads through the client (in one request, or in chunks when the file is
    large or the request is refused as too large), and a server that keeps what it
    accepts under the token it came with and answers a download with the file whose
    token the request gives.  When [processUpload] of an entry succeeds, the server
    holds a body and options under the token of the file's path from which, at any
    later time at which it still does and whatever is pinned by then, a [Fetch] of
    that path with the account's keys gets back the content the entry stood for
    (the buffer of the edited file, the blob, or the file of the sync folder): a
    [Fetch] whose download arrives returns exactly that content, and one whose
    download does not arrive fails and says so.  The upload also sealed the key for
    the scanner, and the digest recorded as confirmed is that of the content. *)
Theorem upload_then_fetch entry file nk token w content w1 pub priv spub :
  keyed_for u pub priv spub → k_PrivateKey (ft_Keys f) = Some priv → k_SigningKey (ft_Keys f) = up_SigningPrivateKey u →
  up_NameKey u = Some nk → nk ≠ [] → k_NameKey (ft_Keys f) = Some nk →
  (∀ m json, up_meta_json u m = Ok json → json ≠ [] ∧ ft_json_meta f json = Ok m) →
  up_Upload u = client_upload c h session fuel base →
  (∀ w, Z.of_nat (up_encRoom u w) + Z.max (ch_chunkSize h) 1 ≤ 2 ^ 63) →
  file_to_upload u w (w_InodeID entry) = Ok file → tree_path (uf_remotePath file) →
  ComputePathToken nk (uf_remotePath file) = Ok token → opt "path_tokens" (fetch_options f (uf_remotePath file)) ≠ "" →
  processUpload u entry w = (Ok content, w1) →
  ∃ data body held key resp, uploads u w (w_InodeID entry) data ∧ shelf w1 (hex_encode token) = Some (body, held) ∧
    content = confirmedUploadContent (up_payload_etag u) (Some resp) (sha256_hex data) ∧
    (∀ tpub tpriv, (up_FetchTeeEnclaveKeySet u (up_meanwhile u w)).1 = Some tpub → keys_ok tpub tpriv →
       seals_key held "tee_sealed_key" tpriv key ∧ seals_key held "sealed_key" priv key) ∧
    ∀ w2 t, shelf w2 (hex_encode token) = Some (body, held) →
      match fetch_attempts f downloadAttempts (uf_remotePath file) w2 with
      | (Ok (Some _), w3) => ∃ dl t', Fetch f (uf_remotePath file) w2 t = (Ok (data, dl), w3, t')
      | (_, w3) => ∃ e, Fetch f (uf_remotePath file) w2 t = (Err e, w3, t)
      end.
Proof using AL EL ML SSL XL KL HL HML Hs.
  intros Hk Hpriv Hspriv Hnk Hne Hfnk Hjson Hup Hroom Hfile Hpath Htok Hopt Hrun.
  destruct (processUpload_delivers u entry w content w1 pub priv spub Hk Hrun)
    as (data & key & body & dir & options & w2 & resp & Hu & Hcall & Hok & Hopens & Hsigned & Htee & -> & Hfits & Hopt_tok).
  rewrite Hup in Hcall. destruct Hk as (_ & _ & Hkeys & _ & spriv & Hsp & Hg). rewrite Hsp in Hspriv.
  apply client_upload_shelved in Hcall as (held & Hshelf & Hsame); [|specialize (Hroom (up_meanwhile u w)); lia|done].
  unfold opt in Hshelf. rewrite (Hopt_tok file nk token Hfile Hnk Htok) in Hshelf. cbn [default from_option id] in Hshelf.
  exists data, body, held, key, resp. split; [done|]. split; [done|]. split; [done|]. split.
  { intros tpub tpriv Ht Hko.
    split; [eapply (seals_key_kept options); [|exact (Htee tpub tpriv Ht Hko)]|eapply (seals_key_kept options); [|exact (proj1 Hopens)]];
      apply Hsame; unfold kept_options, body_options; rewrite !elem_of_cons; tauto. }
  intros v t Hv. unfold Fetch. destruct (fetch_attempts f _ _ v) as [r w3] eqn:Hf.
  apply (fetch_attempts_held body held _ _ nk token) in Hf; [|done..].
  destruct r as [[[enc dl]|]|e]; [|by eexists..]. destruct Hf as [-> Hserved].
  pose proof (own_file_opens f u (uf_remotePath file) (ft_answers f w3) options body key data dl pub priv spub spriv t
    Hpriv Hspriv Hg Hkeys Hjson Hopens Hsigned (served_as_same held options dl Hsame Hserved)) as Ho.
  destruct (open_download f _ body dl _ t) as [r t']. cbn [fst] in Ho. rewrite Ho. by exists dl, t'.
Qed.
End roundtrip.

(** ** An example: a server with a shelf of files

    It writes what it accepts to its disk, under the token of the upload, and
    answers a download with the file whose token the request names; it takes no
    uploads in chunks. *)

#[local] Existing Instance ex_chunk_size | 0.
#[local] Existing Instance ex_unicode.
#[local] Existing Instance ex_file_chunk | 0.
#[local] Instance EncryptionMetadata_eq_dec : EqDecision EncryptionMetadata.
Proof. solve_decision. Defined.

(** A map as text: a line for its heading, for each key and for each value. *)
Definition newline : ascii := "010"%char.
Definition tab : ascii := "009"%char.
Definition ex_join (sep : ascii) (l : list string) : string := foldr (λ s t, s ^^ String.String sep t) "" l.
Definition ex_flat (m : gmap string string) : list string := map_to_list m ≫= λ x, [x.1; x.2].
Fixpoint ex_pairs (l : list string) : list (string * string) :=
  match l with k :: v :: l => (k, v) :: ex_pairs l | _ => [] end.
Definition ex_write (sep : ascii) (heading : string) (m : gmap string string) : option string :=
  if existsb (contains_char sep) (heading :: ex_flat m) then None else Some (ex_join sep (heading :: ex_flat m)).
Definition ex_read (sep : ascii) (s : string) : gmap string string := list_to_map (ex_pairs (tail (split_on sep s))).

Lemma ex_split_join sep l : existsb (contains_char sep) l = false → split_on sep (ex_join sep l) = l ++ [""].
Proof.
  induction l as [|x l IH]; [done|]. cbn [existsb]. rewrite orb_false_iff. intros [Hx Hl].
  change (ex_join sep (x :: l)) with (x ^^ String.String sep (ex_join sep l)). by rewrite split_on_app, IH.
Qed.
Lemma ex_pairs_flat l : ex_pairs ((l ≫= λ x, [x.1; x.2]) ++ [""]) = l.
Proof. induction l as [|[k v] l IH]; [done|]. simpl. by f_equal. Qed.
Lemma ex_read_write sep heading m s : ex_write sep heading m = Some s → ex_read sep s = m.
Proof.
  unfold ex_write, ex_read. remember (heading :: ex_flat m) as l eqn:El.
  destruct (existsb _ _) eqn:He; [done|]. intros [= <-]. rewrite ex_split_join by done.
  subst l. cbn [app tail]. unfold ex_flat. rewrite ex_pairs_flat. apply list_to_map_to_list.
Qed.

Definition ex_marshal (command : string) (options : gmap string string) : result error bytes :=
  match ex_write newline command options with
  | Some s => Ok (String.list_byte_of_string s)
  | None => Err (ErrText "line break")
  end.
Definition ex_options (json : bytes) : gmap string string := ex_read newline (String.string_of_list_byte json).
Definition ex_json_map (m : gmap string string) : option string := ex_write tab "map" m.
Definition ex_unmarshal (json : bytes) : option DownloadResult :=
  let o k := opt k (ex_options json) in
  Some (mkDownloadResult true (o "sealed_key") (o "encryption_meta") (o "signature_ed25519") (o "signature_mldsa")
          (o "signing_pk_ed25519") (o "signing_pk_mldsa") "" "" "" "" "").

Lemma ex_options_marshal command options json : ex_marshal command options = Ok json → ex_options json = options.
Proof.
  unfold ex_marshal, ex_options. destruct (ex_write _ _ _) as [s|] eqn:Hw; [|done]. intros [= <-].
  rewrite String.string_of_list_byte_of_string. by eapply ex_read_write.
Qed.

Lemma ex_marshal_nonempty command options json : ex_marshal command options = Ok json → json ≠ [].
Proof.
  unfold ex_marshal, ex_write. destruct (existsb _ _); [done|]. intros [= <-]. by destruct command.
Qed.

(** The disk, and what is on the shelf. *)
Definition ex_shelf (w : World) (token : string) : option (bytes * gmap string string) :=
  match wd_fs w !! ("/srv/body/" ^^ token), wd_fs w !! ("/srv/meta/" ^^ token) with
  | Some (FsFile body _), Some (FsFile meta _) => if decide (meta = []) then None else Some (body, ex_options meta)
  | _, _ => None
  end.
Definition ex_ok (meta body : bytes) : exchange :=
  mkExchange [] (Ok (mkHttpResponse 200 None "application/octet-stream" (base64_encode meta) 1 (mkSource body None))).
Definition ex_keep_do (rq : request) (w : World) : exchange * World :=
  match rq_Body rq, rq_Header rq !! "X-CLI-Metadata" with
  | RawBody file, Some header =>
      let meta := default [] (base64_decode header) in
      let token := opt "e2ee_path_token" (ex_options meta) in
      (ex_ok [] [x01],
       tick (w <| wd_fs := <["/srv/body/" ^^ token := FsFile (remaining file) 0]>
                           (<["/srv/meta/" ^^ token := FsFile meta 0]> (wd_fs w)) |>))
  | RawBody body, None =>
      let options := ex_options (remaining body) in
      let path := match opt "source" options with String.String _ p => p | p => p end in
      let token := default "" (ex_read tab (opt "path_tokens" options) !! path) in
      match wd_fs w !! ("/srv/body/" ^^ token), wd_fs w !! ("/srv/meta/" ^^ token) with
      | Some (FsFile file _), Some (FsFile meta _) => (ex_ok meta file, tick w)
      | _, _ => (mkExchange [] (Ok (mkHttpResponse 404 None "text/html" "" 0 (mkSource [] None))), tick w)
      end
  | _, _ => (mkExchange [] (Err (ErrSentinel IoEOF)), tick w)
  end.
Definition ex_keep_client : Client World :=
  mkClient "https://cloud.example/api" "key" "1.0" "en" false false (λ _, None) ex_keep_do (λ _ w, (None, w)) (λ _, None)
    (λ _, "") ex_marshal (λ _, Ok ex_ok_response) ex_unmarshal (λ _ _ _, None) (λ _, None) (λ _, Err (ErrText "json")).
Definition ex_no_chunks : Uploads World :=
  mkUploads (λ _ _ w, (mkExchange [] (Err (ErrSentinel IoEOF)), w)) wd_now (λ _, Some (replicate 16 x0a)) (λ _, None)
    (λ _, None) (λ _ _ _ _ _, Err (ErrText "json")) (λ _ _, 0) uploadSingleBodyMaxBytes uploadChunkSize.

Lemma ex_honest : honest_server ex_keep_client ex_no_chunks ex_json_map ex_shelf (λ _, ∅).
Proof.
  assert (∀ jb, rq_Header (download_request ex_keep_client jb) !! "X-CLI-Metadata" = None) as Hno by done.
  split.
  - split; [by left|done|done|done].
  - intros w x w' resp raw api json body options Hj Hdo _ _ _ _.
    change (cl_Do ex_keep_client) with ex_keep_do in Hdo. unfold ex_keep_do in Hdo. cbn [rq_Header upload_request rq_Body] in Hdo.
    rewrite lookup_insert_eq, base64_decode_encode in Hdo. cbn [default from_option id] in Hdo.
    rewrite (ex_options_marshal _ _ _ Hj) in Hdo. injection Hdo as _ <-. unfold ex_shelf.
    set (token := opt "e2ee_path_token" options).
    change (wd_fs (tick _)) with (<["/srv/body/" ^^ token := FsFile body 0]>
        (<["/srv/meta/" ^^ token := FsFile json 0]> (wd_fs w))).
    rewrite lookup_insert_eq, lookup_insert_ne, lookup_insert_eq by done.
    rewrite decide_False by (by eapply ex_marshal_nonempty). by rewrite (ex_options_marshal _ _ _ Hj).
  - intros s fields w x w' id n part [= <- <-] Ht. discriminate Ht.
  - intros jb w token. change (cl_Do ex_keep_client) with ex_keep_do. unfold ex_keep_do. rewrite Hno.
    cbn [rq_Body download_request]. cbv zeta. by repeat case_match.
  - done.
  - intros options json tokens path token body up w x w' resp data Hj Hsrc Hmap Hl Hw Hdo Hr Hfile Hbody.
    change (cl_Do ex_keep_client) with ex_keep_do in Hdo. unfold ex_keep_do in Hdo. rewrite Hno in Hdo.
    cbn [rq_Body download_request remaining] in Hdo. rewrite (ex_options_marshal _ _ _ Hj), Hsrc in Hdo.
    rewrite (ex_read_write _ _ _ _ Hmap) in Hdo. cbv zeta in Hdo.
    change (match "/" ^^ path with "" => "" | String.String _ q => q end) with path in Hdo.
    rewrite Hl in Hdo. cbn [default from_option id] in Hdo. unfold ex_shelf in Hw.
    destruct (wd_fs w !! ("/srv/body/" ^^ token)) as [[file t1| | |]|]; try discriminate Hw.
    destruct (wd_fs w !! ("/srv/meta/" ^^ token)) as [[meta t2| | |]|]; try discriminate Hw.
    destruct (decide (meta = [])) as [|Hne]; [discriminate Hw|].
    injection Hw as <- <-. injection Hdo as <- <-. cbn [x_result ex_ok] in Hr. injection Hr as <-.
    cbn [h_Body h_CliMetadata] in *. injection Hbody as <-. split; [done|].
    unfold parseDownloadMetadata. rewrite decide_False by (by apply base64_nonempty). by rewrite base64_decode_encode.
Qed.

(** The metadata of the example's file, the only ones its JSON is for. *)
Definition ex_rt_meta : EncryptionMetadata :=
  match (EncryptFile (Ok (mkSource [x41; x42; x43] None)) None 1000 ex_dkey ex_fnonce).1 with
  | Ok m => WireJSON m | Err _ => no_encryption_meta end.
Definition ex_rt_json (m : EncryptionMetadata) : result error bytes :=
  if decide (m = ex_rt_meta) then Ok [x01] else Err (ErrText "json").
Definition ex_name_key : bytes := replicate 32 x0d.
Definition ex_no_session (w : World) : option webUploadSession * nat := (None, O).
Definition ex_rt_uploader : Uploader :=
  mkUploader (Some ex_pub) (Some ex_name_key) (Some ex_up_signer.1) (Some ex_up_signer.2) ""
    (λ _, ex_dkey) (λ _, ex_fnonce) (λ n _, (ex_eph, [byte_of_Z (Z.of_nat n)], ex_nonce))
    (λ _, mkTempFaults None 1000 None) (λ _, None) (λ _, 1000%nat) tick
    (λ w, (Some ex_pub, w)) (λ _, false) (λ _, None) (λ _ _ w, (false, None, w))
    ex_rt_json ex_json_map ex_un (λ _, None) (client_upload ex_keep_client ex_no_chunks ex_no_session 10 "body").
Definition ex_fetcher : Fetcher World :=
  mkFetcher ex_keep_client (mkKeys (Some ex_name_key) (Some ex_priv) (Some ex_up_signer.2)) ex_json_map
    (λ _, Ok ex_rt_meta) (λ _, ex_answers) (λ _ _, "peer").

(** Another file is already there. *)
Definition ex_other_options : gmap string string := {["e2ee_path_token" := "aa"]}.
Definition ex_shelved_world : World :=
  ex_world <| wd_fs := <["/srv/body/aa" := FsFile [x05] 0]>
    (<["/srv/meta/aa" := FsFile (default [] (match ex_marshal "ul" ex_other_options with Ok j => Some j | Err _ => None end)) 0]>
       (wd_fs ex_world)) |>.
Definition ex_after_upload : World := (processUpload ex_rt_uploader ex_entry ex_shelved_world).2.

Lemma ex_rt_keyed : keyed_for ex_rt_uploader ex_pub ex_priv ex_up_signer.1.
Proof.
  split; [by split|]. split; [done|]. split; [by split|]. split; [done|].
  exists ex_up_signer.2. split; [done|]. exists (replicate 32 x02), (replicate 40 x03). split; [done|].
  unfold ex_up_signer. apply surjective_pairing.
Qed.

Lemma ex_rt_back m json : ex_rt_json m = Ok json → json ≠ [] ∧ ft_json_meta ex_fetcher json = Ok m.
Proof.
  unfold ex_rt_json. destruct (decide (m = ex_rt_meta)) as [->|]; [|discriminate].
  intros [= <-]. split; [discriminate|reflexivity].
Qed.

Definition ex_rt_token : bytes := match ComputePathToken ex_name_key "a.txt" with Ok t => t | Err _ => [] end.

Definition ex_rt_file : upload_file := mkUploadFile "a.txt" "a.txt" (Some [x41; x42; x43]) "".
Definition ex_fetched : result error (option (bytes * DownloadResult)) * World :=
  fetch_attempts ex_fetcher downloadAttempts "a.txt" ex_after_upload.

Lemma upload_then_fetch_witness :
  is_ok (processUpload ex_rt_uploader ex_entry ex_shelved_world).1 = true ∧
  ∃ data dl, uploads ex_rt_uploader ex_shelved_world 1 data ∧
    (Fetch ex_fetcher "a.txt" ex_after_upload ex_trust).1.1 = Ok (data, dl).
Proof.
  assert (is_ok (processUpload ex_rt_uploader ex_entry ex_shelved_world).1 = true) as Hok by (vm_compute; reflexivity).
  split; [exact Hok|]. unfold ex_after_upload.
  destruct (processUpload ex_rt_uploader ex_entry ex_shelved_world) as [[content|e] w1] eqn:Hp; [|discriminate Hok].
  destruct (upload_then_fetch ex_rt_uploader ex_fetcher ex_no_chunks ex_no_session 10 "body" ex_shelf (λ _, ∅) ex_honest
    ex_entry ex_rt_file ex_name_key ex_rt_token ex_shelved_world content w1 ex_pub ex_priv ex_up_signer.1 ex_rt_keyed
    eq_refl eq_refl eq_refl ltac:(discriminate) eq_refl ex_rt_back eq_refl ltac:(intros; vm_compute; discriminate)
    ltac:(vm_compute; reflexivity) ltac:(split; [vm_compute; reflexivity|discriminate]) ltac:(vm_compute; reflexivity)
    ltac:(vm_compute; discriminate) Hp) as (data & body & held & key & resp & Hu & Hh & _ & _ & Hf).
  specialize (Hf w1 ex_trust Hh). change (uf_remotePath ex_rt_file) with "a.txt" in Hf.
  assert (match ex_fetched.1 with Ok (Some _) => true | _ => false end = true) as Hfo by (vm_compute; reflexivity).
  unfold ex_fetched, ex_after_upload in Hfo. rewrite Hp in Hfo. cbn [snd] in *.
  destruct (fetch_attempts ex_fetcher downloadAttempts "a.txt" w1) as [[[got|]|e] w3] eqn:Ha;
    [|discriminate Hfo|discriminate Hfo].
  destruct Hf as (dl & t' & Hf). exists data, dl. split; [exact Hu|]. rewrite Hf. reflexivity.
Defined.
