(* ===== verification/Exif.v ===== *)
(** * The capture date of a photo

    [internal/cmdutil/exif.go]: the date a JPEG, PNG, WebP, HEIC or raw file says
    it was taken at, read from the first 256 KiB.  The input is whatever the user
    uploads, so every index and slice is an access that may panic, and the loops
    run on fuel; [int] is the 64-bit one of the released builds, in which no sum
    below overflows. *)
From S2P Require Import Prelude GoLib ApiErrors Names FileCrypt.
Local Open Scope Z_scope.

(** A computation that may panic; [NoFuel] stands for a loop that goes on. *)
Inductive go (A : Type) : Type := Ret (a : A) | Panic | NoFuel.
Arguments Ret {A}.
Arguments Panic {A}.
Arguments NoFuel {A}.
#[export] Instance go_bind : MBind go := λ A B f m,
  match m with Ret a => f a | Panic => Panic | NoFuel => NoFuel end.

Definition len (b : bytes) : Z := Z.of_nat (length b).

(** [b[i]]. *)
Definition at_ (b : bytes) (i : Z) : go Z :=
  if decide (0 ≤ i < len b) then match b !! Z.to_nat i with Some x => Ret (Z_of_byte x) | None => Panic end else Panic.
(** [b[i:j]]. *)
Definition slice_of (b : bytes) (i j : Z) : go bytes :=
  if decide (0 ≤ i ≤ j ∧ j ≤ len b) then Ret (take (Z.to_nat (j - i)) (drop (Z.to_nat i) b)) else Panic.

Inductive ByteOrder : Type := LittleEndian | BigEndian.
Definition join_bytes (bo : ByteOrder) (l : bytes) : Z :=
  match bo with BigEndian => be_Z l | LittleEndian => be_Z (reverse l) end.
(** [bo.Uint16(b[i:])] and [bo.Uint32(b[i:])]. *)
Definition uint_at (n : Z) (bo : ByteOrder) (b : bytes) (i : Z) : go Z :=
  rest ← slice_of b i (len b);
  if decide (n ≤ len rest) then Ret (join_bytes bo (take (Z.to_nat n) rest)) else Panic.
Definition Uint16 := uint_at 2.
Definition Uint32 := uint_at 4.

Definition has_bytes_prefix (p b : bytes) : bool := bool_decide (take (length p) b = p).

(** ** The date *)

Definition byte_char (c : ascii) : byte := Ascii.byte_of_ascii c.
Definition digit_of (b : byte) : option Z :=
  let z := Z_of_byte b - 48 in if decide (0 ≤ z ≤ 9) then Some z else None.
Definition two (a b : byte) : option Z := x ← digit_of a; y ← digit_of b; Some (10 * x + y).

Definition is_leap (y : Z) : bool := bool_decide (y mod 4 = 0 ∧ (y mod 100 ≠ 0 ∨ y mod 400 = 0)).
(** [daysIn] of the package [time]. *)
Definition daysIn (m y : Z) : Z :=
  if decide (m = 2) then (if is_leap y then 29 else 28)
  else if decide (m = 4 ∨ m = 6 ∨ m = 9 ∨ m = 11) then 30 else 31.
(** Days from the first day of year 0 to that of year [y], and of month [m]. *)
Definition days_to_year (y : Z) : Z := 365 * y + (y + 3) / 4 - (y + 99) / 100 + (y + 399) / 400.
Definition days_to_month (m y : Z) : Z := foldr (λ k s, daysIn k y + s) 0 (seqZ 1 (m - 1)).
Definition epoch_day : Z := 719528.
(** [time.Date(y, mo, d, h, mi, s, 0, time.UTC).Unix()]. *)
Definition unix_of (y mo d h mi s : Z) : Z :=
  (days_to_year y + days_to_month mo y + (d - 1) - epoch_day) * 86400 + h * 3600 + mi * 60 + s.

(** [time.Parse("2006:01:02 15:04:05", s)] of a text of nineteen bytes: the
    blanks before the hour are skipped together, so the hour may be padded with
    one. *)
Definition hour_of (a b : byte) : option Z :=
  if decide (a = byte_char " ") then digit_of b else two a b.
Definition parse_time (y1 y2 y3 y4 m1 m2 d1 d2 h1 h2 n1 n2 s1 s2 : byte) : option Z :=
  yh ← two y1 y2; yl ← two y3 y4; mo ← two m1 m2; d ← two d1 d2; h ← hour_of h1 h2; mi ← two n1 n2; s ← two s1 s2;
  let y := 100 * yh + yl in
  if decide (1 ≤ mo ≤ 12 ∧ h < 24 ∧ mi < 60 ∧ s < 60 ∧ 1 ≤ d ≤ daysIn mo y) then Some (unix_of y mo d h mi s) else None.

Definition parseExifDate (s : bytes) : go Z :=
  if decide (len s < 19) then Ret 0 else
  c4 ← at_ s 4; c7 ← at_ s 7; c10 ← at_ s 10; c13 ← at_ s 13; c16 ← at_ s 16;
  if decide (c4 ≠ 58 ∨ c7 ≠ 58 ∨ c10 ≠ 32 ∨ c13 ≠ 58 ∨ c16 ≠ 58) then Ret 0 else
  match s with
  | [y1; y2; y3; y4; _; m1; m2; _; d1; d2; _; h1; h2; _; n1; n2; _; s1; s2] =>
      Ret (default 0 (parse_time y1 y2 y3 y4 m1 m2 d1 d2 h1 h2 n1 n2 s1 s2))
  | _ => Ret 0   (** a text that goes on is refused *)
  end.

(** ** The tags *)

(** The first directory: the offset of the Exif directory, [-1] without one,
    [None] when an entry lies outside. *)
Fixpoint find_exif_ifd (n : nat) (bo : ByteOrder) (buf : bytes) (ifd0 i : Z) : go (option Z) :=
  match n with
  | O => Ret (Some (-1))
  | S n =>
      let entry := ifd0 + 2 + i * 12 in
      if decide (len buf < entry + 12) then Ret None else
      tag ← Uint16 bo buf entry;
      if decide (tag = 34665) then off ← Uint32 bo buf (entry + 8); Ret (Some off)
      else find_exif_ifd n bo buf ifd0 (i + 1)
  end.

(** The Exif directory: the first date that counts. *)
Fixpoint find_date (n : nat) (bo : ByteOrder) (buf : bytes) (tiffStart exifIfd i : Z) : go Z :=
  match n with
  | O => Ret 0
  | S n =>
      let entry := exifIfd + 2 + i * 12 in
      let next := find_date n bo buf tiffStart exifIfd (i + 1) in
      if decide (len buf < entry + 12) then Ret 0 else
      tag ← Uint16 bo buf entry;
      if decide (tag ≠ 36867 ∧ tag ≠ 36868) then next else
      kind ← Uint16 bo buf (entry + 2);
      if decide (kind ≠ 2) then next else
      count ← Uint32 bo buf (entry + 4);
      if decide (count < 19) then next else
      off ← Uint32 bo buf (entry + 8);
      let strOff := tiffStart + off in
      if decide (len buf < strOff + 19) then next else
      s ← slice_of buf strOff (strOff + 19);
      ts ← parseExifDate s;
      if decide (0 < ts) then Ret ts else next
  end.

Definition walkExifTiff (buf : bytes) (tiffStart : Z) : go Z :=
  if decide (len buf < tiffStart + 8) then Ret 0 else
  mark ← Uint16 BigEndian buf tiffStart;
  match (if decide (mark = 18761) then Some LittleEndian else if decide (mark = 19789) then Some BigEndian else None) with
  | None => Ret 0
  | Some bo =>
      magic ← Uint16 bo buf (tiffStart + 2);
      if decide (magic ≠ 42) then Ret 0 else
      ifd0Off ← Uint32 bo buf (tiffStart + 4);
      let ifd0 := tiffStart + ifd0Off in
      if decide (len buf < ifd0 + 2) then Ret 0 else
      ifd0Count ← Uint16 bo buf ifd0;
      exifIfdOff ← find_exif_ifd (Z.to_nat ifd0Count) bo buf ifd0 0;
      match exifIfdOff with
      | None => Ret 0
      | Some exifIfdOff =>
          if decide (exifIfdOff < 0) then Ret 0 else
          let exifIfd := tiffStart + exifIfdOff in
          if decide (len buf < exifIfd + 2) then Ret 0 else
          exifCount ← Uint16 bo buf exifIfd;
          find_date (Z.to_nat exifCount) bo buf tiffStart exifIfd 0
      end
  end.

(** ** The containers *)

Definition text (s : string) : bytes := String.list_byte_of_string s.
Definition exif_head : bytes := text "Exif" ++ [x00; x00].

Fixpoint jpeg_loop (fuel : nat) (b : bytes) (off : Z) : go Z :=
  match fuel with
  | O => NoFuel
  | S fuel =>
      if decide (len b - 4 ≤ off) then Ret 0 else
      c ← at_ b off;
      if decide (c ≠ 255) then Ret 0 else
      marker ← at_ b (off + 1);
      hi ← at_ b (off + 2);
      lo ← at_ b (off + 3);
      let segLen := Z.lor (Z.shiftl hi 8) lo in
      if decide (marker = 225) then
        let app1Start := off + 4 in
        let app1End := off + 2 + segLen in
        if decide (len b < app1End) then Ret 0 else
        rest ← slice_of b app1Start (len b);
        if has_bytes_prefix exif_head rest then buf ← slice_of b 0 app1End; walkExifTiff buf (app1Start + 6)
        else Ret 0
      else if decide (marker = 218 ∨ marker = 217) then Ret 0
      else jpeg_loop fuel b (off + 2 + segLen)
  end.
Definition parseJpegExif (b : bytes) : go Z :=
  if decide (len b < 4) then Ret 0 else
  b0 ← at_ b 0; b1 ← at_ b 1;
  if decide (b0 ≠ 255 ∨ b1 ≠ 216) then Ret 0 else jpeg_loop (length b) b 2.

Fixpoint png_loop (fuel : nat) (b : bytes) (off : Z) : go Z :=
  match fuel with
  | O => NoFuel
  | S fuel =>
      if decide (len b < off + 8) then Ret 0 else
      length ← Uint32 BigEndian b off;
      ctype ← slice_of b (off + 4) (off + 8);
      let dataStart := off + 8 in
      let dataEnd := dataStart + length in
      if decide (len b < dataEnd + 4) then Ret 0
      else if decide (ctype = text "eXIf") then buf ← slice_of b 0 dataEnd; walkExifTiff buf dataStart
      else if decide (ctype = text "IEND" ∨ ctype = text "IDAT") then Ret 0
      else png_loop fuel b (dataEnd + 4)
  end.
Definition png_signature : bytes := [x89; x50; x4e; x47; x0d; x0a; x1a; x0a].
Definition parsePngExif (b : bytes) : go Z :=
  if decide (len b < 8 ∨ has_bytes_prefix png_signature b = false) then Ret 0 else png_loop (length b) b 8.

Fixpoint webp_loop (fuel : nat) (b : bytes) (off : Z) : go Z :=
  match fuel with
  | O => NoFuel
  | S fuel =>
      if decide (len b < off + 8) then Ret 0 else
      ctype ← slice_of b off (off + 4);
      length ← Uint32 LittleEndian b (off + 4);
      let dataStart := off + 8 in
      let dataEnd := dataStart + length in
      if decide (len b < dataEnd) then Ret 0
      else if decide (ctype = text "EXIF") then buf ← slice_of b 0 dataEnd; walkExifTiff buf dataStart
      else webp_loop fuel b (dataEnd + Z.land length 1)
  end.
Definition parseWebpExif (b : bytes) : go Z :=
  if decide (len b < 12) then Ret 0 else
  form ← slice_of b 8 12;
  if decide (has_bytes_prefix (text "RIFF") b = false ∨ form ≠ text "WEBP") then Ret 0 else webp_loop (length b) b 12.

Fixpoint heic_loop (fuel : nat) (b : bytes) (i : Z) : go Z :=
  match fuel with
  | O => NoFuel
  | S fuel =>
      if decide (len b < i + 8) then Ret 0 else
      b0 ← at_ b i;
      if decide (b0 ≠ 73 ∧ b0 ≠ 77) then heic_loop fuel b (i + 1) else
      b1 ← at_ b (i + 1); b2 ← at_ b (i + 2); b3 ← at_ b (i + 3);
      if decide ((b0 = 73 ∧ b1 = 73 ∧ b2 = 42 ∧ b3 = 0) ∨ (b0 = 77 ∧ b1 = 77 ∧ b2 = 0 ∧ b3 = 42)) then
        ts ← walkExifTiff b i;
        if decide (0 < ts) then Ret ts else heic_loop fuel b (i + 1)
      else heic_loop fuel b (i + 1)
  end.
Definition parseHeicExif (b : bytes) : go Z := heic_loop (S (length b)) b 0.

Definition tiffRawExtensions : list string :=
  [".tif"; ".tiff"; ".cr2"; ".nef"; ".dng"; ".arw"; ".orf"; ".pef"; ".rw2"; ".srw"; ".nrw"].

Definition exifHeadSize : Z := 256 * 1024.

(** The file as its first bytes, [None] when it cannot be opened, with the error
    of a read. *)
Definition ParseExifCaptureDate `{Unicode} (path : string) (file : option source) : go Z :=
  let lower := strings_ToLower path in
  let ext := if contains_char "."%char lower then "." ^^ last_segment "."%char lower else "" in
  let isJpeg := bool_decide (ext = ".jpg" ∨ ext = ".jpeg") in
  let isPng := bool_decide (ext = ".png") in
  let isWebp := bool_decide (ext = ".webp") in
  let isHeic := bool_decide (ext = ".heic" ∨ ext = ".heif") in
  let isTiffRaw := bool_decide (ext ∈ tiffRawExtensions) in
  if negb (isJpeg || isPng || isWebp || isHeic || isTiffRaw) then Ret 0 else
  match file with
  | None => Ret 0
  | Some f =>
      if decide (len (remaining f) < exifHeadSize ∧ isSome (read_error f) = true) then Ret 0 else
      let b := take (Z.to_nat exifHeadSize) (remaining f) in
      if isJpeg then parseJpegExif b
      else if isPng then parsePngExif b
      else if isWebp then parseWebpExif b
      else if isTiffRaw then walkExifTiff b 0
      else if isHeic then parseHeicExif b
      else Ret 0
  end.

(** ** Nothing panics *)

(** The computation returns, and what it returns satisfies [P]. *)
Definition returns {A} (m : go A) (P : A → Prop) : Prop := ∃ a, m = Ret a ∧ P a.

Lemma returns_ret {A} (a : A) (P : A → Prop) : P a → returns (Ret a) P.
Proof. by exists a. Qed.
Lemma returns_bind {A B} (m : go A) (f : A → go B) P Q :
  returns m P → (∀ a, P a → returns (f a) Q) → returns (m ≫= f) Q.
Proof. intros (a & -> & Ha) H. exact (H a Ha). Qed.

Lemma at_returns b i : 0 ≤ i < len b → returns (at_ b i) (λ z, 0 ≤ z < 256).
Proof.
  intros Hi. unfold at_. rewrite decide_True by done.
  destruct (lookup_lt_is_Some_2 b (Z.to_nat i)) as [x ->]; [unfold len in Hi; lia|].
  exists (Z_of_byte x). split; [done|apply Z_of_byte_range].
Qed.

Lemma slice_returns b i j : 0 ≤ i ≤ j → j ≤ len b →
  returns (slice_of b i j) (λ s, s = take (Z.to_nat (j - i)) (drop (Z.to_nat i) b) ∧ len s = j - i).
Proof.
  intros Hi Hj. unfold slice_of. rewrite decide_True by done. eexists. split; [done|]. split; [done|].
  unfold len in *. rewrite length_take, length_drop. lia.
Qed.

Lemma join_bytes_range bo l n : len l = n → 0 ≤ join_bytes bo l < 2 ^ (8 * n).
Proof.
  intros <-. unfold len. destruct bo; simpl; [rewrite <- (length_reverse l)|]; apply be_Z_bound.
Qed.

Lemma uint_returns n bo b i : 0 ≤ n → 0 ≤ i → i + n ≤ len b → returns (uint_at n bo b i) (λ z, 0 ≤ z < 2 ^ (8 * n)).
Proof.
  intros Hn Hi Hl. unfold uint_at. apply (returns_bind _ _ _ _ (slice_returns b i (len b) ltac:(lia) ltac:(lia))).
  intros rest [_ Hr]. rewrite decide_True by lia. apply returns_ret, join_bytes_range.
  unfold len in *. rewrite length_take. lia.
Qed.

(** One access: its range is a matter of arithmetic. *)
Ltac access :=
  match goal with
  | |- returns (at_ ?b ?i ≫= _) _ => apply (returns_bind _ _ _ _ (at_returns b i ltac:(lia))); intros ? ?
  | |- returns (Uint16 ?bo ?b ?i ≫= _) _ =>
      apply (returns_bind _ _ _ _ (uint_returns 2 bo b i ltac:(lia) ltac:(lia) ltac:(lia))); intros ? ?
  | |- returns (Uint32 ?bo ?b ?i ≫= _) _ =>
      apply (returns_bind _ _ _ _ (uint_returns 4 bo b i ltac:(lia) ltac:(lia) ltac:(lia))); intros ? ?
  | |- returns (slice_of ?b ?i ?j ≫= _) _ =>
      apply (returns_bind _ _ _ _ (slice_returns b i j ltac:(lia) ltac:(lia))); intros ? [? ?]
  | |- returns (if decide ?P then _ else _) _ => destruct (decide P)
  | |- returns (Ret 0) _ => apply returns_ret; lia
  end.

Definition dated (z : Z) : Prop := 0 ≤ z.

Lemma parseExifDate_returns s : returns (parseExifDate s) (λ _, True).
Proof.
  unfold parseExifDate. case_decide; [by apply returns_ret|]. do 5 access. case_decide; [by apply returns_ret|].
  by repeat (case_match; try by apply returns_ret).
Qed.

Lemma find_exif_ifd_returns n : ∀ bo buf ifd0 i, 0 ≤ ifd0 → 0 ≤ i → returns (find_exif_ifd n bo buf ifd0 i) (λ _, True).
Proof.
  induction n as [|n IH]; intros bo buf ifd0 i H0 Hi; cbn [find_exif_ifd]; [by apply returns_ret|]. cbv zeta.
  access; [by apply returns_ret|]. access. access; [|apply IH; lia]. access. by apply returns_ret.
Qed.

Lemma find_date_returns n : ∀ bo buf t e i, 0 ≤ t → 0 ≤ e → 0 ≤ i → returns (find_date n bo buf t e i) dated.
Proof.
  induction n as [|n IH]; intros bo buf t e i Ht He Hi; cbn [find_date]; [by apply returns_ret|]. cbv zeta.
  assert (returns (find_date n bo buf t e (i + 1)) dated) as Hnext by (apply IH; lia).
  unfold dated in *. repeat (access; [done|] || access); try done.
  apply (returns_bind _ _ _ _ (parseExifDate_returns _)). intros ts _. case_decide; [apply returns_ret; lia|done].
Qed.

Lemma walkExifTiff_returns buf t : 0 ≤ t → returns (walkExifTiff buf t) dated.
Proof.
  intros Ht. unfold walkExifTiff. assert (returns (Ret 0) dated) as H0 by (by apply returns_ret).
  access; [done|]. access.
  destruct (if decide (_ = 18761) then _ else _) as [bo|]; [|done].
  access. access; [done|]. access. cbv zeta. access; [done|]. access.
  apply (returns_bind _ _ (λ _, True)); [apply find_exif_ifd_returns; lia|]. intros [off|] _; [|done].
  access; [done|]. access; [done|]. access. apply find_date_returns; lia.
Qed.

Lemma lor_byte_nonneg a b : 0 ≤ a → 0 ≤ b → 0 ≤ Z.lor (Z.shiftl a 8) b.
Proof. intros. apply Z.lor_nonneg. split; [by apply Z.shiftl_nonneg|done]. Qed.

Lemma exif_body_returns b e t : 0 ≤ e ≤ len b → 0 ≤ t → returns (buf ← slice_of b 0 e; walkExifTiff buf t) dated.
Proof. intros He Ht. access. by apply walkExifTiff_returns. Qed.

Lemma jpeg_loop_returns fuel : ∀ b off, 0 ≤ off → Z.max 0 (len b - off) < Z.of_nat fuel → returns (jpeg_loop fuel b off) dated.
Proof.
  induction fuel as [|fuel IH]; intros b off Ho Hf; [lia|]. cbn [jpeg_loop].
  assert (returns (Ret 0) dated) as H0 by (by apply returns_ret).
  access; [done|]. access. access; [done|]. do 3 access. cbv zeta.
  match goal with |- context [Z.lor (Z.shiftl ?x 8) ?y] =>
    pose proof (lor_byte_nonneg x y ltac:(lia) ltac:(lia)) end.
  access.
  - access; [done|]. access. destruct (has_bytes_prefix _ _); [|done]. apply exif_body_returns; lia.
  - access; [done|]. apply IH; lia.
Qed.

Lemma png_loop_returns fuel : ∀ b off, 0 ≤ off → Z.max 0 (len b - off) < Z.of_nat fuel → returns (png_loop fuel b off) dated.
Proof.
  induction fuel as [|fuel IH]; intros b off Ho Hf; [lia|]. cbn [png_loop].
  assert (returns (Ret 0) dated) as H0 by (by apply returns_ret).
  access; [done|]. access. access. cbv zeta. access; [done|]. access; [apply exif_body_returns; lia|].
  access; [done|]. apply IH; lia.
Qed.

Lemma webp_loop_returns fuel : ∀ b off, 0 ≤ off → Z.max 0 (len b - off) < Z.of_nat fuel → returns (webp_loop fuel b off) dated.
Proof.
  induction fuel as [|fuel IH]; intros b off Ho Hf; [lia|]. cbn [webp_loop].
  assert (returns (Ret 0) dated) as H0 by (by apply returns_ret).
  access; [done|]. access. access. cbv zeta. access; [done|]. access; [apply exif_body_returns; lia|].
  match goal with |- context [Z.land ?n 1] => assert (0 ≤ Z.land n 1) by (apply Z.land_nonneg; lia) end.
  apply IH; lia.
Qed.

Lemma heic_loop_returns fuel : ∀ b i, 0 ≤ i → Z.max 0 (len b - i) < Z.of_nat fuel → returns (heic_loop fuel b i) dated.
Proof.
  induction fuel as [|fuel IH]; intros b i Hi Hf; [lia|]. cbn [heic_loop].
  access; [by apply returns_ret|]. assert (returns (heic_loop fuel b (i + 1)) dated) as Hnext by (apply IH; lia).
  access. access; [done|]. do 3 access. access; [|done].
  apply (returns_bind _ _ _ _ (walkExifTiff_returns b i Hi)). intros ts _. access; [apply returns_ret; unfold dated; lia|done].
Qed.

(** C37: Reading the capture date is safe on every file.  Whatever bytes the file
    holds and whatever its name says it is, the parser returns a date, or 0: no
    index or slice is out of range, and every loop ends (the fuel given, one step
    per byte, is never used up).  The date is never before 1970. *)
Theorem ParseExifCaptureDate_safe `{Unicode} path file : returns (ParseExifCaptureDate path file) dated.
Proof.
  unfold ParseExifCaptureDate. cbv zeta. assert (returns (Ret 0) dated) as H0 by (by apply returns_ret).
  destruct (negb _); [done|]. destruct file as [f|]; [|done]. access; [done|].
  generalize (take (Z.to_nat exifHeadSize) (remaining f)). intros b.
  destruct (bool_decide _).
  { unfold parseJpegExif. access; [done|]. access. access. access; [done|]. apply jpeg_loop_returns; unfold len in *; lia. }
  destruct (bool_decide _).
  { unfold parsePngExif. case_decide as Hp; [done|]. apply png_loop_returns; unfold len in *; [lia|]. naive_solver lia. }
  destruct (bool_decide _).
  { unfold parseWebpExif. access; [done|]. access. access; [done|]. apply webp_loop_returns; unfold len in *; lia. }
  destruct (bool_decide _); [by apply walkExifTiff_returns|]. destruct (bool_decide _); [|done].
  apply heic_loop_returns; unfold len; lia.
Qed.

(** ** A date that was written is found *)

Definition bytes_of (bo : ByteOrder) (n : nat) (z : Z) : bytes :=
  match bo with BigEndian => be_bytes n z | LittleEndian => reverse (be_bytes n z) end.

(** What a camera writes: the first directory points to the Exif directory, which
    holds the date (tag [DateTimeOriginal]) and points to its text. *)
Definition tiff_head (bo : ByteOrder) : bytes :=
  let u16 := bytes_of bo 2 in let u32 := bytes_of bo 4 in
  (match bo with LittleEndian => [x49; x49] | BigEndian => [x4d; x4d] end) ++ u16 42 ++ u32 8 ++
  u16 1 ++ (u16 34665 ++ u16 4 ++ u32 1 ++ u32 26) ++ u32 0 ++
  u16 1 ++ (u16 36867 ++ u16 2 ++ u32 20 ++ u32 44) ++ u32 0.
Definition tiff_of (bo : ByteOrder) (date : bytes) : bytes := tiff_head bo ++ date ++ [x00].

Lemma len_app a b : len (a ++ b) = len a + len b.
Proof. unfold len. rewrite length_app. lia. Qed.

Lemma slice_of_app pre b i j : 0 ≤ i → slice_of (pre ++ b) (len pre + i) (len pre + j) = slice_of b i j.
Proof.
  intros Hi. unfold slice_of. rewrite len_app. assert (0 ≤ len pre) by (unfold len; lia).
  destruct (decide (0 ≤ i ≤ j ∧ j ≤ len b)) as [Hd|Hd]; [|by rewrite decide_False by lia].
  rewrite decide_True by lia. f_equal. replace (len pre + j - (len pre + i)) with (j - i) by lia. f_equal.
  replace (Z.to_nat (len pre + i)) with (length pre + Z.to_nat i)%nat by (unfold len; lia). apply drop_app_add.
Qed.

Lemma slice_of_prefix b post i j : j ≤ len b → slice_of (b ++ post) i j = slice_of b i j.
Proof.
  intros Hj. unfold slice_of. rewrite len_app. assert (0 ≤ len post) by (unfold len; lia).
  destruct (decide (0 ≤ i ≤ j ∧ j ≤ len b)) as [Hd|Hd]; [|by rewrite decide_False by lia].
  rewrite decide_True by lia. f_equal. unfold len in *. rewrite drop_app_le by lia.
  apply take_app_le. rewrite length_drop. lia.
Qed.

Lemma uint_at_slice n bo b i : 0 ≤ n → 0 ≤ i → i + n ≤ len b →
  uint_at n bo b i = (s ← slice_of b i (i + n); Ret (join_bytes bo s)).
Proof.
  intros Hn Hi Hl. unfold uint_at, slice_of. rewrite decide_True by lia. simpl.
  rewrite decide_True by (unfold len in *; rewrite length_take, length_drop; lia).
  rewrite decide_True by lia. simpl. f_equal. f_equal. replace (i + n - i) with n by lia.
  rewrite (take_ge (drop _ _)); [done|]. rewrite length_drop. unfold len in *. lia.
Qed.

(** A number inside a part of a file reads as in the part. *)
Lemma uint_at_inside n bo pre b post i : 0 ≤ n → 0 ≤ i → i + n ≤ len b →
  uint_at n bo (pre ++ b ++ post) (len pre + i) = uint_at n bo b i.
Proof.
  intros Hn Hi Hl. assert (0 ≤ len pre ∧ 0 ≤ len post) as [? ?] by (unfold len; lia).
  rewrite !uint_at_slice by (rewrite ?len_app; lia).
  replace (len pre + i + n) with (len pre + (i + n)) by lia. by rewrite slice_of_app, slice_of_prefix by lia.
Qed.

Lemma len_tiff_head bo : len (tiff_head bo) = 44.
Proof. by destruct bo. Qed.

Lemma walkExifTiff_finds bo pre date post ts : len date = 19 → parseExifDate date = Ret ts → 0 < ts →
  walkExifTiff (pre ++ tiff_of bo date ++ post) (len pre) = Ret ts.
Proof.
  intros Hd Hts Hpos. unfold tiff_of. rewrite <- !app_assoc. set (tail := date ++ [x00] ++ post).
  assert (0 ≤ len pre) as Hp by (unfold len; lia).
  assert (len (pre ++ tiff_head bo ++ tail) = len pre + 44 + len tail) as Hlen by (rewrite !len_app, len_tiff_head; lia).
  assert (20 ≤ len tail) as Htail by (unfold tail; rewrite !len_app, Hd; unfold len; simpl; lia).
  assert (∀ n o i z, 0 ≤ n → 0 ≤ i → i + n ≤ 44 → uint_at n o (tiff_head bo) i = z →
    uint_at n o (pre ++ tiff_head bo ++ tail) (len pre + i) = z) as Hat.
  { intros n o i z H1 H2 H3 <-. apply uint_at_inside; rewrite ?len_tiff_head; lia. }
  unfold walkExifTiff, Uint16, Uint32. rewrite Hlen, decide_False by lia.
  pose proof (Hat 2 BigEndian 0 (Ret (if bo then 18761 else 19789)) ltac:(lia) ltac:(lia) ltac:(lia) ltac:(by destruct bo)) as Hmark.
  rewrite Z.add_0_r in Hmark. rewrite Hmark. cbn [mbind go_bind].
  replace (if decide _ then Some LittleEndian else _) with (Some bo) by (by destruct bo).
  rewrite (Hat 2 bo 2 (Ret 42)), (Hat 4 bo 4 (Ret 8)) by (lia || by destruct bo). cbn [mbind go_bind].
  rewrite decide_False by lia. cbv zeta. rewrite decide_False by lia.
  rewrite (Hat 2 bo 8 (Ret 1)) by (lia || by destruct bo). cbn [mbind go_bind].
  change (Z.to_nat 1) with 1%nat. cbn [find_exif_ifd]. cbv zeta. rewrite Hlen, decide_False by lia. unfold Uint16, Uint32.
  replace (len pre + 8 + 2 + 0 * 12) with (len pre + 10) by lia.
  rewrite (Hat 2 bo 10 (Ret 34665)) by (lia || by destruct bo). cbn [mbind go_bind]. rewrite decide_True by done.
  replace (len pre + 10 + 8) with (len pre + 18) by lia.
  rewrite (Hat 4 bo 18 (Ret 26)) by (lia || by destruct bo). cbn [mbind go_bind].
  rewrite !decide_False by lia. rewrite (Hat 2 bo 26 (Ret 1)) by (lia || by destruct bo). cbn [mbind go_bind].
  change (Z.to_nat 1) with 1%nat. cbn [find_date]. cbv zeta. unfold Uint16, Uint32. rewrite Hlen, decide_False by lia.
  replace (len pre + 26 + 2 + 0 * 12) with (len pre + 28) by lia.
  rewrite (Hat 2 bo 28 (Ret 36867)) by (lia || by destruct bo). cbn [mbind go_bind]. rewrite decide_False by lia.
  replace (len pre + 28 + 2) with (len pre + 30) by lia.
  rewrite (Hat 2 bo 30 (Ret 2)) by (lia || by destruct bo). cbn [mbind go_bind]. rewrite decide_False by lia.
  replace (len pre + 28 + 4) with (len pre + 32) by lia.
  rewrite (Hat 4 bo 32 (Ret 20)) by (lia || by destruct bo). cbn [mbind go_bind]. rewrite decide_False by lia.
  replace (len pre + 28 + 8) with (len pre + 36) by lia.
  rewrite (Hat 4 bo 36 (Ret 44)) by (lia || by destruct bo). cbn [mbind go_bind]. rewrite decide_False by lia.
  replace (len pre + 44 + 19) with (len pre + (44 + 19)) by lia. rewrite slice_of_app by lia.
  assert (slice_of (tiff_head bo ++ tail) 44 (44 + 19) = Ret date) as ->.
  { pose proof (slice_of_app (tiff_head bo) tail 0 19 ltac:(lia)) as Hs. rewrite len_tiff_head, Z.add_0_r in Hs. rewrite Hs.
    unfold tail. rewrite slice_of_prefix by lia. unfold slice_of. rewrite decide_True by lia.
    rewrite drop_0, take_ge; [done|]. unfold len in Hd. lia. }
  cbn [mbind go_bind]. rewrite Hts. cbn [mbind go_bind]. by rewrite decide_True by lia.
Qed.

(** The Exif segment of a JPEG. *)
Definition jpeg_of (bo : ByteOrder) (date : bytes) : bytes :=
  [xff; xd8; xff; xe1] ++ be_bytes 2 (2 + 6 + 64) ++ exif_head ++ tiff_of bo date.

(** The date a camera wrote is the one that is read.  A JPEG that starts with
    an Exif segment holding a capture date after 1970, in either byte order and
    whatever follows the segment, parses to that date. *)
Theorem parseJpegExif_finds bo date rest ts : len date = 19 → parseExifDate date = Ret ts → 0 < ts →
  parseJpegExif (jpeg_of bo date ++ rest) = Ret ts.
Proof.
  intros Hd Hts Hpos. set (front := [xff; xd8; xff; xe1] ++ be_bytes 2 (2 + 6 + 64) ++ exif_head).
  assert (jpeg_of bo date = front ++ tiff_of bo date) as Hj by (unfold jpeg_of, front; by rewrite <- !app_assoc).
  assert (len (tiff_of bo date) = 64) as Ht by (unfold tiff_of; rewrite !len_app, len_tiff_head, Hd; done).
  assert (len (jpeg_of bo date) = 76) as Hl by (rewrite Hj, len_app, Ht; done).
  assert (0 ≤ len rest) as Hr by (unfold len; lia).
  assert (∀ i z, 0 ≤ i < 12 → at_ front i = z → at_ (jpeg_of bo date ++ rest) i = z) as Hat.
  { intros i z Hi <-. rewrite Hj, <- app_assoc. unfold at_. rewrite !len_app, Ht. change (len front) with 12.
    rewrite !decide_True by lia. rewrite lookup_app_l; [done|]. change (length front) with 12%nat. lia. }
  unfold parseJpegExif. rewrite len_app, Hl, decide_False by lia.
  rewrite (Hat 0 (Ret 255)), (Hat 1 (Ret 216)) by (lia || done). cbn [mbind go_bind]. rewrite decide_False by lia.
  assert (∃ n, length (jpeg_of bo date ++ rest) = S n) as [n ->].
  { exists (75 + length rest)%nat. unfold len in *. rewrite length_app. lia. }
  cbn [jpeg_loop]. rewrite len_app, Hl, decide_False by lia.
  rewrite (Hat 2 (Ret 255)), (Hat (2 + 1) (Ret 225)), (Hat (2 + 2) (Ret 0)), (Hat (2 + 3) (Ret 72)) by (lia || done).
  cbn [mbind go_bind]. rewrite decide_False by lia. cbv zeta. rewrite decide_True by done.
  change (2 + 2 + Z.lor (Z.shiftl 0 8) 72) with 76. rewrite decide_False by lia.
  destruct (slice_returns (jpeg_of bo date ++ rest) (2 + 4) (76 + len rest)) as (x & -> & -> & _); [lia|rewrite len_app; lia|].
  cbn [mbind go_bind].
  match goal with |- context [has_bytes_prefix exif_head ?x] => assert (has_bytes_prefix exif_head x = true) as -> end.
  { unfold has_bytes_prefix. apply bool_decide_eq_true. change (length exif_head) with 6%nat.
    rewrite take_take, Nat.min_l by lia. by destruct bo. }
  rewrite slice_of_prefix by lia. unfold slice_of. rewrite decide_True by lia. cbn [mbind go_bind].
  rewrite drop_0, take_ge by (unfold len in *; lia). rewrite Hj.
  change (2 + 4 + 6) with (len front). rewrite <- (app_nil_r (tiff_of bo date)).
  by apply walkExifTiff_finds.
Qed.

(** ** The calendar *)

(** Consecutive years follow each other. *)
Lemma days_to_year_succ y : days_to_year (y + 1) = days_to_year y + (if is_leap y then 366 else 365).
Proof.
  unfold days_to_year, is_leap. case_bool_decide as Hl; Z.div_mod_to_equations; lia.
Qed.

Lemma days_to_month_succ m y : 1 ≤ m → days_to_month (m + 1) y = days_to_month m y + daysIn m y.
Proof.
  intros Hm. unfold days_to_month. replace (m + 1 - 1) with (Z.succ (m - 1)) by lia.
  rewrite <- (Z2Nat.id (m - 1)) by lia. rewrite <- Nat2Z.inj_succ, seqZ_S, foldr_app. cbn [foldr].
  replace (1 + Z.of_nat (Z.to_nat (m - 1))) with m by lia. generalize (daysIn m y). intros d.
  generalize (seqZ 1 (Z.of_nat (Z.to_nat (m - 1)))). intros l.
  assert (∀ a, foldr (λ k s, daysIn k y + s) a l = foldr (λ k s, daysIn k y + s) 0 l + a) as Hf
    by (induction l as [|k l IH]; intros a; simpl; [lia|rewrite IH; lia]).
  rewrite (Hf (d + 0)). lia.
Qed.

(** Twelve months make a year. *)
Lemma days_in_year y : days_to_month 13 y = if is_leap y then 366 else 365.
Proof. unfold days_to_month. change (seqZ 1 (13 - 1)) with [1;2;3;4;5;6;7;8;9;10;11;12]. simpl. unfold daysIn. simpl.
  by destruct (is_leap y). Qed.

Lemma daysIn_range m y : 28 ≤ daysIn m y ≤ 31.
Proof. unfold daysIn. case_decide; [destruct (is_leap y); lia|]. case_decide; lia. Qed.

Lemma days_to_month_le m (n : nat) y : 1 ≤ m → days_to_month m y ≤ days_to_month (m + Z.of_nat n) y.
Proof.
  intros Hm. induction n as [|n IH]; [by rewrite Z.add_0_r|].
  replace (m + Z.of_nat (S n)) with (m + Z.of_nat n + 1) by lia. rewrite days_to_month_succ by lia.
  pose proof (daysIn_range (m + Z.of_nat n) y). lia.
Qed.
Lemma days_to_month_mono m m' y : 1 ≤ m ≤ m' → days_to_month m y ≤ days_to_month m' y.
Proof. intros Hm. replace m' with (m + Z.of_nat (Z.to_nat (m' - m))) by lia. apply days_to_month_le. lia. Qed.

Lemma days_to_year_mono y y' : 0 ≤ y ≤ y' → days_to_year y ≤ days_to_year y'.
Proof. unfold days_to_year. intros. Z.div_mod_to_equations. lia. Qed.

(** A date and time that [time.Parse] accepts. *)
Definition valid_date (y mo d h mi s : Z) : Prop :=
  0 ≤ y ∧ 1 ≤ mo ≤ 12 ∧ 1 ≤ d ≤ daysIn mo y ∧ 0 ≤ h < 24 ∧ 0 ≤ mi < 60 ∧ 0 ≤ s < 60.

Lemma day_in_year y mo d : 1 ≤ mo ≤ 12 → 1 ≤ d ≤ daysIn mo y → days_to_month mo y + d ≤ days_to_year (y + 1) - days_to_year y.
Proof.
  intros Hm Hd. pose proof (days_to_month_succ mo y ltac:(lia)). pose proof (days_to_month_mono (mo + 1) 13 y ltac:(lia)).
  rewrite days_to_year_succ, <- (days_in_year y) in *. pose proof (days_in_year y). lia.
Qed.

(** Later dates have later timestamps: no two dates share one. *)
Lemma unix_of_increases y mo d h mi s y' mo' d' h' mi' s' :
  valid_date y mo d h mi s → valid_date y' mo' d' h' mi' s' →
  (y < y' ∨ y = y' ∧ (mo < mo' ∨ mo = mo' ∧ (d < d' ∨ d = d' ∧ h * 3600 + mi * 60 + s < h' * 3600 + mi' * 60 + s'))) →
  unix_of y mo d h mi s < unix_of y' mo' d' h' mi' s'.
Proof.
  intros (Hy & Hm & Hd & Hh & Hmi & Hs) (Hy' & Hm' & Hd' & Hh' & Hmi' & Hs') Hlt. unfold unix_of.
  enough (days_to_year y + days_to_month mo y + d < days_to_year y' + days_to_month mo' y' + d' ∨
    days_to_year y + days_to_month mo y + d = days_to_year y' + days_to_month mo' y' + d' ∧
    h * 3600 + mi * 60 + s < h' * 3600 + mi' * 60 + s') by lia.
  destruct Hlt as [Hlt|[-> [Hlt|[-> [Hlt|[-> Hlt]]]]]]; [left|left|lia|lia].
  - pose proof (day_in_year y mo d Hm Hd). pose proof (days_to_year_mono (y + 1) y' ltac:(lia)).
    pose proof (days_to_month_mono 1 mo' y' ltac:(lia)). change (days_to_month 1 y') with 0 in *. lia.
  - pose proof (days_to_month_succ mo y' ltac:(lia)). pose proof (days_to_month_mono (mo + 1) mo' y' ltac:(lia)). lia.
Qed.

Example ex_epoch : unix_of 1970 1 1 0 0 0 = 0.
Proof. reflexivity. Qed.
Example ex_leap : parseExifDate (text "2024:02:29 12:30:05") = Ret 1709209805.
Proof. reflexivity. Qed.
Example ex_no_leap : parseExifDate (text "2023:02:29 12:30:05") = Ret 0.
Proof. reflexivity. Qed.
(** A blank before the hour reads as a leading zero. *)
Example ex_blank_hour : parseExifDate (text "2024:02:29  2:30:05") = parseExifDate (text "2024:02:29 02:30:05").
Proof. reflexivity. Qed.

Lemma parseJpegExif_finds_witness :
  parseJpegExif (jpeg_of LittleEndian (text "2024:02:29 12:30:05") ++ [xff; xd9]) = Ret 1709209805.
Proof. apply parseJpegExif_finds; vm_compute; reflexivity. Defined.
