(* ===== verification/Config.v ===== *)
(** * Configuration and secrets

    [internal/config]: [config.go] and [secrets.go], the document
    [config.json] and the secrets beside it in the keychain of the system
    ([internal/keyringstore]).  The document is the object it decodes to: its
    entries, each under the name of the field the decoder matches it with. *)
From S2P Require Import Prelude GoLib GoFmt ApiErrors Names PinStore.
Local Open Scope Z_scope.

(** ** The document *)

Record Config : Type := mkConfig {
  cf_APIKey : string; cf_Endpoint : string; cf_Cwd : string;
  cf_DefaultJSON : bool; cf_DefaultQuiet : bool; cf_NoColor : bool; cf_Language : string;
  cf_PublicKey : string; cf_EncryptedPrivateKey : string; cf_PrivateKeyNonce : string;
  cf_PublicKeyKyber : string; cf_EncryptedPrivateKeyKyber : string; cf_PrivateKeyKyberNonce : string;
  cf_SigningPublicKeyEd25519 : string; cf_EncryptedSigningPrivateKeyEd25519 : string;
  cf_SigningPrivateKeyEd25519Nonce : string;
  cf_SigningPublicKeyMldsa : string; cf_EncryptedSigningPrivateKeyMldsa : string;
  cf_SigningPrivateKeyMldsaNonce : string;
  cf_KDFSalt : string; cf_KDFOpsLimit : Z; cf_KDFMemLimit : Z;
  cf_E2EEStorageMode : string; cf_CLIWelcomeCompleted : bool }.
#[export] Instance eta_Config : Eta Config := λ c, mkConfig
  (cf_APIKey c) (cf_Endpoint c) (cf_Cwd c) (cf_DefaultJSON c) (cf_DefaultQuiet c) (cf_NoColor c) (cf_Language c)
  (cf_PublicKey c) (cf_EncryptedPrivateKey c) (cf_PrivateKeyNonce c)
  (cf_PublicKeyKyber c) (cf_EncryptedPrivateKeyKyber c) (cf_PrivateKeyKyberNonce c)
  (cf_SigningPublicKeyEd25519 c) (cf_EncryptedSigningPrivateKeyEd25519 c) (cf_SigningPrivateKeyEd25519Nonce c)
  (cf_SigningPublicKeyMldsa c) (cf_EncryptedSigningPrivateKeyMldsa c) (cf_SigningPrivateKeyMldsaNonce c)
  (cf_KDFSalt c) (cf_KDFOpsLimit c) (cf_KDFMemLimit c) (cf_E2EEStorageMode c) (cf_CLIWelcomeCompleted c).

Inductive json : Type := JString (s : string) | JBool (b : bool) | JNumber (z : Z) | JNull | JOther.

(** A field: its name in the document, whether it is left out when empty, how it
    is read and set. *)
Inductive field : Type :=
| FString (name : string) (omitempty : bool) (get : Config → string) (set : string → Config → Config)
| FBool (name : string) (omitempty : bool) (get : Config → bool) (set : bool → Config → Config)
| FUint32 (name : string) (omitempty : bool) (get : Config → Z) (set : Z → Config → Config).
Definition field_name (f : field) : string :=
  match f with FString n _ _ _ | FBool n _ _ _ | FUint32 n _ _ _ => n end.

Definition config_fields : list field :=
  [FString "api_key" false cf_APIKey (λ s c, c <| cf_APIKey := s |>);
   FString "endpoint" false cf_Endpoint (λ s c, c <| cf_Endpoint := s |>);
   FString "cwd" false cf_Cwd (λ s c, c <| cf_Cwd := s |>);
   FBool "default_json" true cf_DefaultJSON (λ b c, c <| cf_DefaultJSON := b |>);
   FBool "default_quiet" true cf_DefaultQuiet (λ b c, c <| cf_DefaultQuiet := b |>);
   FBool "no_color" true cf_NoColor (λ b c, c <| cf_NoColor := b |>);
   FString "language" true cf_Language (λ s c, c <| cf_Language := s |>);
   FString "public_key" true cf_PublicKey (λ s c, c <| cf_PublicKey := s |>);
   FString "encrypted_private_key" true cf_EncryptedPrivateKey (λ s c, c <| cf_EncryptedPrivateKey := s |>);
   FString "private_key_nonce" true cf_PrivateKeyNonce (λ s c, c <| cf_PrivateKeyNonce := s |>);
   FString "public_key_kyber" true cf_PublicKeyKyber (λ s c, c <| cf_PublicKeyKyber := s |>);
   FString "encrypted_private_key_kyber" true cf_EncryptedPrivateKeyKyber (λ s c, c <| cf_EncryptedPrivateKeyKyber := s |>);
   FString "private_key_kyber_nonce" true cf_PrivateKeyKyberNonce (λ s c, c <| cf_PrivateKeyKyberNonce := s |>);
   FString "signing_public_key_ed25519" true cf_SigningPublicKeyEd25519 (λ s c, c <| cf_SigningPublicKeyEd25519 := s |>);
   FString "encrypted_signing_private_key_ed25519" true cf_EncryptedSigningPrivateKeyEd25519
     (λ s c, c <| cf_EncryptedSigningPrivateKeyEd25519 := s |>);
   FString "signing_private_key_ed25519_nonce" true cf_SigningPrivateKeyEd25519Nonce
     (λ s c, c <| cf_SigningPrivateKeyEd25519Nonce := s |>);
   FString "signing_public_key_mldsa" true cf_SigningPublicKeyMldsa (λ s c, c <| cf_SigningPublicKeyMldsa := s |>);
   FString "encrypted_signing_private_key_mldsa" true cf_EncryptedSigningPrivateKeyMldsa
     (λ s c, c <| cf_EncryptedSigningPrivateKeyMldsa := s |>);
   FString "signing_private_key_mldsa_nonce" true cf_SigningPrivateKeyMldsaNonce
     (λ s c, c <| cf_SigningPrivateKeyMldsaNonce := s |>);
   FString "kdf_salt" true cf_KDFSalt (λ s c, c <| cf_KDFSalt := s |>);
   FUint32 "kdf_ops_limit" true cf_KDFOpsLimit (λ z c, c <| cf_KDFOpsLimit := z |>);
   FUint32 "kdf_mem_limit" true cf_KDFMemLimit (λ z c, c <| cf_KDFMemLimit := z |>);
   FString "e2ee_storage_mode" true cf_E2EEStorageMode (λ s c, c <| cf_E2EEStorageMode := s |>);
   FBool "cli_welcome_completed" true cf_CLIWelcomeCompleted (λ b c, c <| cf_CLIWelcomeCompleted := b |>)].

Definition object : Type := list (string * json).

(** [json.MarshalIndent] of the configuration. *)
Definition marshal_field (c : Config) (f : field) : object :=
  match f with
  | FString n o g _ => if decide (o = true ∧ g c = "") then [] else [(n, JString (g c))]
  | FBool n o g _ => if decide (o = true ∧ g c = false) then [] else [(n, JBool (g c))]
  | FUint32 n o g _ => if decide (o = true ∧ g c = 0) then [] else [(n, JNumber (g c))]
  end.
Definition marshal (c : Config) : object := config_fields ≫= marshal_field c.

(** One entry of [json.Unmarshal] into a configuration: [null] and names no
    field has change nothing, a value of another type is skipped ([false]: the
    call will report it). *)
Definition set_field (f : field) (v : json) (c : Config) : Config * bool :=
  match f, v with
  | _, JNull => (c, true)
  | FString _ _ _ set, JString s => (set s c, true)
  | FBool _ _ _ set, JBool b => (set b c, true)
  | FUint32 _ _ _ set, JNumber z => if decide (0 ≤ z < 2 ^ 32) then (set z c, true) else (c, false)
  | _, _ => (c, false)
  end.
Definition unmarshal_entry (c : Config) (e : string * json) : Config :=
  match list_find (λ f, field_name f = e.1) config_fields with
  | Some (_, f) => (set_field f e.2 c).1
  | None => c
  end.
Definition unmarshal (o : object) (c : Config) : Config := foldl unmarshal_entry c o.

(** ** Secret stores *)

Class SecretStore (S : Type) : Type := {
  GetSecret : string → S → option string;
  SetSecret : string → string → S → bool * S;
  DeleteSecret : string → S → S }.

(** What the configuration relies on: a secret that was set is found, a store
    that refuses keeps what it has, and no call touches another key. *)
Class SecretStoreLaws (S : Type) `{SecretStore S} : Prop := {
  SetSecret_true k v s s' : SetSecret k v s = (true, s') → GetSecret k s' = Some v;
  SetSecret_false k v s s' : SetSecret k v s = (false, s') → GetSecret k s' = GetSecret k s;
  SetSecret_other k k' v s : k ≠ k' → GetSecret k' (SetSecret k v s).2 = GetSecret k' s;
  DeleteSecret_other k k' s : k ≠ k' → GetSecret k' (DeleteSecret k s) = GetSecret k' s }.
(** A deletion that takes effect. *)
Class SecretStoreDeletes (S : Type) `{SecretStore S} : Prop := {
  DeleteSecret_same k s : GetSecret k (DeleteSecret k s) = None }.

(** [noSecretStore]. *)
#[export] Instance noSecretStore : SecretStore unit := {|
  GetSecret _ _ := None; SetSecret _ _ s := (false, s); DeleteSecret _ s := s |}.
#[export] Instance noSecretStore_laws : SecretStoreLaws unit.
Proof. by split; intros. Qed.

(** [MemorySecretStore]. *)
Definition MemorySecretStore : Type := gmap string string.
#[export] Instance memory_store : SecretStore MemorySecretStore := {|
  GetSecret k m := m !! k;
  SetSecret k v m := if decide (v = "") then (false, m) else (true, <[k := v]> m);
  DeleteSecret k m := delete k m |}.
#[export] Instance memory_store_laws : SecretStoreLaws MemorySecretStore.
Proof.
  split; unfold SetSecret, GetSecret, DeleteSecret, memory_store; intros.
  - case_decide; simplify_eq. apply lookup_insert_eq.
  - by case_decide; simplify_eq.
  - case_decide; [done|]. by apply lookup_insert_ne.
  - by apply lookup_delete_ne.
Qed.
#[export] Instance memory_store_deletes : SecretStoreDeletes MemorySecretStore.
Proof. split. intros. apply lookup_delete_eq. Qed.

(** [internal/keyringstore]: the package [keyring], which may fail at any call,
    under the service of the program; [keyring_Set] says with [None] that it
    succeeded. *)
Class Keyring (S : Type) : Type := {
  keyring_Get : string → string → S → result error string;
  keyring_Set : string → string → string → S → option error * S;
  keyring_Delete : string → string → S → option error * S }.
Definition Service : string := "pigcloud-cli".
Definition keyring_store {S : Type} `{Keyring S} : SecretStore S := {|
  GetSecret k s := match keyring_Get Service k s with Ok v => Some v | Err _ => None end;
  SetSecret k v s :=
    if decide (v = "") then (false, s)
    else let '(err, s) := keyring_Set Service k v s in (bool_decide (err = None), s);
  DeleteSecret k s := (keyring_Delete Service k s).2 |}.
(** What the package documents: a password that was set is found under its
    service and user, a failed call changes nothing, others are not touched. *)
Class KeyringLaws (S : Type) `{Keyring S} : Prop := {
  keyring_Set_None v k s s' : keyring_Set Service k v s = (None, s') → keyring_Get Service k s' = Ok v;
  keyring_Set_Some v k s e s' : keyring_Set Service k v s = (Some e, s') →
    keyring_Get Service k s' = keyring_Get Service k s;
  keyring_Set_other v k k' s : k ≠ k' →
    keyring_Get Service k' (keyring_Set Service k v s).2 = keyring_Get Service k' s;
  keyring_Delete_other k k' s : k ≠ k' →
    keyring_Get Service k' (keyring_Delete Service k s).2 = keyring_Get Service k' s }.

Lemma keyring_store_laws {S : Type} `{KL : KeyringLaws S} : @SecretStoreLaws S keyring_store.
Proof.
  split; unfold SetSecret, GetSecret, DeleteSecret, keyring_store.
  - intros k v s s'. case_decide; [done|]. destruct (keyring_Set _ _ _ _) as [[e|] s1] eqn:Hs; intros [= <-].
    by rewrite (keyring_Set_None _ _ _ _ Hs).
  - intros k v s s'. case_decide; [by intros [= <-]|].
    destruct (keyring_Set _ _ _ _) as [[e|] s1] eqn:Hs; intros [= <-].
    by rewrite (keyring_Set_Some _ _ _ _ _ Hs).
  - intros k k' v s Hk. case_decide; [done|]. pose proof (keyring_Set_other v k k' s Hk) as Ho.
    destruct (keyring_Set _ _ _ _). simpl in *. by rewrite Ho.
  - intros k k' s Hk. by rewrite keyring_Delete_other.
Qed.

(** ** The configuration of a process *)

(** [url.Parse] up to the host: [None] when the URL is refused.  A host holds no
    vertical bar. *)
Class UrlHost : Type := { url_Host : string → option string }.
Class UrlHostLaws (U : UrlHost) : Prop := {
  url_Host_bar u h : url_Host u = Some h → contains_char "|" h = false }.

(** The global [cfg], the file, the secrets, and the outcomes of the next calls
    that write ([None]: success; past the end of the list they succeed). *)
Record Account (S : Type) : Type := mkAccount {
  ac_cfg : option Config; ac_file : file object; ac_secrets : S; ac_io : list (option error) }.
Arguments mkAccount {S}.
Arguments ac_cfg {S}.
Arguments ac_file {S}.
Arguments ac_secrets {S}.
Arguments ac_io {S}.
#[export] Instance eta_Account {S} : Eta (Account S) := λ a, mkAccount (ac_cfg a) (ac_file a) (ac_secrets a) (ac_io a).

Definition DefaultDomain : string := "pigcloud.de".
Definition DefaultBaseURL : string := "https://" ^^ DefaultDomain.
Definition DefaultEndpoint : string := DefaultBaseURL ^^ "/cloud/actions.php".
Definition empty_config : Config :=
  mkConfig "" "" "" false false false "" "" "" "" "" "" "" "" "" "" "" "" "" "" 0 0 "" false.
Definition default_config : Config := empty_config <| cf_Endpoint := DefaultEndpoint |> <| cf_Cwd := "/" |>.

Section config.
Context {S : Type} `{SS : SecretStore S, UH : UrlHost}.

Definition secretKeyFor (endpoint : string) : string :=
  match url_Host endpoint with
  | None => "default"
  | Some h => if decide (h = "") then "default" else h
  end.
Definition secretKey (a : Account S) : string :=
  match ac_cfg a with None => "default" | Some c => secretKeyFor (cf_Endpoint c) end.
Definition e2eeSecretKey (a : Account S) : string := secretKey a ^^ "|e2ee".

Definition set_secret (key value : string) (a : Account S) : bool * Account S :=
  let '(ok, s) := SetSecret key value (ac_secrets a) in (ok, a <| ac_secrets := s |>).
Definition storeAPIKey (apiKey : string) (a : Account S) : bool * Account S :=
  if decide (apiKey = "") then (false, a) else set_secret (secretKey a) apiKey a.
Definition loadAPIKey (a : Account S) : option string := GetSecret (secretKey a) (ac_secrets a).
Definition deleteAPIKey (a : Account S) : Account S := a <| ac_secrets := DeleteSecret (secretKey a) (ac_secrets a) |>.
Definition storeDeviceKey (deviceKey : bytes) (a : Account S) : bool * Account S :=
  if decide (length deviceKey ≠ 32%nat) then (false, a) else set_secret (e2eeSecretKey a) (hex_encode deviceKey) a.
Definition loadDeviceKey (a : Account S) : option bytes :=
  v ← GetSecret (e2eeSecretKey a) (ac_secrets a);
  decoded ← hex_decode v;
  if decide (length decoded = 32%nat) then Some decoded else None.
Definition deleteDeviceKey (a : Account S) : Account S :=
  a <| ac_secrets := DeleteSecret (e2eeSecretKey a) (ac_secrets a) |>.

Definition Load (a : Account S) : Account S :=
  let c := match ac_file a with FileDoc o => unmarshal o default_config | _ => default_config end in
  let a := a <| ac_cfg := Some c |> in
  match loadAPIKey a with
  | Some v => a <| ac_cfg := Some (c <| cf_APIKey := v |>) |>
  | None => a
  end.
(** [Get]: the configuration, with the state in which it is loaded. *)
Definition Get (a : Account S) : Config * Account S :=
  match ac_cfg a with
  | Some c => (c, a)
  | None => let a := Load a in (default default_config (ac_cfg a), a)
  end.

(** The outcome of the next call that writes. *)
Definition next_write (a : Account S) : option error * Account S :=
  match ac_io a with [] => (None, a) | o :: rest => (o, a <| ac_io := rest |>) end.

Definition Save (a : Account S) : option error * Account S :=
  let '(current, a) := Get a in
  let '(err, a) := next_write a in
  match err with
  | Some e => (Some (ErrWrap "failed to create config directory" e), a)
  | None =>
      let '(keychainOk, a) := storeAPIKey (cf_APIKey current) a in
      let persist := if keychainOk then current <| cf_APIKey := "" |> else current in
      let '(err, a) := next_write a in
      match err with
      | Some e => (Some (ErrWrap "failed to write config file" e), a)
      | None => (None, a <| ac_file := FileDoc (marshal persist) |>)
      end
  end.

(** [Get().Field = value; return Save()]. *)
Definition update (f : Config → Config) (a : Account S) : option error * Account S :=
  let '(c, a) := Get a in Save (a <| ac_cfg := Some (f c) |>).

Definition GetAPIKey (a : Account S) : string := cf_APIKey (Get a).1.
Definition SetAPIKey (key : string) : Account S → option error * Account S := update (λ c, c <| cf_APIKey := key |>).
Definition APIKeyInKeychain (a : Account S) : bool :=
  let '(_, a) := Get a in match loadAPIKey a with Some v => bool_decide (v ≠ "") | None => false end.
Definition GetEndpoint (a : Account S) : string := cf_Endpoint (Get a).1.
Definition SetEndpoint (endpoint : string) (a : Account S) : option error * Account S :=
  let '(current, a) := Get a in
  if decide (secretKeyFor (cf_Endpoint current) = secretKeyFor endpoint) then
    Save (a <| ac_cfg := Some (current <| cf_Endpoint := endpoint |>) |>)
  else
    let deviceKey := loadDeviceKey a in
    let a := deleteDeviceKey (deleteAPIKey a) in
    let '(err, a) := Save (a <| ac_cfg := Some (current <| cf_Endpoint := endpoint |>) |>) in
    match err with
    | Some e => (Some e, a)
    | None =>
        match deviceKey with
        | Some k => (None, (storeDeviceKey k a).2)
        | None => (None, a)
        end
    end.
Definition GetLanguage (a : Account S) : string := if decide (cf_Language (Get a).1 = "de") then "de" else "en".
Definition GetCwd (a : Account S) : string :=
  let cwd := cf_Cwd (Get a).1 in if decide (cwd = "") then "/" else cwd.
Definition SetCwd (cwd : string) : Account S → option error * Account S := update (λ c, c <| cf_Cwd := cwd |>).
(** [Clear]; the next write is the removal of the file. *)
Definition Clear (a : Account S) : option error * Account S :=
  let a := deleteDeviceKey (deleteAPIKey a) in
  let '(err, a) := next_write (a <| ac_cfg := Some default_config |>) in
  match err with
  | Some e => match ac_file a with
              | FileAbsent => (None, a)
              | _ => (Some (ErrWrap "failed to remove config file" e), a)
              end
  | None => (None, a <| ac_file := FileAbsent |>)
  end.
Definition IsLoggedIn (a : Account S) : bool := bool_decide (cf_APIKey (Get a).1 ≠ "").
Definition MarkCLIWelcomeCompleted : Account S → option error * Account S :=
  update (λ c, c <| cf_CLIWelcomeCompleted := true |>).
End config.

Definition has_encryption_keys (c : Config) : bool :=
  bool_decide (cf_PublicKey c ≠ "" ∧ cf_EncryptedPrivateKey c ≠ "" ∧ cf_PublicKeyKyber c ≠ "" ∧ cf_EncryptedPrivateKeyKyber c ≠ "").
Definition has_signing_keys (c : Config) : bool :=
  bool_decide (cf_SigningPublicKeyEd25519 c ≠ "" ∧ cf_EncryptedSigningPrivateKeyEd25519 c ≠ "" ∧
               cf_SigningPublicKeyMldsa c ≠ "" ∧ cf_EncryptedSigningPrivateKeyMldsa c ≠ "").

Section keys.
Context {S : Type} `{SS : SecretStore S, UH : UrlHost}.

Definition HasEncryptionKeys (a : Account S) : bool := has_encryption_keys (Get a).1.
Definition HasSigningKeys (a : Account S) : bool := has_signing_keys (Get a).1.
Definition IsDeviceWrapped (a : Account S) : bool := bool_decide (cf_E2EEStorageMode (Get a).1 = "device").
Definition StoreE2EEDeviceKey : bytes → Account S → bool * Account S := storeDeviceKey.
Definition LoadE2EEDeviceKey : Account S → option bytes := loadDeviceKey.

Definition SetEncryptionKeys (publicKey encPrivKey nonce publicKeyKyber encPrivKeyKyber kyberNonce salt : string)
    (ops mem : Z) : Account S → option error * Account S :=
  update (λ c, c <| cf_PublicKey := publicKey |> <| cf_EncryptedPrivateKey := encPrivKey |> <| cf_PrivateKeyNonce := nonce |>
    <| cf_PublicKeyKyber := publicKeyKyber |> <| cf_EncryptedPrivateKeyKyber := encPrivKeyKyber |>
    <| cf_PrivateKeyKyberNonce := kyberNonce |>
    <| cf_KDFSalt := salt |> <| cf_KDFOpsLimit := ops |> <| cf_KDFMemLimit := mem |> <| cf_E2EEStorageMode := "" |>).

(** The six assignments that [SetSigningKeys] and [SetDeviceWrappedE2EEKeys] share. *)
Definition with_signing_keys (pubEd encPrivEd edNonce pubMldsa encPrivMldsa mldsaNonce : string) (c : Config) : Config :=
  c <| cf_SigningPublicKeyEd25519 := pubEd |> <| cf_EncryptedSigningPrivateKeyEd25519 := encPrivEd |>
    <| cf_SigningPrivateKeyEd25519Nonce := edNonce |> <| cf_SigningPublicKeyMldsa := pubMldsa |>
    <| cf_EncryptedSigningPrivateKeyMldsa := encPrivMldsa |> <| cf_SigningPrivateKeyMldsaNonce := mldsaNonce |>.
Definition SetSigningKeys (pubEd encPrivEd edNonce pubMldsa encPrivMldsa mldsaNonce : string)
    : Account S → option error * Account S :=
  update (with_signing_keys pubEd encPrivEd edNonce pubMldsa encPrivMldsa mldsaNonce).
Definition SetDeviceWrappedE2EEKeys (publicKey encPrivKey nonce publicKeyKyber encPrivKeyKyber kyberNonce
    pubEd encPrivEd edNonce pubMldsa encPrivMldsa mldsaNonce : string) : Account S → option error * Account S :=
  update (λ c, with_signing_keys pubEd encPrivEd edNonce pubMldsa encPrivMldsa mldsaNonce
    (c <| cf_PublicKey := publicKey |> <| cf_EncryptedPrivateKey := encPrivKey |> <| cf_PrivateKeyNonce := nonce |>
      <| cf_PublicKeyKyber := publicKeyKyber |> <| cf_EncryptedPrivateKeyKyber := encPrivKeyKyber |>
      <| cf_PrivateKeyKyberNonce := kyberNonce |>)
    <| cf_KDFSalt := "" |> <| cf_KDFOpsLimit := 0 |> <| cf_KDFMemLimit := 0 |> <| cf_E2EEStorageMode := "device" |>).
End keys.

(** ** What is saved is loaded *)

(** The limits are [uint32]. *)
Definition config_ok (c : Config) : Prop := 0 ≤ cf_KDFOpsLimit c < 2 ^ 32 ∧ 0 ≤ cf_KDFMemLimit c < 2 ^ 32.

Lemma unmarshal_app o1 o2 c : unmarshal (o1 ++ o2) c = unmarshal o2 (unmarshal o1 c).
Proof. apply foldl_app. Qed.

(** A field that is left out was empty, and so was the field it is read into. *)
Lemma unmarshal_string n o g s c d d' rest :
  s (g c) d = d' → unmarshal_entry d (n, JString (g c)) = d' → (o = true → s "" d = d) →
  unmarshal (marshal_field c (FString n o g s) ++ rest) d = unmarshal rest d'.
Proof.
  intros <- He Ho. rewrite unmarshal_app. f_equal. cbn [marshal_field].
  destruct (decide (o = true ∧ g c = "")) as [[Ht Hz]|Hd]; [|exact He]. rewrite Hz. by rewrite Ho.
Qed.
Lemma unmarshal_bool n o g s c d d' rest :
  s (g c) d = d' → unmarshal_entry d (n, JBool (g c)) = d' → (o = true → s false d = d) →
  unmarshal (marshal_field c (FBool n o g s) ++ rest) d = unmarshal rest d'.
Proof.
  intros <- He Ho. rewrite unmarshal_app. f_equal. cbn [marshal_field].
  destruct (decide (o = true ∧ g c = false)) as [[Ht Hz]|Hd]; [|exact He]. rewrite Hz. by rewrite Ho.
Qed.
Lemma unmarshal_uint n o g s c d d' rest :
  0 ≤ g c < 2 ^ 32 → s (g c) d = d' →
  unmarshal_entry d (n, JNumber (g c)) = (set_field (FUint32 n o g s) (JNumber (g c)) d).1 → (o = true → s 0 d = d) →
  unmarshal (marshal_field c (FUint32 n o g s) ++ rest) d = unmarshal rest d'.
Proof.
  intros Hg <- He Ho. rewrite unmarshal_app. f_equal. cbn [marshal_field].
  destruct (decide (o = true ∧ g c = 0)) as [[Ht Hz]|Hd]; [rewrite Hz; by rewrite Ho|].
  cbn [unmarshal foldl]. rewrite He. unfold set_field. by rewrite decide_True.
Qed.

Lemma unmarshal_marshal c : config_ok c → unmarshal (marshal c) default_config = c.
Proof.
  destruct c. intros [Hops Hmem]. cbn [cf_KDFOpsLimit cf_KDFMemLimit] in *.
  unfold marshal, config_fields. cbn [mbind list_bind].
  repeat first
    [ erewrite unmarshal_string; [|lazy; reflexivity|reflexivity|reflexivity || discriminate]
    | erewrite unmarshal_bool; [|lazy; reflexivity|reflexivity|reflexivity]
    | erewrite unmarshal_uint; [|assumption|lazy; reflexivity|reflexivity|reflexivity] ].
  reflexivity.
Qed.

Section saved.
Context {S : Type} `{SS : SecretStore S, SL : !SecretStoreLaws S, UH : UrlHost, UL : !UrlHostLaws UH}.

(** A process started afterwards: nothing is loaded yet. *)
Definition restart (a : Account S) : Account S := a <| ac_cfg := None |>.

Lemma Get_loaded (a : Account S) c : ac_cfg a = Some c → Get a = (c, a).
Proof using Type. intros H. unfold Get. by rewrite H. Qed.

Lemma Load_cfg (a : Account S) : ∃ c, ac_cfg (Load a) = Some c.
Proof using Type. unfold Load. destruct (loadAPIKey _); by eexists. Qed.

Lemma Get_cfg (a : Account S) : ac_cfg (Get a).2 = Some (Get a).1.
Proof using Type.
  unfold Get. destruct (ac_cfg a) as [c|] eqn:Hc; cbn [fst snd]; [done|].
  destruct (Load_cfg a) as [c Hl]. by rewrite Hl.
Qed.

Lemma Get_Get (a : Account S) : Get (Get a).2 = Get a.
Proof using Type. rewrite (Get_loaded _ _ (Get_cfg a)). by destruct (Get a). Qed.

Lemma next_write_fields (a : Account S) err a' : next_write a = (err, a') →
  ac_cfg a' = ac_cfg a ∧ ac_file a' = ac_file a ∧ ac_secrets a' = ac_secrets a.
Proof using Type. unfold next_write. destruct (ac_io a); intros [= <- <-]; done. Qed.

(** What a successful [Save] leaves: the configuration, the file, and the key in
    one of the two places. *)
Lemma Save_Ok (a a' : Account S) : Save a = (None, a') →
  let c := (Get a).1 in
  ac_cfg a' = Some c ∧
  (cf_APIKey c ≠ "" ∧ loadAPIKey a' = Some (cf_APIKey c) ∧ ac_file a' = FileDoc (marshal (c <| cf_APIKey := "" |>)) ∨
   loadAPIKey a' = loadAPIKey (Get a).2 ∧ ac_file a' = FileDoc (marshal c)) ∧
  ∀ k, k ≠ secretKey a' → GetSecret k (ac_secrets a') = GetSecret k (ac_secrets (Get a).2).
Proof using SL.
  unfold Save. pose proof (Get_cfg a) as Hc. destruct (Get a) as [c a0]. cbn [fst snd] in *. cbv zeta.
  destruct (next_write a0) as [[e|] a1] eqn:H1; [done|]. apply next_write_fields in H1 as (Hc1 & _ & Hs1).
  unfold storeAPIKey. destruct (decide (cf_APIKey c = "")) as [Hk|Hk].
  - destruct (next_write a1) as [[e|] a2] eqn:H2; [done|]. apply next_write_fields in H2 as (Hc2 & _ & Hs2).
    intros [= <-]. unfold loadAPIKey, secretKey. cbn. rewrite Hc2, Hc1, Hs2, Hs1, Hc. naive_solver.
  - unfold set_secret. destruct (SetSecret (secretKey a1) (cf_APIKey c) (ac_secrets a1)) as [ok s] eqn:Hset.
    destruct (next_write (a1 <| ac_secrets := s |>)) as [[e|] a2] eqn:H2; [done|].
    apply next_write_fields in H2 as (Hc2 & _ & Hs2). cbn in Hc2, Hs2.
    intros [= <-].
    assert (∀ a : Account S, ac_cfg a = Some c → secretKey a = secretKeyFor (cf_Endpoint c)) as Hkey
      by (intros x Hx; unfold secretKey; by rewrite Hx).
    rewrite Hkey in Hset by congruence. unfold loadAPIKey. rewrite !Hkey by (cbn; congruence). cbn.
    rewrite Hs2, Hc2, Hc1, Hc. rewrite Hs1 in Hset. split_and!; [done| |].
    + destruct ok; [left|right]; (split_and!; [..|done]); try done.
      * by apply (SetSecret_true _ _ _ _ Hset).
      * by rewrite (SetSecret_false _ _ _ _ Hset).
    + intros k Hne. pose proof (SetSecret_other (secretKeyFor (cf_Endpoint c)) k (cf_APIKey c) (ac_secrets a0) (not_eq_sym Hne)) as Ho.
      by rewrite Hset in Ho.
Qed.

(** A later process loads what was saved; the key comes from the keychain when
    there is one. *)
Lemma Load_Save (a a' : Account S) : Save a = (None, a') → config_ok (Get a).1 →
  ac_cfg (Load a') = Some ((Get a).1 <| cf_APIKey := default (cf_APIKey (Get a).1) (loadAPIKey a') |>).
Proof using SL.
  intros Hs Hok. destruct (Save_Ok a a' Hs) as (Hc & Hfile & _). revert Hc Hfile Hok.
  generalize (Get a).1. intros c Hc Hfile Hok. unfold Load.
  assert (∀ d : Config, cf_Endpoint d = cf_Endpoint c → loadAPIKey (a' <| ac_cfg := Some d |>) = loadAPIKey a') as Hkey.
  { intros d Hd. unfold loadAPIKey, secretKey. cbn. by rewrite Hd, Hc. }
  destruct Hfile as [(_ & Hload & ->)|[_ ->]].
  - rewrite unmarshal_marshal by done. cbv zeta. rewrite Hkey by done. rewrite Hload. by destruct c.
  - rewrite unmarshal_marshal by done. cbv zeta. rewrite Hkey by done. by destruct (loadAPIKey a') as [v|]; destruct c.
Qed.

Lemma Load_restart (a : Account S) : Load (restart a) = Load a.
Proof using Type. done. Qed.

(** An update that succeeds is in the configuration, and in that of a later
    process. *)
Lemma update_Ok f (a a' : Account S) : update f a = (None, a') → config_ok (f (Get a).1) →
  ac_cfg a' = Some (f (Get a).1) ∧ ∃ key, ac_cfg (Load a') = Some ((f (Get a).1) <| cf_APIKey := key |>).
Proof using SL.
  unfold update. destruct (Get a) as [c a0]. cbn [fst]. intros Hs Hok.
  assert (Get (a0 <| ac_cfg := Some (f c) |>) = (f c, a0 <| ac_cfg := Some (f c) |>)) as Hg by done.
  split; [apply Save_Ok in Hs as (-> & _); by rewrite Hg|].
  pose proof (Load_Save _ _ Hs) as Hl. rewrite Hg in Hl. cbn [fst] in Hl. eexists. exact (Hl Hok).
Qed.

(** Nothing fails when no write does. *)
Lemma Save_no_io (a : Account S) : ac_io a = [] → (Save (Get a).2).1 = None.
Proof using Type.
  intros Hio. unfold Save. rewrite Get_Get. assert (ac_io (Get a).2 = []) as H0.
  { unfold Get. destruct (ac_cfg a); [done|]. unfold Load. by destruct (loadAPIKey _). }
  destruct (Get a) as [c a0]. cbn [snd fst] in *. unfold next_write. rewrite H0.
  unfold storeAPIKey, set_secret. case_decide; [by rewrite H0|]. destruct (SetSecret _ _ _) as [ok s]. cbn. by rewrite H0.
Qed.
Lemma update_no_io f (a : Account S) : ac_io a = [] → (update f a).1 = None.
Proof using Type.
  intros Hio. unfold update. pose proof (Get_cfg a) as Hc. assert (ac_io (Get a).2 = []) as H0.
  { unfold Get. destruct (ac_cfg a); [done|]. unfold Load. by destruct (loadAPIKey _). }
  destruct (Get a) as [c a0]. cbn [fst snd] in *. set (b := a0 <| ac_cfg := Some (f c) |>).
  pose proof (Save_no_io b H0) as Hs. by rewrite (Get_loaded b (f c)) in Hs.
Qed.

(** ** The device key *)

Lemma secretKeyFor_bar u : contains_char "|" (secretKeyFor u) = false.
Proof using UL.
  unfold secretKeyFor. destruct (url_Host u) as [h|] eqn:Hh; [|done]. case_decide; [done|]. by apply url_Host_bar in Hh.
Qed.

(** The two secrets of a host never share a name, with those of no host. *)
Lemma secret_keys_apart u v : secretKeyFor u ≠ secretKeyFor v ^^ "|e2ee".
Proof using UL.
  intros He. pose proof (secretKeyFor_bar u) as H. rewrite He, contains_append in H. by apply orb_false_iff in H as [_ ?].
Qed.
Lemma e2ee_keys_inj u v : secretKeyFor u ^^ "|e2ee" = secretKeyFor v ^^ "|e2ee" → secretKeyFor u = secretKeyFor v.
Proof using Type.
  intros H. apply (f_equal String.list_ascii_of_string) in H.
  assert (∀ s t, String.list_ascii_of_string (s ^^ t) = String.list_ascii_of_string s ++ String.list_ascii_of_string t) as Happ
    by (intros s t; induction s as [|c s IH]; simpl; [done|by rewrite IH]).
  rewrite !Happ in H. apply app_inv_tail in H.
  by rewrite <- (String.string_of_list_ascii_of_string (secretKeyFor u)), H, String.string_of_list_ascii_of_string.
Qed.

Lemma secretKey_loaded (a : Account S) c : ac_cfg a = Some c → secretKey a = secretKeyFor (cf_Endpoint c).
Proof using Type. intros H. unfold secretKey. by rewrite H. Qed.

(** Saving touches no secret but the API key's; a [Save] that fails leaves the
    file. *)
Lemma Save_keeps (a a' : Account S) err : Save a = (err, a') →
  ac_cfg a' = Some (Get a).1 ∧ (err ≠ None → ac_file a' = ac_file (Get a).2) ∧
  ∀ k, k ≠ secretKeyFor (cf_Endpoint (Get a).1) → GetSecret k (ac_secrets a') = GetSecret k (ac_secrets (Get a).2).
Proof using SL.
  unfold Save. pose proof (Get_cfg a) as Hc. destruct (Get a) as [c a0]. cbn [fst snd] in *.
  destruct (next_write a0) as [[e|] a1] eqn:H1; apply next_write_fields in H1 as (Hc1 & Hf1 & Hs1);
    [intros [= <- <-]; rewrite Hc1, Hf1, Hs1; by split_and!|].
  destruct (storeAPIKey (cf_APIKey c) a1) as [ok a2] eqn:Hst.
  assert (ac_cfg a2 = Some c ∧ ac_file a2 = ac_file a1 ∧ ∀ k, k ≠ secretKeyFor (cf_Endpoint c) →
    GetSecret k (ac_secrets a2) = GetSecret k (ac_secrets a1)) as (Hc2 & Hf2 & Hs2).
  { unfold storeAPIKey, set_secret in Hst. rewrite (secretKey_loaded a1 c) in Hst by congruence.
    case_decide; [simplify_eq; by rewrite Hc1|].
    match type of Hst with context [SetSecret ?k ?v ?s] => pose proof (λ k' H, SetSecret_other k k' v s H) as Ho;
      destruct (SetSecret k v s) end.
    simplify_eq/=. split_and!; [congruence|done|]. intros k Hk. apply Ho. congruence. }
  destruct (next_write a2) as [[e|] a3] eqn:H3; apply next_write_fields in H3 as (Hc3 & Hf3 & Hs3); intros [= <- <-]; cbn.
  - split_and!; [congruence|congruence|]. intros k Hk. rewrite Hs3, Hs2 by done. by rewrite Hs1.
  - split_and!; [congruence|done|]. intros k Hk. rewrite Hs3, Hs2 by done. by rewrite Hs1.
Qed.

(** The device key a state holds for the host of an endpoint. *)
Definition device_key_at (u : string) (a : Account S) : option bytes :=
  v ← GetSecret (secretKeyFor u ^^ "|e2ee") (ac_secrets a);
  decoded ← hex_decode v;
  if decide (length decoded = 32%nat) then Some decoded else None.

Lemma loadDeviceKey_at (a : Account S) c : ac_cfg a = Some c → loadDeviceKey a = device_key_at (cf_Endpoint c) a.
Proof using Type. intros H. unfold loadDeviceKey, e2eeSecretKey. by rewrite (secretKey_loaded _ _ H). Qed.

Lemma storeDeviceKey_load k (a a' : Account S) : storeDeviceKey k a = (true, a') →
  loadDeviceKey a' = Some k ∧ ac_cfg a' = ac_cfg a ∧ ac_file a' = ac_file a ∧ ac_io a' = ac_io a.
Proof using SL.
  unfold storeDeviceKey, set_secret. case_decide as Hk; [done|].
  destruct (SetSecret (e2eeSecretKey a) (hex_encode k) (ac_secrets a)) as [ok s] eqn:Hs. intros [= -> <-].
  apply SetSecret_true in Hs. split; [|done]. unfold loadDeviceKey, e2eeSecretKey, secretKey in *. cbn in *.
  rewrite Hs. cbn. rewrite hex_decode_encode. cbn. rewrite decide_True; [done|]. by destruct (decide (length k = 32%nat)).
Qed.

Lemma Save_device_key u (a a' : Account S) err : Save a = (err, a') → device_key_at u a' = device_key_at u (Get a).2.
Proof using SL UL.
  intros H. apply Save_keeps in H as (_ & _ & H). unfold device_key_at. rewrite H; [done|].
  intros Hk. symmetry in Hk. by apply secret_keys_apart in Hk.
Qed.

Lemma update_device_key f u (a a' : Account S) err : ac_cfg a ≠ None → update f a = (err, a') →
  device_key_at u a' = device_key_at u a.
Proof using SL UL.
  unfold update. destruct (ac_cfg a) as [c|] eqn:Hc; [|done]. intros _ H. rewrite (Get_loaded _ _ Hc) in H.
  by apply (Save_device_key u) in H.
Qed.

(** The configuration after a failed change of endpoint: the file is the old one,
    the device key and the API key of its host are gone. *)
Lemma SetEndpoint_Err `{DL : !SecretStoreDeletes S} endpoint (a a' : Account S) err :
  SetEndpoint endpoint a = (Some err, a') → secretKeyFor (cf_Endpoint (Get a).1) ≠ secretKeyFor endpoint →
  ac_file a' = ac_file (Get a).2 ∧ device_key_at (cf_Endpoint (Get a).1) a' = None ∧
  GetSecret (secretKeyFor (cf_Endpoint (Get a).1)) (ac_secrets a') = None.
Proof using SL UL.
  unfold SetEndpoint. pose proof (Get_cfg a) as Hc. destruct (Get a) as [c a0]. cbn [fst snd] in *. intros H Hne.
  destruct (decide _) as [|_]; [done|]. cbv zeta in H.
  match type of H with context [Save ?x] => destruct (Save x) as [o a1] eqn:Hs; set (b := x) in * end.
  assert (err = err ∧ o = Some err ∧ a' = a1) as (_ & -> & ->) by (by destruct o; [|destruct (loadDeviceKey a0)]; simplify_eq).
  pose proof (Save_device_key (cf_Endpoint c) _ _ _ Hs) as Hd. apply Save_keeps in Hs as (_ & Hf & Hsec).
  rewrite (Get_loaded b (c <| cf_Endpoint := endpoint |>)) in Hd, Hf, Hsec by done. cbn [fst snd] in Hd, Hf, Hsec. split_and!.
  - rewrite Hf by done. done.
  - rewrite Hd. unfold device_key_at, b, deleteDeviceKey, e2eeSecretKey, deleteAPIKey. cbn.
    unfold secretKey at 1. cbn. rewrite Hc. by rewrite DeleteSecret_same.
  - rewrite Hsec by done. unfold b, deleteDeviceKey, e2eeSecretKey, deleteAPIKey, secretKey. cbn. rewrite Hc.
    rewrite DeleteSecret_other by (intros Hk; symmetry in Hk; by apply secret_keys_apart in Hk). apply DeleteSecret_same.
Qed.

(** A successful change keeps the device key under the new host, unless the
    keychain refuses it. *)
Lemma SetEndpoint_Ok endpoint (a a' : Account S) k :
  SetEndpoint endpoint a = (None, a') → loadDeviceKey (Get a).2 = Some k →
  cf_Endpoint (Get a').1 = endpoint ∧
  (loadDeviceKey a' = Some k ∨
   ∃ b, (storeDeviceKey k b).1 = false ∧ a' = (storeDeviceKey k b).2).
Proof using SL UL.
  unfold SetEndpoint. pose proof (Get_cfg a) as Hc. destruct (Get a) as [c a0]. cbn [fst snd] in *. intros H Hk.
  case_decide as He.
  - pose proof (Save_device_key (cf_Endpoint c) _ _ _ H) as Hd. apply Save_keeps in H as (Hc' & _).
    rewrite (Get_loaded _ (c <| cf_Endpoint := endpoint |>)) in Hd, Hc' by done. cbn [fst snd] in Hd, Hc'.
    rewrite (Get_loaded _ _ Hc'). split; [done|]. left. rewrite (loadDeviceKey_at _ _ Hc').
    rewrite (loadDeviceKey_at _ _ Hc) in Hk. rewrite <- Hk. cbn. unfold device_key_at in *. rewrite <- He. by rewrite Hd.
  - rewrite Hk in H. match type of H with context [Save ?x] => destruct (Save x) as [[e|] a1] eqn:Hs; [done|] end.
    apply Save_keeps in Hs as (Hc1 & _). erewrite (Get_loaded _ (c <| cf_Endpoint := endpoint |>)) in Hc1 by done.
    cbn [fst] in Hc1. injection H as <-.
    destruct (storeDeviceKey k a1) as [[] a2] eqn:Hst.
    + destruct (storeDeviceKey_load _ _ _ Hst) as (Hl & Hc2 & _). cbn [snd].
      rewrite (Get_loaded a2 (c <| cf_Endpoint := endpoint |>)) by congruence. split; [done|by left].
    + split; [|right; exists a1; by rewrite Hst].
      assert (ac_cfg a2 = ac_cfg a1) as Hc2.
      { unfold storeDeviceKey, set_secret in Hst. case_decide; [by simplify_eq|]. destruct (SetSecret _ _ _). by simplify_eq. }
      cbn [snd]. by rewrite (Get_loaded a2 (c <| cf_Endpoint := endpoint |>)) by congruence.
Qed.
End saved.
