(* ===== verification/Session.v ===== *)
(** * Accounts and sessions

    [internal/e2ee]: [setup.go], [session.go], [background_unlock.go] and the
    part of [e2ee.go] that holds the keys of an account.  A [Session] caches the
    keys it unlocks from the agent, from the device key in the keychain or from
    the password; an operation is what runs under [Session.mu].  Key sets are
    values: the session hands out clones and zeroes only its own copies. *)
From S2P Require Import Prelude GoLib GoFmt ApiErrors Crypto Hybrid Sign FileCrypt Names PinStore Config.
Local Open Scope Z_scope.

(** ** Errors *)

Definition fault (message : string) (cause : error) : error := ErrWrap message cause.
Definition ErrNoEncryptionKeys : error := ErrText "No encryption keys configured. Run 'pc li' to set up encryption.".
Definition ErrDeviceKeysLost : error :=
  ErrText "Encryption keys unavailable (device keychain locked or reset). Run 'pc login' again.".
Definition ErrKeysLocked : error := ErrText "Keys are locked. Run 'pc uk' to unlock.".
Definition ErrWrongPassword : error := ErrText "Wrong password".
Definition ErrNoSigningKeys : error :=
  ErrText "Signing keys not configured for this account. Open the web app to complete E2EE setup.".
Definition ErrSigningUnlockFailed : error :=
  ErrText "Failed to unlock signing keys. Re-run 'pc uk' to refresh, then retry.".
Definition ErrScannerUnreachable : error := ErrText "Security scanner is not reachable. Please try again shortly.".
Definition ErrNoKeychainForDevice : error := ErrText "no OS keychain available to hold the device key".
Definition ErrBackgroundKeysIncomplete : error :=
  ErrText "Background key material is incomplete. Re-enrol this device from the web app.".
Definition ErrBackgroundUploadOnly : error :=
  ErrText "This device holds upload-only keys. Decryption needs the account password.".

(** ** State *)

(** What [KeyAgent.Keys()] gives; an absent signing key is empty. *)
Record AgentKeys : Type := mkAgentKeys {
  ak_PublicKey : bytes; ak_PrivateKey : bytes; ak_KyberPublicKey : bytes; ak_KyberSeed : bytes; ak_NameKey : bytes;
  ak_SigningPublicKeyEd25519 : bytes; ak_SigningPrivateKeyEd25519 : bytes;
  ak_SigningPublicKeyMldsa : bytes; ak_SigningPrivateKeyMldsa : bytes }.

Record Session : Type := mkSession {
  ss_supplied : option bytes;
  ss_pub : option PublicKeySet; ss_priv : option PrivateKeySet;
  ss_nameKey : option bytes; ss_parentKey : option bytes; ss_background : bool;
  ss_signingPub : option SigningPublicKeySet; ss_signingPriv : option SigningPrivateKeySet }.
#[export] Instance eta_Session : Eta Session := λ s,
  mkSession (ss_supplied s) (ss_pub s) (ss_priv s) (ss_nameKey s) (ss_parentKey s) (ss_background s)
    (ss_signingPub s) (ss_signingPriv s).
Definition NewSession : Session := mkSession None None None None None false None None.

(** What an operation sees: the configuration, the device key of the keychain,
    the keys of a running agent, and what the prompter would answer ([None]: no
    prompter is installed). *)
Record View : Type := mkView {
  vw_cfg : Config; vw_deviceKey : option bytes; vw_agent : option AgentKeys;
  vw_prompter : option (result error (option bytes)) }.
Definition view_of {S : Type} `{SecretStore S, UrlHost} (a : Account S) (agent : option AgentKeys)
    (prompter : option (result error (option bytes))) : View :=
  let '(c, a) := Get a in mkView c (LoadE2EEDeviceKey a) agent prompter.

Definition illegal_base64 : error := ErrText "illegal base64 data".
Definition decode_field (label s : string) : result error bytes :=
  match base64_decode s with Some b => Ok b | None => Err (ErrWrap label illegal_base64) end.

Definition decodePublicKeySet (cfg : Config) : result error PublicKeySet :=
  match base64_decode (cf_PublicKey cfg) with
  | None => Err (ErrText "invalid x25519 pubkey")
  | Some xBytes =>
      _ ← ensure (length xBytes = 32%nat) "invalid x25519 pubkey";
      match base64_decode (cf_PublicKeyKyber cfg) with
      | None => Err (ErrText "invalid kyber pubkey")
      | Some kBytes =>
          _ ← ensure (length kBytes = KyberPublicKeySize) "invalid kyber pubkey";
          Ok (mkPublicKeySet xBytes kBytes)
      end
  end.

Definition decodeEncryptedHybridFromConfig (cfg : Config) : result error EncryptedHybridPrivateKey :=
  xCT ← decode_field "encrypted_private_key" (cf_EncryptedPrivateKey cfg);
  xN ← decode_field "private_key_nonce" (cf_PrivateKeyNonce cfg);
  kCT ← decode_field "encrypted_private_key_kyber" (cf_EncryptedPrivateKeyKyber cfg);
  kN ← decode_field "private_key_kyber_nonce" (cf_PrivateKeyKyberNonce cfg);
  salt ← decode_field "kdf_salt" (cf_KDFSalt cfg);
  Ok (mkEncryptedHybridPrivateKey xCT xN kCT kN salt (cf_KDFOpsLimit cfg) (cf_KDFMemLimit cfg)).

Definition readPassword (v : View) (s : Session) : result error (option bytes) * Session :=
  match ss_supplied s with
  | Some pw => (Ok (Some pw), s <| ss_supplied := None |>)
  | None => match vw_prompter v with None => (Ok None, s) | Some answer => (answer, s) end
  end.
Definition SetSuppliedPassword (pw : option bytes) (s : Session) : Session := s <| ss_supplied := pw |>.

(** ** Signing keys *)

Definition agent_signs (keys : AgentKeys) : Prop :=
  length (ak_SigningPublicKeyEd25519 keys) = Ed25519PKSize ∧ length (ak_SigningPrivateKeyEd25519 keys) = Ed25519SKSize ∧
  length (ak_SigningPublicKeyMldsa keys) = Mldsa44PKSize ∧ length (ak_SigningPrivateKeyMldsa keys) = Mldsa44SKSize.
#[export] Instance agent_signs_dec keys : Decision (agent_signs keys).
Proof. unfold agent_signs. apply _. Defined.

Definition hydrateSigningFromAgent (keys : AgentKeys) (s : Session) : Session :=
  if decide (agent_signs keys) then
    s <| ss_signingPub := Some (mkSigningPublicKeySet (ak_SigningPublicKeyEd25519 keys) (ak_SigningPublicKeyMldsa keys)) |>
      <| ss_signingPriv := Some (mkSigningPrivateKeySet (ak_SigningPrivateKeyEd25519 keys) (ak_SigningPrivateKeyMldsa keys)) |>
  else s.

Section session.
Context `{U : Unicode, BL : Blake2b, A : AEAD, X : X25519, K : MLKEM, HK : Hkdf, AR : Argon2, E : Ed25519, M : MLDSA,
  SS : Sha256Sum, SH : Sha256, HM : Hmac, FC : FileChunkSize}.

(** The signing keys of the configuration, opened with a key. *)
Definition signing_from_config (cfg : Config) (pdk : bytes) : option (SigningPublicKeySet * SigningPrivateKeySet) :=
  if has_signing_keys cfg then
    pubEd ← base64_decode (cf_SigningPublicKeyEd25519 cfg);
    if decide (length pubEd = Ed25519PKSize) then
      pubMl ← base64_decode (cf_SigningPublicKeyMldsa cfg);
      if decide (length pubMl = Mldsa44PKSize) then
        edCT ← base64_decode (cf_EncryptedSigningPrivateKeyEd25519 cfg);
        edNonce ← base64_decode (cf_SigningPrivateKeyEd25519Nonce cfg);
        mlCT ← base64_decode (cf_EncryptedSigningPrivateKeyMldsa cfg);
        mlNonce ← base64_decode (cf_SigningPrivateKeyMldsaNonce cfg);
        match DecryptSigningPrivateKeys (Some (mkEncryptedSigningPrivateKeySet edCT edNonce mlCT mlNonce)) pdk with
        | Ok priv => Some (mkSigningPublicKeySet pubEd pubMl, priv)
        | Err _ => None
        end
      else None
    else None
  else None.
Definition hydrateSigningFromConfigWithPDK (cfg : Config) (pdk : bytes) (s : Session) : Session :=
  match signing_from_config cfg pdk with
  | Some (pub, priv) => s <| ss_signingPub := Some pub |> <| ss_signingPriv := Some priv |>
  | None => s
  end.

(** ** The key pair *)

Definition agent_private (keys : AgentKeys) : PrivateKeySet := mkPrivateKeySet (ak_PrivateKey keys) (ak_KyberSeed keys).
Definition agent_public (keys : AgentKeys) : PublicKeySet := mkPublicKeySet (ak_PublicKey keys) (ak_KyberPublicKey keys).

(** With the device key. *)
Definition unlock_device (v : View) (pub : PublicKeySet) (s : Session)
    : result error (PublicKeySet * PrivateKeySet) * Session :=
  match vw_deviceKey v with
  | Some deviceKey =>
      match decodeEncryptedHybridFromConfig (vw_cfg v) with
      | Ok enc =>
          match DecryptHybridPrivateKeyWithRawKey enc deviceKey with
          | Ok priv => (Ok (pub, priv), hydrateSigningFromConfigWithPDK (vw_cfg v) deviceKey
                          (s <| ss_pub := Some pub |> <| ss_priv := Some priv |>))
          | Err _ => (Err ErrDeviceKeysLost, s)
          end
      | Err _ => (Err ErrDeviceKeysLost, s)
      end
  | None => (Err ErrDeviceKeysLost, s)
  end.

(** With the password. *)
Definition unlock_password (v : View) (pub : PublicKeySet) (s : Session)
    : result error (PublicKeySet * PrivateKeySet) * Session :=
  let cfg := vw_cfg v in
  match decodeEncryptedHybridFromConfig cfg with
  | Err e => (Err (fault "Invalid encrypted key material in config" e), s)
  | Ok enc =>
      let '(pw, s) := readPassword v s in
      match pw with
      | Err e => (Err (fault "Failed to read password" e), s)
      | Ok None => (Err ErrKeysLocked, s)
      | Ok (Some pw) =>
          match base64_decode (cf_KDFSalt cfg) with
          | None => (Err (fault "Invalid KDF salt in config" illegal_base64), s)
          | Some salt =>
              let pdk := DeriveKey pw salt (cf_KDFOpsLimit cfg) (cf_KDFMemLimit cfg) in
              match DecryptHybridPrivateKeyWithRawKey enc pdk with
              | Err _ => (Err ErrWrongPassword, s)
              | Ok priv => (Ok (pub, priv), hydrateSigningFromConfigWithPDK cfg pdk
                              (s <| ss_pub := Some pub |> <| ss_priv := Some priv |>))
              end
          end
      end
  end.

Definition keyPairLocked (v : View) (s : Session) : result error (PublicKeySet * PrivateKeySet) * Session :=
  if ss_background s then (Err ErrBackgroundUploadOnly, s)
  else if negb (has_encryption_keys (vw_cfg v)) then (Err ErrNoEncryptionKeys, s)
  else match ss_pub s, ss_priv s with
  | Some pub, Some priv => (Ok (pub, priv), s)
  | _, _ =>
      match decodePublicKeySet (vw_cfg v) with
      | Err e => (Err (fault "Invalid public key in config" e), s)
      | Ok pub =>
          match vw_agent v with
          | Some keys =>
              let priv := agent_private keys in
              (Ok (pub, priv), hydrateSigningFromAgent keys
                 (s <| ss_pub := Some pub |> <| ss_priv := Some priv |> <| ss_nameKey := Some (ak_NameKey keys) |>))
          | None =>
              if decide (cf_E2EEStorageMode (vw_cfg v) = "device") then unlock_device v pub s
              else unlock_password v pub s
          end
      end
  end.
Definition KeyPair : View → Session → result error (PublicKeySet * PrivateKeySet) * Session := keyPairLocked.

Definition publicKeyLocked (v : View) (s : Session) : result error PublicKeySet * Session :=
  match ss_pub s with
  | Some pub => (Ok pub, s)
  | None =>
      if decide (cf_PublicKey (vw_cfg v) = "" ∨ cf_PublicKeyKyber (vw_cfg v) = "") then (Err ErrNoEncryptionKeys, s)
      else match decodePublicKeySet (vw_cfg v) with
           | Err e => (Err (fault "Invalid public key in config" e), s)
           | Ok pub => (Ok pub, s <| ss_pub := Some pub |>)
           end
  end.
Definition PublicKey : View → Session → result error PublicKeySet * Session := publicKeyLocked.

Definition HasE2EEKeys (v : View) : bool := has_encryption_keys (vw_cfg v).

Definition ensureKeysFromAgentLocked (v : View) (s : Session) : bool * Session :=
  match ss_priv s with
  | Some _ => (true, s)
  | None =>
      match vw_agent v with
      | None => (false, s)
      | Some keys =>
          let s := s <| ss_priv := Some (agent_private keys) |> in
          let s := match ss_pub s with None => s <| ss_pub := Some (agent_public keys) |> | Some _ => s end in
          (true, hydrateSigningFromAgent keys (s <| ss_nameKey := Some (ak_NameKey keys) |>))
      end
  end.

Definition ClearCachedKey (s : Session) : Session := NewSession <| ss_supplied := ss_supplied s |>.

Definition hasKeysLocked (v : View) (s : Session) : bool := ss_background s || HasE2EEKeys v.

Definition signingKeysLocked (v : View) (s : Session) : result error (SigningPublicKeySet * SigningPrivateKeySet) * Session :=
  match ss_signingPub s, ss_signingPriv s with
  | Some pub, Some priv => (Ok (pub, priv), s)
  | _, _ =>
      if negb (has_signing_keys (vw_cfg v)) then (Err ErrNoSigningKeys, s)
      else
        let '(r, s) := keyPairLocked v s in
        match r with
        | Err e => (Err e, s)
        | Ok _ =>
            match ss_signingPub s, ss_signingPriv s with
            | Some pub, Some priv => (Ok (pub, priv), s)
            | _, _ => (Err ErrSigningUnlockFailed, s)
            end
        end
  end.
Definition SigningKeys : View → Session → result error (SigningPublicKeySet * SigningPrivateKeySet) * Session := signingKeysLocked.

Definition signingKeysIfAvailableLocked (v : View) (s : Session)
    : option SigningPublicKeySet * option SigningPrivateKeySet * Session :=
  match ss_signingPub s, ss_signingPriv s with
  | Some pub, Some priv => (Some pub, Some priv, s)
  | _, _ =>
      if negb (has_signing_keys (vw_cfg v)) then (None, None, s)
      else let '(_, s) := keyPairLocked v s in (ss_signingPub s, ss_signingPriv s, s)
  end.

(** ** Derived keys *)

Definition derived (get : Session → option bytes) (set : bytes → Session → Session)
    (derive : PrivateKeySet → result error bytes) (message : string) (v : View) (s : Session)
    : result error bytes * Session :=
  match get s with
  | Some k => (Ok k, s)
  | None =>
      let '(r, s) := keyPairLocked v s in
      match r with
      | Err e => (Err e, s)
      | Ok (_, priv) =>
          match derive priv with
          | Err e => (Err (fault message e), s)
          | Ok k => (Ok k, set k s)
          end
      end
  end.
Definition parentKeyLocked : View → Session → result error bytes * Session :=
  derived ss_parentKey (λ k s, s <| ss_parentKey := Some k |>) DeriveParentKey "Failed to derive parent key".
Definition nameKeyLocked : View → Session → result error bytes * Session :=
  derived ss_nameKey (λ k s, s <| ss_nameKey := Some k |>) DeriveNameKey "Failed to derive name key".

(** ** Names and tokens *)

(** An operation of a session that may fail, and their composition. *)
Definition op (T : Type) : Type := Session → result error T * Session.
Definition op_bind {T T'} (m : op T) (k : T → op T') : op T' := λ s,
  let '(r, s) := m s in match r with Ok a => k a s | Err e => (Err e, s) end.
Definition op_lift {T} (r : result error T) : op T := λ s, (r, s).
Local Notation "x <-- m ;; k" := (op_bind m (λ x, k)) (at level 100, m at next level, right associativity).

Definition on_error (message : string) {T} (r : result error T) : result error T :=
  match r with Ok a => Ok a | Err e => Err (fault message e) end.

(** The randomness a sealing draws: ephemeral key, encapsulation, nonce. *)
Definition randomness : Type := bytes * bytes * bytes.
Definition seal_name (rnd : randomness) (name : string) (pub : PublicKeySet) : result error bytes :=
  let '(eph, kem, nonce) := rnd in SealDisplayName (String.list_byte_of_string name) (Some pub) eph kem nonce.

Definition AddE2eeNameFields (v : View) (rnd : randomness) (options : gmap string string) (fileName fullPath : string)
    : op (gmap string string) := λ s,
  if negb (hasKeysLocked v s) then (Ok options, s) else
  (pub <-- publicKeyLocked v;;
   nameKey <-- nameKeyLocked v;;
   sealedName <-- op_lift (on_error "Failed to seal display name" (seal_name rnd fileName pub));;
   pathToken <-- op_lift (on_error "Failed to compute path token" (ComputePathToken nameKey fullPath));;
   op_lift (Ok (<["e2ee_path_token" := hex_encode pathToken]>
               (<["e2ee_display_name" := base64_encode sealedName]> options)))) s.

(** [json.Marshal] of the segments: nothing in base64 or hexadecimal is escaped. *)
Definition quoted (s : string) : string := String.String quote (s ^^ String.String quote "").
Definition segment_json (displayName pathToken : string) : string :=
  "{" ^^ quoted "e2ee_display_name" ^^ ":" ^^ quoted displayName ^^ "," ^^
  quoted "e2ee_path_token" ^^ ":" ^^ quoted pathToken ^^ "}".
Definition segments_json (l : list (string * string)) : string :=
  "[" ^^ join_with "," ((λ p, segment_json p.1 p.2) <$> l) ^^ "]".

(** The segments of a path from its first; one that cannot be sealed is skipped. *)
Fixpoint mk_segments (rnd : nat → randomness) (pub : PublicKeySet) (nameKey : bytes) (i : nat) (currentPath : string)
    (parts : list string) : list (string * string) :=
  match parts with
  | [] => []
  | part :: rest =>
      let currentPath := if decide (currentPath = "") then part else currentPath ^^ "/" ^^ part in
      let segments := mk_segments rnd pub nameKey (S i) currentPath rest in
      match seal_name (rnd i) part pub, ComputePathToken nameKey currentPath with
      | Ok sealedName, Ok pathToken => (base64_encode sealedName, hex_encode pathToken) :: segments
      | _, _ => segments
      end
  end.
Definition AddE2eeNameFieldsForMkParents (v : View) (rnd : nat → randomness) (options : gmap string string)
    (pathSegments : list string) : op (gmap string string) := λ s,
  if negb (hasKeysLocked v s) then (Ok options, s) else
  (pub <-- publicKeyLocked v;;
   nameKey <-- nameKeyLocked v;;
   let segments := mk_segments rnd pub nameKey 0 "" pathSegments in
   op_lift (Ok (if decide (segments = []) then options
                else <["e2ee_path_segments" := segments_json segments]> options))) s.

Definition encrypted_name : string := "(encrypted)".
Definition unsealed_name (sealed : bytes) (priv : PrivateKeySet) : string :=
  match UnsealDisplayName sealed (Some priv) with
  | Ok name => String.string_of_list_byte name
  | Err _ => encrypted_name
  end.
Definition DecryptE2EEName (v : View) (e2eeDisplayNameB64 : string) (s : Session) : string * Session :=
  if bool_decide (e2eeDisplayNameB64 = "") || negb (HasE2EEKeys v) then (encrypted_name, s) else
  match base64_decode e2eeDisplayNameB64 with
  | None => (encrypted_name, s)
  | Some sealed =>
      match ss_priv s with
      | Some priv => (unsealed_name sealed priv, s)
      | None =>
          match vw_agent v with
          | Some keys =>
              let priv := agent_private keys in
              let s := s <| ss_priv := Some priv |> in
              let s := match ss_pub s with None => s <| ss_pub := Some (agent_public keys) |> | Some _ => s end in
              (unsealed_name sealed priv, s <| ss_nameKey := Some (ak_NameKey keys) |>)
          | None => (encrypted_name, s)
          end
      end
  end.

Section tokens.
Variable json_marshal : gmap string string → option string.
Definition computePathTokenMapsLocked (v : View) (paths : list string) : op (string * string) := λ s,
  if negb (HasE2EEKeys v) || bool_decide (paths = []) then (Ok ("", ""), s) else
  let cleaned := replace_all backslash slash <$> paths in
  (nameKey <-- nameKeyLocked v;; op_lift (Ok (PathTokenOptionJSON json_marshal nameKey cleaned))) s.
Definition addPathTokensLocked (v : View) (options : gmap string string) (paths : list string) : op (gmap string string) :=
  maps <-- computePathTokenMapsLocked v paths;;
  let '(canonicalJSON, legacyJSON) := maps in
  let options := if decide (canonicalJSON ≠ "") then <["path_tokens" := canonicalJSON]> options else options in
  op_lift (Ok (if decide (legacyJSON ≠ "") then <["path_tokens_legacy" := legacyJSON]> options else options)).
Definition AddPathTokensForAll (v : View) (options : gmap string string) (remotePaths : list string) (depth : PathTokenDepth)
    : op (gmap string string) := λ s,
  if negb (HasE2EEKeys v) then (Ok options, s)
  else addPathTokensLocked v options (remotePaths ≫= λ p, PathTokenPaths p depth) s.
End tokens.

Definition SealedRootParentB64 (nodeIDHex : string) (parentKey nonce : bytes) : string :=
  match hex_decode nodeIDHex with
  | None => ""
  | Some nodeID =>
      if decide (length parentKey = 0%nat) then ""
      else match SealParentRef [] nodeID parentKey nonce with Ok blob => base64_encode blob | Err _ => "" end
  end.

(** ** Uploads *)

Record UploadArtifacts : Type := mkUploadArtifacts {
  ua_Encrypted : bytes; ua_SealedKeyB64 : string; ua_EncMetaB64 : string; ua_TeeSealedKeyB64 : string;
  ua_PlaintextHmacHex : string; ua_TeeKeySet : option PublicKeySet }.
Record UploadSignatures : Type := mkUploadSignatures {
  us_SignatureEd25519B64 : string; us_SignatureMldsaB64 : string; us_SigningPkEd25519B64 : string; us_SigningPkMldsaB64 : string }.

(** What the system, the scanner and the generator of random numbers give. *)
Record upload_env : Type := mkUploadEnv {
  ue_temp : option error; ue_input : result error source; ue_create : option error; ue_room : nat;
  ue_dataKey : bytes; ue_fileNonce : bytes; ue_rand : nat → randomness;
  ue_meta_json : EncryptionMetadata → result error bytes;
  ue_teeKeys : option PublicKeySet; ue_disabled : bool; ue_refusal : option error; ue_ctx : option error }.

Definition ErrScannerRefusedUpload (refusal : error) : error := fault "Security scanner refused" refusal.

(** The refusal without keys of the enclave. *)
Definition tee_refusal (ue : upload_env) : error :=
  match ue_ctx ue with
  | Some e => e
  | None => match ue_refusal ue with Some refusal => ErrScannerRefusedUpload refusal | None => ErrScannerUnreachable end
  end.

Definition seal_key (rnd : randomness) (dataKey : bytes) (pub : PublicKeySet) : result error bytes :=
  let '(eph, kem, nonce) := rnd in SealDataKey dataKey (Some pub) eph kem nonce.

(** [EncryptForUpload]: the artifacts, and what is left of the temporary file. *)
Definition EncryptForUpload (v : View) (ue : upload_env) (s : Session) : result error UploadArtifacts * option bytes * Session :=
  let '(r, s) := publicKeyLocked v s in
  match r with
  | Err e => (Err e, None, s)
  | Ok pub =>
  match ue_temp ue with
  | Some e => (Err (fault "Failed to create temp file" e), None, s)
  | None =>
  let dataKey := ue_dataKey ue in
  let '(enc, encrypted) := EncryptFile (ue_input ue) (ue_create ue) (ue_room ue) dataKey (ue_fileNonce ue) in
  match enc with
  | Err e => (Err (fault "Failed to encrypt file" e), None, s)
  | Ok meta =>
  match seal_key (ue_rand ue 0) dataKey pub with
  | Err e => (Err (fault "Failed to seal data key" e), None, s)
  | Ok sealedKey =>
  match ue_meta_json ue (WireJSON meta) with
  | Err e => (Err (fault "Failed to encode encryption metadata" e), None, s)
  | Ok metaJSON =>
  if bool_decide (ue_teeKeys ue = None) && negb (ue_disabled ue) then (Err (tee_refusal ue), None, s) else
  let teeSealed := match ue_teeKeys ue with
                   | None => Ok ""
                   | Some teeKeys => teeSealed ← on_error "Failed to seal data key to enclave" (seal_key (ue_rand ue 1) dataKey teeKeys);
                                     Ok (base64_encode teeSealed)
                   end in
  match teeSealed with
  | Err e => (Err e, None, s)
  | Ok teeSealedB64 =>
  let '(nameKey, s) := nameKeyLocked v s in
  match nameKey with
  | Err e => (Err e, None, s)
  | Ok nameKey =>
      let hmacHex := match ComputePlaintextHmac (PlaintextSHA256 meta) nameKey with Ok h => h | Err _ => "" end in
      (Ok (mkUploadArtifacts encrypted (base64_encode sealedKey) (base64_encode metaJSON) teeSealedB64 hmacHex (ue_teeKeys ue)),
       Some encrypted, s)
  end end end end end end end.

Definition SignEncryptedFile (v : View) (encrypted : result error reader) : op UploadSignatures :=
  keys <-- signingKeysLocked v;;
  let '(signPub, signPriv) := keys in
  f <-- op_lift (on_error "Failed to open encrypted file for signing" encrypted);;
  sigs <-- op_lift (on_error "Failed to sign encrypted file" (SignFileBytes f (Some signPriv)));;
  let '(sigEd, sigMldsa) := sigs in
  op_lift (Ok (mkUploadSignatures (base64_encode sigEd) (base64_encode sigMldsa)
                 (base64_encode (spk_Ed25519 signPub)) (base64_encode (spk_Mldsa signPub)))).

(** ** Background keys *)

Definition BackgroundKeyTransferVersion : byte := x02.
Definition BackgroundKeyTransferSize : nat :=
  (1 + NameKeySize + NameKeySize + Ed25519SKSize + Mldsa44SKSize + 32 + KyberPublicKeySize)%nat.

Record BackgroundKeyMaterial : Type := mkBackgroundKeyMaterial {
  bm_NameKey : bytes; bm_ParentKey : bytes; bm_SigningPriv : option SigningPrivateKeySet;
  bm_SigningPub : option SigningPublicKeySet; bm_Pub : option PublicKeySet }.

(** [payload[off:off+n]] and the offset after it. *)
Definition cut (off n : nat) (payload : bytes) : bytes * nat := (take n (drop off payload), (off + n)%nat).
Definition ParseBackgroundKeyTransfer (payload : bytes) : result error BackgroundKeyMaterial :=
  _ ← ensure (¬ ((0 < length payload)%nat ∧ head payload = Some DeviceKeyTransferVersion))
        "background transfer: refusing a device-login payload; the background set must not carry the X25519 secret or the ML-KEM seed";
  _ ← ensure (length payload = BackgroundKeyTransferSize)
        ("background transfer: expected " ^^ fmt_d (Z.of_nat BackgroundKeyTransferSize) ^^ " bytes, got " ^^
         fmt_d (Z.of_nat (length payload)));
  let version := default x00 (head payload) in
  _ ← ensure (version = BackgroundKeyTransferVersion)
        ("background transfer: unsupported version " ^^ fmt_d (Z_of_byte version));
  let '(nameKey, off) := cut 1 NameKeySize payload in
  let '(parentKey, off) := cut off NameKeySize payload in
  let '(edSK, off) := cut off Ed25519SKSize payload in
  let '(mldsaSK, off) := cut off Mldsa44SKSize payload in
  let '(x25519Pub, off) := cut off 32 payload in
  let '(kyberPub, _) := cut off KyberPublicKeySize payload in
  let signPriv := mkSigningPrivateKeySet edSK mldsaSK in
  match DeriveSigningPublic (Some signPriv) with
  | Err e => Err (ErrWrap "background transfer" e)
  | Ok signPub => Ok (mkBackgroundKeyMaterial nameKey parentKey (Some signPriv) (Some signPub)
                        (Some (mkPublicKeySet x25519Pub kyberPub)))
  end.

Definition UnlockBackground (material : option BackgroundKeyMaterial) (s : Session) : option error * Session :=
  match material with
  | Some (mkBackgroundKeyMaterial nameKey parentKey (Some signPriv) (Some signPub) (Some pub)) =>
      if decide (length nameKey = NameKeySize ∧ length parentKey = NameKeySize ∧ length (pk_Kyber pub) = KyberPublicKeySize)
      then (None, s <| ss_priv := None |> <| ss_pub := Some pub |> <| ss_nameKey := Some nameKey |>
                    <| ss_parentKey := Some parentKey |> <| ss_signingPriv := Some signPriv |>
                    <| ss_signingPub := Some signPub |> <| ss_background := true |>)
      else (Some ErrBackgroundKeysIncomplete, s)
  | _ => (Some ErrBackgroundKeysIncomplete, s)
  end.
Definition IsBackground (s : Session) : bool := ss_background s.
End session.

(** ** Setting up an account *)

(** What the generator of random numbers gives [NewAccountKeys]. *)
Record account_randomness : Type := mkAccountRandomness {
  ar_x25519 : bytes; ar_seed : bytes; ar_salt : bytes; ar_xNonce : bytes; ar_kNonce : bytes;
  ar_recoveryKey : bytes; ar_rxNonce : bytes; ar_rkNonce : bytes; ar_edSeed : bytes; ar_mlRand : bytes;
  ar_edNonce : bytes; ar_mlNonce : bytes; ar_redNonce : bytes; ar_rmlNonce : bytes }.

Record AccountKeys : Type := mkAccountKeys {
  nk_Params : gmap string string; nk_Public : PublicKeySet; nk_Wrapped : EncryptedHybridPrivateKey;
  nk_SigningPublic : SigningPublicKeySet; nk_SigningWrapped : EncryptedSigningPrivateKeySet; nk_RecoveryKey : bytes }.

Section setup.
Context `{A : AEAD, X : X25519, K : MLKEM, HK : Hkdf, AR : Argon2, E : Ed25519, M : MLDSA, SS : Sha256Sum}.

(** The text of the signature over a published bundle. *)
Definition bundle_json (sigEd sigMl : bytes) : string :=
  "{" ^^ quoted "sig_ed" ^^ ":" ^^ quoted (base64_encode sigEd) ^^ "," ^^
  quoted "sig_ml" ^^ ":" ^^ quoted (base64_encode sigMl) ^^ "," ^^ quoted "v" ^^ ":1}".
Definition KeyBundleSig (pub : PublicKeySet) (signPub : SigningPublicKeySet) (signPriv : SigningPrivateKeySet)
    : result error string :=
  sigs ← SignKeyBundle (mkKeyBundle (pk_X25519 pub) (pk_Kyber pub) (spk_Ed25519 signPub) (spk_Mldsa signPub)) (Some signPriv);
  Ok (base64_encode (String.list_byte_of_string (bundle_json sigs.1 sigs.2))).

Definition account_params (pub : PublicKeySet) (enc : EncryptedHybridPrivateKey) (recovered : RecoveryWrappedHybridKey)
    (signPub : SigningPublicKeySet) (signEnc signRecovered : EncryptedSigningPrivateKeySet) : gmap string string :=
  let b64 := base64_encode in
  list_to_map
    [("public_key", b64 (pk_X25519 pub)); ("encrypted_private_key", b64 (X25519Ciphertext enc));
     ("private_key_nonce", b64 (X25519Nonce enc)); ("public_key_kyber", b64 (pk_Kyber pub));
     ("encrypted_private_key_kyber", b64 (KyberCiphertext enc)); ("private_key_kyber_nonce", b64 (KyberNonce enc));
     ("kdf_salt", b64 (Salt enc)); ("kdf_ops_limit", fmt_d (OpsLimit enc)); ("kdf_mem_limit", fmt_d (MemLimit enc));
     ("recovery_encrypted_key", b64 (rw_X25519Ciphertext recovered)); ("recovery_key_nonce", b64 (rw_X25519Nonce recovered));
     ("recovery_private_key_kyber_encrypted", b64 (rw_KyberCiphertext recovered));
     ("recovery_private_key_kyber_nonce", b64 (rw_KyberNonce recovered));
     ("signing_public_key_ed25519", b64 (spk_Ed25519 signPub));
     ("encrypted_signing_private_key_ed25519", b64 (es_Ed25519Ciphertext signEnc));
     ("signing_private_key_ed25519_nonce", b64 (es_Ed25519Nonce signEnc));
     ("signing_public_key_mldsa", b64 (spk_Mldsa signPub));
     ("encrypted_signing_private_key_mldsa", b64 (es_MldsaCiphertext signEnc));
     ("signing_private_key_mldsa_nonce", b64 (es_MldsaNonce signEnc));
     ("recovery_signing_private_key_ed25519_encrypted", b64 (es_Ed25519Ciphertext signRecovered));
     ("recovery_signing_private_key_ed25519_nonce", b64 (es_Ed25519Nonce signRecovered));
     ("recovery_signing_private_key_mldsa_encrypted", b64 (es_MldsaCiphertext signRecovered));
     ("recovery_signing_private_key_mldsa_nonce", b64 (es_MldsaNonce signRecovered))].

Definition wrapping {T} (message : string) (r : result error T) : result error T :=
  match r with Ok a => Ok a | Err e => Err (ErrWrap message e) end.

Definition NewAccountKeys (rnd : account_randomness) (password : bytes) : result error AccountKeys :=
  pair ← wrapping "generate key pair" (GenerateHybridKeyPair (ar_x25519 rnd) (ar_seed rnd));
  let '(pub, priv) := pair in
  enc ← wrapping "encrypt private key" (EncryptHybridPrivateKey (Some priv) password (ar_salt rnd) (ar_xNonce rnd) (ar_kNonce rnd));
  let recoveryKey := ar_recoveryKey rnd in
  recovered ← wrapping "wrap recovery key" (EncryptHybridPrivateKeyWithKey (Some priv) recoveryKey (ar_rxNonce rnd) (ar_rkNonce rnd));
  let '(signPub, signPriv) := GenerateSigningKeyPair (ar_edSeed rnd) (ar_mlRand rnd) in
  let pdk := DeriveKey password (Salt enc) (OpsLimit enc) (MemLimit enc) in
  signEnc ← wrapping "wrap signing private keys" (EncryptSigningPrivateKeys (Some signPriv) pdk (ar_edNonce rnd) (ar_mlNonce rnd));
  signRecovered ← wrapping "recovery-wrap signing keys"
    (EncryptSigningPrivateKeysWithKey (Some signPriv) recoveryKey (ar_redNonce rnd) (ar_rmlNonce rnd));
  sig ← wrapping "sign the published key bundle" (KeyBundleSig pub signPub signPriv);
  Ok (mkAccountKeys (<["key_bundle_sig" := sig]> (account_params pub enc recovered signPub signEnc signRecovered))
        pub enc signPub signEnc recoveryKey).

Context {S : Type} `{ST : SecretStore S, UH : UrlHost}.

(** The end of [setupE2EEKeys] in [cmd/li.go]: the new keys go into the
    configuration; what fails is a warning. *)
Definition save_account_keys (keys : AccountKeys) (a : Account S) : list error * Account S :=
  let b64 := base64_encode in
  let enc := nk_Wrapped keys in let signEnc := nk_SigningWrapped keys in
  let '(e1, a) := SetEncryptionKeys (b64 (pk_X25519 (nk_Public keys))) (b64 (X25519Ciphertext enc)) (b64 (X25519Nonce enc))
    (b64 (pk_Kyber (nk_Public keys))) (b64 (KyberCiphertext enc)) (b64 (KyberNonce enc)) (b64 (Salt enc))
    (OpsLimit enc) (MemLimit enc) a in
  let '(e2, a) := SetSigningKeys (b64 (spk_Ed25519 (nk_SigningPublic keys))) (b64 (es_Ed25519Ciphertext signEnc))
    (b64 (es_Ed25519Nonce signEnc)) (b64 (spk_Mldsa (nk_SigningPublic keys))) (b64 (es_MldsaCiphertext signEnc))
    (b64 (es_MldsaNonce signEnc)) a in
  (option_list e1 ++ option_list e2, a).

(** ** Keys handed over by another device *)

(** What the generator gives the import. *)
Record import_randomness : Type := mkImportRandomness {
  ir_deviceKey : bytes; ir_xNonce : bytes; ir_kNonce : bytes; ir_edNonce : bytes; ir_mlNonce : bytes }.

Definition ImportDeviceTransferredKeys (rnd : import_randomness) (sealedB64 : string) (ephPriv : option PrivateKeySet)
    (a : Account S) (s : Session) : option error * Account S * Session :=
  let imported :=
    sealed ← match base64_decode sealedB64 with
             | None => Err (ErrWrap "decode sealed key" illegal_base64)
             | Some sealed => Ok sealed
             end;
    payload ← wrapping "unseal key material" (HybridUnseal sealed ephPriv);
    keys ← ParseDeviceKeyTransfer payload;
    let '(priv, signPriv) := keys in
    pub ← wrapping "derive encryption public" (DeriveHybridPublic (Some priv));
    signPub ← wrapping "derive signing public" (DeriveSigningPublic (Some signPriv));
    wrapEnc ← wrapping "wrap encryption key"
      (EncryptHybridPrivateKeyWithKey (Some priv) (ir_deviceKey rnd) (ir_xNonce rnd) (ir_kNonce rnd));
    wrapSign ← wrapping "wrap signing key"
      (EncryptSigningPrivateKeysWithKey (Some signPriv) (ir_deviceKey rnd) (ir_edNonce rnd) (ir_mlNonce rnd));
    Ok (pub, priv, signPub, signPriv, wrapEnc, wrapSign) in
  match imported with
  | Err e => (Some e, a, s)
  | Ok (pub, priv, signPub, signPriv, wrapEnc, wrapSign) =>
      let '(stored, a) := StoreE2EEDeviceKey (ir_deviceKey rnd) a in
      if negb stored then (Some ErrNoKeychainForDevice, a, s) else
      let b64 := base64_encode in
      let '(err, a) := SetDeviceWrappedE2EEKeys
        (b64 (pk_X25519 pub)) (b64 (rw_X25519Ciphertext wrapEnc)) (b64 (rw_X25519Nonce wrapEnc))
        (b64 (pk_Kyber pub)) (b64 (rw_KyberCiphertext wrapEnc)) (b64 (rw_KyberNonce wrapEnc))
        (b64 (spk_Ed25519 signPub)) (b64 (es_Ed25519Ciphertext wrapSign)) (b64 (es_Ed25519Nonce wrapSign))
        (b64 (spk_Mldsa signPub)) (b64 (es_MldsaCiphertext wrapSign)) (b64 (es_MldsaNonce wrapSign)) a in
      match err with
      | Some e => (Some e, a, s)
      | None => (None, a, s <| ss_pub := Some pub |> <| ss_priv := Some priv |>
                             <| ss_signingPub := Some signPub |> <| ss_signingPriv := Some signPriv |>)
      end
  end.
End setup.

(** ** Unlocking *)

Section unlocking.
Context `{U : Unicode, BL : Blake2b, A : AEAD, AL : !AEADLaws A, X : X25519, XL : !X25519Laws X, K : MLKEM, KL : !MLKEMLaws K,
  HK : Hkdf, HL : !HkdfLaws HK, AR : Argon2, ARL : !Argon2Laws AR, E : Ed25519, EL : !Ed25519Laws E, M : MLDSA, ML : !MLDSALaws M,
  SS : Sha256Sum}.

Lemma encode_nonempty l : l ≠ [] → base64_encode l ≠ "".
Proof. intros Hl He. apply (f_equal base64_decode) in He. rewrite base64_decode_encode in He. by injection He. Qed.
Lemma length_nonempty {T} (l : list T) n : length l = S n → l ≠ [].
Proof. by destruct l. Qed.
Lemma aead_Seal_nonempty k n p ad : aead_Seal k n p ad ≠ [].
Proof using AL. intros H. apply (f_equal length) in H. rewrite aead_Seal_length in H. unfold Overhead in H. simpl in H. lia. Qed.

(** The wrapped keys and the public keys as the configuration holds them. *)
Definition holds_wrapped (c : Config) (pub : PublicKeySet) (enc : EncryptedHybridPrivateKey) : Prop :=
  cf_PublicKey c = base64_encode (pk_X25519 pub) ∧ cf_PublicKeyKyber c = base64_encode (pk_Kyber pub) ∧
  cf_EncryptedPrivateKey c = base64_encode (X25519Ciphertext enc) ∧ cf_PrivateKeyNonce c = base64_encode (X25519Nonce enc) ∧
  cf_EncryptedPrivateKeyKyber c = base64_encode (KyberCiphertext enc) ∧ cf_PrivateKeyKyberNonce c = base64_encode (KyberNonce enc) ∧
  cf_KDFSalt c = base64_encode (Salt enc) ∧ cf_KDFOpsLimit c = OpsLimit enc ∧ cf_KDFMemLimit c = MemLimit enc.
Definition holds_signing (c : Config) (spub : SigningPublicKeySet) (enc : EncryptedSigningPrivateKeySet) : Prop :=
  cf_SigningPublicKeyEd25519 c = base64_encode (spk_Ed25519 spub) ∧ cf_SigningPublicKeyMldsa c = base64_encode (spk_Mldsa spub) ∧
  cf_EncryptedSigningPrivateKeyEd25519 c = base64_encode (es_Ed25519Ciphertext enc) ∧
  cf_SigningPrivateKeyEd25519Nonce c = base64_encode (es_Ed25519Nonce enc) ∧
  cf_EncryptedSigningPrivateKeyMldsa c = base64_encode (es_MldsaCiphertext enc) ∧
  cf_SigningPrivateKeyMldsaNonce c = base64_encode (es_MldsaNonce enc).

(** A configuration from which a key opens the keys of an account. *)
Record opens_account (c : Config) (key : bytes) (pub : PublicKeySet) (priv : PrivateKeySet)
    (spub : SigningPublicKeySet) (spriv : SigningPrivateKeySet) : Prop := {
  oa_keys : has_encryption_keys c = true;
  oa_signing_keys : has_signing_keys c = true;
  oa_pub : decodePublicKeySet c = Ok pub;
  oa_priv : ∃ enc, decodeEncryptedHybridFromConfig c = Ok enc ∧ DecryptHybridPrivateKeyWithRawKey enc key = Ok priv;
  oa_signing : signing_from_config c key = Some (spub, spriv) }.

Lemma holds_opens c key pub priv enc spub spriv senc :
  keys_ok pub priv → generated_keys spub spriv →
  holds_wrapped c pub enc → DecryptHybridPrivateKeyWithRawKey enc key = Ok priv →
  X25519Ciphertext enc ≠ [] → KyberCiphertext enc ≠ [] →
  holds_signing c spub senc → DecryptSigningPrivateKeys (Some senc) key = Ok spriv →
  es_Ed25519Ciphertext senc ≠ [] → es_MldsaCiphertext senc ≠ [] →
  opens_account c key pub priv spub spriv.
Proof using AL XL KL EL ML.
  intros (Hx & Hk & Hpub) Hg (P1 & P2 & P3 & P4 & P5 & P6 & P7 & P8 & P9) Hdec Hn1 Hn2 (Q1 & Q2 & Q3 & Q4 & Q5 & Q6) Hsdec Hn3 Hn4.
  destruct (generated_sizes _ _ Hg) as (_ & Hle & Hlm & _).
  assert (length (pk_X25519 pub) = 32%nat) as L1 by (rewrite Hpub; apply ScalarBaseMult_length).
  assert (length (pk_Kyber pub) = KyberPublicKeySize) as L2 by (rewrite Hpub; by apply mlkem_public_length).
  assert (has_signing_keys c = true) as Hsk.
  { apply bool_decide_eq_true. rewrite Q1, Q2, Q3, Q5.
    split_and!; apply encode_nonempty; try done; by eapply length_nonempty. }
  split.
  - apply bool_decide_eq_true. rewrite P1, P2, P3, P5. split_and!; apply encode_nonempty; try done; by eapply length_nonempty.
  - done.
  - unfold decodePublicKeySet. rewrite P1, base64_decode_encode, ensure_True, P2, base64_decode_encode, ensure_True by done. by destruct pub.
  - exists enc. split; [|done]. unfold decodeEncryptedHybridFromConfig, decode_field.
    rewrite P3, P4, P5, P6, P7, P8, P9, !base64_decode_encode. by destruct enc.
  - unfold signing_from_config. rewrite Hsk, Q1, Q2, Q3, Q4, Q5, Q6, !base64_decode_encode. cbn [mbind option_bind].
    rewrite !decide_True by done. destruct senc. cbn in *. rewrite Hsdec. by destruct spub.
Qed.

(** A session that caches nothing. *)
Definition locked (s : Session) : Prop :=
  ss_pub s = None ∧ ss_priv s = None ∧ ss_signingPub s = None ∧ ss_signingPriv s = None ∧ ss_background s = false.

Lemma opens_device c key pub priv spub spriv s prompter :
  opens_account c key pub priv spub spriv → cf_E2EEStorageMode c = "device" → locked s →
  ∃ s', keyPairLocked (mkView c (Some key) None prompter) s = (Ok (pub, priv), s') ∧
    ss_signingPub s' = Some spub ∧ ss_signingPriv s' = Some spriv.
Proof using Type.
  intros [Hk _ Hpub (enc & Hd & Ho) Hs] Hm (H1 & H2 & _ & _ & Hb). unfold keyPairLocked. cbn [vw_cfg vw_agent].
  rewrite Hb, Hk, H1, Hpub, decide_True by done. cbn [negb]. unfold unlock_device. cbn [vw_cfg vw_deviceKey].
  rewrite Hd, Ho. eexists. split; [reflexivity|]. unfold hydrateSigningFromConfigWithPDK. by rewrite Hs.
Qed.

Lemma opens_password c pw pub priv spub spriv salt s device :
  base64_decode (cf_KDFSalt c) = Some salt →
  opens_account c (DeriveKey pw salt (cf_KDFOpsLimit c) (cf_KDFMemLimit c)) pub priv spub spriv →
  cf_E2EEStorageMode c ≠ "device" → locked s →
  (∃ s', keyPairLocked (mkView c device None None) (SetSuppliedPassword (Some pw) s) = (Ok (pub, priv), s') ∧
    ss_signingPub s' = Some spub ∧ ss_signingPriv s' = Some spriv) ∧
  (keyPairLocked (mkView c device None None) (SetSuppliedPassword None s)).1 = Err ErrKeysLocked.
Proof using Type.
  intros Hsalt [Hk _ Hpub (enc & Hd & Ho) Hs] Hm (H1 & H2 & _ & _ & Hb). unfold keyPairLocked. cbn [vw_cfg vw_agent].
  unfold SetSuppliedPassword. cbn. rewrite Hb, Hk, H1, Hpub. rewrite decide_False by done. cbn [negb]. unfold unlock_password, readPassword.
  cbn [vw_cfg vw_prompter]. rewrite Hd. cbn. rewrite Hsalt, Ho. split; [|by rewrite decide_False]. eexists. split; [reflexivity|].
  unfold hydrateSigningFromConfigWithPDK. by rewrite Hs.
Qed.

(** Cached signing keys are given out. *)
Lemma signing_cached v s spub spriv : ss_signingPub s = Some spub → ss_signingPriv s = Some spriv →
  signingKeysLocked v s = (Ok (spub, spriv), s).
Proof using Type. intros H1 H2. unfold signingKeysLocked. by rewrite H1, H2. Qed.
End unlocking.

Section account.
Context `{U : Unicode, BL : Blake2b, A : AEAD, AL : !AEADLaws A, X : X25519, XL : !X25519Laws X, K : MLKEM, KL : !MLKEMLaws K,
  HK : Hkdf, HL : !HkdfLaws HK, AR : Argon2, ARL : !Argon2Laws AR, E : Ed25519, EL : !Ed25519Laws E, M : MLDSA, ML : !MLDSALaws M,
  SS : Sha256Sum}.

(** The generator draws values of the sizes the code asks for. *)
Record drawn (rnd : account_randomness) : Prop := {
  dr_x : length (ar_x25519 rnd) = 32%nat; dr_seed : length (ar_seed rnd) = KyberSeedSize;
  dr_recovery : length (ar_recoveryKey rnd) = KeySize; dr_edSeed : length (ar_edSeed rnd) = 32%nat;
  dr_nonces : Forall (λ n, length n = NonceSize)
    [ar_xNonce rnd; ar_kNonce rnd; ar_rxNonce rnd; ar_rkNonce rnd; ar_edNonce rnd; ar_mlNonce rnd; ar_redNonce rnd; ar_rmlNonce rnd] }.

Lemma Ok_inj {T} (a b : T) : @Ok error T a = Ok b → a = b.
Proof using Type. by intros [= ->]. Qed.
Lemma wrapping_of_Ok {T} m (a : T) : wrapping m (Ok a) = Ok a.
Proof using Type. done. Qed.
Lemma wrapping_Ok {T} m (r : result error T) a : wrapping m r = Ok a → r = Ok a.
Proof using Type. by destruct r; intros [= ->]. Qed.

Lemma EncryptHybrid_nonempty priv pw salt xN kN enc : EncryptHybridPrivateKey (Some priv) pw salt xN kN = Ok enc →
  X25519Ciphertext enc ≠ [] ∧ KyberCiphertext enc ≠ [] ∧ OpsLimit enc = KDFOpsLimit ∧ MemLimit enc = KDFMemLimitBytes.
Proof using AL.
  unfold EncryptHybridPrivateKey, wrapWithKey. rewrite ensure_bind_Ok. intros [_ H].
  apply bind_Ok_inv in H as ([[[x n1] k] n2] & Hw & H). apply bind_Ok_inv in Hw as ([] & _ & Hw). simplify_eq.
  split_and!; try done; apply aead_Seal_nonempty.
Qed.
Lemma EncryptSigning_nonempty priv key n1 n2 enc : EncryptSigningPrivateKeys (Some priv) key n1 n2 = Ok enc →
  es_Ed25519Ciphertext enc ≠ [] ∧ es_MldsaCiphertext enc ≠ [].
Proof using AL.
  unfold EncryptSigningPrivateKeys. rewrite !ensure_bind_Ok. intros (_ & _ & H).
  apply bind_Ok_inv in H as ([] & _ & H). simplify_eq. split; apply aead_Seal_nonempty.
Qed.

(** What a new account consists of. *)
Lemma NewAccountKeys_Ok rnd pw keys : drawn rnd → NewAccountKeys rnd pw = Ok keys →
  ∃ priv spriv, GenerateHybridKeyPair (ar_x25519 rnd) (ar_seed rnd) = Ok (nk_Public keys, priv) ∧
    GenerateSigningKeyPair (ar_edSeed rnd) (ar_mlRand rnd) = (nk_SigningPublic keys, spriv) ∧
    keys_ok (nk_Public keys) priv ∧ generated_keys (nk_SigningPublic keys) spriv ∧
    let enc := nk_Wrapped keys in let senc := nk_SigningWrapped keys in
    DecryptHybridPrivateKey enc pw = Ok priv ∧
    DecryptSigningPrivateKeys (Some senc) (DeriveKey pw (Salt enc) (OpsLimit enc) (MemLimit enc)) = Ok spriv ∧
    X25519Ciphertext enc ≠ [] ∧ KyberCiphertext enc ≠ [] ∧ OpsLimit enc = KDFOpsLimit ∧ MemLimit enc = KDFMemLimitBytes ∧
    es_Ed25519Ciphertext senc ≠ [] ∧ es_MldsaCiphertext senc ≠ [].
Proof using AL ARL KL EL ML.
  intros [Hx Hseed Hrec Hed Hn] H. rewrite !Forall_cons in Hn. destruct Hn as (N1 & N2 & N3 & N4 & N5 & N6 & _).
  unfold NewAccountKeys in H. apply bind_Ok_inv in H as ([pub priv] & Hg%wrapping_Ok & H).
  destruct (GenerateHybridKeyPair_ok _ _ Hx Hseed) as (pub' & priv' & Hg' & Hk). rewrite Hg in Hg'. injection Hg' as <- <-.
  apply bind_Ok_inv in H as (enc & Henc%wrapping_Ok & H). apply bind_Ok_inv in H as (rec & _ & H).
  destruct (GenerateSigningKeyPair (ar_edSeed rnd) (ar_mlRand rnd)) as [spub spriv] eqn:Hsg. cbv zeta in H.
  apply bind_Ok_inv in H as (senc & Hsenc%wrapping_Ok & H). apply bind_Ok_inv in H as (srec & _ & H).
  apply bind_Ok_inv in H as (sig & _ & H). apply Ok_inj in H. subst keys. cbn [nk_Public nk_SigningPublic nk_Wrapped nk_SigningWrapped].
  exists priv, spriv. destruct Hk as (Hk1 & Hk2 & Hk3).
  destruct (private_key_wrap_roundtrip priv pw (ar_recoveryKey rnd) (ar_salt rnd) _ _ Hk1 Hk2 N1 N2 Hrec) as [(enc' & He & Hd) _].
  rewrite Henc in He. injection He as <-.
  destruct (EncryptHybrid_nonempty _ _ _ _ _ _ Henc) as (? & ? & ? & ?). destruct (EncryptSigning_nonempty _ _ _ _ _ Hsenc).
  split_and!; try done; [by exists (ar_edSeed rnd), (ar_mlRand rnd)|].
  by apply (DecryptSigningPrivateKeys_Encrypt spriv _ _ _ _ N5 N6).
Qed.

Context {S : Type} `{ST : SecretStore S, STL : !SecretStoreLaws S, UH : UrlHost, UL : !UrlHostLaws UH}.

Lemma view_restarted (a : Account S) c agent prompter : ac_cfg (Load a) = Some c →
  view_of (restart a) agent prompter = mkView c (loadDeviceKey (Load a)) agent prompter.
Proof using Type.
  intros H. unfold view_of, Get. cbn [restart ac_cfg]. change (ac_cfg (restart a)) with (@None Config).
  cbv iota. rewrite Load_restart, H. done.
Qed.

(** C11: An account set up with a password opens with it.  The keys that setup
    generates and stores in the configuration, when both saves succeed, are what
    a later process gets with the password: the same encryption key pair and the
    same signing keys, matching the public halves that were published.  Without
    a password the later process has nothing. *)
Theorem new_account_unlocks rnd pw keys (a a' : Account S) :
  drawn rnd → NewAccountKeys rnd pw = Ok keys → save_account_keys keys a = ([], a') →
  ∃ priv spriv s,
    GenerateHybridKeyPair (ar_x25519 rnd) (ar_seed rnd) = Ok (nk_Public keys, priv) ∧
    GenerateSigningKeyPair (ar_edSeed rnd) (ar_mlRand rnd) = (nk_SigningPublic keys, spriv) ∧
    let v := view_of (restart a') None None in
    KeyPair v (SetSuppliedPassword (Some pw) NewSession) = (Ok (nk_Public keys, priv), s) ∧
    SigningKeys v s = (Ok (nk_SigningPublic keys, spriv), s) ∧
    (KeyPair v NewSession).1 = Err ErrKeysLocked.
Proof using AL ARL KL XL EL ML STL UL.
  intros Hdr Hnew Hsave.
  destruct (NewAccountKeys_Ok rnd pw keys Hdr Hnew) as (priv & spriv & Hg & Hsg & Hk & Hgen & Hd & Hsd & N1 & N2 & Ho & Hm & N3 & N4).
  unfold save_account_keys in Hsave. cbv zeta in Hsave.
  destruct (SetEncryptionKeys _ _ _ _ _ _ _ _ _ a) as [e1 a1] eqn:H1.
  destruct (SetSigningKeys _ _ _ _ _ _ a1) as [e2 a2] eqn:H2.
  destruct e1, e2; try discriminate. injection Hsave as <-. unfold SetEncryptionKeys in H1. unfold SetSigningKeys in H2.
  set (enc := nk_Wrapped keys) in *. set (senc := nk_SigningWrapped keys) in *. clearbody senc.
  assert (0 ≤ OpsLimit enc < 2 ^ 32 ∧ 0 ≤ MemLimit enc < 2 ^ 32) as Hlim by (rewrite Ho, Hm; done).
  apply update_Ok in H1 as [Hc1 _]; [|exact Hlim].
  apply update_Ok in H2 as (_ & key & Hload); rewrite (Get_loaded _ _ Hc1) in *; [|exact Hlim].
  match type of Hload with _ = Some ?c => set (cfg := c) in * end.
  assert (opens_account cfg (DeriveKey pw (Salt enc) (OpsLimit enc) (MemLimit enc)) (nk_Public keys) priv (nk_SigningPublic keys) spriv) as Hopen.
  { apply (holds_opens cfg _ _ _ enc _ _ senc); try done; by split_and!. }
  destruct (opens_password cfg pw (nk_Public keys) priv (nk_SigningPublic keys) spriv (Salt enc) NewSession (loadDeviceKey (Load a2)))
    as ((s & Hkp & Hs1 & Hs2) & Hlocked).
  { change (cf_KDFSalt cfg) with (base64_encode (Salt enc)). apply base64_decode_encode. }
  { exact Hopen. } { done. } { done. }
  exists priv, spriv, s. split_and!; try done. rewrite (view_restarted _ _ _ _ Hload). cbv zeta.
  split_and!; [exact Hkp|by apply signing_cached|exact Hlocked].
Qed.

(** ** Handing keys over *)

(** The payload of a transfer, as [ParseDeviceKeyTransfer] reads it. *)
Definition transfer_payload (priv : PrivateKeySet) (spriv : SigningPrivateKeySet) : bytes :=
  DeviceKeyTransferVersion :: sk_X25519 priv ++ sk_Kyber priv ++ ssk_Ed25519 spriv ++ ssk_Mldsa spriv.

Lemma cut_part (p pre x post : bytes) off n : p = pre ++ x ++ post → length pre = off → length x = n →
  take n (drop off p) = x.
Proof using Type. intros -> <- <-. by rewrite drop_app_length, take_app_length. Qed.

Lemma ParseDeviceKeyTransfer_payload pub priv spub spriv : keys_ok pub priv → generated_keys spub spriv →
  ParseDeviceKeyTransfer (transfer_payload priv spriv) = Ok (priv, spriv).
Proof using EL ML.
  intros (Hx & Hk & _) Hg. destruct (generated_sizes _ _ Hg) as ([He Hm] & _).
  unfold ParseDeviceKeyTransfer. set (p := transfer_payload priv spriv). rewrite ensure_True; cycle 1.
  { unfold p, transfer_payload. rewrite length_cons, !length_app, Hx, Hk, He, Hm. unfold DeviceKeyTransferSize. lia. }
  rewrite ensure_True by done. cbv zeta.
  rewrite (cut_part p [DeviceKeyTransferVersion] (sk_X25519 priv) (sk_Kyber priv ++ ssk_Ed25519 spriv ++ ssk_Mldsa spriv)) by done.
  rewrite (cut_part p (DeviceKeyTransferVersion :: sk_X25519 priv) (sk_Kyber priv) (ssk_Ed25519 spriv ++ ssk_Mldsa spriv))
    by (done || (simpl; lia)).
  rewrite (cut_part p (DeviceKeyTransferVersion :: sk_X25519 priv ++ sk_Kyber priv) (ssk_Ed25519 spriv) (ssk_Mldsa spriv)).
  2: { unfold p, transfer_payload. cbn [app]. by rewrite <- app_assoc. }
  2: { rewrite length_cons, length_app. lia. }
  2: { done. }
  rewrite (cut_part p (DeviceKeyTransferVersion :: sk_X25519 priv ++ sk_Kyber priv ++ ssk_Ed25519 spriv) (ssk_Mldsa spriv) []).
  2: { unfold p, transfer_payload. cbn [app]. by rewrite app_nil_r, <- !app_assoc. }
  2: { rewrite length_cons, !length_app. lia. }
  2: { done. }
  by destruct priv, spriv.
Qed.

Lemma DeriveHybridPublic_ok pub priv : keys_ok pub priv → DeriveHybridPublic (Some priv) = Ok pub.
Proof using KL.
  intros (Hx & Hk & ->). unfold DeriveHybridPublic. rewrite ensure_True by done. cbv zeta.
  rewrite ensure_True by (by apply mlkem_public_length). done.
Qed.

Lemma EncryptHybridWithKey_nonempty priv key xN kN w : EncryptHybridPrivateKeyWithKey (Some priv) key xN kN = Ok w →
  rw_X25519Ciphertext w ≠ [] ∧ rw_KyberCiphertext w ≠ [].
Proof using AL.
  unfold EncryptHybridPrivateKeyWithKey, wrapWithKey. rewrite !ensure_bind_Ok. intros (_ & _ & H).
  apply bind_Ok_inv in H as ([[[x n1] k] n2] & Hw & H). apply bind_Ok_inv in Hw as ([] & _ & Hw). simplify_eq.
  split; apply aead_Seal_nonempty.
Qed.

Lemma EncryptSigning_total priv key n1 n2 : signing_keys_ok priv → length key = KeySize →
  ∃ enc, EncryptSigningPrivateKeys (Some priv) key n1 n2 = Ok enc.
Proof using Type.
  intros H1 H2. unfold EncryptSigningPrivateKeys. rewrite !ensure_True by done. unfold NewX. rewrite decide_True by done. by eexists.
Qed.

(** An import whose device key is stored and whose configuration is saved. *)
Section import.
Variables (rnd : import_randomness) (pub : PublicKeySet) (priv : PrivateKeySet) (spub : SigningPublicKeySet) (spriv : SigningPrivateKeySet)
  (ephPub : PublicKeySet) (ephPriv : PrivateKeySet) (eph kem nonce sealed : bytes).
Hypothesis Hk : keys_ok pub priv.
Hypothesis Hg : generated_keys spub spriv.
Hypothesis Heph : keys_ok ephPub ephPriv.
Hypothesis Hle : length eph = 32%nat.
Hypothesis Hln : length nonce = NonceSize.
Hypothesis Hseal : HybridSeal (transfer_payload priv spriv) (Some ephPub) eph kem nonce = Ok sealed.
Hypothesis Hn : Forall (λ n, length n = NonceSize) [ir_xNonce rnd; ir_kNonce rnd; ir_edNonce rnd; ir_mlNonce rnd].
Abbreviation import := (ImportDeviceTransferredKeys rnd (base64_encode sealed) (Some ephPriv)).

(** What the import does with the payload, and what it does then. *)
Lemma Import_eq (a : Account S) s :
  import a s =
  match EncryptHybridPrivateKeyWithKey (Some priv) (ir_deviceKey rnd) (ir_xNonce rnd) (ir_kNonce rnd) with
  | Err e => (Some (ErrWrap "wrap encryption key" e), a, s)
  | Ok w =>
  match EncryptSigningPrivateKeys (Some spriv) (ir_deviceKey rnd) (ir_edNonce rnd) (ir_mlNonce rnd) with
  | Err e => (Some (ErrWrap "wrap signing key" e), a, s)
  | Ok senc =>
      let '(stored, a) := StoreE2EEDeviceKey (ir_deviceKey rnd) a in
      if negb stored then (Some ErrNoKeychainForDevice, a, s) else
      let '(err, a) := SetDeviceWrappedE2EEKeys
        (base64_encode (pk_X25519 pub)) (base64_encode (rw_X25519Ciphertext w)) (base64_encode (rw_X25519Nonce w))
        (base64_encode (pk_Kyber pub)) (base64_encode (rw_KyberCiphertext w)) (base64_encode (rw_KyberNonce w))
        (base64_encode (spk_Ed25519 spub)) (base64_encode (es_Ed25519Ciphertext senc)) (base64_encode (es_Ed25519Nonce senc))
        (base64_encode (spk_Mldsa spub)) (base64_encode (es_MldsaCiphertext senc)) (base64_encode (es_MldsaNonce senc)) a in
      match err with
      | Some e => (Some e, a, s)
      | None => (None, a, s <| ss_pub := Some pub |> <| ss_priv := Some priv |>
                             <| ss_signingPub := Some spub |> <| ss_signingPriv := Some spriv |>)
      end
  end end.
Proof using XL KL AL HL EL ML Hk Hg Heph Hle Hln Hseal.
  destruct (HybridUnseal_ok (transfer_payload priv spriv) ephPub ephPriv eph kem nonce Heph Hle Hln) as (sealed' & Hs' & _ & Hun).
  rewrite Hseal in Hs'. injection Hs' as <-.
  unfold ImportDeviceTransferredKeys. rewrite base64_decode_encode, bind_Ok, Hun. rewrite wrapping_of_Ok.
  rewrite bind_Ok, (ParseDeviceKeyTransfer_payload _ _ _ _ Hk Hg), bind_Ok, (DeriveHybridPublic_ok _ _ Hk). rewrite wrapping_of_Ok.
  rewrite bind_Ok, (DeriveSigningPublic_generated _ _ Hg). rewrite wrapping_of_Ok, bind_Ok.
  destruct (EncryptHybridPrivateKeyWithKey (Some priv) _ _ _) as [w|e]; [|done]. rewrite wrapping_of_Ok, bind_Ok.
  unfold EncryptSigningPrivateKeysWithKey.
  destruct (EncryptSigningPrivateKeys (Some spriv) _ _ _) as [senc|e]; [|done]. by rewrite wrapping_of_Ok, !bind_Ok.
Qed.

Lemma Import_succeeds (a : Account S) s : length (ir_deviceKey rnd) = KeySize → ac_io a = [] →
  (StoreE2EEDeviceKey (ir_deviceKey rnd) a).1 = true → (import a s).1.1 = None.
Proof using XL KL AL ARL HL EL ML Hk Hg Heph Hle Hln Hseal Hn STL.
  intros Hkey Hio Hst. rewrite Import_eq. rewrite !Forall_cons in Hn. destruct Hn as (N1 & N2 & N3 & N4 & _), Hk as (Hk1 & Hk2 & _).
  destruct (private_key_wrap_roundtrip priv [] (ir_deviceKey rnd) [] _ _ Hk1 Hk2 N1 N2 Hkey) as [_ (w & -> & _)].
  destruct (generated_sizes _ _ Hg) as ([S1 S2] & _).
  destruct (EncryptSigning_total spriv (ir_deviceKey rnd) (ir_edNonce rnd) (ir_mlNonce rnd) (conj S1 S2) Hkey) as [senc ->].
  destruct (StoreE2EEDeviceKey (ir_deviceKey rnd) a) as [[] a1] eqn:Hs; [|done]. cbn [negb].
  apply storeDeviceKey_load in Hs as (_ & _ & _ & Hio1). rewrite Hio in Hio1.
  unfold SetDeviceWrappedE2EEKeys. match goal with |- context [update ?f a1] => pose proof (update_no_io f a1 Hio1) as Hu;
    destruct (update f a1) as [[e|] a2]; [done|] end. done.
Qed.

(** What a later process finds after an import that succeeded. *)
Lemma Import_opens c (a a' : Account S) s s' : ac_cfg a = Some c → import a s = (None, a', s') →
  ss_pub s' = Some pub ∧ ss_priv s' = Some priv ∧ ss_signingPub s' = Some spub ∧ ss_signingPriv s' = Some spriv ∧
  (∃ c', ac_cfg a' = Some c' ∧ cf_Endpoint c' = cf_Endpoint c) ∧
  ∃ cfg, ac_cfg (Load a') = Some cfg ∧ cf_Endpoint cfg = cf_Endpoint c ∧ cf_E2EEStorageMode cfg = "device" ∧
    loadDeviceKey (Load a') = Some (ir_deviceKey rnd) ∧ opens_account cfg (ir_deviceKey rnd) pub priv spub spriv.
Proof using AL ARL XL KL HL EL ML STL UL Hk Hg Heph Hle Hln Hseal Hn.
  intros Hc. rewrite Import_eq. rewrite !Forall_cons in Hn. destruct Hn as (N1 & N2 & N3 & N4 & _).
  destruct (EncryptHybridPrivateKeyWithKey (Some priv) _ _ _) as [w|e] eqn:Hw; [|done].
  destruct (EncryptSigningPrivateKeys (Some spriv) _ _ _) as [senc|e] eqn:Hsenc; [|done].
  destruct (StoreE2EEDeviceKey (ir_deviceKey rnd) a) as [[] a1] eqn:Hst; [|done]. cbn [negb].
  destruct (SetDeviceWrappedE2EEKeys _ _ _ _ _ _ _ _ _ _ _ _ a1) as [[e|] a2] eqn:Hset; [done|]. intros [= <- <-].
  do 4 (split; [done|]).
  apply storeDeviceKey_load in Hst as (Hload1 & Hc1 & _). rewrite Hc in Hc1.
  assert (length (ir_deviceKey rnd) = KeySize) as Hkey.
  { unfold EncryptHybridPrivateKeyWithKey in Hw. rewrite !ensure_bind_Ok in Hw. by destruct Hw as (_ & ? & _). }
  destruct Hk as (Hk1 & Hk2 & Hk3).
  destruct (private_key_wrap_roundtrip priv [] (ir_deviceKey rnd) [] _ _ Hk1 Hk2 N1 N2 Hkey) as [_ (w' & Hw' & Hd)].
  rewrite Hw in Hw'. injection Hw' as <-.
  destruct (EncryptHybridWithKey_nonempty _ _ _ _ _ Hw) as [M1 M2]. destruct (EncryptSigning_nonempty _ _ _ _ _ Hsenc) as [M3 M4].
  apply (DecryptSigningPrivateKeys_Encrypt spriv _ _ _ _ N3 N4) in Hsenc.
  unfold SetDeviceWrappedE2EEKeys in Hset. pose proof (update_device_key _ (cf_Endpoint c) _ _ _ ltac:(by rewrite Hc1) Hset) as Hdk.
  apply update_Ok in Hset as (Hcfg2 & key & Hload); rewrite (Get_loaded _ _ Hc1) in *; [|by split].
  split; [by eexists|].
  match type of Hload with _ = Some ?x => set (cfg := x) in * end. exists cfg.
  rewrite <- (loadDeviceKey_at _ _ Hc1), Hload1 in Hdk. do 3 (split; [done|]). split.
  { rewrite (loadDeviceKey_at _ _ Hload). change (cf_Endpoint cfg) with (cf_Endpoint c). rewrite <- Hdk.
    unfold device_key_at, Load. by destruct (loadAPIKey _). }
  eapply (holds_opens cfg _ pub priv _ spub spriv senc); [by split_and!|done| |exact Hd|done|done| |done|done|done]; by split_and!.
Qed.
Lemma Import_unlocks c (a a' : Account S) s s' : ac_cfg a = Some c → import a s = (None, a', s') →
  ∃ s2, let v := view_of (restart a') None None in
    KeyPair v NewSession = (Ok (pub, priv), s2) ∧ SigningKeys v s2 = (Ok (spub, spriv), s2).
Proof using AL ARL XL KL HL EL ML STL UL Hk Hg Heph Hle Hln Hseal Hn.
  intros Hc Hi. destruct (Import_opens c a a' s s' Hc Hi) as (_ & _ & _ & _ & _ & cfg & Hload & _ & Hm & Hd & Hopen).
  rewrite (view_restarted _ _ _ _ Hload), Hd.
  destruct (opens_device cfg (ir_deviceKey rnd) pub priv spub spriv NewSession None Hopen) as (s2 & Hkp & H1 & H2); [done|done|].
  exists s2. split; [exact Hkp|by apply signing_cached].
Qed.
End import.

(** C12: Keys handed over by another device open without a password.  When the
    import of a payload sealed to this device succeeds, the session holds the
    keys of the sender, and so does, from the configuration and the device key in
    the keychain alone, every later process. *)
Theorem imported_keys_unlock rnd pub priv spub spriv ephPub ephPriv eph kem nonce sealed c (a a' : Account S) s s' :
  keys_ok pub priv → generated_keys spub spriv → keys_ok ephPub ephPriv → length eph = 32%nat → length nonce = NonceSize →
  HybridSeal (transfer_payload priv spriv) (Some ephPub) eph kem nonce = Ok sealed →
  Forall (λ n, length n = NonceSize) [ir_xNonce rnd; ir_kNonce rnd; ir_edNonce rnd; ir_mlNonce rnd] →
  ac_cfg a = Some c →
  ImportDeviceTransferredKeys rnd (base64_encode sealed) (Some ephPriv) a s = (None, a', s') →
  ss_pub s' = Some pub ∧ ss_priv s' = Some priv ∧ ss_signingPub s' = Some spub ∧ ss_signingPriv s' = Some spriv ∧
  ∃ s2, let v := view_of (restart a') None None in
    KeyPair v NewSession = (Ok (pub, priv), s2) ∧ SigningKeys v s2 = (Ok (spub, spriv), s2).
Proof using AL ARL XL KL HL EL ML STL UL.
  intros Hk Hg Heph Hle Hln Hseal Hn Hc Hi.
  destruct (Import_opens rnd pub priv spub spriv ephPub ephPriv eph kem nonce sealed Hk Hg Heph Hle Hln Hseal Hn c a a' s s' Hc Hi)
    as (H1 & H2 & H3 & H4 & _).
  split_and!; [done..|].
  exact (Import_unlocks rnd pub priv spub spriv ephPub ephPriv eph kem nonce sealed Hk Hg Heph Hle Hln Hseal Hn c a a' s s' Hc Hi).
Qed.

(** ** A change of endpoint that fails *)

(** The API key apart, a process loads what the file holds. *)
Definition loaded (a : Account S) : Config :=
  match ac_file a with FileDoc o => unmarshal o default_config | _ => default_config end.
Lemma Load_loaded (a : Account S) : ∃ key, ac_cfg (Load a) = Some ((loaded a) <| cf_APIKey := key |>).
Proof using Type.
  unfold Load. fold (loaded a). cbv zeta. destruct (loadAPIKey _) as [v|]; [by exists v|].
  exists (cf_APIKey (loaded a)). cbn. by destruct (loaded a).
Qed.

(** A process that finds no API key in the keychain takes that of the file. *)
Lemma restart_without_key (a : Account S) b : loaded a = b →
  GetSecret (secretKeyFor (cf_Endpoint b)) (ac_secrets a) = None → GetAPIKey (restart a) = cf_APIKey b.
Proof using Type.
  intros <- Hnone. unfold GetAPIKey, Get, restart. cbn [ac_cfg over_field]. unfold Load.
  change (ac_file (a <| ac_cfg := None |>)) with (ac_file a). fold (loaded a). cbv zeta. unfold loadAPIKey, secretKey.
  cbn [ac_cfg ac_secrets over_field]. by rewrite Hnone.
Qed.

Lemma keyPair_device c key agent prompter s :
  cf_E2EEStorageMode c = "device" → locked s →
  ∀ pub priv s', keyPairLocked (mkView c key None prompter) s = (Ok (pub, priv), s') →
  keyPairLocked (mkView (c <| cf_APIKey := agent |>) None None prompter) s = (Err ErrDeviceKeysLost, s).
Proof using Type.
  intros Hm (H1 & H2 & _ & _ & Hb) pub priv s'. unfold keyPairLocked. cbn [vw_cfg vw_agent]. rewrite Hb, H1.
  change (has_encryption_keys (c <| cf_APIKey := agent |>)) with (has_encryption_keys c).
  change (decodePublicKeySet (c <| cf_APIKey := agent |>)) with (decodePublicKeySet c).
  change (cf_E2EEStorageMode (c <| cf_APIKey := agent |>)) with (cf_E2EEStorageMode c).
  destruct (has_encryption_keys c); [|done]. cbn [negb].
  destruct (decodePublicKeySet c); [|done]. by rewrite !decide_True by done.
Qed.

(** C38: A change of endpoint that cannot be saved takes the keys with it.  On a
    device whose keys are wrapped with the device key, [SetEndpoint] to another
    host deletes that key before it saves and puts it back only after it has
    saved: when the save fails the configuration on disk is the old one, the
    keychain holds no API key for its host any more, so a later process has the
    one in the file or none, and the keys that a later process unlocked from it
    before can never be unlocked again. *)
Theorem endpoint_failure_locks_out `{DL : !SecretStoreDeletes S} endpoint c (a a' : Account S) err pub priv s :
  ac_cfg a = Some c → cf_Endpoint (loaded a) = cf_Endpoint c → cf_E2EEStorageMode (loaded a) = "device" →
  secretKeyFor (cf_Endpoint c) ≠ secretKeyFor endpoint →
  KeyPair (view_of (restart a) None None) NewSession = (Ok (pub, priv), s) →
  SetEndpoint endpoint a = (Some err, a') →
  ac_file a' = ac_file a ∧
  GetSecret (secretKeyFor (cf_Endpoint c)) (ac_secrets a') = None ∧ GetAPIKey (restart a') = cf_APIKey (loaded a) ∧
  (KeyPair (view_of (restart a') None None) NewSession).1 = Err ErrDeviceKeysLost.
Proof using STL UL.
  intros Hc Hend Hmode Hhost Hbefore Hset.
  destruct (SetEndpoint_Err endpoint a a' err Hset) as (Hfile & Hgone & Hapi); rewrite (Get_loaded _ _ Hc) in *; [done|].
  cbn [fst snd] in *. split; [done|]. split; [done|].
  assert (loaded a' = loaded a) as Hsame by (unfold loaded; by rewrite Hfile).
  split; [apply (restart_without_key a' (loaded a) Hsame); by rewrite Hend|].
  destruct (Load_loaded a) as [k1 Hl1]. destruct (Load_loaded a') as [k2 Hl2]. rewrite Hsame in Hl2.
  rewrite (view_restarted _ _ _ _ Hl1) in Hbefore. rewrite (view_restarted _ _ _ _ Hl2).
  assert (loadDeviceKey (Load a') = None) as ->.
  { rewrite (loadDeviceKey_at _ _ Hl2). change (cf_Endpoint ((loaded a) <| cf_APIKey := k2 |>)) with (cf_Endpoint (loaded a)).
    rewrite Hend, <- Hgone. unfold device_key_at, Load. by destruct (loadAPIKey _). }
  replace ((loaded a) <| cf_APIKey := k2 |>) with (((loaded a) <| cf_APIKey := k1 |>) <| cf_APIKey := k2 |>) by (by destruct (loaded a)).
  unfold KeyPair in *. by erewrite keyPair_device; [|exact Hmode| |exact Hbefore].
Qed.
End account.

(** ** Names before keys *)

Section names_first.
Context `{U : Unicode, BL : Blake2b, A : AEAD, X : X25519, K : MLKEM, HK : Hkdf, AR : Argon2, E : Ed25519, M : MLDSA, SS : Sha256Sum}.

Lemma signing_stuck v s pub priv : ss_pub s = Some pub → ss_priv s = Some priv → ss_background s = false →
  ss_signingPub s = None → has_encryption_keys (vw_cfg v) = true → has_signing_keys (vw_cfg v) = true →
  signingKeysLocked v s = (Err ErrSigningUnlockFailed, s).
Proof using Type.
  intros H1 H2 Hb Hs He Hk. unfold signingKeysLocked. rewrite Hs, Hk. cbn [negb]. unfold keyPairLocked.
  rewrite Hb, He, H1, H2. cbn [negb]. by rewrite Hs.
Qed.

(** Reading a name first locks the signing keys out.  With an agent that
    holds them, a fresh session gives out the signing keys of the account; but
    once [DecryptE2EEName] has taken the private key from that agent, the session
    counts as unlocked without its signing keys, and every later request for them
    fails until the session is cleared. *)
Theorem names_first_blocks_signing v keys name sealed pub :
  vw_agent v = Some keys → agent_signs keys → name ≠ "" → base64_decode name = Some sealed →
  has_encryption_keys (vw_cfg v) = true → has_signing_keys (vw_cfg v) = true → decodePublicKeySet (vw_cfg v) = Ok pub →
  (SigningKeys v NewSession).1 =
    Ok (mkSigningPublicKeySet (ak_SigningPublicKeyEd25519 keys) (ak_SigningPublicKeyMldsa keys),
        mkSigningPrivateKeySet (ak_SigningPrivateKeyEd25519 keys) (ak_SigningPrivateKeyMldsa keys)) ∧
  let s := (DecryptE2EEName v name NewSession).2 in
  SigningKeys v s = (Err ErrSigningUnlockFailed, s).
Proof using Type.
  intros Ha Hs Hn Hd He Hk Hp. split.
  - unfold SigningKeys, signingKeysLocked, keyPairLocked. cbn [NewSession ss_signingPub ss_background ss_pub].
    rewrite Hk, He, Hp, Ha. cbn [negb]. unfold hydrateSigningFromAgent. rewrite decide_True by done. done.
  - unfold DecryptE2EEName, HasE2EEKeys. rewrite bool_decide_false, He, Hd by done. cbn [orb negb NewSession ss_priv].
    rewrite Ha. by eapply signing_stuck.
Qed.
End names_first.

(** ** Concrete accounts *)

(** The authority of an [https] URL. *)
#[export] Instance toy_url : UrlHost := {|
  url_Host u := let h := hd "" (split_on slash (trim_prefix "https://" u)) in
                if contains_char "|" h then None else Some h |}.
#[export] Instance toy_url_laws : UrlHostLaws toy_url.
Proof. split. unfold url_Host, toy_url. intros u h. cbv zeta. destruct (contains_char _ _) eqn:H; [done|]. by intros [= <-]. Qed.

Definition ex_config : Config := default_config <| cf_APIKey := "key" |>.
Definition ex_account : Account MemorySecretStore := mkAccount (Some ex_config) FileAbsent ∅ [].
Definition ex_nonce24 (b : byte) : bytes := replicate 24 b.
Definition ex_drawn : account_randomness := mkAccountRandomness ex_x ex_seed (replicate 16 x01) (ex_nonce24 x02) (ex_nonce24 x03)
  (replicate 32 x04) (ex_nonce24 x05) (ex_nonce24 x06) (replicate 32 x02) (replicate 40 x03)
  (ex_nonce24 x07) (ex_nonce24 x08) (ex_nonce24 x09) (ex_nonce24 x0a).
Definition ex_password : bytes := [x70; x77].
Definition ex_signing : SigningPublicKeySet * SigningPrivateKeySet := GenerateSigningKeyPair (replicate 32 x02) (replicate 40 x03).
Definition ex_import : import_randomness :=
  mkImportRandomness (replicate 32 x0b) (ex_nonce24 x02) (ex_nonce24 x03) (ex_nonce24 x07) (ex_nonce24 x08).

Lemma ex_keys_ok : keys_ok ex_pub ex_priv.
Proof. by split_and!; vm_compute. Qed.
Lemma ex_generated : generated_keys ex_signing.1 ex_signing.2.
Proof. exists (replicate 32 x02), (replicate 40 x03). split; [done|]. unfold ex_signing. by destruct (GenerateSigningKeyPair _ _). Qed.

Lemma new_account_unlocks_witness :
  ∃ keys a' priv s, NewAccountKeys ex_drawn ex_password = Ok keys ∧ save_account_keys keys ex_account = ([], a') ∧
    KeyPair (view_of (restart a') None None) (SetSuppliedPassword (Some ex_password) NewSession) = (Ok (nk_Public keys, priv), s).
Proof.
  assert (is_ok (NewAccountKeys ex_drawn ex_password) = true) as Hok by (vm_compute; reflexivity).
  destruct (NewAccountKeys ex_drawn ex_password) as [keys|e] eqn:Hn; [|discriminate].
  destruct (save_account_keys keys ex_account) as [errs a'] eqn:Hs.
  assert (errs = []) as -> by (change errs with (errs, a').1; rewrite <- Hs; reflexivity).
  assert (drawn ex_drawn) as Hd by (split; [done..|by repeat constructor]).
  destruct (new_account_unlocks ex_drawn ex_password keys ex_account a' Hd Hn Hs) as (priv & spriv & s & _ & _ & Hk & _).
  exists keys, a', priv, s. split_and!; [reflexivity|exact Hs|exact Hk].
Defined.

(** The sealed payload of a transfer to the device of the example. *)
Definition ex_sealed : bytes :=
  match HybridSeal (transfer_payload ex_priv ex_signing.2) (Some ex_pub) ex_eph ex_seed ex_nonce with Ok s => s | Err _ => [] end.
Local Notation ex_imported := (ImportDeviceTransferredKeys ex_import (base64_encode ex_sealed) (Some ex_priv) ex_account NewSession).

Lemma ex_sealed_ok : HybridSeal (transfer_payload ex_priv ex_signing.2) (Some ex_pub) ex_eph ex_seed ex_nonce = Ok ex_sealed.
Proof.
  assert (is_ok (HybridSeal (transfer_payload ex_priv ex_signing.2) (Some ex_pub) ex_eph ex_seed ex_nonce) = true) as Hok
    by (vm_compute; reflexivity).
  unfold ex_sealed. by destruct (HybridSeal _ _ _ _ _).
Qed.
Lemma ex_import_nonces : Forall (λ n, length n = NonceSize) [ir_xNonce ex_import; ir_kNonce ex_import; ir_edNonce ex_import; ir_mlNonce ex_import].
Proof. by repeat constructor. Qed.
Lemma ex_imported_ok : ∃ a' s', ex_imported = (None, a', s').
Proof.
  pose proof (Import_succeeds ex_import ex_pub ex_priv ex_signing.1 ex_signing.2 ex_pub ex_priv ex_eph ex_seed ex_nonce ex_sealed
    ex_keys_ok ex_generated ex_keys_ok eq_refl eq_refl ex_sealed_ok ex_import_nonces ex_account NewSession eq_refl eq_refl eq_refl) as H.
  destruct ex_imported as [[err a'] s']. cbn [fst] in H. rewrite H. by exists a', s'.
Qed.

Lemma imported_keys_unlock_witness :
  ∃ a' s' s2, ex_imported = (None, a', s') ∧
    KeyPair (view_of (restart a') None None) NewSession = (Ok (ex_pub, ex_priv), s2).
Proof.
  destruct ex_imported_ok as (a' & s' & Hi).
  destruct (imported_keys_unlock ex_import ex_pub ex_priv ex_signing.1 ex_signing.2 ex_pub ex_priv ex_eph ex_seed ex_nonce ex_sealed
    ex_config ex_account a' NewSession s' ex_keys_ok ex_generated ex_keys_ok eq_refl eq_refl ex_sealed_ok ex_import_nonces eq_refl Hi)
    as (_ & _ & _ & _ & s2 & Hk & _).
  exists a', s', s2. split; [exact Hi|exact Hk].
Defined.

(** The disk is full when the endpoint changes. *)
Definition on_full_disk (a : Account MemorySecretStore) : Account MemorySecretStore :=
  a <| ac_io := [Some (ErrText "no space left on device")] |>.
Lemma SetEndpoint_on_full_disk c a : ac_cfg a = Some c → cf_Endpoint c = DefaultEndpoint →
  isSome (SetEndpoint "https://example.org/cloud" (on_full_disk a)).1 = true.
Proof.
  intros Hc He. unfold SetEndpoint. rewrite (Get_loaded (on_full_disk a) c) by done. rewrite He.
  by rewrite decide_False by (vm_compute; discriminate).
Qed.

Lemma view_on_full_disk (a : Account MemorySecretStore) :
  view_of (restart (on_full_disk a)) None None = view_of (restart a) None None.
Proof.
  destruct (Load_cfg a) as [c Hc]. assert (Load (on_full_disk a) = on_full_disk (Load a)) as Hl.
  { unfold Load. change (ac_file (on_full_disk a)) with (ac_file a). fold (loaded a). cbv zeta.
    change (loadAPIKey ((on_full_disk a) <| ac_cfg := Some (loaded a) |>)) with (loadAPIKey (a <| ac_cfg := Some (loaded a) |>)).
    by destruct (loadAPIKey _). }
  assert (ac_cfg (Load (on_full_disk a)) = Some c) as Hc2 by (by rewrite Hl).
  rewrite (view_restarted _ _ _ _ Hc), (view_restarted _ _ _ _ Hc2), Hl. done.
Qed.

Lemma endpoint_failure_locks_out_witness : ∃ a s,
  let a' := (SetEndpoint "https://example.org/cloud" (on_full_disk a)).2 in
  KeyPair (view_of (restart (on_full_disk a)) None None) NewSession = (Ok (ex_pub, ex_priv), s) ∧
  GetSecret "pigcloud.de" (ac_secrets a') = None ∧
  (KeyPair (view_of (restart a') None None) NewSession).1 = Err ErrDeviceKeysLost.
Proof.
  destruct ex_imported_ok as (a & s' & Hi).
  destruct (Import_opens ex_import ex_pub ex_priv ex_signing.1 ex_signing.2 ex_pub ex_priv ex_eph ex_seed ex_nonce ex_sealed
    ex_keys_ok ex_generated ex_keys_ok eq_refl eq_refl ex_sealed_ok ex_import_nonces ex_config ex_account a NewSession s' eq_refl Hi)
    as (_ & _ & _ & _ & (c & Hc & He) & cfg & Hload & Hend & Hm & _).
  destruct (Import_unlocks ex_import ex_pub ex_priv ex_signing.1 ex_signing.2 ex_pub ex_priv ex_eph ex_seed ex_nonce ex_sealed
    ex_keys_ok ex_generated ex_keys_ok eq_refl eq_refl ex_sealed_ok ex_import_nonces ex_config ex_account a NewSession s' eq_refl Hi)
    as (s & Hk & _).
  pose proof (SetEndpoint_on_full_disk c a Hc He) as Hfail.
  destruct (SetEndpoint "https://example.org/cloud" (on_full_disk a)) as [[err|] a'] eqn:Hs; [|discriminate].
  destruct (Load_loaded a) as [key Hl]. rewrite Hload in Hl. injection Hl as ->.
  rewrite <- (view_on_full_disk a) in Hk. exists a, s. rewrite Hs. split; [exact Hk|].
  destruct (endpoint_failure_locks_out "https://example.org/cloud" c (on_full_disk a) a' err ex_pub ex_priv s
    Hc (eq_trans Hend (eq_sym He)) Hm) as (_ & Hapi & _ & Hlost); [rewrite He; vm_compute; discriminate|exact Hk|exact Hs|].
  split; [rewrite He in Hapi; exact Hapi|exact Hlost].
Defined.

(** An agent that holds the keys of the example. *)
Definition ex_agent : AgentKeys := mkAgentKeys (pk_X25519 ex_pub) (sk_X25519 ex_priv) (pk_Kyber ex_pub) (sk_Kyber ex_priv) (replicate 32 x01)
  (spk_Ed25519 ex_signing.1) (ssk_Ed25519 ex_signing.2) (spk_Mldsa ex_signing.1) (ssk_Mldsa ex_signing.2).
