(* ===== verification/SessionInv.v ===== *)
(** * A session holds the keys of one account

    Invariant of the session of [Session.v] over every operation that reads or
    fills its cache, and what its uploads can be opened with. *)
From S2P Require Import Prelude GoLib GoFmt ApiErrors Crypto Hybrid Sign FileCrypt Names PinStore Config Session.
Local Open Scope Z_scope.

(** ** A session holds one account *)

Record owner : Type := mkOwner {
  ow_pub : PublicKeySet; ow_priv : PrivateKeySet; ow_spub : SigningPublicKeySet; ow_spriv : SigningPrivateKeySet }.

Section coherence.
Context `{U : Unicode, BL : Blake2b, A : AEAD, X : X25519, K : MLKEM, KL : !MLKEMLaws K,
  HK : Hkdf, AR : Argon2, E : Ed25519, EL : !Ed25519Laws E, M : MLDSA, ML : !MLDSALaws M,
  SS : Sha256Sum, SH : Sha256, HM : Hmac, FC : FileChunkSize}.
Variable o : owner.

(** Whatever the session caches belongs to the account. *)
Record of_account (s : Session) : Prop := {
  oc_pub p : ss_pub s = Some p → p = ow_pub o;
  oc_priv p : ss_priv s = Some p → p = ow_priv o;
  oc_name k : ss_nameKey s = Some k → DeriveNameKey (ow_priv o) = Ok k;
  oc_parent k : ss_parentKey s = Some k → DeriveParentKey (ow_priv o) = Ok k;
  oc_spub p : ss_signingPub s = Some p → p = ow_spub o;
  oc_spriv p : ss_signingPriv s = Some p → p = ow_spriv o }.

(** The configuration, the agent and the keychain are the account's: what they
    hold, and what opens from the wrapped keys, are its keys. *)
Record view_ok (v : View) : Prop := {
  vo_pub p : decodePublicKeySet (vw_cfg v) = Ok p → p = ow_pub o;
  vo_priv enc key p : decodeEncryptedHybridFromConfig (vw_cfg v) = Ok enc →
    DecryptHybridPrivateKeyWithRawKey enc key = Ok p → p = ow_priv o;
  vo_signing key p q : signing_from_config (vw_cfg v) key = Some (p, q) → p = ow_spub o ∧ q = ow_spriv o;
  vo_agent keys : vw_agent v = Some keys →
    agent_public keys = ow_pub o ∧ agent_private keys = ow_priv o ∧ DeriveNameKey (ow_priv o) = Ok (ak_NameKey keys) ∧
    (agent_signs keys →
     mkSigningPublicKeySet (ak_SigningPublicKeyEd25519 keys) (ak_SigningPublicKeyMldsa keys) = ow_spub o ∧
     mkSigningPrivateKeySet (ak_SigningPrivateKeyEd25519 keys) (ak_SigningPrivateKeyMldsa keys) = ow_spriv o) }.

(** An operation that keeps the session to the account, and what it gives. *)
Definition keeps {T} (m : op T) (P : T → Prop) : Prop :=
  ∀ s, of_account s → of_account (m s).2 ∧ ∀ a, (m s).1 = Ok a → P a.

Lemma keeps_lift {T} (r : result error T) (P : T → Prop) : (∀ a, r = Ok a → P a) → keeps (op_lift r) P.
Proof using Type. intros H s Hs. by split. Qed.
Lemma keeps_bind {T T'} (m : op T) (k : T → op T') P Q : keeps m P → (∀ a, P a → keeps (k a) Q) → keeps (op_bind m k) Q.
Proof using Type.
  intros Hm Hk s Hs. destruct (Hm s Hs) as [Hs' HP]. unfold op_bind. destruct (m s) as [[a|e] s']; [|by split].
  apply (Hk a); [by apply HP|done].
Qed.
Lemma keeps_any {T} (m : op T) P : keeps m P → keeps m (λ _, True).
Proof using Type. intros H s Hs. by destruct (H s Hs). Qed.

Lemma hydrate_agent_keeps v keys s : view_ok v → vw_agent v = Some keys → of_account s → of_account (hydrateSigningFromAgent keys s).
Proof using Type.
  intros Hv Ha Hs. destruct (vo_agent v Hv keys Ha) as (_ & _ & _ & Hsg). unfold hydrateSigningFromAgent.
  case_decide as Hd; [|done]. destruct (Hsg Hd) as [H1 H2]. destruct Hs. split; cbn; try done; intros ? [= <-]; done.
Qed.
Lemma hydrate_config_keeps v key s : view_ok v → of_account s → of_account (hydrateSigningFromConfigWithPDK (vw_cfg v) key s).
Proof using Type.
  intros Hv Hs. unfold hydrateSigningFromConfigWithPDK. destruct (signing_from_config _ _) as [[p q]|] eqn:Hsig; [|done].
  destruct (vo_signing v Hv _ _ _ Hsig) as [-> ->]. destruct Hs. split; cbn; try done; by intros ? [= <-].
Qed.
Lemma cached_keeps s pub priv : of_account s → pub = ow_pub o → priv = ow_priv o →
  of_account (s <| ss_pub := Some pub |> <| ss_priv := Some priv |>).
Proof using Type. intros [] -> ->. split; cbn; try done; by intros ? [= <-]. Qed.

Definition the_pair (k : PublicKeySet * PrivateKeySet) : Prop := k = (ow_pub o, ow_priv o).

Lemma keyPair_keeps v : view_ok v → keeps (keyPairLocked v) the_pair.
Proof using Type.
  intros Hv s Hs. unfold keyPairLocked. destruct (ss_background s); [by split|]. destruct (has_encryption_keys _); [|by split].
  cbn [negb]. set (cached := (ss_pub s, ss_priv s)).
  assert ((∃ pub priv, cached = (Some pub, Some priv)) ∨ ∀ (B : Type) (x : PublicKeySet → PrivateKeySet → B) y,
    match ss_pub s, ss_priv s with Some pub, Some priv => x pub priv | _, _ => y end = y) as [(pub & priv & Hc)|Hc].
  { unfold cached. destruct (ss_pub s), (ss_priv s); by eauto. }
  { unfold cached in Hc. injection Hc as Hp Hq. rewrite Hp, Hq. split; [done|]. intros a [= <-]. unfold the_pair.
    by rewrite (oc_pub s Hs _ Hp), (oc_priv s Hs _ Hq). }
  rewrite Hc. clear Hc cached. destruct (decodePublicKeySet (vw_cfg v)) as [pub|e] eqn:Hd; [|by split].
  pose proof (vo_pub v Hv _ Hd) as ->. destruct (vw_agent v) as [keys|] eqn:Ha.
  { destruct (vo_agent v Hv keys Ha) as (_ & Hpr & Hnm & _). rewrite Hpr. split; [|by intros a [= <-]].
    eapply hydrate_agent_keeps; [done..|]. destruct Hs. split; cbn; try done; intros ? [= <-]; done. }
  case_decide.
  - unfold unlock_device. destruct (vw_deviceKey v) as [key|]; [|by split].
    destruct (decodeEncryptedHybridFromConfig _) as [enc|] eqn:He; [|by split].
    destruct (DecryptHybridPrivateKeyWithRawKey enc key) as [priv|] eqn:Hdec; [|by split].
    pose proof (vo_priv v Hv _ _ _ He Hdec) as ->. split; [|by intros a [= <-]].
    apply hydrate_config_keeps; [done|by apply cached_keeps].
  - unfold unlock_password. destruct (decodeEncryptedHybridFromConfig _) as [enc|] eqn:He; [|by split].
    destruct (readPassword v s) as [pw s1] eqn:Hpw.
    assert (of_account s1) as Hs1.
    { unfold readPassword in Hpw. destruct (ss_supplied s); [|by destruct (vw_prompter v); simplify_eq].
      simplify_eq. destruct Hs. by split. }
    destruct pw as [[pw|]|]; try by split. destruct (base64_decode _) as [salt|]; [|by split].
    destruct (DecryptHybridPrivateKeyWithRawKey _ _) as [priv|] eqn:Hdec; [|by split].
    pose proof (vo_priv v Hv _ _ _ He Hdec) as ->. split; [|by intros a [= <-]].
    apply hydrate_config_keeps; [done|by apply cached_keeps].
Qed.

Lemma publicKey_keeps v : view_ok v → keeps (publicKeyLocked v) (λ p, p = ow_pub o).
Proof using Type.
  intros Hv s Hs. unfold publicKeyLocked. destruct (ss_pub s) as [p|] eqn:Hp; [split; [done|]; intros a [= <-]; by apply (oc_pub s)|].
  case_decide; [by split|]. destruct (decodePublicKeySet _) as [p|] eqn:Hd; [|by split]. pose proof (vo_pub v Hv _ Hd) as ->.
  split; [|by intros a [= <-]]. destruct Hs. split; cbn; try done; by intros ? [= <-].
Qed.

Lemma derived_keeps get set derive message v (good : bytes → Prop) :
  view_ok v → (∀ s k, of_account s → get s = Some k → good k) →
  (∀ k, derive (ow_priv o) = Ok k → good k ∧ ∀ s, of_account s → of_account (set k s)) →
  keeps (derived get set derive message v) good.
Proof using Type.
  intros Hv Hget Hder s Hs. unfold derived. destruct (get s) as [k|] eqn:Hg; [split; [done|]; intros a [= <-]; by eapply Hget|].
  destruct (keyPair_keeps v Hv s Hs) as [Hs1 Hpair]. destruct (keyPairLocked v s) as [[[pub priv]|] s1]; [|by split].
  specialize (Hpair _ eq_refl). injection Hpair as -> ->. destruct (derive (ow_priv o)) as [k|] eqn:Hd; [|by split].
  destruct (Hder k eq_refl) as [Hk Hset]. split; [by apply Hset|by intros a [= <-]].
Qed.
Lemma nameKey_keeps v : view_ok v → keeps (nameKeyLocked v) (λ k, DeriveNameKey (ow_priv o) = Ok k).
Proof using Type.
  intros Hv. apply derived_keeps; [done|intros s k Hs; by apply (oc_name s)|]. intros k Hk. split; [done|].
  intros s []. split; cbn; try done; by intros ? [= <-].
Qed.
Lemma parentKey_keeps v : view_ok v → keeps (parentKeyLocked v) (λ k, DeriveParentKey (ow_priv o) = Ok k).
Proof using Type.
  intros Hv. apply derived_keeps; [done|intros s k Hs; by apply (oc_parent s)|]. intros k Hk. split; [done|].
  intros s []. split; cbn; try done; by intros ? [= <-].
Qed.

Definition the_signing (k : SigningPublicKeySet * SigningPrivateKeySet) : Prop := k = (ow_spub o, ow_spriv o).
Lemma signing_cached_keeps s : of_account s →
  match ss_signingPub s, ss_signingPriv s with Some p, Some q => the_signing (p, q) | _, _ => True end.
Proof using Type.
  intros Hs. destruct (ss_signingPub s) as [p|] eqn:Hp, (ss_signingPriv s) as [q|] eqn:Hq; try done. unfold the_signing.
  by rewrite (oc_spub s Hs _ Hp), (oc_spriv s Hs _ Hq).
Qed.
Lemma signingKeys_keeps v : view_ok v → keeps (signingKeysLocked v) the_signing.
Proof using Type.
  intros Hv s Hs. pose proof (signing_cached_keeps s Hs) as Hc. destruct (keyPair_keeps v Hv s Hs) as [Hs1 _].
  unfold signingKeysLocked. destruct (keyPairLocked v s) as [r s1] eqn:Hk. pose proof (signing_cached_keeps s1 Hs1) as Hc1. cbn [snd] in *.
  destruct (ss_signingPub s) as [p|], (ss_signingPriv s) as [q|]; try (split; [done|]; intros a [= <-]; exact Hc);
    (destruct (has_signing_keys _); [|by split]); cbn [negb]; destruct r; try (by split);
    destruct (ss_signingPub s1) as [p'|], (ss_signingPriv s1) as [q'|]; (split; [done|intros ? [= <-]; exact Hc1]) || by split.
Qed.
Lemma signingIfAvailable_keeps v s : view_ok v → of_account s → of_account (signingKeysIfAvailableLocked v s).2.
Proof using Type.
  intros Hv Hs. destruct (keyPair_keeps v Hv s Hs) as [Hs1 _]. unfold signingKeysIfAvailableLocked.
  destruct (keyPairLocked v s) as [r s1]. destruct (ss_signingPub s), (ss_signingPriv s); try done; by destruct (negb _).
Qed.

(** Taking the keys from the agent, with or without the signing keys. *)
Lemma from_agent_keeps v keys s : view_ok v → vw_agent v = Some keys → of_account s →
  let s := s <| ss_priv := Some (agent_private keys) |> in
  let s := match ss_pub s with None => s <| ss_pub := Some (agent_public keys) |> | Some _ => s end in
  of_account (s <| ss_nameKey := Some (ak_NameKey keys) |>).
Proof using Type.
  intros Hv Ha Hs. destruct (vo_agent v Hv keys Ha) as (Hpb & Hpr & Hnm & _). rewrite Hpb, Hpr. cbn.
  destruct (ss_pub s) eqn:Hp; destruct Hs; split; cbn; try done; try (intros ? [= <-]; done); rewrite ?Hp; naive_solver.
Qed.
Lemma ensureKeysFromAgent_keeps v s : view_ok v → of_account s → of_account (ensureKeysFromAgentLocked v s).2.
Proof using Type.
  intros Hv Hs. unfold ensureKeysFromAgentLocked. destruct (ss_priv s); [done|]. destruct (vw_agent v) as [keys|] eqn:Ha; [|done].
  cbn [snd]. eapply hydrate_agent_keeps; [done..|]. by apply (from_agent_keeps v).
Qed.
Lemma DecryptE2EEName_keeps v name s : view_ok v → of_account s → of_account (DecryptE2EEName v name s).2.
Proof using Type.
  intros Hv Hs. unfold DecryptE2EEName. destruct (_ || _); [done|]. destruct (base64_decode name); [|done].
  destruct (ss_priv s); [done|]. destruct (vw_agent v) as [keys|] eqn:Ha; [|done]. by apply (from_agent_keeps v).
Qed.

Lemma guarded_keeps {T} (b : Session → bool) (x : T) (m : op T) P : P x → keeps m P →
  keeps (λ s, if b s then (Ok x, s) else m s) P.
Proof using Type. intros Hx Hm s Hs. destruct (b s); [split; [done|]; by intros a [= <-]|by apply Hm]. Qed.

Hint Resolve publicKey_keeps nameKey_keeps signingKeys_keeps keyPair_keeps : core.
Lemma AddE2eeNameFields_keeps v rnd options fileName fullPath : view_ok v →
  keeps (AddE2eeNameFields v rnd options fileName fullPath) (λ _, True).
Proof using Type.
  intros Hv. apply guarded_keeps; [done|]. do 2 (eapply keeps_bind; [by eauto|intros ? _]).
  do 2 (eapply keeps_bind; [by apply (keeps_lift _ (λ _, True))|intros ? _]). by apply keeps_lift.
Qed.
Lemma AddE2eeNameFieldsForMkParents_keeps v rnd options parts : view_ok v →
  keeps (AddE2eeNameFieldsForMkParents v rnd options parts) (λ _, True).
Proof using Type.
  intros Hv. apply guarded_keeps; [done|]. do 2 (eapply keeps_bind; [by eauto|intros ? _]). by apply keeps_lift.
Qed.
Lemma AddPathTokensForAll_keeps jm v options paths depth : view_ok v →
  keeps (AddPathTokensForAll jm v options paths depth) (λ _, True).
Proof using Type.
  intros Hv. apply (guarded_keeps (λ _, _)); [done|]. eapply (keeps_bind _ _ (λ _, True)); [|intros [] _; by apply keeps_lift].
  apply (guarded_keeps (λ _, _)); [done|]. eapply keeps_bind; [by eauto|intros ? _]. by apply keeps_lift.
Qed.
Lemma SignEncryptedFile_keeps v r : view_ok v → keeps (SignEncryptedFile v r) (λ _, True).
Proof using Type.
  intros Hv. eapply keeps_bind; [by eauto|intros [] _].
  eapply keeps_bind; [by apply (keeps_lift _ (λ _, True))|intros ? _].
  eapply keeps_bind; [by apply (keeps_lift _ (λ _, True))|intros [] _]. by apply keeps_lift.
Qed.

(** ** Uploads *)

Lemma EncryptForUpload_keeps v ue s : view_ok v → of_account s → of_account (EncryptForUpload v ue s).2.
Proof using Type.
  intros Hv Hs. unfold EncryptForUpload. destruct (publicKey_keeps v Hv s Hs) as [Hs1 _].
  destruct (publicKeyLocked v s) as [[pub|e] s1]; [|done]. cbn [snd] in Hs1.
  destruct (ue_temp ue); [done|]. cbv zeta. destruct (EncryptFile _ _ _ _ _) as [[meta|e] enc]; [|done].
  destruct (seal_key _ _ _); [|done]. destruct (ue_meta_json ue _); [|done]. destruct (_ && _); [done|].
  destruct (match ue_teeKeys ue with None => _ | Some _ => _ end); [|done].
  destruct (nameKey_keeps v Hv s1 Hs1) as [Hs2 _]. by destruct (nameKeyLocked v s1) as [[k|e] s2].
Qed.

(** ** Background keys *)

(** Material of the account: its keys without the private halves that decrypt. *)
Definition material_ok (m : BackgroundKeyMaterial) : Prop :=
  DeriveNameKey (ow_priv o) = Ok (bm_NameKey m) ∧ DeriveParentKey (ow_priv o) = Ok (bm_ParentKey m) ∧
  bm_SigningPriv m = Some (ow_spriv o) ∧ bm_SigningPub m = Some (ow_spub o) ∧ bm_Pub m = Some (ow_pub o).

(** Material that is taken replaces everything, whoever's keys were there. *)
Lemma UnlockBackground_takes m s : material_ok m →
  match UnlockBackground (Some m) s with
  | (None, s') => of_account s'
  | (Some _, s') => s' = s
  end.
Proof using Type.
  destruct m as [n p sp spb pb]. unfold material_ok. cbn. intros (Hn & Hp & -> & -> & ->). case_decide; [|done].
  split; cbn; try done; by intros ? [= <-].
Qed.

(** *** Imports *)

Context {S : Type} `{ST : SecretStore S, UH : UrlHost}.

(** The transfer, when it opens, carries the account's keys. *)
Definition transfer_ok (sealed : string) (eph : option PrivateKeySet) : Prop := ∀ payload priv spriv,
  (b ← base64_decode sealed; Some (HybridUnseal b eph)) = Some (Ok payload) →
  ParseDeviceKeyTransfer payload = Ok (priv, spriv) → priv = ow_priv o ∧ spriv = ow_spriv o.

(** Keys that are imported replace the key pair and the signing keys; the keys
    derived from the former private key, if any, stay. *)
Lemma Import_takes rnd sealed eph (a : Account S) s :
  keys_ok (ow_pub o) (ow_priv o) → generated_keys (ow_spub o) (ow_spriv o) → transfer_ok sealed eph →
  let '(err, _, s') := ImportDeviceTransferredKeys rnd sealed eph a s in
  ss_nameKey s' = ss_nameKey s ∧ ss_parentKey s' = ss_parentKey s ∧
  match err with
  | None => ss_pub s' = Some (ow_pub o) ∧ ss_priv s' = Some (ow_priv o) ∧
      ss_signingPub s' = Some (ow_spub o) ∧ ss_signingPriv s' = Some (ow_spriv o)
  | Some _ => s' = s
  end.
Proof using KL EL ML.
  intros Hkeys Hsigning Hpay. unfold ImportDeviceTransferredKeys. destruct (base64_decode sealed) as [b|] eqn:Hb; [|done].
  rewrite bind_Ok. destruct (HybridUnseal b eph) as [payload|] eqn:Hun; [|done]. rewrite wrapping_of_Ok, bind_Ok.
  destruct (ParseDeviceKeyTransfer payload) as [[priv spriv]|] eqn:Hp; [|done]. rewrite bind_Ok.
  destruct (Hpay payload priv spriv) as [-> ->]; [rewrite Hb; cbn; by rewrite Hun|done|].
  rewrite (DeriveHybridPublic_ok _ _ Hkeys), wrapping_of_Ok, bind_Ok.
  rewrite (DeriveSigningPublic_generated _ _ Hsigning), wrapping_of_Ok, bind_Ok.
  destruct (wrapping _ (EncryptHybridPrivateKeyWithKey _ _ _ _)); [|done]. rewrite bind_Ok.
  destruct (wrapping _ (EncryptSigningPrivateKeysWithKey _ _ _ _)); [|done]. rewrite !bind_Ok.
  destruct (StoreE2EEDeviceKey _ _) as [[] acc1]; [|done]. cbn [negb].
  by destruct (SetDeviceWrappedE2EEKeys _ _ _ _ _ _ _ _ _ _ _ _ acc1) as [[] acc2].
Qed.
End coherence.

(** ** Steps

    The account in use is part of the state.  It changes when the session is
    cleared, when background material is taken, and when keys are imported into a
    session that holds no derived keys. *)

Section steps.
Context `{U : Unicode, BL : Blake2b, A : AEAD, X : X25519, K : MLKEM, KL : !MLKEMLaws K,
  HK : Hkdf, AR : Argon2, E : Ed25519, EL : !Ed25519Laws E, M : MLDSA, ML : !MLDSALaws M,
  SS : Sha256Sum, SH : Sha256, HM : Hmac, FC : FileChunkSize}.
Context {S : Type} `{ST : SecretStore S, UH : UrlHost}.

Definition owner_ok (o : owner) : Prop := keys_ok (ow_pub o) (ow_priv o) ∧ generated_keys (ow_spub o) (ow_spriv o).
Definition no_derived (s : Session) : Prop := ss_nameKey s = None ∧ ss_parentKey s = None.

(** One operation on the session of an account, in a view that is the account's. *)
Inductive session_step : owner * Session → owner * Session → Prop :=
| step_KeyPair o v s : view_ok o v → session_step (o, s) (o, (KeyPair v s).2)
| step_PublicKey o v s : view_ok o v → session_step (o, s) (o, (PublicKey v s).2)
| step_EnsureKeysFromAgent o v s : view_ok o v → session_step (o, s) (o, (ensureKeysFromAgentLocked v s).2)
| step_SigningKeys o v s : view_ok o v → session_step (o, s) (o, (SigningKeys v s).2)
| step_SigningKeysIfAvailable o v s : view_ok o v → session_step (o, s) (o, (signingKeysIfAvailableLocked v s).2)
| step_ParentKey o v s : view_ok o v → session_step (o, s) (o, (parentKeyLocked v s).2)
| step_NameKey o v s : view_ok o v → session_step (o, s) (o, (nameKeyLocked v s).2)
| step_AddE2eeNameFields o v rnd opts n p s : view_ok o v → session_step (o, s) (o, (AddE2eeNameFields v rnd opts n p s).2)
| step_MkParents o v rnd opts parts s : view_ok o v →
    session_step (o, s) (o, (AddE2eeNameFieldsForMkParents v rnd opts parts s).2)
| step_DecryptE2EEName o v n s : view_ok o v → session_step (o, s) (o, (DecryptE2EEName v n s).2)
| step_AddPathTokens o jm v opts paths depth s : view_ok o v →
    session_step (o, s) (o, (AddPathTokensForAll jm v opts paths depth s).2)
| step_EncryptForUpload o v ue s : view_ok o v → session_step (o, s) (o, (EncryptForUpload v ue s).2)
| step_SignEncryptedFile o v r s : view_ok o v → session_step (o, s) (o, (SignEncryptedFile v r s).2)
| step_SetSuppliedPassword o pw s : session_step (o, s) (o, SetSuppliedPassword pw s)
| step_ClearCachedKey o o' s : session_step (o, s) (o', ClearCachedKey s)
| step_UnlockBackground o o' m s : material_ok o' m →
    session_step (o, s) (match (UnlockBackground (Some m) s).1 with None => o' | Some _ => o end, (UnlockBackground (Some m) s).2)
| step_Import o o' rnd sealed eph (a : Account S) s :
    owner_ok o' → transfer_ok o' sealed eph → o' = o ∨ no_derived s →
    session_step (o, s)
      (match (ImportDeviceTransferredKeys rnd sealed eph a s).1.1 with None => o' | Some _ => o end,
       (ImportDeviceTransferredKeys rnd sealed eph a s).2).

Lemma session_step_keeps x x' : session_step x x' → of_account x.1 x.2 → of_account x'.1 x'.2.
Proof using KL EL ML.
  intros Hst Hs. destruct Hst; cbn [fst snd] in *.
  - by apply keyPair_keeps. - by apply publicKey_keeps. - by apply ensureKeysFromAgent_keeps.
  - by apply signingKeys_keeps. - by apply signingIfAvailable_keeps. - by apply parentKey_keeps.
  - by apply nameKey_keeps. - by apply AddE2eeNameFields_keeps. - by apply AddE2eeNameFieldsForMkParents_keeps.
  - by apply DecryptE2EEName_keeps. - by apply AddPathTokensForAll_keeps. - by apply EncryptForUpload_keeps.
  - by apply SignEncryptedFile_keeps. - destruct Hs; by split.
  - by split.
  - pose proof (UnlockBackground_takes o' m s H) as Ht. destruct (UnlockBackground (Some m) s) as [[e|] s']; cbn; [by rewrite Ht|done].
  - rename H1 into Hder. destruct H as [Hk Hg]. pose proof (Import_takes o' rnd sealed eph a s Hk Hg H0) as Ht.
    destruct (ImportDeviceTransferredKeys rnd sealed eph a s) as [[[e|] a'] s']; cbn [fst snd].
    + by destruct Ht as (_ & _ & ->).
    + destruct Ht as (Hn & Hp & H1 & H2 & H3 & H4).
      split; [rewrite H1|rewrite H2|rewrite Hn|rewrite Hp|rewrite H3|rewrite H4]; try by intros ? [= <-].
      * intros k Hk'. destruct Hder as [->|[Hz _]]; [by apply (oc_name _ _ Hs)|congruence].
      * intros k Hk'. destruct Hder as [->|[_ Hz]]; [by apply (oc_parent _ _ Hs)|congruence].
Qed.

Definition reachable (o : owner) (s : Session) : Prop := ∃ o0, rtc session_step (o0, NewSession) (o, s).

Lemma reachable_of_account o s : reachable o s → of_account o s.
Proof using KL EL ML.
  assert (∀ x y, rtc session_step x y → of_account x.1 x.2 → of_account y.1 y.2) as H.
  { induction 1 as [|x y z Hxy _ IH]; [done|]. intros Hx. apply IH. by eapply session_step_keeps. }
  intros [o0 Hr]. by apply (H _ _ Hr).
Qed.

(** C10: A session never mixes accounts.  Take any sequence of its operations,
    successful or not, in which the configuration, the agent and the keychain are
    at each step those of the account in use.  The account may change: when the
    session is cleared, when it takes background material (of any account), and
    when the keys of another account are imported into a session that caches no
    derived keys.  Then whatever the session caches and whatever it gives out
    belongs to the account in use: the key pair, the signing keys, and the name
    and parent keys derived from its private key.  The condition on imports is
    needed: an import replaces the key pair and the signing keys but leaves the
    cached name and parent keys as they are. *)
Theorem session_one_account o s v : reachable o s → view_ok o v →
  of_account o s ∧
  (∀ k, (KeyPair v s).1 = Ok k → k = (ow_pub o, ow_priv o)) ∧
  (∀ k, (SigningKeys v s).1 = Ok k → k = (ow_spub o, ow_spriv o)) ∧
  (∀ k, (nameKeyLocked v s).1 = Ok k → DeriveNameKey (ow_priv o) = Ok k) ∧
  (∀ k, (parentKeyLocked v s).1 = Ok k → DeriveParentKey (ow_priv o) = Ok k) ∧
  (∀ o' rnd sealed eph (a : Account S), owner_ok o' → transfer_ok o' sealed eph →
     let '(err, _, s') := ImportDeviceTransferredKeys rnd sealed eph a s in
     ss_nameKey s' = ss_nameKey s ∧ ss_parentKey s' = ss_parentKey s ∧
     (err = None → ss_priv s' = Some (ow_priv o') ∧ ss_signingPriv s' = Some (ow_spriv o'))).
Proof using KL EL ML.
  intros Hs%reachable_of_account Hv. split; [done|]. split_and!.
  - apply (keyPair_keeps o v Hv s Hs). - apply (signingKeys_keeps o v Hv s Hs).
  - apply (nameKey_keeps o v Hv s Hs). - apply (parentKey_keeps o v Hv s Hs).
  - intros o' rnd sealed eph a [Hk Hg] Ht. pose proof (Import_takes o' rnd sealed eph a s Hk Hg Ht) as H.
    destruct (ImportDeviceTransferredKeys rnd sealed eph a s) as [[[e|] a'] s']; naive_solver.
Qed.
End steps.

(** ** What an upload can be opened with *)

Section uploads.
Context `{U : Unicode, BL : Blake2b, A : AEAD, AL : !AEADLaws A, X : X25519, XL : !X25519Laws X, K : MLKEM, KL : !MLKEMLaws K,
  HK : Hkdf, HL : !HkdfLaws HK, AR : Argon2, E : Ed25519, EL : !Ed25519Laws E, M : MLDSA, ML : !MLDSALaws M,
  SS : Sha256Sum, SH : Sha256, SSL : !Sha256SumLaws SH SS, HM : Hmac, HML : !HmacLaws HM, FC : FileChunkSize}.

(** The sizes the code draws. *)
Definition env_drawn (ue : upload_env) : Prop :=
  length (ue_dataKey ue) = KeySize ∧ length (ue_fileNonce ue) = NonceSize ∧
  ∀ i, length (ue_rand ue i).1.1 = 32%nat ∧ length (ue_rand ue i).2 = NonceSize.

Lemma seal_key_opens rnd key pub priv : keys_ok pub priv → length rnd.1.1 = 32%nat → length rnd.2 = NonceSize →
  ∃ sealed, seal_key rnd key pub = Ok sealed ∧ UnsealDataKey sealed (Some priv) = Ok key.
Proof using AL XL KL HL.
  destruct rnd as [[eph kem] nonce]. cbn. intros Hk He Hn.
  destruct (HybridUnseal_ok key pub priv eph kem nonce Hk He Hn) as (sealed & Hs & _ & Hu).
  exists sealed. unfold SealDataKey, UnsealDataKey. by rewrite Hs, Hu.
Qed.

(** The sealed key of the artifacts, for a private key. *)
Definition seals (text : string) (priv : PrivateKeySet) (key : bytes) : Prop :=
  ∃ sealed, text = base64_encode sealed ∧ UnsealDataKey sealed (Some priv) = Ok key.

(** C13: What [EncryptForUpload] prepares opens for its owner and for the scanner.
    In a session of the account it either fails and leaves no temporary file, or
    the file it leaves decrypts, with the key that it sealed for the account and
    with the metadata that it encoded, to exactly what was read; the scanner's
    copy, when the scanner is in use, holds the same key, without it the server
    has the scanner disabled; and the fingerprint is that of the plaintext under
    the name key of the account. *)
Theorem EncryptForUpload_opens o v ue s r left' s' :
  keys_ok (ow_pub o) (ow_priv o) → view_ok o v → of_account o s → env_drawn ue →
  EncryptForUpload v ue s = (r, left', s') →
  match r with
  | Err _ => left' = None
  | Ok art => left' = Some (ua_Encrypted art) ∧ ∃ src meta json nameKey,
      ue_input ue = Ok src ∧ read_error src = None ∧
      seals (ua_SealedKeyB64 art) (ow_priv o) (ue_dataKey ue) ∧
      ue_meta_json ue (WireJSON meta) = Ok json ∧ ua_EncMetaB64 art = base64_encode json ∧
      decryptReader (ua_Encrypted art) (ue_dataKey ue) (WireJSON meta) = Ok (remaining src) ∧
      ua_TeeKeySet art = ue_teeKeys ue ∧ (ue_teeKeys ue = None → ue_disabled ue = true) ∧
      (∀ tpub tpriv, ue_teeKeys ue = Some tpub → keys_ok tpub tpriv → seals (ua_TeeSealedKeyB64 art) tpriv (ue_dataKey ue)) ∧
      DeriveNameKey (ow_priv o) = Ok nameKey ∧
      ua_PlaintextHmacHex art = hex_encode (hmac_sha256 nameKey (sha256_Sum256 (remaining src)))
  end.
Proof using AL XL KL HL HML SSL.
  intros Hk Hv Hs (Hkey & Hnonce & Hrand) Hup. unfold EncryptForUpload in Hup.
  destruct (publicKey_keeps o v Hv s Hs) as [Hs1 Hpub].
  destruct (publicKeyLocked v s) as [[pub|e] s1]; [|by simplify_eq]. cbn [fst snd] in *. rewrite (Hpub pub eq_refl) in Hup.
  destruct (ue_temp ue); [by simplify_eq|]. cbv zeta in Hup.
  destruct (EncryptFile _ _ _ _ _) as [[meta|e] enc] eqn:Henc; [|by simplify_eq].
  destruct (EncryptFile_decrypts _ _ _ _ _ _ _ Hkey Hnonce Henc) as (src & Hin & Hre & Hdec & _ & _ & Hsha).
  destruct (seal_key_opens (ue_rand ue 0) (ue_dataKey ue) _ _ Hk) as (sealed & Hsk & Hun); [apply Hrand..|].
  rewrite Hsk in Hup. destruct (ue_meta_json ue _) as [json|] eqn:Hj; [|by simplify_eq].
  destruct (bool_decide (ue_teeKeys ue = None) && negb (ue_disabled ue)) eqn:Hdis; [by simplify_eq|].
  match type of Hup with context [match ?x with Ok _ => _ | Err _ => _ end] => destruct x as [tee|] eqn:Htee; [|by simplify_eq] end.
  destruct (nameKey_keeps o v Hv s1 Hs1) as [_ Hname].
  destruct (nameKeyLocked v s1) as [[nameKey|] s2]; [|by simplify_eq]. injection Hup as <- <- <-. split; [done|].
  exists src, meta, json, nameKey. cbn [ua_SealedKeyB64 ua_EncMetaB64 ua_Encrypted ua_TeeKeySet ua_TeeSealedKeyB64 ua_PlaintextHmacHex].
  split_and!; try done; [by exists sealed| | |by apply Hname|].
  - intros Hn. rewrite bool_decide_true in Hdis by done. by destruct (ue_disabled ue).
  - intros tpub tpriv Ht Htk. rewrite Ht in Htee.
    destruct (seal_key_opens (ue_rand ue 1) (ue_dataKey ue) _ _ Htk) as (ts & Hts & Htun); [apply Hrand..|].
    rewrite Hts in Htee. cbn in Htee. injection Htee as <-. by exists ts.
  - rewrite Hsha. unfold ComputePlaintextHmac. by rewrite sha256_Sum256_hex, hex_decode_encode.
Qed.

(** The signatures of the session verify under the signing key of the account. *)
Theorem SignEncryptedFile_verifies o v data s sigs s' :
  generated_keys (ow_spub o) (ow_spriv o) → view_ok o v → of_account o s →
  SignEncryptedFile v (Ok (Ok data)) s = (Ok sigs, s') →
  ∃ sigEd sigMl, us_SignatureEd25519B64 sigs = base64_encode sigEd ∧ us_SignatureMldsaB64 sigs = base64_encode sigMl ∧
    us_SigningPkEd25519B64 sigs = base64_encode (spk_Ed25519 (ow_spub o)) ∧
    us_SigningPkMldsaB64 sigs = base64_encode (spk_Mldsa (ow_spub o)) ∧
    VerifyFileSignatures (Ok data) sigEd sigMl (Some (ow_spub o)) = Ok tt.
Proof using EL ML SSL.
  intros Hg Hv Hs. unfold SignEncryptedFile, op_bind, op_lift. destruct (signingKeys_keeps o v Hv s Hs) as [_ Hk].
  destruct (signingKeysLocked v s) as [[[spub spriv]|e] s1]; [|done]. specialize (Hk _ eq_refl). injection Hk as -> ->.
  cbn [on_error]. destruct (SignFileBytes_verifies data _ _ Hg) as (sigEd & sigMl & Hsig & Hver). rewrite Hsig. cbn [on_error].
  intros [= <- _]. by exists sigEd, sigMl.
Qed.
End uploads.

(** ** A concrete session *)

#[local] Instance ex_unicode_session : Unicode := { norm_NFC := id; cases_Lower := id; strings_ToLower := id }.

Definition ex_nameKey : bytes := match DeriveNameKey ex_priv with Ok k => k | Err _ => [] end.
Definition ex_owner : owner := mkOwner ex_pub ex_priv ex_signing.1 ex_signing.2.
(** A configuration whose wrapped keys are out of order: only the agent opens it. *)
Definition ex_agent_view : View := mkView
  (ex_config <| cf_PublicKey := base64_encode (pk_X25519 ex_pub) |> <| cf_PublicKeyKyber := base64_encode (pk_Kyber ex_pub) |>
             <| cf_EncryptedPrivateKey := "AAAA" |> <| cf_EncryptedPrivateKeyKyber := "AAAA" |>)
  None (Some (mkAgentKeys (pk_X25519 ex_pub) (sk_X25519 ex_priv) (pk_Kyber ex_pub) (sk_Kyber ex_priv) ex_nameKey
    (spk_Ed25519 ex_signing.1) (ssk_Ed25519 ex_signing.2) (spk_Mldsa ex_signing.1) (ssk_Mldsa ex_signing.2))) None.

Lemma spk_eta p : mkSigningPublicKeySet (spk_Ed25519 p) (spk_Mldsa p) = p.
Proof. by destruct p. Qed.
Lemma ssk_eta p : mkSigningPrivateKeySet (ssk_Ed25519 p) (ssk_Mldsa p) = p.
Proof. by destruct p. Qed.
Lemma ex_view_ok : view_ok ex_owner ex_agent_view.
Proof.
  assert (decodePublicKeySet (vw_cfg ex_agent_view) = Ok ex_pub) as Hp by (vm_compute; reflexivity).
  split.
  - intros p H. rewrite Hp in H. by injection H.
  - intros enc key p He Hd. exfalso. unfold decodeEncryptedHybridFromConfig in He. cbn in He. injection He as <-.
    unfold DecryptHybridPrivateKeyWithRawKey in Hd. rewrite !ensure_bind_Ok in Hd. by destruct Hd as (_ & ? & _).
  - done.
  - intros keys [= <-]. split_and!; [done|done|vm_compute; reflexivity|]. intros _. split; [exact (spk_eta ex_signing.1)|exact (ssk_eta ex_signing.2)].
Qed.

Definition ex_unlocked : Session := (ensureKeysFromAgentLocked ex_agent_view NewSession).2.
Lemma ex_unlocked_reachable : reachable (S := unit) ex_owner ex_unlocked.
Proof. exists ex_owner. apply rtc_once, step_EnsureKeysFromAgent, ex_view_ok. Qed.

(** Another account's background material, taken by that session. *)
Definition ex_other_priv : PrivateKeySet := mkPrivateKeySet (replicate 32 x21) (replicate 64 x22).
Definition ex_other_pub : PublicKeySet := match DeriveHybridPublic (Some ex_other_priv) with Ok p => p | Err _ => ex_pub end.
Definition ex_other : owner := mkOwner ex_other_pub ex_other_priv ex_signing.1 ex_signing.2.
Definition ex_key (r : result error bytes) : bytes := match r with Ok k => k | Err _ => [] end.
Definition ex_other_material : BackgroundKeyMaterial :=
  mkBackgroundKeyMaterial (ex_key (DeriveNameKey ex_other_priv)) (ex_key (DeriveParentKey ex_other_priv))
    (Some ex_signing.2) (Some ex_signing.1) (Some ex_other_pub).
Definition ex_switched : Session := (UnlockBackground (Some ex_other_material) ex_unlocked).2.
Definition ex_no_keys_view : View := mkView ((vw_cfg ex_agent_view) <| cf_PublicKey := "" |>) None None None.

Lemma ex_no_keys_ok : view_ok ex_other ex_no_keys_view.
Proof.
  assert (is_ok (decodePublicKeySet (vw_cfg ex_no_keys_view)) = false) as Hp by (vm_compute; reflexivity).
  split.
  - intros p H. by rewrite H in Hp.
  - intros enc key p He Hd. exfalso. unfold decodeEncryptedHybridFromConfig in He. cbn in He. injection He as <-.
    unfold DecryptHybridPrivateKeyWithRawKey in Hd. rewrite !ensure_bind_Ok in Hd. by destruct Hd as (_ & ? & _).
  - done.
  - done.
Qed.

Lemma ex_switched_reachable : reachable (S := unit) ex_other ex_switched.
Proof.
  exists ex_owner. eapply rtc_l; [apply step_EnsureKeysFromAgent, ex_view_ok|]. fold ex_unlocked.
  assert ((UnlockBackground (Some ex_other_material) ex_unlocked).1 = None) as Hn by (vm_compute; reflexivity).
  pose proof (step_UnlockBackground (S := unit) ex_owner ex_other ex_other_material ex_unlocked) as H. rewrite Hn in H.
  apply rtc_once, H. split_and!; vm_compute; reflexivity.
Qed.

Lemma session_one_account_witness :
  ss_nameKey ex_unlocked ≠ ss_nameKey ex_switched ∧ of_account ex_other ex_switched ∧
  (∀ k, (nameKeyLocked ex_no_keys_view ex_switched).1 = Ok k → DeriveNameKey ex_other_priv = Ok k) ∧
  is_ok (nameKeyLocked ex_no_keys_view ex_switched).1 = true.
Proof.
  destruct (session_one_account (S := unit) ex_other ex_switched ex_no_keys_view ex_switched_reachable ex_no_keys_ok)
    as (H & _ & _ & Hn & _).
  split; [vm_compute; discriminate|]. split; [exact H|]. split; [exact Hn|vm_compute; reflexivity].
Defined.

#[local] Existing Instance ex_file_chunk | 0.
Definition ex_upload : upload_env := mkUploadEnv None (Ok (mkSource [x61; x62; x63] None)) None 1000 (replicate 32 x04) (replicate 24 x05)
  (λ i, (replicate 32 x06, replicate 64 x07, replicate 24 x08)) (λ _, Ok [x7b; x7d]) (Some ex_pub) false None None.

Lemma EncryptForUpload_opens_witness :
  ∃ art s, EncryptForUpload ex_agent_view ex_upload ex_unlocked = (Ok art, Some (ua_Encrypted art), s) ∧
    seals (ua_SealedKeyB64 art) ex_priv (replicate 32 x04) ∧ seals (ua_TeeSealedKeyB64 art) ex_priv (replicate 32 x04).
Proof.
  assert (is_ok (EncryptForUpload ex_agent_view ex_upload ex_unlocked).1.1 = true) as Hok by (vm_compute; reflexivity).
  destruct (EncryptForUpload ex_agent_view ex_upload ex_unlocked) as [[r left'] s] eqn:He. cbn in Hok.
  pose proof (EncryptForUpload_opens ex_owner ex_agent_view ex_upload ex_unlocked r left' s ex_keys_ok ex_view_ok
    (reachable_of_account (S := unit) ex_owner _ ex_unlocked_reachable)
    (conj eq_refl (conj eq_refl (λ i, conj eq_refl eq_refl))) He) as H.
  destruct r as [art|]; [|discriminate]. destruct H as (-> & src & meta & json & nk & _ & _ & Hs & _ & _ & _ & _ & _ & Ht & _).
  exists art, s. split; [reflexivity|]. split; [exact Hs|]. exact (Ht ex_pub ex_priv eq_refl ex_keys_ok).
Defined.
