(* ===== verification/Agent.v ===== *)
(** * The key agent

    [internal/agent/agent.go], with [agentkeys] and [StartAgentForKeys] of
    [internal/cmdutil/keys.go]: processes that hold unlocked keys behind a local
    port and a token, and the file [agent.json] through which clients find the
    one that runs.  A step is what one process does without waiting: an agent
    starts, answers one request, or shuts down; time passes in between.  The
    system hands out a port to one listener at a time; a request and its answer
    are records, [encoding/json] carries them unchanged. *)
From S2P Require Import Prelude GoLib GoFmt ApiErrors Crypto Hybrid Sign FileCrypt Names PinStore Config Session.
Local Open Scope Z_scope.

Definition X25519KeySize : nat := 32.

(** Absent signing keys are empty. *)
Record KeyMaterial : Type := mkKeyMaterial {
  km_PublicKey : bytes; km_PrivateKey : bytes; km_KyberPublicKey : bytes; km_KyberSeed : bytes; km_NameKey : bytes;
  km_SigningPublicKeyEd25519 : bytes; km_SigningPrivateKeyEd25519 : bytes;
  km_SigningPublicKeyMldsa : bytes; km_SigningPrivateKeyMldsa : bytes }.
Record AgentInfo : Type := mkAgentInfo { ai_Port : Z; ai_Token : string; ai_PID : nat; ai_Expires : option Z }.
Record Request : Type := mkRequest { rq_Token : string; rq_Action : string }.
Record Response : Type := mkResponse {
  rs_OK : bool; rs_Error : string; rs_PublicKey : string; rs_PrivateKey : string;
  rs_KyberPublicKey : string; rs_KyberSeed : string; rs_NameKey : string;
  rs_SigningPublicKeyEd25519 : string; rs_SigningPrivateKeyEd25519 : string;
  rs_SigningPublicKeyMldsa : string; rs_SigningPrivateKeyMldsa : string }.
Definition answer (ok : bool) (error : string) : Response := mkResponse ok error "" "" "" "" "" "" "" "" "".

(** One agent process: its guard, whether it listens, the time it is to end, when
    its timer fires ([None]: stopped or fired), whether [shutdown] has run, and
    when the shutdowns that sleep for their 100 milliseconds wake up. *)
Record Agent : Type := mkAgent {
  ag_port : Z; ag_token : string; ag_keys : option KeyMaterial; ag_listening : bool; ag_expires : Z;
  ag_timer : option Z; ag_shut : bool; ag_pending : list Z }.
#[export] Instance eta_Agent : Eta Agent := λ g,
  mkAgent (ag_port g) (ag_token g) (ag_keys g) (ag_listening g) (ag_expires g) (ag_timer g) (ag_shut g) (ag_pending g).
Definition shutdownDelay : Z := 100 * millisecond.

(** The clock, the file [agent.json], and the agents by process. *)
Record Machine : Type := mkMachine { mc_now : Z; mc_file : file AgentInfo; mc_agents : gmap nat Agent }.
#[export] Instance eta_Machine : Eta Machine := λ m, mkMachine (mc_now m) (mc_file m) (mc_agents m).

(** ** The file *)

Definition RemoveAgentFile (m : Machine) : Machine := m <| mc_file := FileAbsent |>.
Definition ReadAgentFile (m : Machine) : option AgentInfo * Machine :=
  match mc_file m with
  | FileDoc info =>
      if decide (ai_Port info = 0 ∨ ai_Token info = "") then (None, m)
      else match ai_Expires info with
           | Some t => if decide (t < mc_now m) then (None, RemoveAgentFile m) else (Some info, m)
           | None => (Some info, m)
           end
  | _ => (None, m)
  end.

(** ** The server *)

Definition response (g : Agent) : option Response :=
  match ag_keys g with
  | None => None
  | Some k => Some (mkResponse true "" (hex_encode (km_PublicKey k)) (hex_encode (km_PrivateKey k))
      (hex_encode (km_KyberPublicKey k)) (hex_encode (km_KyberSeed k)) (hex_encode (km_NameKey k))
      (hex_encode (km_SigningPublicKeyEd25519 k)) (hex_encode (km_SigningPrivateKeyEd25519 k))
      (hex_encode (km_SigningPublicKeyMldsa k)) (hex_encode (km_SigningPrivateKeyMldsa k)))
  end.
(** The guard forgets the keys; what it zeroes first is no longer reachable. *)
Definition wipe (g : Agent) : Agent := g <| ag_keys := None |>.

(** [handleConn] at a time: [None] is a request that does not decode. *)
Definition handleConn (now : Z) (req : option Request) (g : Agent) : Response * Agent :=
  match req with
  | None => (answer false "invalid request", g)
  | Some req =>
      if decide (rq_Token req ≠ ag_token g) then (answer false "unauthorized", g)
      else if decide (rq_Action req = "ping") then (answer true "", g)
      else if decide (rq_Action req = "keys") then
        match response g with
        | Some resp => (resp, g)
        | None => (answer false "agent expired", g)
        end
      else if decide (rq_Action req = "shutdown") then
        (answer true "", g <| ag_timer := None |> <| ag_pending := ag_pending g ++ [now + shutdownDelay] |>)
      else (answer false "unknown action", g)
  end.

(** [shutdown] of an agent, once. *)
Definition shutdown (pid : nat) (m : Machine) : Machine :=
  match mc_agents m !! pid with
  | Some g =>
      if ag_shut g then m
      else RemoveAgentFile (m <| mc_agents := <[pid := wipe (g <| ag_shut := true |> <| ag_listening := false |>)]> (mc_agents m) |>)
  | None => m
  end.

(** [serveListener] up to the loop that accepts: with its token, the file is
    written ([write] is the error of that) and the timer runs. *)
Definition serveListener (pid : nat) (keys : KeyMaterial) (ttl port : Z) (token : string) (write : option error) (m : Machine)
    : option error * Machine :=
  match write with
  | Some e => (Some (ErrWrap "write agent file" e), m)
  | None =>
      (None, m <| mc_file := FileDoc (mkAgentInfo port token pid (Some (mc_now m + ttl))) |>
               <| mc_agents := <[pid := mkAgent port token (Some keys) true (mc_now m + ttl) (Some (mc_now m + ttl)) false []]> (mc_agents m) |>)
  end.

(** ** The client *)

(** The agent that listens on a port. *)
Definition listener (port : Z) (m : Machine) : option (nat * Agent) :=
  match list_find (λ p : nat * Agent, ag_listening p.2 = true ∧ ag_port p.2 = port) (map_to_list (mc_agents m)) with
  | Some (_, p) => Some p
  | None => None
  end.

(** [sendRequest]; [wire] is the error of an exchange that breaks off: with
    [true] the request has reached the agent. *)
Definition sendRequest (info : AgentInfo) (action : string) (wire : option (bool * error)) (m : Machine)
    : result error Response * Machine :=
  match listener (ai_Port info) m with
  | None => (Err (ErrText "connection refused"), RemoveAgentFile m)
  | Some (pid, g) =>
      let '(resp, g') := handleConn (mc_now m) (Some (mkRequest (ai_Token info) action)) g in
      let m' := m <| mc_agents := <[pid := g']> (mc_agents m) |> in
      match wire with
      | None => (Ok resp, m')
      | Some (reached, e) => (Err e, if reached then m' else m)
      end
  end.

Definition RequestKeys (wire : option (bool * error)) (m : Machine) : option KeyMaterial * Machine :=
  let '(info, m) := ReadAgentFile m in
  match info with
  | None => (None, m)
  | Some info =>
      let '(r, m) := sendRequest info "keys" wire m in
      match r with
      | Err _ => (None, m)
      | Ok resp =>
          if negb (rs_OK resp) then (None, m) else
          match DecodeHexKey (rs_PublicKey resp) X25519KeySize, DecodeHexKey (rs_PrivateKey resp) X25519KeySize,
                DecodeHexKey (rs_KyberPublicKey resp) KyberPublicKeySize, DecodeHexKey (rs_KyberSeed resp) KyberSeedSize,
                DecodeHexKey (rs_NameKey resp) NameKeySize with
          | Some pub, Some priv, Some kyberPub, Some kyberSeed, Some name =>
              let key s n := default [] (DecodeHexKey s n) in
              (Some (mkKeyMaterial pub priv kyberPub kyberSeed name
                 (key (rs_SigningPublicKeyEd25519 resp) Ed25519PKSize) (key (rs_SigningPrivateKeyEd25519 resp) Ed25519SKSize)
                 (key (rs_SigningPublicKeyMldsa resp) Mldsa44PKSize) (key (rs_SigningPrivateKeyMldsa resp) Mldsa44SKSize)), m)
          | _, _, _, _, _ => (None, m)
          end
      end
  end.
Definition Ping (wire : option (bool * error)) (m : Machine) : bool * Machine :=
  let '(info, m) := ReadAgentFile m in
  match info with
  | None => (false, m)
  | Some info =>
      let '(r, m) := sendRequest info "ping" wire m in
      (match r with Ok resp => rs_OK resp | Err _ => false end, m)
  end.
(** [Shutdown]; whatever becomes of the request, the file is removed. *)
Definition Shutdown (wire : option (bool * error)) (m : Machine) : option error * Machine :=
  let '(info, m) := ReadAgentFile m in
  match info with
  | None => (None, m)
  | Some info =>
      let '(r, m) := sendRequest info "shutdown" wire m in
      (match r with Ok _ => None | Err e => Some e end, RemoveAgentFile m)
  end.

(** [Source.Keys] of [internal/agentkeys]. *)
Definition Keys (wire : option (bool * error)) (m : Machine) : option AgentKeys * Machine :=
  let '(km, m) := RequestKeys wire m in
  ((λ km, mkAgentKeys (km_PublicKey km) (km_PrivateKey km) (km_KyberPublicKey km) (km_KyberSeed km) (km_NameKey km)
      (km_SigningPublicKeyEd25519 km) (km_SigningPrivateKeyEd25519 km)
      (km_SigningPublicKeyMldsa km) (km_SigningPrivateKeyMldsa km)) <$> km, m).

(** ** Starting an agent *)

(** What is written to the new process: every key in hexadecimal. *)
Record SpawnKeys : Type := mkSpawnKeys {
  sp_Pub : string; sp_Priv : string; sp_KyberPub : string; sp_KyberSeed : string; sp_NameKey : string;
  sp_SignPubEd : string; sp_SignPrivEd : string; sp_SignPubMl : string; sp_SignPrivMl : string }.
Definition spawn_keys (pub : PublicKeySet) (priv : PrivateKeySet) (nameKey : bytes)
    (signPub : option SigningPublicKeySet) (signPriv : option SigningPrivateKeySet) : SpawnKeys :=
  let hex := hex_encode in
  match signPub, signPriv with
  | Some sp, Some sk => mkSpawnKeys (hex (pk_X25519 pub)) (hex (sk_X25519 priv)) (hex (pk_Kyber pub)) (hex (sk_Kyber priv)) (hex nameKey)
      (hex (spk_Ed25519 sp)) (hex (ssk_Ed25519 sk)) (hex (spk_Mldsa sp)) (hex (ssk_Mldsa sk))
  | _, _ => mkSpawnKeys (hex (pk_X25519 pub)) (hex (sk_X25519 priv)) (hex (pk_Kyber pub)) (hex (sk_Kyber priv)) (hex nameKey) "" "" "" ""
  end.
(** The command [__agent-serve] reads them: [None] when it exits. *)
Definition agent_serve_keys (spawn : SpawnKeys) : option KeyMaterial :=
  pub ← DecodeHexKey (sp_Pub spawn) X25519KeySize;
  priv ← DecodeHexKey (sp_Priv spawn) X25519KeySize;
  kyberPub ← DecodeHexKey (sp_KyberPub spawn) KyberPublicKeySize;
  kyberSeed ← DecodeHexKey (sp_KyberSeed spawn) KyberSeedSize;
  name ← DecodeHexKey (sp_NameKey spawn) NameKeySize;
  let key s n := default [] (DecodeHexKey s n) in
  Some (mkKeyMaterial pub priv kyberPub kyberSeed name
    (key (sp_SignPubEd spawn) Ed25519PKSize) (key (sp_SignPrivEd spawn) Ed25519SKSize)
    (key (sp_SignPubMl spawn) Mldsa44PKSize) (key (sp_SignPrivMl spawn) Mldsa44SKSize)).
Definition agent_ttl (ttlSec : Z) : Z := let ttl := ttlSec * second in if decide (ttl ≤ 0) then hour else ttl.

(** ** Steps *)

(** A port a new listener may get, and a token no agent has. *)
Definition fresh_port (port : Z) (m : Machine) : Prop :=
  port ≠ 0 ∧ ∀ pid g, mc_agents m !! pid = Some g → ag_listening g = true → ag_port g ≠ port.
Definition fresh_token (token : string) (m : Machine) : Prop :=
  token ≠ "" ∧ ∀ pid g, mc_agents m !! pid = Some g → ag_token g ≠ token.

Definition set_agent (pid : nat) (g : Agent) (m : Machine) : Machine := m <| mc_agents := <[pid := g]> (mc_agents m) |>.

(** A timer of an agent fires when its time has come: the one that ends it, or
    that of a shutdown it was asked for. *)
Inductive fires (pid : nat) : Machine → Machine → Prop :=
| fires_timer g t m : mc_agents m !! pid = Some g → ag_timer g = Some t → t ≤ mc_now m →
    fires pid m (shutdown pid (set_agent pid (g <| ag_timer := None |>) m))
| fires_delayed g l1 t l2 m : mc_agents m !! pid = Some g → ag_pending g = l1 ++ t :: l2 → t ≤ mc_now m →
    fires pid m (shutdown pid (set_agent pid (g <| ag_pending := l1 ++ l2 |>) m)).

(** The loop of an agent ends when its listener is closed, and only then. *)
Inductive agent_step : Machine → Machine → Prop :=
| step_serve pid keys ttl port token write m :
    mc_agents m !! pid = None → 0 ≤ ttl → fresh_port port m → fresh_token token m →
    agent_step m (serveListener pid keys ttl port token write m).2
| step_request pid g req m : mc_agents m !! pid = Some g → ag_listening g = true →
    agent_step m (set_agent pid (handleConn (mc_now m) req g).2 m)
| step_fires pid m m' : fires pid m m' → agent_step m m'
| step_listener_closed pid g m : mc_agents m !! pid = Some g → ag_listening g = false → agent_step m (shutdown pid m)
| step_RequestKeys wire m : agent_step m (RequestKeys wire m).2
| step_Ping wire m : agent_step m (Ping wire m).2
| step_Shutdown wire m : agent_step m (Shutdown wire m).2
| step_passes d m : 0 ≤ d → agent_step m (m <| mc_now := mc_now m + d |>).

Definition start (now : Z) : Machine := mkMachine now FileAbsent ∅.
Definition agents_reachable (now : Z) (m : Machine) : Prop := rtc agent_step (start now) m.

(** No timer of an agent is overdue. *)
Definition due (g : Agent) : list Z := option_list (ag_timer g) ++ ag_pending g.
Definition punctual (m : Machine) : Prop := ∀ pid g t, mc_agents m !! pid = Some g → t ∈ due g → mc_now m ≤ t.
(** Runs whose timers fire on time. *)
Definition timely_reachable (now : Z) (m : Machine) : Prop :=
  rtc (λ m m', agent_step m m' ∧ punctual m') (start now) m.

(** ** What holds of every agent *)

(** An agent that was shut down holds no keys and hears nothing; one that was
    not has its timer set to its end, or a shutdown on its way. *)
Definition agent_ok (g : Agent) : Prop :=
  if ag_shut g then ag_keys g = None ∧ ag_listening g = false
  else ag_listening g = true ∧ (∃ k, ag_keys g = Some k) ∧ (ag_timer g = Some (ag_expires g) ∨ ag_pending g ≠ []).

Record machine_ok (m : Machine) : Prop := {
  mo_agents pid g : mc_agents m !! pid = Some g → agent_ok g;
  mo_ports p1 p2 g1 g2 : mc_agents m !! p1 = Some g1 → mc_agents m !! p2 = Some g2 →
    ag_listening g1 = true → ag_listening g2 = true → ag_port g1 = ag_port g2 → p1 = p2;
  mo_tokens p1 p2 g1 g2 : mc_agents m !! p1 = Some g1 → mc_agents m !! p2 = Some g2 → ag_token g1 = ag_token g2 → p1 = p2 }.

(** A change of one agent that keeps its port and token, and opens nothing. *)
Definition quieter (g g' : Agent) : Prop :=
  ag_port g' = ag_port g ∧ ag_token g' = ag_token g ∧ (ag_listening g' = true → ag_listening g = true).

Lemma set_agent_ok m pid g g' : machine_ok m → mc_agents m !! pid = Some g → quieter g g' → agent_ok g' →
  machine_ok (set_agent pid g' m).
Proof.
  intros [Ha Hp Ht] Hg (Q1 & Q2 & Q3) Hok.
  assert (∀ p x, mc_agents (set_agent pid g' m) !! p = Some x → (p = pid ∧ x = g') ∨ (p ≠ pid ∧ mc_agents m !! p = Some x)) as Hl.
  { intros p x. cbn. destruct (decide (p = pid)) as [->|Hne]; [rewrite lookup_insert_eq; intros [= <-]; by left|].
    rewrite lookup_insert_ne by done. by right. }
  split.
  - intros p x [[_ ->]|[_ Hx]]%Hl; [done|by eapply Ha].
  - intros p1 p2 g1 g2 [[-> ->]|[_ H1]]%Hl [[-> ->]|[_ H2]]%Hl L1 L2 He; try done; eapply Hp; eauto; congruence.
  - intros p1 p2 g1 g2 [[-> ->]|[_ H1]]%Hl [[-> ->]|[_ H2]]%Hl He; try done; eapply Ht; eauto; congruence.
Qed.

Lemma file_ok m f : machine_ok m → machine_ok (m <| mc_file := f |>).
Proof. by intros []; split. Qed.

Lemma handleConn_ok now req g : agent_ok g → agent_ok (handleConn now req g).2 ∧ quieter g (handleConn now req g).2.
Proof.
  intros Hok. destruct req as [req|]; [|by split]. unfold handleConn. case_decide; [by split|]. case_decide; [by split|].
  case_decide; [by destruct (response g)|]. case_decide; [|by split]. split; [|done].
  unfold agent_ok in *. cbn. destruct (ag_shut g); [done|]. split_and!; [by apply Hok..|right; by destruct (ag_pending g)].
Qed.

Lemma shutdown_ok pid m : machine_ok m → machine_ok (shutdown pid m).
Proof.
  intros Hm. unfold shutdown. destruct (mc_agents m !! pid) as [g|] eqn:Hg; [|done]. destruct (ag_shut g) eqn:Hs; [done|].
  apply file_ok. by apply (set_agent_ok m pid g).
Qed.

(** [shutdown] of an agent that changed only in its timer or its waits. *)
Lemma shutdown_set pid g g' m : machine_ok m → mc_agents m !! pid = Some g → quieter g g' →
  ag_shut g' = ag_shut g → ag_keys g' = ag_keys g → ag_listening g' = ag_listening g →
  machine_ok (shutdown pid (set_agent pid g' m)).
Proof.
  intros Hm Hg Hq H1 H2 H3. unfold shutdown. cbn. rewrite lookup_insert_eq, H1.
  pose proof (mo_agents m Hm pid g Hg) as Hok. destruct (ag_shut g) eqn:Hs.
  - apply (set_agent_ok m pid g); [done..|]. unfold agent_ok in *. rewrite Hs in Hok. by rewrite H1, H2, H3.
  - apply file_ok. unfold set_agent. cbn. rewrite insert_insert_eq. apply (set_agent_ok m pid g); [done..| |done].
    destruct Hq as (? & ? & ?). by split_and!.
Qed.

Lemma listener_Some port m pid g : listener port m = Some (pid, g) →
  mc_agents m !! pid = Some g ∧ ag_listening g = true ∧ ag_port g = port.
Proof.
  unfold listener. destruct (list_find _ _) as [[i [p x]]|] eqn:Hf; [|done]. intros [= -> ->].
  apply list_find_Some in Hf as (Hi & [H1 H2] & _). split; [|done].
  apply elem_of_map_to_list. by eapply list_elem_of_lookup_2.
Qed.
Lemma listener_unique port m pid g : machine_ok m → mc_agents m !! pid = Some g → ag_listening g = true → ag_port g = port →
  listener port m = Some (pid, g).
Proof.
  intros Hm Hg Hl Hp. destruct (listener port m) as [[p x]|] eqn:He.
  - apply listener_Some in He as (Hx & Hlx & Hpx). assert (p = pid) as -> by (eapply (mo_ports m Hm); eauto; congruence). congruence.
  - exfalso. unfold listener in He. destruct (list_find _ _) as [[i q]|] eqn:Hf; [done|].
    apply list_find_None in Hf. rewrite Forall_forall in Hf. apply (Hf (pid, g)); [by apply elem_of_map_to_list|done].
Qed.

Lemma sendRequest_ok info action wire m : machine_ok m → machine_ok (sendRequest info action wire m).2.
Proof.
  intros Hm. unfold sendRequest. destruct (listener _ m) as [[pid g]|] eqn:Hl; [|by apply file_ok].
  apply listener_Some in Hl as (Hg & _ & _). pose proof (mo_agents m Hm _ _ Hg) as Hok.
  destruct (handleConn_ok (mc_now m) (Some (mkRequest (ai_Token info) action)) g Hok) as [Hok' Hq].
  destruct (handleConn _ _ g) as [resp g']. cbn [snd] in *. pose proof (set_agent_ok m pid g g' Hm Hg Hq Hok') as Hm'.
  by destruct wire as [[[] e]|].
Qed.
Lemma ReadAgentFile_ok m : machine_ok m → machine_ok (ReadAgentFile m).2.
Proof.
  intros Hm. unfold ReadAgentFile. destruct (mc_file m); try done. case_decide; [done|].
  destruct (ai_Expires d); [|done]. case_decide; [by apply file_ok|done].
Qed.

Lemma agent_step_ok m m' : agent_step m m' → machine_ok m → machine_ok m'.
Proof.
  intros Hst Hm. destruct Hst as [pid keys ttl port token write m Hp Ht [_ Hport] [_ Htok]|pid g req m Hg _|pid m m' Hf
    |pid g m _ _|wire m|wire m|wire m|d m _].
  - unfold serveListener. destruct write; [done|]. cbn. destruct Hm as [Ha Hps Hts].
    assert (∀ p x, <[pid := mkAgent port token (Some keys) true (mc_now m + ttl) (Some (mc_now m + ttl)) false []]> (mc_agents m) !! p = Some x →
      (p = pid ∧ ag_port x = port ∧ ag_token x = token ∧ agent_ok x) ∨ (p ≠ pid ∧ mc_agents m !! p = Some x)) as Hl.
    { intros p x. destruct (decide (p = pid)) as [->|Hne]; [|rewrite lookup_insert_ne by done; by right].
      rewrite lookup_insert_eq. intros [= <-]. left. unfold agent_ok. cbn. split_and!; [done..|by exists keys|by left]. }
    split; cbn.
    + intros p x [(_ & _ & _ & ?)|[_ Hx]]%Hl; [done|by eapply Ha].
    + intros p1 p2 g1 g2 [(-> & P1 & _)|[_ H1]]%Hl [(-> & P2 & _)|[_ H2]]%Hl L1 L2 He; [done| | |by eapply Hps].
      * exfalso. apply (Hport _ _ H2 L2). congruence.
      * exfalso. apply (Hport _ _ H1 L1). congruence.
    + intros p1 p2 g1 g2 [(-> & _ & T1 & _)|[_ H1]]%Hl [(-> & _ & T2 & _)|[_ H2]]%Hl He; [done| | |by eapply Hts].
      * exfalso. apply (Htok _ _ H2). congruence.
      * exfalso. apply (Htok _ _ H1). congruence.
  - destruct (handleConn_ok (mc_now m) req g) as [Hok Hq]; [by eapply mo_agents|]. by apply (set_agent_ok m pid g).
  - by destruct Hf; apply (shutdown_set pid g).
  - by apply shutdown_ok.
  - unfold RequestKeys. pose proof (ReadAgentFile_ok m Hm) as H1. destruct (ReadAgentFile m) as [[info|] m1]; [|done].
    pose proof (sendRequest_ok info "keys" wire m1 H1) as H2. destruct (sendRequest _ _ _ _) as [[resp|e] m2]; [|done].
    destruct (negb _); [done|]. by repeat (match goal with |- context [match ?x with _ => _ end] => destruct x end).
  - unfold Ping. pose proof (ReadAgentFile_ok m Hm) as H1. destruct (ReadAgentFile m) as [[info|] m1]; [|done].
    pose proof (sendRequest_ok info "ping" wire m1 H1) as H2. by destruct (sendRequest _ _ _ _) as [[resp|e] m2].
  - unfold Shutdown. pose proof (ReadAgentFile_ok m Hm) as H1. destruct (ReadAgentFile m) as [[info|] m1]; [|done].
    pose proof (sendRequest_ok info "shutdown" wire m1 H1) as H2. destruct (sendRequest _ _ _ _) as [[resp|e] m2]; by apply file_ok.
  - by destruct Hm; split.
Qed.

Lemma agents_reachable_ok now m : agents_reachable now m → machine_ok m.
Proof.
  assert (∀ x y, rtc agent_step x y → machine_ok x → machine_ok y) as H.
  { induction 1 as [|x y z Hxy _ IH]; [done|]. intros Hx. apply IH. by eapply agent_step_ok. }
  intros Hr. apply (H _ _ Hr). by split.
Qed.

Lemma hex_encode_empty l : hex_encode l = "" ↔ l = [].
Proof. split; [by destruct l|by intros ->]. Qed.

(** *** Timers *)

Lemma fires_enabled pid g t m : mc_agents m !! pid = Some g → t ∈ due g → t ≤ mc_now m → ∃ m', fires pid m m'.
Proof.
  intros Hg Hin Ht. unfold due in Hin. apply elem_of_app in Hin as [Hin|Hin].
  - destruct (ag_timer g) as [t'|] eqn:Htm; [|by apply elem_of_nil in Hin]. apply list_elem_of_singleton in Hin as ->.
    eexists. by eapply fires_timer.
  - apply list_elem_of_split in Hin as (l1 & l2 & Hp). eexists. by eapply fires_delayed.
Qed.

Lemma shutdown_lookup pid g m p x : mc_agents (shutdown pid (set_agent pid g m)) !! p = Some x →
  (p = pid ∧ ag_shut x = true ∧ (ag_shut g = false → ag_keys x = None ∧ ag_listening x = false) ∧ (ag_shut g = true → x = g)) ∨
  (p ≠ pid ∧ mc_agents m !! p = Some x).
Proof.
  unfold shutdown. cbn. rewrite lookup_insert_eq. destruct (ag_shut g) eqn:Hs; cbn; destruct (decide (p = pid)) as [->|Hne];
    rewrite ?lookup_insert_eq, ?lookup_insert_ne by done; try (intros Hx; by right); intros [= <-]; left; naive_solver.
Qed.
Lemma shutdown_there pid g m : is_Some (mc_agents (shutdown pid (set_agent pid g m)) !! pid).
Proof. unfold shutdown. cbn. rewrite lookup_insert_eq. destruct (ag_shut g); cbn; rewrite lookup_insert_eq; by eexists. Qed.

(** Whichever timer fires, the agent is wiped. *)
Lemma fires_wipes pid m m' : machine_ok m → fires pid m m' →
  ∃ g', mc_agents m' !! pid = Some g' ∧ ag_keys g' = None ∧ ag_listening g' = false.
Proof.
  intros Hm Hf. destruct Hf as [g t m0 Hg _ _|g l1 t l2 m0 Hg _ _]; pose proof (mo_agents _ Hm _ _ Hg) as Hok;
    match goal with |- context [set_agent pid ?x m0] => set (g1 := x) end;
    destruct (shutdown_there pid g1 m0) as [g' Hg']; exists g'; (split; [exact Hg'|]);
    apply shutdown_lookup in Hg' as [(_ & _ & H1 & H2)|[]]; try done;
    (destruct (ag_shut g) eqn:Hs; [rewrite H2 by exact Hs|by apply H1]);
    unfold agent_ok in Hok; rewrite Hs in Hok; exact Hok.
Qed.

(** An agent whose timers never were late ends in time. *)
Definition in_time (g : Agent) : Prop := ag_shut g = false →
  ag_timer g = Some (ag_expires g) ∨ ∃ t, t ∈ ag_pending g ∧ t ≤ ag_expires g + shutdownDelay.
Definition all_in_time (m : Machine) : Prop := ∀ pid g, mc_agents m !! pid = Some g → in_time g.

Lemma set_in_time pid g m : all_in_time m → in_time g → all_in_time (set_agent pid g m).
Proof.
  intros Hm Hg p x. cbn. destruct (decide (p = pid)) as [->|Hne]; [rewrite lookup_insert_eq; by intros [= <-]|].
  rewrite lookup_insert_ne by done. apply Hm.
Qed.
Lemma shutdown_in_time pid m : all_in_time m → all_in_time (shutdown pid m).
Proof.
  intros Hm. unfold shutdown. destruct (mc_agents m !! pid) as [g|]; [|done]. destruct (ag_shut g); [done|].
  intros p x Hx. revert p x Hx. apply (set_in_time pid); done.
Qed.
Lemma fires_in_time pid m m' : all_in_time m → fires pid m m' → all_in_time m'.
Proof.
  intros Hm Hf. destruct Hf as [g t m0 _ _ _|g l1 t l2 m0 _ _ _]; intros p x Hx; apply shutdown_lookup in Hx as [(_ & Hs & _)|[_ Hx]];
    (intros Hf; congruence) || by eapply Hm.
Qed.
Lemma handleConn_in_time now req g : (∀ t, t ∈ due g → now ≤ t) → in_time g → in_time (handleConn now req g).2.
Proof.
  intros Hdue Hg. destruct req as [req|]; [|done]. unfold handleConn. case_decide; [done|]. case_decide; [done|].
  case_decide; [by destruct (response g)|]. case_decide; [|done]. intros Hs. cbn in *. right. destruct (Hg Hs) as [Ht|(t & Hin & Ht)].
  - exists (now + shutdownDelay). rewrite elem_of_app, list_elem_of_singleton. split; [by right|].
    assert (now ≤ ag_expires g); [|lia]. apply Hdue. unfold due. rewrite Ht. by left.
  - exists t. rewrite elem_of_app. by auto.
Qed.
Lemma sendRequest_in_time info action wire m : punctual m → all_in_time m → all_in_time (sendRequest info action wire m).2.
Proof.
  intros Hp Hm. unfold sendRequest. destruct (listener _ m) as [[pid g]|] eqn:Hl; [|done].
  apply listener_Some in Hl as (Hg & _ & _).
  pose proof (handleConn_in_time (mc_now m) (Some (mkRequest (ai_Token info) action)) g (λ t, Hp pid g t Hg) (Hm pid g Hg)) as Hok.
  destruct (handleConn _ _ g) as [resp g']. cbn [snd] in *. pose proof (set_in_time pid g' m Hm Hok).
  by destruct wire as [[[] e]|].
Qed.
Lemma ReadAgentFile_agents m : mc_agents (ReadAgentFile m).2 = mc_agents m ∧ mc_now (ReadAgentFile m).2 = mc_now m.
Proof. unfold ReadAgentFile. destruct (mc_file m); try done. case_decide; [done|]. destruct (ai_Expires d); [|done]. by case_decide. Qed.

Lemma agent_step_in_time m m' : agent_step m m' → punctual m → all_in_time m → all_in_time m'.
Proof.
  intros Hst Hp Hm. destruct Hst as [pid keys ttl port token write m Hpid Ht _ _|pid g req m Hg _|pid m m' Hf
    |pid g m _ _|wire m|wire m|wire m|d m _].
  - unfold serveListener. destruct write; [done|]. intros p x.
    exact (set_in_time pid (mkAgent port token (Some keys) true (mc_now m + ttl) (Some (mc_now m + ttl)) false []) m Hm
      (λ _, or_introl eq_refl) p x).
  - apply set_in_time; [done|]. apply handleConn_in_time; [|by eapply Hm]. intros t. exact (Hp pid g t Hg).
  - by eapply fires_in_time.
  - by apply shutdown_in_time.
  - unfold RequestKeys. destruct (ReadAgentFile_agents m) as [Ha Hn]. destruct (ReadAgentFile m) as [[info|] m1]; cbn [snd] in *.
    + pose proof (sendRequest_in_time info "keys" wire m1) as H2. destruct (sendRequest _ _ _ _) as [[resp|e] m2]; cbn [snd] in H2.
      * assert (all_in_time m2) by (apply H2; [unfold punctual|unfold all_in_time]; rewrite ?Hn, ?Ha; done).
        destruct (negb _); [done|]. by repeat (match goal with |- context [match ?x with _ => _ end] => destruct x end).
      * apply H2; [unfold punctual|unfold all_in_time]; rewrite ?Hn, ?Ha; done.
    + unfold all_in_time. by rewrite Ha.
  - unfold Ping. destruct (ReadAgentFile_agents m) as [Ha Hn]. destruct (ReadAgentFile m) as [[info|] m1]; cbn [snd] in *.
    + pose proof (sendRequest_in_time info "ping" wire m1) as H2. destruct (sendRequest _ _ _ _) as [[resp|e] m2]; cbn [snd] in H2;
        (apply H2; [unfold punctual|unfold all_in_time]; rewrite ?Hn, ?Ha; done).
    + unfold all_in_time. by rewrite Ha.
  - unfold Shutdown. destruct (ReadAgentFile_agents m) as [Ha Hn]. destruct (ReadAgentFile m) as [[info|] m1]; cbn [snd] in *.
    + pose proof (sendRequest_in_time info "shutdown" wire m1) as H2. destruct (sendRequest _ _ _ _) as [[resp|e] m2]; cbn [snd] in H2;
        (apply H2; [unfold punctual|unfold all_in_time]; rewrite ?Hn, ?Ha; done).
    + unfold all_in_time. by rewrite Ha.
  - exact Hm.
Qed.

Lemma timely_in_time now m : timely_reachable now m → all_in_time m ∧ punctual m.
Proof.
  assert (∀ x y, rtc (λ m m', agent_step m m' ∧ punctual m') x y → all_in_time x ∧ punctual x → all_in_time y ∧ punctual y) as H.
  { induction 1 as [|x y z [Hxy Hy] _ IH]; [done|]. intros [Hx Hpx]. apply IH. split; [|done]. by eapply agent_step_in_time. }
  intros Hr. apply (H _ _ Hr). by split.
Qed.

(** C15: An agent gives its keys to the holder of its token, and in the end to
    nobody.  In every reachable state an answer that carries key material is to
    the request [keys] with exactly the token of that agent, from an agent that
    was not shut down; an agent that was shut down holds no keys; one that holds
    keys has its timer set to the time it was given, or a shutdown under way; when
    the time of any of its timers has come, that timer can fire without anybody's
    help, and then the agent is wiped and no longer listens.  In a run whose timers
    fire on time, no agent holds keys later than 100 milliseconds after the time it
    was given. *)
Theorem agents_guard_keys now m pid g : agents_reachable now m → mc_agents m !! pid = Some g →
  (∀ req resp g', handleConn (mc_now m) req g = (resp, g') → rs_PrivateKey resp ≠ "" →
     req = Some (mkRequest (ag_token g) "keys") ∧ ag_shut g = false) ∧
  (ag_shut g = true → ag_keys g = None) ∧
  (ag_keys g ≠ None → ag_timer g = Some (ag_expires g) ∨ ag_pending g ≠ []) ∧
  (∀ t d, t ∈ due g → t ≤ mc_now m + d → ∃ m', fires pid (m <| mc_now := mc_now m + d |>) m') ∧
  (∀ m', fires pid m m' → ∃ g', mc_agents m' !! pid = Some g' ∧ ag_keys g' = None ∧ ag_listening g' = false) ∧
  (timely_reachable now m → ag_keys g ≠ None → mc_now m ≤ ag_expires g + shutdownDelay).
Proof.
  intros Hm%agents_reachable_ok Hg. pose proof (mo_agents m Hm pid g Hg) as Hok. unfold agent_ok in Hok. split_and!.
  - intros req resp g' Hr Hk. destruct req as [[token action]|]; [|injection Hr as <- _; by destruct Hk].
    unfold handleConn in Hr. cbn [rq_Token rq_Action] in Hr.
    destruct (decide (token ≠ ag_token g)) as [|Htok]; [injection Hr as <- _; by destruct Hk|].
    destruct (decide (action = "ping")); [injection Hr as <- _; by destruct Hk|].
    destruct (decide (action = "keys")) as [->|].
    + assert (token = ag_token g) as -> by (by destruct (decide (token = ag_token g))). split; [done|].
      unfold response in Hr. destruct (ag_keys g) eqn:Hkeys; [|injection Hr as <- _; by destruct Hk].
      destruct (ag_shut g); [by destruct Hok|done].
    + destruct (decide (action = "shutdown")); injection Hr as <- _; by destruct Hk.
  - intros Hs. rewrite Hs in Hok. by destruct Hok.
  - intros Hk. destruct (ag_shut g); [by destruct Hok|by apply Hok].
  - intros t d Hin Ht. by eapply fires_enabled.
  - intros m'. by apply fires_wipes.
  - intros [Hi Hp]%timely_in_time Hk. destruct (ag_shut g) eqn:Hs; [by destruct Hok|].
    destruct (Hi pid g Hg Hs) as [Ht|(t & Hin & Ht)].
    + assert (mc_now m ≤ ag_expires g); [|unfold shutdownDelay, millisecond; lia]. apply (Hp pid g _ Hg). unfold due. rewrite Ht. by left.
    + pose proof (Hp pid g t Hg) as H. unfold due in H. rewrite elem_of_app in H. specialize (H (or_intror Hin)). lia.
Qed.

(** ** Keys through an agent *)

Lemma DecodeHexKey_encode l n : length l = n → (0 < n)%nat → DecodeHexKey (hex_encode l) n = Some l.
Proof.
  intros Hl Hn. unfold DecodeHexKey. rewrite decide_False by (rewrite hex_encode_empty; intros ->; cbn in Hl; lia).
  by rewrite hex_decode_encode, decide_True.
Qed.

Lemma eta_private p : mkPrivateKeySet (sk_X25519 p) (sk_Kyber p) = p.
Proof. by destruct p. Qed.
Lemma eta_signing_public p : mkSigningPublicKeySet (spk_Ed25519 p) (spk_Mldsa p) = p.
Proof. by destruct p. Qed.
Lemma eta_signing_private p : mkSigningPrivateKeySet (ssk_Ed25519 p) (ssk_Mldsa p) = p.
Proof. by destruct p. Qed.

(** *** An agent that nobody disturbs *)

Section undisturbed.
Variables (pid : nat) (port : Z) (token : string) (km : KeyMaterial) (exp : Z).

(** Steps but these three: another agent starts, a client asks for a shutdown, and
    the agent is sent a request for one. *)
Inductive undisturbed_step : Machine → Machine → Prop :=
| un_request p g req m : mc_agents m !! p = Some g → ag_listening g = true → req ≠ Some (mkRequest token "shutdown") →
    undisturbed_step m (set_agent p (handleConn (mc_now m) req g).2 m)
| un_fires p m m' : fires p m m' → undisturbed_step m m'
| un_listener_closed p g m : mc_agents m !! p = Some g → ag_listening g = false → undisturbed_step m (shutdown p m)
| un_RequestKeys wire m : undisturbed_step m (RequestKeys wire m).2
| un_Ping wire m : undisturbed_step m (Ping wire m).2
| un_passes d m : 0 ≤ d → undisturbed_step m (m <| mc_now := mc_now m + d |>).
(** Such steps until the agent's time is up. *)
Definition undisturbed (m m' : Machine) : Prop := undisturbed_step m m' ∧ mc_now m' < exp.

Lemma undisturbed_agent_step m m' : undisturbed m m' → agent_step m m'.
Proof using Type. intros [[] _]; by econstructor. Qed.

Definition the_info : AgentInfo := mkAgentInfo port token pid (Some exp).
Definition the_agent : Agent := mkAgent port token (Some km) true exp (Some exp) false [].

(** The file names the agent, and the other ones were shut down. *)
Record found (m : Machine) : Prop := {
  fd_ok : machine_ok m;
  fd_file : mc_file m = FileDoc the_info;
  fd_agent : mc_agents m !! pid = Some the_agent;
  fd_others p g : mc_agents m !! p = Some g → p ≠ pid → ag_shut g = true;
  fd_time : mc_now m < exp }.

Hypothesis Hport : port ≠ 0.
Hypothesis Htoken : token ≠ "".

Lemma found_read m : found m → ReadAgentFile m = (Some the_info, m) ∧ listener port m = Some (pid, the_agent).
Proof using Hport Htoken.
  intros Hf. split; [|by apply listener_unique; [apply Hf|apply Hf|done..]]. unfold ReadAgentFile. rewrite (fd_file m Hf).
  cbn [the_info ai_Port ai_Token ai_Expires]. rewrite decide_False by naive_solver.
  rewrite decide_False; [done|]. pose proof (fd_time m Hf). lia.
Qed.
Lemma set_same m g : mc_agents m !! pid = Some g → set_agent pid g m = m.
Proof using Type. intros Hg. unfold set_agent. destruct m as [now f ag]. cbn in *. by rewrite insert_id. Qed.
Lemma handle_same now req : req ≠ Some (mkRequest token "shutdown") → (handleConn now req the_agent).2 = the_agent.
Proof using Type.
  intros Hr. destruct req as [[tk ac]|]; [|done]. unfold handleConn. cbn [rq_Token rq_Action].
  destruct (decide (tk ≠ _)) as [|Ht]; [done|]. case_decide; [done|]. case_decide; [done|]. case_decide as Hs; [|done].
  exfalso. apply Hr. subst ac. f_equal. f_equal. by destruct (decide (tk = token)).
Qed.
Lemma found_send m action wire : found m → action ≠ "shutdown" → (sendRequest the_info action wire m).2 = m.
Proof using Hport Htoken.
  intros Hf Ha. unfold sendRequest. cbn [the_info ai_Port ai_Token]. rewrite (proj2 (found_read m Hf)).
  pose proof (handle_same (mc_now m) (Some (mkRequest token action))) as Hh.
  destruct (handleConn _ _ the_agent) as [resp g']. cbn [snd] in Hh. rewrite Hh by congruence.
  pose proof (set_same m the_agent (fd_agent m Hf)) as Hs. unfold set_agent in Hs. rewrite Hs. by destruct wire as [[[] e]|].
Qed.

(** An agent that was shut down stays so, whatever fires. *)
Lemma shut_set p g m : found m → mc_agents m !! p = Some g → p ≠ pid → ∀ g', ag_shut g' = true → quieter g g' → agent_ok g' →
  found (shutdown p (set_agent p g' m)).
Proof using Type.
  intros Hf Hg Hp g' Hs Hq Hok. unfold shutdown. cbn. rewrite lookup_insert_eq, Hs.
  destruct Hf as [H1 H2 H3 H4 H5]. split; [by apply (set_agent_ok m p g)|done|cbn; by rewrite lookup_insert_ne| |done].
  intros q x. cbn. destruct (decide (q = p)) as [->|]; [rewrite lookup_insert_eq; by intros [= <-]|].
  rewrite lookup_insert_ne by done. apply H4.
Qed.

Lemma found_fires p m m' : found m → fires p m m' → found m'.
Proof using Type.
  intros Hf Hs. destruct Hs as [g t m Hg Ht Hle|g l1 t l2 m Hg Ht Hle].
  - destruct (decide (p = pid)) as [->|Hne].
    + rewrite (fd_agent m Hf) in Hg. injection Hg as <-. injection Ht as <-. pose proof (fd_time m Hf). lia.
    + apply (shut_set p g); [done..|exact (fd_others m Hf p g Hg Hne)|done|]. pose proof (mo_agents m (fd_ok m Hf) p g Hg) as Hok.
      unfold agent_ok in *. cbn. by rewrite (fd_others m Hf p g Hg Hne) in *.
  - destruct (decide (p = pid)) as [->|Hne].
    + rewrite (fd_agent m Hf) in Hg. injection Hg as <-. by destruct l1.
    + apply (shut_set p g); [done..|exact (fd_others m Hf p g Hg Hne)|done|]. pose proof (mo_agents m (fd_ok m Hf) p g Hg) as Hok.
      unfold agent_ok in *. cbn. by rewrite (fd_others m Hf p g Hg Hne) in *.
Qed.

Lemma found_step m m' : undisturbed m m' → found m → found m'.
Proof using Hport Htoken.
  intros [Hst Hnow] Hf. destruct Hst as [p g req m Hg Hl Hr|p m m' Hfi|p g m Hg Hl|wire m|wire m|d m Hd].
  - destruct (decide (p = pid)) as [->|Hne].
    + rewrite (fd_agent m Hf) in Hg. injection Hg as <-. rewrite handle_same by done. by rewrite (set_same m _ (fd_agent m Hf)).
    + pose proof (mo_agents m (fd_ok m Hf) p g Hg) as Hok. unfold agent_ok in Hok. rewrite (fd_others m Hf p g Hg Hne) in Hok.
      destruct Hok. congruence.
  - by eapply found_fires.
  - unfold shutdown. rewrite Hg. destruct (decide (p = pid)) as [->|Hne].
    + rewrite (fd_agent m Hf) in Hg. by injection Hg as <-.
    + by rewrite (fd_others m Hf p g Hg Hne).
  - unfold RequestKeys. rewrite (proj1 (found_read m Hf)). pose proof (found_send m "keys" wire Hf ltac:(done)) as Hs.
    destruct (sendRequest _ _ _ _) as [[resp|e] m2]; cbn [snd] in Hs; subst m2; [|done]. destruct (negb _); [done|].
    by repeat (match goal with |- context [match ?x with _ => _ end] => destruct x end).
  - unfold Ping. rewrite (proj1 (found_read m Hf)). pose proof (found_send m "ping" wire Hf ltac:(done)) as Hs.
    destruct (sendRequest _ _ _ _) as [r m2]; cbn [snd] in *. by subst m2.
  - destruct Hf as [[H1 H2 H3] Hfi Ha Ho _]. by split; [split|..].
Qed.

Lemma found_run m m' : rtc undisturbed m m' → found m → found m'.
Proof using Hport Htoken. induction 1 as [|x y z Hxy _ IH]; [done|]. intros Hx. apply IH. by eapply found_step. Qed.

Lemma found_served m : machine_ok m → (∀ p g, mc_agents m !! p = Some g → ag_shut g = true) → fresh_port port m → fresh_token token m →
  mc_agents m !! pid = None → mc_now m < exp → found (serveListener pid km (exp - mc_now m) port token None m).2.
Proof using Type.
  intros Hm Hshut Hp Ht Hpid Hexp.
  assert (machine_ok (serveListener pid km (exp - mc_now m) port token None m).2) as Hm1.
  { apply (agent_step_ok m); [|done]. constructor; by try lia. }
  split; [exact Hm1| | | |exact Hexp]; cbn; replace (mc_now m + (exp - mc_now m)) with exp by lia; [done|by rewrite lookup_insert_eq|].
  intros p g. destruct (decide (p = pid)) as [->|]; [by intros|]. rewrite lookup_insert_ne by done. intros Hg _. by eapply Hshut.
Qed.
End undisturbed.

Section handover.
Context `{U : Unicode, BL : Blake2b, A : AEAD, X : X25519, XL : !X25519Laws X, K : MLKEM, KL : !MLKEMLaws K,
  HK : Hkdf, AR : Argon2, E : Ed25519, EL : !Ed25519Laws E, M : MLDSA, ML : !MLDSALaws M, SS : Sha256Sum}.
Variables (pub : PublicKeySet) (priv : PrivateKeySet) (spub : SigningPublicKeySet) (spriv : SigningPrivateKeySet) (nameKey : bytes).
Hypothesis Hkeys : keys_ok pub priv.
Hypothesis Hsigning : generated_keys spub spriv.
Hypothesis Hname : length nameKey = NameKeySize.

Definition account_material : KeyMaterial := mkKeyMaterial (pk_X25519 pub) (sk_X25519 priv) (pk_Kyber pub) (sk_Kyber priv) nameKey
  (spk_Ed25519 spub) (ssk_Ed25519 spriv) (spk_Mldsa spub) (ssk_Mldsa spriv).

Lemma spawned_keys : agent_serve_keys (spawn_keys pub priv nameKey (Some spub) (Some spriv)) = Some account_material.
Proof using XL KL EL ML Hkeys Hsigning Hname.
  destruct Hkeys as (Hx & Hk & Hpub). destruct (generated_sizes _ _ Hsigning) as ([Hsk1 Hsk2] & Hp1 & Hp2 & _).
  assert (length (pk_X25519 pub) = 32%nat) as L1 by (rewrite Hpub; apply ScalarBaseMult_length).
  assert (length (pk_Kyber pub) = KyberPublicKeySize) as L2 by (rewrite Hpub; by apply mlkem_public_length).
  unfold agent_serve_keys, spawn_keys. cbn [sp_Pub sp_Priv sp_KyberPub sp_KyberSeed sp_NameKey sp_SignPubEd sp_SignPrivEd sp_SignPubMl sp_SignPrivMl].
  rewrite (DecodeHexKey_encode (pk_X25519 pub) X25519KeySize), (DecodeHexKey_encode (sk_X25519 priv) X25519KeySize) by (done || (vm_compute; lia)).
  rewrite (DecodeHexKey_encode (pk_Kyber pub) KyberPublicKeySize), (DecodeHexKey_encode (sk_Kyber priv) KyberSeedSize) by (done || (vm_compute; lia)).
  rewrite (DecodeHexKey_encode nameKey NameKeySize) by (done || (vm_compute; lia)). cbn [mbind option_bind].
  rewrite (DecodeHexKey_encode (spk_Ed25519 spub) Ed25519PKSize), (DecodeHexKey_encode (ssk_Ed25519 spriv) Ed25519SKSize) by (done || (vm_compute; lia)).
  by rewrite (DecodeHexKey_encode (spk_Mldsa spub) Mldsa44PKSize), (DecodeHexKey_encode (ssk_Mldsa spriv) Mldsa44SKSize) by (done || (vm_compute; lia)).
Qed.

(** The client decodes what the guard encodes. *)
Lemma requested_keys g info wire_m m pid : ReadAgentFile m = (Some info, m) → listener (ai_Port info) m = Some (pid, g) →
  ag_token g = ai_Token info → ag_keys g = Some account_material → wire_m = set_agent pid g m →
  RequestKeys None m = (Some account_material, wire_m).
Proof using XL KL EL ML Hkeys Hsigning Hname.
  intros Hf Hl Ht Hg ->. unfold RequestKeys. rewrite Hf. unfold sendRequest. rewrite Hl. unfold handleConn.
  cbn [rq_Token rq_Action]. rewrite decide_False by (intros Hne; by apply Hne). rewrite decide_False by done. rewrite decide_True by done.
  unfold response. rewrite Hg. pose proof spawned_keys as Hs. unfold agent_serve_keys, spawn_keys in Hs.
  cbn [sp_Pub sp_Priv sp_KyberPub sp_KyberSeed sp_NameKey sp_SignPubEd sp_SignPrivEd sp_SignPubMl sp_SignPrivMl] in Hs.
  cbn [rs_OK rs_PublicKey rs_PrivateKey rs_KyberPublicKey rs_KyberSeed rs_NameKey negb account_material km_PublicKey km_PrivateKey
    km_KyberPublicKey km_KyberSeed km_NameKey km_SigningPublicKeyEd25519 km_SigningPrivateKeyEd25519 km_SigningPublicKeyMldsa
    km_SigningPrivateKeyMldsa rs_SigningPublicKeyEd25519 rs_SigningPrivateKeyEd25519 rs_SigningPublicKeyMldsa rs_SigningPrivateKeyMldsa].
  repeat (match type of Hs with context [DecodeHexKey ?s ?n ≫= _] => destruct (DecodeHexKey s n); [|discriminate Hs] end; cbn [mbind option_bind] in Hs).
  by injection Hs as -> -> -> -> -> -> -> -> ->.
Qed.

End handover.

(** ** A shutdown that arrives late *)

Lemma no_file_no_agent wire m : mc_file m = FileAbsent →
  RequestKeys wire m = (None, m) ∧ Ping wire m = (false, m) ∧ Shutdown wire m = (None, m).
Proof. intros Hf. unfold RequestKeys, Ping, Shutdown, ReadAgentFile. by rewrite Hf. Qed.

(** A client that finds the agent through the file, and shuts it down. *)
Lemma Shutdown_pending m pid g info : machine_ok m → ReadAgentFile m = (Some info, m) →
  mc_agents m !! pid = Some g → ag_listening g = true → ag_port g = ai_Port info → ag_token g = ai_Token info →
  Shutdown None m = (None, RemoveAgentFile (set_agent pid (g <| ag_timer := None |> <| ag_pending := ag_pending g ++ [mc_now m + shutdownDelay] |>) m)).
Proof.
  intros Hm Hf Hg Hl Hp Ht. unfold Shutdown. rewrite Hf. unfold sendRequest. rewrite (listener_unique _ m pid g) by done.
  unfold handleConn. cbn [rq_Token rq_Action]. rewrite decide_False by (intros Hne; by apply Hne).
  rewrite decide_False by done. rewrite decide_False by done. by rewrite decide_True.
Qed.

(** C39: An agent that is told to stop takes its successor's file with it.  A
    client shuts down the agent that [agent.json] names, and before that agent's
    100 milliseconds are over another one starts and writes its own
    [agent.json].  The step of the old agent then removes that file: the new
    agent still listens and holds the keys, but no client gets keys from it,
    finds it alive, or stops it, and the command that should stop it reports
    success. *)
Theorem successor_orphaned now m pidA gA info pidB keys ttl port token :
  agents_reachable now m → ReadAgentFile m = (Some info, m) →
  mc_agents m !! pidA = Some gA → ag_listening gA = true → ag_port gA = ai_Port info → ag_token gA = ai_Token info →
  mc_agents m !! pidB = None → 0 ≤ ttl →
  ∃ m1, Shutdown None m = (None, m1) ∧ mc_file m1 = FileAbsent ∧
  let m2 := (serveListener pidB keys ttl port token None m1).2 in
  ∃ m3 gB, fires pidA (m2 <| mc_now := mc_now m2 + shutdownDelay |>) m3 ∧
  mc_agents m3 !! pidB = Some gB ∧ ag_listening gB = true ∧ ag_keys gB = Some keys ∧
  ∀ wire, RequestKeys wire m3 = (None, m3) ∧ Ping wire m3 = (false, m3) ∧ Shutdown wire m3 = (None, m3).
Proof.
  intros Hm%agents_reachable_ok Hf HA Hl Hp Ht HB Httl.
  assert (pidA ≠ pidB) as Hne by congruence. pose proof (mo_agents m Hm pidA gA HA) as Hok. unfold agent_ok in Hok.
  destruct (ag_shut gA) eqn:Hs; [destruct Hok; congruence|]. eexists. split; [by apply (Shutdown_pending m pidA gA info)|]. split; [done|]. cbv zeta.
  set (g1 := gA <| ag_timer := None |> <| ag_pending := ag_pending gA ++ [mc_now m + shutdownDelay] |>).
  set (m2 := (serveListener _ _ _ _ _ _ _).2).
  assert (mc_agents m2 !! pidA = Some g1) as H1 by (cbn; by rewrite lookup_insert_ne, lookup_insert_eq).
  do 2 eexists. split.
  { apply (fires_delayed pidA g1 (ag_pending gA) (mc_now m + shutdownDelay) []); [exact H1|done|]. cbn. lia. }
  unfold shutdown. cbn. rewrite lookup_insert_eq. cbn. rewrite Hs.
  split_and!; [cbn; rewrite !lookup_insert_ne by done; by rewrite lookup_insert_eq|done|done|].
  intros wire. by apply no_file_no_agent.
Qed.

(** ** Concrete agents *)

Definition ex_material : KeyMaterial := mkKeyMaterial [x01] [x02] [x03] [x04] [x05] [] [] [] [].
(** An agent of process 7 for one hour. *)
Definition ex_machine : Machine := (serveListener 7 ex_material hour 4000 "secret" None (start 0)).2.
Lemma ex_fresh port : port ≠ 0 → fresh_port port (start 0).
Proof. by split. Qed.
Lemma ex_fresh_token token : token ≠ "" → fresh_token token (start 0).
Proof. by split. Qed.
Lemma ex_machine_reachable : agents_reachable 0 ex_machine.
Proof. apply rtc_once. apply step_serve; [done|done|by apply ex_fresh|by apply ex_fresh_token]. Qed.

(** After its hour the timer fires. *)
Definition ex_ended : Machine :=
  shutdown 7 (set_agent 7 (mkAgent 4000 "secret" (Some ex_material) true hour None false []) (ex_machine <| mc_now := hour |>)).
Lemma ex_ended_fires : fires 7 (ex_machine <| mc_now := hour |>) ex_ended.
Proof. by apply (fires_timer 7 (mkAgent 4000 "secret" (Some ex_material) true hour (Some hour) false []) hour). Qed.

Lemma agents_guard_keys_witness : ∃ g, mc_agents ex_machine !! 7%nat = Some g ∧
  rs_PrivateKey (handleConn 0 (Some (mkRequest "secret" "keys")) g).1 = "02" ∧ ag_timer g = Some (ag_expires g) ∧
  ∃ g', mc_agents ex_ended !! 7%nat = Some g' ∧ ag_keys g' = None.
Proof.
  eexists. split; [reflexivity|]. split; [reflexivity|]. split; [reflexivity|].
  assert (agents_reachable 0 (ex_machine <| mc_now := hour |>)) as Hr.
  { eapply rtc_r; [exact ex_machine_reachable|]. exact (step_passes hour ex_machine ltac:(done)). }
  destruct (agents_guard_keys 0 (ex_machine <| mc_now := hour |>) 7%nat _ Hr eq_refl) as (_ & _ & _ & _ & Hw & _).
  destruct (Hw ex_ended ex_ended_fires) as (g' & Hg' & Hk & _). exists g'. split; [exact Hg'|exact Hk].
Defined.

Lemma successor_orphaned_witness : ∃ m1, Shutdown None ex_machine = (None, m1) ∧ mc_file m1 = FileAbsent ∧
  ∃ m3 gB, mc_agents m3 !! 8%nat = Some gB ∧ ag_keys gB = Some ex_material ∧ RequestKeys None m3 = (None, m3).
Proof.
  destruct (successor_orphaned 0 ex_machine 7 _ _ 8 ex_material hour 4001 "other" ex_machine_reachable
    eq_refl eq_refl eq_refl eq_refl eq_refl eq_refl ltac:(done)) as (m1 & H1 & H2 & m3 & gB & _ & H4 & _ & H5 & H6).
  exists m1. split_and!; [exact H1|exact H2|]. exists m3, gB. split_and!; [exact H4|exact H5|by destruct (H6 None)].
Defined.

(** A configuration with the public keys of the account; what is wrapped in it is
    out of order, so that nothing but the agent opens it. *)
Definition ex_agent_config : Config :=
  with_signing_keys "AAAA" "AAAA" "AAAA" "AAAA" "AAAA" "AAAA" (ex_config <| cf_PublicKey := base64_encode (pk_X25519 ex_pub) |>
    <| cf_PublicKeyKyber := base64_encode (pk_Kyber ex_pub) |> <| cf_EncryptedPrivateKey := "AAAA" |> <| cf_EncryptedPrivateKeyKyber := "AAAA" |>).

(** Somebody tries a wrong token, and a minute passes. *)
Definition ex_later (km : KeyMaterial) : Machine :=
  set_agent 7 (handleConn 0 (Some (mkRequest "guess" "shutdown")) (the_agent 4000 "secret" km hour)).2
    (serveListener 7 km hour 4000 "secret" None (start 0)).2 <| mc_now := 60 * second |>.

