(* ===== verification/MobileFiles.v ===== *)
(** * The staging directory of the phone

    The files under the cache directory of a session of [src/mobile/mobile.go]:
    links followed as [filepath.EvalSymlinks] does, which paths a cursor may
    name ([underCacheDir], [resolveThroughLinks]), and the system calls the
    uploads make on them.  The caller's own files of the directory can be
    removed; [readlink] answers with the target of a link.  Paths are those of a
    Unix build. *)
From S2P Require Import Prelude GoLib GoFmt ApiErrors Crypto Names LocalFs Watcher.
Local Open Scope Z_scope.

Section files.
Variable readlink : string → option string.
(** The working directory, for [filepath.Abs]. *)
Variable cwd : string.

(** ** Links *)

(** The elements of a path up to the first link: where they lead, or where the
    link stands, its target and what remains. *)
Fixpoint walk (fs : LocalFs) (cur rest : list string) : option (list string + list string * string * list string) :=
  match rest with
  | [] => Some (inl cur)
  | e :: rest =>
      if decide (e = "" ∨ e = ".") then walk fs cur rest
      else if decide (e = "..") then walk fs (removelast cur) rest
      else match os_Lstat fs (abs (cur ++ [e])) with
           | Err _ => None
           | Ok FsLink => match readlink (abs (cur ++ [e])) with
                          | None => None
                          | Some target => Some (inr (cur, target, rest))
                          end
           | Ok _ => walk fs (cur ++ [e]) rest
           end
  end.
(** The library gives up after 255 links. *)
Fixpoint resolve (links : nat) (fs : LocalFs) (cur rest : list string) : option (list string) :=
  match walk fs cur rest with
  | None => None
  | Some (inl cur) => Some cur
  | Some (inr (cur, target, rest)) =>
      match links with
      | O => None
      | S links => resolve links fs (if is_rooted target then [] else cur) (split_on slash target ++ rest)
      end
  end.
(** [filepath.EvalSymlinks] of an absolute path. *)
Definition EvalSymlinks (fs : LocalFs) (p : string) : option string :=
  abs <$> resolve 255 fs [] (split_on slash p).
Definition filepath_Abs (p : string) : string := if is_rooted p then path_Clean p else path_Join cwd p.

(** ** System calls *)

(** A path as the system takes it. *)
Definition from_cwd (p : string) : string := if is_rooted p then p else cwd ^^ "/" ^^ p.
(** The directory entry that a path names: only links on the way are followed. *)
Definition entry_of (fs : LocalFs) (p : string) : option string :=
  let elems := split_on slash (from_cwd p) in
  let name := default "" (last elems) in
  if decide (name = "" ∨ name = "." ∨ name = "..") then None
  else d ← resolve 255 fs [] (removelast elems); Some (abs (d ++ [name])).
Definition os_Stat (fs : LocalFs) (p : string) : bool := isSome (EvalSymlinks fs (from_cwd p)).
(** [os.Open] and reading to the end. *)
Definition os_Open (fs : LocalFs) (p : string) : result error bytes :=
  match EvalSymlinks fs (from_cwd p) with
  | Some q => match fs !! q with Some (FsFile b _) => Ok b | _ => Err (ErrSentinel FsErrPermission) end
  | None => Err (ErrSentinel FsErrNotExist)
  end.
Definition os_Create (fs : LocalFs) (p : string) (content : bytes) (now : Z) : LocalFs :=
  match entry_of fs p with Some q => <[q := FsFile content now]> fs | None => fs end.
Definition os_Remove (fs : LocalFs) (p : string) : result error LocalFs :=
  match entry_of fs p with
  | None => Err (ErrSentinel FsErrNotExist)
  | Some q =>
      match fs !! q with
      | None => Err (ErrSentinel FsErrNotExist)
      | Some FsDenied => Err (ErrSentinel FsErrPermission)
      | Some (FsDir _) => if decide (map_Exists (λ k _, has_prefix (q ^^ "/") k = true) fs)
                          then Err (ErrText "directory not empty") else Ok (delete q fs)
      | Some _ => Ok (delete q fs)
      end
  end.
(** [os.Remove] whose error is dropped. *)
Definition remove_quietly (fs : LocalFs) (p : string) : LocalFs := match os_Remove fs p with Ok fs' => fs' | Err _ => fs end.

(** ** The paths of cursors *)

Definition resolveThroughLinks (fs : LocalFs) (p : string) : result error string :=
  let a := filepath_Abs p in
  match EvalSymlinks fs a with
  | Some resolved => Ok resolved
  | None => match EvalSymlinks fs (path_Dir a) with
            | Some dir => Ok (path_Join dir (path_Base a))
            | None => Err (ErrText "resolve the cursor path's directory")
            end
  end.
Definition underCacheDir (fs : LocalFs) (cacheDir p : string) : option error :=
  if decide (p = "") then Some (ErrText "cursor names no ciphertext") else
  match EvalSymlinks fs cacheDir with
  | None => Some (ErrText "resolve the session cache dir")
  | Some root =>
      match resolveThroughLinks fs p with
      | Err e => Some e
      | Ok candidate =>
          match filepath_Rel root candidate with
          | None => Some (ErrText "cursor path is outside the session cache dir")
          | Some rel => if decide (rel = "." ∨ rel = ".." ∨ has_prefix "../" rel = true)
                        then Some (ErrText "cursor path is outside the session cache dir") else None
          end
      end
  end.

(** ** Facts *)

Lemma walk_app fs a b : ∀ cur, walk fs cur (a ++ b) =
  match walk fs cur a with
  | None => None
  | Some (inl c) => walk fs c b
  | Some (inr (c, t, r)) => Some (inr (c, t, r ++ b))
  end.
Proof.
  induction a as [|e a IH]; intros cur; [done|]. cbn [walk app]. case_decide; [apply IH|]. case_decide; [apply IH|].
  destruct (os_Lstat _ _) as [[]|]; try done; try apply IH. by destruct (readlink _).
Qed.

Lemma resolve_app n fs a b : ∀ cur c, resolve n fs cur a = Some c → walk fs c b = Some (inl (c ++ b)) →
  resolve n fs cur (a ++ b) = Some (c ++ b).
Proof.
  revert a. induction n as [|n IH]; intros a cur c Ha Hb; cbn [resolve] in *; rewrite walk_app;
    destruct (walk fs cur a) as [[c'|[[c' t] r]]|]; try done.
  - injection Ha as ->. by rewrite Hb.
  - injection Ha as ->. by rewrite Hb.
  - rewrite app_assoc. by apply IH.
Qed.

(** A file system that has grown: what was there is there, but for the contents
    of plain files. *)
Definition is_file (e : fs_entry) : bool := match e with FsFile _ _ => true | _ => false end.
Definition grown (fs fs' : LocalFs) : Prop :=
  ∀ k e, fs !! k = Some e → ∃ e', fs' !! k = Some e' ∧ (e' = e ∨ (is_file e = true ∧ is_file e' = true)).
Lemma subseteq_grown (fs fs' : LocalFs) : fs ⊆ fs' → grown fs fs'.
Proof. intros Hs k e He. exists e. split; [exact (lookup_weaken _ _ _ _ He Hs)|by left]. Qed.

(** Entries that replace plain files by plain files, and no others. *)
Definition replaces_files (new fs : LocalFs) : Prop :=
  ∀ k e e', new !! k = Some e → fs !! k = Some e' → is_file e = true ∧ is_file e' = true.
Lemma union_grown (new fs : LocalFs) : replaces_files new fs → grown fs (new ∪ fs).
Proof.
  intros Hr k e He. destruct (new !! k) as [e'|] eqn:Hn.
  - exists e'. split; [by apply lookup_union_Some_l|]. right. by destruct (Hr k e' e Hn He).
  - exists e. split; [by rewrite lookup_union_r|by left].
Qed.

Lemma os_Lstat_grown fs fs' p e : grown fs fs' → os_Lstat fs p = Ok e →
  ∃ e', os_Lstat fs' p = Ok e' ∧ (e' = e ∨ (is_file e = true ∧ is_file e' = true)).
Proof.
  intros Hs. unfold os_Lstat. destruct (fs !! p) as [x|] eqn:Hx; [|done].
  destruct (Hs _ _ Hx) as (x' & -> & Hx'). intros He. destruct Hx' as [->|[H1 H2]].
  - exists e. split; [exact He|by left].
  - destruct x, x'; try done. injection He as <-. eexists. split; [reflexivity|by right].
Qed.
Lemma walk_grown fs fs' rest : grown fs fs' → ∀ cur r, walk fs cur rest = Some r → walk fs' cur rest = Some r.
Proof.
  intros Hs. induction rest as [|e rest IH]; intros cur r; cbn [walk]; [done|].
  case_decide; [apply IH|]. case_decide; [apply IH|]. destruct (os_Lstat fs _) as [x|] eqn:Hx; [|done].
  destruct (os_Lstat_grown _ _ _ _ Hs Hx) as (x' & -> & [->|[H1 H2]]).
  - destruct x; try apply IH. done.
  - destruct x, x'; try done. apply IH.
Qed.
Lemma resolve_grown n fs fs' : grown fs fs' → ∀ cur rest r, resolve n fs cur rest = Some r → resolve n fs' cur rest = Some r.
Proof.
  intros Hs. induction n as [|n IH]; intros cur rest r; cbn [resolve];
    destruct (walk fs cur rest) as [w|] eqn:Hw; try done; rewrite (walk_grown _ _ _ Hs _ _ Hw); destruct w as [c|[[c t] q]]; try done.
  apply IH.
Qed.

Lemma walk_ok fs rest : ∀ cur r, Forall (λ x, contains_char slash x = false) rest → Forall name_ok cur →
  walk fs cur rest = Some r →
  match r with inl c => Forall name_ok c | inr (c, t, q) => Forall name_ok c ∧ Forall (λ x, contains_char slash x = false) q end.
Proof.
  induction rest as [|e rest IH]; intros cur r Hr Hc; cbn [walk]; [by intros [= <-]|].
  apply Forall_cons in Hr as [He Hr]. case_decide as H1; [by apply IH|].
  case_decide as H2.
  { apply IH; [done|]. destruct cur as [|x l] using rev_ind; [done|].
    rewrite removelast_last. by apply Forall_app in Hc as [? _]. }
  assert (Forall name_ok (cur ++ [e])) by (apply Forall_app; split; [done|]; constructor; [|done]; split_and!; naive_solver).
  destruct (os_Lstat _ _) as [[]|]; try done; try by apply IH. by destruct (readlink _); [|done]; intros [= <-].
Qed.
Lemma resolve_ok n fs : ∀ cur rest c, Forall (λ x, contains_char slash x = false) rest → Forall name_ok cur →
  resolve n fs cur rest = Some c → Forall name_ok c.
Proof.
  induction n as [|n IH]; intros cur rest c Hr Hc; cbn [resolve]; destruct (walk fs cur rest) as [w|] eqn:Hw; try done;
    apply (walk_ok _ _ _ _ Hr Hc) in Hw; destruct w as [c'|[[c' t] q]]; try by intros [= <-].
  apply IH; [apply Forall_app; split; [apply split_on_Forall|apply Hw]|]. destruct (is_rooted t); [done|apply Hw].
Qed.
Lemma EvalSymlinks_abs fs p q : EvalSymlinks fs p = Some q → ∃ es, Forall name_ok es ∧ q = abs es ∧
  resolve 255 fs [] (split_on slash p) = Some es.
Proof.
  unfold EvalSymlinks. destruct (resolve _ _ _ _) as [es|] eqn:Hr; [|done]. intros [= <-]. exists es. split_and!; [|done..].
  by apply (resolve_ok _ _ _ _ _ (split_on_Forall _ _)) in Hr.
Qed.

Lemma path_Dir_abs es x : Forall name_ok es → name_ok x → path_Dir (abs (es ++ [x])) = abs es.
Proof.
  intros Hes Hx. unfold path_Dir. rewrite split_abs;
    [|by destruct es|apply name_ok_no_slash, Forall_app; split; [done|by constructor]].
  change ("" :: es ++ [x]) with (("" :: es) ++ [x]). rewrite removelast_last.
  destruct es as [|y es]; [done|]. change (join_with "/" ("" :: y :: es)) with (abs (y :: es)).
  change (abs (y :: es) ^^ "/") with (String.String slash (join_with "/" (y :: es) ^^ "/" ^^ "")).
  rewrite <- join_snoc by done. change (path_Clean (abs ((y :: es) ++ [""])) = abs (y :: es)).
  rewrite path_Clean_rooted; [|done|].
  2: { apply Forall_app. split; [by apply name_ok_no_slash|by repeat constructor]. }
  unfold clean_elems. rewrite foldl_app, (clean_step_ok (y :: es)) by done.
  rewrite app_nil_r. change (foldl (clean_step true) (reverse (y :: es)) [""]) with (reverse (y :: es)).
  by rewrite reverse_involutive.
Qed.
Lemma path_Base_abs es x : Forall name_ok es → name_ok x → path_Base (abs (es ++ [x])) = x.
Proof.
  intros Hes Hx. unfold path_Base. rewrite decide_False by done. rewrite split_abs;
    [|by destruct es|apply name_ok_no_slash, Forall_app; split; [done|by constructor]].
  change ("" :: es ++ [x]) with (("" :: es) ++ [x]). rewrite filter_app, rev_app_distr.
  rewrite (filter_cons_True _ x) by apply Hx. by rewrite filter_nil.
Qed.

Lemma resolve_abs n fs es : Forall name_ok es → resolve n fs [] (split_on slash (abs es)) = resolve n fs [] es.
Proof.
  intros Hes. destruct es as [|y es]; [by destruct n|]. rewrite split_abs; [|done|by apply name_ok_no_slash].
  by destruct n.
Qed.

(** A file staged under a fresh name of the cache directory. *)
Section staged.
Variables (fs : LocalFs) (ces root : list string) (x : string).
Hypothesis Hces : Forall name_ok ces.
Hypothesis Hx : name_ok x.
Hypothesis Hroot : EvalSymlinks fs (abs ces) = Some (abs root).
Hypothesis Hok : Forall name_ok root.

Lemma Hresolve : resolve 255 fs [] ces = Some root.
Proof using Hces Hroot Hok.
  destruct (EvalSymlinks_abs _ _ _ Hroot) as (es & He & Hr & Hres). apply abs_inj in Hr as <-; [|done..].
  by rewrite resolve_abs in Hres.
Qed.

Lemma staged_entry : entry_of fs (abs (ces ++ [x])) = Some (abs (root ++ [x])).
Proof using Hces Hx Hroot Hok.
  unfold entry_of. change (from_cwd (abs (ces ++ [x]))) with (abs (ces ++ [x])). rewrite split_abs;
    [|by destruct ces|apply name_ok_no_slash, Forall_app; split; [done|by constructor]].
  change ("" :: ces ++ [x]) with (("" :: ces) ++ [x]). rewrite removelast_last, last_snoc. cbn [default].
  destruct Hx as (H1 & H2 & H3 & _). cbv zeta. rewrite decide_False by (by intros [?|[]]).
  change (resolve 255 fs [] ("" :: ces)) with (resolve 255 fs [] ces). by rewrite Hresolve.
Qed.
Lemma staged_resolves b t : fs !! abs (root ++ [x]) = Some (FsFile b t) → EvalSymlinks fs (abs (ces ++ [x])) = Some (abs (root ++ [x])).
Proof using Hces Hx Hroot Hok.
  intros Hf. unfold EvalSymlinks. rewrite resolve_abs by (apply Forall_app; split; [done|by constructor]).
  rewrite (resolve_app 255 fs ces [x] [] root); [done|by apply Hresolve|].
  destruct Hx as (H1 & H2 & H3 & _). cbn [walk]. rewrite decide_False by (by intros []). rewrite decide_False by done.
  unfold os_Lstat. by rewrite Hf.
Qed.
End staged.

Lemma EvalSymlinks_grown fs fs' p q : grown fs fs' → EvalSymlinks fs p = Some q → EvalSymlinks fs' p = Some q.
Proof.
  intros Hs. unfold EvalSymlinks. destruct (resolve _ fs _ _) as [es|] eqn:Hr; [|done].
  intros [= <-]. by rewrite (resolve_grown _ _ _ Hs _ _ _ Hr).
Qed.

Lemma contains_slash_app s : contains_char slash ("../" ^^ s) = true.
Proof. done. Qed.

(** A path that passes is, links followed, strictly inside the cache directory. *)
Lemma underCacheDir_inside fs cacheDir p : underCacheDir fs cacheDir p = None →
  ∃ root es candidate, Forall name_ok root ∧ Forall name_ok es ∧ es ≠ [] ∧ EvalSymlinks fs cacheDir = Some (abs root) ∧
    resolveThroughLinks fs p = Ok candidate ∧ path_Clean candidate = abs (root ++ es).
Proof.
  unfold underCacheDir. case_decide; [done|]. destruct (EvalSymlinks fs cacheDir) as [r|] eqn:Hr; [|done].
  destruct (EvalSymlinks_abs _ _ _ Hr) as (root & Hroot & -> & _). destruct (resolveThroughLinks fs p) as [candidate|]; [|done].
  pose proof (filepath_Rel_abs root candidate Hroot) as Hrel. destruct (filepath_Rel _ _) as [rel|]; [|done].
  destruct Hrel as (c & b & t & -> & Ht & Hcl & Hh & ->). case_decide as Hd; [done|]. intros _.
  destruct b as [|y b].
  - destruct t as [|z t]; [destruct Hd; by left|]. rewrite app_nil_r in *. by exists c, (z :: t), candidate.
  - exfalso. apply Hd. right. rewrite decide_False by (by intros []). cbn [fmap list_fmap app].
    destruct (((λ _, "..") <$> b) ++ t) as [|w l]; [by left|right]. unfold has_prefix. simpl.
    match goal with |- String.prefix "" ?s = true => by destruct s end.
Qed.
(** A staged file passes. *)
Lemma staged_under fs ces root x b t : Forall name_ok ces → name_ok x → EvalSymlinks fs (abs ces) = Some (abs root) → Forall name_ok root →
  fs !! abs (root ++ [x]) = Some (FsFile b t) → underCacheDir fs (abs ces) (abs (ces ++ [x])) = None.
Proof.
  intros Hces Hx Hroot Hok Hf. unfold underCacheDir. rewrite decide_False by done. rewrite Hroot.
  unfold resolveThroughLinks, filepath_Abs. change (is_rooted (abs (ces ++ [x]))) with (bool_decide (slash = slash)).
  rewrite bool_decide_true by done. rewrite path_Clean_abs by (apply Forall_app; split; [done|by constructor]).
  rewrite (staged_resolves fs ces root x Hces Hx Hroot Hok b t Hf).
  pose proof (filepath_Rel_abs root (abs (root ++ [x])) Hok) as Hrel.
  assert (Forall name_ok (root ++ [x])) as Hrx by (apply Forall_app; split; [done|by constructor]).
  destruct (filepath_Rel _ _) as [rel|].
  - destruct Hrel as (c & bb & tt' & -> & Ht & Hcl & Hh & ->). rewrite path_Clean_abs in Hcl by done.
    apply abs_inj in Hcl; [|done|]. 2: { apply Forall_app in Hok as [? _]. by apply Forall_app. }
    rewrite <- app_assoc in Hcl. apply app_inv_head in Hcl. subst tt'.
    destruct bb as [|y bb].
    + cbn [fmap list_fmap app]. rewrite (decide_False (P := [] = [] ∧ _)) by (by intros []). rewrite decide_False; [done|].
      cbn [join_with]. destruct Hx as (_ & ? & ? & Hs). intros [?|[?|Hp]]; [done..|].
      apply has_prefix_app in Hp as [s ->]. by rewrite contains_slash_app in Hs.
    + destruct Hh as [?|[?|Hh]]; [done|by destruct bb|]. by destruct Hh.
  - exfalso. by rewrite path_Clean_abs in Hrel.
Qed.
End files.
