(* ===== verification/Mobile.v ===== *)
(** * Uploads of the phone

    The binding for phones, [src/mobile/mobile.go] and [src/mobile/queue.go]:
    one upload at a time, resumed from a cursor that names the staged
    ciphertext and the options it goes up with; the sweep of the staging
    directory; the classes of failures the host acts on; the creation of a
    folder.  The keys are those of [Session.v], the files those of
    [MobileFiles.v].  A cursor is the document its text decodes to; error texts
    leave out the values they quote, and panics other than those of the progress
    callback are not modelled. *)
From S2P Require Import Prelude GoLib GoFmt ApiErrors Crypto Hybrid Sign FileCrypt Names LocalFs CacheDB CacheStore VfsNode VfsContent Writeback Watcher PinStore Config Session SessionInv MobileFiles.
Local Open Scope Z_scope.

(** ** Classes of failures *)

Definition ErrorClassShed : string := "shed".
Definition ErrorClassRateLimited : string := "rate_limited".
Definition ErrorClassQuota : string := "quota".
Definition ErrorClassDailyLimit : string := "daily_limit".
Definition ErrorClassTransient : string := "transient".
Definition ErrorClassPermanent : string := "permanent".
Definition ErrorClassLocal : string := "local".
Definition ErrorClassCancelled : string := "cancelled".
Definition ErrorClassUnauthorized : string := "unauthorized".

Definition shedCodes : list string :=
  ["scanner_busy"; "too_many_concurrent"; "reservation_unavailable"; "finalize_in_progress"; "scan_pending"].
Definition permanentCodes : list string :=
  ["file_too_large"; "chunk_too_large"; "file_malformed"; "scan_rejected"; "sanitize_failed"; "e2ee_required";
   "invalid_signature"; "invalid_upload_dir"; "duplicate"; "shared_not_found"; "shared_edit_permission";
   "shared_owner_key_missing"; "shared_grant_revoked"].

Record classified : Type := mkClassified { cd_class : string; cd_code : string; cd_retryAfter : Z }.
Definition retryable (c : classified) : bool :=
  bool_decide (cd_class c = ErrorClassShed ∨ cd_class c = ErrorClassRateLimited ∨ cd_class c = ErrorClassTransient).

Definition scanBudgetRetryAfter (err : error) (hint : Z) : Z :=
  match ScanBudgetWait err with
  | Some wait => wait
  | None => if decide (hint ≤ 0) then minute else Z.min hint MaxScanBudgetDelay
  end.

Definition status_in (req : option RequestError) (l : list Z) : bool :=
  match req with Some r => bool_decide (re_StatusCode r ∈ l) | None => false end.
Definition kind_eq (req : option RequestError) (k : ErrorKind) : bool :=
  match req with Some r => bool_decide (re_Kind r = k) | None => false end.

(** [classifyUpload] of an error that is not nil. *)
Definition classifyUpload (err : error) : classified :=
  let retryAfter := RetryAfterHint err in
  let code := default "" (errors_As asAPIError err) in
  let reqErr := errors_As asRequestError err in
  let class c := mkClassified c code retryAfter in
  if errors_Is ContextCanceled err then class ErrorClassCancelled
  else if isSome (errors_As asBadInput err) then class ErrorClassPermanent
  else if decide (code = "storage_limit") then class ErrorClassQuota
  else if decide (code = "daily_limit") then class ErrorClassDailyLimit
  else if decide (code = "rate_limited") then mkClassified ErrorClassRateLimited code (scanBudgetRetryAfter err retryAfter)
  else if decide (code ∈ shedCodes) then class ErrorClassShed
  else if decide (code ∈ permanentCodes) then class ErrorClassPermanent
  else if status_in reqErr [StatusUnauthorized; StatusForbidden] then class ErrorClassUnauthorized
  else if kind_eq reqErr KindRateLimited || status_in reqErr [StatusServiceUnavailable] then class ErrorClassShed
  else if kind_eq reqErr KindTransient then class ErrorClassTransient
  else if kind_eq reqErr KindPermanent then class ErrorClassPermanent
  else if errors_Is FsErrNotExist err || errors_Is FsErrPermission err then class ErrorClassLocal
  else class ErrorClassTransient.

Definition refusalError (resp : Response) (message : string) : error :=
  ErrRequest KindPermanent (StatusCode resp) 0 (ErrAPI (ErrorCode resp) message).

(** ** Names *)

Definition validFileName (name : string) : option error :=
  if decide (name = "") then Some (ErrText "file_name is empty")
  else if decide (name = "." ∨ name = ".." ∨ contains_char slash name = true ∨ contains_char backslash name = true)
  then Some (ErrText "file_name must be a bare name, not a path")
  else None.

Definition cleanRemoteDir (dir : string) : result error string :=
  if decide (dir = "") then Ok "/"
  else if contains_char backslash dir then Err (ErrText "remote_dir must use forward slashes")
  else if negb (has_prefix "/" dir) then Err (ErrText "remote_dir must be absolute")
  else if decide (".." ∈ split_on slash dir) then Err (ErrText "remote_dir must not contain a parent segment")
  else let cleaned := path_Clean dir in
       if negb (has_prefix "/" cleaned) then Err (ErrText "remote_dir does not stay absolute once cleaned") else Ok cleaned.

(** ** Requests and results *)

Record uploadCursor : Type := mkCursor {
  uc_EncryptedPath : string; uc_RemoteDir : string; uc_FileName : string; uc_TotalBytes : Z; uc_Options : gmap string string }.
(** The text of a cursor in a request: none, one that does not decode, or the
    cursor it holds. *)
Inductive cursor_text : Type := NoCursor | BadCursor | CursorOf (c : uploadCursor).
Record uploadRequest : Type := mkUploadRequest {
  ur_LocalPath : string; ur_RemoteDir : string; ur_FileName : string; ur_Cursor : cursor_text }.
(** [Message] is the error whose text it is. *)
Record uploadResult : Type := mkUploadResult {
  rt_OK : bool; rt_Message : error; rt_Cursor : option uploadCursor; rt_Bytes : Z; rt_Retryable : bool;
  rt_NodeID : string; rt_ErrorClass : string; rt_ErrorCode : string; rt_RetryAfterSeconds : Z }.

Definition failedUpload (cause : error) (cursor : option uploadCursor) : uploadResult :=
  let verdict := classifyUpload cause in
  mkUploadResult false cause cursor (match cursor with Some c => uc_TotalBytes c | None => 0 end) (retryable verdict) ""
    (cd_class verdict) (cd_code verdict) (Z.quot (cd_retryAfter verdict + second - 1) second).

(** ** The session of the phone *)

Definition stagingPrefix : string := "pigcloud-e2ee-".

Record MobileSession : Type := mkMobileSession {
  ms_keys : Session; ms_cacheDir : string; ms_uploading : bool; ms_fs : LocalFs }.
#[export] Instance eta_MobileSession : Eta MobileSession := λ s,
  mkMobileSession (ms_keys s) (ms_cacheDir s) (ms_uploading s) (ms_fs s).

(** What one call is given: the configuration, the name [os.CreateTemp] chooses,
    the clock, the environment of the encryption, the cancelling of its context
    at each of its checks, the random key and bytes, the panic of the progress
    callback; the entries that the probe of the enclave leaves in the
    configuration directory, when the encryption makes one that commits (the
    file of the scanner's pins, and the directory if it was not there); the
    failure of [os.Remove], and what it then leaves of the temporary file of an
    encryption that failed. *)
Record attempt : Type := mkAttempt {
  at_view : View; at_name : string; at_now : Z; at_env : upload_env; at_ctx : nat → option error;
  at_key : string; at_rand : randomness; at_panic : option error;
  at_pins : LocalFs; at_remove : option error; at_left : option bytes }.

Local Notation "x <-- m ;; k" := (op_bind m (λ x, k)) (at level 100, m at next level, right associativity).

Section mobile.
Context `{U : Unicode, BL : Blake2b, A : AEAD, X : X25519, K : MLKEM, HK : Hkdf, AR : Argon2, E : Ed25519, M : MLDSA,
  SS : Sha256Sum, SH : Sha256, HM : Hmac, FC : FileChunkSize}.
Context {W : Type}.
Variable readlink : string → option string.
Variable cwd : string.
Variable json_marshal : gmap string string → option string.
(** [json.Unmarshal] of a receipt into [nodeId] and [node_id]. *)
Variable json_ids : bytes → option (string * string).
(** [client.Upload], given what it reads from the path. *)
Variable client_Upload : result error bytes → string → string → gmap string string → W → result error (option Response) * W.

Definition uploadedNodeID (raw : bytes) : string :=
  match raw with
  | [] => ""
  | _ => match json_ids raw with
         | None => ""
         | Some (nodeID, wire) => if decide (nodeID ≠ "") then nodeID else wire
         end
  end.

Definition ctx_check (e : option error) : op unit := op_lift (match e with Some e => Err e | None => Ok tt end).

(** The options an upload goes up with, once its ciphertext is staged. *)
Definition cursor_options (a : attempt) (req : uploadRequest) (artifacts : UploadArtifacts) (staged : result error bytes)
    : op (gmap string string) :=
  _ <-- ctx_check (at_ctx a 1);;
  let options : gmap string string :=
    <["sealed_key" := ua_SealedKeyB64 artifacts]> (<["encryption_meta" := ua_EncMetaB64 artifacts]>
    (<["_original_name" := ur_FileName req]> {["upload_idempotency_key" := at_key a]})) in
  let options := if decide (ua_TeeSealedKeyB64 artifacts ≠ "")
                 then <["tee_sealed_key" := ua_TeeSealedKeyB64 artifacts]> options else options in
  let options := if decide (ua_PlaintextHmacHex artifacts ≠ "")
                 then <["plaintext_hmac" := ua_PlaintextHmacHex artifacts]> options else options in
  sigs <-- SignEncryptedFile (at_view a) (b ← staged; Ok (Ok b));;
  let options := <["signing_pk_mldsa" := us_SigningPkMldsaB64 sigs]> (<["signing_pk_ed25519" := us_SigningPkEd25519B64 sigs]>
                 (<["signature_mldsa" := us_SignatureMldsaB64 sigs]> (<["signature_ed25519" := us_SignatureEd25519B64 sigs]> options))) in
  _ <-- ctx_check (at_ctx a 2);;
  let fullPath := trim_left slash (path_Join (ur_RemoteDir req) (ur_FileName req)) in
  options <-- AddE2eeNameFields (at_view a) (at_rand a) options (ur_FileName req) fullPath;;
  AddPathTokensForAll json_marshal (at_view a) options [ur_RemoteDir req] PathTokenSelfAndParent.

(** [os.Remove] of a ciphertext, its error dropped. *)
Definition cleanup (a : attempt) (fs : LocalFs) (p : string) : LocalFs :=
  match at_remove a with Some _ => fs | None => remove_quietly readlink cwd fs p end.
(** What [EncryptForUpload] leaves at the path of its temporary file. *)
Definition left_behind (a : attempt) (staged : option bytes) : option bytes :=
  match staged, at_remove a with Some b, _ => Some b | None, Some _ => at_left a | None, None => None end.

(** The end of [resumeOrPrepare]: a new ciphertext in the cache directory. *)
Definition prepare (a : attempt) (req : uploadRequest) (ms : MobileSession) : result error uploadCursor * MobileSession :=
  match at_ctx a 0 with
  | Some e => (Err e, ms)
  | None =>
      let p := path_Join (ms_cacheDir ms) (at_name a) in
      let '(r, staged, keys) := EncryptForUpload (at_view a) (at_env a) (ms_keys ms) in
      let ms := ms <| ms_keys := keys |> in
      let ms := match left_behind a staged with
                | Some b => ms <| ms_fs := os_Create readlink cwd (ms_fs ms) p b (at_now a) |>
                | None => ms
                end in
      let ms := ms <| ms_fs := at_pins a ∪ ms_fs ms |> in
      match r with
      | Err e => (Err e, ms)
      | Ok artifacts =>
          let '(r, keys) := cursor_options a req artifacts (os_Open readlink cwd (ms_fs ms) p) (ms_keys ms) in
          let ms := ms <| ms_keys := keys |> in
          match r with
          | Err e => (Err e, ms <| ms_fs := cleanup a (ms_fs ms) p |>)
          | Ok options =>
              let total := match os_Open readlink cwd (ms_fs ms) p with Ok b => blen b | Err _ => 0 end in
              (Ok (mkCursor p (ur_RemoteDir req) (ur_FileName req) total options), ms)
          end
      end
  end.

Definition resumeOrPrepare (a : attempt) (req : uploadRequest) (ms : MobileSession) : result error uploadCursor * MobileSession :=
  match ur_Cursor req with
  | BadCursor => (Err (ErrText "parse upload cursor"), ms)
  | NoCursor => prepare a req ms
  | CursorOf cursor =>
      match underCacheDir readlink cwd (ms_fs ms) (ms_cacheDir ms) (uc_EncryptedPath cursor) with
      | Some e => (Err e, ms)
      | None => if os_Stat readlink cwd (ms_fs ms) (uc_EncryptedPath cursor) then (Ok cursor, ms) else prepare a req ms
      end
  end.

(** The request for a cursor, and what becomes of its answer. *)
Definition send_cursor (a : attempt) (cursor : uploadCursor) (ms : MobileSession) (w : W) : uploadResult * MobileSession * W :=
  let '(r, w) := client_Upload (os_Open readlink cwd (ms_fs ms) (uc_EncryptedPath cursor)) (uc_EncryptedPath cursor)
                   (uc_RemoteDir cursor) (uc_Options cursor) w in
  let failed e := (failedUpload e (Some cursor), ms, w) in
  match at_panic a with
  | Some blown => failed blown
  | None =>
      match r with
      | Err e => failed e
      | Ok None => failed (ErrText "upload refused")
      | Ok (Some resp) =>
          if Success resp then
            (mkUploadResult true (ErrText (Message resp)) None (uc_TotalBytes cursor) false (uploadedNodeID (Raw resp)) "" "" 0,
             ms <| ms_fs := cleanup a (ms_fs ms) (uc_EncryptedPath cursor) |>, w)
          else failed (refusalError resp (if decide (Message resp ≠ "") then Message resp else "upload refused"))
      end
  end.

(** [Upload]; [None] is a request that does not decode. *)
Definition Upload (a : attempt) (req : option uploadRequest) (ms : MobileSession) (w : W)
    : result error uploadResult * MobileSession * W :=
  match req with
  | None => (Err (ErrText "parse upload request"), ms, w)
  | Some req =>
      let name := if decide (ur_FileName req = "") then path_Base (ur_LocalPath req) else ur_FileName req in
      match validFileName name with
      | Some e => (Ok (failedUpload (ErrBadInput e) None), ms, w)
      | None =>
      match cleanRemoteDir (ur_RemoteDir req) with
      | Err e => (Ok (failedUpload (ErrBadInput e) None), ms, w)
      | Ok remoteDir =>
          let req := mkUploadRequest (ur_LocalPath req) remoteDir name (ur_Cursor req) in
          if ms_uploading ms then
            (Ok (failedUpload (ErrText "an upload is already running on this Session; wait for it or call Cancel") None), ms, w)
          else
            let '(r, ms) := resumeOrPrepare a req (ms <| ms_uploading := true |>) in
            let '(out, ms, w) := match r with
                                 | Err e => (failedUpload e None, ms, w)
                                 | Ok cursor => send_cursor a cursor ms w
                                 end in
            (Ok out, ms <| ms_uploading := false |>, w)
      end end
  end.

(** ** The staging directory *)

(** An entry that is no directory, and that may be removed. *)
Definition removable (e : fs_entry) : bool := match e with FsFile _ _ | FsLink => true | FsDir _ | FsDenied => false end.
Definition sweep (keep : list string) (ms : MobileSession) : result error nat * MobileSession :=
  match EvalSymlinks readlink (ms_fs ms) (ms_cacheDir ms) with
  | None => (Err (ErrText "read the session cache dir"), ms)
  | Some root =>
      match os_ReadDir (ms_fs ms) root with
      | Err e => (Err (ErrWrap "read the session cache dir" e), ms)
      | Ok entries =>
          let swept := filter (λ x : string * fs_entry, removable x.2 = true ∧ has_prefix stagingPrefix x.1 = true ∧
                                 x.1 ∉ keep) entries in
          (Ok (length swept), ms <| ms_fs := foldr (λ x fs, delete (path_Join root x.1) fs) (ms_fs ms) swept |>)
      end
  end.
Definition SweepStaging : MobileSession → result error nat * MobileSession := sweep [].
(** A kept cursor that does not decode, or names another place, keeps nothing. *)
Definition SweepStagingExcept (keepCursors : option (list (option uploadCursor))) (ms : MobileSession)
    : result error nat * MobileSession :=
  match keepCursors with
  | None => (Err (ErrText "parse kept cursors"), ms)
  | Some cursors =>
      let keep := omap (λ raw, cursor ← raw;
                          match underCacheDir readlink cwd (ms_fs ms) (ms_cacheDir ms) (uc_EncryptedPath cursor) with
                          | Some _ => None
                          | None => Some (path_Base (uc_EncryptedPath cursor))
                          end) cursors in
      sweep keep ms
  end.
Definition DiscardCursor (cursor : option uploadCursor) (ms : MobileSession) : option error * MobileSession :=
  match cursor with
  | None => (Some (ErrText "parse upload cursor"), ms)
  | Some cursor =>
      match underCacheDir readlink cwd (ms_fs ms) (ms_cacheDir ms) (uc_EncryptedPath cursor) with
      | Some e => (Some e, ms)
      | None => match os_Remove readlink cwd (ms_fs ms) (uc_EncryptedPath cursor) with
                | Ok fs => (None, ms <| ms_fs := fs |>)
                | Err e => if IsNotExist e then (None, ms) else (Some e, ms)
                end
      end
  end.

(** ** Folders, keys *)

Record folderResult : Type := mkFolderResult { fr_OK : bool; fr_Message : string; fr_ErrorClass : string; fr_ErrorCode : string }.
Definition decideFolder (error_text : error → string) (answer : result error (option Response)) : folderResult :=
  match answer with
  | Err e => mkFolderResult false (error_text e) ErrorClassTransient ""
  | Ok None => mkFolderResult false "folder request failed" ErrorClassTransient ""
  | Ok (Some resp) =>
      if Success resp then mkFolderResult true "" "" "" else
      let class := if decide (StatusCode resp = StatusTooManyRequests ∨ StatusCode resp = StatusServiceUnavailable) then ErrorClassShed
                   else if decide (StatusCode resp = StatusUnauthorized ∨ StatusCode resp = StatusForbidden) then ErrorClassUnauthorized
                   else if decide (500 ≤ StatusCode resp ∨ StatusCode resp = 0) then ErrorClassTransient
                   else ErrorClassPermanent in
      mkFolderResult false (Message resp) class (ErrorCode resp)
  end.
Definition EnsureFolder (v : View) (rnd : nat → randomness) (error_text : error → string)
    (mk : gmap string string → W → result error (option Response) * W) (remoteDir : string) (s : Session) (w : W)
    : result error folderResult * Session * W :=
  match cleanRemoteDir remoteDir with
  | Err e => (Err e, s, w)
  | Ok dir =>
      if decide (dir = "/") then (Ok (mkFolderResult true "" "" ""), s, w) else
      let segments := split_on slash (trim slash dir) in
      match list_find (λ x, isSome (validFileName x) = true) segments with
      | Some (_, x) => (Err (default (ErrText "") (validFileName x)), s, w)
      | None =>
          let options : gmap string string := <["source" := dir]> {["parents" := "true"]} in
          let '(r, s) := (options <-- AddE2eeNameFieldsForMkParents v rnd options segments;;
                          AddPathTokensForAll json_marshal v options [dir] PathTokenSelfAndParent) s in
          match r with
          | Err e => (Err e, s, w)
          | Ok options => let '(answer, w) := mk options w in (Ok (decideFolder error_text answer), s, w)
          end
      end
  end.
Definition SealName (v : View) (rnd : randomness) (fileName fullPath : string) : op (gmap string string) :=
  match validFileName fileName with
  | Some e => op_lift (Err e)
  | None => AddE2eeNameFields v rnd ∅ fileName (trim_left slash fullPath)
  end.
Definition PathTokens (v : View) (remotePath : string) (depth : Z) : op (gmap string string) :=
  let scope := if decide (depth = 1) then PathTokenSelfAndParent else if decide (depth = 2) then PathTokenSelfAndAncestors else PathTokenSelfOnly in
  AddPathTokensForAll json_marshal v ∅ [remotePath] scope.
Definition Unlocked (v : View) (s : Session) : bool * Session :=
  if IsBackground s then (true, s) else ensureKeysFromAgentLocked v s.
End mobile.

(** ** What an upload stages *)

Section facts.
Context `{U : Unicode, BL : Blake2b, A : AEAD, X : X25519, K : MLKEM, HK : Hkdf, AR : Argon2, E : Ed25519, M : MLDSA,
  SS : Sha256Sum, SH : Sha256, HM : Hmac, FC : FileChunkSize}.
Context {W : Type}.
Variable readlink : string → option string.
Variable cwd : string.
Variable json_marshal : gmap string string → option string.
Variable json_ids : bytes → option (string * string).

(** The cache directory, and where it leads. *)
Record staging (ces root : list string) (ms : MobileSession) : Prop := {
  sg_names : Forall name_ok ces; sg_root_names : Forall name_ok root;
  sg_dir : ms_cacheDir ms = abs ces;
  sg_root : EvalSymlinks readlink (ms_fs ms) (abs ces) = Some (abs root) }.
(** [os.CreateTemp] chooses a name that is not there; the file of the pins
    replaces a plain file at most, and is not the ciphertext. *)
Record fresh (root : list string) (a : attempt) (ms : MobileSession) : Prop := {
  fr_name : name_ok (at_name a);
  fr_free : ms_fs ms !! abs (root ++ [at_name a]) = None;
  fr_pins : replaces_files (at_pins a) (ms_fs ms);
  fr_apart : at_pins a !! abs (root ++ [at_name a]) = None }.

(** A staged ciphertext, as its cursor finds it. *)
Definition staged_at (fs : LocalFs) (cacheDir p q : string) (b : bytes) : Prop :=
  EvalSymlinks readlink fs (from_cwd cwd p) = Some q ∧ entry_of readlink cwd fs p = Some q ∧ (∃ t, fs !! q = Some (FsFile b t)) ∧
  underCacheDir readlink cwd fs cacheDir p = None.

Lemma staged_open fs dir p q b : staged_at fs dir p q b → os_Open readlink cwd fs p = Ok b ∧ os_Stat readlink cwd fs p = true.
Proof using Type. intros (He & _ & (t & Ht) & _). unfold os_Open, os_Stat. by rewrite He, Ht. Qed.
Lemma staged_remove a fs dir p q b : staged_at fs dir p q b →
  cleanup readlink cwd a fs p = match at_remove a with Some _ => fs | None => delete q fs end.
Proof using Type. intros (_ & He & (t & Ht) & _). unfold cleanup, remove_quietly, os_Remove. by rewrite He, Ht. Qed.

Section directory.
Variables (ces root : list string) (a : attempt) (ms : MobileSession).
Hypothesis Hs : staging ces root ms.
Hypothesis Hf : fresh root a ms.
Abbreviation p := (abs (ces ++ [at_name a])).
Abbreviation q := (abs (root ++ [at_name a])).

Lemma temp_path : path_Join (ms_cacheDir ms) (at_name a) = p.
Proof using Hs Hf. rewrite (sg_dir _ _ _ Hs). apply path_Join_abs; [apply Hs|apply Hf]. Qed.

Lemma create_spec b t : os_Create readlink cwd (ms_fs ms) p b t = <[q := FsFile b t]> (ms_fs ms).
Proof using Hs Hf.
  destruct Hs as [H1 H2 H3 H4]. unfold os_Create. by rewrite (staged_entry readlink cwd _ ces root _ H1 (fr_name _ _ _ Hf) H4 H2).
Qed.
(** The files of the phone once the ciphertext is staged and the probe is done. *)
Definition after_staging (b : bytes) : LocalFs := <[q := FsFile b (at_now a)]> (at_pins a ∪ ms_fs ms).
Lemma pins_over_staged b : at_pins a ∪ <[q := FsFile b (at_now a)]> (ms_fs ms) = after_staging b.
Proof using Hf. unfold after_staging. symmetry. apply insert_union_r, Hf. Qed.
Lemma after_staging_spec b : staged_at (after_staging b) (ms_cacheDir ms) p q b.
Proof using Hs Hf.
  destruct Hs as [H1 H2 H3 H4], Hf as [F1 F2 F3 F4]. set (fs := at_pins a ∪ ms_fs ms).
  assert (fs !! q = None) as Hfree by (by apply lookup_union_None).
  assert (EvalSymlinks readlink (after_staging b) (abs ces) = Some (abs root)) as H4'.
  { eapply EvalSymlinks_grown; [by apply subseteq_grown, insert_subseteq|].
    eapply EvalSymlinks_grown; [by apply union_grown|exact H4]. }
  assert (after_staging b !! q = Some (FsFile b (at_now a))) as Hq by apply lookup_insert_eq.
  split_and!.
  - change (from_cwd cwd p) with p. by apply (staged_resolves readlink _ ces root _ H1 F1 H4' H2 b (at_now a)).
  - by apply (staged_entry readlink cwd _ ces root _ H1 F1 H4' H2).
  - by eexists.
  - rewrite H3. by apply (staged_under readlink cwd _ ces root _ b (at_now a)).
Qed.
Lemma remove_staged b : delete q (after_staging b) = at_pins a ∪ ms_fs ms.
Proof using Hf. apply delete_insert_id, lookup_union_None; split; apply Hf. Qed.
Lemma union_changes k : (at_pins a ∪ ms_fs ms) !! k ≠ ms_fs ms !! k → ∀ P, is_Some (at_pins a !! k) ∨ P.
Proof using Type.
  intros Hne P. left. destruct (at_pins a !! k) eqn:Hk; [by eexists|]. by rewrite lookup_union_r in Hne.
Qed.
Lemma after_staging_changes b k : after_staging b !! k ≠ ms_fs ms !! k → ∀ P : Prop, P → is_Some (at_pins a !! k) ∨ (P ∧ k = q).
Proof using Type.
  unfold after_staging. intros Hne P HP. destruct (decide (k = q)) as [->|Hk]; [by right|]. rewrite lookup_insert_ne in Hne by done.
  by apply union_changes.
Qed.
End directory.

(** [EncryptForUpload] leaves its file only with the artifacts. *)
Lemma EncryptForUpload_left v ue s r left' s' : EncryptForUpload v ue s = (r, left', s') →
  match r with Err _ => left' = None | Ok art => left' = Some (ua_Encrypted art) end.
Proof using Type.
  unfold EncryptForUpload. destruct (publicKeyLocked v s) as [[pub|e] s1]; [|by intros [= <- <- <-]].
  destruct (ue_temp ue); [by intros [= <- <- <-]|]. cbv zeta. destruct (EncryptFile _ _ _ _ _) as [[meta|e] enc]; [|by intros [= <- <- <-]].
  destruct (seal_key _ _ _); [|by intros [= <- <- <-]]. destruct (ue_meta_json _ _); [|by intros [= <- <- <-]].
  destruct (bool_decide _ && _); [by intros [= <- <- <-]|].
  match goal with |- context [match ?x with Ok _ => _ | Err _ => _ end] => destruct x as [tee|]; [|by intros [= <- <- <-]] end.
  destruct (nameKeyLocked v s1) as [[nameKey|] s2]; by intros [= <- <- <-].
Qed.

(** What [prepare] leaves besides the pins: the ciphertext that its cursor
    names; when it fails, nothing that could be removed. *)
Lemma prepare_spec ces root a req ms r ms' : staging ces root ms → fresh root a ms →
  prepare readlink cwd json_marshal a req ms = (r, ms') →
  ms_cacheDir ms' = ms_cacheDir ms ∧ ms_uploading ms' = ms_uploading ms ∧
  match r with
  | Err _ => ∀ p, ms_fs ms' !! p ≠ ms_fs ms !! p →
      is_Some (at_pins a !! p) ∨ (at_remove a ≠ None ∧ p = abs (root ++ [at_name a]))
  | Ok c => ∃ b, uc_TotalBytes c = blen b ∧ ms_fs ms' = after_staging root a ms b ∧
      staged_at (ms_fs ms') (ms_cacheDir ms) (uc_EncryptedPath c) (abs (root ++ [at_name a])) b
  end.
Proof using Type.
  intros Hs Hf. unfold prepare. destruct (at_ctx a 0); [by intros [= <- <-]|]. rewrite (temp_path _ _ _ _ Hs Hf). cbv zeta.
  destruct (EncryptForUpload _ _ _) as [[r0 left0] keys] eqn:He. pose proof (EncryptForUpload_left _ _ _ _ _ _ He) as Hl.
  destruct r0 as [art|e]; subst left0.
  - generalize (cursor_options json_marshal a req art). intros co. cbn [left_behind]. cbn -[after_staging abs].
    rewrite (create_spec ces root a ms Hs Hf), (pins_over_staged root a ms Hf).
    pose proof (after_staging_spec ces root a ms Hs Hf (ua_Encrypted art)) as Hst.
    destruct (staged_open _ _ _ _ _ Hst) as [Ho _]. rewrite Ho. destruct (co _ _) as [[options|e] keys'].
    + intros [= <- <-]. cbn -[after_staging abs]. do 2 (split; [done|]). by exists (ua_Encrypted art).
    + intros [= <- <-]. cbn -[after_staging abs]. do 2 (split; [done|]). intros p. rewrite (staged_remove a _ _ _ _ _ Hst).
      destruct (at_remove a); [intros Hp; by apply (after_staging_changes root a ms _ _ Hp)|].
      rewrite (remove_staged root a ms Hf). intros Hp. by apply (union_changes a ms _ Hp).
  - destruct (left_behind a None) as [b|] eqn:Hleft; intros [= <- <-]; cbn -[after_staging abs]; (do 2 (split; [done|])); intros p; [|intros Hp; by apply (union_changes a ms _ Hp)].
    rewrite (create_spec ces root a ms Hs Hf), (pins_over_staged root a ms Hf). intros Hp.
    apply (after_staging_changes root a ms _ _ Hp). unfold left_behind in Hleft. by destruct (at_remove a).
Qed.

Lemma resumeOrPrepare_spec ces root a req ms r ms' : staging ces root ms → fresh root a ms →
  resumeOrPrepare readlink cwd json_marshal a req ms = (r, ms') →
  ms_cacheDir ms' = ms_cacheDir ms ∧ ms_uploading ms' = ms_uploading ms ∧
  match r with
  | Err _ => ∀ p, ms_fs ms' !! p ≠ ms_fs ms !! p →
      is_Some (at_pins a !! p) ∨ (at_remove a ≠ None ∧ p = abs (root ++ [at_name a]))
  | Ok c =>
      (ur_Cursor req = CursorOf c ∧ ms' = ms ∧
       underCacheDir readlink cwd (ms_fs ms) (ms_cacheDir ms) (uc_EncryptedPath c) = None ∧
       os_Stat readlink cwd (ms_fs ms) (uc_EncryptedPath c) = true) ∨
      ∃ b, uc_TotalBytes c = blen b ∧ ms_fs ms' = after_staging root a ms b ∧
        staged_at (ms_fs ms') (ms_cacheDir ms) (uc_EncryptedPath c) (abs (root ++ [at_name a])) b
  end.
Proof using Type.
  intros Hs Hf. assert (∀ r ms', prepare readlink cwd json_marshal a req ms = (r, ms') → _) as Hp
    by (intros r0 ms0; exact (prepare_spec ces root a req ms r0 ms0 Hs Hf)).
  unfold resumeOrPrepare. destruct (ur_Cursor req) as [| |c]; [|by intros [= <- <-]|].
  - intros (H1 & H2 & H3)%Hp. do 2 (split; [done|]). destruct r; [by right|done].
  - destruct (underCacheDir _ _ _ _ _) eqn:Hu; [by intros [= <- <-]|]. destruct (os_Stat _ _ _ _) eqn:Hstat.
    + intros [= <- <-]. do 2 (split; [done|]). by left.
    + intros (H1 & H2 & H3)%Hp. do 2 (split; [done|]). destruct r; [by right|done].
Qed.

Section client.
Variable client : result error bytes → string → string → gmap string string → W → result error (option Response) * W.
Abbreviation upload := (Upload readlink cwd json_marshal json_ids client).
Abbreviation sends := (send_cursor readlink cwd json_ids client).

Lemma send_cursor_spec a c ms w out ms' w' : sends a c ms w = (out, ms', w') →
  w' = (client (os_Open readlink cwd (ms_fs ms) (uc_EncryptedPath c)) (uc_EncryptedPath c) (uc_RemoteDir c) (uc_Options c) w).2 ∧
  match rt_Cursor out with
  | Some c' => c' = c ∧ rt_OK out = false ∧ ms' = ms
  | None => rt_OK out = true ∧ ms' = ms <| ms_fs := cleanup readlink cwd a (ms_fs ms) (uc_EncryptedPath c) |>
  end.
Proof using Type.
  unfold send_cursor. destruct (client _ _ _ _ w) as [r w1]. cbv zeta. cbn [snd].
  destruct (at_panic a); [by intros [= <- <- <-]|]. destruct r as [[resp|]|e]; [|by intros [= <- <- <-]..].
  destruct (Success resp); by intros [= <- <- <-].
Qed.

Lemma cleanup_changes a fs p k : cleanup readlink cwd a fs p !! k ≠ fs !! k →
  at_remove a = None ∧ entry_of readlink cwd fs p = Some k ∧ cleanup readlink cwd a fs p !! k = None.
Proof using Type.
  unfold cleanup. destruct (at_remove a); [done|]. unfold remove_quietly, os_Remove. destruct (entry_of readlink cwd fs p) as [q|]; [|done].
  assert (∀ Y : LocalFs, delete q Y !! k ≠ Y !! k → @None error = None ∧ Some q = Some k ∧ delete q Y !! k = None) as Hd.
  { intros Y Hne. destruct (decide (q = k)) as [->|]; [by rewrite lookup_delete_eq|]. by rewrite lookup_delete_ne in Hne. }
  destruct (fs !! q) as [[]|]; try done; try apply Hd. case_decide; [done|apply Hd].
Qed.

(** A request that reaches the upload, and what is done with it. *)
Definition effective (req : uploadRequest) : option uploadRequest :=
  let name := if decide (ur_FileName req = "") then path_Base (ur_LocalPath req) else ur_FileName req in
  match validFileName name, cleanRemoteDir (ur_RemoteDir req) with
  | None, Ok dir => Some (mkUploadRequest (ur_LocalPath req) dir name (ur_Cursor req))
  | _, _ => None
  end.
Lemma effective_cursor req req' : effective req = Some req' → ur_Cursor req' = ur_Cursor req.
Proof using Type. unfold effective. destruct (validFileName _); [done|]. destruct (cleanRemoteDir _); [|done]. by intros [= <-]. Qed.
Lemma Upload_eq a req ms w : ms_uploading ms = false →
  upload a (Some req) ms w =
  match effective req with
  | None => ((upload a (Some req) ms w).1.1, ms, w)
  | Some req =>
      let '(r, ms) := resumeOrPrepare readlink cwd json_marshal a req (ms <| ms_uploading := true |>) in
      let '(out, ms, w) := match r with Err e => (failedUpload e None, ms, w) | Ok cursor => sends a cursor ms w end in
      (Ok out, ms <| ms_uploading := false |>, w)
  end.
Proof using Type.
  intros Hu. unfold Upload, effective. destruct (validFileName _); [done|]. destruct (cleanRemoteDir _); [|done].
  by rewrite Hu.
Qed.
Lemma Upload_refused a req ms w out ms' w' : effective req = None ∨ ms_uploading ms = true →
  upload a (Some req) ms w = (Ok out, ms', w') → ms' = ms ∧ rt_Cursor out = None ∧ rt_OK out = false.
Proof using Type.
  unfold effective, Upload. intros H. destruct (validFileName _); [by intros [= <- <- <-]|].
  destruct (cleanRemoteDir _); [|by intros [= <- <- <-]]. destruct H as [?| ->]; [done|]. by intros [= <- <- <-].
Qed.

(** C17: An upload leaves nothing on the phone but the pins of the scanner and
    what its cursor names.  Whatever fails on the way, every path of the phone's
    files that a call changes is one that the probe of the enclave wrote, or: for
    a call that gives a cursor, the new ciphertext that the cursor names and from
    which it can be resumed; for one that succeeds, the ciphertext it resumed
    from, which is gone; and, only if [os.Remove] failed, the staged ciphertext
    of this call, for the sweep of the directory.  Afterwards the session is free
    for the next upload. *)
Theorem Upload_leaves ces root a req ms w out ms' w' :
  staging ces root ms → fresh root a ms → upload a (Some req) ms w = (Ok out, ms', w') →
  ms_uploading ms' = ms_uploading ms ∧ (rt_OK out = true → rt_Cursor out = None) ∧
  ∀ p, ms_fs ms' !! p ≠ ms_fs ms !! p →
    is_Some (at_pins a !! p) ∨
    match rt_Cursor out with
    | Some c => ∃ b, staged_at (ms_fs ms') (ms_cacheDir ms) (uc_EncryptedPath c) p b ∧ uc_TotalBytes c = blen b
    | None =>
        (at_remove a ≠ None ∧ p = abs (root ++ [at_name a])) ∨
        (at_remove a = None ∧ rt_OK out = true ∧ ms_fs ms' !! p = None ∧
         ∃ c, ur_Cursor req = CursorOf c ∧ entry_of readlink cwd (ms_fs ms) (uc_EncryptedPath c) = Some p)
    end.
Proof using Type.
  intros Hs Hf Hup. destruct (ms_uploading ms) eqn:Hu; [apply Upload_refused in Hup as (-> & -> & ->); [done|by right]|].
  rewrite Upload_eq in Hup by done. destruct (effective req) as [req'|] eqn:Hreq.
  2: { destruct (upload a (Some req) ms w) as [[out0 ms0] w0] eqn:Hup0. simplify_eq/=.
       apply Upload_refused in Hup0 as (_ & -> & ->); [done|by left]. }
  pose proof (effective_cursor _ _ Hreq) as Hcur. set (ms0 := ms <| ms_uploading := true |>) in *.
  destruct (resumeOrPrepare _ _ _ a req' ms0) as [r ms1] eqn:Hr.
  apply (resumeOrPrepare_spec ces root) in Hr as (Hdir & Hup1 & Hr);
    [|destruct Hs; by split|destruct Hf; by split]. change (ms_fs ms0) with (ms_fs ms) in Hr. change (ms_cacheDir ms0) with (ms_cacheDir ms) in *.
  destruct r as [c|e].
  2: { injection Hup as <- <- <-. cbn. split_and!; [done..|]. intros p [Hp|Hp]%Hr; [by left|by right; left]. }
  destruct (sends a c ms1 w) as [[out1 ms2] w1] eqn:Hsend. injection Hup as <- <- <-.
  apply send_cursor_spec in Hsend as [_ Hsend]. cbn. destruct (rt_Cursor out1) as [c'|] eqn:Hc'.
  - destruct Hsend as (-> & -> & ->). split_and!; [done..|]. intros p Hp. destruct Hr as [(_ & -> & _)|(b & Hb & Hfs & Hst)]; [done|].
    rewrite Hfs in Hp. destruct (after_staging_changes root a ms0 b p Hp True I) as [?|[_ ->]]; [by left|right]. by exists b.
  - destruct Hsend as (Hok & ->). split_and!; [done..|]. cbn. intros p Hp.
    destruct Hr as [(Hc & -> & _)|(b & Hb & Hfs & Hst)].
    + apply cleanup_changes in Hp as (Hrm & He & Hp). right. right. split_and!; [done..|]. exists c. by rewrite <- Hcur.
    + rewrite (staged_remove a _ _ _ _ _ Hst), Hfs in Hp. destruct (at_remove a).
      * destruct (after_staging_changes root a ms0 b p Hp _ (Some_ne_None e)) as [?|[_ ->]]; [by left|by right; left].
      * rewrite (remove_staged root a ms0) in Hp by (destruct Hf; by split). by apply (union_changes a ms0 p Hp).
Qed.

(** ** Uploads again *)

(** The host of an upload: it calls again with the cursor it was given. *)
Definition with_cursor (req : uploadRequest) (c : uploadCursor) : uploadRequest :=
  mkUploadRequest (ur_LocalPath req) (ur_RemoteDir req) (ur_FileName req) (CursorOf c).
Fixpoint upload_all (ats : list attempt) (req : uploadRequest) (ms : MobileSession) (w : W)
    : list uploadResult * MobileSession * W :=
  match ats with
  | [] => ([], ms, w)
  | a :: ats =>
      let '(out, ms, w) := upload a (Some req) ms w in
      match out with
      | Err _ => ([], ms, w)
      | Ok out =>
          match rt_Cursor out with
          | None => ([out], ms, w)
          | Some c => let '(outs, ms, w) := upload_all ats (with_cursor req c) ms w in (out :: outs, ms, w)
          end
      end
  end.

(** A cursor from which the session can go on. *)
Definition resumable (ms : MobileSession) (req : uploadRequest) (c : uploadCursor) : Prop :=
  ms_uploading ms = false ∧ effective req ≠ None ∧
  underCacheDir readlink cwd (ms_fs ms) (ms_cacheDir ms) (uc_EncryptedPath c) = None ∧
  os_Stat readlink cwd (ms_fs ms) (uc_EncryptedPath c) = true.

Lemma Upload_resumed a req ms w c : resumable ms req c →
  upload a (Some (with_cursor req c)) ms w =
  let '(out, ms, w) := sends a c (ms <| ms_uploading := true |>) w in (Ok out, ms <| ms_uploading := false |>, w).
Proof using Type.
  intros (Hu & Heff & Hc & Hst). rewrite Upload_eq by done.
  assert (∃ r, effective (with_cursor req c) = Some r ∧ ur_Cursor r = CursorOf c) as (r & -> & Hr).
  { unfold effective in *. cbn. destruct (validFileName _); [done|]. destruct (cleanRemoteDir _); [|done]. by eexists. }
  unfold resumeOrPrepare. rewrite Hr. cbn. rewrite Hc, Hst. done.
Qed.

(** A call that gives a cursor has sent the file and the options of that cursor,
    and can go on from there. *)
Lemma Upload_cursor ces root a req ms w out ms' w' c : staging ces root ms → fresh root a ms →
  upload a (Some req) ms w = (Ok out, ms', w') → rt_Cursor out = Some c →
  rt_OK out = false ∧ resumable ms' req c ∧
  w' = (client (os_Open readlink cwd (ms_fs ms') (uc_EncryptedPath c)) (uc_EncryptedPath c) (uc_RemoteDir c) (uc_Options c) w).2.
Proof using Type.
  intros Hs Hf Hup Hcur. destruct (ms_uploading ms) eqn:Hu; [apply Upload_refused in Hup as (_ & ? & _); [congruence|by right]|].
  rewrite Upload_eq in Hup by done. destruct (effective req) as [req'|] eqn:Hreq.
  2: { destruct (upload a (Some req) ms w) as [[out0 ms0] w0] eqn:Hup0. simplify_eq/=.
       apply Upload_refused in Hup0 as (_ & ? & _); [congruence|by left]. }
  set (ms0 := ms <| ms_uploading := true |>) in *.
  destruct (resumeOrPrepare _ _ _ a req' ms0) as [r ms1] eqn:Hr.
  apply (resumeOrPrepare_spec ces root) in Hr as (Hdir & _ & Hr); [|destruct Hs; by split|destruct Hf; by split].
  destruct r as [c'|e]; [|by injection Hup as <- _ _].
  destruct (sends a c' ms1 w) as [[out1 ms2] w1] eqn:Hsend. injection Hup as <- <- <-.
  apply send_cursor_spec in Hsend as [Hw Hsend]. rewrite Hcur in Hsend. destruct Hsend as (<- & Hok & ->).
  split_and!; [done| |done]. unfold resumable. cbn. rewrite Hreq, Hdir. split_and!; [done..| |];
    (destruct Hr as [(_ & -> & ? & ?)|(b & _ & _ & Hst)]; [done|]); [apply Hst|by apply (staged_open _ _ _ _ _ Hst)].
Qed.

(** Once there is a cursor, every call sends its file and its options. *)
Lemma upload_all_resumed ats req c : ∀ ms w outs ms' w' (P : W → Prop), resumable ms req c → P w →
  (∀ w, P w → P (client (os_Open readlink cwd (ms_fs ms) (uc_EncryptedPath c)) (uc_EncryptedPath c) (uc_RemoteDir c) (uc_Options c) w).2) →
  upload_all ats (with_cursor req c) ms w = (outs, ms', w') → P w'.
Proof using Type.
  induction ats as [|a ats IH]; intros ms w outs ms' w' P Hres Hw Hstep; cbn [upload_all]; [by intros [= _ _ <-]|].
  rewrite Upload_resumed by done. destruct (sends a c _ w) as [[out ms1] w1] eqn:Hsend.
  apply send_cursor_spec in Hsend as [Hw1 Hsend]. assert (P w1) as Hp1 by (rewrite Hw1; by apply Hstep).
  destruct (rt_Cursor out) as [c'|]; [|by intros [= _ _ <-]]. destruct Hsend as (-> & _ & ->).
  change (with_cursor (with_cursor req c) c) with (with_cursor req c).
  destruct (upload_all ats (with_cursor req c) _ w1) as [[outs1 ms2] w2] eqn:Hall. intros [= _ _ <-].
  apply (IH _ _ _ _ _ P) in Hall; [done| |done|done]. by destruct Hres as (? & ? & ? & ?).
Qed.

(** C40: A file sealed for an enclave that has changed since goes up with that
    seal for ever.  When the server refuses what is sealed to another key with
    the code that the other clients answer by sealing again, the phone gives its
    host a cursor and calls the failure one to retry; every call from that cursor
    sends the old seal and is refused in the same way, whatever keys the enclave
    has shown by then. *)
Theorem stale_seal_kept ces root a ats req ms w out ms1 w1 c stale outs ms2 w2 :
  staging ces root ms → fresh root a ms →
  upload a (Some req) ms w = (Ok out, ms1, w1) → rt_Cursor out = Some c →
  uc_Options c !! "tee_sealed_key" = Some stale →
  (∀ body p dir opts w, opts !! "tee_sealed_key" = Some stale →
     ∃ k d m, (client body p dir opts w).1 = Err (ErrRequest k StatusServiceUnavailable d (ErrAPI StaleTeeSealCode m))) →
  Forall (λ a, at_panic a = None) ats →
  upload_all ats (with_cursor req c) ms1 w1 = (outs, ms2, w2) →
  length outs = length ats ∧
  Forall (λ o, rt_OK o = false ∧ rt_Retryable o = true ∧ rt_Cursor o = Some c ∧ MayBeStaleTeeSeal (rt_Message o) = true) outs.
Proof using Type.
  intros Hs Hf Hup Hcur Hseal Hrefuse. destruct (Upload_cursor ces root a req ms w out ms1 w1 c Hs Hf Hup Hcur) as (_ & Hres & _).
  clear Hs Hf Hup Hcur. revert ms1 w1 outs ms2 w2 Hres. induction ats as [|a' ats IH]; intros ms1 w1 outs ms2 w2 Hres Hp; cbn [upload_all].
  { by intros [= <- _ _]. }
  apply Forall_cons in Hp as [Hp1 Hp]. rewrite Upload_resumed by done. unfold send_cursor.
  destruct (Hrefuse (os_Open readlink cwd (ms_fs (ms1 <| ms_uploading := true |>)) (uc_EncryptedPath c))
    (uc_EncryptedPath c) (uc_RemoteDir c) (uc_Options c) w1 Hseal) as (k & d & m & Herr).
  destruct (client _ _ _ _ w1) as [r w1']. cbn [fst] in Herr. subst r. rewrite Hp1. cbn [failedUpload rt_Cursor].
  change (with_cursor (with_cursor req c) c) with (with_cursor req c).
  destruct (upload_all ats (with_cursor req c) _ w1') as [[outs1 ms3] w3] eqn:Hall. intros [= <- _ _].
  apply IH in Hall as [Hlen Hall]; [|by destruct Hres as (? & ? & ? & ?)|done]. cbn [length]. rewrite Hlen. split; [done|].
  constructor; [|done]. split_and!; [done| |done|done]. by destruct k.
Qed.
End client.

End facts.

Section requests.
Context `{U : Unicode, BL : Blake2b, A : AEAD, X : X25519, K : MLKEM, HK : Hkdf, AR : Argon2, E : Ed25519, M : MLDSA,
  SS : Sha256Sum, SH : Sha256, HM : Hmac, FC : FileChunkSize}.
Context {W : Type}.
Variable readlink : string → option string.
Variable cwd : string.
Variable json_marshal : gmap string string → option string.
Variable json_ids : bytes → option (string * string).
Abbreviation upload_all := (upload_all readlink cwd json_marshal json_ids).
Abbreviation resumable := (resumable readlink cwd).

(** A client whose calls are written down. *)
Definition call : Type := result error bytes * string * string * gmap string string.
Definition logging (client : result error bytes → string → string → gmap string string → W → result error (option Response) * W)
    (body : result error bytes) (p dir : string) (opts : gmap string string) (w : W * list call)
    : result error (option Response) * (W * list call) :=
  let '(r, w1) := client body p dir opts w.1 in (r, (w1, w.2 ++ [(body, p, dir, opts)])).


Lemma logging_all client ats req c ms w l b outs ms' w' l' :
  resumable ms req c → os_Open readlink cwd (ms_fs ms) (uc_EncryptedPath c) = b →
  Forall (λ x, x = (b, uc_EncryptedPath c, uc_RemoteDir c, uc_Options c)) l →
  upload_all (logging client) ats (with_cursor req c) ms (w, l) = (outs, ms', (w', l')) →
  Forall (λ x, x = (b, uc_EncryptedPath c, uc_RemoteDir c, uc_Options c)) l'.
Proof using Type.
  intros Hr Hb Hl Hall.
  apply (upload_all_resumed readlink cwd json_marshal json_ids (logging client) ats req c ms (w, l) outs ms' (w', l')
    (λ w, Forall (λ x, x = (b, uc_EncryptedPath c, uc_RemoteDir c, uc_Options c)) w.2)) in Hall; [done|done|done|].
  intros [w1 l1] Hl1. unfold logging. destruct (client _ _ _ _ _) as [r w2]. cbn in *. apply Forall_app. split; [done|]. by constructor; [rewrite Hb|].
Qed.

(** One call of [Upload] calls the client at most once. *)
Lemma Upload_log client a req ms w l out ms' w' l' :
  Upload readlink cwd json_marshal json_ids (logging client) a req ms (w, l) = (out, ms', (w', l')) →
  (length l' ≤ S (length l))%nat.
Proof using Type.
  unfold Upload. destruct req as [req|]; [|intros [= _ _ _ <-]; lia]. destruct (validFileName _); [intros [= _ _ _ <-]; lia|].
  destruct (cleanRemoteDir _); [|intros [= _ _ _ <-]; lia]. destruct (ms_uploading ms); [intros [= _ _ _ <-]; lia|].
  destruct (resumeOrPrepare _ _ _ _ _ _) as [[c|e] ms2]; [|intros [= _ _ _ <-]; lia].
  destruct (send_cursor _ _ _ _ _ _ _ _) as [[o ms3] [w3 l3]] eqn:Hsend. intros [= _ _ _ <-].
  apply send_cursor_spec in Hsend as [Hw _]. unfold logging in Hw. destruct (client _ _ _ _ _) as [r w4]. injection Hw as _ ->.
  rewrite length_app. cbn. lia.
Qed.

(** C18: All requests for a file are one request.  However often the host goes on
    from the cursor it is given, each call of the client sends the ciphertext and
    the options of the first: the same content, the same place and the same
    idempotency key, whatever keys, randomness and configuration the later
    calls run with. *)
Theorem retries_send_the_same client ces root a ats req ms w outs ms' w' log :
  staging readlink ces root ms → fresh root a ms → ur_Cursor req = NoCursor →
  upload_all (logging client) (a :: ats) req ms (w, []) = (outs, ms', (w', log)) →
  ∀ x y, x ∈ log → y ∈ log → x = y.
Proof using Type.
  intros Hs Hf Hno. cbn [upload_all].
  destruct (Upload _ _ _ _ _ a (Some req) ms (w, [])) as [[out ms1] [w1 l1]] eqn:Hup.
  assert (out = out ∧ ∃ x, Forall (λ y, y = x) l1 ∧ ∀ o, out = Ok o → ∀ c, rt_Cursor o = Some c → resumable ms1 req c ∧
    x = (os_Open readlink cwd (ms_fs ms1) (uc_EncryptedPath c), uc_EncryptedPath c, uc_RemoteDir c, uc_Options c)) as (_ & x & Hx & Hc).
  { split; [done|]. destruct out as [o|e].
    - destruct (rt_Cursor o) as [c|] eqn:Hcur.
      + destruct (Upload_cursor readlink cwd json_marshal json_ids (logging client) ces root a req ms (w, []) o ms1 (w1, l1) c Hs Hf Hup Hcur) as (_ & Hres & Hw).
        exists (os_Open readlink cwd (ms_fs ms1) (uc_EncryptedPath c), uc_EncryptedPath c, uc_RemoteDir c, uc_Options c). split.
        * unfold logging in Hw. destruct (client _ _ _ _ _) as [r w2]. cbn in Hw. injection Hw as _ ->. by repeat constructor.
        * intros ? [= <-] c' Hc'. rewrite Hcur in Hc'. by injection Hc' as <-.
      + assert (length l1 ≤ 1)%nat as Hl.
        { apply (Upload_log client) in Hup. cbn in Hup. lia. }
        destruct l1 as [|x [|? ?]]; [exists (Ok [], "", "", ∅)|exists x|cbn in Hl; lia]; (split; [by repeat constructor|]); intros ? [= <-]; congruence.
    - assert (l1 = []) as ->.
      { unfold Upload in Hup. destruct (validFileName _); [done|]. destruct (cleanRemoteDir _); [|done].
        destruct (ms_uploading ms); [done|]. destruct (resumeOrPrepare _ _ _ _ _ _) as [r ms2].
        match type of Hup with (let '(_, _) := ?x in _) = _ => destruct x as [[]]; done end. }
      exists (Ok [], "", "", ∅). by split. }
  assert (∀ l, Forall (λ y, y = x) l → ∀ u v, u ∈ l → v ∈ l → u = v) as Hsame.
  { intros l Hl u v Hu Hv. rewrite Forall_forall in Hl. by rewrite (Hl u), (Hl v). }
  destruct out as [o|e]; [|intros [= _ _ _ <-]; by apply Hsame].
  destruct (rt_Cursor o) as [c|] eqn:Hcur; [|intros [= _ _ _ <-]; by apply Hsame].
  destruct (Hc o eq_refl c Hcur) as [Hres ->].
  destruct (upload_all _ ats _ ms1 _) as [[outs1 ms2] [w2 l2]] eqn:Hall. intros [= _ _ _ <-].
  apply Hsame. by eapply logging_all.
Qed.
End requests.

(** ** Background sessions *)

Section background.
Context `{U : Unicode, BL : Blake2b, A : AEAD, X : X25519, K : MLKEM, HK : Hkdf, AR : Argon2, E : Ed25519, M : MLDSA,
  SS : Sha256Sum, SH : Sha256, HM : Hmac, FC : FileChunkSize}.
Variable readlink : string → option string.
Variable cwd : string.
Variable json_marshal : gmap string string → option string.

(** A session unlocked with background keys has all that an upload asks for. *)
Record background_keys (nameKey : bytes) (s : Session) : Prop := {
  bk_background : ss_background s = true; bk_name : ss_nameKey s = Some nameKey;
  bk_pub : ∃ pub, ss_pub s = Some pub;
  bk_signing : ∃ spub spriv, ss_signingPub s = Some spub ∧ ss_signingPriv s = Some spriv }.
Lemma UnlockBackground_keys m s s' : UnlockBackground (Some m) s = (None, s') → background_keys (bm_NameKey m) s'.
Proof using Type.
  destruct m as [n p [sp|] [spb|] [pb|]]; cbn; try done. case_decide; [|done]. intros [= <-].
  split; [done|done|by eexists|by do 2 eexists].
Qed.

Section keys.
Variables (v : View) (nameKey : bytes) (s : Session).
Hypothesis Hb : background_keys nameKey s.

Lemma background_name : nameKeyLocked v s = (Ok nameKey, s).
Proof using Hb. unfold nameKeyLocked, derived. by rewrite (bk_name _ _ Hb). Qed.
Lemma background_pub : ∃ pub, publicKeyLocked v s = (Ok pub, s).
Proof using Hb. destruct (bk_pub _ _ Hb) as [pub H]. exists pub. unfold publicKeyLocked. by rewrite H. Qed.
Lemma background_encrypt ue : (EncryptForUpload v ue s).2 = s.
Proof using Hb.
  unfold EncryptForUpload. destruct background_pub as [pub ->]. destruct (ue_temp ue); [done|]. cbv zeta.
  destruct (EncryptFile _ _ _ _ _) as [[meta|e] enc]; [|done]. destruct (seal_key _ _ _); [|done]. destruct (ue_meta_json _ _); [|done].
  destruct (bool_decide _ && _); [done|].
  match goal with |- context [match ?x with Ok _ => _ | Err _ => _ end] => destruct x as [tee|]; [|done] end.
  by rewrite background_name.
Qed.
Lemma background_sign staged r : SignEncryptedFile v staged s = r → r.2 = s.
Proof using Hb.
  intros <-. unfold SignEncryptedFile, op_bind, op_lift. destruct (bk_signing _ _ Hb) as (spub & spriv & H1 & H2).
  rewrite (signing_cached v s spub spriv H1 H2). destruct (on_error _ staged); [|done]. by destruct (on_error _ _) as [[]|].
Qed.
Lemma background_names rnd options name path r s' : AddE2eeNameFields v rnd options name path s = (r, s') → s' = s ∧
  ∀ o, r = Ok o → is_Some (o !! "e2ee_path_token") ∧ ∀ k, k ≠ "e2ee_path_token" → k ≠ "e2ee_display_name" → o !! k = options !! k.
Proof using Hb.
  unfold AddE2eeNameFields, hasKeysLocked. rewrite (bk_background _ _ Hb). cbn [orb negb].
  unfold op_bind. destruct background_pub as [pub ->]. rewrite background_name. unfold op_lift.
  destruct (on_error _ (seal_name _ _ _)); [|by intros [= <- <-]]. destruct (on_error _ _); [|by intros [= <- <-]].
  intros [= <- <-]. split; [done|]. intros o [= <-].
  split; [rewrite lookup_insert_eq; by eexists|]. intros k H1 H2. by rewrite !lookup_insert_ne by done.
Qed.
End keys.

Lemma cursor_options_background v nameKey a req art staged s r s' : background_keys nameKey s → at_view a = v → HasE2EEKeys v = false →
  cursor_options json_marshal a req art staged s = (r, s') → s' = s ∧
  ∀ o, r = Ok o → is_Some (o !! "e2ee_path_token") ∧ o !! "path_tokens" = None ∧ o !! "path_tokens_legacy" = None.
Proof using Type.
  intros Hb Hv Hno. unfold cursor_options. rewrite Hv. unfold op_bind at 1, ctx_check, op_lift. destruct (at_ctx a 1); [by intros [= <- <-]|].
  cbv zeta. unfold op_bind at 1. destruct (SignEncryptedFile _ _ _) as [[sigs|e] s1] eqn:Hs;
    apply (background_sign v nameKey s Hb) in Hs; cbn [snd] in Hs; subst s1; [|by intros [= <- <-]].
  unfold op_bind at 1. destruct (at_ctx a 2); [by intros [= <- <-]|]. unfold op_bind at 1.
  match goal with |- context [AddE2eeNameFields v ?rnd ?o ?n ?p s] => destruct (AddE2eeNameFields v rnd o n p s) as [[o2|e] s1] eqn:Hn;
    apply (background_names v nameKey s Hb) in Hn as [-> Ho] end; [|by intros [= <- <-]].
  unfold AddPathTokensForAll. rewrite Hno. cbn [negb]. intros [= <- <-]. split; [done|]. intros o [= <-].
  destruct (Ho o2 eq_refl) as [Htok Hother]. split; [done|]. rewrite !Hother by done.
  rewrite !lookup_insert_ne by done. repeat case_decide; by rewrite ?lookup_insert_ne, ?lookup_singleton_ne, ?lookup_empty by done.
Qed.

(** What a phone uploads in the background cannot be placed by its tokens.
    In a session with background keys, whose configuration has no wrapped keys,
    the options of an upload carry the token of the file but no token of the
    directory it goes to, without an error, although the session holds the key
    they are made with; with the same session and a configuration that has
    wrapped keys the tokens of the directory are there. *)
Theorem background_uploads_lack_tokens a req ms c ms' m s0 :
  UnlockBackground (Some m) s0 = (None, ms_keys ms) → HasE2EEKeys (at_view a) = false →
  prepare readlink cwd json_marshal a req ms = (Ok c, ms') →
  is_Some (uc_Options c !! "e2ee_path_token") ∧ uc_Options c !! "path_tokens" = None ∧ uc_Options c !! "path_tokens_legacy" = None ∧
  ms_keys ms' = ms_keys ms ∧
  ∀ v, HasE2EEKeys v = true →
    let tokens := (PathTokenOptionJSON json_marshal (bm_NameKey m)
                     (replace_all backslash slash <$> ([ur_RemoteDir req] ≫= λ p, PathTokenPaths p PathTokenSelfAndParent))).1 in
    tokens ≠ "" →
    ∃ o, (AddPathTokensForAll json_marshal v (uc_Options c) [ur_RemoteDir req] PathTokenSelfAndParent (ms_keys ms')).1 = Ok o ∧
      o !! "path_tokens" = Some tokens.
Proof using Type.
  intros Hb%UnlockBackground_keys Hno. unfold prepare. destruct (at_ctx a 0); [done|]. cbv zeta.
  destruct (EncryptForUpload (at_view a) (at_env a) (ms_keys ms)) as [[r0 left0] keys] eqn:He.
  pose proof (background_encrypt (at_view a) _ _ Hb (at_env a)) as Hk. rewrite He in Hk. cbn [snd] in Hk. subst keys.
  destruct r0 as [art|e]; [|done].
  match goal with |- context [cursor_options json_marshal a req art ?st ?ks] =>
    destruct (cursor_options json_marshal a req art st ks) as [r keys'] eqn:Ho;
    assert (ks = ms_keys ms) as Hks by (by destruct (left_behind a left0)); rewrite Hks in Ho end.
  apply (cursor_options_background (at_view a) (bm_NameKey m)) in Ho as [-> Ho]; [|done..].
  destruct r as [options|e]; [|done]. intros [= <- <-]. destruct (Ho options eq_refl) as (H1 & H2 & H3).
  cbn [uc_Options]. do 3 (split; [done|]). match goal with |- ms_keys ?m1 = _ ∧ _ => assert (ms_keys m1 = ms_keys ms) as -> by (by destruct (left_behind a left0)) end.
  split; [done|]. intros v Hv Htok. match type of Htok with ?t ≠ _ => set (tokens := t) in * end.
  unfold AddPathTokensForAll. rewrite Hv. cbn [negb]. unfold addPathTokensLocked, op_bind at 1, computePathTokenMapsLocked. rewrite Hv.
  destruct (bool_decide _) eqn:Hempty.
  { exfalso. apply bool_decide_eq_true in Hempty. apply Htok. unfold tokens. rewrite Hempty. unfold PathTokenOptionJSON.
    rewrite decide_True; [done|by right]. }
  cbn [orb negb]. unfold op_bind. rewrite (background_name v _ _ Hb). unfold op_lift. fold tokens.
  destruct (PathTokenOptionJSON _ _ _) as [canonical legacy]. cbn [fst] in tokens. subst tokens.
  rewrite (decide_True _ _ Htok). eexists. split; [reflexivity|]. case_decide; [rewrite lookup_insert_ne by done|]; apply lookup_insert_eq.
Qed.
End background.

(** ** Concrete uploads *)

#[local] Instance ex_unicode_mobile : Unicode := { norm_NFC := id; cases_Lower := id; strings_ToLower := id }.
#[local] Existing Instance ex_file_chunk | 0.

Definition ex_links : string → option string := λ _, None.
Definition ex_marshal : gmap string string → option string := λ _, Some "{}".
Definition ex_ids : bytes → option (string * string) := λ _, None.
(** A client whose calls all end with [e]. *)
Definition ex_failing (e : error) : result error bytes → string → string → gmap string string → unit → result error (option Response) * unit :=
  λ _ _ _ _ w, (Err e, w).

(** A background session, its cache directory, and a ciphertext staged earlier. *)
Definition ex_material : BackgroundKeyMaterial :=
  mkBackgroundKeyMaterial (replicate 32 x01) (replicate 32 x02) (Some ex_signing.2) (Some ex_signing.1) (Some ex_pub).
Definition ex_staging : LocalFs := <["/c" := FsDir 0]> {["/c/pigcloud-e2ee-1" := FsFile [x61; x62] 0]}.
Definition ex_phone : MobileSession := mkMobileSession (UnlockBackground (Some ex_material) NewSession).2 "/c" false ex_staging.
Definition ex_attempt : attempt := mkAttempt (mkView default_config None None None) "pigcloud-e2ee-2" 5 ex_upload (λ _, None) "key"
  (replicate 32 x06, replicate 64 x07, replicate 24 x08) None
  {["/conf/tee_signing_pks.json" := FsFile [x7b; x7d] 5]} None None.
Definition ex_cursor : uploadCursor :=
  mkCursor "/c/pigcloud-e2ee-1" "/photos" "a.jpg" 2 {["tee_sealed_key" := "old"]}.
Definition ex_request (c : cursor_text) : uploadRequest := mkUploadRequest "/dcim/a.jpg" "/photos" "a.jpg" c.

Lemma ex_phone_staging : staging ex_links ["c"] ["c"] ex_phone.
Proof. split; [by repeat constructor; vm_compute..|done|by vm_compute]. Qed.
Lemma ex_attempt_fresh : fresh ["c"] ex_attempt ex_phone.
Proof.
  split; [by vm_compute|by vm_compute| |by vm_compute]. intros k e e' Hn Hk.
  unfold ex_attempt in Hn. cbn [at_pins] in Hn. apply lookup_singleton_Some in Hn as [<- <-]. by vm_compute in Hk.
Qed.

Definition ex_stale : error := ErrRequest KindTransient StatusServiceUnavailable 0 (ErrAPI StaleTeeSealCode "").

Lemma Upload_leaves_witness :
  let up client cursor := Upload ex_links "/" ex_marshal ex_ids client ex_attempt (Some (ex_request cursor)) ex_phone tt in
  (∃ out ms w c, up (ex_failing ex_stale) NoCursor = (Ok out, ms, w) ∧ rt_Cursor out = Some c ∧
     ms_fs ms !! "/conf/tee_signing_pks.json" ≠ ms_fs ex_phone !! "/conf/tee_signing_pks.json" ∧
     ∀ p, ms_fs ms !! p ≠ ms_fs ex_phone !! p →
       p = "/conf/tee_signing_pks.json" ∨
       ∃ b, staged_at ex_links "/" (ms_fs ms) "/c" (uc_EncryptedPath c) p b ∧ uc_TotalBytes c = blen b) ∧
  ∃ out ms w, up (λ _ _ _ _ w, (Ok (Some (mkResponse true "" "" "" "" 200 [])), w)) (CursorOf ex_cursor) = (Ok out, ms, w) ∧
    rt_Cursor out = None ∧ ms_uploading ms = false ∧ ms_fs ms !! "/c/pigcloud-e2ee-1" = None.
Proof.
  split.
  - assert ((match Upload ex_links "/" ex_marshal ex_ids (ex_failing ex_stale) ex_attempt (Some (ex_request NoCursor)) ex_phone tt with
             | (Ok out, ms, _) => isSome (rt_Cursor out) && isSome (ms_fs ms !! "/conf/tee_signing_pks.json")
             | _ => false
             end) = true) as Hok by (by vm_compute).
    destruct (Upload _ _ _ _ _ _ _ _ _) as [[[out|e] ms] w] eqn:Hup; [|discriminate].
    apply andb_true_iff in Hok as [Hc Hpin]. destruct (rt_Cursor out) as [c|] eqn:Hcur; [|discriminate].
    exists out, ms, w, c. split; [reflexivity|]. split; [exact Hcur|]. split.
    { change (ms_fs ex_phone !! "/conf/tee_signing_pks.json") with (@None fs_entry). destruct (_ !! _); [congruence|discriminate]. }
    intros p Hp. destruct (proj2 (proj2 (Upload_leaves ex_links "/" ex_marshal ex_ids (ex_failing ex_stale) ["c"] ["c"] ex_attempt
      (ex_request NoCursor) ex_phone tt _ _ _ ex_phone_staging ex_attempt_fresh Hup)) p Hp) as [Hq|Hq]; [left|right].
    + unfold ex_attempt in Hq. cbn [at_pins] in Hq. apply lookup_singleton_is_Some in Hq. by symmetry.
    + rewrite Hcur in Hq. exact Hq.
  - do 3 eexists. split; [reflexivity|]. split; [reflexivity|]. split; [reflexivity|by vm_compute].
Defined.

Lemma stale_seal_kept_witness :
  ∃ outs ms w, upload_all ex_links "/" ex_marshal ex_ids (ex_failing ex_stale) (replicate 3 ex_attempt)
      (with_cursor (ex_request (CursorOf ex_cursor)) ex_cursor) ex_phone tt = (outs, ms, w) ∧
    length outs = 3%nat ∧ Forall (λ o, rt_Retryable o = true ∧ rt_Cursor o = Some ex_cursor) outs.
Proof.
  destruct (upload_all _ _ _ _ _ _ _ ex_phone tt) as [[outs ms] w] eqn:Hall.
  exists outs, ms, w. split; [reflexivity|].
  destruct (Upload ex_links "/" ex_marshal ex_ids (ex_failing ex_stale) ex_attempt (Some (ex_request (CursorOf ex_cursor))) ex_phone tt)
    as [[r ms1] w1] eqn:Hup.
  assert (r = Ok (failedUpload ex_stale (Some ex_cursor)) ∧ ms1 = ex_phone) as [-> ->].
  { change (Upload _ _ _ _ _ _ _ _ _) with (Ok (A := uploadResult) (E := error) (failedUpload ex_stale (Some ex_cursor)), ex_phone, tt) in Hup.
    by injection Hup as <- <- _. }
  destruct w1.
  destruct (stale_seal_kept ex_links "/" ex_marshal ex_ids (ex_failing ex_stale) ["c"] ["c"] ex_attempt (replicate 3 ex_attempt)
    (ex_request (CursorOf ex_cursor)) ex_phone tt _ ex_phone tt ex_cursor "old" outs ms w ex_phone_staging ex_attempt_fresh Hup) as [Hl Ho].
  - reflexivity.
  - reflexivity.
  - intros. by do 3 eexists.
  - by repeat constructor.
  - exact Hall.
  - split; [exact Hl|]. eapply Forall_impl; [exact Ho|]. intros o (_ & H1 & H2 & _). by split.
Defined.

Lemma ex_prepares : is_ok (prepare ex_links "/" ex_marshal ex_attempt (ex_request NoCursor) ex_phone).1 = true.
Proof. by vm_compute. Qed.

Lemma retries_send_the_same_witness :
  ∃ outs ms w x y, upload_all ex_links "/" ex_marshal ex_ids (logging (ex_failing ex_stale)) [ex_attempt; ex_attempt]
      (ex_request NoCursor) ex_phone (tt, []) = (outs, ms, (w, [x; y])) ∧ x = y.
Proof.
  assert (length (upload_all ex_links "/" ex_marshal ex_ids (logging (ex_failing ex_stale)) [ex_attempt; ex_attempt]
    (ex_request NoCursor) ex_phone (tt, [])).2.2 = 2%nat) as Hl by (by vm_compute).
  destruct (upload_all _ _ _ _ _ _ _ _ _) as [[outs ms] [w log]] eqn:Hall. cbn in Hl.
  pose proof (retries_send_the_same ex_links "/" ex_marshal ex_ids (ex_failing ex_stale) ["c"] ["c"] ex_attempt [ex_attempt]
    (ex_request NoCursor) ex_phone tt outs ms w log ex_phone_staging ex_attempt_fresh eq_refl Hall) as H.
  destruct log as [|x [|y [|? ?]]]; [discriminate..| |discriminate]. exists outs, ms, w, x, y. split; [reflexivity|].
  apply H; [left|right; left].
Defined.

Lemma background_uploads_lack_tokens_witness :
  ∃ c ms o, prepare ex_links "/" ex_marshal ex_attempt (ex_request NoCursor) ex_phone = (Ok c, ms) ∧
    uc_Options c !! "path_tokens" = None ∧
    (AddPathTokensForAll ex_marshal ex_agent_view (uc_Options c) ["/photos"] PathTokenSelfAndParent (ms_keys ms)).1 = Ok o ∧
    o !! "path_tokens" = Some "{}".
Proof.
  pose proof ex_prepares as Hok.
  destruct (prepare ex_links "/" ex_marshal ex_attempt (ex_request NoCursor) ex_phone) as [[c|e] ms] eqn:Hp; [|discriminate].
  destruct (background_uploads_lack_tokens ex_links "/" ex_marshal ex_attempt (ex_request NoCursor) ex_phone c ms ex_material NewSession
    eq_refl eq_refl Hp) as (_ & Hno & _ & _ & Htok).
  destruct (Htok ex_agent_view eq_refl) as (o & Ho & Ht); [by vm_compute|].
  exists c, ms, o. split; [reflexivity|]. split; [exact Hno|]. split; [exact Ho|].
  rewrite Ht. by vm_compute.
Defined.
