(* ===== verification/VfsRename.v ===== *)
(** * Renaming a directory and the writeback queue

    [Rename] gives every loaded node of the subtree a new row, found by its new
    path.  The lemmas here follow one file of the directory and the queue entry
    of its pending upload, which names the old row. *)
From S2P Require Import Prelude GoLib GoFmt Table ApiErrors Crypto Hybrid Names CacheDB CacheStore CacheEvict.
From S2P Require Import FileTypes LocalFs VfsNode VfsContent Writeback VfsTree VfsTreeInv.
Local Open Scope Z_scope.

(** ** The row of an identifier that is about to go *)

Section stranded.
Context (id : Z) (p : string) (e : WritebackEntry).

(** The identifier belongs to the path [p] only, and then to no row at all. *)
Record has_row (w : World) : Prop := {
  hr_open : closed (wd_db w) = false; hr_queue : e ∈ writeback_queue (wd_db w);
  hr_seq : id ≤ inodes_seq (wd_db w);
  hr_rows : ∀ r, r ∈ inodes (wd_db w) → c_id r = id → c_remote_path r = p }.
Record no_row (w : World) : Prop := {
  nr_open : closed (wd_db w) = false; nr_queue : e ∈ writeback_queue (wd_db w);
  nr_seq : id ≤ inodes_seq (wd_db w);
  nr_rows : ∀ r, r ∈ inodes (wd_db w) → c_id r ≠ id;
  nr_index : NodeByID id (wd_vfs w) = None }.

Lemma has_row_db w w' : wd_db w' = wd_db w → has_row w → has_row w'.
Proof using Type. intros Hdb []. by split; rewrite Hdb. Qed.
Lemma no_row_db w w' :
  wd_db w' = wd_db w → v_nodesByID (wd_vfs w') !! id = v_nodesByID (wd_vfs w) !! id ∨
                       v_nodesByID (wd_vfs w') !! id = None → no_row w → no_row w'.
Proof using Type.
  intros Hdb Hix []. split; rewrite ?Hdb; try done. unfold NodeByID in *. by destruct Hix as [->| ->].
Qed.

Lemma DeleteInode_db q w :
  closed (wd_db w) = false →
  wd_db (call_db (DeleteInode q) w) = on_inodes (sql_delete (λ r, c_remote_path r = q)) (wd_db w).
Proof using Type. intros Hc. rewrite wd_db_call. unfold DeleteInode, exec_. by rewrite exec_open. Qed.

Lemma has_row_delete q w : has_row w → has_row (call_db (DeleteInode q) w).
Proof using Type.
  intros [Hc Hq Hs Hr]. split; rewrite DeleteInode_db by done; try done.
  intros r [_ Hin]%elem_of_sql_delete. by apply Hr.
Qed.
Lemma no_row_delete q w : no_row w → no_row (call_db (DeleteInode q) w).
Proof using Type.
  intros [Hc Hq Hs Hr Hix]. split; rewrite ?DeleteInode_db by done; try done.
  - intros r [_ Hin]%elem_of_sql_delete. by apply Hr.
  - by rewrite call_db_eq.
Qed.

(** Merging keeps identifiers and paths; a new row gets an identifier above. *)
Lemma upsert_rows i w :
  closed (wd_db w) = false → id ≤ inodes_seq (wd_db w) →
  let '(k, w') := upsert_id i w in
  closed (wd_db w') = false ∧ writeback_queue (wd_db w') = writeback_queue (wd_db w) ∧
  id ≤ inodes_seq (wd_db w') ∧ same_tree (wd_vfs w) (wd_vfs w') ∧
  (∀ r, r ∈ inodes (wd_db w') → c_id r = id →
     ∃ r0, r0 ∈ inodes (wd_db w) ∧ c_id r0 = id ∧ c_remote_path r0 = c_remote_path r) ∧
  (k = id → ∃ r0, r0 ∈ inodes (wd_db w) ∧ c_id r0 = id ∧ c_remote_path r0 = i_RemotePath i).
Proof using Type.
  intros Hc Hs. pose proof (same_tree_upsert i w) as Hst. revert Hst.
  unfold upsert_id, run_db, with_db, UpsertInode. fold (wd_db w). rewrite Hc.
  destruct (sql_first _ _) as [old|] eqn:E; simpl; intros Hst; split_and!; try done.
  - intros r (r0 & Hin & ->)%elem_of_sql_update Hid. exists r0. destruct (decide _); by split_and!.
  - intros <-. apply sql_first_Some in E as [? Hin]. by exists old.
  - lia.
  - intros r [Hin|Hin]%elem_of_app Hid; [by exists r|].
    apply list_elem_of_singleton in Hin as ->. simpl in Hid. lia.
  - lia.
Qed.

Lemma track_set_db l k w : wd_db (on_vfs (trackNode l) (set_id l k w)) = wd_db w.
Proof using Type. etransitivity; [exact (proj1 (track_frame l _))|done]. Qed.

Lemma track_set_index l k w :
  k ≠ id → v_nodesByID (wd_vfs (on_vfs (trackNode l) (set_id l k w))) !! id = v_nodesByID (wd_vfs w) !! id.
Proof using Type.
  intros Hne. unfold on_vfs, trackNode. simpl.
  match goal with |- context [match ?x with Some _ => _ | None => _ end] =>
    destruct x as [nd|] eqn:Hl end; [|done].
  case_decide; [done|]. simpl. apply lookup_insert_ne.
  unfold with_node, update_node in Hl. simpl in Hl. rewrite lookup_alter_eq in Hl.
  destruct (v_nodes (wd_vfs w) !! l); [|done]. injection Hl as <-. done.
Qed.

Lemma has_row_rekey l q pid w : has_row w → has_row (rekey l q pid w).2.
Proof using Type.
  intros Hw. unfold rekey. pose proof (has_row_delete q w Hw) as [Hc Hq Hs Hr].
  set (w1 := call_db (DeleteInode q) w) in *.
  pose proof (upsert_rows (nodeToInode (node_at l w1) pid) w1 Hc Hs) as Hu.
  destruct (upsert_id _ w1) as [k w2]. destruct Hu as (Hc2 & Hq2 & Hs2 & _ & Hr2 & _).
  apply (has_row_db w2); [apply track_set_db|]. split; [done|by rewrite Hq2|done|].
  intros r Hin Hid. destruct (Hr2 r Hin Hid) as (r0 & Hin0 & Hid0 & <-). by apply Hr.
Qed.

(** Another node takes the identifier only with the path. *)
Lemma has_row_rekey_index l q pid w k :
  n_RemotePath (node_at l w) ≠ p → has_row w →
  NodeByID id (wd_vfs (rekey l q pid w).2) = Some k → NodeByID id (wd_vfs w) = Some k.
Proof using Type.
  intros Hne Hw. unfold rekey. pose proof (has_row_delete q w Hw) as [Hc Hq Hs Hr].
  set (w1 := call_db (DeleteInode q) w) in *.
  pose proof (upsert_rows (nodeToInode (node_at l w1) pid) w1 Hc Hs) as Hu.
  destruct (upsert_id _ w1) as [j w2]. destruct Hu as (_ & _ & _ & [_ Hi2] & _ & Hk).
  assert (j ≠ id) as Hj.
  { intros Heq. destruct (Hk Heq) as (r0 & Hin0 & Hid0 & Hp0). apply Hne.
    rewrite <- (Hr r0 Hin0 Hid0), Hp0. simpl. unfold node_at, w1. by rewrite wd_nodes_call. }
  unfold NodeByID. cbn [snd]. rewrite track_set_index, Hi2 by done. unfold w1. by rewrite call_db_eq.
Qed.

Lemma no_row_upsert l i w :
  no_row w → no_row (let '(k, w) := upsert_id i w in on_vfs (trackNode l) (set_id l k w)).
Proof using Type.
  intros [Hc Hq Hs Hr Hix]. pose proof (upsert_rows i w Hc Hs) as Hu.
  destruct (upsert_id i w) as [k w2]. destruct Hu as (Hc2 & Hq2 & Hs2 & [_ Hi2] & Hr2 & Hk).
  assert (k ≠ id) as Hne. { intros Heq. destruct (Hk Heq) as (r0 & Hin0 & Hid0 & _). by eapply Hr. }
  apply (no_row_db w2); [apply track_set_db|left; by apply track_set_index|].
  split; [done|by rewrite Hq2|done| |].
  - intros r Hin Hid. destruct (Hr2 r Hin Hid) as (r0 & Hin0 & Hid0 & _). by eapply Hr.
  - unfold NodeByID in *. by rewrite Hi2.
Qed.

Lemma rekey_world l q pid w :
  (rekey l q pid w).2 =
  let w := call_db (DeleteInode q) w in
  let '(k, w) := upsert_id (nodeToInode (node_at l w) pid) w in on_vfs (trackNode l) (set_id l k w).
Proof using Type. unfold rekey. cbv zeta. by destruct (upsert_id _ _). Qed.

Lemma no_row_rekey l q pid w : no_row w → no_row (rekey l q pid w).2.
Proof using Type. intros Hw. rewrite rekey_world. by apply no_row_upsert, no_row_delete. Qed.

(** The step that strands the identifier: its own path is deleted. *)
Lemma strands_rekey l pid w : NodeByID id (wd_vfs w) = None → has_row w → no_row (rekey l p pid w).2.
Proof using Type.
  intros Hix [Hc Hq Hs Hr]. rewrite rekey_world. apply no_row_upsert.
  split; rewrite ?DeleteInode_db by done; try done.
  - intros r [Hp Hin]%elem_of_sql_delete Hid. by apply Hp, Hr.
  - by rewrite call_db_eq.
Qed.

Lemma no_row_untrack l w : no_row w → no_row (on_vfs (untrackNode l) w).
Proof using Type.
  apply no_row_db; unfold wd_db, on_vfs, untrackNode; simpl.
  - destruct (v_nodes (wd_vfs w) !! l); [by case_decide|done].
  - destruct (v_nodes (wd_vfs w) !! l) as [nd|]; [|by left]. case_decide; [by left|]. simpl.
    destruct (decide (n_ID nd = id)) as [->|].
    + right. apply lookup_delete_eq.
    + left. by apply lookup_delete_ne.
Qed.
Lemma has_row_untrack l w : has_row w → has_row (on_vfs (untrackNode l) w).
Proof using Type.
  apply has_row_db. unfold wd_db, on_vfs, untrackNode. simpl.
  destruct (v_nodes (wd_vfs w) !! l); [by case_decide|done].
Qed.
End stranded.

(** ** A directory of files *)

(** One round of [rewriteSubtree] on a file. *)
Definition repath (oldPrefix newPrefix : string) (x : loc) (w : World) : World :=
  let newPath := newPrefix ^^ trim_prefix oldPrefix (n_RemotePath (node_at x w)) in
  on_node x (λ nd, nd <| n_RemotePath := newPath |>) (on_vfs (untrackNode x) w).
Definition rewrite_file (dir : loc) (oldPrefix newPrefix : string) (w : World) (x : loc) : World :=
  let w' := repath oldPrefix newPrefix x w in
  (rekey x (n_RemotePath (node_at x w)) (n_ID (node_at dir w')) w').2.

Lemma rekey_nodes l q pid w :
  ∃ k, wd_nodes (rekey l q pid w).2 = update_node l (λ nd, nd <| n_ID := k |>) (wd_nodes w).
Proof.
  rewrite rekey_world. cbv zeta. set (w1 := call_db (DeleteInode q) w).
  pose proof (same_tree_upsert (nodeToInode (node_at l w1) pid) w1) as [Hn _].
  destruct (upsert_id _ w1) as [k w2]. exists k. unfold on_vfs, wd_nodes. simpl.
  rewrite (proj2 (track_frame l _)). simpl in *. rewrite Hn.
  change (v_nodes (wd_vfs w1)) with (wd_nodes w1). unfold w1. by rewrite wd_nodes_call.
Qed.

Lemma rewrite_file_nodes dir old new w x y nd :
  wd_nodes w !! y = Some nd →
  ∃ nd', wd_nodes (rewrite_file dir old new w x) !! y = Some nd' ∧ n_IsDir nd' = n_IsDir nd ∧
         (y ≠ x → nd' = nd).
Proof.
  intros Hy. unfold rewrite_file. cbv zeta. set (w' := repath old new x w).
  destruct (rekey_nodes x (n_RemotePath (node_at x w)) (n_ID (node_at dir w')) w') as [k ->].
  assert (wd_nodes w' = update_node x (λ nd, nd <| n_RemotePath :=
     new ^^ trim_prefix old (n_RemotePath (node_at x w)) |>) (wd_nodes w)) as ->.
  { unfold w', repath, on_node, wd_nodes, with_node, on_vfs. simpl. by rewrite untrack_nodes. }
  unfold update_node. destruct (decide (y = x)) as [->|Hne].
  - rewrite !lookup_alter_eq, Hy. simpl. by eexists.
  - rewrite !lookup_alter_ne by done. by exists nd.
Qed.

Lemma node_at_eq l nd w : wd_nodes w !! l = Some nd → node_at l w = nd.
Proof. unfold node_at. by intros ->. Qed.

Lemma untrack_sub l f w id k :
  NodeByID id (wd_vfs (on_node l f (on_vfs (untrackNode l) w))) = Some k → NodeByID id (wd_vfs w) = Some k.
Proof.
  unfold NodeByID, on_node, on_vfs, with_node, untrackNode. simpl.
  destruct (v_nodes (wd_vfs w) !! l); [|done]. case_decide; [done|]. simpl.
  by intros [_ ?]%lookup_delete_Some.
Qed.

Section files.
Context (m : Mount) (dir : loc) (old new : string).
Definition files (xs : list loc) (w : World) : Prop :=
  ∀ x, x ∈ xs → ∃ nd, wd_nodes w !! x = Some nd ∧ n_IsDir nd = false.

Lemma files_step xs w x : files xs w → files xs (rewrite_file dir old new w x).
Proof.
  intros Hf y Hy. destruct (Hf y Hy) as (nd & Hnd & Hd).
  destruct (rewrite_file_nodes dir old new w x y nd Hnd) as (nd' & ? & ? & _).
  exists nd'. split; [done|congruence].
Qed.

Lemma rewrite_files fuel w :
  files (range_children m dir w).*2 w →
  rewriteSubtree m (S fuel) dir old new w = foldl (rewrite_file dir old new) w (range_children m dir w).*2.
Proof.
  intros Hf. simpl. revert Hf. generalize (range_children m dir w).*2 as xs. intros xs Hf.
  revert w Hf. induction xs as [|x xs IH]; intros w Hf; [done|]. simpl.
  rewrite <- IH.
  2: { apply files_step. intros y Hy. apply Hf. by right. }
  f_equal. destruct (Hf x ltac:(by left)) as (nd & Hnd & Hd).
  destruct (rewrite_file_nodes dir old new w x x nd Hnd) as (nd' & Hnd' & Hd' & _).
  unfold rewrite_file in Hnd'. change (on_node x _ (on_vfs (untrackNode x) w)) with (repath old new x w).
  cbv zeta in *. destruct (rekey x _ _ (repath old new x w)) as [k w2] eqn:E. simpl in Hnd'.
  unfold node_at at 1. rewrite Hnd'. simpl. rewrite Hd', Hd.
  unfold rewrite_file. cbv zeta. by rewrite E.
Qed.

(** The whole pass: the file [f] loses its row, the queue entry keeps its name. *)
Lemma strands_fold id p e f fnode xs w :
  id ≠ 0 → f ∈ xs → wd_nodes w !! f = Some fnode → n_RemotePath fnode = p → n_ID fnode = id →
  NoDup xs → files xs w →
  (∀ x nd, x ∈ xs → wd_nodes w !! x = Some nd → new ^^ trim_prefix old (n_RemotePath nd) ≠ p) →
  tok w → has_row id p e w → (∀ l, NodeByID id (wd_vfs w) = Some l → l = f) →
  no_row id e (foldl (rewrite_file dir old new) w xs).
Proof.
  intros Hz Hin Hf Hp Hid Hnd Hfs Hnew Hok Hr Hix. apply list_elem_of_split_l in Hin as (xs1 & xs2 & -> & Hnin).
  rewrite foldl_app. simpl. revert w Hf Hfs Hnew Hok Hr Hix.
  induction xs1 as [|x xs1 IH]; intros w Hf Hfs Hnew Hok Hr Hix; simpl.
  - assert (no_row id e (rewrite_file dir old new w f)) as Hno.
    { unfold rewrite_file. cbv zeta. rewrite (node_at_eq f fnode w) by done. rewrite Hp.
      apply strands_rekey; [|apply (has_row_db _ _ _ (on_vfs (untrackNode f) w)); [done|]; by apply has_row_untrack].
      apply eq_None_not_Some. intros [l Hl].
      assert (l = f) as -> by (apply Hix; by eapply untrack_sub).
      by eapply (untracked_after f (wd_vfs w) id Hok). }
    clear Hnin. revert Hno. generalize (rewrite_file dir old new w f). clear.
    induction xs2 as [|x xs2 IH]; intros w Hno; [done|]. simpl. apply IH.
    unfold rewrite_file. cbv zeta. apply no_row_rekey.
    apply (no_row_db _ _ (on_vfs (untrackNode x) w)); [done|by left|]. by apply no_row_untrack.
  - apply not_elem_of_cons in Hnin as [Hne Hnin]. apply NoDup_cons in Hnd as [Hx Hnd].
    destruct (rewrite_file_nodes dir old new w x f fnode Hf) as (nd' & Hf' & _ & Heq).
    rewrite (Heq Hne) in Hf'. apply IH; try done; clear IH.
    + intros y Hy. apply files_step with (xs := x :: xs1 ++ f :: xs2); [done|by right].
    + intros y nd Hy Hnd1. destruct (Hfs y ltac:(by right)) as (nd0 & Hnd0 & _).
      destruct (rewrite_file_nodes dir old new w x y nd0 Hnd0) as (nd2 & Hnd2 & _ & Heq2).
      assert (nd = nd0) as -> by (rewrite Heq2 in Hnd2; [congruence|by intros ->]).
      apply (Hnew y); [by right|done].
    + unfold rewrite_file. cbv zeta. apply rekey_tok.
      * intros k. by apply (untracked_after x (wd_vfs w)).
      * apply tok_node; [intros ?; by repeat split|]. by apply tok_untrack.
    + unfold rewrite_file. cbv zeta. apply has_row_rekey.
      apply (has_row_db _ _ _ (on_vfs (untrackNode x) w)); [done|]. by apply has_row_untrack.
    + intros l Hl. unfold rewrite_file in Hl. cbv zeta in Hl. apply (has_row_rekey_index id p e) in Hl.
      * apply Hix. by eapply untrack_sub.
      * destruct (Hfs x ltac:(by left)) as (nd0 & Hnd0 & _). unfold repath.
        rewrite (node_at_eq x nd0 w) by done.
        match goal with |- context [on_node x ?g ?w0] => pose proof (node_update_lookup x g w0) as Hu end.
        unfold wd_nodes in Hu at 2. unfold on_vfs in Hu at 2. simpl in Hu. rewrite untrack_nodes in Hu.
        fold (wd_nodes w) in Hu. rewrite Hnd0 in Hu. simpl in Hu. rewrite (node_at_eq _ _ _ Hu). simpl.
        apply (Hnew x); [by left|done].
      * apply (has_row_db _ _ _ (on_vfs (untrackNode x) w)); [done|]. by apply has_row_untrack.
Qed.
End files.

(** ** Moving the directory itself *)

Definition same_file (nd nd' : Node) : Prop :=
  n_IsDir nd' = n_IsDir nd ∧ n_RemotePath nd' = n_RemotePath nd ∧ n_ID nd' = n_ID nd.
(** What moving [c] leaves of the nodes other than [c] and of [c]'s children. *)
Definition moved (c : loc) (w w' : World) : Prop :=
  (∀ y nd, y ≠ c → wd_nodes w !! y = Some nd → ∃ nd', wd_nodes w' !! y = Some nd' ∧ same_file nd nd') ∧
  children_of c (wd_nodes w') = children_of c (wd_nodes w).

Lemma moved_trans c w1 w2 w3 : moved c w1 w2 → moved c w2 w3 → moved c w1 w3.
Proof.
  intros [Ha1 Hc1] [Ha2 Hc2]. split; [|congruence]. intros y nd Hy Hn.
  destruct (Ha1 y nd Hy Hn) as (nd1 & Hn1 & ? & ? & ?).
  destruct (Ha2 y nd1 Hy Hn1) as (nd2 & Hn2 & ? & ? & ?).
  exists nd2. split; [done|]. split_and!; congruence.
Qed.

Lemma moved_update c l f w w' :
  wd_nodes w' = update_node l f (wd_nodes w) →
  (l = c → ∀ nd, n_Children (f nd) = n_Children nd) → (l ≠ c → ∀ nd, same_file nd (f nd)) →
  moved c w w'.
Proof.
  intros Hn Heq Hne. unfold moved, children_of. rewrite Hn. unfold update_node. split.
  - intros y nd Hy Hl. destruct (decide (y = l)) as [->|].
    + rewrite lookup_alter_eq, Hl. eexists. split; [done|]. by apply Hne.
    + rewrite lookup_alter_ne by done. by exists nd.
  - destruct (decide (c = l)) as [->|].
    + rewrite lookup_alter_eq. destruct (wd_nodes w !! l); simpl; [by rewrite Heq|done].
    + by rewrite lookup_alter_ne.
Qed.

Lemma moved_move_node p c old q new path w :
  c ≠ p → c ≠ q → moved c w (move_node p c old q new path w).
Proof.
  intros Hp Hq. unfold move_node. set (w1 := remove_child p old w).
  set (w2 := on_vfs (untrackNode c) w1).
  apply (moved_trans c w w1); [by eapply (moved_update c p); [reflexivity|congruence|]|].
  set (g := λ nd : Node, nd <| n_Name := new |> <| n_RemotePath := path |> <| n_Parent := Some q |>).
  set (w3 := on_node c g w2).
  apply (moved_trans c w1 w3).
  { apply (moved_update c c g); [|done..]. unfold w3, wd_nodes, on_node, with_node. simpl.
    unfold w2, on_vfs. simpl. by rewrite untrack_nodes. }
  assert (moved c w3 w3) as Hrefl by (split; [by intros y nd _ ?; exists nd|done]).
  unfold add_child, on_vfs, AddChild. fold (wd_nodes w3).
  destruct (wd_nodes w3 !! q) as [qn|]; [|exact Hrefl].
  destruct (wd_nodes w3 !! c) as [cn|]; [|exact Hrefl]. cbv zeta.
  set (f := λ nd : Node, nd <| n_Children := Some (<[n_Name cn := c]> (default ∅ (n_Children nd))) |>).
  apply (moved_trans c w3 (on_node q f w3)); [by eapply (moved_update c q); [reflexivity|congruence|]|].
  by eapply (moved_update c c).
Qed.

Lemma moved_rekey c q pid w : moved c w (rekey c q pid w).2.
Proof. destruct (rekey_nodes c q pid w) as [k Hk]. by eapply (moved_update c c). Qed.

Lemma moved_same c w w' : wd_nodes w' = wd_nodes w → moved c w w'.
Proof. intros Hn. unfold moved. rewrite Hn. split; [by intros y nd _ ?; exists nd|done]. Qed.

(** A directory lists no node twice. *)
Lemma NoDup_children p (w : World) :
  tok w → NoDup (map_to_list (children_of p (wd_nodes w))).*2.
Proof.
  intros [Hc _]. unfold children_of. change (wd_nodes w) with (v_nodes (wd_vfs w)).
  destruct (v_nodes (wd_vfs w) !! p) as [pn|] eqn:Hp; simpl; [|by rewrite map_to_list_empty; constructor].
  destruct (n_Children pn) as [ch|] eqn:Hch; simpl; [|by rewrite map_to_list_empty; constructor].
  apply NoDup_fmap_2_strong; [|apply NoDup_map_to_list].
  intros [n1 x1] [n2 x2] H1%elem_of_map_to_list H2%elem_of_map_to_list. simpl. intros ->.
  destruct (Hc p pn ch n1 x2 Hp Hch H1) as (cn & Hcn & <- & _).
  destruct (Hc p pn ch n2 x2 Hp Hch H2) as (cn' & Hcn' & <- & _). congruence.
Qed.

(** The path of the moved node, and what moving does not touch. *)
Lemma move_node_at p c old q new path cn w :
  wd_nodes w !! c = Some cn → n_RemotePath (node_at c (move_node p c old q new path w)) = path.
Proof.
  intros Hc. unfold move_node. set (w1 := remove_child p old w). set (w2 := on_vfs (untrackNode c) w1).
  set (g := λ nd : Node, nd <| n_Name := new |> <| n_RemotePath := path |> <| n_Parent := Some q |>).
  set (w3 := on_node c g w2).
  assert (∃ nd, wd_nodes w3 !! c = Some nd ∧ n_RemotePath nd = path) as (nd & Hnd & Hp).
  { assert (wd_nodes w2 = wd_nodes w1) as H2 by apply untrack_nodes.
    assert (∃ cn1, wd_nodes w1 !! c = Some cn1) as [cn1 Hc1].
    { change (wd_nodes w1) with (update_node p (λ nd, nd <| n_Children := delete old <$> n_Children nd |>) (wd_nodes w)).
      unfold update_node. destruct (decide (c = p)) as [->|Hne].
      - rewrite lookup_alter_eq, Hc. by eexists.
      - rewrite lookup_alter_ne by done. by exists cn. }
    exists (g cn1). split; [|done]. unfold w3. by rewrite node_update_lookup, H2, Hc1. }
  clearbody w3. unfold add_child, on_vfs, AddChild. fold (wd_nodes w3). rewrite Hnd.
  destruct (wd_nodes w3 !! q) as [qn|]; [|by rewrite (node_at_eq c nd)]. cbv zeta.
  unfold node_at, wd_nodes. simpl. unfold update_node. rewrite (lookup_alter_eq _ _ c).
  destruct (decide (c = q)) as [->|Hne].
  - rewrite lookup_alter_eq. fold (wd_nodes w3). rewrite Hnd. done.
  - rewrite lookup_alter_ne by done. fold (wd_nodes w3). rewrite Hnd. done.
Qed.

Lemma move_node_frame p c old q new path w :
  wd_db (move_node p c old q new path w) = wd_db w ∧
  ∀ id k, NodeByID id (wd_vfs (move_node p c old q new path w)) = Some k → NodeByID id (wd_vfs w) = Some k.
Proof.
  unfold move_node. set (w1 := remove_child p old w). set (w2 := on_vfs (untrackNode c) w1).
  assert (∀ w', wd_db (add_child q c w') = wd_db w' ∧
                v_nodesByID (wd_vfs (add_child q c w')) = v_nodesByID (wd_vfs w')) as Hadd.
  { intros w'. unfold add_child, on_vfs, wd_db. simpl. by destruct (AddChild _ _ _). }
  match goal with |- context [on_node c ?g w2] => destruct (Hadd (on_node c g w2)) as [-> Hi];
    set (g0 := g) in * end.
  assert (wd_db w2 = wd_db w) as Hdb.
  { unfold w2, wd_db, on_vfs, untrackNode. simpl. destruct (_ !! c); [by case_decide|done]. }
  split; [exact Hdb|]. intros id k. unfold NodeByID. rewrite Hi.
  apply (untrack_sub c g0 w1 id k).
Qed.

(** The directory moved and its own row replaced, the file's is still there. *)
Lemma move_rekey_spec id P e p c old q new path oldPath pid cn w :
  tok w → has_row id P e w → GetChild p old (wd_nodes w) = Some c → wd_nodes w !! c = Some cn →
  c ≠ p → c ≠ q → path ≠ P →
  let w' := (rekey c oldPath pid (move_node p c old q new path w)).2 in
  tok w' ∧ has_row id P e w' ∧ moved c w w' ∧
  (∀ k, NodeByID id (wd_vfs w') = Some k → NodeByID id (wd_vfs w) = Some k).
Proof.
  intros Hok Hh Hg Hc Hcp Hcq Hne w'. destruct (tok_move p c old q new path w Hg Hok) as [Hok2 Hun2].
  destruct (move_node_frame p c old q new path w) as [Hd2 Hi2].
  pose proof (move_node_at p c old q new path cn w Hc) as Hp2.
  pose proof (has_row_db id P e w _ Hd2 Hh) as Hh2. split_and!.
  - by apply rekey_tok.
  - by apply has_row_rekey.
  - apply (moved_trans c w (move_node p c old q new path w)); [by apply moved_move_node|].
    exact (moved_rekey c oldPath pid _).
  - intros k Hk. apply Hi2. eapply has_row_rekey_index; [|exact Hh2|exact Hk]. by rewrite Hp2.
Qed.

Lemma no_row_GetInode id e w : no_row id e w → GetInode id (wd_db w) = Err (ErrSentinel SqlErrNoRows).
Proof.
  intros [Hc _ _ Hr _]. rewrite GetInode_row by done.
  assert (row_of id (wd_db w) = None) as ->; [|done].
  apply sql_first_None, Forall_forall. intros r0 Hr0. by apply Hr.
Qed.

(** The subtree of a directory of files. *)
Lemma strands_subtree m fuel c old new id P e f fnode w :
  (∀ l, m_range m l ≡ₚ l) → let xs := (map_to_list (children_of c (wd_nodes w))).*2 in
  tok w → has_row id P e w → files xs w → f ∈ xs → wd_nodes w !! f = Some fnode →
  n_RemotePath fnode = P → n_ID fnode = id → id ≠ 0 →
  (∀ l, NodeByID id (wd_vfs w) = Some l → l = f) →
  (∀ x nd, x ∈ xs → wd_nodes w !! x = Some nd → new ^^ trim_prefix old (n_RemotePath nd) ≠ P) →
  no_row id e (rewriteSubtree m (S fuel) c old new w).
Proof.
  intros Hrange xs Hok Hh Hfiles Hf Hfn HP Hid Hz Hix Hnew.
  assert (∀ y, y ∈ (range_children m c w).*2 ↔ y ∈ xs) as Hxs
    by (intros y; unfold range_children; by rewrite Hrange).
  assert (files (range_children m c w).*2 w) as Hfiles' by (intros y Hy%Hxs; by apply Hfiles).
  rewrite rewrite_files by done. apply (strands_fold c old new id P e f fnode); try done.
  - by apply Hxs.
  - unfold range_children. rewrite Hrange. by apply NoDup_children.
  - intros x nd Hx%Hxs Hnd. by apply (Hnew x).
Qed.

(** ** The theorem *)

Section rename.
Context `{U : Unicode, BL : Blake2b, A : AEAD, X : X25519, K : MLKEM, HK : Hkdf, SH : Sha256, CS : ChunkSize}.
Variable m : Mount.
(** Go ranges over the entries of a map in some order. *)
Hypothesis Hrange : ∀ l, m_range m l ≡ₚ l.

(** C34: Renaming a directory strands the pending uploads of its files.  Take a
    listed file of the directory (its other listed children being files too),
    with its row and a queue entry that names the row's identifier, and let the
    server accept the rename.  Afterwards the entry is still queued under the
    old identifier, but no row has that identifier any more and no node is
    tracked under it: the upload it stands for finds neither. *)
Theorem Rename_strands_uploads p oldName q newName c f fnode r e w :
  let newPath := joinPath (n_RemotePath (node_at q w)) newName in
  let oldPath := n_RemotePath (node_at c w) in
  (∀ options, ∃ resp w1, m_Execute m "mv" options w = (Ok resp, w1) ∧ Success resp = true ∧
     wd_vfs w1 = wd_vfs w) →
  v_readOnly (wd_vfs w) = false → tok w → db_wf (wd_db w) → closed (wd_db w) = false →
  GetChild p oldName (wd_nodes w) = Some c → n_IsDir (node_at c w) = true → c ≠ q →
  IsSafeName (m_windows m) newName = true → (ValidateDirName newName).1 = true →
  files ((map_to_list (children_of c (wd_nodes w))).*2) w →
  f ∈ (map_to_list (children_of c (wd_nodes w))).*2 → wd_nodes w !! f = Some fnode →
  NodeByID (n_ID fnode) (wd_vfs w) = Some f →
  r ∈ inodes (wd_db w) → c_id r = n_ID fnode → c_remote_path r = n_RemotePath fnode →
  e ∈ writeback_queue (wd_db w) → w_InodeID e = n_ID fnode →
  newPath ≠ n_RemotePath fnode →
  (∀ x nd, x ∈ (map_to_list (children_of c (wd_nodes w))).*2 → wd_nodes w !! x = Some nd →
     newPath ^^ trim_prefix oldPath (n_RemotePath nd) ≠ n_RemotePath fnode) →
  let '(res, w') := Rename m p oldName q newName w in
  res = Ok tt ∧ e ∈ writeback_queue (wd_db w') ∧
  GetInode (w_InodeID e) (wd_db w') = Err (ErrSentinel SqlErrNoRows) ∧
  NodeByID (w_InodeID e) (wd_vfs w') = None.
Proof using Hrange.
  intros newPath oldPath Hex Hro Hok Hwf Hcl Hg Hdir Hcq Hsafe Hval Hfiles Hf Hfn Hix Hr Hrid Hrp He Heid Hnp Hnew.
  set (P := n_RemotePath fnode) in *. set (id := n_ID fnode) in *.
  set (xs := (map_to_list (children_of c (wd_nodes w))).*2) in *.
  unfold Rename, read_only. rewrite Hro, Hg, Hsafe, Hdir, Hval, andb_false_r. cbv zeta. cbn [negb].
  unfold request. match goal with |- context [m_Execute m "mv" ?o w] =>
    destruct (Hex o) as (resp & w1 & -> & -> & Hv) end.
  assert (wd_nodes w1 = wd_nodes w ∧ wd_db w1 = wd_db w) as [Hn1 Hd1] by (unfold wd_nodes, wd_db; by rewrite Hv).
  assert (n_RemotePath (node_at c w1) = oldPath) as -> by (unfold node_at; by rewrite Hn1).
  assert (has_row id P e w1) as Hh1.
  { split; rewrite ?Hd1; [done|done| |].
    - pose proof (wf_id_seq _ Hwf) as Hs. rewrite Forall_forall in Hs. rewrite <- Hrid. by apply Hs.
    - intros r0 Hin0 Hid0. rewrite <- Hrp. f_equal.
      apply (keyed_eq c_id (inodes (wd_db w))); [apply Hwf|done|done|congruence]. }
  destruct (wd_nodes w !! c) as [cn|] eqn:Hc; [|unfold node_at in Hdir; by rewrite Hc in Hdir].
  assert (c ∉ xs) as Hcxs.
  { intros Hin. destruct (Hfiles c Hin) as (nd & Hnd & Hd). rewrite (node_at_eq c nd) in Hdir by done. congruence. }
  assert (c ≠ p) as Hcp.
  { intros ->. apply Hcxs, list_elem_of_fmap. exists (oldName, p). split; [done|]. by apply elem_of_map_to_list. }
  rewrite <- Hn1 in Hg, Hc. fold newPath. set (pid := n_ID (node_at q _)).
  assert (tok w1) as Hok1 by (unfold tok; by rewrite Hv).
  destruct (move_rekey_spec id P e p c oldName q newName newPath oldPath pid cn w1 Hok1 Hh1 Hg Hc Hcp Hcq Hnp)
    as (Hok3 & Hh3 & [Hm3 Hch3] & Hi3).
  destruct (rekey c oldPath pid _) as [k w3]. cbn [snd] in *. rewrite Hn1 in Hch3.
  assert (∀ y nd, y ∈ xs → wd_nodes w !! y = Some nd →
    ∃ nd', wd_nodes w3 !! y = Some nd' ∧ same_file nd nd') as Hkeep.
  { intros y nd Hy Hnd. apply (Hm3 y nd); [by intros ->|by rewrite Hn1]. }
  destruct (Hkeep f fnode Hf Hfn) as (fn3 & Hfn3 & _ & HP3 & Hid3).
  assert (no_row id e (rewriteSubtree m (S (size (wd_nodes w3))) c oldPath newPath w3)) as Hno.
  { apply (strands_subtree m _ c oldPath newPath id P e f fn3); rewrite ?Hch3; try done.
    - intros y Hy. destruct (Hfiles y Hy) as (nd & Hnd & Hd).
      destruct (Hkeep y nd Hy Hnd) as (nd' & Hnd' & Hd' & _). exists nd'. split; [done|congruence].
    - by destruct (tk_index _ Hok id f Hix).
    - intros l Hl%Hi3. rewrite Hv in Hl. congruence.
    - intros x nd Hx Hnd. destruct (Hfiles x Hx) as (nd0 & Hnd0 & _).
      destruct (Hkeep x nd0 Hx Hnd0) as (nd1 & Hnd1 & _ & Hpa & _).
      assert (nd = nd1) as -> by congruence. rewrite Hpa. by apply (Hnew x). }
  rewrite Heid. pose proof (no_row_GetInode _ _ _ Hno). by destruct Hno.
Qed.
End rename.

(** ** Witness *)

#[local] Existing Instance ex_chunk_size | 0.
#[local] Existing Instance ex_unicode.

(** The directory [d] with the file [d/f], edited and queued. *)
Definition ren_file : Node :=
  (NewFileNode "f" "d/f" 3 0 (Some 2%positive)) <| n_ID := 2 |> <| n_Dirty := true |>
    <| n_SyncStatus := StatusPending |>.
Definition ren_dir : Node :=
  (NewDirNode "d" "d" (Some 1%positive) 0) <| n_ID := 1 |> <| n_Loaded := true |>
    <| n_Children := Some {[ "f" := 3%positive ]} |>.
Definition ren_root : Node :=
  (NewRootNode "" 0) <| n_Loaded := true |> <| n_Children := Some {[ "d" := 2%positive ]} |>.
Definition ren_row : inode_row := excluded_row 2 (nodeToInode ren_file 1).
Definition ren_entry : WritebackEntry := mkWritebackEntry 1 2 "upload" "d/f" "{key" 50 0 "" "pending".
Definition ren_db : DB :=
  mkDB [excluded_row 1 (nodeToInode ren_dir 0); ren_row] 2 [ren_entry] 1 [] false false.
Definition ren_world : World :=
  mkWorld (mkVFS "" ren_db ex_store0 false
             {[ 1%positive := ren_root; 2%positive := ren_dir; 3%positive := ren_file ]}
             {[ 1 := 2%positive; 2 := 3%positive ]} true None 0 ∅) ∅ (100 * second) [] no_suppression.

Lemma ren_nodes l nd :
  wd_nodes ren_world !! l = Some nd →
  (l = 1%positive ∧ nd = ren_root) ∨ (l = 2%positive ∧ nd = ren_dir) ∨ (l = 3%positive ∧ nd = ren_file).
Proof.
  change (wd_nodes ren_world) with
    ({[ 1%positive := ren_root; 2%positive := ren_dir; 3%positive := ren_file ]} : heap).
  intros [[<- <-]|[_ [[<- <-]|[_ [<- <-]%lookup_singleton_Some]]%lookup_insert_Some]]%lookup_insert_Some; auto.
Qed.

Lemma ren_ok : tok ren_world.
Proof.
  split.
  - intros p pn ch name c [[-> ->]|[[-> ->]|[-> ->]]]%ren_nodes Hch Hnm; simpl in Hch; simplify_eq;
      apply lookup_singleton_Some in Hnm as [<- <-]; eexists; by split_and!.
  - intros id l. change (v_nodesByID (wd_vfs ren_world)) with ({[ 1 := 2%positive; 2 := 3%positive ]} : gmap Z loc).
    intros [[<- <-]|[_ [<- <-]%lookup_singleton_Some]]%lookup_insert_Some; (split; [done|]);
      eexists; by split_and!.
Qed.

Lemma ren_wf : db_wf ren_db.
Proof. split; try (by apply (bool_decide_unpack _); vm_compute). Qed.

Lemma ren_children : (map_to_list (children_of 2 (wd_nodes ren_world))).*2 = [3%positive].
Proof. vm_compute. reflexivity. Qed.

Lemma Rename_strands_uploads_witness :
  let w' := (Rename ex_one 1 "d" 1 "e" ren_world).2 in
  ren_entry ∈ writeback_queue (wd_db w') ∧ GetInode 2 (wd_db w') = Err (ErrSentinel SqlErrNoRows) ∧
  NodeByID 2 (wd_vfs w') = None.
Proof.
  pose proof (Rename_strands_uploads ex_one ltac:(done) 1 "d" 1 "e" 2 3 ren_file ren_row ren_entry ren_world) as H.
  cbv zeta in H. rewrite ren_children in H.
  destruct (Rename ex_one 1 "d" 1 "e" ren_world) as [res w'] eqn:E. cbv zeta. cbn [snd].
  apply H; clear H; try (vm_compute; reflexivity).
  - intros options. eexists _, _. split; [reflexivity|]. by split.
  - exact ren_ok.
  - exact ren_wf.
  - done.
  - intros x ->%list_elem_of_singleton. exists ren_file. by split.
  - by apply list_elem_of_singleton.
  - right. by left.
  - by left.
  - vm_compute. discriminate.
  - intros x nd ->%list_elem_of_singleton Hx. vm_compute in Hx. injection Hx as <-. vm_compute. discriminate.
Defined.
