(* ===== verification/Reconciler.v ===== *)
(** * The reconciler

    [internal/mount/syncer/reconciler.go]: the periodic walk over the sync folder
    that queues what the watcher missed.  The walk's listing ([filepath.WalkDir]:
    pre-order, with the error or the info of each entry) is an argument. *)
From S2P Require Import Prelude GoLib Table ApiErrors Crypto Names CacheDB CacheStore CacheEvict.
From S2P Require Import FileTypes LocalFs VfsNode VfsContent Writeback.
Local Open Scope Z_scope.

Definition reconcileInterval : Z := 3 * minute.

(** [os.DirEntry]: [Info] is the size and modification time. *)
Record DirEntry : Type := mkDirEntry {
  de_Name : string; de_IsDir : bool; de_Info : result error (Z * Z) }.

Record Reconciler : Type := mkReconciler {
  r_syncDir : string; r_remotePath : string; r_hasStore : bool; r_interval : Z;
  r_newKey : World → string;
  r_marshal : string → string; r_unmarshal : string → option string }.

Definition NewReconciler (syncDir remotePath : string) (interval : Z)
    (newKey : World → string) (mk : string → string) (un : string → option string) : Reconciler :=
  mkReconciler syncDir remotePath false
    (if decide (interval ≤ 0) then reconcileInterval else interval) newKey mk un.

Definition file_inode (path name : string) (isDir : bool) (size mtime : Z) (dirty : bool)
    (status : SyncStatus) (reason : string) : Inode :=
  mkInode 0 path name isDir size mtime false dirty false 0 "" "" 0 "" "" "" 0 status reason.

Section reconciler.
Context `{SH : Sha256, U : Unicode}.
Variable r : Reconciler.

Definition r_enqueue (id : Z) (act path : string) (w : World) : World :=
  call_db (EnqueueWriteback (r_marshal r) (r_unmarshal r) id act path "" (r_newKey r w)
             (Unix (wd_now w))) w.

Definition uploadInFlight (inodeID : Z) (w : World) : bool :=
  match HasActiveWriteback inodeID "upload" (wd_db w) with
  | Ok active => active
  | Err _ => true
  end.

Definition queueNewFile (remotePath name : string) (info : Z * Z) (w : World) : bool * World :=
  let '(ok, reason) := ValidateFile name info.1 in
  let status := if ok then StatusPending else StatusRejected in
  match run_db (UpsertInode (file_inode remotePath name false info.1 (Unix info.2) true status reason)) w with
  | (Err _, w) => (false, w)
  | (Ok id, w) => if ok then (true, r_enqueue id "upload" remotePath w) else (false, w)
  end.

Definition release_blob (hash : string) (id : Z) (w : World) : World :=
  let store := if r_hasStore r then Some (v_Store (wd_vfs w)) else None in
  match ReleaseBlob (Some (wd_db w)) store hash id with
  | Some s => w <| wd_vfs := (wd_vfs w) <| v_Store := s |> |>
  | None => w
  end.

Definition requeued_inode (inode : Inode) (info : Z * Z) : Inode :=
  inode <| i_Size := info.1 |> <| i_Mtime := Unix info.2 |> <| i_Cached := false |>
    <| i_ContentHash := "" |> <| i_Dirty := true |> <| i_SyncStatus := StatusPending |>
    <| i_StatusReason := "" |>.

Definition requeueUpload (inode : Inode) (info : Z * Z) (w : World) : bool * World :=
  match ValidateFile (i_DisplayName inode) info.1 with
  | (false, reason) => (false, call_db (SetSyncStatus (i_ID inode) StatusRejected reason) w)
  | (true, _) =>
      if uploadInFlight (i_ID inode) w then (false, w) else
      let w := call_db (DeleteFailedUploadWritebacks (i_ID inode)) w in
      let supersededHash := i_ContentHash inode in
      match run_db (UpsertInode (requeued_inode inode info)) w with
      | (Err _, w) => (false, w)
      | (Ok id, w) =>
          let w := call_db (SetLocalContent id "" 0) w in
          let w := release_blob supersededHash id w in
          (true, r_enqueue id "upload" (i_RemotePath inode) w)
      end
  end.

(** [GetSyncFailure] with its error dropped. *)
Definition sync_failure (id : Z) (kind : string) (w : World) : option SyncFailure :=
  match GetSyncFailure id kind (wd_db w) with Ok f => f | Err _ => None end.

Definition no_baseline : string := "local file has no synchronized content baseline".
Definition both_differ : string :=
  "local and remote content both differ from the synchronized baseline".

Definition heal_failed (inode : Inode) (info : Z * Z) (w : World) : bool * World :=
  let waiting := match sync_failure (i_ID inode) FailureUpload w with
                 | Some f => f_Permanent f || bool_decide (Unix (wd_now w) < f_NextRetryAt f)
                 | None => false
                 end in
  if waiting then (false, w)
  else if negb (i_Dirty inode) && isSome (sync_failure (i_ID inode) FailureDownload w)
  then (false, w)
  else requeueUpload inode info w.

Definition heal_synced (inode : Inode) (localPath : string) (info : Z * Z) (w : World)
    : bool * World :=
  match LocalContentState (i_ID inode) (wd_db w) with
  | Err _ => (false, w)
  | Ok (current, baseline, version) =>
      if decide (baseline = "") then (false, call_db (MarkLocalConflict (i_ID inode) no_baseline) w) else
      let remoteUnchanged := bool_decide (current ≠ "" ∧ i_Etag inode ≠ "" ∧ version = i_Etag inode) in
      match hashLocalFile (wd_fs w) localPath with
      | Err _ => (false, w)
      | Ok sum =>
          if decide (sum = baseline) then
            (false, if decide (current ≠ "")
                    then call_db (SetLocalContentForVersion (i_ID inode) current (Unix info.2) version) w
                    else w)
          else if remoteUnchanged then requeueUpload inode info w
          else (false, call_db (MarkLocalConflict (i_ID inode) both_differ) w)
      end
  end.

Definition healEntry (localPath remotePath : string) (entry : DirEntry) (w : World)
    : bool * World :=
  if negb (safeSyncPath (wd_fs w) (r_syncDir r) localPath) then (false, w) else
  let inode := match GetInodeByPath remotePath (wd_db w) with Ok i => Some i | Err _ => None end in
  if de_IsDir entry then
    match inode with
    | Some _ => (false, w)
    | None =>
        match run_db (UpsertInode (file_inode remotePath (de_Name entry) true 0 (Unix (wd_now w))
                                     false StatusPending "")) w with
        | (Err _, w) => (false, w)
        | (Ok id, w) => (true, r_enqueue id "mkdir" remotePath w)
        end
    end
  else
    match de_Info entry with
    | Err _ => (false, w)
    | Ok info =>
        match inode with
        | None => queueNewFile remotePath (de_Name entry) info w
        | Some inode =>
            match i_SyncStatus inode with
            | StatusRejected | StatusConflict => (false, w)
            | StatusFailed => heal_failed inode info w
            | StatusSynced => heal_synced inode localPath info w
            | StatusPending =>
                if uploadInFlight (i_ID inode) w then (false, w)
                else (false, r_enqueue (i_ID inode) "upload" remotePath w)
            | StatusOffline => (false, w)
            end
        end
    end.

Definition toRemote (localPath : string) : string :=
  match filepath_Rel (r_syncDir r) localPath with
  | None => ""
  | Some rel =>
      if decide (rel = ".") then r_remotePath r
      else if decide (r_remotePath r = "" ∨ r_remotePath r = "/") then rel
      else r_remotePath r ^^ "/" ^^ rel
  end.

(** One call of the walk function; the boolean is [filepath.SkipDir]. *)
Definition visit (path : string) (entry : DirEntry) (w : World) : bool * bool * World :=
  if negb (safeSyncPath (wd_fs w) (r_syncDir r) path) then (de_IsDir entry, false, w)
  else if shouldIgnore (de_Name entry) || bool_decide (de_Name entry = ".pigcloud")
  then (de_IsDir entry, false, w)
  else
    let remotePath := toRemote path in
    if decide (remotePath = "" ∨ remotePath = r_remotePath r) then (false, false, w)
    else let '(h, w) := healEntry path remotePath entry w in (false, h, w).

(** The walk over a pre-order listing, with the number of healed entries; an
    unreadable entry is passed over, a skipped directory's entries are not
    visited, and the walk ends with the context. *)
Fixpoint Reconcile (ctx_err : World → bool) (skip : option string)
    (listing : list (string * result error DirEntry)) (healed : Z) (w : World) : Z * World :=
  match listing with
  | [] => (healed, w)
  | (path, entry) :: rest =>
      let under := match skip with Some d => has_prefix (d ^^ "/") path | None => false end in
      if under then Reconcile ctx_err skip rest healed w else
      match entry with
      | Err _ => Reconcile ctx_err skip rest healed w
      | Ok entry =>
          if ctx_err w then (healed, w) else
          let '(skipdir, h, w) := visit path entry w in
          Reconcile ctx_err (if skipdir then Some path else skip) rest
            (if h then healed + 1 else healed) w
      end
  end.
End reconciler.

(** ** Upserting a row that exists *)

Lemma UpsertInode_existing i d row :
  db_wf d → closed d = false → row_of (c_id row) d = Some row → i_RemotePath i = c_remote_path row →
  ∃ d', UpsertInode i d = (Ok (c_id row), d') ∧ db_wf d' ∧
    row_of (c_id row) d' = Some (upsert_merge (excluded_row (c_id row) i) row) ∧
    writeback_queue d' = writeback_queue d ∧ closed d' = false ∧
    writebackDisabled d' = writebackDisabled d.
Proof.
  intros Hwf Hc Hr Hp. apply row_of_elem in Hr as [Hin _]; [|done].
  pose proof (wf_UpsertInode d Hwf i) as Hwf'. unfold UpsertInode in *. rewrite Hc in *.
  assert (sql_first (λ r, c_remote_path r = i_RemotePath i) (inodes d) = Some row) as Hf.
  { rewrite Hp. apply sql_first_key; [apply Hwf|]. done. }
  rewrite Hf in *. eexists. split; [done|]. split; [exact Hwf'|]. split_and!; try done.
  apply row_of_elem; [exact Hwf'|]. split; [|done].
  apply elem_of_sql_update_eq; [by symmetry|done].
Qed.

Lemma GetInodeByPath_row d row :
  db_wf d → closed d = false → row_of (c_id row) d = Some row →
  GetInodeByPath (c_remote_path row) d = Ok (scanInodeRow row).
Proof.
  intros Hwf Hc Hr. apply row_of_elem in Hr as [Hin _]; [|done].
  apply GetInodeByPath_Ok; [done..|]. by exists row.
Qed.

Section reconciler.
Context `{SH : Sha256, U : Unicode} (r : Reconciler).

(** The uploads of an inode in a queue: those under way and those that failed. *)
Definition upload_of (id : Z) (e : WritebackEntry) : Prop := w_InodeID e = id ∧ w_Action e = "upload".
Definition active_upload (id : Z) (w : World) : Prop :=
  ∃ e, e ∈ writeback_queue (wd_db w) ∧ upload_of id e ∧ active_status (w_Status e).

Lemma uploadInFlight_spec id w :
  closed (wd_db w) = false → uploadInFlight id w = true ↔ active_upload id w.
Proof using Type.
  intros Hc. unfold uploadInFlight, HasActiveWriteback. rewrite query_open by done.
  rewrite bool_decide_eq_true. split.
  - intros Hn. destruct (sql_select (λ e, w_InodeID e = id ∧ w_Action e = "upload" ∧
      active_status (w_Status e)) (writeback_queue (wd_db w))) as [|e l] eqn:E.
    + unfold sql_count in Hn. unfold sql_select in E. rewrite E in Hn. simpl in Hn. lia.
    + assert (e ∈ e :: l) as He by left. rewrite <- E in He.
      apply elem_of_sql_select in He as [(? & ? & ?) ?]. by exists e.
  - intros (e & Hin & [? ?] & ?). apply Nat.neq_0_lt_0. intros Hz.
    apply sql_count_zero in Hz. rewrite Forall_forall in Hz. by apply (Hz e Hin).
Qed.

(** [r_enqueue] of an upload on an open database, no upload being active. *)
Lemma r_enqueue_upload id path w :
  db_open w → ¬ active_upload id w →
  ∃ e, upload_of id e ∧ w_RemotePath e = path ∧ w_Status e = "pending" ∧
    let w' := r_enqueue r id "upload" path w in
    writeback_queue (wd_db w') = writeback_queue (wd_db w) ++ [e] ∧
    (∀ i, row_of i (wd_db w') = row_of i (wd_db w)) ∧ db_open w' ∧ wd_nodes w' = wd_nodes w.
Proof using Type.
  intros [Hc Hw] Hna. unfold r_enqueue, db_open. rewrite call_db_eq. unfold EnqueueWriteback.
  rewrite Hw, Hc. cbn [snd]. cbv zeta.
  match goal with |- context [_ ++ [?x]] => exists x end.
  split; [done|]. split; [done|]. split; [done|].
  change (decide ("upload" ≠ "rename")) with (decide ("upload" ≠ "rename")).
  rewrite (decide_True (P := "upload" ≠ "rename")) by done.
  assert (sql_delete (λ e, w_InodeID e = id ∧ w_Action e = "upload" ∧ w_Status e = "pending")
    (writeback_queue (wd_db w)) = writeback_queue (wd_db w)) as ->.
  { apply sql_delete_id. apply Forall_forall. intros e Hin (? & ? & Hs).
    apply Hna. exists e. split; [done|]. split; [done|]. by left. }
  by split_and!.
Qed.

Lemma wd_db_release hash id w : wd_db (release_blob r hash id w) = wd_db w.
Proof using Type. unfold release_blob. by destruct (ReleaseBlob _ _ _ _). Qed.

Definition failed_upload (id : Z) (e : WritebackEntry) : Prop :=
  w_InodeID e = id ∧ w_Action e = "upload" ∧ w_Status e = "failed".
#[local] Instance failed_upload_dec id e : Decision (failed_upload id e).
Proof using Type. unfold failed_upload. apply _. Defined.

(** The queue and the inode row after an upload was queued again. *)
Definition requeued (row : inode_row) (info : Z * Z) (w w' : World) : Prop :=
  (∃ e, upload_of (c_id row) e ∧ w_RemotePath e = c_remote_path row ∧ w_Status e = "pending" ∧
     writeback_queue (wd_db w') =
       sql_delete (failed_upload (c_id row)) (writeback_queue (wd_db w)) ++ [e]) ∧
  ∃ row', row_of (c_id row) (wd_db w') = Some row' ∧ c_dirty row' = true ∧
     c_sync_status row' = StatusPending ∧ c_size row' = info.1 ∧ c_cached row' = false ∧
     c_local_hash row' = "" ∧ c_download_baseline_hash row' = "" ∧ c_etag row' = c_etag row.

Lemma requeueUpload_spec row info w :
  db_wf (wd_db w) → db_open w → row_of (c_id row) (wd_db w) = Some row →
  let '(ok, w') := requeueUpload r (scanInodeRow row) info w in
  match ValidateFile (c_display_name row) info.1 with
  | (false, reason) => ok = false ∧ writeback_queue (wd_db w') = writeback_queue (wd_db w) ∧
      row_of (c_id row) (wd_db w') =
        Some (row <| c_sync_status := StatusRejected |> <| c_status_reason := reason |>)
  | (true, _) =>
      (active_upload (c_id row) w → ok = false ∧ w' = w) ∧
      (¬ active_upload (c_id row) w → ok = true ∧ requeued row info w w')
  end.
Proof using Type.
  intros Hwf [Hc Hw] Hr. unfold requeueUpload. cbn [scanInodeRow i_DisplayName i_ID i_ContentHash i_RemotePath].
  destruct (ValidateFile (c_display_name row) info.1) as [[] reason].
  2: { split; [done|]. split; [by world_simpl|]. world_simpl. by rewrite Hr. }
  pose proof (uploadInFlight_spec (c_id row) w Hc) as Hfl.
  destruct (uploadInFlight (c_id row) w); [split; [done|]; by intros []; apply Hfl|].
  set (w1 := call_db (DeleteFailedUploadWritebacks (c_id row)) w).
  assert (db_wf (wd_db w1) ∧ db_open w1 ∧ row_of (c_id row) (wd_db w1) = Some row ∧
    writeback_queue (wd_db w1) = sql_delete (failed_upload (c_id row)) (writeback_queue (wd_db w)))
    as (Hwf1 & [Hc1 Hw1] & Hr1 & Hq1).
  { unfold w1, db_open, DeleteFailedUploadWritebacks, delete_queue. rewrite wd_db_call.
    split; [by apply (run_op_wf (OpDeleteFailedUploadWritebacks _))|].
    split; [split; by world_simpl|]. split; by world_simpl. }
  clearbody w1.
  destruct (UpsertInode_existing (requeued_inode (scanInodeRow row) info) (wd_db w1) row
    Hwf1 Hc1 Hr1 eq_refl) as (d' & Hu & Hwf2 & Hr2 & Hq2 & Hc2 & Hw2).
  unfold run_db at 1, with_db. fold (wd_db w1). rewrite Hu.
  split; [intros Ha; by apply Hfl in Ha|]. intros Hna. split; [done|].
  set (w2 := w1 <| wd_vfs := (wd_vfs w1) <| v_Cache := d' |> |>).
  change (wd_db w2) with d' in *.
  set (w3 := release_blob r (c_content_hash row) (c_id row)
               (call_db (SetLocalContent (c_id row) "" 0) w2)).
  assert (db_open w3 ∧ writeback_queue (wd_db w3) =
    sql_delete (failed_upload (c_id row)) (writeback_queue (wd_db w)) ∧
    ∃ row', row_of (c_id row) (wd_db w3) = Some row' ∧ c_dirty row' = true ∧
     c_sync_status row' = StatusPending ∧ c_size row' = info.1 ∧ c_cached row' = false ∧
     c_local_hash row' = "" ∧ c_download_baseline_hash row' = "" ∧ c_etag row' = c_etag row)
    as (Ho3 & Hq3 & row' & Hr3 & Hrow).
  { unfold w3, db_open. rewrite wd_db_release. unfold SetLocalContent.
    autorewrite with world. change (wd_db w2) with d'. rewrite Hc2, Hw2, Hq2, Hw1, Hr2.
    split; [done|]. split; [done|]. eexists. split; [reflexivity|]. split_and!; try done.
    - simpl. by rewrite orb_true_r.
    - simpl. unfold coalesce_text. by case_decide. }
  clearbody w3.
  assert (¬ active_upload (c_id row) w3) as Hna3.
  { intros (e & Hin & ? & ?). rewrite Hq3 in Hin. apply elem_of_sql_delete in Hin as [_ ?].
    apply Hna. by exists e. }
  destruct (r_enqueue_upload (c_id row) (c_remote_path row) w3 Ho3 Hna3)
    as (e & ? & ? & ? & Hq & Hrows & _). cbv zeta in *.
  split; [exists e; by rewrite Hq, Hq3|]. exists row'. by rewrite Hrows.
Qed.

Definition in_conflict (reason : string) (row : inode_row) : inode_row :=
  row <| c_dirty := true |> <| c_cached := false |> <| c_sync_status := StatusConflict |>
    <| c_status_reason := reason |>.
(** The remote version is the one the local content was last synchronised with. *)
Definition remote_unchanged (row : inode_row) : Prop :=
  c_local_hash row ≠ "" ∧ c_etag row ≠ "" ∧ c_local_remote_etag row = c_etag row.
Definition baseline_of (row : inode_row) : string :=
  coalesce_text (c_local_hash row) (c_download_baseline_hash row).

Lemma LocalContentState_row row w :
  closed (wd_db w) = false → row_of (c_id row) (wd_db w) = Some row →
  LocalContentState (c_id row) (wd_db w) =
    Ok (c_local_hash row, baseline_of row, c_local_remote_etag row).
Proof using Type.
  intros Hc Hr. unfold LocalContentState. rewrite query_open by done.
  unfold row_of in Hr. by rewrite Hr.
Qed.

Lemma healEntry_file row path entry info w :
  safeSyncPath (wd_fs w) (r_syncDir r) path = true → de_IsDir entry = false →
  de_Info entry = Ok info → db_wf (wd_db w) → closed (wd_db w) = false →
  row_of (c_id row) (wd_db w) = Some row →
  healEntry r path (c_remote_path row) entry w =
  match c_sync_status row with
  | StatusRejected | StatusConflict | StatusOffline => (false, w)
  | StatusFailed => heal_failed r (scanInodeRow row) info w
  | StatusSynced => heal_synced r (scanInodeRow row) path info w
  | StatusPending => if uploadInFlight (c_id row) w then (false, w)
                     else (false, r_enqueue r (c_id row) "upload" (c_remote_path row) w)
  end.
Proof using Type.
  intros Hs Hd Hi Hwf Hc Hr. unfold healEntry.
  rewrite Hs, Hd, Hi, GetInodeByPath_row by done.
  change (i_SyncStatus (scanInodeRow row)) with (c_sync_status row).
  by destruct (c_sync_status row).
Qed.

(** C19: A synchronised file is reconciled as a three-way merge.  With no recorded
    baseline it becomes a conflict.  When the local content is the baseline nothing
    is queued and the row keeps its flags.  When the local content changed, an
    upload is queued (unless one is under way) with the baseline forgotten if the
    remote version is still the synchronised one, subject to validation; otherwise
    both sides changed, the row becomes a dirty conflict, and nothing is queued. *)
Theorem healEntry_three_way row path entry info w sum :
  safeSyncPath (wd_fs w) (r_syncDir r) path = true → de_IsDir entry = false →
  de_Info entry = Ok info → db_wf (wd_db w) → db_open w →
  row_of (c_id row) (wd_db w) = Some row → c_sync_status row = StatusSynced →
  hashLocalFile (wd_fs w) path = Ok sum →
  let '(healed, w') := healEntry r path (c_remote_path row) entry w in
  let row' := row_of (c_id row) (wd_db w') in
  let same_queue := healed = false ∧ writeback_queue (wd_db w') = writeback_queue (wd_db w) in
  (baseline_of row = "" → same_queue ∧ row' = Some (in_conflict no_baseline row)) ∧
  (baseline_of row ≠ "" → sum = baseline_of row → same_queue ∧ ∃ r1, row' = Some r1 ∧
     c_dirty r1 = c_dirty row ∧ c_sync_status r1 = StatusSynced ∧ baseline_of r1 = baseline_of row) ∧
  (baseline_of row ≠ "" → sum ≠ baseline_of row → ¬ remote_unchanged row →
     same_queue ∧ row' = Some (in_conflict both_differ row)) ∧
  (baseline_of row ≠ "" → sum ≠ baseline_of row → remote_unchanged row →
     match ValidateFile (c_display_name row) info.1 with
     | (false, reason) => same_queue ∧
         row' = Some (row <| c_sync_status := StatusRejected |> <| c_status_reason := reason |>)
     | (true, _) => (active_upload (c_id row) w → healed = false ∧ w' = w) ∧
                    (¬ active_upload (c_id row) w → healed = true ∧ requeued row info w w')
     end).
Proof using Type.
  intros Hs Hd Hi Hwf Ho Hr Hst Hsum. pose proof Ho as [Hc Hw].
  rewrite (healEntry_file row path entry info) by done. rewrite Hst. unfold heal_synced.
  change (i_ID (scanInodeRow row)) with (c_id row).
  change (i_Etag (scanInodeRow row)) with (c_etag row).
  rewrite LocalContentState_row, Hsum by done.
  pose proof (requeueUpload_spec row info w Hwf Ho Hr) as Hrq.
  assert (∀ reason, let w' := call_db (MarkLocalConflict (c_id row) reason) w in
    writeback_queue (wd_db w') = writeback_queue (wd_db w) ∧
    row_of (c_id row) (wd_db w') = Some (in_conflict reason row)) as Hconf.
  { intros reason. unfold MarkLocalConflict. cbv zeta. split; [by autorewrite with world|].
    autorewrite with world. by rewrite Hr. }
  destruct (decide (baseline_of row = "")) as [Hb|Hb].
  { destruct (Hconf no_baseline). by split_and!. }
  destruct (decide (sum = baseline_of row)) as [Hsm|Hsm].
  { split_and!; [done| |done|done]. intros _ _. destruct (decide (c_local_hash row ≠ "")) as [Hl|Hl].
    - unfold SetLocalContentForVersion. autorewrite with world. rewrite Hr. split; [done|].
      eexists. split; [reflexivity|]. split_and!; [done..|].
      unfold baseline_of, coalesce_text in *. simpl. by rewrite !(decide_False (P := c_local_hash row = "")).
    - split; [done|]. by exists row. }
  destruct (bool_decide (c_local_hash row ≠ "" ∧ c_etag row ≠ "" ∧
    c_local_remote_etag row = c_etag row)) eqn:Hrem.
  - apply bool_decide_eq_true in Hrem. destruct (requeueUpload r (scanInodeRow row) info w) as [ok w'].
    split_and!; try done. intros _ _ _.
    destruct (ValidateFile (c_display_name row) info.1) as [[] reason]; [exact Hrq|].
    destruct Hrq as (? & ? & ?). by split_and!.
  - apply bool_decide_eq_false in Hrem. destruct (Hconf both_differ).
    split_and!; [done|done| |done]. intros _ _ _. by split_and!.
Qed.

(** What one look at a known file may do to the queue. *)
Definition queue_outcome (row : inode_row) (w : World) (res : bool * World) : Prop :=
  let '(healed, w') := res in
  (active_upload (c_id row) w → writeback_queue (wd_db w') = writeback_queue (wd_db w)) ∧
  (healed = true → active_upload (c_id row) w') ∧
  ((healed = false ∧ writeback_queue (wd_db w') = writeback_queue (wd_db w)) ∨
   ∃ e, upload_of (c_id row) e ∧ w_RemotePath e = c_remote_path row ∧ w_Status e = "pending" ∧
     ∀ e0, e0 ∈ writeback_queue (wd_db w') ↔ e0 = e ∨
       (e0 ∈ writeback_queue (wd_db w) ∧ ¬ (healed = true ∧ failed_upload (c_id row) e0))).

Lemma outcome_same row w w' :
  writeback_queue (wd_db w') = writeback_queue (wd_db w) → queue_outcome row w (false, w').
Proof using Type. intros Hq. unfold queue_outcome. naive_solver. Qed.

Lemma outcome_requeue row info w :
  db_wf (wd_db w) → db_open w → row_of (c_id row) (wd_db w) = Some row →
  queue_outcome row w (requeueUpload r (scanInodeRow row) info w).
Proof using Type.
  intros Hwf Ho Hr. pose proof (requeueUpload_spec row info w Hwf Ho Hr) as H.
  pose proof (uploadInFlight_spec (c_id row) w (proj1 Ho)) as Hfl.
  destruct (requeueUpload r (scanInodeRow row) info w) as [ok w'].
  destruct (ValidateFile (c_display_name row) info.1) as [[] reason].
  2: { destruct H as (-> & Hq & _). by apply outcome_same. }
  destruct H as [Hact Hnact]. destruct (uploadInFlight (c_id row) w).
  { destruct Hact as [-> ->]; [by apply Hfl|]. by apply outcome_same. }
  destruct Hnact as (-> & (e & He & Hp & Hs & Hq) & _); [by intros ?%Hfl|].
  assert (∀ e0, e0 ∈ writeback_queue (wd_db w') ↔ e0 = e ∨
    (e0 ∈ writeback_queue (wd_db w) ∧ ¬ failed_upload (c_id row) e0)) as Hel.
  { intros e0. rewrite Hq, elem_of_app, elem_of_sql_delete, list_elem_of_singleton. naive_solver. }
  split; [by intros ?%Hfl|]. split.
  - intros _. exists e. split; [by apply Hel; left|]. split; [done|]. by left.
  - right. exists e. split_and!; [done..|]. intros e0. rewrite Hel. naive_solver.
Qed.

(** Looking at a file the database knows never queues twice.  A file in
    conflict or rejected is left alone altogether; while an upload of the inode is
    pending or in progress the queue does not change; and a change of the queue is
    exactly one new pending upload of that inode and path, which then is under
    way, replacing only failed uploads of the same inode. *)
Theorem healEntry_queue row path entry info w :
  safeSyncPath (wd_fs w) (r_syncDir r) path = true → de_IsDir entry = false →
  de_Info entry = Ok info → db_wf (wd_db w) → db_open w →
  row_of (c_id row) (wd_db w) = Some row →
  (c_sync_status row = StatusConflict ∨ c_sync_status row = StatusRejected →
   healEntry r path (c_remote_path row) entry w = (false, w)) ∧
  queue_outcome row w (healEntry r path (c_remote_path row) entry w).
Proof using Type.
  intros Hs Hd Hi Hwf Ho Hr. pose proof Ho as [Hc Hw].
  rewrite (healEntry_file row path entry info) by done.
  split; [by intros [-> | ->]|].
  pose proof (outcome_requeue row info w Hwf Ho Hr) as Hrq.
  destruct (c_sync_status row); try by apply outcome_same.
  - unfold heal_synced. change (i_ID (scanInodeRow row)) with (c_id row).
    rewrite LocalContentState_row by done.
    destruct (decide (baseline_of row = "")).
    { apply outcome_same. unfold MarkLocalConflict. by autorewrite with world. }
    destruct (hashLocalFile (wd_fs w) path) as [sum|]; [|by apply outcome_same].
    destruct (decide (sum = baseline_of row)).
    { apply outcome_same. case_decide; [by world_simpl|done]. }
    destruct (bool_decide _); [exact Hrq|].
    apply outcome_same. unfold MarkLocalConflict. by autorewrite with world.
  - destruct (uploadInFlight (c_id row) w) eqn:E; [by apply outcome_same|].
    assert (¬ active_upload (c_id row) w) as Hna.
    { intros Ha. apply (uploadInFlight_spec _ _ Hc) in Ha. congruence. }
    destruct (r_enqueue_upload (c_id row) (c_remote_path row) w Ho Hna) as (e & ? & ? & ? & Hq & _).
    cbv zeta in Hq. split; [done|]. split; [done|]. right. exists e. split_and!; [done..|].
    intros e0. rewrite Hq, elem_of_app, list_elem_of_singleton. naive_solver.
  - unfold heal_failed. destruct (match sync_failure _ _ _ with Some _ => _ | None => _ end);
      [by apply outcome_same|]. destruct (_ && _); [by apply outcome_same|exact Hrq].
Qed.
End reconciler.

(** ** Witnesses *)

#[local] Existing Instance ex_chunk_size | 0.
#[local] Existing Instance ex_unicode.

Definition rec_row : inode_row :=
  (excluded_row 1 (ex_inode "docs/a.txt" false "e1")) <| c_sync_status := StatusSynced |> <| c_display_name := "a.txt" |>
    <| c_local_hash := sha256_hex [x40] |> <| c_local_remote_etag := "e1" |>.
Definition rec_world : World :=
  mkWorld (ex_vfs <| v_Cache := mkDB [rec_row] 1 [] 0 [] false false |>) ex_fs (100 * second) [] no_suppression.
Definition rec_rec : Reconciler := NewReconciler "/sync" "" 0 (λ _, "key") ex_mk ex_un.
Definition rec_entry : DirEntry := mkDirEntry "a.txt" false (Ok (1, 7)).

Lemma rec_wf : db_wf (wd_db rec_world).
Proof. split; try (by apply (bool_decide_unpack _); vm_compute). Qed.

Lemma healEntry_three_way_witness :
  (healEntry rec_rec "/sync/docs/a.txt" "docs/a.txt" rec_entry rec_world).1 = true ∧
  ∃ e, writeback_queue (wd_db (healEntry rec_rec "/sync/docs/a.txt" "docs/a.txt" rec_entry rec_world).2)
       = [e].
Proof.
  pose proof (healEntry_three_way rec_rec rec_row "/sync/docs/a.txt" rec_entry (1, 7) rec_world
    (sha256_hex [x41]) ltac:(vm_compute; reflexivity) eq_refl eq_refl rec_wf (conj eq_refl eq_refl)
    eq_refl eq_refl eq_refl) as H.
  change (c_remote_path rec_row) with "docs/a.txt" in H.
  destruct (healEntry _ _ _ _ _) as [healed w'] eqn:E. destruct H as (_ & _ & _ & H).
  destruct (ValidateFile _ _) as [[] reason] eqn:V.
  - destruct H as [_ H].
    + vm_compute. discriminate.
    + vm_compute. discriminate.
    + split; [vm_compute; discriminate|]. split; [discriminate|reflexivity].
    + destruct H as [-> [(e & _ & _ & _ & H) _]].
      * intros (e & He & _). by apply not_elem_of_nil in He.
      * split; [reflexivity|]. exists e. exact H.
  - exfalso. assert ((ValidateFile (c_display_name rec_row) (1, 7).1).1 = true) as Hv
      by (vm_compute; reflexivity). rewrite V in Hv. discriminate Hv.
Defined.

Lemma healEntry_queue_witness :
  queue_outcome rec_row rec_world
    (healEntry rec_rec "/sync/docs/a.txt" "docs/a.txt" rec_entry rec_world).
Proof.
  apply (healEntry_queue rec_rec rec_row "/sync/docs/a.txt" rec_entry (1, 7) rec_world).
  - vm_compute. reflexivity.
  - reflexivity.
  - reflexivity.
  - exact rec_wf.
  - split; reflexivity.
  - reflexivity.
Defined.
